(* ===== verification/_CoqProject ===== *)
-Q . S2P
Prelude.v
Json.v
Doc.v
Sample.v
Action.v
Model.v
Builtins.v
Entry.v
Redeliver.v
Store.v
StoreInv.v
StoreProps.v
Apps.v
Scenario.v
Text.v
Cosign.v
Invite.v
Blob.v
Codec.v
Engine.v
EngineProps.v
Sync.v
Fs.v
ReadModel.v
Relations.v
Feed.v
CatchUp.v
Package.v
PackageProps.v
Update.v
Processor.v
Runner.v
Jobs.v
Config.v
ConfigProps.v
Logs.v
Status.v
Daemon.v
DaemonDrives.v
DaemonProps.v
DaemonConfig.v
Llm.v
Web.v
Console.v
Offers.v
Server.v
LlmApi.v
ConsoleProps.v
Assets.v
OffersProps.v
Tray.v
TrayRun.v
Host.v
Instances.v
Start.v
Api.v
Routes.v
Cli.v
CliProps.v
TestKit.v
TestDoc.v
TestModel.v
TestStore.v
TestNet.v
TestPackage.v
TestViews.v
TestApp.v
TestTray.v
TestConsole.v
TestLife.v
TestSync.v
Achra.v
