(* ===== verification/Prelude.v ===== *)
(** * A verification of ph-reactor

    ph-reactor is a peer-to-peer document store.  A document is a map of fields
    that is only changed by signed actions; every action names a document, the
    model that interprets it, a timestamp and a vector clock.  Nodes keep, per
    document, a log of actions, merge them field by field (the largest
    timestamp and origin wins), and exchange them by gossip and by catch-up
    requests.  Models are JSON definitions that say which payloads a reducer
    takes, who may use it, and which fields it writes.  Documents may belong to
    a space, itself a document, whose visibility and members decide who may
    read them.

    ** The parts, and where they are modelled

    - [Prelude], [Json], [Text]: Rust's [Result], machine integers, byte strings,
      total orders, stable sorting, JSON values ([serde_json::Value]), trimming;
      and the interfaces to code outside the repository ([Platform] for SHA-256,
      ed25519, hex and JSON text; [Base64]; [Serde]; [Net] for multiaddrs), each
      with the laws the program relies on.  [Sample] is a computable platform
      that satisfies them, used by the witnesses: its digest is a 40-bit
      checksum and its JSON text elides what is nested deeper than two levels.
    - [Doc] (src/doc.rs): ids, hashes, model references, vector clocks, fields,
      operations and [apply_op], the per-field merge.
    - [Action] (src/action.rs): signed actions, their canonical bytes,
      signatures, co-signatures and hash.
    - [Model] (src/model/mod.rs, open.rs, l1.rs): the [Model] trait as a class,
      its two implementations, the interpreter of JSON definitions and the
      registry.  [Builtins]: the shipped definitions, entry for entry, and the
      readers of a space document (src/model/*.rs).
    - [Entry] (src/store.rs): one document with its log, and the three folds of
      a log: the incremental one, the re-fold and the replay from disk.
    - [Store] (src/store.rs): the state [Inner] and every operation that changes
      it, as functions on the state with an error result ([storeM]); access
      predicates, catch-up, restart and the audit.
    - [Cosign], [Invite], [Codec] (src/p2p): proposal tokens, invites and the
      framed messages.  [Blob] (src/blob/mod.rs): the chunk store.
    - [Engine] (src/p2p/mod.rs): the sync engine.  A handler of its event loop is
      a function on [SyncEngine]; what it does to the network and the daemon is
      appended to [g_out].  [run_step] is one turn of the loop.
    - [Fs]: the files of the program, as a map from paths to bytes with a
      schedule that says which of the next calls the operating system refuses
      or cuts short; [fsE] is the monad of code that uses them.
    - [ReadModel], [Relations], [Jobs] (views/src): snapshots, the coordinator,
      the document view, the relationship index, and the queue of jobs with its
      dispatcher and worker as a step relation; queries (src/query.rs).
    - [Package] (src/package, src/model/persist.rs): manifests and their
      checks, publisher trust, installation, the file of runtime models.
      [Update] (src/update): versions, releases, the swap of the binary and
      rollback.  [Processor] (src/processor.rs, src/projection.rs): specs, their
      dispatch and reactions, projections.  [Runner]: the processor engine as a
      running task, with its subscription to the store it writes to.
    - [Config] (src/config.rs, src/paths.rs), [Logs] (src/logrotate.rs),
      [Status] (src/status.rs): the configuration document and its file, log
      rotation, the status snapshot and the clock text.
    - [Daemon] (src/daemon.rs, src/commands.rs): the context [Ctx], one function
      per command ([execute_command]) and per engine event
      ([on_engine_event]), edits of the configuration adopted from outside,
      the self-update check and the drive commands that run without a daemon.
      [daemon_step] is one turn of its loop.
    - The settings server (src/settings): [Web] has its state, the way a handler
      reaches the daemon ([call], [request]) and the handlers for drives,
      documents, groups, processors and models (mod.rs); [Console] the spaces,
      the inbox and the plugin bridge (spaces.rs, inbox.rs, mod.rs, assets.rs);
      [Offers] packages, releases and the migration of groups (packages.rs,
      updates.rs, migrate.rs); [Llm] the guard on the address of the language
      model and the reading of its answer, [LlmApi] the three handlers that ask
      it, with the calls they make.  [Server] puts the requests that change
      something together ([serve]), with the drive routes; [Api] adds the JSON
      of the status and the routes and bodies the command line uses
      ([serve_http]); [Routes] is the whole router, with every body it reads.
    - [Tray] (src/tray): the menu built from a snapshot, its layout on the bus,
      what a click sends, and the installation of the icon.  [TrayRun]: the task
      that follows the snapshots and signals a host.
    - [Host]: a process with its environment, clock, process table and output
      beside the files ([hostM]), the identity file (src/p2p/mod.rs), the lock,
      the pid file and the port checks (src/daemon.rs).  [Instances]: [stop],
      the parent of a daemonized start, and several daemons and stop commands on
      one directory, call by call ([istep]).  [Start]: [run_inner] from the
      state directory to its loop ([bring_up]) and back down.
    - [Cli] (src/main.rs, src/cli.rs, src/daemon.rs): every command of the
      command line after its arguments are parsed, with what it prints and its
      exit code.

    The engine holds the store and the chunk store and calls their operations;
    the store calls the models of its registry and the merge of [Doc]; the
    daemon shares the store with the engine, tells the engine what to do by
    sending it commands and hears of it by events; the settings server shares
    the daemon's store and files, and changes documents by sending the daemon
    commands; the command line talks to that server, or works on the files when
    no daemon runs; the tray sends the daemon commands; processors, projections
    and read models follow the change feed of the store.

    ** What is proved

    - Merge ([Doc]): order does not matter for a set of well-stamped writes, and
      the winner of each field is the write with the largest timestamp and
      origin; clocks form a join semilattice; the text of a model reference
      parses back.
    - Signatures ([Action], [Invite], [Cosign]): signed bytes determine what is
      signed, differ between the kinds of message, and signing, co-signing and
      the tokens that carry them round-trip.
    - Models ([Model], [Builtins], [Apps]): payload validation, authorization and
      reduction against declarative readings; what the shipped group, space and
      chat definitions guarantee about the documents they govern.
    - Entries ([Redeliver]): a second copy of an action is harmless.
    - The store ([StoreInv], [StoreProps]): an invariant of all reachable states
      (every document is the canonical fold of its log from its snapshot, and
      the log file holds the log), hence that nodes with the same actions hold
      the same documents whatever the order; exactly when an action is accepted
      and that a refused one changes nothing; spaces, keys, names, local writes,
      restart.
    - The engine ([EngineProps], [Sync]): a turn of the loop is a sequence of
      store operations, so the store's theorems hold under a running engine;
      what responses and gossip may disclose; the handshake; bans; models
      fetched from peers.  [CatchUp]: two engines in conversation, and that a
      node that is behind on a document asks for it and ends with the document
      of the node that answered.
    - Chunks and frames ([Blob], [Codec]): round trips and integrity.
    - The read side ([Feed], [Relations], [Jobs]): the document view that
      follows the feed equals the store, the relationship index answers what
      the documents declare, its two searches end and are exact, the job queue
      is bounded and drains, and when it deadlocks.
    - Packages and updates ([PackageProps], [Update], [DaemonProps]): what a
      signature binds, what an install does, that an update never leaves a
      broken binary whatever call is refused, that it can be rolled back, and
      that the release taken is the best acceptable one.
    - Processors and projections ([Processor], [Runner]): what a projection may
      write, the list of specs and its history; the engine handles every change
      of its feed once and in order under any interleaving with the rest of the
      daemon.
    - Configuration, logs, status ([ConfigProps], [Logs], [Status]): saving and
      loading round-trip and never leave half a file, setting a key is all or
      nothing, a log keeps its recent history within bounds, the clock text is
      the calendar's.
    - The daemon ([DaemonDrives], [DaemonProps], [DaemonConfig]): it changes the
      store only by store operations; the engine, composed with the daemon,
      holds exactly the configured drives; its configuration stays well-typed
      and valid, and the file is one the next start reads; invites are spent
      once; a drive command does the same with and without a daemon; names
      survive URLs.
    - Start and stop ([Host], [Start], [Instances]): a start reaches the loop
      with the replayed store and the invariant the loop keeps; the identity is
      made once; at most one daemon works on a directory, whatever is killed
      when; [stop] and the parent of a daemonized start end in time.
    - The command line and the tray ([Api], [CliProps], [Tray], [TrayRun]): a
      command that goes through the daemon does there exactly what it says, is
      refused without effect when none runs, and reads without one agree with
      it; the
      status survives its JSON; followed logs are complete; a click on the menu
      sends exactly the command of its item; a host that follows the signals
      never shows an old menu.
    - The settings server ([Server], [Routes], [ConsoleProps], [OffersProps],
      [Llm], [LlmApi]): a request that reads changes nothing; one that writes
      moves the store only by store operations, whatever becomes of its command;
      a path reaches one route, but for three clashes of names; what a request
      that is not JSON can do; the asset origin serves only signed bundles, under
      headers that keep them apart ([Assets]); a
      drive command typed at the command line reaches the daemon as
      that command; a plugin reads and writes only what its manifest declares
      and where it is enabled; the inbox shows exactly what its rules select; a
      document made with defaults validates; a package is installed only through
      every check, and uninstalling it keeps what the others need; console and
      daemon pick the same release; a draft by the language model makes at most
      three calls, all to the configured address, and changes nothing.
    - [Scenario] runs concrete nodes; it holds the witnesses of the store's
      theorems and the runs in which the program departs from its own comments
      (a restart that changes a document, a snapshot that unbinds a space, a
      space initialised again).  [Sync] and [Codec] hold those of the engine
      (the unfiltered summary of the tick, a model replaced by a peer, a chunk
      that does not fit in a message), [CatchUp] a snapshot that keeps a document
      from a new peer for good, [Feed], [Processor], [Jobs], [Update],
      [ConfigProps], [DaemonDrives], [ConsoleProps] and [OffersProps] those of
      their components (a plugin that reads another space through a document of
      the same name, a migration that stops halfway); so do [Runner] (a reaction
      that feeds itself), [LlmApi] (any environment variable sent to any
      address), [Host], [Instances], [Start], [CliProps] and [Tray] (an identity
      replaced after a failed read, a stop that hides a new daemon, a click on a
      stale menu that removes another drive).

    - The tests of the repository ([TestDoc], [TestModel], [TestStore],
      [TestNet], [TestPackage], [TestViews], [TestApp], [TestTray],
      [TestConsole]; [TestLife] and [TestSync] for the integration tests): a test
      function is an executable definition of the same name that makes the calls
      of the test on the model and checks its assertions; each suite is proved to
      have no failing test.  [TestKit] has the assertions and a platform with the
      full JSON text.  [TestSync] runs two whole engines on a network that
      delivers what they send.  [Achra] has the definitions of
      models/achra.json with their tests: an award takes two approvers, but a
      second [init] replaces them.

    ** Bounds and assumptions

    - The interpreter of preconditions runs with fuel 9: the code refuses nested
      named checks deeper than 8, so the fuel is never what stops it.  The fuel
      of [chunks] and of [evict] is the length of the list, one per step.  The
      searches of [Relations] run with fuel computed from the edges and are
      proved to end with it; [drain] runs for the sum of the attempts the jobs
      have left, and is proved to empty the queue.  The waits of [stop] and of
      the parent of a start take fuel, and 152 and 151 rounds are proved enough
      for a clock that advances by what they sleep.
    - [u64] and [u32] values are naturals with the wrap-around written out;
      theorems on signed bytes assume lengths below 2^32.  A log is folded into a
      snapshot at 1024 actions, as in the code.
    - The wall clock, fresh document ids, random nonces and peer ids, and the
      table of connections are arguments.  In the store and the chunk store
      writing a file succeeds; what a file held before is arbitrary where it is
      read back ([Blob], restart).  In the components built on [Fs] any call may
      be refused, unless a theorem assumes a calm schedule.
    - Modification times of [config.json] are an argument of the daemon
      ([World]), and commands sent to the engine are executed in order.
    - A handler of the settings server reads and sends its command with no
      other turn of the daemon in between; what becomes of the command (the
      channel closed, the answer late or in time) is an argument ([Link]).
      Where a plugin is confined by names, the theorem assumes that the names of
      the live documents lead to them; that this can fail is proved too.
    - A method of the store runs under its lock and is one step.  [update_field]
      and the deletes take the lock once per call they make; they are modelled
      as the sequence of those calls without another in between.
    - The order in which a [HashMap] is iterated is not fixed by the program; the
      model uses that of the finite map, and no theorem depends on it.
    - A reachable store registers a model under a free name and version; that a
      peer can replace a loaded one is proved separately.

    ** What is not modelled

    The libp2p swarm and its transports, the text of log messages and the
    logging set-up, permissions of files, the fork itself and the detached
    standard streams, the HTTP transport, the pages of the console, the two
    prompts of the language model, the session bus itself (the calls of the tray
    are a log), the parser of the command-line arguments and the build script:
    each is a library call or a constant text.

    Of the tests, those of the text of the console pages, of the JSON text of a
    derived type, of types of other crates, of the random nonce and of real
    network set-up are not ported, nor those on much data: blobs of several
    chunks ([Blob] proves their round trip), log rotation ([Logs]), the log of
    more than a thousand updates that is folded into a snapshot ([StoreProps]). *)

From stdpp Require Import base list gmap strings numbers pretty sorting.
From Stdlib Require Import Strings.Byte Strings.Ascii.

(** ** Rust's [Result] *)

Inductive result (E A : Type) : Type :=
  | Ok (a : A)
  | Err (e : E).
Arguments Ok {E A} a.
Arguments Err {E A} e.

#[export] Instance result_ret {E} : MRet (result E) := fun A a => Ok a.
#[export] Instance result_bind {E} : MBind (result E) :=
  fun A B k m => match m with Ok a => k a | Err e => Err e end.
#[export] Instance result_fmap {E} : FMap (result E) :=
  fun A B f m => match m with Ok a => Ok (f a) | Err e => Err e end.

Definition is_ok {E A} (r : result E A) : bool :=
  match r with Ok _ => true | Err _ => false end.

(** [Option::ok_or_else]. *)
Definition ok_or {E A} (o : option A) (e : E) : result E A :=
  match o with Some a => Ok a | None => Err e end.

#[export] Instance result_eq_dec {E A} `{EqDecision E, EqDecision A} :
  EqDecision (result E A).
Proof. solve_decision. Defined.

(** ** Machine integers *)

(** A [u64] is an [N]; arithmetic that can leave the range wraps, as it does
    in a release build. *)
Definition U64_MOD : N := 18446744073709551616.
Definition wrap64 (n : N) : N := (n mod U64_MOD)%N.
Definition u64_succ (n : N) : N := wrap64 (n + 1).
(** [x as u32]. *)
Definition u32_of_nat (n : nat) : N := (N.of_nat n mod 4294967296)%N.

(** ** Byte strings *)

#[export] Instance byte_eq_decision : EqDecision byte := Byte.byte_eq_dec.

Definition byte_of_N (n : N) : byte := default x00 (Byte.of_N (n mod 256)).

(** [to_be_bytes] of a [k]-byte unsigned integer. *)
Fixpoint be_bytes (k : nat) (n : N) : list byte :=
  match k with
  | O => []
  | S k' => be_bytes k' (n / 256) ++ [byte_of_N n]
  end.

(** [str::as_bytes]: strings hold their UTF-8 bytes. *)
Definition as_bytes (s : string) : list byte := String.list_byte_of_string s.

(** [s.len()]: the length in bytes. *)
Definition slen (s : string) : nat := String.length s.

(** A [u32] big-endian length followed by the bytes. *)
Definition len_prefixed (b : list byte) : list byte :=
  be_bytes 4 (u32_of_nat (length b)) ++ b.

(** ** Total orders *)

(** What [#[derive(Ord)]] promises: a decidable total order whose equality is
    the type's equality. *)
Class TotalOrd (A : Type) := {
  ord_leb : A -> A -> bool;
  ord_refl : forall x, ord_leb x x = true;
  ord_trans : forall x y z,
    ord_leb x y = true -> ord_leb y z = true -> ord_leb x z = true;
  ord_antisym : forall x y, ord_leb x y = true -> ord_leb y x = true -> x = y;
  ord_total : forall x y, ord_leb x y = true \/ ord_leb y x = true
}.

Definition ord_ltb {A} `{TotalOrd A} (x y : A) : bool := negb (ord_leb y x).

(** Lexicographic order of a pair. *)
Definition pair_leb {A B} `{EqDecision A, TotalOrd A, TotalOrd B}
    (p q : A * B) : bool :=
  if decide (p.1 = q.1) then ord_leb p.2 q.2 else ord_leb p.1 q.1.

(** ** Stable sorting by a key *)

Section SortBy.
Context {A K : Type} `{TotalOrd K} (key : A -> K).

Fixpoint insert_by (x : A) (l : list A) : list A :=
  match l with
  | [] => [x]
  | y :: l' =>
      if ord_leb (key x) (key y) then x :: y :: l' else y :: insert_by x l'
  end.

(** [slice::sort_by_key]: stable, so an element goes before its equals. *)
Fixpoint sort_by_key (l : list A) : list A :=
  match l with
  | [] => []
  | x :: l' => insert_by x (sort_by_key l')
  end.

(** Non-decreasing keys. *)
Inductive sorted_by : list A -> Prop :=
  | sorted_by_nil : sorted_by []
  | sorted_by_cons x l :
      Forall (fun y => ord_leb (key x) (key y) = true) l ->
      sorted_by l -> sorted_by (x :: l).
End SortBy.

(** The keys of the elements of [l] identify them. *)
Definition key_inj {A K} (key : A -> K) (l : list A) : Prop :=
  forall x y, x ∈ l -> y ∈ l -> key x = key y -> x = y.

(** ** List helpers *)

(** [Iterator::find_map]. *)
Fixpoint find_map {A B} (f : A -> option B) (l : list A) : option B :=
  match l with
  | [] => None
  | x :: l' => match f x with Some b => Some b | None => find_map f l' end
  end.

(** Membership as the boolean [iter().any(|x| x == a)]. *)
Definition contains {A} `{EqDecision A} (l : list A) (a : A) : bool :=
  bool_decide (a ∈ l).

(** Distinct elements, in order of first occurrence. *)
Fixpoint dedup {A} `{EqDecision A} (acc l : list A) : list A :=
  match l with
  | [] => acc
  | x :: l' => dedup (if contains acc x then acc else acc ++ [x]) l'
  end.

(** ** Proof automation *)

Create HintDb reactor discriminated.
Create Rewrite HintDb reactor.

(** Destruct the scrutinee of a [match] or [if] of the goal or a hypothesis,
    keeping its equation. *)
Ltac case_match_goal :=
  match goal with
  | |- context [ match ?x with _ => _ end ] => destruct x eqn:?
  end.
Ltac case_match_hyp H :=
  match type of H with
  | context [ match ?x with _ => _ end ] => destruct x eqn:?
  end.

(** Follow the success path of a monadic computation in [H]: every scrutinee
    that would give an error is discharged. *)
Ltac ok_path H := repeat (case_match_hyp H; try discriminate H; simplify_eq/=).

(** ** Lemmas: results *)

Lemma bind_ok {E A B} (r : result E A) (f : A -> result E B) (b : B) :
  (x ← r; f x) = Ok b <-> exists x, r = Ok x /\ f x = Ok b.
Proof. destruct r; simpl; naive_solver. Qed.

Lemma ok_or_ok {E A} (o : option A) (e : E) (a : A) : ok_or o e = Ok a <-> o = Some a.
Proof. destruct o; simpl; naive_solver. Qed.

(** ** Lemmas: bytes *)

Lemma to_N_byte_of_N n : Byte.to_N (byte_of_N n) = (n mod 256)%N.
Proof.
  unfold byte_of_N.
  destruct (Byte.of_N (n mod 256)) as [b|] eqn:E; simpl.
  - by apply Byte.to_of_N in E.
  - apply Byte.of_N_None_iff in E.
    pose proof (N.mod_upper_bound n 256). lia.
Qed.

Lemma byte_of_N_inj m n : byte_of_N m = byte_of_N n -> (m mod 256 = n mod 256)%N.
Proof. intros E. by rewrite <- !to_N_byte_of_N, E. Qed.

Lemma be_bytes_S k n : be_bytes (S k) n = be_bytes k (n / 256) ++ [byte_of_N n].
Proof. reflexivity. Qed.

Lemma be_bytes_length k n : length (be_bytes k n) = k.
Proof.
  revert n; induction k as [|k IH]; intros n; simpl; [done|].
  rewrite length_app, IH. simpl. lia.
Qed.

Lemma be_bytes_inj k m n :
  (m < 256 ^ N.of_nat k)%N -> (n < 256 ^ N.of_nat k)%N ->
  be_bytes k m = be_bytes k n -> m = n.
Proof.
  revert m n; induction k as [|k IH]; intros m n Hm Hn E.
  - change (256 ^ N.of_nat 0)%N with 1%N in *. lia.
  - simpl in E. apply app_inj_tail in E as [E1 E2].
    assert (P : (256 ^ N.of_nat (S k) = 256 * 256 ^ N.of_nat k)%N).
    { rewrite Nat2N.inj_succ, N.pow_succ_r'. done. }
    rewrite P in Hm, Hn.
    apply IH in E1; [|apply N.Div0.div_lt_upper_bound; lia..].
    apply byte_of_N_inj in E2.
    rewrite (N.div_mod m 256), (N.div_mod n 256) by done. lia.
Qed.

Lemma as_bytes_length s : length (as_bytes s) = slen s.
Proof.
  unfold as_bytes, slen. induction s as [|c s IH]; simpl; [done|].
  f_equal. exact IH.
Qed.

Lemma as_bytes_inj s t : as_bytes s = as_bytes t -> s = t.
Proof.
  intros E. rewrite <- (String.string_of_list_byte_of_string s).
  unfold as_bytes in E. rewrite E. apply String.string_of_list_byte_of_string.
Qed.

Lemma u32_of_nat_inj m n :
  (N.of_nat m < 4294967296)%N -> (N.of_nat n < 4294967296)%N ->
  u32_of_nat m = u32_of_nat n -> m = n.
Proof.
  unfold u32_of_nat. intros Hm Hn. rewrite !N.mod_small by done. lia.
Qed.

(** A fixed-width field can be split off a byte string. *)
Lemma app_inj_len {A} (a b c d : list A) :
  length a = length b -> a ++ c = b ++ d -> a = b /\ c = d.
Proof. intros L E. by apply app_inj_1. Qed.

Lemma tail_inj {A} (x : A) l k : x :: l = x :: k -> l = k.
Proof. congruence. Qed.

Lemma be_bytes_app_inj k m n r s :
  (m < 256 ^ N.of_nat k)%N -> (n < 256 ^ N.of_nat k)%N ->
  be_bytes k m ++ r = be_bytes k n ++ s -> m = n /\ r = s.
Proof.
  intros Hm Hn E. apply app_inj_len in E as [E1 E2].
  - split; [by eapply be_bytes_inj|done].
  - by rewrite !be_bytes_length.
Qed.

(** A length-prefixed field can be split off a byte string. *)
Lemma len_prefixed_app_inj a b r s :
  (N.of_nat (length a) < 4294967296)%N -> (N.of_nat (length b) < 4294967296)%N ->
  len_prefixed a ++ r = len_prefixed b ++ s -> a = b /\ r = s.
Proof.
  unfold len_prefixed. intros Ha Hb E. rewrite <- !app_assoc in E.
  apply be_bytes_app_inj in E as [E1 E2].
  - apply u32_of_nat_inj in E1; [|done..]. by apply app_inj_len.
  - unfold u32_of_nat. apply N.mod_lt. done.
  - unfold u32_of_nat. apply N.mod_lt. done.
Qed.

Lemma str_prefixed_app_inj s t r r' :
  (N.of_nat (slen s) < 4294967296)%N -> (N.of_nat (slen t) < 4294967296)%N ->
  len_prefixed (as_bytes s) ++ r = len_prefixed (as_bytes t) ++ r' ->
  s = t /\ r = r'.
Proof.
  intros Hs Ht E. apply len_prefixed_app_inj in E as [E1 E2].
  - split; [by apply as_bytes_inj|done].
  - by rewrite as_bytes_length.
  - by rewrite as_bytes_length.
Qed.

(** ** Lemmas: orders *)

Lemma ascii_compare_trans a b c :
  Ascii.compare a b = Lt -> Ascii.compare b c = Lt -> Ascii.compare a c = Lt.
Proof.
  unfold Ascii.compare. rewrite !N.compare_lt_iff. lia.
Qed.

Lemma str_compare_refl s : String.compare s s = Eq.
Proof.
  induction s as [|c s IH]; simpl; [done|].
  unfold Ascii.compare. by rewrite N.compare_refl.
Qed.

Lemma str_compare_lt_trans s t u :
  String.compare s t = Lt -> String.compare t u = Lt -> String.compare s u = Lt.
Proof.
  revert t u; induction s as [|a s IH]; intros [|b t] [|c u]; simpl; try done.
  destruct (Ascii.compare a b) eqn:E1; try done;
    destruct (Ascii.compare b c) eqn:E2; try done; intros H1 H2.
  - apply Ascii.compare_eq_iff in E1, E2. subst.
    unfold Ascii.compare. rewrite N.compare_refl. eauto.
  - apply Ascii.compare_eq_iff in E1. subst. by rewrite E2.
  - apply Ascii.compare_eq_iff in E2. subst. by rewrite E1.
  - by rewrite (ascii_compare_trans _ _ _ E1 E2).
Qed.

Lemma str_leb_refl s : String.leb s s = true.
Proof. unfold String.leb. by rewrite str_compare_refl. Qed.

Lemma str_leb_trans s t u :
  String.leb s t = true -> String.leb t u = true -> String.leb s u = true.
Proof.
  unfold String.leb. intros H1 H2.
  destruct (String.compare s t) eqn:E1; try done;
    destruct (String.compare t u) eqn:E2; try done.
  - apply String.compare_eq_iff in E1, E2. subst. by rewrite str_compare_refl.
  - apply String.compare_eq_iff in E1. subst. by rewrite E2.
  - apply String.compare_eq_iff in E2. subst. by rewrite E1.
  - by rewrite (str_compare_lt_trans _ _ _ E1 E2).
Qed.

#[export] Program Instance string_ord : TotalOrd string := {| ord_leb := String.leb |}.
Next Obligation. apply str_leb_refl. Qed.
Next Obligation. intros x y z. apply str_leb_trans. Qed.
Next Obligation. intros x y. apply String.leb_antisym. Qed.
Next Obligation. intros x y. apply String.leb_total. Qed.

#[export] Program Instance N_ord : TotalOrd N := {| ord_leb := N.leb |}.
Next Obligation. intros x. apply N.leb_refl. Qed.
Next Obligation. intros x y z. simpl. rewrite !N.leb_le. lia. Qed.
Next Obligation. intros x y. simpl. rewrite !N.leb_le. lia. Qed.
Next Obligation. intros x y. simpl. rewrite !N.leb_le. lia. Qed.

#[export] Program Instance pair_ord {A B} `{EqDecision A, TotalOrd A, TotalOrd B} :
  TotalOrd (A * B) := {| ord_leb := pair_leb |}.
Next Obligation. intros. unfold pair_leb. case_decide; [apply ord_refl|done]. Qed.
Next Obligation.
  intros A B ? ? ? [a b] [a' b'] [a'' b'']. unfold pair_leb; simpl.
  intros H1 H2. repeat case_decide; subst; try congruence; eauto using ord_trans.
  exfalso. eauto using ord_antisym.
Qed.
Next Obligation.
  intros A B ? ? ? [a b] [a' b']. unfold pair_leb; simpl.
  intros H1 H2. repeat case_decide; subst; try congruence.
  - f_equal. by apply ord_antisym.
  - exfalso. eauto using ord_antisym.
Qed.
Next Obligation.
  intros A B ? ? ? [a b] [a' b']. unfold pair_leb; simpl.
  repeat case_decide; subst; try congruence; apply ord_total.
Qed.

#[global] Arguments ord_leb : simpl never.
#[global] Arguments ord_ltb : simpl never.

Section OrdLemmas.
Context {A : Type} `{TotalOrd A}.
Implicit Types x y z : A.

Lemma ord_ltb_irrefl x : ord_ltb x x = false.
Proof. unfold ord_ltb. by rewrite ord_refl. Qed.

Lemma ord_ltb_leb x y : ord_ltb x y = true -> ord_leb x y = true.
Proof.
  unfold ord_ltb. intros E%negb_true_iff.
  destruct (ord_total x y) as [?|E']; [done|congruence].
Qed.

Lemma ord_not_ltb_leb x y : ord_ltb x y = false <-> ord_leb y x = true.
Proof. unfold ord_ltb. by rewrite negb_false_iff. Qed.

Lemma ord_ltb_trans x y z :
  ord_ltb x y = true -> ord_ltb y z = true -> ord_ltb x z = true.
Proof.
  intros H1 H2. destruct (ord_ltb x z) eqn:E; [done|].
  apply ord_not_ltb_leb in E. apply ord_ltb_leb in H1.
  unfold ord_ltb in H2. apply negb_true_iff in H2.
  by rewrite (ord_trans _ _ _ E H1) in H2.
Qed.

Lemma ord_ltb_asym x y : ord_ltb x y = true -> ord_ltb y x = false.
Proof. intros H1%ord_ltb_leb. by apply ord_not_ltb_leb. Qed.

Lemma ord_ltb_total x y : x <> y -> ord_ltb x y = false -> ord_ltb y x = true.
Proof.
  intros Hne H1%ord_not_ltb_leb. destruct (ord_ltb y x) eqn:E; [done|].
  apply ord_not_ltb_leb in E. by destruct Hne; apply ord_antisym.
Qed.
End OrdLemmas.

(** ** Lemmas: sorting *)

Section SortLemmas.
Context {A K : Type} `{TotalOrd K} (key : A -> K).

Lemma insert_by_perm x l : insert_by key x l ≡ₚ x :: l.
Proof.
  induction l as [|y l IH]; simpl; [done|]. case_match; [done|].
  rewrite IH. apply Permutation_swap.
Qed.

Lemma sort_by_key_perm l : sort_by_key key l ≡ₚ l.
Proof.
  induction l as [|x l IH]; simpl; [done|].
  rewrite insert_by_perm. by rewrite IH.
Qed.

Lemma insert_by_sorted x l : sorted_by key l -> sorted_by key (insert_by key x l).
Proof.
  induction 1 as [|y l Hy Hl IH]; simpl; [repeat constructor|].
  case_match eqn:E.
  - constructor; [|by constructor]. constructor; [done|].
    eapply Forall_impl; [exact Hy|]. simpl; intros; eauto using ord_trans.
  - constructor; [|done]. rewrite insert_by_perm.
    constructor; [|done]. destruct (ord_total (key x) (key y)); congruence.
Qed.

Lemma sort_by_key_sorted l : sorted_by key (sort_by_key key l).
Proof. induction l; simpl; [constructor|]. by apply insert_by_sorted. Qed.

Lemma insert_by_le x l :
  Forall (fun y => ord_leb (key x) (key y) = true) l -> insert_by key x l = x :: l.
Proof. destruct 1 as [|y l E]; simpl; [done|]. by rewrite E. Qed.

(** Sorting is the identity on sorted input. *)
Lemma sort_by_key_id l : sorted_by key l -> sort_by_key key l = l.
Proof.
  induction 1 as [|x l Hx _ IH]; simpl; [done|]. by rewrite IH, insert_by_le.
Qed.

Lemma sorted_by_snoc l x :
  sorted_by key (l ++ [x]) <->
  sorted_by key l /\ Forall (fun y => ord_leb (key y) (key x) = true) l.
Proof.
  induction l as [|y l IH]; simpl.
  - split; [intros _; split; constructor|intros _; repeat constructor].
  - split.
    + inversion 1 as [|? ? Hy Hl]; subst. apply IH in Hl as [Hl Hx].
      apply Forall_app in Hy as [Hy Hyx]. rewrite Forall_singleton in Hyx.
      split; [by constructor|]. apply Forall_cons. split; [exact Hyx|exact Hx].
    + intros [Hl Hx]. inversion Hl; subst. inversion Hx; subst.
      constructor; [|by apply IH]. apply Forall_app. split; [done|].
      by apply Forall_singleton.
Qed.

(** Appending an element that is not below the last one keeps the order. *)
Lemma sorted_by_snoc_last l x :
  sorted_by key l ->
  (forall y, last l = Some y -> ord_leb (key y) (key x) = true) ->
  sorted_by key (l ++ [x]).
Proof.
  intros Hl Hx. apply sorted_by_snoc. split; [done|].
  destruct l as [|z l' _] using rev_ind; [constructor|].
  rewrite last_snoc in Hx. specialize (Hx z eq_refl).
  apply sorted_by_snoc in Hl as [_ Hz].
  apply Forall_app. split; [|by apply Forall_singleton].
  eapply Forall_impl; [exact Hz|]. simpl. eauto using ord_trans.
Qed.

(** A sorted arrangement is unique when keys identify elements. *)
Lemma sorted_by_unique l k :
  sorted_by key l -> sorted_by key k -> l ≡ₚ k -> key_inj key l -> l = k.
Proof.
  intros Hl. revert k. induction Hl as [|x l Hx Hl IH]; intros k Hk P Hi.
  - by apply Permutation_nil_l in P.
  - destruct Hk as [|y k Hy Hk]; [by apply Permutation_nil_r in P|].
    assert (x = y) as ->.
    { assert (Hxk : x ∈ y :: k) by (rewrite <- P; left).
      assert (Hyl : y ∈ x :: l) by (rewrite P; left).
      apply Hi; [left|done|]. apply ord_antisym.
      - apply elem_of_cons in Hyl as [->|Hyl]; [apply ord_refl|].
        by rewrite Forall_forall in Hx; apply Hx.
      - apply elem_of_cons in Hxk as [->|Hxk]; [apply ord_refl|].
        by rewrite Forall_forall in Hy; apply Hy. }
    f_equal. apply IH; [done|by eapply Permutation_cons_inv|].
    intros a b Ha Hb. apply Hi; by right.
Qed.

Lemma sort_by_key_unique l k :
  l ≡ₚ k -> key_inj key l -> sort_by_key key l = sort_by_key key k.
Proof.
  intros P Hi. apply sorted_by_unique; eauto using sort_by_key_sorted.
  - by rewrite !sort_by_key_perm.
  - intros a b. rewrite !sort_by_key_perm. apply Hi.
Qed.
End SortLemmas.

(** ** Iterating a [BTreeMap] *)

(** The entries in ascending key order. *)
Definition btree_iter {V} (m : gmap string V) : list (string * V) :=
  sort_by_key fst (map_to_list m).

Lemma elem_of_btree_iter {V} (m : gmap string V) k v :
  (k, v) ∈ btree_iter m <-> m !! k = Some v.
Proof. unfold btree_iter. rewrite sort_by_key_perm. apply elem_of_map_to_list. Qed.

(** The iteration determines the map. *)
Lemma btree_iter_inj {V} (m n : gmap string V) : btree_iter m = btree_iter n -> m = n.
Proof.
  intros E. apply map_eq. intros k. apply option_eq. intros v.
  by rewrite <- !elem_of_btree_iter, E.
Qed.

(** ** Lemmas: lists *)

Lemma contains_true {A} `{EqDecision A} (l : list A) a :
  contains l a = true <-> a ∈ l.
Proof. unfold contains. by rewrite bool_decide_eq_true. Qed.

Lemma contains_false {A} `{EqDecision A} (l : list A) a :
  contains l a = false <-> a ∉ l.
Proof. unfold contains. by rewrite bool_decide_eq_false. Qed.

Lemma elem_of_dedup {A} `{EqDecision A} (acc l : list A) a :
  a ∈ dedup acc l <-> a ∈ acc \/ a ∈ l.
Proof.
  revert acc; induction l as [|x l IH]; intros acc; simpl; [set_solver|].
  rewrite IH. case_match eqn:E; [apply contains_true in E|]; set_solver.
Qed.

Lemma NoDup_dedup {A} `{EqDecision A} (acc l : list A) :
  NoDup acc -> NoDup (dedup acc l).
Proof.
  revert acc; induction l as [|x l IH]; intros acc Hd; simpl; [done|].
  apply IH. case_match eqn:E; [done|]. apply contains_false in E.
  apply NoDup_app. split_and!; [done| |apply NoDup_singleton]. set_solver.
Qed.

Lemma find_map_Some {A B} (f : A -> option B) l b :
  find_map f l = Some b -> exists a, a ∈ l /\ f a = Some b.
Proof.
  induction l as [|x l IH]; simpl; [done|]. destruct (f x) eqn:E.
  - intros [= <-]. exists x. split; [left|done].
  - intros (a & Ha & Hf)%IH. exists a. split; [by right|done].
Qed.

#[export] Hint Resolve ord_refl sort_by_key_sorted : reactor.
#[export] Hint Rewrite be_bytes_length as_bytes_length : reactor.

#[global] Arguments be_bytes : simpl never.
