(* ===== verification/Json.v ===== *)
(** JSON values as [serde_json::Value] presents them to the program, and the
    boundary to the code that is not part of the repository: SHA-256, ed25519,
    [hex] and the JSON writer.

    [serde_json]'s map is a [BTreeMap] here (no [preserve_order] feature), so
    an object is an association list in ascending key order and iterating it
    visits the keys in that order.  Numbers are the integers of
    [serde_json::Number]; floating-point numbers are outside the model. *)

From stdpp Require Import base list gmap strings numbers pretty.
From Stdlib Require Import Strings.Byte.
From S2P Require Import Prelude.

Inductive Value : Type :=
  | Null
  | Bool (b : bool)
  | Number (n : Z)
  | Str (s : string)
  | Array (l : list Value)
  | Object (m : list (string * Value)).

#[export] Instance Value_eq_dec : EqDecision Value.
Proof.
  unfold EqDecision. fix IH 1. intros [|b|n|s|l|m] [|b'|n'|s'|l'|m'];
    try (right; discriminate).
  - left; reflexivity.
  - destruct (decide (b = b')); [left|right]; congruence.
  - destruct (decide (n = n')); [left|right]; congruence.
  - destruct (decide (s = s')); [left|right]; congruence.
  - destruct (@list_eq_dec Value IH l l'); [left|right]; congruence.
  - destruct (@list_eq_dec _ (@prod_eq_dec string _ Value IH) m m');
      [left|right]; congruence.
Defined.

(** ** Accessors *)

Definition as_str (v : Value) : option string :=
  match v with Str s => Some s | _ => None end.
Definition as_array (v : Value) : option (list Value) :=
  match v with Array l => Some l | _ => None end.
Definition as_object (v : Value) : option (list (string * Value)) :=
  match v with Object m => Some m | _ => None end.
Definition as_u64 (v : Value) : option N :=
  match v with
  | Number n => if (0 <=? n)%Z then Some (Z.to_N n) else None
  | _ => None
  end.
Definition is_string (v : Value) : bool := match v with Str _ => true | _ => false end.
Definition is_number (v : Value) : bool := match v with Number _ => true | _ => false end.
Definition is_boolean (v : Value) : bool := match v with Bool _ => true | _ => false end.
Definition is_object (v : Value) : bool := match v with Object _ => true | _ => false end.
Definition is_array (v : Value) : bool := match v with Array _ => true | _ => false end.

(** ** Objects *)

Fixpoint obj_lookup (m : list (string * Value)) (k : string) : option Value :=
  match m with
  | [] => None
  | (k', v) :: m' => if decide (k = k') then Some v else obj_lookup m' k
  end.

(** [Map::insert]: keeps the keys ascending, replaces an existing value. *)
Fixpoint obj_insert (k : string) (v : Value) (m : list (string * Value)) :
    list (string * Value) :=
  match m with
  | [] => [(k, v)]
  | (k', v') :: m' =>
      if decide (k = k') then (k, v) :: m'
      else if ord_leb k k' then (k, v) :: (k', v') :: m'
      else (k', v') :: obj_insert k v m'
  end.

(** [json!({ ... })]: the entries inserted one after the other. *)
Definition json_obj (l : list (string * Value)) : Value :=
  Object (foldl (fun m kv => obj_insert kv.1 kv.2 m) [] l).

(** [Value::get] with a string index. *)
Definition vget (v : Value) (k : string) : option Value :=
  match v with Object m => obj_lookup m k | _ => None end.

(** A JSON array of strings. *)
Definition json_strs (l : list string) : Value := Array (Str <$> l).

(** ** The platform: code outside the repository *)

(** The operations the program calls; each is a parameter of the model. *)
Class Platform := {
  (** [sha2::Sha256], as the big-endian value of the 32 bytes. *)
  sha256 : list byte -> N;
  (** [serde_json::to_vec] on a value. *)
  json_to_vec : Value -> list byte;
  (** [Display] of a value: its compact JSON text. *)
  json_to_string : Value -> string;
  (** [hex::encode] and [hex::decode]. *)
  hex_encode : list byte -> string;
  hex_decode : string -> result string (list byte);
  (** [ed25519_dalek]: a signing key, its public key bytes, the check that
      32 bytes are a public key, signing, [verify] and [verify_strict]. *)
  SigningKey : Type;
  verifying_key : SigningKey -> list byte;
  vk_from_bytes : list byte -> result string unit;
  ed_sign : SigningKey -> list byte -> list byte;
  ed_verify : list byte -> list byte -> list byte -> bool;
  ed_verify_strict : list byte -> list byte -> list byte -> bool
}.

(** What the documentation of those crates promises and the program uses. *)
Class PlatformLaws `{Platform} := {
  sha256_bound : forall b, (sha256 b < 2 ^ 256)%N;
  hex_roundtrip : forall b, hex_decode (hex_encode b) = Ok b;
  vk_valid : forall k, vk_from_bytes (verifying_key k) = Ok tt;
  vk_length : forall k, length (verifying_key k) = 32;
  sign_length : forall k m, length (ed_sign k m) = 64;
  sign_verify : forall k m, ed_verify (verifying_key k) m (ed_sign k m) = true;
  sign_verify_strict : forall k m,
    ed_verify_strict (verifying_key k) m (ed_sign k m) = true
}.

(** Two different byte strings with one digest. *)
Definition sha256_collision `{Platform} : Prop :=
  exists a b, a <> b /\ sha256 a = sha256 b.

(** ** Lemmas *)

Lemma obj_lookup_key o k v : obj_lookup o k = Some v -> k ∈ o.*1.
Proof.
  induction o as [|[k' v'] o IH]; simpl; [done|]. case_decide; set_solver.
Qed.

Lemma obj_lookup_insert_eq k v m : obj_lookup (obj_insert k v m) k = Some v.
Proof.
  induction m as [|[k' v'] m IH]; simpl; [by rewrite decide_True|].
  case_decide; subst; simpl; [by rewrite decide_True|].
  case_match; simpl; [by rewrite decide_True|]. by rewrite decide_False.
Qed.

Lemma obj_lookup_insert_ne k j v m :
  j <> k -> obj_lookup (obj_insert k v m) j = obj_lookup m j.
Proof.
  intros Hne. induction m as [|[k' v'] m IH]; simpl; [by rewrite decide_False|].
  case_decide; subst; simpl; [by rewrite !decide_False|].
  case_match; simpl; [by rewrite (decide_False (P := j = k))|]. by rewrite IH.
Qed.

#[export] Hint Rewrite obj_lookup_insert_eq : reactor.
