(* ===== verification/Doc.v ===== *)
(** The document model of src/doc.rs: vector clocks, fields, single-field
    operations and their merge ([apply_op]), content hashes and model
    references.

    The theorems show that vector clocks are a join semilattice ordered by
    [covers], what [apply_op] does on every branch, that it is idempotent on a
    re-delivered operation, that a document delete is terminal, that writes
    stamped consistently with causality converge to the write with the largest
    [(ts, origin)] in whatever order they arrive, that a field delete arriving
    before the write it deletes does not converge, and that a model reference
    survives printing and parsing. *)

From stdpp Require Import base list gmap strings numbers pretty.
From Stdlib Require Import Strings.Byte Strings.Ascii.
From S2P Require Import Prelude Json.

(** ** Identifiers *)

(** A UUID, as the big-endian value of its 16 bytes ([Uuid]'s order is the
    byte order, which is the numeric one). *)
Abbreviation DocId := N (only parsing).
(** A SHA-256 digest, as the big-endian value of its 32 bytes. *)
Abbreviation Hash32 := N (only parsing).
(** A peer's identity, opaque. *)
Abbreviation Origin := string (only parsing).
(** Per-document vector clock: origin to highest sequence applied. *)
Abbreviation VecClock := (gmap string N) (only parsing).

Definition docid_bytes (d : DocId) : list byte := be_bytes 16 d.
Definition hash_bytes (h : Hash32) : list byte := be_bytes 32 h.

(** [Hash32::of]. *)
Definition hash32_of `{Platform} (b : list byte) : Hash32 := sha256 b.

(** [DocId::derived]: the first 16 bytes of the digest of the seed. *)
Definition docid_derived `{Platform} (seed : string) : DocId :=
  (sha256 (as_bytes seed) / 2 ^ 128)%N.

Fixpoint be_value (b : list byte) (acc : N) : N :=
  match b with
  | [] => acc
  | x :: b' => be_value b' (acc * 256 + Byte.to_N x)%N
  end.

(** [Hash32::from_hex]. *)
Definition hash32_from_hex `{Platform} (s : string) : result string Hash32 :=
  match hex_decode s with
  | Err e => Err ("invalid hex: " +:+ e)
  | Ok v =>
      if decide (length v = 32) then Ok (be_value v 0)
      else Err ("hash must be 32 bytes (got " +:+ pretty (length v) +:+ ")")
  end.

(** ** Model references *)

Record ModelRef := {
  mr_name : string;
  mr_version : string;
  mr_hash : option Hash32
}.

#[export] Instance ModelRef_eq_dec : EqDecision ModelRef.
Proof. solve_decision. Defined.

Definition modelref_new (name version : string) : ModelRef :=
  {| mr_name := name; mr_version := version; mr_hash := None |}.

(** [str::split_once] and [str::rsplit_once] at a character. *)
Fixpoint split_once (c : ascii) (s : string) : option (string * string) :=
  match s with
  | EmptyString => None
  | String a s' =>
      if decide (a = c) then Some (EmptyString, s')
      else match split_once c s' with
           | Some (x, y) => Some (String a x, y)
           | None => None
           end
  end.

Fixpoint rsplit_once (c : ascii) (s : string) : option (string * string) :=
  match s with
  | EmptyString => None
  | String a s' =>
      match rsplit_once c s' with
      | Some (x, y) => Some (String a x, y)
      | None => if decide (a = c) then Some (EmptyString, s') else None
      end
  end.

(** [ModelRef::parse]: [name@version[#hash]]. *)
Definition modelref_parse `{Platform} (s : string) : result string ModelRef :=
  '(nv, hash) ←
    match split_once "#"%char s with
    | Some (nv, h) =>
        match hash32_from_hex h with
        | Ok d => Ok (nv, Some d)
        | Err e => Err ("'" +:+ s +:+ "': " +:+ e)
        end
    | None => Ok (s, None)
    end;
  '(name, version) ←
    ok_or (rsplit_once "@"%char nv) ("model ref '" +:+ s +:+ "' must be name@version");
  if bool_decide (name = "") || bool_decide (version = "")
  then Err ("model ref '" +:+ s +:+ "' has an empty name or version")
  else Ok {| mr_name := name; mr_version := version; mr_hash := hash |}.

(** [Display for ModelRef]. *)
Definition modelref_display `{Platform} (r : ModelRef) : string :=
  mr_name r +:+ "@" +:+ mr_version r +:+
  match mr_hash r with
  | Some h => "#" +:+ hex_encode (hash_bytes h)
  | None => ""
  end.

(** Whether a string contains a character. *)
Fixpoint has_char (c : ascii) (s : string) : bool :=
  match s with
  | EmptyString => false
  | String a s' => bool_decide (a = c) || has_char c s'
  end.

(** A reference [Display] prints unambiguously: non-empty name and version, no
    ['#'] in either, no ['@'] in the version, a 32-byte hash. *)
Definition printable_ref (r : ModelRef) : Prop :=
  mr_name r <> "" /\ mr_version r <> "" /\
  has_char "#"%char (mr_name r) = false /\
  has_char "#"%char (mr_version r) = false /\
  has_char "@"%char (mr_version r) = false /\
  (forall h, mr_hash r = Some h -> (h < 2 ^ 256)%N).

(** ** Vector clocks *)

Definition vc_get (c : VecClock) (o : Origin) : N := default 0%N (c !! o).

Definition vc_tick (c : VecClock) (o : Origin) : VecClock * N :=
  let slot := u64_succ (vc_get c o) in (<[o := slot]> c, slot).

(** One iteration of the loop of [VecClock::merge]. *)
Definition vc_merge_one (k : Origin) (v : N) (c : VecClock) : VecClock :=
  match c !! k with
  | Some slot => <[k := N.max slot v]> c
  | None => <[k := v]> c
  end.
Definition vc_merge (c other : VecClock) : VecClock := map_fold vc_merge_one c other.

Definition vc_covers (c other : VecClock) : bool :=
  forallb (fun '(k, v) => (v <=? vc_get c k)%N) (btree_iter other).

Definition vc_gaps (c other : VecClock) : list (Origin * N) :=
  filter (fun kv => (vc_get c kv.1 < kv.2)%N) (btree_iter other).

Definition vc_from_pairs (pairs : list (Origin * N)) : VecClock :=
  foldl (fun m '(o, n) => if (0 <? n)%N then <[o := n]> m else m) ∅ pairs.

(** ** Fields, documents, operations *)

Record Field := {
  fld_value : Value;
  fld_version : VecClock;
  fld_ts : N;
  fld_origin : Origin;
  fld_deleted : bool
}.

Record Doc := {
  doc_id : DocId;
  doc_name : string;
  doc_fields : gmap string Field
}.

Record Op := {
  op_doc_id : DocId;
  op_key : option string;
  op_value : option Value;
  op_ts : N;
  op_clock : VecClock;
  op_origin : Origin;
  op_sig : list byte
}.

#[export] Instance Field_eq_dec : EqDecision Field.
Proof. solve_decision. Defined.
#[export] Instance Doc_eq_dec : EqDecision Doc.
Proof. solve_decision. Defined.
#[export] Instance Op_eq_dec : EqDecision Op.
Proof. solve_decision. Defined.

Definition set_fields (d : Doc) (m : gmap string Field) : Doc :=
  {| doc_id := doc_id d; doc_name := doc_name d; doc_fields := m |}.

(** [Doc::live]: the view without tombstones. *)
Definition doc_live (d : Doc) : Doc :=
  set_fields d (filter (fun kv => fld_deleted kv.2 = false) (doc_fields d)).

(** [Field::from_op]. *)
Definition from_op (op : Op) : Field :=
  {| fld_value := default Null (op_value op); fld_version := op_clock op;
     fld_ts := op_ts op; fld_origin := op_origin op; fld_deleted := false |}.

(** [Field::tombstone_from_op]. *)
Definition tombstone_from_op (op : Op) : Field :=
  {| fld_value := Null; fld_version := op_clock op;
     fld_ts := op_ts op; fld_origin := op_origin op; fld_deleted := true |}.

Definition field_from_op (op : Op) : Field :=
  match op_value op with None => tombstone_from_op op | Some _ => from_op op end.

Record ApplyResult := { applied : bool; doc_deleted : bool }.

(** The per-field merge inside [apply_op]: the new field map, and whether it
    changed. *)
Definition merge_field (fields : gmap string Field) (key : string) (op : Op) :
    gmap string Field * bool :=
  match fields !! key with
  | None =>
      match op_value op with
      | None => (fields, false)
      | Some _ => (<[key := field_from_op op]> fields, true)
      end
  | Some current =>
      if vc_covers (fld_version current) (op_clock op) then (fields, false)
      else if vc_covers (op_clock op) (fld_version current)
      then (<[key := field_from_op op]> fields, true)
      else if ord_ltb (fld_ts current, fld_origin current) (op_ts op, op_origin op)
      then (<[key := field_from_op op]> fields, true)
      else (fields, false)
  end.

(** [apply_op], with the three [&mut] arguments returned. *)
Definition apply_op (doc : Doc) (clock : VecClock) (deleted : bool) (op : Op) :
    Doc * VecClock * bool * ApplyResult :=
  let clock := vc_merge clock (op_clock op) in
  if deleted then (doc, clock, deleted, {| applied := false; doc_deleted := true |})
  else
    match op_key op with
    | None =>
        (set_fields doc ∅, clock, true, {| applied := true; doc_deleted := true |})
    | Some key =>
        let '(fields, changed) := merge_field (doc_fields doc) key op in
        (set_fields doc fields, clock, deleted,
         {| applied := changed; doc_deleted := false |})
    end.

(** Applying a sequence of operations, as the callers' loops do. *)
Definition apply_ops (st : Doc * VecClock * bool) (ops : list Op) : Doc * VecClock * bool :=
  foldl (fun '(d, c, del) op => (apply_op d c del op).1) st ops.

Definition empty_doc (id : DocId) (name : string) : Doc :=
  {| doc_id := id; doc_name := name; doc_fields := ∅ |}.

(** ** Specification of the merge *)

(** The last-writer-wins stamp of a write. *)
Definition stamp (op : Op) : N * string := (op_ts op, op_origin op).

Definition writes_key (k : string) (op : Op) : Prop := op_key op = Some k.
#[export] Instance writes_key_dec k op : Decision (writes_key k op).
Proof. unfold writes_key. apply _. Defined.

(** The write with the largest stamp, the earlier one on a tie. *)
Definition later (cur : option Op) (op : Op) : option Op :=
  match cur with
  | None => Some op
  | Some c => if ord_ltb (stamp c) (stamp op) then Some op else Some c
  end.
Definition winner (k : string) (ops : list Op) : option Op :=
  foldl later None (filter (writes_key k) ops).

(** Stamps respect causality: two writes of one field with one stamp are the
    same write, and a write whose clock covers another's is not stamped below
    it (src/doc.rs: "strictly increasing per origin, and never below the
    largest ts the sender has observed for this doc"). *)
Definition well_stamped (ops : list Op) : Prop :=
  forall a b, a ∈ ops -> b ∈ ops -> op_key a = op_key b ->
    (stamp a = stamp b -> a = b) /\
    (vc_covers (op_clock b) (op_clock a) = true ->
     ord_leb (stamp a) (stamp b) = true).

(** No operation deletes a single field. *)
Definition no_field_deletes (ops : list Op) : Prop :=
  forall o, o ∈ ops -> op_key o <> None -> op_value o <> None.

(** ** Vector clocks form a join semilattice *)

Lemma lookup_vc_merge a b k :
  vc_merge a b !! k = union_with (fun x y => Some (N.max x y)) (a !! k) (b !! k).
Proof.
  unfold vc_merge. revert k. apply (map_fold_weak_ind
    (fun acc m => forall k,
       acc !! k = union_with (fun x y => Some (N.max x y)) (a !! k) (m !! k))).
  - intros k. rewrite lookup_empty. by destruct (a !! k).
  - intros i v m acc Hi IH k. unfold vc_merge_one.
    destruct (decide (k = i)) as [->|Hne].
    + rewrite lookup_insert_eq. rewrite IH, Hi.
      destruct (a !! i); simpl; by rewrite lookup_insert_eq.
    + rewrite (lookup_insert_ne m) by done.
      case_match; by rewrite lookup_insert_ne.
Qed.

Lemma vc_get_merge a b k : vc_get (vc_merge a b) k = N.max (vc_get a k) (vc_get b k).
Proof.
  unfold vc_get. rewrite lookup_vc_merge. destruct (a !! k), (b !! k); simpl; lia.
Qed.

Lemma vc_covers_spec a b :
  vc_covers a b = true <-> forall k, (vc_get b k <= vc_get a k)%N.
Proof.
  unfold vc_covers. rewrite forallb_forall. split.
  - intros Hc k. destruct (b !! k) as [v|] eqn:E.
    + unfold vc_get at 1. rewrite E. simpl.
      specialize (Hc (k, v)). simpl in Hc. apply N.leb_le, Hc.
      apply list_elem_of_In. by apply elem_of_btree_iter.
    + unfold vc_get at 1. rewrite E. simpl. lia.
  - intros Hc [k v] Hin%list_elem_of_In%elem_of_btree_iter.
    apply N.leb_le. specialize (Hc k). unfold vc_get at 1 in Hc. by rewrite Hin in Hc.
Qed.

Lemma vc_covers_refl a : vc_covers a a = true.
Proof. apply vc_covers_spec. lia. Qed.

Lemma vc_covers_trans a b c :
  vc_covers a b = true -> vc_covers b c = true -> vc_covers a c = true.
Proof. rewrite !vc_covers_spec. intros H1 H2 k. specialize (H1 k). specialize (H2 k). lia. Qed.

Lemma vc_merge_comm a b : vc_merge a b = vc_merge b a.
Proof.
  apply map_eq. intros k. rewrite !lookup_vc_merge.
  destruct (a !! k), (b !! k); simpl; try done. f_equal. lia.
Qed.

Lemma vc_merge_assoc a b c : vc_merge a (vc_merge b c) = vc_merge (vc_merge a b) c.
Proof.
  apply map_eq. intros k. rewrite !lookup_vc_merge.
  destruct (a !! k), (b !! k), (c !! k); simpl; try done. f_equal. lia.
Qed.

Lemma vc_merge_idemp a : vc_merge a a = a.
Proof.
  apply map_eq. intros k. rewrite lookup_vc_merge.
  destruct (a !! k); simpl; [f_equal; lia|done].
Qed.

Lemma vc_merge_empty_r a : vc_merge a ∅ = a.
Proof. done. Qed.

#[export] Hint Resolve vc_covers_refl : reactor.

(** Merging a sequence of clocks does not depend on the order. *)
Definition merge_all (c : VecClock) (l : list VecClock) : VecClock := foldl vc_merge c l.

Lemma merge_all_perm c l k : l ≡ₚ k -> merge_all c l = merge_all c k.
Proof.
  intros P. revert c. induction P as [|x l k _ IH|x y l|l k m _ IH1 _ IH2]; intros c; simpl.
  - done.
  - apply IH.
  - unfold merge_all; simpl. f_equal. rewrite <- !vc_merge_assoc.
    f_equal. apply vc_merge_comm.
  - by rewrite IH1.
Qed.

(** Two clocks are the same clock up to explicit zero entries. *)
Definition vc_equiv (a b : VecClock) : Prop := forall k, vc_get a k = vc_get b k.

#[export] Instance vc_equiv_equivalence : Equivalence vc_equiv.
Proof.
  split; [done| |].
  - by intros a b E k.
  - intros a b c E1 E2 k. by rewrite E1.
Qed.

#[export] Instance vc_merge_proper :
  Proper (vc_equiv ==> vc_equiv ==> vc_equiv) vc_merge.
Proof. intros a a' E1 b b' E2 k. by rewrite !vc_get_merge, E1, E2. Qed.

#[export] Instance vc_covers_proper : Proper (vc_equiv ==> vc_equiv ==> eq) vc_covers.
Proof.
  intros a a' E1 b b' E2. apply eq_true_iff_eq. rewrite !vc_covers_spec.
  split; intros H k; specialize (H k).
  - by rewrite <- E1, <- E2.
  - by rewrite E1, E2.
Qed.

Lemma vc_covers_antisym a b :
  vc_covers a b = true -> vc_covers b a = true -> vc_equiv a b.
Proof. rewrite !vc_covers_spec. intros H1 H2 k. specialize (H1 k). specialize (H2 k). lia. Qed.

Lemma vc_get_tick c o k :
  vc_get (vc_tick c o).1 k = if decide (k = o) then u64_succ (vc_get c o) else vc_get c k.
Proof.
  unfold vc_tick, vc_get; simpl. case_decide as E.
  - subst. by rewrite lookup_insert_eq.
  - by rewrite lookup_insert_ne.
Qed.

Lemma u64_succ_small n : (n + 1 < U64_MOD)%N -> u64_succ n = (n + 1)%N.
Proof. intros Hn. unfold u64_succ, wrap64. by rewrite N.mod_small. Qed.

(** [VecClock::merge] is commutative, associative and idempotent, and it is
    the least clock that covers both arguments: the merge covers each argument,
    and every clock that covers both covers the merge. *)
Theorem vc_merge_is_join a b c :
  vc_merge a b = vc_merge b a /\
  vc_merge a (vc_merge b c) = vc_merge (vc_merge a b) c /\
  vc_merge a a = a /\
  vc_covers (vc_merge a b) a = true /\
  (vc_covers c a && vc_covers c b = vc_covers c (vc_merge a b)).
Proof.
  split_and!; [apply vc_merge_comm|apply vc_merge_assoc|apply vc_merge_idemp| |].
  - apply vc_covers_spec. intros k. rewrite vc_get_merge. lia.
  - apply eq_true_iff_eq. rewrite andb_true_iff, !vc_covers_spec.
    setoid_rewrite vc_get_merge. split.
    + intros [H1 H2] k. specialize (H1 k). specialize (H2 k). lia.
    + intros H. split; intros k; specialize (H k); lia.
Qed.

(** Below the [u64] limit a tick makes a clock that strictly covers the old
    one and reports the new sequence number. *)
Theorem vc_tick_advances c o :
  (vc_get c o + 1 < U64_MOD)%N ->
  let '(c', n) := vc_tick c o in
  n = (vc_get c o + 1)%N /\ vc_get c' o = n /\
  vc_covers c' c = true /\ vc_covers c c' = false.
Proof.
  intros Hb. pose proof (vc_get_tick c o) as G.
  destruct (vc_tick c o) as [c' n] eqn:E. simpl in G.
  assert (n = (vc_get c o + 1)%N) as ->.
  { unfold vc_tick in E. simplify_eq. by apply u64_succ_small. }
  assert (vc_get c' o = (vc_get c o + 1)%N) as Ho.
  { rewrite G, decide_True by done. by apply u64_succ_small. }
  split_and!; [done|done| |].
  - apply vc_covers_spec. intros k. rewrite G. case_decide; subst; [|lia].
    rewrite u64_succ_small by done. lia.
  - apply not_true_iff_false. rewrite vc_covers_spec. intros Hc.
    specialize (Hc o). lia.
Qed.

(** [gaps] lists exactly the origins where the other clock is ahead; it is
    empty exactly when the clock covers the other. *)
Lemma vc_gaps_nil a b : vc_gaps a b = [] <-> vc_covers a b = true.
Proof.
  unfold vc_gaps, vc_covers. rewrite forallb_forall. split.
  - intros E [k v] Hin%list_elem_of_In. apply N.leb_le.
    destruct (decide (vc_get a k < v)%N) as [Hlt|]; [|lia].
    assert (Hf : (k, v) ∈ filter (fun kv => (vc_get a kv.1 < kv.2)%N) (btree_iter b))
      by (apply list_elem_of_filter; done).
    rewrite E in Hf. by apply not_elem_of_nil in Hf.
  - intros H. apply elem_of_nil_inv. intros [k v] [Hlt Hin]%list_elem_of_filter.
    simpl in *.
    specialize (H (k, v)). simpl in H. apply list_elem_of_In in Hin.
    apply H in Hin. apply N.leb_le in Hin. lia.
Qed.

(** ** The merge of one operation *)

Lemma field_from_op_version o : fld_version (field_from_op o) = op_clock o.
Proof. unfold field_from_op. by destruct (op_value o). Qed.
Lemma field_from_op_stamp o :
  (fld_ts (field_from_op o), fld_origin (field_from_op o)) = stamp o.
Proof. unfold field_from_op. by destruct (op_value o). Qed.
Lemma set_fields_same d : set_fields d (doc_fields d) = d.
Proof. by destruct d. Qed.

(** The merge either keeps the map or installs the operation's field. *)
Lemma merge_field_cases m k o :
  merge_field m k o = (m, false) \/
  merge_field m k o = (<[k := field_from_op o]> m, true).
Proof. unfold merge_field. repeat case_match; auto. Qed.

Lemma merge_field_again m k o :
  merge_field (merge_field m k o).1 k o = ((merge_field m k o).1, false).
Proof.
  destruct (merge_field_cases m k o) as [E|E]; rewrite E; simpl; [done|].
  unfold merge_field. rewrite lookup_insert_eq, field_from_op_version.
  by rewrite vc_covers_refl.
Qed.

Lemma merge_field_other m k j o :
  j <> k -> (merge_field m k o).1 !! j = m !! j.
Proof.
  intros Hne. destruct (merge_field_cases m k o) as [E|E]; rewrite E; simpl; [done|].
  by rewrite lookup_insert_ne.
Qed.

Section ApplyOp.
Implicit Types (d : Doc) (c : VecClock) (del : bool) (o : Op).

Lemma apply_op_key d c o k :
  op_key o = Some k ->
  apply_op d c false o =
  (set_fields d (merge_field (doc_fields d) k o).1, vc_merge c (op_clock o), false,
   {| applied := (merge_field (doc_fields d) k o).2; doc_deleted := false |}).
Proof. intros E. unfold apply_op. rewrite E. by destruct merge_field. Qed.

Lemma apply_op_clock d c del o : (apply_op d c del o).1.1.2 = vc_merge c (op_clock o).
Proof. unfold apply_op. repeat case_match; done. Qed.

Lemma apply_op_name d c del o :
  doc_name (apply_op d c del o).1.1.1 = doc_name d /\
  doc_id (apply_op d c del o).1.1.1 = doc_id d.
Proof. unfold apply_op. repeat case_match; simplify_eq; done. Qed.
End ApplyOp.

(** Applying an operation a second time changes nothing: the fields, the
    clock and the deleted flag are those after the first time, and the second
    delivery is reported as not applied. *)
Theorem apply_op_idempotent d c del o :
  let '(d1, c1, del1, _) := apply_op d c del o in
  let '(d2, c2, del2, r2) := apply_op d1 c1 del1 o in
  d2 = d1 /\ c2 = c1 /\ del2 = del1 /\ applied r2 = false.
Proof.
  assert (Hm : vc_merge (vc_merge c (op_clock o)) (op_clock o) = vc_merge c (op_clock o))
    by by rewrite <- vc_merge_assoc, vc_merge_idemp.
  destruct del; [simpl; by rewrite Hm|].
  destruct (op_key o) as [k|] eqn:Hk.
  - rewrite (apply_op_key _ _ _ k) by done. rewrite (apply_op_key _ _ _ k) by done.
    simpl. rewrite merge_field_again, Hm. done.
  - unfold apply_op. rewrite Hk, Hm. done.
Qed.

(** Deleting a document is terminal: whatever is applied afterwards, in any
    order, the document stays deleted with no fields and keeps its name, and
    none of the later operations is reported as applied. *)
Theorem doc_delete_terminal d c o ops :
  op_key o = None ->
  let '(d1, c1, del1, r1) := apply_op d c false o in
  let '(d2, _, del2) := apply_ops (d1, c1, del1) ops in
  applied r1 = true /\ doc_deleted r1 = true /\
  d2 = d1 /\ del2 = true /\ doc_fields d2 = ∅ /\ doc_name d2 = doc_name d /\
  Forall (fun o' => applied (apply_op d2 c del2 o').2 = false) ops.
Proof.
  intros Hk. unfold apply_op at 1. rewrite Hk.
  assert (Hops : forall c', exists c'',
    apply_ops (set_fields d ∅, c', true) ops = (set_fields d ∅, c'', true)).
  { induction ops as [|o' ops IH]; intros c'; simpl; [by eexists|]. apply IH. }
  destruct (Hops (vc_merge c (op_clock o))) as [c'' ->].
  split_and!; try done. apply Forall_true. done.
Qed.

(** ** Convergence of well-stamped writes *)

Lemma winner_snoc k ops o :
  winner k (ops ++ [o]) =
  if decide (op_key o = Some k) then later (winner k ops) o else winner k ops.
Proof.
  unfold winner. rewrite filter_app, foldl_app. case_decide as E.
  - rewrite filter_cons_True by exact E. done.
  - rewrite filter_cons_False by exact E. done.
Qed.

(** [winner] is a write of the field with a maximal stamp. *)
Lemma winner_spec k ops :
  match winner k ops with
  | Some w => w ∈ ops /\ op_key w = Some k /\
      forall o, o ∈ ops -> op_key o = Some k -> ord_leb (stamp o) (stamp w) = true
  | None => forall o, o ∈ ops -> op_key o <> Some k
  end.
Proof.
  induction ops as [|o ops IH] using rev_ind; [intros o Ho; by apply elem_of_nil in Ho|].
  rewrite winner_snoc. case_decide as Hk.
  - destruct (winner k ops) as [w|]; simpl.
    + destruct IH as (Hw & Hwk & Hmax).
      destruct (ord_ltb (stamp w) (stamp o)) eqn:Hlt.
      * split_and!; [set_solver|done|]. intros o' [Ho'| ->%list_elem_of_singleton]%elem_of_app Hk'.
        -- eapply ord_trans; [by eapply Hmax|by apply ord_ltb_leb].
        -- apply ord_refl.
      * apply ord_not_ltb_leb in Hlt. split_and!; [set_solver|done|].
        intros o' [Ho'| ->%list_elem_of_singleton]%elem_of_app Hk'; eauto.
    + split_and!; [set_solver|done|].
      intros o' [Ho'| ->%list_elem_of_singleton]%elem_of_app Hk'; [|apply ord_refl].
      by destruct (IH o').
  - destruct (winner k ops) as [w|].
    + destruct IH as (Hw & Hwk & Hmax). split_and!; [set_solver|done|].
      intros o' [Ho'| ->%list_elem_of_singleton]%elem_of_app Hk'; eauto.
    + intros o' [Ho'| ->%list_elem_of_singleton]%elem_of_app; eauto.
Qed.

Lemma winner_perm k ops ops' :
  ops ≡ₚ ops' -> well_stamped ops -> winner k ops = winner k ops'.
Proof.
  intros P Hws. pose proof (winner_spec k ops) as S1. pose proof (winner_spec k ops') as S2.
  destruct (winner k ops) as [w|], (winner k ops') as [w'|]; [|exfalso..|done].
  - destruct S1 as (Hw & Hk & Hm), S2 as (Hw' & Hk' & Hm'). rewrite <- P in Hw'.
    f_equal. apply (Hws w w'); [done|done|congruence|]. apply ord_antisym.
    + apply Hm'; [by rewrite <- P|done].
    + by apply Hm.
  - destruct S1 as (Hw & Hk & _). apply (S2 w); [by rewrite <- P|done].
  - destruct S2 as (Hw & Hk & _). apply (S1 w'); [by rewrite P|done].
Qed.

(** One step of the merge follows one step of [later]. *)
Lemma merge_field_later ops m k o :
  well_stamped (ops ++ [o]) -> op_value o <> None -> op_key o = Some k ->
  m !! k = field_from_op <$> winner k ops ->
  (merge_field m k o).1 !! k = field_from_op <$> later (winner k ops) o.
Proof.
  intros Hws Hv Hk Hm. unfold merge_field. rewrite Hm.
  pose proof (winner_spec k ops) as S. destruct (winner k ops) as [w|]; simpl.
  2:{ destruct (op_value o); [|done]. simpl. by rewrite lookup_insert_eq. }
  destruct S as (Hw & Hwk & _). rewrite field_from_op_version, field_from_op_stamp.
  destruct (Hws w o) as [Heq1 Hc1]; [set_solver|set_solver|congruence|].
  destruct (Hws o w) as [Heq2 Hc2]; [set_solver|set_solver|congruence|].
  fold (stamp o).
  destruct (vc_covers (op_clock w) (op_clock o)) eqn:E1.
  - rewrite (proj2 (ord_not_ltb_leb _ _) (Hc2 eq_refl)). exact Hm.
  - destruct (ord_ltb (stamp w) (stamp o)) eqn:Hlt.
    + destruct (vc_covers (op_clock o) (op_clock w)); simpl; by rewrite lookup_insert_eq.
    + destruct (vc_covers (op_clock o) (op_clock w)) eqn:E2; simpl; [|exact Hm].
      apply ord_not_ltb_leb in Hlt.
      assert (w = o) as -> by (apply Heq1, ord_antisym; auto).
      by rewrite vc_covers_refl in E1.
Qed.

Definition has_doc_delete (ops : list Op) : bool :=
  existsb (fun o => bool_decide (op_key o = None)) ops.

(** What a fresh document looks like after a sequence of writes. *)
Definition merged_as (id : DocId) (name : string) (c : VecClock) (ops : list Op)
    (st : Doc * VecClock * bool) : Prop :=
  let '(d, c', del) := st in
  doc_id d = id /\ doc_name d = name /\ c' = merge_all c (op_clock <$> ops) /\
  del = has_doc_delete ops /\
  forall k, doc_fields d !! k =
    if has_doc_delete ops then None else field_from_op <$> winner k ops.

Lemma apply_ops_merged id name c ops :
  well_stamped ops -> no_field_deletes ops ->
  merged_as id name c ops (apply_ops (empty_doc id name, c, false) ops).
Proof.
  induction ops as [|o ops IH] using rev_ind; intros Hws Hnd.
  { by split_and!. }
  assert (Hws' : well_stamped ops) by (intros a b Ha Hb; apply Hws; set_solver).
  assert (Hnd' : no_field_deletes ops) by (intros a Ha; apply Hnd; set_solver).
  specialize (IH Hws' Hnd'). unfold apply_ops. rewrite foldl_snoc. fold (apply_ops (empty_doc id name, c, false) ops).
  destruct (apply_ops (empty_doc id name, c, false) ops) as [[d c'] del].
  destruct IH as (Hid & Hname & -> & -> & Hf). unfold merged_as.
  assert (Hdel : has_doc_delete (ops ++ [o]) =
                 has_doc_delete ops || bool_decide (op_key o = None)).
  { unfold has_doc_delete. rewrite existsb_app. simpl. by rewrite orb_false_r. }
  assert (Hcl : merge_all c (op_clock <$> (ops ++ [o])) =
                vc_merge (merge_all c (op_clock <$> ops)) (op_clock o)).
  { unfold merge_all. by rewrite fmap_app, foldl_app. }
  rewrite Hdel, Hcl. destruct (has_doc_delete ops) eqn:Ed.
  - simpl. split_and!; auto.
  - destruct (op_key o) as [k|] eqn:Hk.
    + rewrite (apply_op_key _ _ _ k) by done. simpl. split_and!; auto.
      intros j. rewrite winner_snoc. destruct (decide (k = j)) as [<-|Hne].
      * rewrite decide_True by done. apply merge_field_later; auto.
        apply Hnd; [set_solver|congruence].
      * rewrite decide_False by congruence. rewrite merge_field_other by congruence.
        apply Hf.
    + unfold apply_op. rewrite Hk. simpl. split_and!; auto.
Qed.

(** C7. Convergence: any two arrival orders of the same operations (writes and
    whole-document deletes, stamped consistently with causality) leave a fresh
    document with the same fields, clock and deleted flag. *)
Theorem apply_ops_converge id name c ops ops' :
  well_stamped ops -> no_field_deletes ops -> ops ≡ₚ ops' ->
  apply_ops (empty_doc id name, c, false) ops =
  apply_ops (empty_doc id name, c, false) ops'.
Proof.
  intros Hws Hnd P.
  assert (Hws' : well_stamped ops') by (intros a b; rewrite <- P; apply Hws).
  assert (Hnd' : no_field_deletes ops') by (intros a; rewrite <- P; apply Hnd).
  pose proof (apply_ops_merged id name c ops Hws Hnd) as M.
  pose proof (apply_ops_merged id name c ops' Hws' Hnd') as M'.
  assert (Hdel : has_doc_delete ops = has_doc_delete ops').
  { apply eq_true_iff_eq. unfold has_doc_delete. rewrite !existsb_exists.
    setoid_rewrite <- list_elem_of_In. by setoid_rewrite P. }
  destruct (apply_ops (empty_doc id name, c, false) ops) as [[d1 c1] del1].
  destruct (apply_ops (empty_doc id name, c, false) ops') as [[d2 c2] del2].
  destruct M as (I1 & N1 & -> & -> & F1), M' as (I2 & N2 & -> & -> & F2).
  rewrite Hdel. f_equal. f_equal.
  - destruct d1 as [i1 n1 f1], d2 as [i2 n2 f2]; simpl in *. subst. f_equal.
    apply map_eq. intros k. rewrite F1, F2, Hdel. by rewrite (winner_perm k ops ops').
  - apply merge_all_perm. by rewrite P.
Qed.


(** ** Deletes of single fields do not converge *)

Module FieldDelete.
Definition clk (n : N) : VecClock := {[ "peer-01" := n ]}.
Definition write : Op :=
  {| op_doc_id := 1; op_key := Some "k"; op_value := Some (Number 1); op_ts := 1;
     op_clock := clk 1; op_origin := "peer-01"; op_sig := [] |}.
Definition erase : Op :=
  {| op_doc_id := 1; op_key := Some "k"; op_value := None; op_ts := 2;
     op_clock := clk 2; op_origin := "peer-01"; op_sig := [] |}.
End FieldDelete.

(** The delete of a field that arrives before the write it deletes is
    dropped, and the older write then stays: the two arrival orders of one
    write and its causally later delete leave different documents, one with the
    field live and one with it deleted. *)
Theorem field_delete_order_dependent :
  let live_after ops :=
    fld_deleted <$>
      doc_fields (apply_ops (empty_doc 1 "n", ∅, false) ops).1.1 !! "k" in
  vc_covers (op_clock FieldDelete.erase) (op_clock FieldDelete.write) = true /\
  well_stamped [FieldDelete.write; FieldDelete.erase] /\
  live_after [FieldDelete.write; FieldDelete.erase] = Some true /\
  live_after [FieldDelete.erase; FieldDelete.write] = Some false.
Proof.
  split_and!; try by vm_compute.
  intros a b Ha Hb _. set_unfold in Ha. set_unfold in Hb.
  destruct Ha as [->|[->|[]]], Hb as [->|[->|[]]];
    (split; [try done; intros E; by vm_compute in E|by vm_compute]).
Qed.

(** The convergence theorem has instances: two concurrent writers of one
    field, with the tie broken by the origin. *)
Module Concurrent.
Definition wr (o : string) (v : Z) : Op :=
  {| op_doc_id := 1; op_key := Some "f"; op_value := Some (Number v); op_ts := 5;
     op_clock := {[ o := 1%N ]}; op_origin := o; op_sig := [] |}.
Definition ops : list Op := [wr "peer-01" 1; wr "peer-02" 2].

Lemma ops_well_stamped : well_stamped ops.
Proof.
  intros a b Ha Hb _. set_unfold in Ha. set_unfold in Hb.
  destruct Ha as [->|[->|[]]], Hb as [->|[->|[]]];
    (split; [try done; intros E; by vm_compute in E|by vm_compute]).
Qed.

Lemma ops_no_deletes : no_field_deletes ops.
Proof. intros o Ho. set_unfold in Ho. by destruct Ho as [->|[->|[]]]. Qed.
End Concurrent.

Lemma apply_ops_converge_witness :
  apply_ops (empty_doc 1 "n", ∅, false) Concurrent.ops =
  apply_ops (empty_doc 1 "n", ∅, false) (rev Concurrent.ops).
Proof.
  apply (apply_ops_converge 1 "n" ∅ Concurrent.ops (rev Concurrent.ops)
    Concurrent.ops_well_stamped Concurrent.ops_no_deletes).
  apply Permutation_rev.
Defined.


Lemma doc_delete_terminal_witness :
  let o := {| op_doc_id := 1; op_key := None; op_value := None; op_ts := 9;
              op_clock := ∅; op_origin := "peer-01"; op_sig := [] |} in
  let '(d1, c1, del1, r1) := apply_op (empty_doc 1 "n") ∅ false o in
  let '(d2, _, del2) := apply_ops (d1, c1, del1) Concurrent.ops in
  applied r1 = true /\ doc_deleted r1 = true /\
  d2 = d1 /\ del2 = true /\ doc_fields d2 = ∅ /\ doc_name d2 = "n" /\
  Forall (fun o' => applied (apply_op d2 ∅ del2 o').2 = false) Concurrent.ops.
Proof.
  intros o. exact (doc_delete_terminal (empty_doc 1 "n") ∅ o Concurrent.ops eq_refl).
Defined.

(** ** Model references survive printing and parsing *)

Lemma str_app_assoc (a b c : string) : (a +:+ b) +:+ c = a +:+ (b +:+ c).
Proof. induction a as [|x a IH]; [done|]. exact (f_equal (String x) IH). Qed.
Lemma str_app_nil_r (a : string) : a +:+ "" = a.
Proof. induction a as [|x a IH]; [done|]. exact (f_equal (String x) IH). Qed.

Lemma has_char_app c a b : has_char c (a +:+ b) = has_char c a || has_char c b.
Proof. induction a as [|x a IH]; simpl; [done|]. by rewrite IH, orb_assoc. Qed.

Lemma split_once_app c a b :
  has_char c a = false -> split_once c (a +:+ String c b) = Some (a, b).
Proof.
  induction a as [|x a IH]; simpl; intros E.
  - by rewrite decide_True.
  - apply orb_false_iff in E as [E1 E2]. apply bool_decide_eq_false in E1.
    rewrite decide_False by done. by rewrite IH.
Qed.

Lemma split_once_none c a : has_char c a = false -> split_once c a = None.
Proof.
  induction a as [|x a IH]; simpl; intros E; [done|].
  apply orb_false_iff in E as [E1 E2]. apply bool_decide_eq_false in E1.
  rewrite decide_False by done. by rewrite IH.
Qed.

Lemma rsplit_once_none c a : has_char c a = false -> rsplit_once c a = None.
Proof.
  induction a as [|x a IH]; simpl; intros E; [done|].
  apply orb_false_iff in E as [E1 E2]. apply bool_decide_eq_false in E1.
  rewrite IH by done. by rewrite decide_False.
Qed.

Lemma rsplit_once_app c a b :
  has_char c b = false -> rsplit_once c (a +:+ String c b) = Some (a, b).
Proof.
  intros E. induction a as [|x a IH]; simpl.
  - rewrite (rsplit_once_none _ _ E). by rewrite decide_True.
  - by rewrite IH.
Qed.

Lemma be_value_app b c acc : be_value (b ++ c) acc = be_value c (be_value b acc).
Proof. revert acc; induction b as [|x b IH]; intros acc; simpl; [done|]. apply IH. Qed.

Lemma be_value_be_bytes k n : (n < 256 ^ N.of_nat k)%N -> be_value (be_bytes k n) 0 = n.
Proof.
  revert n. induction k as [|k IH]; intros n Hn.
  - change (256 ^ N.of_nat 0)%N with 1%N in Hn. simpl. lia.
  - rewrite be_bytes_S, be_value_app. simpl. rewrite to_N_byte_of_N.
    rewrite Nat2N.inj_succ, N.pow_succ_r' in Hn.
    rewrite IH by (apply N.Div0.div_lt_upper_bound; lia).
    rewrite (N.div_mod n 256) at 3 by done. lia.
Qed.

(** Parsing the printed form of a model reference gives it back, hash
    included. *)
Theorem modelref_roundtrip `{PlatformLaws} (r : ModelRef) :
  printable_ref r -> modelref_parse (modelref_display r) = Ok r.
Proof.
  destruct r as [name version hash].
  intros (Hn & Hv & Hnh & Hvh & Hva & Hh); simpl in *.
  assert (Hnv : has_char "#"%char (name +:+ String "@" version) = false).
  { rewrite has_char_app, Hnh. simpl. by rewrite Hvh. }
  assert (Hend : bool_decide (name = "") || bool_decide (version = "") = false).
  { by rewrite !bool_decide_eq_false_2. }
  unfold modelref_parse. destruct hash as [h|].
  - assert (Hs : split_once "#"%char (modelref_display
        {| mr_name := name; mr_version := version; mr_hash := Some h |})
      = Some (name +:+ String "@" version, hex_encode (hash_bytes h))).
    { rewrite <- (split_once_app "#"%char _ _ Hnv). f_equal.
      unfold modelref_display; simpl. by rewrite str_app_assoc. }
    rewrite Hs. unfold hash32_from_hex, hash_bytes.
    rewrite hex_roundtrip, be_bytes_length, decide_True by done.
    rewrite be_value_be_bytes by (apply Hh; done).
    simpl. rewrite rsplit_once_app by done. simpl. by rewrite Hend.
  - assert (Hs : modelref_display
        {| mr_name := name; mr_version := version; mr_hash := None |}
      = name +:+ String "@" version).
    { unfold modelref_display; simpl. by rewrite str_app_nil_r. }
    rewrite Hs, split_once_none by done. simpl.
    rewrite rsplit_once_app by done. simpl. by rewrite Hend.
Qed.
