(* ===== verification/Sample.v ===== *)
(** A concrete platform, for the witnesses: every operation of [Platform] as a
    computable function that satisfies [PlatformLaws].  The digest is a
    40-bit polynomial checksum, a signature is the signer's key with the digest
    of the message, and the text of a value elides what is nested deeper than
    two levels; they stand in for SHA-256, ed25519 and [serde_json] only in
    examples. *)

From stdpp Require Import base list gmap strings numbers pretty.
From Stdlib Require Import Strings.Byte Strings.Ascii.
From S2P Require Import Prelude Json.

Definition nibble_char (n : N) : ascii :=
  ascii_of_N (if (n <? 10)%N then n + 48 else n + 87).
Definition char_nibble (c : ascii) : option N :=
  let n := N_of_ascii c in
  if (48 <=? n)%N && (n <=? 57)%N then Some (n - 48)%N
  else if (97 <=? n)%N && (n <=? 102)%N then Some (n - 87)%N
  else None.

Fixpoint sample_hex_encode (b : list byte) : string :=
  match b with
  | [] => EmptyString
  | x :: b' =>
      String (nibble_char (Byte.to_N x / 16))
        (String (nibble_char (Byte.to_N x mod 16)) (sample_hex_encode b'))
  end.

Fixpoint sample_hex_decode (s : string) : result string (list byte) :=
  match s with
  | EmptyString => Ok []
  | String a (String b s') =>
      match char_nibble a, char_nibble b, sample_hex_decode s' with
      | Some x, Some y, Ok r => Ok (byte_of_N (x * 16 + y) :: r)
      | _, _, _ => Err "invalid hex character"
      end
  | String _ EmptyString => Err "odd number of digits"
  end.

Definition sample_digest (b : list byte) : N :=
  foldl (fun acc x => N.land (acc * 31 + Byte.to_N x + 1) (N.ones 40))%N 7%N b.

Definition quoted (s : string) : string :=
  String (ascii_of_N 34) (s +:+ String (ascii_of_N 34) EmptyString).

(** The JSON text of a value to a nesting depth; what lies deeper is elided. *)
Fixpoint sample_json (depth : nat) (v : Value) : string :=
  match depth with
  | O => "..."
  | S depth' =>
      match v with
      | Null => "null"
      | Bool b => if b then "true" else "false"
      | Number n => pretty n
      | Str s => quoted s
      | Array l => "[" +:+ String.concat "," (sample_json depth' <$> l) +:+ "]"
      | Object m =>
          "{" +:+ String.concat ","
                    ((fun kv => quoted kv.1 +:+ ":" +:+ sample_json depth' kv.2) <$> m) +:+ "}"
      end
  end.

Definition sample_vk (k : N) : list byte := be_bytes 32 k.
Definition sample_sign (k : N) (m : list byte) : list byte :=
  sample_vk k ++ be_bytes 32 (sample_digest m).
Definition sample_verify (pk m s : list byte) : bool :=
  bool_decide (s = pk ++ be_bytes 32 (sample_digest m)).

#[export] Instance sample_platform : Platform := {|
  sha256 := sample_digest;
  json_to_vec := fun v => as_bytes (sample_json 2 v);
  json_to_string := sample_json 2;
  hex_encode := sample_hex_encode;
  hex_decode := sample_hex_decode;
  SigningKey := N;
  verifying_key := sample_vk;
  vk_from_bytes := fun b => if decide (length b = 32) then Ok tt else Err "bad length";
  ed_sign := sample_sign;
  ed_verify := sample_verify;
  ed_verify_strict := sample_verify
|}.

(** A signing key of the sample platform. *)
Definition sk (n : N) : SigningKey := n.

Lemma sample_hex_roundtrip b : sample_hex_decode (sample_hex_encode b) = Ok b.
Proof.
  induction b as [|x b IH]; [done|]. cbn [sample_hex_encode sample_hex_decode].
  rewrite IH. destruct x; reflexivity.
Qed.

Lemma sample_digest_bound b : (sample_digest b < 2 ^ 256)%N.
Proof.
  unfold sample_digest. destruct b as [|x b _] using rev_ind; [done|].
  rewrite foldl_snoc, N.land_ones. etrans; [by apply N.mod_lt|done].
Qed.

#[export] Instance sample_laws : PlatformLaws.
Proof.
  split.
  - apply sample_digest_bound.
  - apply sample_hex_roundtrip.
  - intros k. unfold vk_from_bytes, verifying_key, sample_platform.
    by rewrite decide_True by apply be_bytes_length.
  - intros k. apply be_bytes_length.
  - intros k m. unfold ed_sign, sample_platform, sample_sign, sample_vk. by rewrite length_app, !be_bytes_length.
  - intros k m. by apply bool_decide_eq_true.
  - intros k m. by apply bool_decide_eq_true.
Qed.

(** ** A text for values *)

(** Values as trees, hence as numbers, hence as bytes: a text format for the
    sample files. *)
Fixpoint value_tree (v : Value) : gen_tree (string + (Z + bool)) :=
  match v with
  | Null => GenNode 0 []
  | Bool b => GenLeaf (inr (inr b))
  | Number n => GenLeaf (inr (inl n))
  | Str s => GenLeaf (inl s)
  | Array l => GenNode 1 (value_tree <$> l)
  | Object m => GenNode 2 ((fun kv => GenNode 3 [GenLeaf (inl kv.1); value_tree kv.2]) <$> m)
  end.
Fixpoint tree_value (t : gen_tree (string + (Z + bool))) : option Value :=
  match t with
  | GenLeaf (inl s) => Some (Str s)
  | GenLeaf (inr (inl n)) => Some (Number n)
  | GenLeaf (inr (inr b)) => Some (Bool b)
  | GenNode 0 [] => Some Null
  | GenNode 1 l => Some (Array (omap tree_value l))
  | GenNode 2 l =>
      Some (Object (omap (fun t => match t with
                                   | GenNode 3 [GenLeaf (inl k); t'] => pair k <$> tree_value t'
                                   | _ => None
                                   end) l))
  | _ => None
  end.
Lemma tree_value_tree v : tree_value (value_tree v) = Some v.
Proof.
  revert v. fix IH 1. intros [|b|n|s|l|m]; simpl; try done; f_equal; f_equal.
  - induction l as [|v l IHl]; simpl; [done|]. rewrite IH. by f_equal.
  - induction m as [|[k v] m IHm]; simpl; [done|]. rewrite IH. simpl. by f_equal.
Qed.
#[export] Instance Value_countable : Countable Value := inj_countable value_tree tree_value tree_value_tree.

Fixpoint pos_bytes (p : positive) : list byte :=
  match p with xH => [] | xO p => x00 :: pos_bytes p | xI p => x01 :: pos_bytes p end.
Fixpoint bytes_pos (b : list byte) : positive :=
  match b with
  | x00 :: b => xO (bytes_pos b)
  | x01 :: b => xI (bytes_pos b)
  | _ => xH
  end.
Lemma bytes_pos_bytes p : bytes_pos (pos_bytes p) = p.
Proof. induction p; simpl; congruence. Qed.
Lemma bytes_pos_line p : bytes_pos (pos_bytes p ++ [x0a]) = p.
Proof. by induction p as [p IH|p IH|]; cbn; rewrite ?IH. Qed.
