(* ===== verification/Action.v ===== *)
(** Signed bytes: the canonical form of a v1 operation (src/doc.rs) and of an
    action (src/action.rs), signing, verification, and the content hash that
    chains a document's log.

    The theorems show that the canonical form is unambiguous: two actions (two
    operations) with the same bytes agree on every signed field, so a signature
    covers the fields and not just their concatenation; and that two actions
    with one hash are the same signed action unless SHA-256 collides. *)

From stdpp Require Import base list gmap strings numbers pretty.
From Stdlib Require Import Strings.Byte Strings.Ascii.
From S2P Require Import Prelude Json Doc Sample.

(** ** The v1 operation *)

(** [0x01 len bytes], or [0x00]. *)
Definition tagged_bytes (o : option (list byte)) : list byte :=
  match o with
  | Some b => [x01] ++ len_prefixed b
  | None => [x00]
  end.

(** [doc::message_bytes]. *)
Definition op_message_bytes `{Platform} (op : Op) : list byte :=
  docid_bytes (op_doc_id op)
  ++ tagged_bytes (as_bytes <$> op_key op)
  ++ tagged_bytes (json_to_vec <$> op_value op)
  ++ be_bytes 8 (op_ts op)
  ++ len_prefixed (as_bytes (op_origin op)).

Definition op_sign `{Platform} (op : Op) (key : SigningKey) : Op :=
  {| op_doc_id := op_doc_id op; op_key := op_key op; op_value := op_value op;
     op_ts := op_ts op; op_clock := op_clock op; op_origin := op_origin op;
     op_sig := ed_sign key (op_message_bytes op) |}.

Definition op_verify `{Platform} (op : Op) (pk : list byte) : bool :=
  ed_verify pk (op_message_bytes op) (op_sig op).

(** ** The action *)

Record CoSig := { cs_origin : Origin; cs_sig : list byte }.

Record Action := {
  a_doc_id : DocId;
  a_model : ModelRef;
  a_kind : string;
  a_payload : Value;
  a_ts : N;
  a_clock : VecClock;
  a_origin : Origin;
  a_cosig : list CoSig;
  a_prev_hash : option Hash32;
  a_space : option DocId;
  a_sig : list byte
}.

#[export] Instance CoSig_eq_dec : EqDecision CoSig.
Proof. solve_decision. Defined.
#[export] Instance Action_eq_dec : EqDecision Action.
Proof. solve_decision. Defined.

(** [vec_clock_bytes]: the entries in ascending origin order. *)
Definition clock_entry_bytes (e : Origin * N) : list byte :=
  len_prefixed (as_bytes e.1) ++ be_bytes 8 e.2.
Definition vec_clock_bytes (c : VecClock) : list byte :=
  mjoin (clock_entry_bytes <$> btree_iter c).

(** [0x01 digest], or [0x00]. *)
Definition tagged_hash (o : option Hash32) : list byte :=
  match o with
  | Some h => [x01] ++ hash_bytes h
  | None => [x00]
  end.

(** The space suffix: nothing at all when there is no space. *)
Definition space_suffix (o : option DocId) : list byte :=
  match o with
  | Some s => [x01] ++ docid_bytes s
  | None => []
  end.

(** [Action::message_bytes]. *)
Definition message_bytes `{Platform} (a : Action) : list byte :=
  docid_bytes (a_doc_id a)
  ++ [x01] ++ len_prefixed (as_bytes (mr_name (a_model a)))
  ++ [x01] ++ len_prefixed (as_bytes (mr_version (a_model a)))
  ++ tagged_hash (mr_hash (a_model a))
  ++ [x01] ++ len_prefixed (as_bytes (a_kind a))
  ++ [x01] ++ len_prefixed (json_to_vec (a_payload a))
  ++ be_bytes 8 (a_ts a)
  ++ [x01] ++ len_prefixed (vec_clock_bytes (a_clock a))
  ++ [x01] ++ len_prefixed (as_bytes (a_origin a))
  ++ tagged_hash (a_prev_hash a)
  ++ space_suffix (a_space a).

Definition with_sig (a : Action) (s : list byte) : Action :=
  {| a_doc_id := a_doc_id a; a_model := a_model a; a_kind := a_kind a;
     a_payload := a_payload a; a_ts := a_ts a; a_clock := a_clock a;
     a_origin := a_origin a; a_cosig := a_cosig a; a_prev_hash := a_prev_hash a;
     a_space := a_space a; a_sig := s |}.

Definition with_cosig (a : Action) (l : list CoSig) : Action :=
  {| a_doc_id := a_doc_id a; a_model := a_model a; a_kind := a_kind a;
     a_payload := a_payload a; a_ts := a_ts a; a_clock := a_clock a;
     a_origin := a_origin a; a_cosig := l; a_prev_hash := a_prev_hash a;
     a_space := a_space a; a_sig := a_sig a |}.

(** [Action::sign]. *)
Definition sign `{Platform} (a : Action) (key : SigningKey) : Action :=
  with_sig a (ed_sign key (message_bytes a)).

(** [Signature::from_slice] followed by [verify_strict]. *)
Definition verify_bytes `{Platform} (pk msg sig : list byte) : bool :=
  if decide (length sig = 64) then ed_verify_strict pk msg sig else false.

(** [Action::verify]. *)
Definition verify `{Platform} (a : Action) (pk : list byte) : bool :=
  verify_bytes pk (message_bytes a) (a_sig a).

(** [Action::verify_cosig]. *)
Definition verify_cosig `{Platform} (a : Action) (i : nat) (pk : list byte) : bool :=
  match a_cosig a !! i with
  | None => false
  | Some c => verify_bytes pk (message_bytes a) (cs_sig c)
  end.

(** [Action::hash]. *)
Definition hash `{Platform} (a : Action) : Hash32 := hash32_of (message_bytes a).

(** ** Ranges of the machine types *)

Definition fits_u32 (n : nat) : Prop := (N.of_nat n < 4294967296)%N.
Definition is_u64 (n : N) : Prop := (n < 2 ^ 64)%N.
Definition is_docid (d : DocId) : Prop := (d < 2 ^ 128)%N.
Definition is_hash (h : Hash32) : Prop := (h < 2 ^ 256)%N.

Record op_in_range `{Platform} (op : Op) : Prop := {
  opr_doc : is_docid (op_doc_id op);
  opr_key : forall k, op_key op = Some k -> fits_u32 (slen k);
  opr_value : forall v, op_value op = Some v -> fits_u32 (length (json_to_vec v));
  opr_ts : is_u64 (op_ts op);
  opr_origin : fits_u32 (slen (op_origin op))
}.

Record action_in_range `{Platform} (a : Action) : Prop := {
  ar_doc : is_docid (a_doc_id a);
  ar_name : fits_u32 (slen (mr_name (a_model a)));
  ar_version : fits_u32 (slen (mr_version (a_model a)));
  ar_hash : forall h, mr_hash (a_model a) = Some h -> is_hash h;
  ar_kind : fits_u32 (slen (a_kind a));
  ar_payload : fits_u32 (length (json_to_vec (a_payload a)));
  ar_ts : is_u64 (a_ts a);
  ar_clock : fits_u32 (length (vec_clock_bytes (a_clock a)));
  ar_entries : map_Forall (fun o n => fits_u32 (slen o) /\ is_u64 n) (a_clock a);
  ar_origin : fits_u32 (slen (a_origin a));
  ar_prev : forall h, a_prev_hash a = Some h -> is_hash h;
  ar_space : forall s, a_space a = Some s -> is_docid s
}.

(** What a signature of an action speaks about. *)
Definition signed_part `{Platform} (a : Action) :=
  (a_doc_id a, a_model a, a_kind a, json_to_vec (a_payload a), a_ts a, a_clock a,
   a_origin a, a_prev_hash a, a_space a).

(** ** The canonical form is unambiguous *)

Section Unambiguous.
Context `{Platform}.

Lemma docid_bytes_app_inj d d' r r' :
  is_docid d -> is_docid d' ->
  docid_bytes d ++ r = docid_bytes d' ++ r' -> d = d' /\ r = r'.
Proof. intros. by apply (be_bytes_app_inj 16). Qed.

Lemma u64_bytes_app_inj n n' r r' :
  is_u64 n -> is_u64 n' -> be_bytes 8 n ++ r = be_bytes 8 n' ++ r' -> n = n' /\ r = r'.
Proof. intros. by apply (be_bytes_app_inj 8). Qed.

Lemma tagged_hash_app_inj o o' r r' :
  (forall h, o = Some h -> is_hash h) -> (forall h, o' = Some h -> is_hash h) ->
  tagged_hash o ++ r = tagged_hash o' ++ r' -> o = o' /\ r = r'.
Proof.
  intros Ho Ho' E. destruct o as [h|], o' as [h'|]; simpl in E; try discriminate E;
    try apply tail_inj in E; try (by subst).
  apply (be_bytes_app_inj 32) in E as [-> ->]; [done|by apply Ho|by apply Ho'].
Qed.

Lemma tagged_bytes_app_inj o o' r r' :
  (forall b, o = Some b -> fits_u32 (length b)) ->
  (forall b, o' = Some b -> fits_u32 (length b)) ->
  tagged_bytes o ++ r = tagged_bytes o' ++ r' -> o = o' /\ r = r'.
Proof.
  intros Ho Ho' E. destruct o as [b|], o' as [b'|]; simpl in E; try discriminate E;
    try apply tail_inj in E; try (by subst).
  apply len_prefixed_app_inj in E as [-> ->]; [done|by apply Ho|by apply Ho'].
Qed.

Lemma space_suffix_inj o o' :
  (forall s, o = Some s -> is_docid s) -> (forall s, o' = Some s -> is_docid s) ->
  space_suffix o = space_suffix o' -> o = o'.
Proof.
  intros Ho Ho' E. destruct o as [s|], o' as [s'|]; simpl in E; try discriminate E;
    try apply tail_inj in E; try (by subst).
  f_equal. apply (be_bytes_inj 16); [by apply Ho|by apply Ho'|done].
Qed.

Lemma clock_entries_inj (l k : list (Origin * N)) :
  Forall (fun e => fits_u32 (slen e.1) /\ is_u64 e.2) l ->
  Forall (fun e => fits_u32 (slen e.1) /\ is_u64 e.2) k ->
  mjoin (clock_entry_bytes <$> l) = mjoin (clock_entry_bytes <$> k) -> l = k.
Proof.
  intros Hl. revert k. induction Hl as [|[o n] l [Ho Hn] _ IH]; intros k Hk E.
  - destruct k as [|[o n] k]; [done|]. apply (f_equal length) in E. simpl in E.
    unfold clock_entry_bytes, len_prefixed in E.
    rewrite !length_app, !be_bytes_length in E. lia.
  - destruct Hk as [|[o' n'] k [Ho' Hn'] Hk].
    { apply (f_equal length) in E. simpl in E. unfold clock_entry_bytes, len_prefixed in E.
      rewrite !length_app, !be_bytes_length in E. lia. }
    change (clock_entry_bytes (o, n) ++ mjoin (clock_entry_bytes <$> l) =
            clock_entry_bytes (o', n') ++ mjoin (clock_entry_bytes <$> k)) in E.
    unfold clock_entry_bytes at 1 3 in E. simpl in *.
    rewrite <- !app_assoc in E.
    apply str_prefixed_app_inj in E as [-> E]; [|done..].
    apply u64_bytes_app_inj in E as [-> E]; [|done..].
    f_equal. by apply IH.
Qed.

Lemma vec_clock_bytes_inj (c c' : VecClock) :
  map_Forall (fun o n => fits_u32 (slen o) /\ is_u64 n) c ->
  map_Forall (fun o n => fits_u32 (slen o) /\ is_u64 n) c' ->
  vec_clock_bytes c = vec_clock_bytes c' -> c = c'.
Proof.
  intros Hc Hc' E. apply btree_iter_inj, clock_entries_inj; [| |done].
  - apply Forall_forall. intros [o n] Hin%elem_of_btree_iter. by apply Hc.
  - apply Forall_forall. intros [o n] Hin%elem_of_btree_iter. by apply Hc'.
Qed.
End Unambiguous.

Lemma message_bytes_unambiguous_aux `{Platform} (a b : Action) :
  action_in_range a -> action_in_range b ->
  message_bytes a = message_bytes b -> signed_part a = signed_part b.
Proof.
  intros [] [] E. unfold message_bytes in E.
  apply docid_bytes_app_inj in E as [E1 E]; [|done..]. apply tail_inj in E.
  apply str_prefixed_app_inj in E as [E2 E]; [|done..]. apply tail_inj in E.
  apply str_prefixed_app_inj in E as [E3 E]; [|done..].
  apply tagged_hash_app_inj in E as [E4 E]; [|done..]. apply tail_inj in E.
  apply str_prefixed_app_inj in E as [E5 E]; [|done..]. apply tail_inj in E.
  apply len_prefixed_app_inj in E as [E6 E]; [|done..].
  apply u64_bytes_app_inj in E as [E7 E]; [|done..]. apply tail_inj in E.
  apply len_prefixed_app_inj in E as [E8 E]; [|done..]. apply tail_inj in E.
  apply str_prefixed_app_inj in E as [E9 E]; [|done..].
  apply tagged_hash_app_inj in E as [E10 E]; [|done..].
  apply space_suffix_inj in E; [|done..].
  apply vec_clock_bytes_inj in E8; [|done..].
  unfold signed_part. destruct (a_model a), (a_model b); simpl in *. congruence.
Qed.

(** C9. The canonical bytes of an action determine everything its signature
    covers: equal bytes mean equal document, model reference (hash included),
    reducer kind, encoded payload, timestamp, vector clock, origin, previous
    hash and space. *)
Theorem message_bytes_unambiguous `{Platform} (a b : Action) :
  action_in_range a -> action_in_range b ->
  message_bytes a = message_bytes b -> signed_part a = signed_part b.
Proof. apply message_bytes_unambiguous_aux. Qed.

(** The content hash identifies a signed action: two actions with one hash
    agree on everything their signatures cover, or SHA-256 has a collision. *)
Theorem hash_identifies `{Platform} (a b : Action) :
  action_in_range a -> action_in_range b -> hash a = hash b ->
  signed_part a = signed_part b \/ sha256_collision.
Proof.
  intros Ha Hb E. destruct (decide (message_bytes a = message_bytes b)) as [Em|Em].
  - left. by apply message_bytes_unambiguous_aux.
  - right. exists (message_bytes a), (message_bytes b). done.
Qed.

(** The bytes a v1 operation is signed over determine its document, key,
    encoded value, timestamp and origin (but, unlike an action's, not its
    clock). *)
Theorem op_message_bytes_unambiguous `{Platform} (a b : Op) :
  op_in_range a -> op_in_range b -> op_message_bytes a = op_message_bytes b ->
  op_doc_id a = op_doc_id b /\ op_key a = op_key b /\
  json_to_vec <$> op_value a = json_to_vec <$> op_value b /\
  op_ts a = op_ts b /\ op_origin a = op_origin b.
Proof.
  intros [] [] E. unfold op_message_bytes in E.
  assert (Hfit : forall o k, (forall s, o = Some s -> fits_u32 (slen s)) ->
    as_bytes <$> o = Some k -> fits_u32 (length k)).
  { intros [s|] k Hs [= <-]. rewrite as_bytes_length. by apply Hs. }
  assert (Hval : forall o k, (forall v, o = Some v -> fits_u32 (length (json_to_vec v))) ->
    json_to_vec <$> o = Some k -> fits_u32 (length k)).
  { intros [v|] k Hv [= <-]. by apply Hv. }
  apply docid_bytes_app_inj in E as [E1 E]; [|done..].
  apply tagged_bytes_app_inj in E as [E2 E]; [|by eauto..].
  apply tagged_bytes_app_inj in E as [E3 E]; [|by eauto..].
  apply u64_bytes_app_inj in E as [E4 E]; [|done..].
  rewrite <- (app_nil_r (len_prefixed (as_bytes (op_origin a)))) in E.
  rewrite <- (app_nil_r (len_prefixed (as_bytes (op_origin b)))) in E.
  apply str_prefixed_app_inj in E as [E5 _]; [|done..].
  split_and!; try done.
  destruct (op_key a), (op_key b); simplify_eq/=; f_equal; by apply as_bytes_inj.
Qed.

(** ** Signing *)

Lemma message_bytes_with_sig `{Platform} a s : message_bytes (with_sig a s) = message_bytes a.
Proof. done. Qed.
Lemma message_bytes_with_cosig `{Platform} a l :
  message_bytes (with_cosig a l) = message_bytes a.
Proof. done. Qed.

Lemma verify_sign `{PlatformLaws} a k : verify (sign a k) (verifying_key k) = true.
Proof.
  unfold verify, verify_bytes, sign. rewrite message_bytes_with_sig. simpl.
  rewrite decide_True by apply sign_length. apply sign_verify_strict.
Qed.

(** The same signature verifies for two actions only if their signed parts are
    the same bytes or the signature scheme accepts it for two messages. *)
Lemma verify_same_sig `{Platform} a b pk :
  a_sig a = a_sig b -> verify a pk = true -> verify b pk = false ->
  message_bytes a <> message_bytes b.
Proof. unfold verify, verify_bytes. intros Es Ha Hb Em. rewrite Es, Em in Ha. congruence. Qed.

(** Signing and co-signing compose: an action signed by one key and
    co-signed by any others, in any number and order, still verifies under the
    signer's key, and every co-signature verifies under its own, because all of
    them sign the same bytes. *)
Theorem sign_cosign_verify `{PlatformLaws} (a : Action) (k : SigningKey)
    (others : list (Origin * SigningKey)) :
  let msg := message_bytes a in
  let cs := (fun '(o, ck) => {| cs_origin := o; cs_sig := ed_sign ck msg |}) <$> others in
  let signed := sign (with_cosig a cs) k in
  verify signed (verifying_key k) = true /\
  forall i o ck, others !! i = Some (o, ck) ->
    verify_cosig signed i (verifying_key ck) = true.
Proof.
  split; [apply verify_sign|]. intros i o ck Hi.
  unfold verify_cosig, verify_bytes, sign. simpl.
  rewrite list_lookup_fmap, Hi. simpl.
  rewrite decide_True by apply sign_length.
  change (message_bytes (with_sig _ _)) with (message_bytes a).
  apply sign_verify_strict.
Qed.

(** ** The golden vector *)

Module Golden.
(** The action of the wire-format test of src/action.rs. *)
Definition action : Action :=
  {| a_doc_id := 1; a_model := modelref_new "group" "1"; a_kind := "post";
     a_payload := json_obj [("zeta", Number 1); ("alpha", Str "x")];
     a_ts := 7; a_clock := ∅; a_origin := "alice"; a_cosig := [];
     a_prev_hash := None; a_space := None; a_sig := [] |}.
Definition bytes : string :=
  "00000000000000000000000000000001010000000567726f7570010000000131000100000004706f737401000000167b22616c706861223a2278222c227a657461223a317d000000000000000701000000000100000005616c69636500".

Example golden_vector : hex_encode (message_bytes action) = bytes.
Proof. by vm_compute. Qed.
End Golden.

(** ** Witnesses *)

Lemma golden_in_range : action_in_range Golden.action.
Proof. split; done. Qed.

Lemma message_bytes_unambiguous_witness :
  signed_part Golden.action =
  signed_part (with_cosig Golden.action [{| cs_origin := "bob"; cs_sig := [x00] |}]).
Proof.
  apply (message_bytes_unambiguous Golden.action
    (with_cosig Golden.action [{| cs_origin := "bob"; cs_sig := [x00] |}])).
  - apply golden_in_range.
  - split; done.
  - reflexivity.
Defined.

Lemma hash_identifies_witness :
  signed_part Golden.action = signed_part (sign Golden.action (sk 3)) \/ sha256_collision.
Proof.
  apply (hash_identifies Golden.action (sign Golden.action (sk 3))).
  - apply golden_in_range.
  - split; done.
  - reflexivity.
Defined.

Lemma op_message_bytes_unambiguous_witness :
  let o := Concurrent.wr "peer-01" 1 in
  op_doc_id o = op_doc_id (op_sign o (sk 3)) /\ op_key o = op_key (op_sign o (sk 3)) /\
  json_to_vec <$> op_value o = json_to_vec <$> op_value (op_sign o (sk 3)) /\
  op_ts o = op_ts (op_sign o (sk 3)) /\ op_origin o = op_origin (op_sign o (sk 3)).
Proof.
  intros o. apply (op_message_bytes_unambiguous o (op_sign o (sk 3))).
  - split; try done; intros ? [= <-]; done.
  - split; try done; intros ? [= <-]; done.
  - reflexivity.
Defined.

Lemma modelref_roundtrip_witness :
  let r := {| mr_name := "invoice"; mr_version := "1.0.0"; mr_hash := Some 12345%N |} in
  modelref_parse (modelref_display r) = Ok r.
Proof.
  intros r. apply (modelref_roundtrip r).
  split_and!; try done. intros h [= <-]. done.
Defined.

Lemma sign_cosign_verify_witness :
  verify (sign (with_cosig Golden.action
    [{| cs_origin := "bob"; cs_sig := ed_sign (sk 2) (message_bytes Golden.action) |}]) (sk 1))
    (verifying_key (sk 1)) = true.
Proof.
  exact (proj1 (sign_cosign_verify Golden.action (sk 1) [("bob", (sk 2))])).
Defined.
