(* ===== verification/Model.v ===== *)
(** The model layer of src/model: the [Model] trait as a type class, the
    rejection and quorum types, the open-field model [open@1], the declarative
    [l1] interpreter, and the registry that dispatches on a model reference.

    The trait has two implementations in the repository; [AnyModel] is the
    trait object over them, and its instance dispatches to theirs. *)

From stdpp Require Import base list gmap strings numbers pretty.
From Stdlib Require Import Strings.Byte Strings.Ascii.
From S2P Require Import Prelude Json Doc Action.

Inductive Reject : Type :=
  | UnknownKind (k : string)
  | BadPayload (m : string)
  | Precondition (m : string)
  | BadState (m : string).

(** [Reject::describe]. *)
Definition describe (r : Reject) : string :=
  match r with
  | UnknownKind k => "unknown kind '" +:+ k +:+ "'"
  | BadPayload m => "bad payload: " +:+ m
  | Precondition m => "precondition failed: " +:+ m
  | BadState m => "state violation: " +:+ m
  end.

Record QuorumSpec := { q_group : string; q_min : N; q_field : string }.

(** The trait: every method is a pure function of its arguments. *)
Class Model (M : Type) := {
  ref_ : M -> ModelRef;
  validate_payload : M -> string -> Value -> result Reject unit;
  check_precondition : M -> Doc -> Action -> result Reject unit;
  reduce : M -> Doc -> Action -> result Reject (list Op);
  check_state : M -> Doc -> result Reject unit;
  authorize : M -> Doc -> Action -> result Reject unit;
  quorum : M -> string -> option QuorumSpec;
  requires_space_member : M -> string -> option string;
  definition : M -> option Value
}.

(** [model_def_hash]. *)
Definition model_def_hash `{Platform} (def : Value) : Hash32 := hash32_of (json_to_vec def).

(** An operation with the identity of an action. *)
Definition op_of_action (a : Action) (key : option string) (value : option Value) : Op :=
  {| op_doc_id := a_doc_id a; op_key := key; op_value := value; op_ts := a_ts a;
     op_clock := a_clock a; op_origin := a_origin a; op_sig := a_sig a |}.

(** ** The open model (src/model/open.rs) *)

Record Open := { open_ref_ : ModelRef }.
Definition open_new : Open := {| open_ref_ := modelref_new "open" "1" |}.

Definition open_validate_payload (kind : string) (payload : Value) : result Reject unit :=
  if bool_decide (kind = "create") || bool_decide (kind = "set") then
    match vget payload "field" ≫= as_str with
    | None => Err (BadPayload "requires payload.field (string)")
    | Some field =>
        if bool_decide (field = "") then Err (BadPayload "payload.field must be non-empty")
        else Ok tt
    end
  else if bool_decide (kind = "delete") then Ok tt
  else Err (UnknownKind kind).

Definition open_reduce (action : Action) : result Reject (list Op) :=
  Ok [op_of_action action (vget (a_payload action) "field" ≫= as_str)
        (vget (a_payload action) "value")].

#[export] Instance Open_model : Model Open := {|
  ref_ := open_ref_;
  validate_payload := fun _ => open_validate_payload;
  check_precondition := fun _ _ _ => Ok tt;
  reduce := fun _ _ => open_reduce;
  check_state := fun _ _ => Ok tt;
  authorize := fun _ _ _ => Ok tt;
  quorum := fun _ _ => None;
  requires_space_member := fun _ _ => None;
  definition := fun _ => None
|}.

(** ** The declarative interpreter (src/model/l1.rs) *)

Record L1 := {
  l1_ref : ModelRef;
  l1_def : Value;
  l1_fields : Value;
  l1_reducers : Value;
  l1_checks : Value;
  l1_auth : Value
}.

(** [L1::from_def]. *)
Definition from_def `{Platform} (def : Value) : result string L1 :=
  let name := default "" (vget def "name" ≫= as_str) in
  if bool_decide (name = "")
  then Err "l1 model definition requires a non-empty 'name'"
  else
    let version := default "1" (vget def "version" ≫= as_str) in
    Ok {| l1_ref := {| mr_name := name; mr_version := version;
                       mr_hash := Some (model_def_hash def) |};
          l1_def := def;
          l1_fields := default Null (vget def "fields");
          l1_reducers := default Null (vget def "reducers");
          l1_checks := default Null (vget def "checks");
          l1_auth := default Null (vget def "auth") |}.

Definition reducer (m : L1) (kind : string) : option Value := vget (l1_reducers m) kind.

Definition pre_list (m : L1) (kind : string) : list Value :=
  default [] (reducer m kind ≫= fun r => vget r "pre" ≫= as_array).

(** State accessors: a tombstone counts as absent. *)
Definition current_value (state : Doc) (field : string) : Value :=
  match doc_fields state !! field with
  | Some f => if fld_deleted f then Null else fld_value f
  | None => Null
  end.
Definition current_array (state : Doc) (field : string) : list Value :=
  default [] (as_array (current_value state field)).
Definition is_present (state : Doc) (field : string) : bool :=
  match doc_fields state !! field with Some f => negb (fld_deleted f) | None => false end.
Definition in_list (state : Doc) (field origin : string) : bool :=
  existsb (fun v => bool_decide (as_str v = Some origin)) (current_array state field).

(** [eval_template]: [$actor], [$ts], [$payload.<f>], or a literal. *)
Definition eval_template (action : Action) (tmpl : Value) : Value :=
  match tmpl with
  | Str s =>
      if bool_decide (s = "$actor") then Str (a_origin action)
      else if bool_decide (s = "$ts") then Number (Z.of_N (a_ts action))
      else if String.prefix "$payload." s then
        default Null (vget (a_payload action) (String.substring 9 (slen s - 9) s))
      else Str s
  | other => other
  end.

(** The first entry of an object, in key order. *)
Definition first_entry (v : Value) : option (string * Value) := as_object v ≫= head.

Definition write_error (field : string) : Reject :=
  BadState ("field '" +:+ field +:+ "': write must be exactly one of set/append/remove").

(** [write_value]: the value a write produces against the current state. *)
Definition write_value (state : Doc) (action : Action) (field : string) (w : Value) :
    result Reject Value :=
  match first_entry w with
  | None => Err (write_error field)
  | Some (key, tmpl) =>
      if bool_decide (key = "set") then Ok (eval_template action tmpl)
      else if bool_decide (key = "append") then
        Ok (Array (current_array state field ++ [eval_template action tmpl]))
      else if bool_decide (key = "remove") then
        let item := eval_template action tmpl in
        Ok (Array (filter (fun v => v <> item) (current_array state field)))
      else Err (write_error field)
  end.

Definition field_name (arg : Value) (key : string) : result Reject string :=
  ok_or (vget arg "field" ≫= as_str)
    (Precondition ("'" +:+ key +:+ "' requires a 'field' string")).

Definition string_arg (arg : Value) (key : string) : result Reject string :=
  ok_or (as_str arg) (Precondition ("'" +:+ key +:+ "' requires a string argument")).

(** [eval_precond].  The code counts [depth] up and refuses above 8; [fuel] is
    [9 - depth], so the top-level call has fuel 9. *)
Fixpoint eval_precond `{Platform} (fuel : nat) (m : L1) (state : Doc) (action : Action)
    (p : Value) : result Reject unit :=
  match fuel with
  | O => Err (Precondition "named-check recursion too deep")
  | S fuel' =>
      match first_entry p with
      | None => Err (Precondition "precondition must be a single-key object")
      | Some (key, arg) =>
          let origin := a_origin action in
          if bool_decide (key = "field-is") then
            f ← field_name arg "field-is";
            let want := default Null (vget arg "value") in
            let got := current_value state f in
            if decide (got = want) then Ok tt
            else Err (Precondition ("field '" +:+ f +:+ "' is " +:+ json_to_string got
                        +:+ ", expected " +:+ json_to_string want))
          else if bool_decide (key = "field-not") then
            f ← field_name arg "field-not";
            let want := default Null (vget arg "value") in
            let got := current_value state f in
            if decide (got = want)
            then Err (Precondition ("field '" +:+ f +:+ "' must not be "
                        +:+ json_to_string want))
            else Ok tt
          else if bool_decide (key = "field-present") then
            f ← string_arg arg "field-present";
            if is_present state f then Ok tt
            else Err (Precondition ("field '" +:+ f +:+ "' absent"))
          else if bool_decide (key = "field-absent") then
            f ← string_arg arg "field-absent";
            if is_present state f
            then Err (Precondition ("field '" +:+ f +:+ "' present"))
            else Ok tt
          else if bool_decide (key = "actor-in") then
            f ← string_arg arg "actor-in";
            if in_list state f origin then Ok tt
            else Err (Precondition ("actor " +:+ origin +:+ " is not in '" +:+ f +:+ "'"))
          else if bool_decide (key = "actor-not-in") then
            f ← string_arg arg "actor-not-in";
            if in_list state f origin
            then Err (Precondition ("actor " +:+ origin +:+ " is in '" +:+ f +:+ "'"))
            else Ok tt
          else if bool_decide (key = "actor-is") then
            who ← string_arg arg "actor-is";
            if bool_decide (origin = who) then Ok tt
            else Err (Precondition ("actor is " +:+ origin +:+ ", expected " +:+ who))
          else if bool_decide (key = "check") then
            name ← string_arg arg "check";
            sub ← ok_or (vget (l1_checks m) name)
                    (Precondition ("unknown named check '" +:+ name +:+ "'"));
            eval_precond fuel' m state action sub
          else Err (Precondition ("unsupported precondition '" +:+ key +:+ "'"))
      end
  end.

Definition has_key (v : Value) (k : string) : bool :=
  match as_object v with
  | Some o => bool_decide (is_Some (obj_lookup o k))
  | None => false
  end.
Definition is_space_member (p : Value) : bool := has_key p "space-member".
Definition is_quorum (p : Value) : bool := has_key p "quorum".

Definition parse_quorum (p : Value) : option QuorumSpec :=
  q ← vget p "quorum";
  group ← vget q "group" ≫= as_str;
  min ← vget q "min" ≫= as_u64;
  Some {| q_group := group; q_min := min;
          q_field := default "members" (vget q "field" ≫= as_str) |}.

Definition type_matches (v : Value) (want : string) : bool :=
  if bool_decide (want = "string") then is_string v
  else if bool_decide (want = "number") then is_number v
  else if bool_decide (want = "boolean") then is_boolean v
  else if bool_decide (want = "object") then is_object v
  else if bool_decide (want = "array") then is_array v
  else if bool_decide (want = "string[]") then
    match as_array v with Some a => forallb is_string a | None => false end
  else if bool_decide (want = "number[]") then
    match as_array v with Some a => forallb is_number a | None => false end
  else if bool_decide (want = "boolean[]") then
    match as_array v with Some a => forallb is_boolean a | None => false end
  else true.

(** The loop of [validate_payload] over the payload schema. *)
Fixpoint validate_fields (schema : list (string * Value)) (payload : Value) :
    result Reject unit :=
  match schema with
  | [] => Ok tt
  | (f, t) :: rest =>
      let want := default "" (as_str t) in
      match vget payload f with
      | None => Err (BadPayload ("missing payload." +:+ f +:+ " (want " +:+ want +:+ ")"))
      | Some got =>
          if type_matches got want then validate_fields rest payload
          else Err (BadPayload ("payload." +:+ f +:+ " must be " +:+ want))
      end
  end.

Definition l1_validate_payload (m : L1) (kind : string) (payload : Value) :
    result Reject unit :=
  match reducer m kind with
  | None => Err (UnknownKind kind)
  | Some r =>
      match as_object (default Null (vget r "payload")) with
      | Some obj => validate_fields obj payload
      | None => Ok tt
      end
  end.

(** The loop of [check_precondition]; declared-only conditions are skipped. *)
Fixpoint check_preconds `{Platform} (m : L1) (state : Doc) (action : Action)
    (l : list Value) : result Reject unit :=
  match l with
  | [] => Ok tt
  | p :: rest =>
      if is_quorum p || is_space_member p then check_preconds m state action rest
      else
        _ ← eval_precond 9 m state action p;
        check_preconds m state action rest
  end.

Definition l1_check_precondition `{Platform} (m : L1) (state : Doc) (action : Action) :
    result Reject unit :=
  check_preconds m state action (pre_list m (a_kind action)).

(** The loop of [reduce] over the reducer's [writes]. *)
Fixpoint reduce_writes (state : Doc) (action : Action) (writes : list (string * Value)) :
    result Reject (list Op) :=
  match writes with
  | [] => Ok []
  | (field, w) :: rest =>
      value ← write_value state action field w;
      ops ← reduce_writes state action rest;
      Ok (op_of_action action (Some field) (Some value) :: ops)
  end.

Definition l1_reduce (m : L1) (state : Doc) (action : Action) : result Reject (list Op) :=
  match reducer m (a_kind action) with
  | None => Err (UnknownKind (a_kind action))
  | Some r =>
      match as_object (default Null (vget r "writes")) with
      | Some obj => reduce_writes state action obj
      | None => Ok []
      end
  end.

Fixpoint check_fields (schema : list (string * Value)) (state : Doc) : result Reject unit :=
  match schema with
  | [] => Ok tt
  | (field, t) :: rest =>
      let want := default "" (as_str t) in
      match doc_fields state !! field with
      | Some f =>
          if negb (fld_deleted f) && negb (type_matches (fld_value f) want)
          then Err (BadState ("field '" +:+ field +:+ "' must be " +:+ want))
          else check_fields rest state
      | None => check_fields rest state
      end
  end.

Definition l1_check_state (m : L1) (state : Doc) : result Reject unit :=
  match as_object (l1_fields m) with
  | Some obj => check_fields obj state
  | None => Ok tt
  end.

Definition l1_quorum (m : L1) (kind : string) : option QuorumSpec :=
  find_map parse_quorum (pre_list m kind).

Definition l1_requires_space_member (m : L1) (kind : string) : option string :=
  find_map (fun p => v ← vget p "space-member"; Some (default "members" (as_str v)))
    (pre_list m kind).

(** One rule of the [auth] block, decoded with its defaults. *)
Definition rule_str (rule : Value) (k dflt : string) : string :=
  default dflt (vget rule k ≫= as_str).

(** The loop of [authorize] over the entries of the rule's field. *)
Fixpoint authorize_entries (action : Action) (name_key vis_key allow_key : string)
    (match_val private_value : Value) (entries : list Value) : result Reject unit :=
  match entries with
  | [] => Ok tt
  | entry :: rest =>
      if decide (vget entry name_key = Some match_val) then
        if decide (vget entry vis_key = Some private_value) then
          let allow := default [] (vget entry allow_key ≫= as_array) in
          if existsb (fun m => bool_decide (as_str m = Some (a_origin action))) allow
          then authorize_entries action name_key vis_key allow_key match_val private_value rest
          else Err (Precondition ("actor " +:+ a_origin action
                 +:+ " is not a member of the private channel '"
                 +:+ default "?" (as_str match_val) +:+ "'"))
        else authorize_entries action name_key vis_key allow_key match_val private_value rest
      else authorize_entries action name_key vis_key allow_key match_val private_value rest
  end.

Definition l1_authorize (m : L1) (state : Doc) (action : Action) : result Reject unit :=
  match vget (l1_auth m) (a_kind action) with
  | None => Ok tt
  | Some rule =>
      authorize_entries action (rule_str rule "name" "name")
        (rule_str rule "visibility" "visibility") (rule_str rule "allow" "members")
        (eval_template action (default Null (vget rule "match")))
        (Str (rule_str rule "private" "private"))
        (current_array state (rule_str rule "field" ""))
  end.

#[export] Instance L1_model `{Platform} : Model L1 := {|
  ref_ := l1_ref;
  validate_payload := l1_validate_payload;
  check_precondition := l1_check_precondition;
  reduce := l1_reduce;
  check_state := l1_check_state;
  authorize := l1_authorize;
  quorum := l1_quorum;
  requires_space_member := l1_requires_space_member;
  definition := fun m => Some (l1_def m)
|}.

(** ** Trait objects and the registry (src/model/mod.rs) *)

(** [dyn Model]: the two implementations of the trait. *)
Inductive AnyModel : Type :=
  | MOpen (o : Open)
  | ML1 (l : L1).

Definition dispatch {R} (fo : Open -> R) (fl : L1 -> R) (m : AnyModel) : R :=
  match m with MOpen o => fo o | ML1 l => fl l end.

#[export] Instance AnyModel_model `{Platform} : Model AnyModel := {|
  ref_ := dispatch ref_ ref_;
  validate_payload := dispatch validate_payload validate_payload;
  check_precondition := dispatch check_precondition check_precondition;
  reduce := dispatch reduce reduce;
  check_state := dispatch check_state check_state;
  authorize := dispatch authorize authorize;
  quorum := dispatch quorum quorum;
  requires_space_member := dispatch requires_space_member requires_space_member;
  definition := dispatch definition definition
|}.

Abbreviation ModelRegistry := (gmap (string * string) AnyModel) (only parsing).

(** [ModelRegistry::insert]. *)
Definition reg_insert `{Platform} (r : ModelRegistry) (m : AnyModel) : ModelRegistry :=
  <[(mr_name (ref_ m), mr_version (ref_ m)) := m]> r.

(** [ModelRegistry::find]: a pinned hash must match. *)
Definition reg_find `{Platform} (r : ModelRegistry) (mref : ModelRef) : option AnyModel :=
  m ← r !! (mr_name mref, mr_version mref);
  match mr_hash mref with
  | Some want => if decide (mr_hash (ref_ m) = Some want) then Some m else None
  | None => Some m
  end.

(** [ModelRegistry::definition]. *)
Definition reg_definition `{Platform} (r : ModelRegistry) (mref : ModelRef) : option Value :=
  reg_find r mref ≫= definition.

(** ** The interpreter's functions against their declarative readings *)

(** What [validate_payload] demands of one schema entry. *)
Definition field_conforms (payload : Value) (ft : string * Value) : Prop :=
  exists got, vget payload ft.1 = Some got /\
              type_matches got (default "" (as_str ft.2)) = true.

Lemma validate_fields_ok schema payload :
  validate_fields schema payload = Ok tt <-> Forall (field_conforms payload) schema.
Proof.
  induction schema as [|[f t] schema IH]; simpl; [by split|].
  rewrite Forall_cons, <- IH. unfold field_conforms; simpl.
  destruct (vget payload f) as [got|] eqn:E.
  - destruct (type_matches got _) eqn:T; [naive_solver|].
    split; [done|]. intros [(g & [= <-] & ?) _]; congruence.
  - split; [done|]. intros [(g & ? & ?) _]; congruence.
Qed.

(** [validate_payload] accepts exactly the declared kinds whose payload has
    every field of the reducer's schema at its declared type. *)
Lemma l1_validate_payload_ok m kind payload :
  l1_validate_payload m kind payload = Ok tt <->
  exists r, reducer m kind = Some r /\
    forall schema, vget r "payload" = Some (Object schema) ->
      Forall (field_conforms payload) schema.
Proof.
  unfold l1_validate_payload. destruct (reducer m kind) as [r|].
  - destruct (vget r "payload") as [[]|] eqn:E; simpl;
      try (split; [intros _; exists r; split; [done|]; intros; congruence|done]).
    rewrite validate_fields_ok. split.
    + intros HF. exists r. split; [done|]. intros schema; rewrite E; naive_solver.
    + intros (r' & [= <-] & HF). by apply HF.
  - split; [done|]. by intros (? & ? & _).
Qed.

(** An array entry that a rule guards against [actor]: it matches, is private
    and does not list the actor. *)
Definition entry_refuses (actor name_key vis_key allow_key : string)
    (match_val private_value entry : Value) : Prop :=
  vget entry name_key = Some match_val /\ vget entry vis_key = Some private_value /\
  Str actor ∉ default [] (vget entry allow_key ≫= as_array).

Lemma as_str_Some v s : as_str v = Some s <-> v = Str s.
Proof. destruct v; naive_solver. Qed.

Lemma existsb_as_str actor l :
  existsb (fun m => bool_decide (as_str m = Some actor)) l = true <-> Str actor ∈ l.
Proof.
  rewrite existsb_exists. setoid_rewrite bool_decide_eq_true.
  setoid_rewrite as_str_Some. setoid_rewrite <- list_elem_of_In. naive_solver.
Qed.

Lemma authorize_entries_ok a nk vk ak mv pv l :
  authorize_entries a nk vk ak mv pv l = Ok tt <->
  Forall (fun e => ~ entry_refuses (a_origin a) nk vk ak mv pv e) l.
Proof.
  induction l as [|e l IH]; simpl; [by split|].
  rewrite Forall_cons, <- IH. unfold entry_refuses.
  repeat case_decide; try naive_solver.
  destruct (existsb _ _) eqn:E; [apply existsb_as_str in E; naive_solver|].
  split; [done|]. intros [Hn _]. exfalso; apply Hn.
  split_and!; try done. intros ?%existsb_as_str; congruence.
Qed.

(** ** Reduced operations *)

(** An operation that carries the identity of its action. *)
Definition stamped_by (a : Action) (op : Op) : Prop :=
  op = op_of_action a (op_key op) (op_value op).

Lemma reduce_writes_ok state a writes ops :
  reduce_writes state a writes = Ok ops <->
  Forall2 (fun w op => exists v, write_value state a w.1 w.2 = Ok v /\
                                 op = op_of_action a (Some w.1) (Some v)) writes ops.
Proof.
  revert ops. induction writes as [|[f w] writes IH]; intros ops; simpl.
  - split; [intros [= <-]; constructor|by intros ->%Forall2_nil_inv_l].
  - split.
    + intros H. destruct (write_value state a f w) as [v|] eqn:Hv; [|done]. simpl in H.
      destruct (reduce_writes state a writes) as [ops'|] eqn:Hr; [|done].
      injection H as <-. constructor; [by exists v|]. by apply IH.
    + intros (op & ops' & (v & Hv & ->) & HF & ->)%Forall2_cons_inv_l.
      simpl in *. rewrite Hv. simpl. by apply IH in HF as ->.
Qed.

Lemma l1_reduce_ok m state a ops :
  l1_reduce m state a = Ok ops ->
  exists r, reducer m (a_kind a) = Some r /\
    Forall (fun op => stamped_by a op /\ exists f w v,
      op_key op = Some f /\ op_value op = Some v /\
      (f, w) ∈ default [] (vget r "writes" ≫= as_object) /\
      write_value state a f w = Ok v) ops.
Proof.
  unfold l1_reduce. destruct (reducer m (a_kind a)) as [r|]; [|done].
  intros H. exists r. split; [done|].
  destruct (vget r "writes") as [v|]; simpl in *; [|by injection H as <-].
  destruct (as_object v) as [obj|]; simpl in *; [|by injection H as <-].
  apply reduce_writes_ok in H. apply Forall_lookup. intros i op Hop.
  destruct (Forall2_lookup_r _ _ _ _ _ H Hop) as ([f w] & Hw & val & Hv & ->).
  split; [done|]. exists f, w, val. split_and!; try done.
  by eapply list_elem_of_lookup_2.
Qed.

Lemma reduce_stamped `{Platform} (m : AnyModel) state a ops :
  reduce m state a = Ok ops -> Forall (stamped_by a) ops.
Proof.
  destruct m as [o|l]; simpl.
  - intros [= <-]. by repeat constructor.
  - intros (r & _ & HF)%l1_reduce_ok. eapply Forall_impl; [exact HF|]. by intros op [].
Qed.

(** What a write does to an array field: [append] adds one element at the end,
    [remove] deletes every copy and keeps the rest in order. *)
Lemma write_append state a field tmpl :
  write_value state a field (Object [("append", tmpl)])
  = Ok (Array (current_array state field ++ [eval_template a tmpl])).
Proof. done. Qed.

Lemma write_remove state a field tmpl :
  write_value state a field (Object [("remove", tmpl)])
  = Ok (Array (filter (fun v => v <> eval_template a tmpl) (current_array state field))).
Proof. done. Qed.

(** ** Named checks *)

(** A chain of named checks longer than the bound of 8 is refused, whatever it
    ends in; a cyclic definition therefore never passes and never diverges. *)
Lemma eval_precond_cycle `{Platform} fuel m state a (names : list string) :
  (forall n, n ∈ names -> exists n', n' ∈ names /\
     vget (l1_checks m) n = Some (Object [("check", Str n')])) ->
  forall n, n ∈ names ->
  exists r, eval_precond fuel m state a (Object [("check", Str n)]) = Err r.
Proof.
  intros Hcyc. induction fuel as [|fuel IH]; intros n Hn; [by eexists|].
  destruct (Hcyc n Hn) as (n' & Hn' & Hv).
  cbn [eval_precond first_entry as_object mbind option_bind head].
  cbn. rewrite Hv. simpl. by apply IH.
Qed.

(** ** The registry *)

(** Every model is filed under its own name and version, and an interpreter's
    reference carries the digest of its definition. *)
Definition model_ok `{Platform} (m : AnyModel) : Prop :=
  match m with
  | MOpen o => open_ref_ o = modelref_new "open" "1"
  | ML1 l => from_def (l1_def l) = Ok l
  end.
Definition registry_ok `{Platform} (r : ModelRegistry) : Prop :=
  map_Forall (fun k m => k = (mr_name (ref_ m), mr_version (ref_ m)) /\ model_ok m) r.

Lemma from_def_def `{Platform} def l : from_def def = Ok l -> l1_def l = def.
Proof. unfold from_def. case_bool_decide; [done|]. by intros [= <-]. Qed.

Lemma from_def_ok `{Platform} def l : from_def def = Ok l -> model_ok (ML1 l).
Proof. intros Hd; simpl. by rewrite (from_def_def _ _ Hd). Qed.

Lemma from_def_hash `{Platform} l :
  from_def (l1_def l) = Ok l -> mr_hash (l1_ref l) = Some (model_def_hash (l1_def l)).
Proof. unfold from_def. case_bool_decide; [done|]. intros [= E]. by rewrite <- E. Qed.

Lemma registry_ok_empty `{Platform} : registry_ok ∅.
Proof. apply map_Forall_empty. Qed.

Lemma registry_ok_insert `{Platform} r m :
  registry_ok r -> model_ok m -> registry_ok (reg_insert r m).
Proof. intros Hr Hm. apply map_Forall_insert_2; [by split|done]. Qed.

#[export] Hint Resolve registry_ok_empty registry_ok_insert from_def_ok : reactor.

Lemma reg_find_Some `{Platform} r mref m :
  reg_find r mref = Some m <->
  r !! (mr_name mref, mr_version mref) = Some m /\
  (forall h, mr_hash mref = Some h -> mr_hash (ref_ m) = Some h).
Proof.
  unfold reg_find. destruct (r !! _) as [m'|]; simpl; [|naive_solver].
  destruct (mr_hash mref) as [w|]; [|naive_solver]. case_decide; naive_solver.
Qed.

Lemma reg_find_insert `{Platform} r m :
  reg_find (reg_insert r m) (ref_ m) = Some m.
Proof. apply reg_find_Some. unfold reg_insert. by rewrite lookup_insert_eq. Qed.

(** ** Properties *)

(** [L1::validate_payload] accepts exactly the kinds the definition declares
    whose payload carries every field of the reducer's schema at its declared
    type; a reducer without a schema object accepts any payload. *)
Theorem validate_payload_exact m kind payload :
  l1_validate_payload m kind payload = Ok tt <->
  exists r, reducer m kind = Some r /\
    forall schema, vget r "payload" = Some (Object schema) ->
      forall f t, (f, t) ∈ schema ->
        exists got, vget payload f = Some got /\
                    type_matches got (default "" (as_str t)) = true.
Proof.
  rewrite l1_validate_payload_ok. unfold field_conforms.
  split; intros (r & Hr & Hs); exists r; (split; [done|]); intros schema E.
  - intros f t Hin. specialize (Hs schema E). rewrite Forall_forall in Hs.
    apply (Hs (f, t) Hin).
  - apply Forall_forall. intros [f t] Hin. by apply (Hs schema E).
Qed.

(** [L1::reduce] emits, in the order of the definition, one operation per
    declared write: it bears the action's document, timestamp, clock, origin
    and signature, names the declared field and carries the value the write
    computes on the pre-state.  An interpreted model therefore never deletes a
    field or a document. *)
Theorem reduce_declared_writes m state a ops :
  l1_reduce m state a = Ok ops <->
  exists r, reducer m (a_kind a) = Some r /\
    Forall2 (fun w op => exists v, write_value state a w.1 w.2 = Ok v /\
                                   op = op_of_action a (Some w.1) (Some v))
      (default [] (vget r "writes" ≫= as_object)) ops.
Proof.
  unfold l1_reduce. destruct (reducer m (a_kind a)) as [r|]; [|naive_solver].
  trans (Forall2 (fun w op => exists v, write_value state a w.1 w.2 = Ok v /\
           op = op_of_action a (Some w.1) (Some v))
           (default [] (vget r "writes" ≫= as_object)) ops); [|naive_solver].
  assert (Hnil : Ok (E := Reject) (@nil Op) = Ok ops <->
    Forall2 (fun w op => exists v, write_value state a w.1 w.2 = Ok v /\
           op = op_of_action a (Some w.1) (Some v)) [] ops).
  { split; [intros [= <-]; constructor|by intros ->%Forall2_nil_inv_l]. }
  destruct (vget r "writes") as [v|]; simpl; [|done].
  destruct (as_object v); simpl; [apply reduce_writes_ok|done].
Qed.

(** [L1::authorize]: under a rule for the action's kind, the action passes
    exactly when every entry of the rule's array that matches and is private
    lists the actor in its allow-list. *)
Theorem authorize_exact m state a rule :
  vget (l1_auth m) (a_kind a) = Some rule ->
  l1_authorize m state a = Ok tt <->
  forall entry, entry ∈ current_array state (rule_str rule "field" "") ->
    vget entry (rule_str rule "name" "name")
      = Some (eval_template a (default Null (vget rule "match"))) ->
    vget entry (rule_str rule "visibility" "visibility")
      = Some (Str (rule_str rule "private" "private")) ->
    Str (a_origin a) ∈
      default [] (vget entry (rule_str rule "allow" "members") ≫= as_array).
Proof.
  intros Hrule. unfold l1_authorize. rewrite Hrule, authorize_entries_ok, Forall_forall.
  unfold entry_refuses. split; intros H e He.
  - intros Hn Hv. destruct (decide (Str (a_origin a) ∈
      default [] (vget e (rule_str rule "allow" "members") ≫= as_array))); [done|].
    by destruct (H e He).
  - intros (Hn & Hv & Hout). by apply Hout, H.
Qed.

(** Named checks terminate and fail closed: in a definition whose named
    checks refer to each other in a cycle, a precondition that enters the cycle
    is refused (the code's bound of 8 levels). *)
Theorem named_check_cycle_refused `{Platform} m state a (names : list string) n :
  (forall x, x ∈ names -> exists y, y ∈ names /\
     vget (l1_checks m) x = Some (Object [("check", Str y)])) ->
  n ∈ names ->
  exists r, eval_precond 9 m state a (Object [("check", Str n)]) = Err r.
Proof. intros Hc Hn. by apply (eval_precond_cycle 9 m state a names). Qed.

(** A pinned reference determines the model: two registries, each built by
    [insert] from [open@1] and interpreters made by [from_def], that both find
    a model under a reference carrying a content hash hold definitions with the
    same canonical bytes, unless SHA-256 collided. *)
Theorem pinned_model_agrees `{Platform} r1 r2 mref h m1 m2 :
  registry_ok r1 -> registry_ok r2 -> mr_hash mref = Some h ->
  reg_find r1 mref = Some m1 -> reg_find r2 mref = Some m2 ->
  (exists l1 l2, m1 = ML1 l1 /\ m2 = ML1 l2 /\
     (json_to_vec (l1_def l1) = json_to_vec (l1_def l2) \/ sha256_collision)).
Proof.
  assert (Hex : forall r m, registry_ok r -> mr_hash mref = Some h ->
    reg_find r mref = Some m -> exists l, m = ML1 l /\ model_def_hash (l1_def l) = h).
  { intros r m Hr Hh [Hl Hp]%reg_find_Some. destruct (Hr _ _ Hl) as [_ Hm].
    specialize (Hp h Hh). destruct m as [o|l]; simpl in *.
    - by rewrite Hm in Hp.
    - exists l. split; [done|]. rewrite (from_def_hash l Hm) in Hp. by injection Hp. }
  intros H1 H2 Hh F1 F2.
  destruct (Hex r1 m1 H1 Hh F1) as (l1 & -> & E1).
  destruct (Hex r2 m2 H2 Hh F2) as (l2 & -> & E2).
  exists l1, l2. split_and!; [done..|].
  destruct (decide (json_to_vec (l1_def l1) = json_to_vec (l1_def l2))); [by left|right].
  exists (json_to_vec (l1_def l1)), (json_to_vec (l1_def l2)). split; [done|].
  unfold model_def_hash, hash32_of in *. congruence.
Qed.

(** Outside this file the trait's methods are used through their lemmas. *)
#[global] Arguments ref_ {_ _} _ : simpl never.
#[global] Arguments validate_payload {_ _} _ _ _ : simpl never.
#[global] Arguments check_precondition {_ _} _ _ _ : simpl never.
#[global] Arguments reduce {_ _} _ _ _ : simpl never.
#[global] Arguments authorize {_ _} _ _ _ : simpl never.
#[global] Arguments quorum {_ _} _ _ : simpl never.
#[global] Arguments requires_space_member {_ _} _ _ : simpl never.
