(* ===== verification/Builtins.v ===== *)
(** The models the repository ships: the JSON definitions of src/model/group.rs,
    space.rs, chat.rs, drive.rs, package.rs, release.rs and realistic.rs, the
    registry seeded with them, the readers of a space document, and the file of
    runtime definitions (persist.rs).

    Each definition is the [json!] literal of the source, entry for entry. *)

From stdpp Require Import base list gmap strings numbers pretty.
From S2P Require Import Prelude Json Doc Sample Action Model.

Local Notation "k ~> v" := (@pair string Value k v) (at level 60, v at level 59, only parsing).

(** [group_def] of src/model/group.rs. *)
Definition group_def : Value :=
  json_obj [
    "name" ~> Str "group";
    "version" ~> Str "1";
    "fields" ~> json_obj [
      "members" ~> Str "string[]";
      "managers" ~> Str "string[]";
      "msg_from" ~> Str "string[]";
      "msg_text" ~> Str "string[]";
      "msg_ts" ~> Str "number[]";
      "msg_channel" ~> Str "string[]";
      "channels" ~> Str "array";
      "drive" ~> Str "array"];
    "auth" ~> json_obj [
      "post" ~> json_obj [
        "field" ~> Str "channels";
        "name" ~> Str "name";
        "match" ~> Str "$payload.channel";
        "visibility" ~> Str "visibility";
        "private" ~> Str "private";
        "allow" ~> Str "members"]];
    "reducers" ~> json_obj [
      "init" ~> json_obj [
        "payload" ~> json_obj [
          "name" ~> Str "string";
          "members" ~> Str "string[]";
          "managers" ~> Str "string[]"];
        "writes" ~> json_obj [
          "__name__" ~> json_obj ["set" ~> Str "$payload.name"];
          "members" ~> json_obj ["set" ~> Str "$payload.members"];
          "managers" ~> json_obj ["set" ~> Str "$payload.managers"];
          "msg_from" ~> json_obj ["set" ~> Array []];
          "msg_text" ~> json_obj ["set" ~> Array []];
          "msg_ts" ~> json_obj ["set" ~> Array []];
          "msg_channel" ~> json_obj ["set" ~> Array []];
          "channels" ~> json_obj [
            "set" ~> Array [
              json_obj [
                "name" ~> Str "general";
                "visibility" ~> Str "public";
                "members" ~> Array []]]];
          "drive" ~> json_obj ["set" ~> Array []]];
        "pre" ~> Array []];
      "add-member" ~> json_obj [
        "payload" ~> json_obj ["member" ~> Str "string"];
        "writes" ~> json_obj ["members" ~> json_obj ["append" ~> Str "$payload.member"]];
        "pre" ~> Array [json_obj ["actor-in" ~> Str "managers"]]];
      "remove-member" ~> json_obj [
        "payload" ~> json_obj ["member" ~> Str "string"];
        "writes" ~> json_obj ["members" ~> json_obj ["remove" ~> Str "$payload.member"]];
        "pre" ~> Array [json_obj ["actor-in" ~> Str "managers"]]];
      "add-manager" ~> json_obj [
        "payload" ~> json_obj ["member" ~> Str "string"];
        "writes" ~> json_obj [
          "members" ~> json_obj ["append" ~> Str "$payload.member"];
          "managers" ~> json_obj ["append" ~> Str "$payload.member"]];
        "pre" ~> Array [
          json_obj [
            "quorum" ~> json_obj [
              "group" ~> Str "$self";
              "min" ~> Number 2;
              "field" ~> Str "members"]]]];
      "post" ~> json_obj [
        "payload" ~> json_obj ["text" ~> Str "string"; "channel" ~> Str "string"];
        "writes" ~> json_obj [
          "msg_from" ~> json_obj ["append" ~> Str "$actor"];
          "msg_text" ~> json_obj ["append" ~> Str "$payload.text"];
          "msg_ts" ~> json_obj ["append" ~> Str "$ts"];
          "msg_channel" ~> json_obj ["append" ~> Str "$payload.channel"]];
        "pre" ~> Array [json_obj ["actor-in" ~> Str "members"]]];
      "add-channel" ~> json_obj [
        "payload" ~> json_obj ["item" ~> Str "object"];
        "writes" ~> json_obj ["channels" ~> json_obj ["append" ~> Str "$payload.item"]];
        "pre" ~> Array [json_obj ["actor-in" ~> Str "members"]]];
      "remove-channel" ~> json_obj [
        "payload" ~> json_obj ["channels" ~> Str "array"];
        "writes" ~> json_obj ["channels" ~> json_obj ["set" ~> Str "$payload.channels"]];
        "pre" ~> Array [json_obj ["actor-in" ~> Str "managers"]]];
      "add-folder" ~> json_obj [
        "payload" ~> json_obj ["item" ~> Str "object"];
        "writes" ~> json_obj ["drive" ~> json_obj ["append" ~> Str "$payload.item"]];
        "pre" ~> Array [json_obj ["actor-in" ~> Str "members"]]];
      "add-doc" ~> json_obj [
        "payload" ~> json_obj ["item" ~> Str "object"];
        "writes" ~> json_obj ["drive" ~> json_obj ["append" ~> Str "$payload.item"]];
        "pre" ~> Array [json_obj ["actor-in" ~> Str "members"]]];
      "remove-item" ~> json_obj [
        "payload" ~> json_obj ["drive" ~> Str "array"];
        "writes" ~> json_obj ["drive" ~> json_obj ["set" ~> Str "$payload.drive"]];
        "pre" ~> Array [json_obj ["actor-in" ~> Str "managers"]]]]].

(** [space_def] of src/model/space.rs. *)
Definition space_def : Value :=
  json_obj [
    "name" ~> Str "space";
    "version" ~> Str "1";
    "$comment" ~> Str "The unit of access. `visibility` is fixed at init -- there is no reducer that changes it, deliberately. `apps` holds the packages enabled here; installing a package is a node-level trust decision, enabling it here is a separate one about data.";
    "fields" ~> json_obj [
      "visibility" ~> Str "string";
      "members" ~> Str "string[]";
      "managers" ~> Str "string[]";
      "apps" ~> Str "array"];
    "reducers" ~> json_obj [
      "init" ~> json_obj [
        "payload" ~> json_obj [
          "name" ~> Str "string";
          "visibility" ~> Str "string";
          "members" ~> Str "string[]";
          "managers" ~> Str "string[]"];
        "writes" ~> json_obj [
          "__name__" ~> json_obj ["set" ~> Str "$payload.name"];
          "visibility" ~> json_obj ["set" ~> Str "$payload.visibility"];
          "members" ~> json_obj ["set" ~> Str "$payload.members"];
          "managers" ~> json_obj ["set" ~> Str "$payload.managers"];
          "apps" ~> json_obj ["set" ~> Array []]];
        "pre" ~> Array []];
      "add-member" ~> json_obj [
        "payload" ~> json_obj ["member" ~> Str "string"];
        "writes" ~> json_obj ["members" ~> json_obj ["append" ~> Str "$payload.member"]];
        "pre" ~> Array [json_obj ["actor-in" ~> Str "managers"]]];
      "remove-member" ~> json_obj [
        "payload" ~> json_obj ["member" ~> Str "string"];
        "writes" ~> json_obj ["members" ~> json_obj ["remove" ~> Str "$payload.member"]];
        "pre" ~> Array [json_obj ["actor-in" ~> Str "managers"]]];
      "add-manager" ~> json_obj [
        "payload" ~> json_obj ["member" ~> Str "string"];
        "writes" ~> json_obj [
          "members" ~> json_obj ["append" ~> Str "$payload.member"];
          "managers" ~> json_obj ["append" ~> Str "$payload.member"]];
        "pre" ~> Array [
          json_obj [
            "quorum" ~> json_obj [
              "group" ~> Str "$self";
              "min" ~> Number 2;
              "field" ~> Str "members"]]]];
      "enable-app" ~> json_obj [
        "payload" ~> json_obj ["item" ~> Str "object"];
        "writes" ~> json_obj ["apps" ~> json_obj ["append" ~> Str "$payload.item"]];
        "pre" ~> Array [json_obj ["actor-in" ~> Str "managers"]]];
      "disable-app" ~> json_obj [
        "payload" ~> json_obj ["apps" ~> Str "array"];
        "writes" ~> json_obj ["apps" ~> json_obj ["set" ~> Str "$payload.apps"]];
        "pre" ~> Array [json_obj ["actor-in" ~> Str "managers"]]]]].

(** [chat_def] of src/model/chat.rs. *)
Definition chat_def : Value :=
  json_obj [
    "name" ~> Str "chat";
    "version" ~> Str "1";
    "$comment" ~> Str "A channel. Messages are parallel arrays appended by one action, so they stay the same length and in order. Who may post comes from the space, not from this document.";
    "fields" ~> json_obj [
      "channel" ~> Str "string";
      "msg_from" ~> Str "string[]";
      "msg_text" ~> Str "string[]";
      "msg_ts" ~> Str "number[]"];
    "reducers" ~> json_obj [
      "init" ~> json_obj [
        "payload" ~> json_obj ["name" ~> Str "string"; "channel" ~> Str "string"];
        "writes" ~> json_obj [
          "__name__" ~> json_obj ["set" ~> Str "$payload.name"];
          "channel" ~> json_obj ["set" ~> Str "$payload.channel"];
          "msg_from" ~> json_obj ["set" ~> Array []];
          "msg_text" ~> json_obj ["set" ~> Array []];
          "msg_ts" ~> json_obj ["set" ~> Array []]];
        "pre" ~> Array [json_obj ["space-member" ~> Bool true]]];
      "post" ~> json_obj [
        "payload" ~> json_obj ["text" ~> Str "string"];
        "writes" ~> json_obj [
          "msg_from" ~> json_obj ["append" ~> Str "$actor"];
          "msg_text" ~> json_obj ["append" ~> Str "$payload.text"];
          "msg_ts" ~> json_obj ["append" ~> Str "$ts"]];
        "pre" ~> Array [json_obj ["space-member" ~> Bool true]]]]].

(** [drive_def] of src/model/drive.rs. *)
Definition drive_def : Value :=
  json_obj [
    "name" ~> Str "drive";
    "version" ~> Str "1";
    "$comment" ~> Str "A folder tree. `kind` is 'folder' (a container, no separate document) or 'doc' (a real document of `model`). Removal recomputes the whole array and sets it, which converges under the canonical fold.";
    "fields" ~> json_obj ["items" ~> Str "array"];
    "reducers" ~> json_obj [
      "init" ~> json_obj [
        "payload" ~> json_obj ["name" ~> Str "string"];
        "writes" ~> json_obj [
          "__name__" ~> json_obj ["set" ~> Str "$payload.name"];
          "items" ~> json_obj ["set" ~> Array []]];
        "pre" ~> Array [json_obj ["space-member" ~> Bool true]]];
      "add-item" ~> json_obj [
        "payload" ~> json_obj ["item" ~> Str "object"];
        "writes" ~> json_obj ["items" ~> json_obj ["append" ~> Str "$payload.item"]];
        "pre" ~> Array [json_obj ["space-member" ~> Bool true]]];
      "remove-item" ~> json_obj [
        "payload" ~> json_obj ["items" ~> Str "array"];
        "writes" ~> json_obj ["items" ~> json_obj ["set" ~> Str "$payload.items"]];
        "pre" ~> Array [json_obj ["space-member" ~> Str "managers"]]]]].

(** [package_def] of src/model/package.rs. *)
Definition package_def : Value :=
  json_obj [
    "name" ~> Str "package";
    "version" ~> Str "1";
    "$comment" ~> Str "A plugin package offered on the mesh. Publishing is open; installing is the operator's decision.";
    "fields" ~> json_obj [
      "publishers" ~> Str "string[]";
      "publisher_key" ~> Str "string";
      "publisher_name" ~> Str "string";
      "package_name" ~> Str "string";
      "package_version" ~> Str "string";
      "description" ~> Str "string";
      "manifest" ~> Str "string";
      "status" ~> Str "string"];
    "reducers" ~> json_obj [
      "init" ~> json_obj [
        "payload" ~> json_obj [
          "name" ~> Str "string";
          "publisher_key" ~> Str "string";
          "package_name" ~> Str "string";
          "package_version" ~> Str "string";
          "manifest" ~> Str "string"];
        "writes" ~> json_obj [
          "__name__" ~> json_obj ["set" ~> Str "$payload.name"];
          "publishers" ~> json_obj ["append" ~> Str "$actor"];
          "publisher_key" ~> json_obj ["set" ~> Str "$payload.publisher_key"];
          "publisher_name" ~> json_obj ["set" ~> Str "$payload.publisher_name"];
          "package_name" ~> json_obj ["set" ~> Str "$payload.package_name"];
          "package_version" ~> json_obj ["set" ~> Str "$payload.package_version"];
          "description" ~> json_obj ["set" ~> Str "$payload.description"];
          "manifest" ~> json_obj ["set" ~> Str "$payload.manifest"];
          "status" ~> json_obj ["set" ~> Str "published"]]];
      "withdraw" ~> json_obj [
        "payload" ~> json_obj ["reason" ~> Str "string"];
        "pre" ~> Array [
          json_obj ["actor-in" ~> Str "publishers"];
          json_obj [
            "field-is" ~> json_obj ["field" ~> Str "status"; "value" ~> Str "published"]]];
        "writes" ~> json_obj [
          "status" ~> json_obj ["set" ~> Str "withdrawn"];
          "description" ~> json_obj ["set" ~> Str "$payload.reason"]]]]].

(** [release_def] of src/model/release.rs. *)
Definition release_def : Value :=
  json_obj [
    "name" ~> Str "release";
    "version" ~> Str "1";
    "$comment" ~> Str "A published daemon build. `manifest` holds the signed release JSON; the fields beside it are duplicated out so a node can filter without parsing every one.";
    "fields" ~> json_obj [
      "publishers" ~> Str "string[]";
      "publisher_key" ~> Str "string";
      "release_version" ~> Str "string";
      "platform" ~> Str "string";
      "notes" ~> Str "string";
      "manifest" ~> Str "string";
      "status" ~> Str "string"];
    "reducers" ~> json_obj [
      "init" ~> json_obj [
        "payload" ~> json_obj [
          "name" ~> Str "string";
          "publisher_key" ~> Str "string";
          "release_version" ~> Str "string";
          "platform" ~> Str "string";
          "manifest" ~> Str "string"];
        "writes" ~> json_obj [
          "__name__" ~> json_obj ["set" ~> Str "$payload.name"];
          "publishers" ~> json_obj ["append" ~> Str "$actor"];
          "publisher_key" ~> json_obj ["set" ~> Str "$payload.publisher_key"];
          "release_version" ~> json_obj ["set" ~> Str "$payload.release_version"];
          "platform" ~> json_obj ["set" ~> Str "$payload.platform"];
          "notes" ~> json_obj ["set" ~> Str "$payload.notes"];
          "manifest" ~> json_obj ["set" ~> Str "$payload.manifest"];
          "status" ~> json_obj ["set" ~> Str "published"]]];
      "withdraw" ~> json_obj [
        "payload" ~> json_obj ["reason" ~> Str "string"];
        "pre" ~> Array [
          json_obj ["actor-in" ~> Str "publishers"];
          json_obj [
            "field-is" ~> json_obj ["field" ~> Str "status"; "value" ~> Str "published"]]];
        "writes" ~> json_obj [
          "status" ~> json_obj ["set" ~> Str "withdrawn"];
          "notes" ~> json_obj ["set" ~> Str "$payload.reason"]]]]].

(** [folder_def] of src/model/realistic.rs. *)
Definition folder_def : Value :=
  json_obj [
    "name" ~> Str "folder";
    "version" ~> Str "1";
    "fields" ~> json_obj ["description" ~> Str "string"; "members" ~> Str "string[]"];
    "reducers" ~> json_obj [
      "init" ~> json_obj [
        "payload" ~> json_obj [
          "name" ~> Str "string";
          "description" ~> Str "string";
          "members" ~> Str "string[]"];
        "writes" ~> json_obj [
          "__name__" ~> json_obj ["set" ~> Str "$payload.name"];
          "description" ~> json_obj ["set" ~> Str "$payload.description"];
          "members" ~> json_obj ["set" ~> Str "$payload.members"]];
        "pre" ~> Array []];
      "add-member" ~> json_obj [
        "payload" ~> json_obj ["member" ~> Str "string"];
        "writes" ~> json_obj ["members" ~> json_obj ["append" ~> Str "$payload.member"]];
        "pre" ~> Array []];
      "remove-member" ~> json_obj [
        "payload" ~> json_obj ["member" ~> Str "string"];
        "writes" ~> json_obj ["members" ~> json_obj ["remove" ~> Str "$payload.member"]];
        "pre" ~> Array []];
      "set-description" ~> json_obj [
        "payload" ~> json_obj ["description" ~> Str "string"];
        "writes" ~> json_obj ["description" ~> json_obj ["set" ~> Str "$payload.description"]];
        "pre" ~> Array []]]].

(** [note_def] of src/model/realistic.rs. *)
Definition note_def : Value :=
  json_obj [
    "name" ~> Str "note";
    "version" ~> Str "1";
    "fields" ~> json_obj ["title" ~> Str "string"; "body" ~> Str "string"];
    "reducers" ~> json_obj [
      "init" ~> json_obj [
        "payload" ~> json_obj [
          "name" ~> Str "string";
          "title" ~> Str "string";
          "body" ~> Str "string"];
        "writes" ~> json_obj [
          "__name__" ~> json_obj ["set" ~> Str "$payload.name"];
          "title" ~> json_obj ["set" ~> Str "$payload.title"];
          "body" ~> json_obj ["set" ~> Str "$payload.body"]];
        "pre" ~> Array []];
      "edit" ~> json_obj [
        "payload" ~> json_obj ["title" ~> Str "string"; "body" ~> Str "string"];
        "writes" ~> json_obj [
          "title" ~> json_obj ["set" ~> Str "$payload.title"];
          "body" ~> json_obj ["set" ~> Str "$payload.body"]];
        "pre" ~> Array []];
      "set-title" ~> json_obj [
        "payload" ~> json_obj ["title" ~> Str "string"];
        "writes" ~> json_obj ["title" ~> json_obj ["set" ~> Str "$payload.title"]];
        "pre" ~> Array []];
      "set-body" ~> json_obj [
        "payload" ~> json_obj ["body" ~> Str "string"];
        "writes" ~> json_obj ["body" ~> json_obj ["set" ~> Str "$payload.body"]];
        "pre" ~> Array []]]].

(** [project_def] of src/model/realistic.rs. *)
Definition project_def : Value :=
  json_obj [
    "name" ~> Str "project";
    "version" ~> Str "1";
    "fields" ~> json_obj [
      "status" ~> Str "string";
      "owner" ~> Str "string";
      "due_date" ~> Str "string";
      "description" ~> Str "string"];
    "reducers" ~> json_obj [
      "init" ~> json_obj [
        "payload" ~> json_obj [
          "name" ~> Str "string";
          "status" ~> Str "string";
          "owner" ~> Str "string";
          "due_date" ~> Str "string";
          "description" ~> Str "string"];
        "writes" ~> json_obj [
          "__name__" ~> json_obj ["set" ~> Str "$payload.name"];
          "status" ~> json_obj ["set" ~> Str "$payload.status"];
          "owner" ~> json_obj ["set" ~> Str "$payload.owner"];
          "due_date" ~> json_obj ["set" ~> Str "$payload.due_date"];
          "description" ~> json_obj ["set" ~> Str "$payload.description"]];
        "pre" ~> Array []];
      "set-status" ~> json_obj [
        "payload" ~> json_obj ["status" ~> Str "string"];
        "writes" ~> json_obj ["status" ~> json_obj ["set" ~> Str "$payload.status"]];
        "pre" ~> Array []];
      "set-owner" ~> json_obj [
        "payload" ~> json_obj ["owner" ~> Str "string"];
        "writes" ~> json_obj ["owner" ~> json_obj ["set" ~> Str "$payload.owner"]];
        "pre" ~> Array []];
      "set-due-date" ~> json_obj [
        "payload" ~> json_obj ["due_date" ~> Str "string"];
        "writes" ~> json_obj ["due_date" ~> json_obj ["set" ~> Str "$payload.due_date"]];
        "pre" ~> Array []]]].

(** [task_def] of src/model/realistic.rs. *)
Definition task_def : Value :=
  json_obj [
    "name" ~> Str "task";
    "version" ~> Str "1";
    "fields" ~> json_obj [
      "title" ~> Str "string";
      "status" ~> Str "string";
      "assignee" ~> Str "string";
      "project" ~> Str "string";
      "priority" ~> Str "number";
      "tags" ~> Str "string[]"];
    "enums" ~> json_obj [
      "status" ~> Array [Str "open"; Str "in-progress"; Str "blocked"; Str "done"]];
    "reducers" ~> json_obj [
      "init" ~> json_obj [
        "payload" ~> json_obj [
          "name" ~> Str "string";
          "title" ~> Str "string";
          "status" ~> Str "string";
          "assignee" ~> Str "string";
          "project" ~> Str "string";
          "priority" ~> Str "number"];
        "writes" ~> json_obj [
          "__name__" ~> json_obj ["set" ~> Str "$payload.name"];
          "title" ~> json_obj ["set" ~> Str "$payload.title"];
          "status" ~> json_obj ["set" ~> Str "$payload.status"];
          "assignee" ~> json_obj ["set" ~> Str "$payload.assignee"];
          "project" ~> json_obj ["set" ~> Str "$payload.project"];
          "priority" ~> json_obj ["set" ~> Str "$payload.priority"]];
        "pre" ~> Array []];
      "set-title" ~> json_obj [
        "payload" ~> json_obj ["title" ~> Str "string"];
        "writes" ~> json_obj ["title" ~> json_obj ["set" ~> Str "$payload.title"]];
        "pre" ~> Array []];
      "set-status" ~> json_obj [
        "payload" ~> json_obj ["status" ~> Str "string"];
        "writes" ~> json_obj ["status" ~> json_obj ["set" ~> Str "$payload.status"]];
        "pre" ~> Array []];
      "set-assignee" ~> json_obj [
        "payload" ~> json_obj ["assignee" ~> Str "string"];
        "writes" ~> json_obj ["assignee" ~> json_obj ["set" ~> Str "$payload.assignee"]];
        "pre" ~> Array []];
      "set-project" ~> json_obj [
        "payload" ~> json_obj ["project" ~> Str "string"];
        "writes" ~> json_obj ["project" ~> json_obj ["set" ~> Str "$payload.project"]];
        "pre" ~> Array []];
      "set-priority" ~> json_obj [
        "payload" ~> json_obj ["priority" ~> Str "number"];
        "writes" ~> json_obj ["priority" ~> json_obj ["set" ~> Str "$payload.priority"]];
        "pre" ~> Array []];
      "set-tags" ~> json_obj [
        "payload" ~> json_obj ["tags" ~> Str "string[]"];
        "writes" ~> json_obj ["tags" ~> json_obj ["set" ~> Str "$payload.tags"]];
        "pre" ~> Array []]]].

(** [account_def] of src/model/realistic.rs. *)
Definition account_def : Value :=
  json_obj [
    "name" ~> Str "account";
    "version" ~> Str "1";
    "fields" ~> json_obj ["currency" ~> Str "string"; "balance" ~> Str "number"];
    "reducers" ~> json_obj [
      "init" ~> json_obj [
        "payload" ~> json_obj [
          "name" ~> Str "string";
          "currency" ~> Str "string";
          "balance" ~> Str "number"];
        "writes" ~> json_obj [
          "__name__" ~> json_obj ["set" ~> Str "$payload.name"];
          "currency" ~> json_obj ["set" ~> Str "$payload.currency"];
          "balance" ~> json_obj ["set" ~> Str "$payload.balance"]];
        "pre" ~> Array []];
      "set-balance" ~> json_obj [
        "payload" ~> json_obj ["balance" ~> Str "number"];
        "writes" ~> json_obj ["balance" ~> json_obj ["set" ~> Str "$payload.balance"]];
        "pre" ~> Array []]]].

(** [transaction_def] of src/model/realistic.rs. *)
Definition transaction_def : Value :=
  json_obj [
    "name" ~> Str "transaction";
    "version" ~> Str "1";
    "fields" ~> json_obj [
      "amount" ~> Str "number";
      "category" ~> Str "string";
      "account" ~> Str "string";
      "date" ~> Str "string"];
    "reducers" ~> json_obj [
      "init" ~> json_obj [
        "payload" ~> json_obj [
          "name" ~> Str "string";
          "amount" ~> Str "number";
          "category" ~> Str "string";
          "account" ~> Str "string";
          "date" ~> Str "string"];
        "writes" ~> json_obj [
          "__name__" ~> json_obj ["set" ~> Str "$payload.name"];
          "amount" ~> json_obj ["set" ~> Str "$payload.amount"];
          "category" ~> json_obj ["set" ~> Str "$payload.category"];
          "account" ~> json_obj ["set" ~> Str "$payload.account"];
          "date" ~> json_obj ["set" ~> Str "$payload.date"]];
        "pre" ~> Array []];
      "set-amount" ~> json_obj [
        "payload" ~> json_obj ["amount" ~> Str "number"];
        "writes" ~> json_obj ["amount" ~> json_obj ["set" ~> Str "$payload.amount"]];
        "pre" ~> Array []]]].

(** [invoice_def] of src/model/realistic.rs. *)
Definition invoice_def : Value :=
  json_obj [
    "name" ~> Str "invoice";
    "version" ~> Str "1";
    "fields" ~> json_obj [
      "number" ~> Str "string";
      "customer" ~> Str "string";
      "total" ~> Str "number";
      "currency" ~> Str "string";
      "status" ~> Str "string"];
    "reducers" ~> json_obj [
      "init" ~> json_obj [
        "payload" ~> json_obj [
          "name" ~> Str "string";
          "number" ~> Str "string";
          "customer" ~> Str "string";
          "total" ~> Str "number";
          "currency" ~> Str "string";
          "status" ~> Str "string"];
        "writes" ~> json_obj [
          "__name__" ~> json_obj ["set" ~> Str "$payload.name"];
          "number" ~> json_obj ["set" ~> Str "$payload.number"];
          "customer" ~> json_obj ["set" ~> Str "$payload.customer"];
          "total" ~> json_obj ["set" ~> Str "$payload.total"];
          "currency" ~> json_obj ["set" ~> Str "$payload.currency"];
          "status" ~> json_obj ["set" ~> Str "$payload.status"]];
        "pre" ~> Array []];
      "set-status" ~> json_obj [
        "payload" ~> json_obj ["status" ~> Str "string"];
        "writes" ~> json_obj ["status" ~> json_obj ["set" ~> Str "$payload.status"]];
        "pre" ~> Array []];
      "set-customer" ~> json_obj [
        "payload" ~> json_obj ["customer" ~> Str "string"];
        "writes" ~> json_obj ["customer" ~> json_obj ["set" ~> Str "$payload.customer"]];
        "pre" ~> Array []];
      "set-total" ~> json_obj [
        "payload" ~> json_obj ["total" ~> Str "number"];
        "writes" ~> json_obj ["total" ~> json_obj ["set" ~> Str "$payload.total"]];
        "pre" ~> Array []]]].

(** ** Loading *)

(** [from_def(...).expect(...)]: the program stops on a definition that does not
    load; [builtins_load] shows that every shipped one does, so the second
    branch is never taken. *)
Definition builtin `{Platform} (def : Value) : AnyModel :=
  match from_def def with Ok m => ML1 m | Err _ => MOpen open_new end.

(** [group], [package], [release], [space], [chat], [drive]. *)
Definition group `{Platform} : AnyModel := builtin group_def.
Definition package `{Platform} : AnyModel := builtin package_def.
Definition release `{Platform} : AnyModel := builtin release_def.
Definition space `{Platform} : AnyModel := builtin space_def.
Definition chat `{Platform} : AnyModel := builtin chat_def.
Definition drive `{Platform} : AnyModel := builtin drive_def.

(** [ModelRegistry::seeded_with_open] and [seeded_with_builtins]. *)
Definition seeded_with_open `{Platform} : ModelRegistry := reg_insert ∅ (MOpen open_new).
Definition seeded_with_builtins `{Platform} : ModelRegistry :=
  let r := seeded_with_open in
  let r := reg_insert r group in
  let r := reg_insert r package in
  let r := reg_insert r release in
  let r := reg_insert r space in
  let r := reg_insert r chat in
  reg_insert r drive.

(** [realistic_models]. *)
Definition realistic_models `{Platform} : list AnyModel :=
  builtin <$> [project_def; task_def; account_def; transaction_def; invoice_def;
               folder_def; note_def].

(** [realistic_relationships]. *)
Definition realistic_relationships : gmap (string * string) string :=
  <[("transaction", "account") := "account"]> (<[("task", "project") := "project"]> ∅).

(** ** Spaces (src/model/space.rs) *)

(** [COMMONS_ID], 00000000-0000-0000-0000-000000000c00. *)
Definition COMMONS_ID : DocId := 3072.

Definition PUBLIC : string := "public".
Definition PROTECTED : string := "protected".
Definition PRIVATE : string := "private".

Definition may_gossip (visibility : string) : bool := bool_decide (visibility = PUBLIC).
Definition replicates (visibility : string) : bool := negb (bool_decide (visibility = PRIVATE)).

(** [visibility_of]: anything but a string reads as private. *)
Definition visibility_of (doc : Doc) : string :=
  default PRIVATE (doc_fields doc !! "visibility" ≫= fun f => as_str (fld_value f)).

(** [list_of], [members_of]. *)
Definition list_of (doc : Doc) (field : string) : list string :=
  match doc_fields doc !! field ≫= fun f => as_array (fld_value f) with
  | Some a => omap as_str a
  | None => []
  end.
Definition members_of (doc : Doc) : list string := list_of doc "members".

(** ** Runtime definitions (src/model/persist.rs) *)

(** The parsed content of models.json; reading and writing the file is not
    modelled.  [save] refuses a nameless definition and otherwise replaces the
    definition of the same name and version. *)
Definition def_key (v : Value) : string * string :=
  (default "" (vget v "name" ≫= as_str), default "" (vget v "version" ≫= as_str)).

Definition save (all : list Value) (def : Value) : result string (list Value) :=
  let this := def_key def in
  if bool_decide (this.1 = "") then Err "a model definition needs a name"
  else Ok (filter (fun v => def_key v <> this) all ++ [def]).

(** ** Every shipped definition loads *)

Definition shipped_defs : list Value :=
  [group_def; package_def; release_def; space_def; chat_def; drive_def; project_def; task_def;
   account_def; transaction_def; invoice_def; folder_def; note_def].

Lemma builtin_loads `{Platform} def :
  bool_decide (default "" (vget def "name" ≫= as_str) = "") = false ->
  exists l, from_def def = Ok l /\ builtin def = ML1 l.
Proof. intros E. unfold builtin, from_def. rewrite E. by eexists. Qed.

(** The interpreter of a definition whose [name] is present. *)
Definition l1_of `{Platform} (def : Value) : L1 :=
  {| l1_ref := {| mr_name := default "" (vget def "name" ≫= as_str);
                  mr_version := default "1" (vget def "version" ≫= as_str);
                  mr_hash := Some (model_def_hash def) |};
     l1_def := def;
     l1_fields := default Null (vget def "fields");
     l1_reducers := default Null (vget def "reducers");
     l1_checks := default Null (vget def "checks");
     l1_auth := default Null (vget def "auth") |}.

Lemma builtin_l1 `{Platform} :
  group = ML1 (l1_of group_def) /\ space = ML1 (l1_of space_def) /\
  chat = ML1 (l1_of chat_def) /\ drive = ML1 (l1_of drive_def).
Proof. done. Qed.

Lemma shipped_loads `{Platform} def :
  def ∈ shipped_defs -> exists l, from_def def = Ok l /\ builtin def = ML1 l.
Proof.
  intros Hd. apply builtin_loads. revert def Hd. apply Forall_forall.
  repeat constructor.
Qed.

Lemma builtin_ok `{Platform} def : def ∈ shipped_defs -> model_ok (builtin def).
Proof.
  intros (l & Hl & ->)%shipped_loads. by eapply from_def_ok.
Qed.

Lemma seeded_open_ok `{Platform} : registry_ok seeded_with_open.
Proof.
  unfold seeded_with_open. apply registry_ok_insert; [apply registry_ok_empty|reflexivity].
Qed.

Lemma seeded_ok `{Platform} : registry_ok seeded_with_builtins.
Proof.
  unfold seeded_with_builtins, seeded_with_open.
  repeat apply registry_ok_insert; try done.
  all: try (apply builtin_ok; unfold shipped_defs; set_solver).
Qed.

(** The shipped definitions are usable: each of the thirteen JSON
    definitions loads (so no [expect] of the model modules can stop the
    daemon), the seeded registry files every model under its own name and
    version with the digest of its definition, and a lookup of a built-in by
    its bare reference finds it. *)
Theorem builtins_load `{Platform} :
  (forall def, def ∈ shipped_defs -> exists l, from_def def = Ok l) /\
  registry_ok seeded_with_builtins /\
  (forall m, m ∈ [MOpen open_new; group; package; release; space; chat; drive] ->
     reg_find seeded_with_builtins (ref_ m) = Some m /\
     reg_find seeded_with_builtins (modelref_new (mr_name (ref_ m)) (mr_version (ref_ m))) = Some m).
Proof.
  split; [intros def (l & Hl & _)%shipped_loads; by exists l|]. split; [apply seeded_ok|].
  apply Forall_forall. repeat constructor; apply reg_find_Some; (split; [reflexivity|]);
    intros h [= <-]; reflexivity.
Qed.

Lemma filter_other_key k (all : list Value) :
  filter (fun v => def_key v = k) (filter (fun v => def_key v <> k) all) = [].
Proof.
  induction all as [|v all IH]; [done|]. rewrite filter_cons.
  case_decide; [|done]. by rewrite filter_cons_False.
Qed.

Lemma filter_own_key k (all : list Value) :
  filter (fun v => def_key v <> k) (filter (fun v => def_key v <> k) all)
  = filter (fun v => def_key v <> k) all.
Proof.
  induction all as [|v all IH]; [done|]. rewrite !filter_cons.
  case_decide; [|done]. by rewrite filter_cons_True, IH.
Qed.

(** [persist::save] keeps one definition per name and version: after a
    successful save the file holds the new definition last, no other with its
    name and version, and every definition of another key as before. *)
Theorem save_replaces all def all' :
  save all def = Ok all' ->
  last all' = Some def /\ filter (fun v => def_key v = def_key def) all' = [def] /\
  filter (fun v => def_key v <> def_key def) all' = filter (fun v => def_key v <> def_key def) all.
Proof.
  unfold save. case_bool_decide; [done|]. intros [= <-]. split; [apply last_snoc|].
  rewrite !filter_app, (filter_cons_True _ def []), (filter_cons_False _ def []) by naive_solver.
  split.
  - by rewrite filter_other_key.
  - by rewrite filter_own_key, app_nil_r.
Qed.

Lemma save_replaces_witness :
  exists all', save [chat_def; drive_def] chat_def = Ok all' /\ last all' = Some chat_def.
Proof.
  eexists. split; [reflexivity|].
  apply (save_replaces [chat_def; drive_def] chat_def). reflexivity.
Defined.
