(* ===== verification/Entry.v ===== *)
(** One document of the store (src/store.rs): its durable state, its live
    action log, and the ways the log is folded into the field map: applying one
    action, the canonical re-fold, and the fold of a restart. *)

From stdpp Require Import base list gmap strings numbers pretty.
From S2P Require Import Prelude Json Doc Sample Action Model Builtins.

(** [open_ref], [NAME_KEY]. *)
Definition open_ref : ModelRef := modelref_new "open" "1".
Definition NAME_KEY : string := "__name__".

(** [DocState]: what a snapshot holds and what catch-up sends. *)
Record DocState := {
  ds_doc : Doc;
  ds_clock : VecClock;
  ds_deleted : bool;
  ds_log_hash : option Hash32;
  ds_model : ModelRef;
  ds_space : option DocId
}.

(** [Entry]. *)
Record Entry := {
  e_doc : Doc;
  e_clock : VecClock;
  e_deleted : bool;
  e_log : list Action;
  e_model : ModelRef;
  e_space : option DocId
}.

(** [Entry::new]. *)
Definition entry_new (id : DocId) : Entry :=
  {| e_doc := empty_doc id ""; e_clock := ∅; e_deleted := false; e_log := [];
     e_model := open_ref; e_space := None |}.

Definition set_state (e : Entry) (d : Doc) (c : VecClock) (del : bool) : Entry :=
  {| e_doc := d; e_clock := c; e_deleted := del; e_log := e_log e;
     e_model := e_model e; e_space := e_space e |}.
Definition set_log (e : Entry) (l : list Action) : Entry :=
  {| e_doc := e_doc e; e_clock := e_clock e; e_deleted := e_deleted e; e_log := l;
     e_model := e_model e; e_space := e_space e |}.
Definition set_model (e : Entry) (m : ModelRef) : Entry :=
  {| e_doc := e_doc e; e_clock := e_clock e; e_deleted := e_deleted e; e_log := e_log e;
     e_model := m; e_space := e_space e |}.
Definition set_space (e : Entry) (s : option DocId) : Entry :=
  {| e_doc := e_doc e; e_clock := e_clock e; e_deleted := e_deleted e; e_log := e_log e;
     e_model := e_model e; e_space := s |}.

(** [lift_name]: the reserved field moves into the document's name. *)
Definition lift_name (d : Doc) : Doc :=
  match doc_fields d !! NAME_KEY with
  | Some f => {| doc_id := doc_id d; doc_name := default "" (as_str (fld_value f));
                 doc_fields := delete NAME_KEY (doc_fields d) |}
  | None => d
  end.

Section Fold.
Context `{Platform}.

(** [canon_key]. *)
Definition canon_key (a : Action) : N * (string * N) := (a_ts a, (a_origin a, hash a)).

(** The state a snapshot or a catch-up reply describes. *)
Definition log_hash (e : Entry) : option Hash32 := hash <$> last (e_log e).
Definition state_of (e : Entry) : DocState :=
  {| ds_doc := e_doc e; ds_clock := e_clock e; ds_deleted := e_deleted e;
     ds_log_hash := log_hash e; ds_model := e_model e; ds_space := e_space e |}.

(** The stamping loop of [apply_ops_to_entry]. *)
Definition restamp (a : Action) (op : Op) : Op :=
  op_of_action a (op_key op) (op_value op).

(** Its merge loop, with the accumulated [applied_any]. *)
Definition merge_step (st : Doc * VecClock * bool * bool) (op : Op) :
    Doc * VecClock * bool * bool :=
  let '(d, c, del, any) := st in
  let '(d', c', del', r) := apply_op d c del op in
  (d', c', del', any || applied r).

(** [apply_ops_to_entry]: reduce, stamp, merge, lift the name. *)
Definition apply_ops_to_entry (e : Entry) (m : AnyModel) (a : Action) :
    Entry * (bool * bool) :=
  match reduce m (e_doc e) a with
  | Err _ => (e, (false, e_deleted e))
  | Ok ops =>
      let '(d, c, del, any) :=
        foldl merge_step (e_doc e, e_clock e, e_deleted e, false) (restamp a <$> ops) in
      (set_state e (lift_name d) c del, (any, del))
  end.

(** The entry a snapshot describes, or a new one: the start of every fold. *)
Definition base_entry (id : DocId) (base : option DocState) : Entry :=
  match base with
  | Some b => {| e_doc := ds_doc b; e_clock := ds_clock b; e_deleted := ds_deleted b;
                 e_log := []; e_model := ds_model b; e_space := ds_space b |}
  | None => entry_new id
  end.
Definition lifted (e : Entry) : Entry :=
  set_state e (lift_name (e_doc e)) (e_clock e) (e_deleted e).

(** One round of [refold]'s loop: the conditions are checked at the action's
    canonical position; an action that fails them is skipped. *)
Definition refold_step (e : Entry) (am : Action * AnyModel) : Entry :=
  let '(a, m) := am in
  if is_ok (check_precondition m (e_doc e) a) && is_ok (authorize m (e_doc e) a)
  then set_model (apply_ops_to_entry e m a).1 (a_model a)
  else e.

(** The models of a log, all of them or the first one that is missing. *)
Fixpoint resolve_models (r : ModelRegistry) (log : list Action) :
    result string (list AnyModel) :=
  match log with
  | [] => Ok []
  | a :: log' =>
      m ← ok_or (reg_find r (a_model a))
            ("model " +:+ mr_name (a_model a) +:+ " unavailable for re-fold");
      ms ← resolve_models r log';
      Ok (m :: ms)
  end.

(** [Inner::refold] on the entry: [base] is the parsed snapshot file. *)
Definition refold_entry (r : ModelRegistry) (id : DocId) (base : option DocState)
    (e : Entry) : result string Entry :=
  let log := sort_by_key canon_key (e_log e) in
  models ← resolve_models r log;
  let fresh := lifted (base_entry id base) in
  let fresh := match e_space fresh with
               | Some _ => fresh
               | None => set_space fresh (head log ≫= a_space)
               end in
  let folded := foldl refold_step fresh (zip log models) in
  Ok (set_log (set_state folded (e_doc folded) (e_clock e) (e_deleted folded)) log).

(** One round of [replay_doc]'s loop: no conditions are checked, an action
    that changed nothing is dropped from the log, and an action of a model
    that is not loaded is kept unreduced. *)
Definition replay_step (r : ModelRegistry) (e : Entry) (a : Action) : Entry :=
  let e := match e_space e with Some _ => e | None => set_space e (a_space a) end in
  match reg_find r (a_model a) with
  | Some m =>
      let '(e', (any, _)) := apply_ops_to_entry e m a in
      let e' := set_model e' (a_model a) in
      if any : bool then set_log e' (e_log e' ++ [a]) else e'
  | None => set_log e (e_log e ++ [a])
  end.

(** The fold of [replay_doc]: [lines] is the parsed action log file, [None]
    standing for a line that does not parse. *)
Definition replay_entry (r : ModelRegistry) (id : DocId) (base : option DocState)
    (lines : list (option Action)) : Entry :=
  let e := base_entry id base in
  let d := {| doc_id := id; doc_name := doc_name (e_doc e);
              doc_fields := doc_fields (e_doc e) |} in
  let e := set_state e (lift_name d) (e_clock e) (e_deleted e) in
  foldl (replay_step r) e (sort_by_key canon_key (omap (fun l => l) lines)).

(** [snapshot]'s record: the state with the open model as its model. *)
Definition snapshot_state (e : Entry) : DocState :=
  {| ds_doc := e_doc e; ds_clock := e_clock e; ds_deleted := e_deleted e;
     ds_log_hash := log_hash e; ds_model := open_ref; ds_space := e_space e |}.
End Fold.

(** ** The part of an entry the folds are about *)

(** The document and its deleted flag; the clock, the log, the model and the
    space do not influence how later actions are folded. *)
Definition view (e : Entry) : Doc * bool := (e_doc e, e_deleted e).

Section FoldLemmas.
Context `{Platform}.
Implicit Types (e : Entry) (m : AnyModel) (a : Action) (r : ModelRegistry).

(** The merge loop on documents: clocks only accumulate. *)
Definition merge_doc (st : Doc * bool * bool) (op : Op) : Doc * bool * bool :=
  let '(d, del, any) := st in
  let '(d', _, del', res) := apply_op d ∅ del op in
  (d', del', any || applied res).

Lemma apply_op_clock_irrelevant d c c' del op :
  (apply_op d c del op).1.1.1 = (apply_op d c' del op).1.1.1 /\
  (apply_op d c del op).1.2 = (apply_op d c' del op).1.2 /\
  (apply_op d c del op).2 = (apply_op d c' del op).2.
Proof. unfold apply_op. destruct del, (op_key op); simpl; try done. by case_match. Qed.

Lemma merge_loop ops d c del any :
  foldl merge_step (d, c, del, any) ops =
  let '(d', del', any') := foldl merge_doc (d, del, any) ops in
  (d', merge_all c (op_clock <$> ops), del', any').
Proof.
  revert d c del any. induction ops as [|op ops IH]; intros; [done|].
  rewrite fmap_cons. cbn [foldl]. unfold merge_step at 2, merge_doc at 2.
  destruct (apply_op_clock_irrelevant d c ∅ del op) as (E1 & E2 & E3).
  pose proof (apply_op_clock d c del op) as E4.
  destruct (apply_op d c del op) as [[[d1 c1] del1] r1],
           (apply_op d ∅ del op) as [[[d2 c2] del2] r2].
  simpl in *. subst. rewrite IH. by destruct foldl as [[] ?].
Qed.

(** What [apply_ops_to_entry] computes, and what it leaves alone. *)
Lemma apply_ops_spec e m a :
  apply_ops_to_entry e m a =
  match reduce m (e_doc e) a with
  | Err _ => (e, (false, e_deleted e))
  | Ok ops =>
      let '(d, del, any) :=
        foldl merge_doc (e_doc e, e_deleted e, false) (restamp a <$> ops) in
      (set_state e (lift_name d)
         (merge_all (e_clock e) (op_clock <$> (restamp a <$> ops))) del, (any, del))
  end.
Proof.
  unfold apply_ops_to_entry. destruct reduce; [|done].
  rewrite merge_loop. by destruct foldl as [[] ?].
Qed.

Lemma apply_ops_frame e m a :
  let e' := (apply_ops_to_entry e m a).1 in
  e_log e' = e_log e /\ e_model e' = e_model e /\ e_space e' = e_space e.
Proof. rewrite apply_ops_spec. destruct reduce; [|done]. by destruct foldl as [[] ?]. Qed.

Lemma apply_ops_deleted e m a :
  (apply_ops_to_entry e m a).2.2 = e_deleted (apply_ops_to_entry e m a).1.
Proof. rewrite apply_ops_spec. destruct reduce; [|done]. by destruct foldl as [[] ?]. Qed.

Lemma apply_ops_view e1 e2 m a :
  view e1 = view e2 ->
  view (apply_ops_to_entry e1 m a).1 = view (apply_ops_to_entry e2 m a).1 /\
  (apply_ops_to_entry e1 m a).2 = (apply_ops_to_entry e2 m a).2.
Proof.
  unfold view. intros [= E1 E2]. rewrite !apply_ops_spec, E1, E2.
  destruct reduce; [|simpl; by rewrite E1, E2]. by destruct foldl as [[] ?].
Qed.

(** ** The reserved name field *)

Definition unnamed_fields (d : Doc) : Prop := doc_fields d !! NAME_KEY = None.

Lemma lift_name_unnamed d : unnamed_fields (lift_name d).
Proof. unfold lift_name, unnamed_fields. case_match; simpl; [apply lookup_delete_eq|done]. Qed.

Lemma lift_name_id d : unnamed_fields d -> lift_name d = d.
Proof. unfold lift_name, unnamed_fields. by intros ->. Qed.

Lemma apply_ops_unnamed e m a :
  unnamed_fields (e_doc e) -> unnamed_fields (e_doc (apply_ops_to_entry e m a).1).
Proof.
  intros Hu. rewrite apply_ops_spec. destruct reduce; [|done].
  destruct foldl as [[] ?]. apply lift_name_unnamed.
Qed.

(** ** The canonical fold *)

(** One action at its canonical position; an unavailable model skips it. *)
Definition canon_step r e a : Entry :=
  match reg_find r (a_model a) with
  | Some m => refold_step e (a, m)
  | None => e
  end.

(** The specification of a document: the fold of its action set from the
    snapshot base in canonical order. *)
Definition canonical r (id : DocId) (base : option DocState) (log : list Action) :
    Doc * bool :=
  view (foldl (canon_step r) (lifted (base_entry id base)) (sort_by_key canon_key log)).

Lemma refold_step_view e1 e2 am :
  view e1 = view e2 -> view (refold_step e1 am) = view (refold_step e2 am).
Proof.
  destruct am as [a m]. intros E. pose proof E as [= E1 _]. unfold refold_step.
  rewrite E1. case_match; [|done].
  destruct (apply_ops_view e1 e2 m a E) as [Hv _]. exact Hv.
Qed.

Lemma canon_step_view r e1 e2 a :
  view e1 = view e2 -> view (canon_step r e1 a) = view (canon_step r e2 a).
Proof. unfold canon_step. case_match; [apply refold_step_view|done]. Qed.

Lemma canon_fold_view r log e1 e2 :
  view e1 = view e2 ->
  view (foldl (canon_step r) e1 log) = view (foldl (canon_step r) e2 log).
Proof.
  revert e1 e2. induction log as [|a log IH]; intros e1 e2 E; [done|].
  apply IH. by apply canon_step_view.
Qed.

Lemma resolve_models_ok r log :
  (forall a, a ∈ log -> is_Some (reg_find r (a_model a))) ->
  exists ms, resolve_models r log = Ok ms.
Proof.
  induction log as [|a log IH]; intros Hall; simpl; [by eexists|].
  destruct (Hall a) as [m Em]; [set_solver|]. rewrite Em; simpl.
  destruct IH as [ms Ems]; [set_solver|]. rewrite Ems; simpl. by eexists.
Qed.

Lemma resolve_models_fold r log ms e :
  resolve_models r log = Ok ms ->
  foldl refold_step e (zip log ms) = foldl (canon_step r) e log.
Proof.
  revert ms e. induction log as [|a log IH]; intros ms e; simpl; [by intros [= <-]|].
  destruct (reg_find r (a_model a)) as [m|] eqn:Em; simpl; [|done].
  destruct (resolve_models r log) as [ms'|] eqn:Ems; [|done]. simpl.
  intros [= <-]. cbn [zip zip_with foldl]. unfold canon_step at 2. rewrite Em. by apply IH.
Qed.

Lemma canon_fold_space r log e : e_space (foldl (canon_step r) e log) = e_space e.
Proof.
  revert e. induction log as [|a log IH]; intros e; [done|]. simpl. rewrite IH.
  unfold canon_step, refold_step. repeat case_match; try done. simpl.
  by destruct (apply_ops_frame e a0 a) as (_ & _ & ->).
Qed.

(** [refold] computes the canonical fold, sorts the log, and keeps the clock. *)
Lemma refold_entry_ok r id base e :
  (forall a, a ∈ e_log e -> is_Some (reg_find r (a_model a))) ->
  exists e', refold_entry r id base e = Ok e' /\
    view e' = canonical r id base (e_log e) /\
    e_log e' = sort_by_key canon_key (e_log e) /\ e_clock e' = e_clock e /\
    (base = None -> e_space e' = head (sort_by_key canon_key (e_log e)) ≫= a_space).
Proof.
  intros Hall. unfold refold_entry.
  destruct (resolve_models_ok r (sort_by_key canon_key (e_log e))) as [ms Ems].
  { intros a Ha. apply Hall. by rewrite sort_by_key_perm in Ha. }
  rewrite Ems. cbn [mbind result_bind]. eexists; split; [reflexivity|].
  rewrite (resolve_models_fold _ _ _ _ Ems).
  split_and!; [|done..|intros ->; simpl; by rewrite canon_fold_space].
  unfold canonical. trans (view (foldl (canon_step r)
    (match e_space (lifted (base_entry id base)) with
     | Some _ => lifted (base_entry id base)
     | None => set_space (lifted (base_entry id base))
                 (head (sort_by_key canon_key (e_log e)) ≫= a_space)
     end) (sort_by_key canon_key (e_log e)))); [done|].
  apply canon_fold_view. by case_match.
Qed.

(** Appending an action that sorts last folds it last. *)
Lemma canonical_snoc r id base log a e :
  sorted_by canon_key (log ++ [a]) ->
  view e = canonical r id base log ->
  canonical r id base (log ++ [a]) = view (canon_step r e a).
Proof.
  intros Hs E. unfold canonical in *. rewrite (sort_by_key_id _ _ Hs), foldl_snoc.
  assert (Hl : sorted_by canon_key log) by by apply (proj1 (sorted_by_snoc _ _ _) Hs).
  rewrite (sort_by_key_id _ _ Hl) in E. by apply canon_step_view.
Qed.

(** The canonical fold is a function of the set of actions. *)
Lemma canonical_perm r id base log log' :
  log ≡ₚ log' -> key_inj canon_key log ->
  canonical r id base log = canonical r id base log'.
Proof. intros P Hk. unfold canonical. by rewrite (sort_by_key_unique canon_key log log'). Qed.
End FoldLemmas.
