(* ===== verification/Redeliver.v ===== *)
(** Redelivery and restart: folding an action a second time changes nothing,
    and the fold of a restart agrees with the live one when no action was
    skipped. *)

From stdpp Require Import base list gmap strings numbers pretty.
From S2P Require Import Prelude Json Doc Sample Action Model Builtins Entry.

(** ** The merge decision *)

(** Whether an operation with this clock and stamp replaces the field. *)
Definition replaces (f : Field) (clock : VecClock) (st : N * string) : bool :=
  if vc_covers (fld_version f) clock then false
  else if vc_covers clock (fld_version f) then true
  else ord_ltb (fld_ts f, fld_origin f) st.

Lemma merge_field_present m k op f :
  m !! k = Some f ->
  merge_field m k op =
  if replaces f (op_clock op) (stamp op)
  then (<[k := field_from_op op]> m, true) else (m, false).
Proof.
  intros E. unfold merge_field, replaces, stamp. rewrite E. by repeat case_match.
Qed.

Lemma merge_field_absent m k op :
  m !! k = None ->
  merge_field m k op =
  match op_value op with
  | Some _ => (<[k := field_from_op op]> m, true)
  | None => (m, false)
  end.
Proof. intros E. unfold merge_field. by rewrite E. Qed.

Lemma field_from_op_value op : fld_value (field_from_op op) = default Null (op_value op).
Proof. unfold field_from_op. destruct (op_value op) eqn:E; simpl; by rewrite ?E. Qed.

Lemma replaces_self op : replaces (field_from_op op) (op_clock op) (stamp op) = false.
Proof. unfold replaces. by rewrite field_from_op_version, vc_covers_refl. Qed.

(** An operation the field map already accounts for. *)
Definition inert (m : gmap string Field) (op : Op) : Prop :=
  match op_key op with
  | None => False
  | Some k =>
      match m !! k with
      | Some f => replaces f (op_clock op) (stamp op) = false
      | None => op_value op = None
      end
  end.

Lemma inert_merge m k op : op_key op = Some k -> inert m op -> merge_field m k op = (m, false).
Proof.
  unfold inert. intros ->. destruct (m !! k) eqn:E; intros Hi.
  - by rewrite (merge_field_present _ _ _ _ E), Hi.
  - by rewrite (merge_field_absent _ _ _ E), Hi.
Qed.

(** Two operations of one action. *)
Definition same_stamp (a b : Op) : Prop := op_clock a = op_clock b /\ stamp a = stamp b.

Lemma merge_makes_inert m k op :
  op_key op = Some k -> inert (merge_field m k op).1 op.
Proof.
  intros Hk. unfold inert. rewrite Hk. destruct (m !! k) as [f|] eqn:E.
  - rewrite (merge_field_present _ _ _ _ E). destruct (replaces f _ _) eqn:R; simpl.
    + by rewrite lookup_insert_eq, replaces_self.
    + by rewrite E.
  - rewrite (merge_field_absent _ _ _ E). destruct (op_value op) eqn:V; simpl.
    + by rewrite lookup_insert_eq, replaces_self.
    + by rewrite E.
Qed.

Lemma merge_keeps_inert m k op op' :
  same_stamp op op' -> op_key op = Some k -> inert m op' -> inert (merge_field m k op).1 op'.
Proof.
  intros [Ec Es] Hk Hi. unfold inert in *.
  destruct (op_key op') as [k'|]; [|done].
  destruct (decide (k' = k)) as [->|Hne]; [|by rewrite merge_field_other].
  destruct (m !! k) as [f|] eqn:E.
  - rewrite (merge_field_present _ _ _ _ E), Ec, Es, Hi. simpl. by rewrite E.
  - rewrite (merge_field_absent _ _ _ E). destruct (op_value op) eqn:V; simpl; [|by rewrite E].
    by rewrite lookup_insert_eq, <- Ec, <- Es, replaces_self.
Qed.

(** ** The loop over the operations of one action *)

Section Loop.
Context `{Platform}.
Implicit Types (ops : list Op) (d : Doc).

(** All keyed, all of one action. *)
Definition uniform ops : Prop :=
  (forall o, o ∈ ops -> is_Some (op_key o)) /\
  (forall o o', o ∈ ops -> o' ∈ ops -> same_stamp o o').

Lemma uniform_cons o ops : uniform (o :: ops) -> is_Some (op_key o) /\ uniform ops.
Proof. intros [Hk Hs]. split; [apply Hk|split; intros; [apply Hk|apply Hs]]; set_solver. Qed.

Lemma merge_doc_keyed d any o k :
  op_key o = Some k ->
  merge_doc (d, false, any) o =
  (set_fields d (merge_field (doc_fields d) k o).1, false,
   any || (merge_field (doc_fields d) k o).2).
Proof. intros Hk. unfold merge_doc. by rewrite (apply_op_key _ _ _ _ Hk). Qed.

(** The fields after the loop, and the rest of the document. *)
Fixpoint merge_fields (m : gmap string Field) ops : gmap string Field :=
  match ops with
  | [] => m
  | o :: ops' =>
      merge_fields (match op_key o with Some k => (merge_field m k o).1 | None => m end) ops'
  end.

Lemma merge_loop_keyed ops d any :
  (forall o, o ∈ ops -> is_Some (op_key o)) ->
  exists any', foldl merge_doc (d, false, any) ops
               = (set_fields d (merge_fields (doc_fields d) ops), false, any').
Proof.
  revert d any. induction ops as [|o ops IH]; intros d any Hk.
  { exists any. simpl. by rewrite set_fields_same. }
  destruct (Hk o) as [k Ek]; [set_solver|].
  cbn [foldl merge_fields]. rewrite (merge_doc_keyed _ _ _ _ Ek), Ek.
  destruct (IH (set_fields d (merge_field (doc_fields d) k o).1)
              (any || (merge_field (doc_fields d) k o).2)) as [any' E]; [set_solver|].
  exists any'. exact E.
Qed.

Lemma merge_loop_deleted ops d any :
  foldl merge_doc (d, true, any) ops = (d, true, any).
Proof. induction ops; [done|]. simpl. by rewrite orb_false_r. Qed.

Lemma merge_fields_keeps_inert ops m o :
  (forall x, x ∈ ops -> same_stamp x o) -> inert m o -> inert (merge_fields m ops) o.
Proof.
  revert m. induction ops as [|x ops IH]; intros m Hs Hi; [done|]. simpl.
  apply IH; [set_solver|]. destruct (op_key x) eqn:E; [|done].
  apply merge_keeps_inert; [apply Hs; set_solver|done|done].
Qed.

Lemma merge_fields_inert ops m o :
  uniform ops -> o ∈ ops -> inert (merge_fields m ops) o.
Proof.
  revert m. induction ops as [|x ops IH]; intros m Hu Ho; [by apply not_elem_of_nil in Ho|].
  destruct (uniform_cons _ _ Hu) as [[k Ek] Hu']. simpl. rewrite Ek.
  apply elem_of_cons in Ho as [->|Ho]; [|by apply IH].
  apply merge_fields_keeps_inert; [|by apply merge_makes_inert].
  intros y Hy. apply Hu; set_solver.
Qed.

(** The first write of the reserved field in an absent slot decides the name. *)
Definition name_write ops : option Op :=
  head (filter (fun o => op_key o = Some NAME_KEY /\ op_value o <> None) ops).

Lemma merge_fields_name ops m :
  uniform ops -> m !! NAME_KEY = None ->
  merge_fields m ops !! NAME_KEY = field_from_op <$> name_write ops.
Proof.
  assert (Hset : forall ops m f, m !! NAME_KEY = Some f ->
    (forall o, o ∈ ops -> replaces f (op_clock o) (stamp o) = false) ->
    merge_fields m ops !! NAME_KEY = Some f).
  { clear ops m. induction ops as [|o ops IH]; intros m f E Hr; [done|]. simpl.
    apply IH; [|set_solver]. destruct (op_key o) as [k|] eqn:Ek; [|done].
    destruct (decide (k = NAME_KEY)) as [->|Hne]; [|by rewrite merge_field_other].
    rewrite (merge_field_present _ _ _ _ E), Hr by set_solver. done. }
  revert m. induction ops as [|o ops IH]; intros m Hu E; [done|].
  destruct (uniform_cons _ _ Hu) as [[k Ek] Hu']. simpl. rewrite Ek.
  unfold name_write. rewrite filter_cons.
  destruct (decide (k = NAME_KEY)) as [->|Hne].
  - rewrite (merge_field_absent _ _ _ E). destruct (op_value o) eqn:V.
    + rewrite decide_True by (split; congruence). simpl.
      apply Hset; [by rewrite lookup_insert_eq|]. intros o' Ho'.
      destruct Hu as [_ Hu]. destruct (Hu o o') as [<- <-]; [set_solver..|].
      apply replaces_self.
    + rewrite decide_False by naive_solver. by apply IH.
  - rewrite decide_False by naive_solver. apply IH; [done|]. by rewrite merge_field_other.
Qed.

(** Operations that are accounted for change no other field. *)
Lemma merge_fields_settled ops m j :
  (forall o, o ∈ ops -> op_key o = Some NAME_KEY \/ inert m o) -> j <> NAME_KEY ->
  merge_fields m ops !! j = m !! j.
Proof.
  intros Hi Hj. assert (Hgen : forall m', (forall k, k <> NAME_KEY -> m' !! k = m !! k) ->
    merge_fields m' ops !! j = m !! j).
  { induction ops as [|o ops IH]; intros m' Hm'; [by apply Hm'|]. simpl.
    destruct (op_key o) as [k|] eqn:Ek; [|apply IH; set_solver].
    apply IH; [set_solver|]. intros k' Hk'.
    destruct (decide (k' = k)) as [->|Hne]; [|rewrite merge_field_other by done; by apply Hm'].
    destruct (Hi o) as [?|Hin]; [set_solver|congruence|].
    assert (Hin' : inert m' o).
    { unfold inert in *. rewrite Ek in *. by rewrite Hm'. }
    rewrite (inert_merge _ _ _ Ek Hin'). by apply Hm'. }
  by apply Hgen.
Qed.
End Loop.

(** ** Reducing twice *)

(** Two reductions of one action write the same keys; the reserved field, which
    a stored document never holds, gets the same value. *)
Definition same_shape (o o' : Op) : Prop :=
  op_key o = op_key o' /\ (op_value o = None <-> op_value o' = None) /\
  (op_key o = Some NAME_KEY -> op_value o = op_value o').

Lemma write_value_name d d' a w v v' :
  unnamed_fields d -> unnamed_fields d' ->
  write_value d a NAME_KEY w = Ok v -> write_value d' a NAME_KEY w = Ok v' -> v = v'.
Proof.
  intros Hd Hd'.
  assert (Ha : current_array d NAME_KEY = current_array d' NAME_KEY)
    by by unfold current_array, current_value; rewrite Hd, Hd'.
  unfold write_value. rewrite Ha. repeat case_match; naive_solver.
Qed.

Section Twice.
Context `{Platform}.

Lemma reduce_shape (m : AnyModel) d d' a ops ops' :
  unnamed_fields d -> unnamed_fields d' ->
  reduce m d a = Ok ops -> reduce m d' a = Ok ops' -> Forall2 same_shape ops ops'.
Proof.
  intros Hd Hd'. destruct m as [o|l]; cbv [reduce AnyModel_model dispatch Open_model L1_model].
  { intros [= <-] [= <-]. repeat constructor; naive_solver. }
  unfold l1_reduce. destruct (reducer l (a_kind a)) as [rd|]; [|done].
  destruct (as_object _) as [ws|]; [|by intros [= <-] [= <-]].
  intros R1%reduce_writes_ok. revert ops'. induction R1 as [|[f w] o ws ops Ho R1 IH];
    intros ops' R2%reduce_writes_ok.
  { apply Forall2_nil_inv_l in R2 as ->. constructor. }
  apply Forall2_cons_inv_l in R2 as (o' & ops'' & (v' & Hv' & ->) & R2 & ->).
  destruct Ho as (v & Hv & ->). constructor; [|apply IH; by apply reduce_writes_ok].
  simpl in *. split_and!; [done..|]. unfold op_of_action; simpl. intros [= ->].
  by rewrite (write_value_name d d' a w v v').
Qed.

Lemma restamp_same_shape a o o' : same_shape o o' -> same_shape (restamp a o) (restamp a o').
Proof. done. Qed.

Lemma restamped_same_stamp a o o' : same_stamp (restamp a o) (restamp a o').
Proof. done. Qed.

Lemma restamp_uniform a (ops : list Op) :
  (forall o, o ∈ ops -> is_Some (op_key o)) -> uniform (restamp a <$> ops).
Proof.
  intros Hk. split.
  - intros o (x & -> & Hx)%list_elem_of_fmap. exact (Hk x Hx).
  - by intros o o' (x & -> & _)%list_elem_of_fmap (x' & -> & _)%list_elem_of_fmap.
Qed.

(** An unkeyed operation deletes the document. *)
Lemma merge_loop_unkeyed ops d any :
  (exists o, o ∈ ops /\ op_key o = None) ->
  (foldl merge_doc (d, false, any) ops).1.2 = true.
Proof.
  revert d any. induction ops as [|x ops IH]; intros d any (o & Ho & Ek).
  { by apply not_elem_of_nil in Ho. }
  cbn [foldl]. destruct (op_key x) as [k|] eqn:Ex.
  - rewrite (merge_doc_keyed _ _ _ _ Ex). apply IH. exists o. set_solver.
  - unfold merge_doc at 2. unfold apply_op. rewrite Ex. cbn.
    by rewrite merge_loop_deleted.
Qed.

Lemma same_shape_inert m o o' :
  same_shape o o' -> same_stamp o o' -> inert m o -> inert m o'.
Proof.
  intros (Hk & Hv & _) [Hc Hs]. unfold inert. rewrite <- Hk, <- Hc, <- Hs.
  destruct (op_key o); [|done]. case_match; [done|]. apply Hv.
Qed.

Lemma name_write_shape a ops ops' :
  Forall2 same_shape ops ops' ->
  op_value <$> name_write (restamp a <$> ops) = op_value <$> name_write (restamp a <$> ops').
Proof.
  unfold name_write. induction 1 as [|o o' ops ops' (Hk & Hv & Hn) _ IH]; [done|].
  rewrite !fmap_cons, !filter_cons.
  destruct (decide (op_key (restamp a o) = Some NAME_KEY /\ op_value (restamp a o) <> None))
    as [[D1 D2]|D].
  - cbn in D1, D2. rewrite decide_True.
    + cbn. f_equal. by apply Hn.
    + cbn. split; [congruence|]. by rewrite <- (Hn D1).
  - rewrite decide_False; [done|]. intros [D1 D2]. apply D. cbn in *.
    split; [congruence|]. by rewrite Hv.
Qed.

Lemma same_shape_keyed ops ops' :
  (forall o, o ∈ ops -> is_Some (op_key o)) -> Forall2 same_shape ops ops' ->
  forall o, o ∈ ops' -> is_Some (op_key o).
Proof.
  intros Hk HF o' (i & Hi)%list_elem_of_lookup_1.
  destruct (Forall2_lookup_r _ _ _ _ _ HF Hi) as (o & Ho & <- & _).
  apply Hk. by eapply list_elem_of_lookup_2.
Qed.

(** A field map that agrees, away from the name, with one the operations were
    merged into is settled for the same operations. *)
Lemma merge_again_settled a ops ops' (f g : gmap string Field) :
  (forall o, o ∈ ops -> is_Some (op_key o)) -> Forall2 same_shape ops ops' ->
  (forall j, j <> NAME_KEY -> g !! j = merge_fields f (restamp a <$> ops) !! j) ->
  forall j, j <> NAME_KEY -> merge_fields g (restamp a <$> ops') !! j = g !! j.
Proof.
  intros Hk HF Hg j. pose proof (restamp_uniform a ops Hk) as Hu. apply merge_fields_settled.
  intros o' Ho'. destruct (decide (op_key o' = Some NAME_KEY)) as [?|Hn]; [by left|right].
  apply list_elem_of_fmap in Ho' as (x' & -> & (i & Hi)%list_elem_of_lookup_1).
  destruct (Forall2_lookup_r _ _ _ _ _ HF Hi) as (x & Hx & Hsh).
  apply (same_shape_inert _ (restamp a x)); [done..|].
  assert (Hin : inert (merge_fields f (restamp a <$> ops)) (restamp a x)).
  { apply merge_fields_inert; [done|]. apply list_elem_of_fmap_2. by eapply list_elem_of_lookup_2. }
  destruct Hsh as [Hkx _]. unfold inert in *. simpl in *. rewrite Hkx in *.
  destruct (op_key x') as [kx|]; [|done]. rewrite Hg; [done|congruence].
Qed.

(** Merging the operations of one action a second time, after the name was
    lifted, gives the same document. *)
Lemma merge_twice a d ops ops' :
  unnamed_fields d -> (forall o, o ∈ ops -> is_Some (op_key o)) ->
  Forall2 same_shape ops ops' ->
  let d1 := lift_name (set_fields d (merge_fields (doc_fields d) (restamp a <$> ops))) in
  lift_name (set_fields d1 (merge_fields (doc_fields d1) (restamp a <$> ops'))) = d1.
Proof.
  intros Hd Hk HF d1. pose proof (restamp_uniform a ops Hk) as Hu.
  pose proof (restamp_uniform a ops' (same_shape_keyed _ _ Hk HF)) as Hu'.
  set (F := merge_fields (doc_fields d) (restamp a <$> ops)) in *.
  assert (Hd1 : unnamed_fields d1) by apply lift_name_unnamed.
  assert (Hf1 : forall j, j <> NAME_KEY -> doc_fields d1 !! j = F !! j).
  { intros j Hj. unfold d1, lift_name. case_match; simpl; [|done].
    by rewrite lookup_delete_ne. }
  pose proof (merge_again_settled a ops ops' _ _ Hk HF Hf1) as Hset.
  pose proof (merge_fields_name _ _ Hu' Hd1) as N2.
  pose proof (merge_fields_name _ _ Hu Hd) as N1. fold F in N1.
  pose proof (name_write_shape a _ _ HF) as NS.
  assert (Hval : fld_value <$> F !! NAME_KEY =
    fld_value <$> merge_fields (doc_fields d1) (restamp a <$> ops') !! NAME_KEY).
  { rewrite N1, N2, <- !option_fmap_compose.
    destruct (name_write (restamp a <$> ops)), (name_write (restamp a <$> ops'));
      simpl in *; try done. injection NS as E. by rewrite !field_from_op_value, E. }
  unfold lift_name. simpl.
  destruct (merge_fields (doc_fields d1) _ !! NAME_KEY) as [f2|] eqn:E2; simpl in Hval.
  - destruct (F !! NAME_KEY) as [f1|] eqn:E1; [|done]. injection Hval as Hval.
    unfold set_fields; simpl. unfold d1, lift_name at 1 2 3; simpl. rewrite E1; simpl.
    f_equal; [by rewrite Hval|]. apply map_eq. intros j.
    destruct (decide (j = NAME_KEY)) as [->|Hj]; [by rewrite !lookup_delete_eq|].
    rewrite !lookup_delete_ne by done. rewrite <- Hf1, <- Hset by done.
    unfold d1, lift_name at 1; simpl. by rewrite E1.
  - trans (set_fields d1 (doc_fields d1)); [|apply set_fields_same]. f_equal.
    apply map_eq. intros j. destruct (decide (j = NAME_KEY)) as [->|Hj]; [|by apply Hset].
    by rewrite E2, Hd1.
Qed.
End Twice.

Section Redelivery.
Context `{Platform}.
Implicit Types (e : Entry) (m : AnyModel) (a : Action) (r : ModelRegistry).

(** A deleted document absorbs every action. *)
Lemma apply_ops_absorbed e m a :
  e_deleted e = true -> unnamed_fields (e_doc e) ->
  view (apply_ops_to_entry e m a).1 = view e /\ (apply_ops_to_entry e m a).2 = (false, true).
Proof.
  intros Hdel Hu. rewrite apply_ops_spec, Hdel. destruct reduce; [|done].
  rewrite merge_loop_deleted. unfold view; simpl. by rewrite lift_name_id, Hdel.
Qed.

Lemma apply_ops_twice e m a :
  unnamed_fields (e_doc e) ->
  view (apply_ops_to_entry (apply_ops_to_entry e m a).1 m a).1
  = view (apply_ops_to_entry e m a).1.
Proof.
  intros Hu. pose proof (apply_ops_unnamed e m a Hu) as Hu1.
  destruct (e_deleted (apply_ops_to_entry e m a).1) eqn:Hdel1.
  { by apply apply_ops_absorbed. }
  revert Hu1 Hdel1. rewrite (apply_ops_spec e).
  destruct (reduce m (e_doc e) a) as [ops|] eqn:R.
  2: { intros _ _. cbn [fst]. rewrite apply_ops_spec, R. done. }
  destruct (e_deleted e) eqn:Hdel.
  { by rewrite merge_loop_deleted. }
  destruct (decide (Exists (fun o => op_key o = None) ops)) as [HE|HE].
  { apply Exists_exists in HE as (o & Ho & Ek).
    pose proof (merge_loop_unkeyed (restamp a <$> ops) (e_doc e) false) as Hd.
    destruct foldl as [[d' del'] any']. simpl in *. rewrite Hd; [done|].
    exists (restamp a o). split; [by apply list_elem_of_fmap_2|done]. }
  assert (Hk : forall o, o ∈ ops -> is_Some (op_key o)).
  { intros o Ho. apply not_eq_None_Some. intros Ek. apply HE. apply Exists_exists; eauto. }
  destruct (merge_loop_keyed (restamp a <$> ops) (e_doc e) false) as [any1 E1].
  { intros o (x & -> & Hx)%list_elem_of_fmap. exact (Hk x Hx). }
  rewrite E1. cbn [fst e_doc e_deleted set_state]. intros Hu1 _. rewrite apply_ops_spec.
  cbn [fst e_doc e_deleted set_state].
  set (d1 := lift_name (set_fields (e_doc e) _)) in *.
  destruct (reduce m d1 a) as [ops'|] eqn:R'; [|done].
  pose proof (reduce_shape _ _ _ _ _ _ Hu Hu1 R R') as HF.
  destruct (merge_loop_keyed (restamp a <$> ops') d1 false) as [any2 E2].
  { intros o' (x' & -> & (i & Hi)%list_elem_of_lookup_1)%list_elem_of_fmap.
    destruct (Forall2_lookup_r _ _ _ _ _ HF Hi) as (x & Hx & Hsh & _).
    simpl. rewrite <- Hsh. apply Hk. by eapply list_elem_of_lookup_2. }
  rewrite E2. unfold view; simpl. f_equal. by apply merge_twice.
Qed.

Lemma canon_step_unnamed r e a :
  unnamed_fields (e_doc e) -> unnamed_fields (e_doc (canon_step r e a)).
Proof.
  intros Hu. unfold canon_step, refold_step. repeat case_match; try done.
  by apply apply_ops_unnamed.
Qed.

Lemma canon_fold_unnamed r log e :
  unnamed_fields (e_doc e) -> unnamed_fields (e_doc (foldl (canon_step r) e log)).
Proof. revert e. induction log; intros e Hu; [done|]. by apply IHlog, canon_step_unnamed. Qed.

Lemma canon_step_twice r e a :
  unnamed_fields (e_doc e) ->
  view (canon_step r (canon_step r e a) a) = view (canon_step r e a).
Proof.
  intros Hu. unfold canon_step. destruct (reg_find r (a_model a)) as [m|]; [|done].
  unfold refold_step at 2 3.
  destruct (is_ok (check_precondition m (e_doc e) a) && is_ok (authorize m (e_doc e) a)) eqn:C.
  - unfold refold_step. case_match; [|done]. simpl.
    trans (view (apply_ops_to_entry (apply_ops_to_entry e m a).1 m a).1);
      [|by apply apply_ops_twice].
    by apply apply_ops_view.
  - unfold refold_step. by rewrite C.
Qed.

(** C6. Redelivery is harmless: in the canonical fold of a log, a second copy
    of an action that is already in it changes neither the document nor its
    deleted flag, whatever the models, the preconditions and the reserved
    name field do in between. *)
Theorem redelivery_harmless r id base log1 a log2 :
  sorted_by canon_key (log1 ++ a :: log2) ->
  canonical r id base (log1 ++ a :: a :: log2) = canonical r id base (log1 ++ a :: log2).
Proof.
  intros Hs. assert (Hs' : sorted_by canon_key (log1 ++ a :: a :: log2)).
  { clear -Hs. induction log1 as [|x log1 IH]; simpl in *.
    - inversion Hs; subst. constructor; [constructor; [apply ord_refl|done]|done].
    - inversion Hs as [|? ? Hx Hl]; subst. constructor; [|by apply IH].
      rewrite Forall_app in *. destruct Hx as [? [? ?]%Forall_cons].
      split; [done|]. by repeat constructor. }
  unfold canonical. rewrite !sort_by_key_id by done. rewrite !foldl_app. simpl.
  apply canon_fold_view. apply canon_step_twice, canon_fold_unnamed.
  apply lift_name_unnamed.
Qed.

(** ** Restart *)

(** Every action passes its conditions at its place in the fold. *)
Fixpoint none_skipped r e (log : list Action) : Prop :=
  match log with
  | [] => True
  | a :: log' =>
      match reg_find r (a_model a) with
      | None => False
      | Some m =>
          is_ok (check_precondition m (e_doc e) a) = true /\
          is_ok (authorize m (e_doc e) a) = true /\
          none_skipped r (canon_step r e a) log'
      end
  end.

Lemma replay_fold_view r log e1 e2 :
  view e1 = view e2 -> none_skipped r e2 log ->
  view (foldl (replay_step r) e1 log) = view (foldl (canon_step r) e2 log).
Proof.
  revert e1 e2. induction log as [|a log IH]; intros e1 e2 E Hn; [done|].
  simpl in *. destruct (reg_find r (a_model a)) as [m|] eqn:F; [|done].
  destruct Hn as (Hp & Ha & Hn). apply IH; [|done].
  unfold replay_step, canon_step, refold_step. rewrite F, Hp, Ha; simpl.
  set (e1' := match e_space e1 with Some _ => e1 | None => set_space e1 (a_space a) end).
  assert (E' : view e1' = view e2) by by (unfold e1'; case_match).
  destruct (apply_ops_view e1' e2 m a E') as [Hv _].
  trans (view (apply_ops_to_entry e2 m a).1); [rewrite <- Hv|done].
  destruct (apply_ops_to_entry e1' m a) as [e' [[] del]]; done.
Qed.

(** A restart restores the document: when every action of the log file
    passes its precondition and its model's rule at its canonical position,
    [replay_doc] rebuilds exactly the document and the deleted flag of the
    canonical fold, in whatever order the file holds the actions. *)
Lemma restart_restores r id base lines :
  (forall b, base = Some b -> doc_id (ds_doc b) = id) ->
  none_skipped r (lifted (base_entry id base))
    (sort_by_key canon_key (omap (fun l => l) lines)) ->
  view (replay_entry r id base lines) = canonical r id base (omap (fun l => l) lines).
Proof.
  intros Hid Hn. unfold replay_entry, canonical. apply replay_fold_view; [|done].
  unfold lifted, view; simpl. do 2 f_equal. destruct base as [b|]; simpl; [|done].
  rewrite <- (Hid b) by done. by destruct (ds_doc b).
Qed.
End Redelivery.
