(* ===== verification/Store.v ===== *)
(** The document store (src/store.rs): its state, the access predicates, the
    single apply path with its checks, local writes, snapshots, catch-up and
    the rebuild from disk.

    A public method of [Store] locks [Inner] for its whole body, so a method is
    a function from the inner state to the inner state and its result.  The
    files under [docs_dir] are part of the state as their parsed contents; an
    operation that writes one succeeds (I/O errors are only logged by the code
    or returned before anything changes).  The wall clock and fresh document
    ids are arguments. *)

From stdpp Require Import base list gmap strings numbers pretty.
From Stdlib Require Import Strings.Byte Strings.Ascii.
From S2P Require Import Prelude Json Doc Sample Action Model Builtins Entry.

(** [SNAPSHOT_OPS], [MAX_NAME_LEN]. *)
Definition SNAPSHOT_OPS : N := 1024.
Definition MAX_NAME_LEN : nat := 64.

(** [DocChange]: what subscribers receive. *)
Record DocChange := {
  dc_doc_id : DocId;
  dc_name : string;
  dc_model : ModelRef;
  dc_deleted : bool;
  dc_state : DocState;
  dc_ts : N;
  dc_action_kind : option string;
  dc_action_field : option string;
  dc_action_value : option Value
}.

(** One sender of the change feed: whether its receiver is still open, and the
    messages sent. *)
Record Subscriber := { sub_open : bool; sub_queue : list DocChange }.

(** The files of [docs_dir]: index.json, <id>.snap and <id>.alog. *)
Record Disk := {
  dk_index : option N;
  dk_snaps : gmap N DocState;
  dk_alogs : gmap N (list (option Action))
}.

(** [Inner]. *)
Record Inner `{Platform} := {
  i_disk : Disk;
  i_key : SigningKey;
  i_origin : Origin;
  i_known_keys : gmap string (list byte);
  i_entries : gmap N Entry;
  i_names : gmap string N;
  i_ts_hint : N;
  i_outbound : list Action;
  i_outbound_feed : option (list Action);
  i_quarantined : N;
  i_models : ModelRegistry;
  i_subscribers : list Subscriber
}.

Section Setters.
Context `{Platform}.
Implicit Type s : Inner.

Definition set_disk (s : Inner) (d : Disk) : Inner :=
  {| i_disk := d; i_key := i_key s; i_origin := i_origin s; i_known_keys := i_known_keys s;
     i_entries := i_entries s; i_names := i_names s; i_ts_hint := i_ts_hint s;
     i_outbound := i_outbound s; i_outbound_feed := i_outbound_feed s;
     i_quarantined := i_quarantined s; i_models := i_models s;
     i_subscribers := i_subscribers s |}.
Definition set_known_keys (s : Inner) (k : gmap string (list byte)) : Inner :=
  {| i_disk := i_disk s; i_key := i_key s; i_origin := i_origin s; i_known_keys := k;
     i_entries := i_entries s; i_names := i_names s; i_ts_hint := i_ts_hint s;
     i_outbound := i_outbound s; i_outbound_feed := i_outbound_feed s;
     i_quarantined := i_quarantined s; i_models := i_models s;
     i_subscribers := i_subscribers s |}.
Definition set_entries (s : Inner) (m : gmap N Entry) : Inner :=
  {| i_disk := i_disk s; i_key := i_key s; i_origin := i_origin s;
     i_known_keys := i_known_keys s; i_entries := m; i_names := i_names s;
     i_ts_hint := i_ts_hint s; i_outbound := i_outbound s;
     i_outbound_feed := i_outbound_feed s; i_quarantined := i_quarantined s;
     i_models := i_models s; i_subscribers := i_subscribers s |}.
Definition set_names (s : Inner) (m : gmap string N) : Inner :=
  {| i_disk := i_disk s; i_key := i_key s; i_origin := i_origin s;
     i_known_keys := i_known_keys s; i_entries := i_entries s; i_names := m;
     i_ts_hint := i_ts_hint s; i_outbound := i_outbound s;
     i_outbound_feed := i_outbound_feed s; i_quarantined := i_quarantined s;
     i_models := i_models s; i_subscribers := i_subscribers s |}.
Definition set_ts_hint (s : Inner) (n : N) : Inner :=
  {| i_disk := i_disk s; i_key := i_key s; i_origin := i_origin s;
     i_known_keys := i_known_keys s; i_entries := i_entries s; i_names := i_names s;
     i_ts_hint := n; i_outbound := i_outbound s; i_outbound_feed := i_outbound_feed s;
     i_quarantined := i_quarantined s; i_models := i_models s;
     i_subscribers := i_subscribers s |}.
Definition set_outbound (s : Inner) (q : list Action) (f : option (list Action)) : Inner :=
  {| i_disk := i_disk s; i_key := i_key s; i_origin := i_origin s;
     i_known_keys := i_known_keys s; i_entries := i_entries s; i_names := i_names s;
     i_ts_hint := i_ts_hint s; i_outbound := q; i_outbound_feed := f;
     i_quarantined := i_quarantined s; i_models := i_models s;
     i_subscribers := i_subscribers s |}.
Definition set_quarantined (s : Inner) (n : N) : Inner :=
  {| i_disk := i_disk s; i_key := i_key s; i_origin := i_origin s;
     i_known_keys := i_known_keys s; i_entries := i_entries s; i_names := i_names s;
     i_ts_hint := i_ts_hint s; i_outbound := i_outbound s;
     i_outbound_feed := i_outbound_feed s; i_quarantined := n; i_models := i_models s;
     i_subscribers := i_subscribers s |}.
Definition set_models (s : Inner) (r : ModelRegistry) : Inner :=
  {| i_disk := i_disk s; i_key := i_key s; i_origin := i_origin s;
     i_known_keys := i_known_keys s; i_entries := i_entries s; i_names := i_names s;
     i_ts_hint := i_ts_hint s; i_outbound := i_outbound s;
     i_outbound_feed := i_outbound_feed s; i_quarantined := i_quarantined s;
     i_models := r; i_subscribers := i_subscribers s |}.
Definition set_subscribers (s : Inner) (l : list Subscriber) : Inner :=
  {| i_disk := i_disk s; i_key := i_key s; i_origin := i_origin s;
     i_known_keys := i_known_keys s; i_entries := i_entries s; i_names := i_names s;
     i_ts_hint := i_ts_hint s; i_outbound := i_outbound s;
     i_outbound_feed := i_outbound_feed s; i_quarantined := i_quarantined s;
     i_models := i_models s; i_subscribers := l |}.
Definition put_entry (s : Inner) (id : DocId) (e : Entry) : Inner :=
  set_entries s (<[id := e]> (i_entries s)).
End Setters.

(** ** Store operations: state and error in one type *)

(** A method on the locked state that may fail; the state survives an error. *)
Definition storeM `{Platform} (A : Type) : Type := Inner -> Inner * result string A.
#[export] Instance storeM_ret `{Platform} : MRet storeM := fun A x s => (s, Ok x).
#[export] Instance storeM_bind `{Platform} : MBind storeM := fun A B f m s =>
  match m s with
  | (s', Ok x) => f x s'
  | (s', Err e) => (s', Err e)
  end.
Lemma run_bind `{Platform} {A B} (m : storeM A) (f : A -> storeM B) (s : Inner) :
  (x ← m; f x) s = match m s with (s', Ok x) => f x s' | (s', Err e) => (s', Err e) end.
Proof. done. Qed.
Definition get_state `{Platform} : storeM Inner := fun s => (s, Ok s).
Definition modify `{Platform} (f : Inner -> Inner) : storeM unit := fun s => (f s, Ok tt).
Definition fail `{Platform} {A} (e : string) : storeM A := fun s => (s, Err e).
Definition lift_res `{Platform} {A} (r : result string A) : storeM A := fun s => (s, r).

(** ** Names *)

Definition name_char_ok (c : ascii) : bool :=
  let n := N_of_ascii c in
  ((97 <=? n) && (n <=? 122) || (48 <=? n) && (n <=? 57) ||
   (n =? 45) || (n =? 95) || (n =? 46))%N.

(** [Store::validate_name]. *)
Definition validate_name (name : string) : result string unit :=
  if bool_decide (name = "") || (MAX_NAME_LEN <? slen name)%nat
  then Err "name must be 1..=64 chars"
  else if negb (forallb name_char_ok (String.list_ascii_of_string name))
          || String.prefix "." name
  then Err ("name may contain lowercase ascii, digits, '-', '_', '.' (not starting with '.'): "
              +:+ name)
  else Ok tt.

Section Operations.
Context `{Platform}.
Implicit Type s : Inner.

(** ** Reading *)

(** [Store::may_peer_read]. *)
Definition may_peer_read (s : Inner) (peer : string) (id : DocId) : bool :=
  match i_entries s !! id with
  | None => false
  | Some entry =>
      match e_space entry with
      | None => true
      | Some space_id =>
          match (if decide (space_id = id) then Some entry else i_entries s !! space_id) with
          | None => false
          | Some gate =>
              let visibility := visibility_of (e_doc gate) in
              if bool_decide (visibility = PUBLIC) then true
              else if bool_decide (visibility = PRIVATE) then false
              else existsb (fun m => bool_decide (m = peer)) (members_of (e_doc gate))
          end
      end
  end.

(** [Store::space_visibility], [Store::space_of]. *)
Definition space_visibility (s : Inner) (id : DocId) : option string :=
  entry ← i_entries s !! id;
  space_id ← e_space entry;
  gate ← (if decide (space_id = id) then i_entries s !! id else i_entries s !! space_id);
  Some (visibility_of (e_doc gate)).
Definition space_of (s : Inner) (id : DocId) : option DocId :=
  i_entries s !! id ≫= e_space.

(** [Store::summary], [Store::summary_for]. *)
Definition summary (s : Inner) : gmap N VecClock := e_clock <$> i_entries s.
Definition summary_for (s : Inner) (peer : string) : gmap N VecClock :=
  filter (fun p => may_peer_read s peer p.1 = true) (summary s).

(** [doc_ids], [doc_name], [doc_count], [live_doc_count]. *)
Definition sorted_keys {A} (m : gmap N A) : list N :=
  sort_by_key (fun k => k) (map_to_list m).*1.
Definition doc_ids (s : Inner) : list DocId := sorted_keys (i_entries s).
Definition store_doc_name (s : Inner) (id : DocId) : string :=
  default "" ((fun e => doc_name (e_doc e)) <$> i_entries s !! id).
Definition doc_count (s : Inner) : nat := size (i_names s).
Definition live_doc_count (s : Inner) : nat :=
  size (filter (fun p => e_deleted p.2 = false) (i_entries s)).

(** [known_peers], [peer_key]. *)
Definition known_peers (s : Inner) : list string :=
  filter (fun p => p <> i_origin s) (btree_iter (i_known_keys s)).*1.
Definition peer_key (s : Inner) (origin : string) : option (list byte) :=
  i_known_keys s !! origin.

(** [Store::get], [Store::list], [Store::full_state]. *)
Definition get_doc (s : Inner) (name : string) : option Doc :=
  id ← i_names s !! name;
  e ← i_entries s !! id;
  if e_deleted e then None else Some (doc_live (e_doc e)).
Definition list_docs (s : Inner) : list Doc :=
  omap (fun id => e ← i_entries s !! id;
                  if e_deleted e then None else Some (doc_live (e_doc e))) (doc_ids s).
Definition full_state (s : Inner) (id : DocId) : option DocState :=
  state_of <$> i_entries s !! id.

(** [Store::catch_up]. *)
Definition catch_up (s : Inner) (id : DocId) (have : VecClock) :
    option DocState * list Action :=
  match i_entries s !! id with
  | None => (None, [])
  | Some entry =>
      (Some (state_of entry),
       filter (fun a => vc_covers have (a_clock a) = false) (e_log entry))
  end.

(** ** Keys and models *)

(** [Store::register_peer_key]: trust on first use. *)
Definition register_peer_key (origin : string) (key : list byte) : storeM unit := fun s =>
  match i_known_keys s !! origin with
  | Some pinned =>
      if decide (pinned = key) then (s, Ok tt)
      else (s, Err ("key mismatch for peer " +:+ origin
              +:+ ": a different key was pinned on first contact (TOFU)"))
  | None => (set_known_keys s (<[origin := key]> (i_known_keys s)), Ok tt)
  end.

(** [Store::add_model], [model_available], [model_definition]. *)
Definition add_model (s : Inner) (m : AnyModel) : Inner :=
  set_models s (reg_insert (i_models s) m).
Definition model_available (s : Inner) (r : ModelRef) : bool :=
  bool_decide (is_Some (reg_find (i_models s) r)).
Definition model_definition (s : Inner) (r : ModelRef) : option Value :=
  reg_definition (i_models s) r.

(** [Inner::canonical_model_ref]. *)
Definition canonical_model_ref (s : Inner) (r : ModelRef) : ModelRef :=
  default r (ref_ <$> reg_find (i_models s) r).

(** [subscribe_changes], [connect_outbound], [drain_outbound]. *)
Definition subscribe_changes (s : Inner) : Inner :=
  set_subscribers s (i_subscribers s ++ [{| sub_open := true; sub_queue := [] |}]).
Definition connect_outbound (s : Inner) : Inner := set_outbound s (i_outbound s) (Some []).
Definition drain_outbound (s : Inner) : Inner * list Action :=
  (set_outbound s [] (i_outbound_feed s), i_outbound s).
End Operations.

(** ** The apply path *)

Section Apply.
Context `{Platform}.
Implicit Type s : Inner.

(** [Inner::reject]: count the action and report the reason. *)
Definition reject {A} (reason : string) : storeM A := fun s =>
  (set_quarantined s (u64_succ (i_quarantined s)), Err reason).

(** Step 1, the origin: its pinned key must verify the signature. *)
Definition check_origin (s : Inner) (a : Action) : result string unit :=
  k ← ok_or (i_known_keys s !! a_origin a) "unknown origin";
  match vk_from_bytes k with
  | Err e => Err ("bad origin key: " +:+ e)
  | Ok _ => if verify a k then Ok tt else Err "bad signature"
  end.

(** Step 1, the co-signatures from position [i] on. *)
Fixpoint check_cosigs (s : Inner) (a : Action) (i : nat) (l : list CoSig) :
    result string unit :=
  match l with
  | [] => Ok tt
  | cs :: l' =>
      k ← ok_or (i_known_keys s !! cs_origin cs) ("unknown co-signer " +:+ cs_origin cs);
      match vk_from_bytes k with
      | Err e => Err ("bad co-signer key: " +:+ e)
      | Ok _ =>
          if verify_cosig a i k then check_cosigs s a (S i) l'
          else Err "bad co-signature"
      end
  end.

(** [Inner::quorum_problem], first half: the group document's members. *)
Definition quorum_group (s : Inner) (spec : QuorumSpec) (a : Action) : result string string :=
  if bool_decide (q_group spec = "$self") then
    match (fun e => doc_name (e_doc e)) <$> i_entries s !! a_doc_id a with
    | Some n => if bool_decide (n = "") then Err "quorum group '$self' has no name" else Ok n
    | None => Err "quorum group '$self' has no name"
    end
  else Ok (q_group spec).

Definition group_members (d : Doc) (field : string) : gset string :=
  match (fld_value <$> doc_fields d !! field) ≫= as_array with
  | Some l => list_to_set (omap as_str l)
  | None => ∅
  end.

(** The distinct members among the origin and the co-signers. *)
Definition endorsers (members : gset string) (a : Action) : gset string :=
  foldl (fun seen o => if decide (o ∈ members) then {[o]} ∪ seen else seen) ∅
    (a_origin a :: (cs_origin <$> a_cosig a)).

Definition quorum_message (n min : N) (group : string) : string :=
  "quorum not met: " +:+ pretty n +:+ " distinct member(s) of '" +:+ group
    +:+ "' have signed this action (need " +:+ pretty min
    +:+ "). The proposer counts as one; " +:+ pretty (min - n)%N
    +:+ " more distinct member(s) must co-sign it. "
    +:+ "A single node cannot reach a quorum of " +:+ pretty min +:+ " by itself.".

(** [Inner::quorum_problem]. *)
Definition quorum_problem (s : Inner) (spec : QuorumSpec) (a : Action) : option string :=
  match quorum_group s spec a with
  | Err p => Some p
  | Ok group =>
      match i_names s !! group ≫= fun id => (fun e => doc_live (e_doc e)) <$> i_entries s !! id with
      | None => Some ("quorum group '" +:+ group +:+ "' not found")
      | Some gd =>
          let n := N.of_nat (size (endorsers (group_members gd (q_field spec)) a)) in
          if (n <? q_min spec)%N then Some (quorum_message n (q_min spec) group) else None
      end
  end.

(** Step 3b. *)
Definition check_quorum (s : Inner) (m : AnyModel) (a : Action) : result string unit :=
  match quorum m (a_kind a) with
  | None => Ok tt
  | Some spec => match quorum_problem s spec a with Some p => Err p | None => Ok tt end
  end.

(** Step 3c: the model's rule, skipped while the document is not loaded. *)
Definition check_authorized (s : Inner) (m : AnyModel) (a : Action) : result string unit :=
  match i_entries s !! a_doc_id a with
  | None => Ok tt
  | Some e => match authorize m (e_doc e) a with Err r => Err (describe r) | Ok _ => Ok tt end
  end.

(** Step 3c-bis. *)
Definition check_space_member (s : Inner) (m : AnyModel) (a : Action) : result string unit :=
  match requires_space_member m (a_kind a) with
  | None => Ok tt
  | Some list =>
      match (match a_space a with
             | Some sp => Some sp
             | None => i_entries s !! a_doc_id a ≫= e_space
             end) with
      | None => Err "this reducer requires a space, and the document has none"
      | Some space_id =>
          match i_entries s !! space_id with
          | None => Err "the space document is not here yet"
          | Some e =>
              if existsb (fun m => bool_decide (m = a_origin a)) (list_of (e_doc e) list)
              then Ok tt
              else Err ("actor " +:+ a_origin a +:+ " is not in this space's " +:+ list)
          end
      end
  end.

(** Step 3d. *)
Definition check_space_binding (s : Inner) (a : Action) : result string unit :=
  match i_entries s !! a_doc_id a with
  | None => Ok tt
  | Some e =>
      if negb (bool_decide (e_log e = [])) && negb (bool_decide (e_space e = a_space a))
      then Err "space mismatch: a document cannot change space"
      else Ok tt
  end.

(** Steps 1 to 3d: everything that is decided before the entry is touched. *)
Definition admission (s : Inner) (a : Action) : result string AnyModel :=
  _ ← check_origin s a;
  _ ← check_cosigs s a 0 (a_cosig a);
  m ← ok_or (reg_find (i_models s) (a_model a))
        ("model " +:+ mr_name (a_model a) +:+ " unavailable");
  _ ← match validate_payload m (a_kind a) (a_payload a) with
      | Err r => Err (describe r)
      | Ok _ => Ok tt
      end;
  _ ← check_quorum s m a;
  _ ← check_authorized s m a;
  _ ← check_space_member s m a;
  _ ← check_space_binding s a;
  Ok m.

(** Whether the action sorts before the last one of the live log. *)
Definition out_of_order (s : Inner) (a : Action) : bool :=
  match i_entries s !! a_doc_id a ≫= fun e => last (e_log e) with
  | Some l => ord_ltb (canon_key a) (canon_key l)
  | None => false
  end.

(** Step 4: the precondition, the merge and the append to the live log. *)
Definition apply_to_entry (m : AnyModel) (a : Action) : storeM (bool * bool) := fun s =>
  let id := a_doc_id a in
  let entry := default (entry_new id) (i_entries s !! id) in
  match check_precondition m (e_doc entry) a with
  | Err r => reject (describe r) (put_entry s id entry)
  | Ok _ =>
      let entry := if bool_decide (e_log entry = []) then set_space entry (a_space a)
                   else entry in
      let '(entry, flags) := apply_ops_to_entry entry m a in
      let entry := set_model entry (a_model a) in
      (put_entry s id (set_log entry (e_log entry ++ [a])), Ok flags)
  end.

(** [Inner::refold]. *)
Definition refold (id : DocId) : storeM unit := fun s =>
  match i_entries s !! id with
  | None => (s, Ok tt)
  | Some e =>
      match refold_entry (i_models s) id (dk_snaps (i_disk s) !! id) e with
      | Err p => (s, Err p)
      | Ok fresh => (put_entry s id fresh, Ok tt)
      end
  end.

(** [persist_action]: one line appended to the document's log file. *)
Definition persist_action (s : Inner) (a : Action) : Inner :=
  let d := i_disk s in
  set_disk s {| dk_index := dk_index d; dk_snaps := dk_snaps d;
                dk_alogs := <[a_doc_id a :=
                  default [] (dk_alogs d !! a_doc_id a) ++ [Some a]]> (dk_alogs d) |}.

(** The local action is queued for the sync layer; the time floor moves. *)
Definition queue_local (s : Inner) (a : Action) : Inner :=
  let s := if bool_decide (a_origin a = i_origin s)
           then set_outbound s (i_outbound s ++ [a])
                  ((fun q => q ++ [a]) <$> i_outbound_feed s)
           else s in
  set_ts_hint s (N.max (i_ts_hint s) (a_ts a)).

(** [Inner::snapshot]: write the state, truncate the log file and the log. *)
Definition snapshot (s : Inner) (id : DocId) : Inner :=
  match i_entries s !! id with
  | None => s
  | Some e =>
      let d := i_disk s in
      put_entry
        (set_disk s {| dk_index := dk_index d;
                       dk_snaps := <[id := snapshot_state e]> (dk_snaps d);
                       dk_alogs := <[id := []]> (dk_alogs d) |})
        id (set_log e [])
  end.

(** Step 6. *)
Definition maybe_snapshot (s : Inner) (id : DocId) : Inner :=
  let len := default 0%N ((fun e => N.of_nat (length (e_log e))) <$> i_entries s !! id) in
  if (SNAPSHOT_OPS <=? len)%N then snapshot s id else s.

(** Step 7: the name index follows the document. *)
Definition sync_names (s : Inner) (id : DocId) : Inner :=
  match i_entries s !! id with
  | None => s
  | Some e =>
      let name := doc_name (e_doc e) in
      if e_deleted e then
        if negb (bool_decide (name = "")) && bool_decide (i_names s !! name = Some id)
        then set_names s (delete name (i_names s))
        else s
      else if negb (bool_decide (name = "")) then set_names s (<[name := id]> (i_names s))
      else s
  end.

(** What [emit_change] reports of the action. *)
Definition change_write (a : Action) : option string * option Value :=
  match vget (a_payload a) "field" ≫= as_str with
  | Some f => (Some f, vget (a_payload a) "value")
  | None =>
      match as_object (a_payload a) with
      | Some [(k, v)] => (Some k, Some v)
      | _ => (None, None)
      end
  end.

(** [Inner::emit_change]: every open receiver gets the change; the closed
    ones are dropped from the list. *)
Definition emit_change (s : Inner) (id : DocId) (ts : N) (action : option Action) : Inner :=
  match i_entries s !! id with
  | None => s
  | Some e =>
      let w := match action with Some a => change_write a | None => (None, None) end in
      let change := {| dc_doc_id := id; dc_name := doc_name (e_doc e); dc_model := e_model e;
                       dc_deleted := e_deleted e; dc_state := state_of e; dc_ts := ts;
                       dc_action_kind := a_kind <$> action; dc_action_field := w.1;
                       dc_action_value := w.2 |} in
      set_subscribers s
        (omap (fun sub => if sub_open sub
                          then Some {| sub_open := true; sub_queue := sub_queue sub ++ [change] |}
                          else None) (i_subscribers s))
  end.

(** Steps 5 to 7, after the merge. *)
Definition after_apply (s : Inner) (a : Action) (any del : bool) : Inner :=
  let s := persist_action s a in
  let s := if any then queue_local s a else s in
  let s := maybe_snapshot s (a_doc_id a) in
  let s := sync_names s (a_doc_id a) in
  if any || del then emit_change s (a_doc_id a) (a_ts a) (Some a) else s.

(** [Inner::apply_action], the single apply path of local and remote actions. *)
Definition apply_action (a : Action) : storeM ApplyResult := fun s =>
  match admission s a with
  | Err reason => reject reason s
  | Ok m =>
      let ooo := out_of_order s a in
      (flags ← apply_to_entry m a;
       _ ← (if ooo then refold (a_doc_id a) else mret tt);
       _ ← modify (fun s => after_apply s a flags.1 flags.2);
       mret {| applied := flags.1; doc_deleted := flags.2 |}) s
  end.

(** [Store::apply_remote_action], [Store::apply_signed_action]. *)
Definition apply_remote_action (a : Action) : storeM ApplyResult := apply_action a.
Definition apply_signed_action (a : Action) : storeM unit :=
  _ ← apply_action a; mret tt.

(** ** Local writes *)

(** [Inner::next_ts]: [now] is the wall clock in microseconds. *)
Definition next_ts (now : N) : storeM N := fun s =>
  let t := u64_succ (N.max (i_ts_hint s) (wrap64 now)) in
  (set_ts_hint s t, Ok t).

(** [Inner::build_action].  [expect("doc exists")] is the error "doc exists". *)
Definition build_action (now : N) (id : DocId) (model : ModelRef) (kind : string)
    (payload : Value) : storeM Action :=
  ts ← next_ts now;
  s ← get_state;
  e ← lift_res (ok_or (i_entries s !! id) "doc exists");
  mret (sign {| a_doc_id := id; a_model := canonical_model_ref s model; a_kind := kind;
                a_payload := payload; a_ts := ts;
                a_clock := (vc_tick (e_clock e) (i_origin s)).1;
                a_origin := i_origin s; a_cosig := [];
                a_prev_hash := hash <$> last (e_log e);
                a_space := e_space e; a_sig := replicate 64 x00 |} (i_key s)).

Definition field_payload (field : string) (value : Value) : Value :=
  json_obj [("field", Str field); ("value", value)].

(** The loop of [create_doc] over the initial fields. *)
Fixpoint create_fields (now : nat -> N) (i : nat) (id : DocId)
    (fields : list (string * Value)) : storeM unit :=
  match fields with
  | [] => mret tt
  | (f, v) :: rest =>
      set ← build_action (now i) id open_ref "set" (field_payload f v);
      _ ← apply_action set;
      create_fields now (S i) id rest
  end.

(** The check that a name is free. *)
Definition name_free (name : string) : storeM unit :=
  s ← get_state;
  if decide (is_Some (i_names s !! name))
  then fail ("a doc named " +:+ name +:+ " already exists") else mret tt.

(** [Store::create_doc]; [id] is the fresh [DocId::new()]. *)
Definition create_doc (now : nat -> N) (id : DocId) (name : string)
    (fields : gmap string Value) : storeM DocId :=
  _ ← lift_res (validate_name name);
  _ ← name_free name;
  _ ← modify (fun s => put_entry s id (entry_new id));
  create ← build_action (now 0) id open_ref "create" (field_payload NAME_KEY (Str name));
  _ ← apply_action create;
  _ ← create_fields now 1 id (btree_iter fields);
  _ ← modify (fun s => set_names s (<[name := id]> (i_names s)));
  mret id.

(** [Store::create_doc_in_space], [create_doc_model]. *)
Definition create_doc_in_space (now : N) (id : DocId) (name : string) (model : ModelRef)
    (payload : Value) (space : option DocId) : storeM DocId :=
  _ ← lift_res (validate_name name);
  _ ← name_free name;
  _ ← modify (fun s => put_entry s id (set_space (entry_new id) space));
  action ← build_action now id model "init" payload;
  _ ← apply_action action;
  mret id.
Definition create_doc_model (now : N) (id : DocId) (name : string) (model : ModelRef)
    (payload : Value) : storeM DocId := create_doc_in_space now id name model payload None.

(** [Store::create_space_at], [create_space]; the text of the id is the
    argument [show_id]. *)
Definition create_space_at (show_id : DocId -> string) (now : N) (id : DocId) (name : string)
    (payload : Value) : storeM DocId :=
  _ ← lift_res (validate_name name);
  _ ← name_free name;
  s ← get_state;
  _ ← (if decide (is_Some (i_entries s !! id))
       then fail ("a doc with id " +:+ show_id id +:+ " already exists") else mret tt);
  _ ← modify (fun s => put_entry s id (set_space (entry_new id) (Some id)));
  action ← build_action now id (modelref_new "space" "1") "init" payload;
  _ ← apply_action action;
  mret id.

(** [Store::doc_id_or_err] and the three open-model writes. *)
Definition doc_id_or_err (name : string) : storeM DocId :=
  s ← get_state; lift_res (ok_or (i_names s !! name) ("no doc named " +:+ name)).
Definition open_write (now : N) (name kind : string) (payload : Value) : storeM unit :=
  id ← doc_id_or_err name;
  action ← build_action now id open_ref kind payload;
  _ ← apply_action action;
  mret tt.
Definition update_field (now : N) (name field : string) (value : Value) : storeM unit :=
  open_write now name "set" (field_payload field value).
Definition delete_field (now : N) (name field : string) : storeM unit :=
  open_write now name "delete" (json_obj [("field", Str field)]).
Definition delete_doc (now : N) (name : string) : storeM unit :=
  open_write now name "delete" (json_obj []).

(** [Store::build_local_action], [Store::apply_local_action]. *)
Definition build_local_action (now : N) (name : string) (model : ModelRef) (kind : string)
    (payload : Value) : storeM Action :=
  s ← get_state;
  id ← lift_res (ok_or (i_names s !! name) ("no doc named '" +:+ name +:+ "'"));
  build_action now id model kind payload.
Definition apply_local_action (now : N) (name : string) (model : ModelRef) (kind : string)
    (payload : Value) : storeM Action :=
  action ← build_local_action now name model kind payload;
  _ ← apply_action action;
  mret action.

(** [Store::adopt_state]. *)
Definition adopt_state (st : DocState) : storeM unit := fun s =>
  let id := doc_id (ds_doc st) in
  let entry := default (entry_new id) (i_entries s !! id) in
  let entry := {| e_doc := lift_name (ds_doc st); e_clock := ds_clock st;
                  e_deleted := ds_deleted st; e_log := []; e_model := ds_model st;
                  e_space := e_space entry |} in
  (emit_change (put_entry s id entry) id (i_ts_hint s) None, Ok tt).
End Apply.

(** ** Restart and audit *)

Section Restart.
Context `{Platform}.
Implicit Type s : Inner.

(** The guard of [replay_doc]: nothing was read for this id. *)
Definition replayed_empty (e : Entry) : bool :=
  bool_decide (doc_name (e_doc e) = "") && bool_decide (doc_fields (e_doc e) = ∅)
  && bool_decide (e_log e = []) && negb (e_deleted e).

(** [Inner::replay_doc]. *)
Definition replay_doc (s : Inner) (id : DocId) : Inner :=
  let d := i_disk s in
  let e := replay_entry (i_models s) id (dk_snaps d !! id) (default [] (dk_alogs d !! id)) in
  if replayed_empty e then s
  else
    let name := doc_name (e_doc e) in
    let max_ts := foldr N.max 0%N (a_ts <$> e_log e) in
    let s := put_entry s id e in
    let s := if bool_decide (name = "") then s
             else set_names s (<[name := id]> (i_names s)) in
    set_ts_hint s (N.max (i_ts_hint s) max_ts).

(** [Inner::persist_index]. *)
Definition persist_index (s : Inner) : Inner :=
  let d := i_disk s in
  set_disk s {| dk_index := Some (i_ts_hint s); dk_snaps := dk_snaps d;
                dk_alogs := dk_alogs d |}.

(** [Inner::replay]: the index, then every document with a log file. *)
Definition replay (s : Inner) : Inner :=
  let s := match dk_index (i_disk s) with
           | Some t => set_ts_hint s (N.max (i_ts_hint s) t)
           | None => s
           end in
  persist_index (foldl replay_doc s (sorted_keys (dk_alogs (i_disk s)))).

(** [Store::open_inner]; [extra] are registered before the replay. *)
Definition open_inner (disk : Disk) (key : SigningKey) (origin : string)
    (extra : list AnyModel) : Inner :=
  replay {| i_disk := disk; i_key := key; i_origin := origin;
            i_known_keys := {[origin := verifying_key key]};
            i_entries := ∅; i_names := ∅; i_ts_hint := 0; i_outbound := [];
            i_outbound_feed := None; i_quarantined := 0;
            i_models := foldl reg_insert seeded_with_builtins extra;
            i_subscribers := [] |}.
Definition store_open (disk : Disk) (key : SigningKey) (origin : string) : Inner :=
  open_inner disk key origin [].
End Restart.

(** [ActionCheck], [VerifyReport]. *)
Record ActionCheck := {
  ac_ts : N;
  ac_origin : string;
  ac_kind : string;
  ac_model : string;
  ac_ok : bool;
  ac_problems : list string
}.

Record VerifyReport := {
  vr_name : string;
  vr_doc_id : DocId;
  vr_model : option ModelRef;
  vr_from_snapshot : bool;
  vr_actions : list ActionCheck;
  vr_ok : bool
}.

Section Audit.
Context `{Platform}.
Implicit Type s : Inner.

(** The hash chain: a named predecessor must have been seen, and only the
    first action of the log may name none. *)
Definition chain_problems (seen : list Hash32) (a : Action) : list string :=
  match a_prev_hash a with
  | Some got =>
      if contains seen got then []
      else ["hash chain broken: prev_hash " +:+ hex_encode (hash_bytes got)
              +:+ " names no earlier action"]
  | None => if bool_decide (seen = []) then [] else ["chain gap: missing prev_hash"]
  end.

Definition origin_problems (s : Inner) (a : Action) : list string :=
  match i_known_keys s !! a_origin a with
  | Some k =>
      match vk_from_bytes k with
      | Ok _ => if verify a k then [] else ["origin signature invalid"]
      | Err _ => ["origin key malformed"]
      end
  | None => ["unknown origin " +:+ a_origin a]
  end.

Definition cosig_problems (s : Inner) (a : Action) : list string :=
  mjoin (imap (fun i cs =>
    match i_known_keys s !! cs_origin cs with
    | Some k =>
        match vk_from_bytes k with
        | Ok _ =>
            if verify_cosig a i k then []
            else ["co-signature " +:+ pretty i +:+ " from " +:+ cs_origin cs +:+ " invalid"]
        | Err _ => ["co-signer " +:+ cs_origin cs +:+ " key malformed"]
        end
    | None => ["unknown co-signer " +:+ cs_origin cs]
    end) (a_cosig a)).

Definition model_problems (s : Inner) (m : AnyModel) (state : Doc) (a : Action) :
    list string :=
  match check_precondition m state a with
  | Err r => ["precondition: " +:+ describe r]
  | Ok _ => []
  end ++
  match quorum m (a_kind a) with
  | Some spec => match quorum_problem s spec a with Some p => [p] | None => [] end
  | None => []
  end.

(** One round of [verify]'s loop: the scratch entry, the hashes seen, the
    checks so far. *)
Definition verify_step (s : Inner) (st : Entry * list Hash32 * list ActionCheck)
    (a : Action) : Entry * list Hash32 * list ActionCheck :=
  let '(scratch, seen, checks) := st in
  let model := reg_find (i_models s) (a_model a) in
  let problems :=
    match model with
    | Some _ => []
    | None => ["model " +:+ mr_name (a_model a) +:+ " not loaded"]
    end
    ++ chain_problems seen a ++ origin_problems s a ++ cosig_problems s a
    ++ match model with Some m => model_problems s m (e_doc scratch) a | None => [] end in
  let scratch := match model with
                 | Some m => (apply_ops_to_entry scratch m a).1
                 | None => scratch
                 end in
  (scratch, seen ++ [hash a],
   checks ++ [{| ac_ts := a_ts a; ac_origin := a_origin a; ac_kind := a_kind a;
                 ac_model := modelref_display (a_model a);
                 ac_ok := bool_decide (problems = []); ac_problems := problems |}]).

(** The note of a field map that does not match, on the last check or alone. *)
Definition note_mismatch (checks : list ActionCheck) : list ActionCheck :=
  let note := "re-folded field map does not match the stored doc" in
  match last checks with
  | Some l => removelast checks ++
      [{| ac_ts := ac_ts l; ac_origin := ac_origin l; ac_kind := ac_kind l;
          ac_model := ac_model l; ac_ok := false; ac_problems := ac_problems l ++ [note] |}]
  | None => [{| ac_ts := 0; ac_origin := ""; ac_kind := "(field map)"; ac_model := "";
                ac_ok := false; ac_problems := [note] |}]
  end.

(** [Store::verify]. *)
Definition verify_doc (s : Inner) (name : string) : result string VerifyReport :=
  let missing := "no doc named '" +:+ name +:+ "'" in
  id ← ok_or (i_names s !! name) missing;
  entry ← ok_or (i_entries s !! id) missing;
  let base := dk_snaps (i_disk s) !! id in
  let seen := match base ≫= ds_log_hash with Some h => [h] | None => [] end in
  let '(scratch, _, checks) :=
    foldl (verify_step s) (lifted (base_entry id base), seen, []) (e_log entry) in
  let same := bool_decide (e_doc scratch = e_doc entry) in
  Ok {| vr_name := name; vr_doc_id := id; vr_model := a_model <$> head (e_log entry);
        vr_from_snapshot := bool_decide (is_Some base);
        vr_actions := if same then checks else note_mismatch checks;
        vr_ok := forallb ac_ok checks && same |}.
End Audit.
