(* ===== verification/StoreInv.v ===== *)
(** The invariant of the store and its preservation by every operation:
    each document is the canonical fold of its live log from its snapshot, the
    log is in canonical order and is what the log file holds, the name index
    has no dangling ids, and the node's own key is pinned. *)

From stdpp Require Import base list gmap strings numbers pretty.
From Stdlib Require Import Strings.Byte.
From S2P Require Import Prelude Json Doc Sample Action Model Builtins Entry Redeliver Store.

Section Invariant.
Context `{Platform}.
Implicit Types (s : Inner) (a : Action) (e : Entry) (m : AnyModel).

Definition lines_of s (id : DocId) : list (option Action) :=
  default [] (dk_alogs (i_disk s) !! id).

Record entry_inv s (id : DocId) e : Prop := {
  inv_sorted : sorted_by canon_key (e_log e);
  inv_view : view e = canonical (i_models s) id (dk_snaps (i_disk s) !! id) (e_log e);
  inv_models : forall a, a ∈ e_log e -> is_Some (reg_find (i_models s) (a_model a));
  inv_unnamed : unnamed_fields (e_doc e);
  inv_lines : omap (fun l => l) (lines_of s id) ≡ₚ e_log e;
  inv_base : forall b, dk_snaps (i_disk s) !! id = Some b -> doc_id (ds_doc b) = id;
  inv_id : doc_id (e_doc e) = id;
  inv_space : dk_snaps (i_disk s) !! id = None ->
              forall a, a ∈ e_log e -> a_space a = e_space e
}.

Record store_inv s : Prop := {
  inv_entries : forall id,
    match i_entries s !! id with
    | Some e => entry_inv s id e
    | None => dk_snaps (i_disk s) !! id = None /\ dk_alogs (i_disk s) !! id = None
    end;
  inv_names : forall n id, i_names s !! n = Some id -> is_Some (i_entries s !! id);
  inv_own_key : i_known_keys s !! i_origin s = Some (verifying_key (i_key s))
}.

(** ** Document ids never change *)

Lemma merge_doc_id ops d del any :
  doc_id (foldl merge_doc (d, del, any) ops).1.1 = doc_id d.
Proof.
  revert d del any. induction ops as [|o ops IH]; intros; [done|]. cbn [foldl].
  unfold merge_doc at 2. destruct (apply_op_name d ∅ del o) as [_ E].
  destruct (apply_op d ∅ del o) as [[[d' ?] ?] ?]. rewrite IH. exact E.
Qed.

Lemma lift_name_doc_id d : doc_id (lift_name d) = doc_id d.
Proof. unfold lift_name. by case_match. Qed.

Lemma apply_ops_doc_id e m a : doc_id (e_doc (apply_ops_to_entry e m a).1) = doc_id (e_doc e).
Proof.
  rewrite apply_ops_spec. destruct reduce as [ops|]; [|done].
  pose proof (merge_doc_id (restamp a <$> ops) (e_doc e) (e_deleted e) false) as E.
  destruct foldl as [[] ?]. simpl in *. by rewrite lift_name_doc_id.
Qed.

Lemma canon_fold_doc_id r log e :
  doc_id (e_doc (foldl (canon_step r) e log)) = doc_id (e_doc e).
Proof.
  revert e. induction log as [|a log IH]; intros e; [done|]. simpl. rewrite IH.
  unfold canon_step, refold_step. repeat case_match; try done. apply apply_ops_doc_id.
Qed.

Lemma canonical_doc_id r id base log :
  (forall b, base = Some b -> doc_id (ds_doc b) = id) ->
  doc_id (canonical r id base log).1 = id.
Proof.
  intros Hb. unfold canonical, view; simpl. rewrite canon_fold_doc_id. simpl.
  rewrite lift_name_doc_id. destruct base; simpl; [by apply Hb|done].
Qed.

Lemma canonical_unnamed r id base log : unnamed_fields (canonical r id base log).1.
Proof. apply canon_fold_unnamed, lift_name_unnamed. Qed.

(** ** The invariant of one entry *)

Lemma authorize_empty m (id : DocId) name a : authorize m (empty_doc id name) a = Ok tt.
Proof.
  destruct m as [o|l]; [done|]. cbv [authorize AnyModel_model dispatch L1_model].
  unfold l1_authorize. by destruct (vget _ _).
Qed.

Lemma entry_inv_new s id sp :
  dk_snaps (i_disk s) !! id = None -> dk_alogs (i_disk s) !! id = None ->
  entry_inv s id (set_space (entry_new id) sp).
Proof.
  intros Hs Hl. split; simpl; rewrite ?Hs; try done.
  - constructor.
  - by intros a Ha%not_elem_of_nil.
  - unfold lines_of. by rewrite Hl.
  - by intros _ a Ha%not_elem_of_nil.
Qed.

(** The invariant only looks at the models, the snapshot and the log file. *)
Lemma entry_inv_frame s s' id e :
  i_models s' = i_models s ->
  dk_snaps (i_disk s') !! id = dk_snaps (i_disk s) !! id ->
  dk_alogs (i_disk s') !! id = dk_alogs (i_disk s) !! id ->
  entry_inv s id e -> entry_inv s' id e.
Proof. intros Em Es El []. by split; unfold lines_of; rewrite ?Em, ?Es, ?El. Qed.

(** The entry after step 4 of an accepted action, before any re-fold. *)
Definition appended e m a : Entry :=
  let e := if bool_decide (e_log e = []) then set_space e (a_space a) else e in
  let e' := set_model (apply_ops_to_entry e m a).1 (a_model a) in
  set_log e' (e_log e' ++ [a]).

Lemma appended_log e m a : e_log (appended e m a) = e_log e ++ [a].
Proof.
  unfold appended; simpl. destruct (apply_ops_frame
    (if bool_decide (e_log e = []) then set_space e (a_space a) else e) m a) as (-> & _).
  by case_bool_decide.
Qed.

Lemma appended_space e m a :
  e_space (appended e m a) = if bool_decide (e_log e = []) then a_space a else e_space e.
Proof.
  unfold appended; simpl. destruct (apply_ops_frame
    (if bool_decide (e_log e = []) then set_space e (a_space a) else e) m a) as (_ & _ & ->).
  by case_bool_decide.
Qed.

Lemma appended_view e m a :
  view (appended e m a) = view (apply_ops_to_entry e m a).1.
Proof.
  unfold appended. trans (view (apply_ops_to_entry
    (if bool_decide (e_log e = []) then set_space e (a_space a) else e) m a).1); [done|].
  apply apply_ops_view. by case_bool_decide.
Qed.

(** An action that passes its conditions on the entry's document is folded
    at the end exactly as the append does it. *)
Lemma appended_in_order s id e m a :
  entry_inv s id e -> reg_find (i_models s) (a_model a) = Some m ->
  check_precondition m (e_doc e) a = Ok tt -> authorize m (e_doc e) a = Ok tt ->
  sorted_by canon_key (e_log e ++ [a]) ->
  view (appended e m a)
  = canonical (i_models s) id (dk_snaps (i_disk s) !! id) (e_log e ++ [a]).
Proof.
  intros Hinv Hm Hp Ha Hs. rewrite (canonical_snoc _ _ _ _ _ e Hs (inv_view _ _ _ Hinv)).
  unfold canon_step, refold_step. rewrite Hm, Hp, Ha. simpl. apply appended_view.
Qed.
End Invariant.

(** ** What [apply_action] does, branch by branch *)

Section ApplyEquation.
Context `{Platform}.
Implicit Types (s : Inner) (a : Action) (e : Entry) (m : AnyModel).

Definition entry_at s (id : DocId) : Entry := default (entry_new id) (i_entries s !! id).
Definition quarantine s : Inner := set_quarantined s (u64_succ (i_quarantined s)).

(** The entry an accepted action leaves behind. *)
Definition settled_entry s m a : result string Entry :=
  let e := appended (entry_at s (a_doc_id a)) m a in
  if out_of_order s a
  then refold_entry (i_models s) (a_doc_id a) (dk_snaps (i_disk s) !! a_doc_id a) e
  else Ok e.

Lemma put_entry_twice s id e e' : put_entry (put_entry s id e) id e' = put_entry s id e'.
Proof. unfold put_entry, set_entries; simpl. f_equal. apply insert_insert_eq. Qed.

Lemma apply_action_eq a s :
  apply_action a s =
  match admission s a with
  | Err reason => (quarantine s, Err reason)
  | Ok m =>
      let e := entry_at s (a_doc_id a) in
      match check_precondition m (e_doc e) a with
      | Err r => (quarantine (put_entry s (a_doc_id a) e), Err (describe r))
      | Ok _ =>
          let flags := (apply_ops_to_entry e m a).2 in
          match settled_entry s m a with
          | Err p => (put_entry s (a_doc_id a) (appended e m a), Err p)
          | Ok e' =>
              (after_apply (put_entry s (a_doc_id a) e') a flags.1 flags.2,
               Ok {| applied := flags.1; doc_deleted := flags.2 |})
          end
      end
  end.
Proof.
  unfold apply_action. destruct (admission s a) as [m|]; [|done].
  rewrite run_bind. unfold apply_to_entry, settled_entry. fold (entry_at s (a_doc_id a)).
  set (e := entry_at s (a_doc_id a)).
  destruct (check_precondition m (e_doc e) a) as [?|r]; [|done].
  set (e1 := if bool_decide (e_log e = []) then set_space e (a_space a) else e).
  assert (Ef : (apply_ops_to_entry e1 m a).2 = (apply_ops_to_entry e m a).2).
  { apply apply_ops_view. unfold e1. by case_bool_decide. }
  assert (Ea : appended e m a = let e' := set_model (apply_ops_to_entry e1 m a).1 (a_model a) in
                                set_log e' (e_log e' ++ [a])) by done.
  rewrite Ea, <- Ef. destruct (apply_ops_to_entry e1 m a) as [e2 flags]. simpl.
  rewrite run_bind. destruct (out_of_order s a); [|done]. unfold refold. simpl. rewrite lookup_insert_eq.
  destruct (refold_entry _ _ _ _) as [e3|p]; simpl; [|done].
  rewrite run_bind. simpl. by rewrite put_entry_twice.
Qed.

(** ** Frames of the bookkeeping steps *)

(** Everything but the entries, the names, the disk and the queues. *)
Definition same_core s s' : Prop :=
  i_models s' = i_models s /\ i_known_keys s' = i_known_keys s /\
  i_key s' = i_key s /\ i_origin s' = i_origin s /\ i_quarantined s' = i_quarantined s.

Lemma emit_change_frame s id ts o :
  let s' := emit_change s id ts o in
  i_entries s' = i_entries s /\ i_disk s' = i_disk s /\ i_names s' = i_names s /\
  i_ts_hint s' = i_ts_hint s /\ i_outbound s' = i_outbound s /\ same_core s s'.
Proof. unfold emit_change. by case_match. Qed.

Lemma sync_names_frame s id :
  let s' := sync_names s id in
  i_entries s' = i_entries s /\ i_disk s' = i_disk s /\
  i_ts_hint s' = i_ts_hint s /\ i_outbound s' = i_outbound s /\ same_core s s'.
Proof. unfold sync_names. by repeat case_match. Qed.

Lemma queue_local_frame s a :
  let s' := queue_local s a in
  i_entries s' = i_entries s /\ i_disk s' = i_disk s /\ i_names s' = i_names s /\
  i_ts_hint s' = N.max (i_ts_hint s) (a_ts a) /\ same_core s s'.
Proof. unfold queue_local. by case_match. Qed.

Lemma maybe_snapshot_frame s id :
  let s' := maybe_snapshot s id in
  i_names s' = i_names s /\ i_ts_hint s' = i_ts_hint s /\ i_outbound s' = i_outbound s /\
  same_core s s'.
Proof. unfold maybe_snapshot, snapshot. by repeat case_match. Qed.

(** The state handed to the snapshot step. *)
Definition persisted s a (any : bool) : Inner :=
  let s := persist_action s a in if any then queue_local s a else s.

Lemma persisted_frame s a any :
  let s' := persisted s a any in
  i_entries s' = i_entries s /\ i_disk s' = i_disk (persist_action s a) /\
  i_names s' = i_names s /\ same_core s s' /\
  i_ts_hint s' = if any then N.max (i_ts_hint s) (a_ts a) else i_ts_hint s.
Proof.
  unfold persisted. destruct any; [|done].
  destruct (queue_local_frame (persist_action s a) a) as (-> & -> & -> & -> & Hc).
  split_and!; done.
Qed.

Lemma after_apply_frame s a any del :
  let s' := after_apply s a any del in
  let t := maybe_snapshot (persisted s a any) (a_doc_id a) in
  i_entries s' = i_entries t /\ i_disk s' = i_disk t /\ same_core s s' /\
  i_names s' = i_names (sync_names t (a_doc_id a)) /\
  i_ts_hint s' = if any then N.max (i_ts_hint s) (a_ts a) else i_ts_hint s.
Proof.
  unfold after_apply. fold (persisted s a any).
  set (t := maybe_snapshot (persisted s a any) (a_doc_id a)).
  destruct (sync_names_frame t (a_doc_id a)) as (E1 & E2 & E3 & E4 & E5).
  destruct (maybe_snapshot_frame (persisted s a any) (a_doc_id a)) as (F1 & F2 & F3 & F4).
  destruct (persisted_frame s a any) as (P1 & P2 & P3 & P4 & P5).
  fold t in F1, F2, F3, F4. unfold same_core in *.
  assert (Hall : forall u, (u = sync_names t (a_doc_id a) \/
     u = emit_change (sync_names t (a_doc_id a)) (a_doc_id a) (a_ts a) (Some a)) ->
     i_entries u = i_entries (sync_names t (a_doc_id a)) /\
     i_disk u = i_disk (sync_names t (a_doc_id a)) /\
     i_names u = i_names (sync_names t (a_doc_id a)) /\
     i_ts_hint u = i_ts_hint (sync_names t (a_doc_id a)) /\
     same_core (sync_names t (a_doc_id a)) u).
  { intros u [->| ->]; [done|].
    destruct (emit_change_frame (sync_names t (a_doc_id a)) (a_doc_id a) (a_ts a) (Some a)); tauto. }
  unfold same_core in *.
  destruct (any || del);
    [destruct (Hall _ (or_intror eq_refl)) as (? & ? & ? & ? & ?)
    |destruct (Hall _ (or_introl eq_refl)) as (? & ? & ? & ? & ?)];
    destruct_and!; split_and!; congruence.
Qed.
End ApplyEquation.

(** ** What an admitted action has passed *)

Section Admission.
Context `{Platform}.
Implicit Types (s : Inner) (a : Action) (e : Entry) (m : AnyModel).

Record admitted s a m : Prop := {
  adm_origin : check_origin s a = Ok tt;
  adm_cosigs : check_cosigs s a 0 (a_cosig a) = Ok tt;
  adm_model : reg_find (i_models s) (a_model a) = Some m;
  adm_payload : validate_payload m (a_kind a) (a_payload a) = Ok tt;
  adm_quorum : check_quorum s m a = Ok tt;
  adm_authorized : check_authorized s m a = Ok tt;
  adm_space : check_space_member s m a = Ok tt;
  adm_binding : check_space_binding s a = Ok tt
}.

Lemma admission_ok s a m : admission s a = Ok m <-> admitted s a m.
Proof.
  unfold admission. rewrite !bind_ok. split.
  - intros ([] & ? & ([] & ? & H1)%bind_ok).
    apply bind_ok in H1 as (m' & Hm%ok_or_ok & ([] & Hv & H1)%bind_ok).
    apply bind_ok in H1 as ([] & ? & ([] & ? & H1)%bind_ok).
    apply bind_ok in H1 as ([] & ? & ([] & ? & [= <-])%bind_ok).
    split; try done. by destruct (validate_payload _ _ _) as [[]|].
  - intros [Ho Hc Hm Hv Hq Ha Hs Hb]. exists tt. split; [done|].
    rewrite Hc; simpl. rewrite Hm; simpl. rewrite Hv; simpl. rewrite Hq; simpl.
    rewrite Ha; simpl. rewrite Hs; simpl. by rewrite Hb.
Qed.

Lemma admitted_authorized s a m :
  admitted s a m -> authorize m (e_doc (entry_at s (a_doc_id a))) a = Ok tt.
Proof.
  intros Hadm. pose proof (adm_authorized _ _ _ Hadm) as Ha.
  unfold check_authorized, entry_at in *. destruct (i_entries s !! a_doc_id a) as [e|]; simpl.
  - by destruct (authorize m (e_doc e) a) as [[]|].
  - apply authorize_empty.
Qed.
End Admission.

(** ** Preservation *)

Lemma admitted_space `{Platform} s a m :
  admitted s a m -> e_log (entry_at s (a_doc_id a)) <> [] ->
  a_space a = e_space (entry_at s (a_doc_id a)).
Proof.
  intros Hadm. pose proof (adm_binding _ _ _ Hadm) as Hb. unfold entry_at, check_space_binding in *.
  destruct (i_entries s !! a_doc_id a) as [e|]; simpl in *; [|done].
  intros Hl. rewrite (bool_decide_eq_false_2 _ Hl) in Hb. simpl in Hb. by case_bool_decide.
Qed.

Section Preservation.
Context `{Platform}.
Implicit Types (s : Inner) (a : Action) (e : Entry) (m : AnyModel).

Lemma store_inv_ext s s' :
  i_entries s' = i_entries s -> i_disk s' = i_disk s -> i_models s' = i_models s ->
  i_known_keys s' = i_known_keys s -> i_key s' = i_key s -> i_origin s' = i_origin s ->
  (forall n id, i_names s' !! n = Some id -> is_Some (i_entries s !! id)) ->
  store_inv s -> store_inv s'.
Proof.
  intros Ee Ed Em Ek Eky Eo Hn [He _ Hk]. split; [|by rewrite Ee|by rewrite Ek, Eo, Eky].
  intros id. specialize (He id). rewrite Ee, Ed. case_match; [|done].
  eapply entry_inv_frame; [..|exact He]; by rewrite ?Ed.
Qed.

Lemma store_inv_quarantine s : store_inv s -> store_inv (quarantine s).
Proof. intros Hs. eapply store_inv_ext; [..|exact Hs]; try done. apply Hs. Qed.

Lemma store_inv_put s id e : store_inv s -> entry_inv s id e -> store_inv (put_entry s id e).
Proof.
  intros [He Hn Hk] Hinv. split; [|simpl|done].
  - intros id'. simpl. specialize (He id'). destruct (decide (id' = id)) as [->|Hne].
    + rewrite lookup_insert_eq. by eapply entry_inv_frame; [..|exact Hinv].
    + rewrite lookup_insert_ne by done. case_match; [|done].
      by eapply entry_inv_frame; [..|exact He].
  - intros n id' Hl. destruct (decide (id' = id)) as [->|Hne].
    + rewrite lookup_insert_eq. by eexists.
    + rewrite lookup_insert_ne by done. by eapply Hn.
Qed.

Lemma entry_at_inv s id : store_inv s -> entry_inv s id (entry_at s id).
Proof.
  intros Hs. pose proof (inv_entries _ Hs id) as He. unfold entry_at.
  destruct (i_entries s !! id); [done|]. simpl.
  destruct He as [E1 E2]. exact (entry_inv_new s id None E1 E2).
Qed.

(** The spaces of a log extended by an accepted action agree with the entry. *)
Lemma appended_spaces s a m :
  store_inv s -> admitted s a m -> let id := a_doc_id a in let e := entry_at s id in
  dk_snaps (i_disk s) !! id = None ->
  forall x, x ∈ e_log e ++ [a] -> a_space x = e_space (appended e m a).
Proof.
  intros Hs Hadm id e Hn x. rewrite appended_space.
  pose proof (inv_space _ _ _ (entry_at_inv s id Hs) Hn) as Hsp.
  intros [Hx|Hx%list_elem_of_singleton]%elem_of_app; [|subst x].
  - rewrite bool_decide_eq_false_2 by (intros El; rewrite El in Hx; by apply not_elem_of_nil in Hx).
    by apply Hsp.
  - case_bool_decide as El; [done|]. by apply (admitted_space _ _ _ Hadm).
Qed.

(** An entry that is the canonical fold of the extended log satisfies the
    invariant once the action's line is in the log file. *)
Lemma settled_inv s a m e' :
  store_inv s -> admitted s a m -> let id := a_doc_id a in let e := entry_at s id in
  let fold_of := canonical (i_models s) id (dk_snaps (i_disk s) !! id) in
  view e' = fold_of (e_log e ++ [a]) -> sorted_by canon_key (e_log e') ->
  e_log e' ≡ₚ e_log e ++ [a] -> fold_of (e_log e') = fold_of (e_log e ++ [a]) ->
  (dk_snaps (i_disk s) !! id = None -> e_space e' = e_space (appended e m a)) ->
  entry_inv (persist_action s a) id e'.
Proof.
  intros Hs Hadm id e fold_of Hv Hso Hpm Hc Hsp. pose proof (entry_at_inv s id Hs) as Hinv.
  fold e in Hinv. split; simpl; try done.
  - unfold fold_of in *. congruence.
  - intros x Hx. rewrite Hpm in Hx. apply elem_of_app in Hx as [Hx|Hx]; [by apply Hinv|].
    apply list_elem_of_singleton in Hx as ->. rewrite (adm_model _ _ _ Hadm). by eexists.
  - change (e_doc e') with (view e').1. rewrite Hv. apply canonical_unnamed.
  - unfold lines_of, persist_action; simpl. fold id. rewrite lookup_insert_eq. simpl.
    rewrite omap_app, Hpm. simpl. f_equiv. apply Hinv.
  - apply Hinv.
  - change (e_doc e') with (view e').1. rewrite Hv. apply canonical_doc_id, Hinv.
  - intros Hn x Hx. rewrite Hpm in Hx. rewrite (Hsp Hn). by apply (appended_spaces s a m).
Qed.

(** An action that is not out of order extends a sorted log to a sorted log. *)
Lemma in_order_sorted s a :
  store_inv s -> out_of_order s a = false ->
  sorted_by canon_key (e_log (entry_at s (a_doc_id a)) ++ [a]).
Proof.
  intros Hs Ho. apply sorted_by_snoc_last; [by apply (entry_at_inv s)|]. intros y Hy.
  unfold out_of_order in Ho. unfold entry_at in Hy.
  destruct (i_entries s !! a_doc_id a) as [e0|]; simpl in *; [|done].
  rewrite Hy in Ho. by apply ord_not_ltb_leb.
Qed.

(** An accepted action always settles, into an entry that satisfies the
    invariant once its line is in the log file. *)
Lemma settled_entry_inv s a m :
  store_inv s -> admitted s a m ->
  check_precondition m (e_doc (entry_at s (a_doc_id a))) a = Ok tt ->
  exists e', settled_entry s m a = Ok e' /\
    e_log e' ≡ₚ e_log (entry_at s (a_doc_id a)) ++ [a] /\
    entry_inv (persist_action s a) (a_doc_id a) e'.
Proof.
  intros Hs Hadm Hp. set (id := a_doc_id a). set (e := entry_at s id).
  pose proof (entry_at_inv s id Hs) as Hinv. fold e in Hinv.
  pose proof (admitted_authorized _ _ _ Hadm) as Ha. fold id e in Ha.
  unfold settled_entry. fold id e. destruct (out_of_order s a) eqn:Ho.
  - destruct (refold_entry_ok (i_models s) id (dk_snaps (i_disk s) !! id) (appended e m a))
      as (e' & -> & Hv & Hl & _ & Hsp).
    { rewrite appended_log. intros x [Hx|Hx]%elem_of_app; [by apply Hinv|].
      apply list_elem_of_singleton in Hx as ->. rewrite (adm_model _ _ _ Hadm). by eexists. }
    rewrite appended_log in Hv, Hl, Hsp. exists e'. split; [done|].
    assert (Hpm : e_log e' ≡ₚ e_log e ++ [a]) by (rewrite Hl; apply sort_by_key_perm).
    split; [done|]. apply (settled_inv s a m); [done..|rewrite Hl; apply sort_by_key_sorted|done| |].
    + rewrite Hl. unfold canonical. by rewrite (sort_by_key_id _ _ (sort_by_key_sorted _ _)).
    + intros Hn. rewrite (Hsp Hn). destruct (sort_by_key canon_key (e_log e ++ [a]))
        as [|x l] eqn:El; simpl.
      * exfalso. pose proof (sort_by_key_perm canon_key (e_log e ++ [a])) as P.
        rewrite El in P. apply Permutation_nil_l in P. by destruct (e_log e).
      * apply (appended_spaces s a m); [done..|]. fold id e.
        rewrite <- (sort_by_key_perm canon_key), El. set_solver.
  - exists (appended e m a). split; [done|]. rewrite appended_log. split; [done|].
    pose proof (in_order_sorted s a Hs Ho) as Hso.
    apply (settled_inv s a m); rewrite ?appended_log; try done.
    by apply appended_in_order; [..|apply Hadm|done|done|].
Qed.
End Preservation.

Section PreservationOps.
Context `{Platform}.
Implicit Types (s : Inner) (a : Action) (e : Entry) (m : AnyModel).

(** The snapshot becomes the base, and the emptied log folds to it. *)
Lemma store_inv_snapshot s id : store_inv s -> store_inv (snapshot s id).
Proof.
  intros Hs. unfold snapshot. destruct (i_entries s !! id) as [e|] eqn:E; [|done].
  destruct Hs as [He Hn Hk]. pose proof (He id) as Hinv. rewrite E in Hinv.
  split; [|simpl|done].
  - intros id'. simpl. specialize (He id'). destruct (decide (id' = id)) as [->|Hne].
    + rewrite lookup_insert_eq. destruct Hinv.
      split; simpl; rewrite ?lookup_insert_eq; try done.
      * constructor.
      * unfold canonical, view, lifted; simpl. by rewrite lift_name_id.
      * by intros a Ha%not_elem_of_nil.
      * unfold lines_of; simpl. by rewrite lookup_insert_eq.
      * by intros b [= <-].
    + rewrite lookup_insert_ne by done. case_match.
      * eapply entry_inv_frame; [..|exact He]; simpl; by rewrite ?lookup_insert_ne.
      * simpl. by rewrite !lookup_insert_ne.
  - intros n id' Hl. destruct (decide (id' = id)) as [->|Hne].
    + rewrite lookup_insert_eq. by eexists.
    + rewrite lookup_insert_ne by done. by eapply Hn.
Qed.

Lemma store_inv_sync_names s id : store_inv s -> store_inv (sync_names s id).
Proof.
  intros Hs. destruct (sync_names_frame s id) as (E1 & E2 & _ & _ & Hc).
  destruct Hc as (? & ? & ? & ? & _). eapply store_inv_ext; [..|exact Hs]; try done.
  intros n j. unfold sync_names. destruct (i_entries s !! id) as [e|] eqn:E;
    [|apply (inv_names _ Hs)].
  repeat case_match; simpl; try apply (inv_names _ Hs).
  - intros [_ Hl]%lookup_delete_Some. by eapply (inv_names _ Hs).
  - destruct (decide (n = doc_name (e_doc e))) as [->|Hne].
    + rewrite lookup_insert_eq. intros [= <-]. by eexists.
    + rewrite lookup_insert_ne by done. apply (inv_names _ Hs).
Qed.

Lemma store_inv_persisted s a e any :
  store_inv s -> entry_inv (persist_action s a) (a_doc_id a) e ->
  store_inv (persisted (put_entry s (a_doc_id a) e) a any).
Proof.
  intros Hs Hinv. set (id := a_doc_id a) in *. set (s1 := put_entry s id e).
  destruct (persisted_frame s1 a any) as (E1 & E2 & E3 & (M1 & M2 & M3 & M4 & _) & _).
  assert (H1 : store_inv (persist_action s1 a)).
  { destruct Hs as [He Hn Hk]. split; [|simpl|done].
    - intros id'. simpl. specialize (He id'). destruct (decide (id' = id)) as [->|Hne].
      + rewrite lookup_insert_eq. by eapply entry_inv_frame; [..|exact Hinv].
      + rewrite lookup_insert_ne by done. case_match.
        * eapply entry_inv_frame; [..|exact He]; simpl; try done.
          by rewrite lookup_insert_ne.
        * simpl. by rewrite lookup_insert_ne.
    - intros n id' Hl. destruct (decide (id' = id)) as [->|Hne].
      + rewrite lookup_insert_eq. by eexists.
      + rewrite lookup_insert_ne by done. by eapply Hn. }
  eapply store_inv_ext; [..|exact H1]; try done.
  rewrite E3. apply (inv_names _ H1).
Qed.

Lemma store_inv_maybe_snapshot s id : store_inv s -> store_inv (maybe_snapshot s id).
Proof. intros Hs. unfold maybe_snapshot. case_match; [by apply store_inv_snapshot|done]. Qed.

(** The single apply path keeps the invariant, whatever its result. *)
Lemma store_inv_apply a s : store_inv s -> store_inv (apply_action a s).1.
Proof.
  intros Hs. rewrite apply_action_eq. destruct (admission s a) as [m|] eqn:Ad;
    [|by apply store_inv_quarantine].
  apply admission_ok in Ad. simpl.
  destruct (check_precondition m _ a) as [[]|] eqn:Hp; simpl.
  - destruct (settled_entry_inv s a m Hs Ad Hp) as (e' & -> & _ & Hinv). simpl.
    set (fl := (apply_ops_to_entry (entry_at s (a_doc_id a)) m a).2).
    pose proof (store_inv_persisted s a e' fl.1 Hs Hinv) as H2.
    apply (store_inv_maybe_snapshot _ (a_doc_id a)) in H2.
    apply (store_inv_sync_names _ (a_doc_id a)) in H2.
    set (t := maybe_snapshot _ _) in *.
    destruct (after_apply_frame (put_entry s (a_doc_id a) e') a fl.1 fl.2)
      as (E1 & E2 & (M1 & M2 & M3 & M4 & _) & E3 & _). fold t in E1, E2, E3.
    destruct (sync_names_frame t (a_doc_id a)) as (S1 & S2 & _ & _ & (T1 & T2 & T3 & T4 & _)).
    destruct (maybe_snapshot_frame (persisted (put_entry s (a_doc_id a) e') a fl.1) (a_doc_id a))
      as (_ & _ & _ & (U1 & U2 & U3 & U4 & _)). fold t in U1, U2, U3, U4.
    destruct (persisted_frame (put_entry s (a_doc_id a) e') a fl.1)
      as (_ & _ & _ & (V1 & V2 & V3 & V4 & _) & _).
    eapply store_inv_ext; [..|exact H2]; try congruence.
    rewrite E3. apply (inv_names _ H2).
  - apply store_inv_quarantine, store_inv_put; [done|]. by apply entry_at_inv.
Qed.

(** ** Programs of store operations *)

(** A program that keeps the invariant from every state. *)
Definition keeps_inv {A} (p : storeM A) : Prop := forall s, store_inv s -> store_inv (p s).1.

Lemma keeps_bind {A B} (p : storeM A) (f : A -> storeM B) :
  keeps_inv p -> (forall x, keeps_inv (f x)) -> keeps_inv (p ≫= f).
Proof.
  intros Hp Hf s Hs. rewrite run_bind. specialize (Hp s Hs).
  destruct (p s) as [s' [x|]]; [by apply Hf|done].
Qed.

Lemma keeps_pure {A} (p : storeM A) : (forall s, (p s).1 = s) -> keeps_inv p.
Proof. intros Hp s. by rewrite Hp. Qed.

Lemma keeps_ts_hint {A} (p : storeM A) :
  (forall s, exists t, (p s).1 = set_ts_hint s t) -> keeps_inv p.
Proof.
  intros Hp s Hs. destruct (Hp s) as [t ->].
  eapply store_inv_ext; [..|exact Hs]; try done. apply (inv_names _ Hs).
Qed.

Lemma keeps_apply a : keeps_inv (apply_action a).
Proof. intros s. apply store_inv_apply. Qed.

Lemma keeps_next_ts now : keeps_inv (next_ts now).
Proof. apply keeps_ts_hint. intros s. by eexists. Qed.
End PreservationOps.

#[export] Hint Extern 1 (keeps_inv (_ ≫= _)) => (apply keeps_bind; [|intros ?]) : reactor.
#[export] Hint Resolve keeps_apply keeps_next_ts : reactor.
#[export] Hint Extern 2 (keeps_inv (mret _)) => (apply keeps_pure; done) : reactor.
#[export] Hint Extern 2 (keeps_inv get_state) => (apply keeps_pure; done) : reactor.
#[export] Hint Extern 2 (keeps_inv (lift_res _)) => (apply keeps_pure; done) : reactor.
#[export] Hint Extern 2 (keeps_inv (fail _)) => (apply keeps_pure; done) : reactor.
#[export] Hint Extern 2 (keeps_inv (if _ then _ else _)) => case_match : reactor.

(** ** Every operation of the store *)

Section Steps.
Context `{Platform}.
Implicit Types (s : Inner) (a : Action).

Lemma keeps_build now id model kind payload :
  keeps_inv (build_action now id model kind payload).
Proof. unfold build_action. eauto 10 with reactor. Qed.
Hint Resolve keeps_build : reactor.

Lemma keeps_build_local now name model kind payload :
  keeps_inv (build_local_action now name model kind payload).
Proof. unfold build_local_action. eauto 10 with reactor. Qed.
Hint Resolve keeps_build_local : reactor.

Lemma keeps_apply_local now name model kind payload :
  keeps_inv (apply_local_action now name model kind payload).
Proof. unfold apply_local_action. eauto 10 with reactor. Qed.

Lemma keeps_open_write now name kind payload : keeps_inv (open_write now name kind payload).
Proof. unfold open_write, doc_id_or_err. eauto 10 with reactor. Qed.

Lemma keeps_create_fields now i id fields : keeps_inv (create_fields now i id fields).
Proof.
  revert i. induction fields as [|[f v] fields IH]; intros i; simpl; eauto 10 with reactor.
Qed.
Hint Resolve keeps_create_fields : reactor.

(** A fresh document id. *)
Definition fresh_id s (id : DocId) : Prop := i_entries s !! id = None.

Lemma put_new_inv s id sp :
  store_inv s -> fresh_id s id -> store_inv (put_entry s id (set_space (entry_new id) sp)).
Proof.
  intros Hs Hf. apply store_inv_put; [done|]. pose proof (inv_entries _ Hs id) as He.
  unfold fresh_id in Hf. rewrite Hf in He. destruct He. by apply entry_inv_new.
Qed.

(** A guard in front of a program: it fails without a change, or passes. *)
Lemma guard_inv {A B} (g : storeM A) (f : A -> storeM B) s :
  (g s).1 = s -> store_inv s ->
  (forall x, store_inv (f x s).1) -> store_inv ((g ≫= f) s).1.
Proof.
  intros Hg Hs Hf. rewrite run_bind. destruct (g s) as [s' [x|]]; simpl in Hg; subst; [apply Hf|done].
Qed.

Lemma name_free_pure name s : (name_free name s).1 = s.
Proof. unfold name_free. rewrite run_bind. simpl. by case_match. Qed.

Lemma create_in_space_inv now id name model payload sp s :
  store_inv s -> fresh_id s id ->
  store_inv (create_doc_in_space now id name model payload sp s).1.
Proof.
  intros Hs Hf. unfold create_doc_in_space. apply guard_inv; [done|done|intros _].
  apply guard_inv; [apply name_free_pure|done|intros _]. rewrite run_bind. simpl.
  apply put_new_inv with (sp := sp) in Hf; [|done]. revert Hf.
  match goal with |- _ -> store_inv (?p ?t).1 =>
    assert (K : keeps_inv p) by eauto 10 with reactor; apply K end.
Qed.

Lemma create_space_inv show now id name payload s :
  store_inv s -> store_inv (create_space_at show now id name payload s).1.
Proof.
  intros Hs. unfold create_space_at. apply guard_inv; [done|done|intros _].
  apply guard_inv; [apply name_free_pure|done|intros _]. rewrite run_bind. simpl.
  rewrite run_bind. destruct (decide (is_Some (i_entries s !! id))) as [|Hn]; [done|].
  simpl. rewrite run_bind. simpl. apply eq_None_not_Some in Hn.
  apply put_new_inv with (sp := Some id) in Hn; [|done]. revert Hn.
  match goal with |- _ -> store_inv (?p ?t).1 =>
    assert (K : keeps_inv p) by eauto 10 with reactor; apply K end.
Qed.

(** The entry of a document is never removed. *)
Definition keeps_entry {A} (p : storeM A) : Prop :=
  forall s id, is_Some (i_entries s !! id) -> is_Some (i_entries (p s).1 !! id).

Lemma keeps_entry_bind {A B} (p : storeM A) (f : A -> storeM B) :
  keeps_entry p -> (forall x, keeps_entry (f x)) -> keeps_entry (p ≫= f).
Proof.
  intros Hp Hf s id Hs. rewrite run_bind. specialize (Hp s id Hs).
  destruct (p s) as [s' [x|]]; [by apply Hf|done].
Qed.

Lemma keeps_entry_same {A} (p : storeM A) :
  (forall s, i_entries (p s).1 = i_entries s) -> keeps_entry p.
Proof. intros Hp s id. by rewrite Hp. Qed.

Lemma put_entry_some s id e id' :
  is_Some (i_entries s !! id') -> is_Some (i_entries (put_entry s id e) !! id').
Proof. intros Hs. simpl. by apply lookup_insert_is_Some'; right. Qed.

Lemma maybe_snapshot_some s id id' :
  is_Some (i_entries s !! id') -> is_Some (i_entries (maybe_snapshot s id) !! id').
Proof.
  intros Hs. unfold maybe_snapshot, snapshot. repeat case_match; try done.
  by apply put_entry_some.
Qed.

Lemma keeps_entry_apply a : keeps_entry (apply_action a).
Proof.
  intros s id Hs. rewrite apply_action_eq. destruct (admission s a) as [m|]; [|done]. simpl.
  destruct (check_precondition _ _ _); [|by apply put_entry_some].
  destruct (settled_entry s m a) as [e'|]; [simpl|by apply put_entry_some].
  set (fl := (apply_ops_to_entry (entry_at s (a_doc_id a)) m a).2).
  destruct (after_apply_frame (put_entry s (a_doc_id a) e') a fl.1 fl.2) as (-> & _).
  apply maybe_snapshot_some.
  destruct (persisted_frame (put_entry s (a_doc_id a) e') a fl.1) as (-> & _).
  by apply put_entry_some.
Qed.

Lemma keeps_entry_create_fields now i id fields : keeps_entry (create_fields now i id fields).
Proof.
  revert i. induction fields as [|[f v] fields IH]; intros i; simpl; [by apply keeps_entry_same|].
  apply keeps_entry_bind; [|intros a; apply keeps_entry_bind; [apply keeps_entry_apply|done]].
  apply keeps_entry_same. intros s. unfold build_action. rewrite !run_bind. simpl.
  rewrite run_bind. simpl. by destruct (i_entries s !! id).
Qed.

Lemma create_doc_inv now id name fields s :
  store_inv s -> fresh_id s id -> store_inv (create_doc now id name fields s).1.
Proof.
  intros Hs Hf. unfold create_doc. apply guard_inv; [done|done|intros _].
  apply guard_inv; [apply name_free_pure|done|intros _]. rewrite run_bind. simpl.
  pose proof (put_new_inv s id None Hs Hf) as H1.
  change (set_space (entry_new id) None) with (entry_new id) in H1.
  assert (E1 : is_Some (i_entries (put_entry s id (entry_new id)) !! id))
    by (simpl; rewrite lookup_insert_eq; by eexists).
  revert H1 E1. generalize (put_entry s id (entry_new id)). clear s Hs Hf. intros s H1 E1.
  set (p := (create ← build_action (now 0) id open_ref "create" (field_payload NAME_KEY (Str name));
             _ ← apply_action create; create_fields now 1 id (btree_iter fields))).
  assert (K : keeps_inv p) by (unfold p; eauto 10 with reactor).
  assert (KE : keeps_entry p).
  { unfold p. apply keeps_entry_bind;
      [|intros a; apply keeps_entry_bind; [apply keeps_entry_apply|intros _; apply keeps_entry_create_fields]].
    apply keeps_entry_same. intros t. unfold build_action. rewrite !run_bind. simpl.
    rewrite run_bind. simpl. by destruct (i_entries t !! id). }
  specialize (K s H1). specialize (KE s id E1). unfold p in K, KE.
  rewrite run_bind in K; rewrite run_bind in KE; rewrite run_bind.
  destruct (build_action (now 0) id open_ref "create" (field_payload NAME_KEY (Str name)) s)
    as [s1 [c|]]; [|done].
  rewrite run_bind in K; rewrite run_bind in KE; rewrite run_bind. destruct (apply_action c s1) as [s2 [r|]]; [|done].
  rewrite run_bind. destruct (create_fields now 1 id (btree_iter fields) s2) as [s3 [u|]]; [|done].
  rewrite run_bind. simpl in *. eapply store_inv_ext; [..|exact K]; try done.
  simpl. intros n j. destruct (decide (n = name)) as [->|Hne].
  - rewrite lookup_insert_eq. by intros [= <-].
  - rewrite lookup_insert_ne by done. apply (inv_names _ K).
Qed.
End Steps.

(** The reachable states of a store: it is opened on an empty directory and
    then runs any sequence of its operations, successful or not.  Ids made by
    [DocId::new] are fresh, and a model is registered under a name and version
    that is not taken.  Adopting a state wholesale is not among the steps. *)
Section Reachable.
Context `{Platform}.
Implicit Types (s : Inner) (a : Action).

Definition empty_disk : Disk := {| dk_index := None; dk_snaps := ∅; dk_alogs := ∅ |}.

Inductive step : Inner -> Inner -> Prop :=
  | step_apply s a : step s (apply_action a s).1
  | step_create_doc s now id name fields :
      fresh_id s id -> step s (create_doc now id name fields s).1
  | step_create_in_space s now id name model payload sp :
      fresh_id s id -> step s (create_doc_in_space now id name model payload sp s).1
  | step_create_space s show now id name payload :
      step s (create_space_at show now id name payload s).1
  | step_open_write s now name kind payload :
      step s (open_write now name kind payload s).1
  | step_build_local s now name model kind payload :
      step s (build_local_action now name model kind payload s).1
  | step_apply_local s now name model kind payload :
      step s (apply_local_action now name model kind payload s).1
  | step_register_key s origin key : step s (register_peer_key origin key s).1
  | step_add_model s m :
      i_models s !! (mr_name (ref_ m), mr_version (ref_ m)) = None -> step s (add_model s m)
  | step_snapshot s id : step s (snapshot s id)
  | step_subscribe s : step s (subscribe_changes s)
  | step_connect s : step s (connect_outbound s)
  | step_drain s : step s (drain_outbound s).1.

Inductive reachable : Inner -> Prop :=
  | reach_open key origin extra : reachable (open_inner empty_disk key origin extra)
  | reach_step s s' : reachable s -> step s s' -> reachable s'.

Lemma steps_reachable s s' : rtc step s s' -> reachable s -> reachable s'.
Proof. induction 1 as [|s s1 s2 Hst _ IH]; [done|]. intros Hr. apply IH. by eapply reach_step. Qed.

Lemma open_empty key origin extra :
  open_inner empty_disk key origin extra =
  {| i_disk := {| dk_index := Some 0%N; dk_snaps := ∅; dk_alogs := ∅ |};
     i_key := key; i_origin := origin; i_known_keys := {[origin := verifying_key key]};
     i_entries := ∅; i_names := ∅; i_ts_hint := 0; i_outbound := [];
     i_outbound_feed := None; i_quarantined := 0;
     i_models := foldl reg_insert seeded_with_builtins extra; i_subscribers := [] |}.
Proof. reflexivity. Qed.

Lemma open_empty_inv key origin extra : store_inv (open_inner empty_disk key origin extra).
Proof.
  rewrite open_empty. split; cbn [i_entries i_disk i_names i_known_keys i_origin i_key
    dk_snaps dk_alogs].
  - intros id. by rewrite !lookup_empty.
  - by intros n id ?%lookup_empty_Some.
  - by rewrite lookup_singleton_eq.
Qed.

Lemma register_key_inv origin key s :
  store_inv s -> store_inv (register_peer_key origin key s).1.
Proof.
  intros Hs. unfold register_peer_key. destruct (i_known_keys s !! origin) eqn:E;
    [by case_decide|]. simpl. destruct Hs as [He Hn Hk].
  split; [|done|simpl; rewrite lookup_insert_ne; [done|congruence]].
  intros id. specialize (He id). simpl. case_match; [|done].
  by eapply entry_inv_frame; [..|exact He].
Qed.

Lemma reg_find_fresh r m mref :
  r !! (mr_name (ref_ m), mr_version (ref_ m)) = None ->
  is_Some (reg_find r mref) -> reg_find (reg_insert r m) mref = reg_find r mref.
Proof.
  intros Hf [m' Hm]. unfold reg_find, reg_insert in *. rewrite lookup_insert_ne; [done|].
  intros E. rewrite <- E, Hf in Hm. done.
Qed.

Lemma canonical_registry r r' id base log :
  (forall a, a ∈ log -> reg_find r' (a_model a) = reg_find r (a_model a)) ->
  canonical r' id base log = canonical r id base log.
Proof.
  intros Hr. unfold canonical.
  assert (Hs : forall a, a ∈ sort_by_key canon_key log ->
    reg_find r' (a_model a) = reg_find r (a_model a)).
  { intros a Ha. apply Hr. by rewrite sort_by_key_perm in Ha. }
  revert Hs. generalize (lifted (base_entry id base)).
  induction (sort_by_key canon_key log) as [|a l IH]; intros e Hs; [done|]. simpl.
  unfold canon_step at 2 4. rewrite Hs by set_solver. apply IH. set_solver.
Qed.

Lemma add_model_inv m s :
  i_models s !! (mr_name (ref_ m), mr_version (ref_ m)) = None ->
  store_inv s -> store_inv (add_model s m).
Proof.
  intros Hf [He Hn Hk]. split; [|done..]. intros id. specialize (He id). simpl.
  case_match; [|done]. destruct He as [Hso Hv Hm Hu Hl Hb Hid Hsp].
  split; try done; simpl.
  - rewrite Hv. symmetry. apply canonical_registry. intros a Ha.
    by apply reg_find_fresh, Hm.
  - intros a Ha. rewrite reg_find_fresh; auto.
Qed.

Lemma step_inv s s' : step s s' -> store_inv s -> store_inv s'.
Proof.
  intros Hst Hs. destruct Hst.
  - by apply store_inv_apply.
  - by apply create_doc_inv.
  - by apply create_in_space_inv.
  - by apply create_space_inv.
  - by apply keeps_open_write.
  - by apply keeps_build_local.
  - by apply keeps_apply_local.
  - by apply register_key_inv.
  - by apply add_model_inv.
  - by apply store_inv_snapshot.
  - eapply store_inv_ext; [..|exact Hs]; try done. apply (inv_names _ Hs).
  - eapply store_inv_ext; [..|exact Hs]; try done. apply (inv_names _ Hs).
  - eapply store_inv_ext; [..|exact Hs]; try done. apply (inv_names _ Hs).
Qed.

Lemma reachable_inv s : reachable s -> store_inv s.
Proof. induction 1; [apply open_empty_inv|by eapply step_inv]. Qed.
End Reachable.
