(* ===== verification/StoreProps.v ===== *)
(** Properties of the store: which actions are accepted and what happens to the
    others, convergence of nodes, quorums, pinned keys, local time, read access,
    restart, and the places where the code and its comments part ways. *)

From stdpp Require Import base list gmap strings numbers pretty.
From Stdlib Require Import Strings.Byte Strings.Ascii.
From S2P Require Import Prelude Json Doc Sample Action Model Builtins Entry Redeliver Store StoreInv.

(** ** Lemmas on the checks *)

Section Checks.
Context `{Platform}.
Implicit Types (s : Inner) (a : Action) (m : AnyModel).

(** The key pinned for [o] is valid and satisfies [check]. *)
Definition pinned_key_checks s (o : string) (check : list byte -> bool) : Prop :=
  exists k, i_known_keys s !! o = Some k /\ vk_from_bytes k = Ok tt /\ check k = true.

Lemma check_origin_ok s a :
  check_origin s a = Ok tt <-> pinned_key_checks s (a_origin a) (verify a).
Proof.
  unfold check_origin, pinned_key_checks. rewrite bind_ok. setoid_rewrite ok_or_ok.
  split; intros (k & Hk & Hc); exists k; (split; [done|]).
  - destruct (vk_from_bytes k) as [[]|]; [|done]. by destruct (verify a k).
  - destruct Hc as [-> ->]. done.
Qed.

Lemma check_cosigs_ok s a l i :
  check_cosigs s a i l = Ok tt <->
  forall j cs, l !! j = Some cs ->
    pinned_key_checks s (cs_origin cs) (verify_cosig a (i + j)).
Proof.
  revert i. induction l as [|c l IH]; intros i; simpl; [split; [done|by intros]|].
  rewrite bind_ok. setoid_rewrite ok_or_ok. split.
  - intros (k & Hk & Hc) j cs Hj. destruct (vk_from_bytes k) as [[]|] eqn:V; [|done].
    destruct (verify_cosig a i k) eqn:Vc; [|done].
    destruct j as [|j]; simpl in Hj.
    + injection Hj as <-. exists k. by rewrite Nat.add_0_r.
    + rewrite <- Nat.add_succ_comm. by apply (proj1 (IH (S i)) Hc).
  - intros Hall. destruct (Hall 0 c eq_refl) as (k & Hk & V & Vc).
    rewrite Nat.add_0_r in Vc. exists k. split; [done|]. rewrite V, Vc. apply IH.
    intros j cs Hj. rewrite Nat.add_succ_comm. by apply Hall.
Qed.

(** The endorsers are the members among the origin and the co-signers. *)
Lemma endorsers_spec members a :
  endorsers members a = ({[a_origin a]} ∪ list_to_set (cs_origin <$> a_cosig a)) ∩ members.
Proof.
  unfold endorsers.
  assert (Hgen : forall l acc, foldl (fun seen o => if decide (o ∈ members)
      then {[o]} ∪ seen else seen) acc l = acc ∪ (list_to_set l ∩ members)).
  { induction l as [|o l IH]; intros acc; simpl; [set_solver|].
    rewrite IH. case_decide; set_solver. }
  rewrite Hgen. set_solver.
Qed.

(** The document a quorum names, as [quorum_problem] finds it. *)
Definition quorum_doc s (spec : QuorumSpec) a : option Doc :=
  match quorum_group s spec a with
  | Err _ => None
  | Ok g => id ← i_names s !! g; e ← i_entries s !! id; Some (doc_live (e_doc e))
  end.

Lemma quorum_met s spec a :
  quorum_problem s spec a = None <->
  exists gd, quorum_doc s spec a = Some gd /\
    (q_min spec <= N.of_nat (size (endorsers (group_members gd (q_field spec)) a)))%N.
Proof.
  unfold quorum_problem, quorum_doc. destruct (quorum_group s spec a) as [g|]; [|naive_solver].
  destruct (i_names s !! g) as [id|]; simpl; [|naive_solver].
  destruct (i_entries s !! id) as [e|]; simpl; [|naive_solver].
  case_match eqn:L; [apply N.ltb_lt in L|apply N.ltb_ge in L].
  - split; [done|]. intros (gd & [= <-] & ?). lia.
  - split; [|done]. intros _. by eexists.
Qed.

Lemma check_quorum_ok s m a :
  check_quorum s m a = Ok tt <->
  forall spec, quorum m (a_kind a) = Some spec -> quorum_problem s spec a = None.
Proof.
  unfold check_quorum. destruct (quorum m (a_kind a)) as [spec|]; [|naive_solver].
  split.
  - intros Hq spec' [= <-]. by destruct (quorum_problem s spec a).
  - intros Hq. by rewrite (Hq spec).
Qed.

(** The space the membership check consults. *)
Definition effective_space s a : option DocId :=
  match a_space a with Some sp => Some sp | None => i_entries s !! a_doc_id a ≫= e_space end.

Lemma check_space_member_ok s m a :
  check_space_member s m a = Ok tt <->
  forall list, requires_space_member m (a_kind a) = Some list ->
    exists sp e, effective_space s a = Some sp /\ i_entries s !! sp = Some e /\
                 a_origin a ∈ list_of (e_doc e) list.
Proof.
  unfold check_space_member. destruct (requires_space_member m (a_kind a)) as [l|];
    [|naive_solver]. fold (effective_space s a).
  destruct (effective_space s a) as [sp|]; [|naive_solver].
  destruct (i_entries s !! sp) as [e|] eqn:E; [|naive_solver].
  destruct (existsb _ _) eqn:X.
  - split; [|done]. intros _ l' [= <-]. exists sp, e. split_and!; [done..|].
    apply existsb_exists in X as (x & Hx & ->%bool_decide_eq_true). by apply list_elem_of_In.
  - split; [done|]. intros Hl. destruct (Hl l eq_refl) as (sp' & e' & [= <-] & He & Hin).
    rewrite E in He. injection He as <-.
    assert (X' : existsb (fun x => bool_decide (x = a_origin a)) (list_of (e_doc e) l) = true).
    { apply existsb_exists. exists (a_origin a). split; [by apply list_elem_of_In|].
      by apply bool_decide_eq_true. }
    congruence.
Qed.
End Checks.

(** ** Properties *)

Section Properties.
Context `{Platform}.
Implicit Types (s : Inner) (a : Action) (m : AnyModel).

(** C2. Every document of a reachable store is the canonical fold of its live
    log from its snapshot: the log is in canonical order, the document and
    its deleted flag are what [refold] would compute from the log, the log
    file holds the same actions, and the reserved name field is never in the
    field map.  Preserved by every operation, failing ones included. *)
Theorem documents_are_canonical s id e :
  reachable s -> i_entries s !! id = Some e ->
  sorted_by canon_key (e_log e) /\
  view e = canonical (i_models s) id (dk_snaps (i_disk s) !! id) (e_log e) /\
  omap (fun l => l) (default [] (dk_alogs (i_disk s) !! id)) ≡ₚ e_log e /\
  doc_fields (e_doc e) !! NAME_KEY = None.
Proof.
  intros Hr He. pose proof (inv_entries _ (reachable_inv s Hr) id) as Hi.
  rewrite He in Hi. destruct Hi. done.
Qed.


(** C5. The gate: [apply_action] succeeds on a reachable store exactly for the
    actions that are admitted and whose precondition holds on the current
    document.  In particular a re-fold never fails. *)
Theorem accepted_iff s a :
  reachable s ->
  (exists r, (apply_action a s).2 = Ok r) <->
  exists m, admission s a = Ok m /\
    check_precondition m (e_doc (entry_at s (a_doc_id a))) a = Ok tt.
Proof.
  intros Hr%reachable_inv. rewrite apply_action_eq. split.
  - intros [r Hok]. destruct (admission s a) as [m|]; [|done]. exists m. split; [done|]. simpl in Hok.
    by destruct (check_precondition m _ a) as [[]|].
  - intros (m & Ad & Hp). rewrite Ad. simpl. rewrite Hp.
    apply admission_ok in Ad. destruct (settled_entry_inv s a m Hr Ad Hp) as (e' & -> & _).
    by eexists.
Qed.

(** C3. Authentication and authorization: an accepted action is signed by the
    key pinned for its origin, every co-signature by the key pinned for its
    co-signer; its model is loaded under the action's reference; its payload
    fits; a declared quorum has enough distinct members among the signers;
    the model's own rule passes on the current document; a declared space
    list names the actor; and an action on a document that has history
    carries the document's space. *)
Theorem accepted_action_sound s a r :
  (apply_action a s).2 = Ok r ->
  pinned_key_checks s (a_origin a) (verify a) /\
  (forall i cs, a_cosig a !! i = Some cs ->
     pinned_key_checks s (cs_origin cs) (verify_cosig a i)) /\
  exists m, reg_find (i_models s) (a_model a) = Some m /\
    validate_payload m (a_kind a) (a_payload a) = Ok tt /\
    (forall spec, quorum m (a_kind a) = Some spec ->
       exists gd, quorum_doc s spec a = Some gd /\
         (q_min spec <= N.of_nat (size
            ((({[a_origin a]} ∪ list_to_set (cs_origin <$> a_cosig a)) : gset string)
             ∩ group_members gd (q_field spec))))%N) /\
    authorize m (e_doc (entry_at s (a_doc_id a))) a = Ok tt /\
    check_precondition m (e_doc (entry_at s (a_doc_id a))) a = Ok tt /\
    (forall list, requires_space_member m (a_kind a) = Some list ->
       exists sp e, effective_space s a = Some sp /\ i_entries s !! sp = Some e /\
                    a_origin a ∈ list_of (e_doc e) list) /\
    (forall e, i_entries s !! a_doc_id a = Some e -> e_log e <> [] ->
       e_space e = a_space a).
Proof.
  rewrite apply_action_eq. destruct (admission s a) as [m|] eqn:Ad; [|done]. simpl.
  destruct (check_precondition m _ a) as [[]|] eqn:Hp; [|done]. intros _.
  apply admission_ok in Ad. pose proof (admitted_authorized _ _ _ Ad) as Hau.
  destruct Ad as [Ho Hc Hm Hv Hq _ Hsp Hb].
  split; [by apply check_origin_ok|]. split; [exact (proj1 (check_cosigs_ok s a _ 0) Hc)|].
  exists m. split_and!; try done.
  - intros spec Hspec. destruct (proj1 (quorum_met s spec a)) as (gd & Hgd & Hmin);
      [by apply (proj1 (check_quorum_ok s m a) Hq)|].
    exists gd. by rewrite <- endorsers_spec.
  - by apply check_space_member_ok.
  - intros e He Hlog. unfold check_space_binding in Hb. rewrite He in Hb.
    rewrite (bool_decide_eq_false_2 _ Hlog) in Hb. simpl in Hb.
    by case_bool_decide.
Qed.

End Properties.

(** ** Relations every operation respects *)

Section Respect.
Context `{Platform} (R : Inner -> Inner -> Prop) `{!PreOrder R}.
Implicit Types (s : Inner) (a : Action).

Definition respects {A} (p : storeM A) : Prop := forall s, R s (p s).1.

Lemma respects_bind {A B} (p : storeM A) (f : A -> storeM B) :
  respects p -> (forall x, respects (f x)) -> respects (p ≫= f).
Proof.
  intros Hp Hf s. rewrite run_bind. specialize (Hp s).
  destruct (p s) as [s' [x|]]; [|done]. simpl in Hp. by etrans; [|apply Hf].
Qed.

Lemma respects_pure {A} (p : storeM A) : (forall s, (p s).1 = s) -> respects p.
Proof. intros Hp s. by rewrite Hp. Qed.

(** It suffices to check the primitive steps. *)
Context (Hput : forall s id e, R s (put_entry s id e)).
Context (Hts : forall s t, R s (set_ts_hint s t)).
Context (Hnames : forall s l, R s (set_names s l)).
Context (Happly : forall a, respects (apply_action a)).

Lemma respects_build now id model kind payload :
  respects (build_action now id model kind payload).
Proof.
  unfold build_action. apply respects_bind; [intros s; apply Hts|intros ts].
  apply respects_bind; [by apply respects_pure|intros t].
  apply respects_bind; [by apply respects_pure|intros e]. by apply respects_pure.
Qed.

Lemma respects_open_write now name kind payload : respects (open_write now name kind payload).
Proof.
  unfold open_write, doc_id_or_err. apply respects_bind.
  { apply respects_bind; [by apply respects_pure|intros t]. by apply respects_pure. }
  intros id. apply respects_bind; [apply respects_build|intros a].
  apply respects_bind; [apply Happly|intros r]. by apply respects_pure.
Qed.

Lemma respects_build_local now name model kind payload :
  respects (build_local_action now name model kind payload).
Proof.
  unfold build_local_action. apply respects_bind; [by apply respects_pure|intros t].
  apply respects_bind; [by apply respects_pure|intros id]. apply respects_build.
Qed.

Lemma respects_apply_local now name model kind payload :
  respects (apply_local_action now name model kind payload).
Proof.
  unfold apply_local_action. apply respects_bind; [apply respects_build_local|intros a].
  apply respects_bind; [apply Happly|intros r]. by apply respects_pure.
Qed.

Lemma respects_create_fields now i id fields : respects (create_fields now i id fields).
Proof.
  revert i. induction fields as [|[f v] fields IH]; intros i; simpl; [by apply respects_pure|].
  apply respects_bind; [apply respects_build|intros a].
  apply respects_bind; [apply Happly|intros r]. apply IH.
Qed.

Lemma respects_guard name : respects (name_free name).
Proof. apply respects_pure. intros s. apply name_free_pure. Qed.

Lemma respects_create_doc now id name fields : respects (create_doc now id name fields).
Proof.
  unfold create_doc. apply respects_bind; [by apply respects_pure|intros _].
  apply respects_bind; [apply respects_guard|intros _].
  apply respects_bind; [intros s; apply Hput|intros _].
  apply respects_bind; [apply respects_build|intros a].
  apply respects_bind; [apply Happly|intros r].
  apply respects_bind; [apply respects_create_fields|intros _].
  apply respects_bind; [intros s; apply Hnames|intros _]. by apply respects_pure.
Qed.

Lemma respects_create_in_space now id name model payload sp :
  respects (create_doc_in_space now id name model payload sp).
Proof.
  unfold create_doc_in_space. apply respects_bind; [by apply respects_pure|intros _].
  apply respects_bind; [apply respects_guard|intros _].
  apply respects_bind; [intros s; apply Hput|intros _].
  apply respects_bind; [apply respects_build|intros a].
  apply respects_bind; [apply Happly|intros r]. by apply respects_pure.
Qed.

Lemma respects_create_space show now id name payload :
  respects (create_space_at show now id name payload).
Proof.
  unfold create_space_at. apply respects_bind; [by apply respects_pure|intros _].
  apply respects_bind; [apply respects_guard|intros _].
  apply respects_bind; [by apply respects_pure|intros t].
  apply respects_bind; [by case_decide; apply respects_pure|intros _].
  apply respects_bind; [intros s; apply Hput|intros _].
  apply respects_bind; [apply respects_build|intros a].
  apply respects_bind; [apply Happly|intros r]. by apply respects_pure.
Qed.

(** The remaining steps of the store. *)
Context (Hreg : forall o k, respects (register_peer_key o k)).
Context (Hmodel : forall s m, R s (add_model s m)).
Context (Hsnap : forall s id, R s (snapshot s id)).
Context (Hsub : forall s, R s (subscribe_changes s) /\ R s (connect_outbound s) /\
                          R s (drain_outbound s).1).

Lemma respects_step s s' : step s s' -> R s s'.
Proof.
  destruct 1.
  - apply Happly.
  - apply respects_create_doc.
  - apply respects_create_in_space.
  - apply respects_create_space.
  - apply respects_open_write.
  - apply respects_build_local.
  - apply respects_apply_local.
  - apply Hreg.
  - apply Hmodel.
  - apply Hsnap.
  - apply Hsub.
  - apply Hsub.
  - apply Hsub.
Qed.
End Respect.

(** ** Keys, names, time and local actions *)

Section Local.
Context `{Platform}.
Implicit Types (s : Inner) (a : Action).

(** Keys already pinned stay pinned to the same bytes. *)
Definition keys_kept s s' : Prop := i_known_keys s ⊆ i_known_keys s'.
#[local] Instance keys_kept_preorder : PreOrder keys_kept.
Proof. split; unfold keys_kept; [by intros s|intros a b c; apply transitivity]. Qed.

Lemma apply_keys a s : i_known_keys (apply_action a s).1 = i_known_keys s.
Proof.
  rewrite apply_action_eq. destruct (admission s a) as [m|]; [|done]. simpl.
  destruct (check_precondition _ _ _); [|done].
  destruct (settled_entry s m a) as [e'|]; [simpl|done].
  set (fl := (apply_ops_to_entry (entry_at s (a_doc_id a)) m a).2).
  destruct (after_apply_frame (put_entry s (a_doc_id a) e') a fl.1 fl.2)
    as (_ & _ & (_ & -> & _) & _). done.
Qed.

Lemma step_keys s s' : step s s' -> keys_kept s s'.
Proof.
  apply respects_step; try (intros; unfold keys_kept; done).
  - apply _.
  - intros a t. unfold keys_kept. by rewrite apply_keys.
  - intros o k t. unfold keys_kept, register_peer_key.
    destruct (i_known_keys t !! o) eqn:E; [by case_decide|]. by apply insert_subseteq.
  - intros t id. unfold keys_kept, snapshot. by case_match.
Qed.

(** Trust on first use: once a key is pinned for an origin, no sequence of
    store operations replaces it, and registering a different key for that
    origin is an error that changes nothing. *)
Theorem pinned_keys_permanent s s' o k k' :
  i_known_keys s !! o = Some k -> rtc step s s' ->
  i_known_keys s' !! o = Some k /\
  (k' <> k -> exists msg, register_peer_key o k' s' = (s', Err msg)).
Proof.
  intros Hk Hst. assert (Hk' : i_known_keys s' !! o = Some k).
  { revert Hk. induction Hst as [|x y z Hxy _ IH]; [done|].
    intros Hk. apply IH. by eapply lookup_weaken; [|apply step_keys]. }
  split; [done|]. intros Hne. unfold register_peer_key. rewrite Hk'.
  rewrite decide_False by done. by eexists.
Qed.

(** The new timestamp, below the [u64] limit. *)
Lemma next_ts_spec now s :
  (i_ts_hint s + 1 < U64_MOD)%N -> (now + 1 < U64_MOD)%N ->
  exists t, next_ts now s = (set_ts_hint s t, Ok t) /\ (i_ts_hint s < t)%N /\ (now < t)%N.
Proof.
  intros Hh Hn. unfold next_ts. eexists. split; [reflexivity|].
  unfold u64_succ, wrap64. rewrite (N.mod_small now) by lia. rewrite N.mod_small by lia. lia.
Qed.

(** A local action is well formed: on a reachable store, building an
    action for a named document succeeds (the lookup the code unwraps cannot
    fail), its timestamp is above every earlier one of this node and above
    the clock, its vector clock strictly advances the document's, it chains
    to the last logged action, and it passes the store's own signature and
    space checks. *)
Theorem local_action_wellformed `{!PlatformLaws} s now name id model kind payload :
  reachable s -> i_names s !! name = Some id ->
  (i_ts_hint s + 1 < U64_MOD)%N -> (now + 1 < U64_MOD)%N ->
  exists e s' a, i_entries s !! id = Some e /\
    build_local_action now name model kind payload s = (s', Ok a) /\
    (i_ts_hint s < a_ts a)%N /\ (now < a_ts a)%N /\ i_ts_hint s' = a_ts a /\
    a_prev_hash a = hash <$> last (e_log e) /\ a_doc_id a = id /\
    a_clock a = (vc_tick (e_clock e) (i_origin s)).1 /\
    check_origin s' a = Ok tt /\ check_cosigs s' a 0 (a_cosig a) = Ok tt /\
    check_space_binding s' a = Ok tt.
Proof.
  intros Hr%reachable_inv Hn Hh Hw. destruct (inv_names _ Hr _ _ Hn) as [e He].
  destruct (next_ts_spec now s Hh Hw) as (t & Ht & L1 & L2).
  pose (a0 := {| a_doc_id := id; a_model := canonical_model_ref s model; a_kind := kind;
                a_payload := payload; a_ts := t;
                a_clock := (vc_tick (e_clock e) (i_origin s)).1;
                a_origin := i_origin s; a_cosig := [];
                a_prev_hash := hash <$> last (e_log e);
                a_space := e_space e; a_sig := replicate 64 x00 |}).
  exists e, (set_ts_hint s t), (sign a0 (i_key s)). split; [done|].
  split. { unfold build_local_action. rewrite run_bind. simpl. rewrite run_bind. rewrite Hn. simpl.
    unfold build_action. rewrite run_bind, Ht. rewrite run_bind. simpl.
    rewrite run_bind. rewrite He. done. }
  split_and!; try done.
  - apply check_origin_ok. exists (verifying_key (i_key s)). split_and!.
    + apply (inv_own_key _ Hr).
    + apply vk_valid.
    + apply verify_sign.
  - unfold check_space_binding. simpl. rewrite He. rewrite (bool_decide_eq_true_2 (e_space e = e_space e)) by done.
    by rewrite andb_false_r.
Qed.

(** Names are what the rule says: 1 to 64 bytes, each a lower-case letter,
    a digit, a dash, an underscore or a dot, the first not a dot. *)
Theorem validate_name_exact name :
  validate_name name = Ok tt <->
  (1 <= slen name <= 64)%nat /\
  (forall c, c ∈ String.list_ascii_of_string name -> name_char_ok c = true) /\
  String.prefix "." name = false.
Proof.
  unfold validate_name, MAX_NAME_LEN. split.
  - destruct (bool_decide (name = "") || (64 <? slen name)%nat) eqn:E1; [done|].
    apply orb_false_iff in E1 as [E1%bool_decide_eq_false E2%Nat.ltb_ge].
    destruct (forallb _ _) eqn:E3; [|done]. destruct (String.prefix "." name) eqn:E4; [done|].
    intros _. split_and!; try done.
    + destruct name; [done|]. unfold slen; simpl; lia.
    + intros c Hc%list_elem_of_In. rewrite forallb_forall in E3. by apply E3.
  - intros ([L1 L2] & Hc & ->).
    rewrite (bool_decide_eq_false_2 (name = "")) by (intros ->; unfold slen in L1; simpl in L1; lia).
    rewrite (proj2 (Nat.ltb_ge 64 (slen name))) by done. simpl.
    rewrite (proj2 (forallb_forall _ _)); [done|]. intros c Hin%list_elem_of_In. by apply Hc.
Qed.

End Local.

(** ** Deletion, spaces and restart *)

Section Durable.
Context `{Platform}.
Implicit Types (s : Inner) (a : Action) (e : Entry) (r : ModelRegistry).

(** The actions that delete a document: an open-model action without a field. *)
Definition deletes r a : bool :=
  match reg_find r (a_model a) with
  | Some (MOpen _) => bool_decide (vget (a_payload a) "field" ≫= as_str = None)
  | _ => false
  end.

Lemma apply_ops_deleted_keyed e m a ops :
  reduce m (e_doc e) a = Ok ops -> (forall o, o ∈ ops -> is_Some (op_key o)) ->
  e_deleted (apply_ops_to_entry e m a).1 = e_deleted e.
Proof.
  intros R Hk. rewrite apply_ops_spec, R. destruct (e_deleted e).
  - by rewrite merge_loop_deleted.
  - destruct (merge_loop_keyed (restamp a <$> ops) (e_doc e) false) as [any ->]; [|done].
    intros o (x & -> & Hx)%list_elem_of_fmap. exact (Hk x Hx).
Qed.

Lemma canon_step_deleted r e a :
  e_deleted (canon_step r e a) = e_deleted e || deletes r a.
Proof.
  unfold canon_step, deletes. destruct (reg_find r (a_model a)) as [[o|l]|];
    [| |by rewrite orb_false_r].
  - unfold refold_step. change (is_ok (check_precondition (MOpen o) (e_doc e) a)) with true.
    change (is_ok (authorize (MOpen o) (e_doc e) a)) with true. simpl.
    destruct (vget (a_payload a) "field" ≫= as_str) as [f|] eqn:F.
    + rewrite (bool_decide_eq_false_2 (Some f = None)) by done. rewrite orb_false_r.
      eapply apply_ops_deleted_keyed; [reflexivity|]. intros op Hop%list_elem_of_singleton.
      subst. simpl. rewrite F. by eexists.
    + rewrite bool_decide_eq_true_2 by done. rewrite orb_true_r, apply_ops_spec.
      change (reduce (MOpen o) (e_doc e) a) with (open_reduce a). unfold open_reduce. rewrite F.
      cbn. by destruct (e_deleted e).
  - rewrite orb_false_r. unfold refold_step. case_match; [|done]. simpl.
    destruct (reduce (ML1 l) (e_doc e) a) as [ops|] eqn:R.
    + eapply apply_ops_deleted_keyed; [exact R|].
      change (reduce (ML1 l)) with (l1_reduce l) in R.
      apply l1_reduce_ok in R as (rd & _ & HF). rewrite Forall_forall in HF.
      intros op Hop. destruct (HF op Hop) as (_ & f & w & v & -> & _). by eexists.
    + by rewrite apply_ops_spec, R.
Qed.

Lemma canonical_deleted r id base log :
  (canonical r id base log).2 = e_deleted (base_entry id base) || existsb (deletes r) log.
Proof.
  unfold canonical. simpl. trans (e_deleted (base_entry id base) ||
    existsb (deletes r) (sort_by_key canon_key log)).
  - change (e_deleted (base_entry id base)) with (e_deleted (lifted (base_entry id base))).
    generalize (lifted (base_entry id base)).
    induction (sort_by_key canon_key log) as [|a l IH]; intros e; simpl;
      [by rewrite orb_false_r|]. by rewrite IH, canon_step_deleted, orb_assoc.
  - f_equal. apply eq_true_iff_eq. rewrite !existsb_exists. setoid_rewrite <- list_elem_of_In.
    by setoid_rewrite (sort_by_key_perm canon_key log).
Qed.

(** A document is deleted exactly when its snapshot was or its live log
    holds an open-model delete, wherever that action sorts: deletion does not
    depend on the order of arrival, and no action of any model undoes it. *)
Theorem deleted_iff_logged s id e :
  reachable s -> i_entries s !! id = Some e ->
  e_deleted e = true <->
  (exists b, dk_snaps (i_disk s) !! id = Some b /\ ds_deleted b = true) \/
  (exists a, a ∈ e_log e /\ deletes (i_models s) a = true).
Proof.
  intros Hr%reachable_inv He. pose proof (inv_entries _ Hr id) as Hi. rewrite He in Hi.
  change (e_deleted e) with (view e).2. rewrite (inv_view _ _ _ Hi), canonical_deleted.
  rewrite orb_true_iff, existsb_exists. setoid_rewrite <- list_elem_of_In.
  destruct (dk_snaps (i_disk s) !! id) as [b|]; simpl; naive_solver.
Qed.

(** C22. A document does not move between spaces: in a reachable store, while a
    document has history and no snapshot, every logged action carries the
    document's space, an action that names another space is refused, and the
    space is the same after any action, out-of-order ones included. *)
Theorem space_is_fixed s a id e :
  reachable s -> i_entries s !! id = Some e -> e_log e <> [] ->
  dk_snaps (i_disk s) !! id = None -> (N.of_nat (length (e_log e)) + 1 < SNAPSHOT_OPS)%N ->
  (forall x, x ∈ e_log e -> a_space x = e_space e) /\
  (a_doc_id a = id -> a_space a <> e_space e -> is_ok (apply_action a s).2 = false) /\
  exists e', i_entries (apply_action a s).1 !! id = Some e' /\ e_space e' = e_space e.
Proof.
  intros Hr He Hl Hn Hlen. pose proof (reachable_inv s Hr) as Hs.
  pose proof (inv_entries _ Hs id) as Hi. rewrite He in Hi.
  split; [by apply (inv_space _ _ _ Hi)|]. rewrite apply_action_eq.
  destruct (admission s a) as [m|] eqn:Ad; [|split; [done|by exists e]].
  apply admission_ok in Ad.
  destruct (decide (a_doc_id a = id)) as [Hid|Hid].
  - assert (Hea : entry_at s (a_doc_id a) = e) by (unfold entry_at; by rewrite Hid, He).
    pose proof (admitted_space _ _ _ Ad) as Hsp. rewrite Hea in Hsp. specialize (Hsp Hl).
    split; [by intros _ ?|]. simpl. rewrite Hea, Hid.
    destruct (check_precondition m (e_doc e) a) as [[]|] eqn:Hp; simpl;
      [|exists e; by rewrite lookup_insert_eq].
    destruct (settled_entry_inv s a m Hs Ad) as (e' & -> & Hpm & Hinv'); [by rewrite Hea|].
    rewrite Hea in Hpm. simpl. set (fl := (apply_ops_to_entry e m a).2).
    destruct (after_apply_frame (put_entry s id e') a fl.1 fl.2) as (-> & _).
    exists e'. rewrite Hid. unfold maybe_snapshot.
    destruct (persisted_frame (put_entry s id e') a fl.1) as (-> & _).
    assert (El : i_entries (put_entry s id e') !! id = Some e')
      by (simpl; by rewrite lookup_insert_eq).
    rewrite El. simpl. rewrite (proj2 (N.leb_gt _ _)).
    + destruct (persisted_frame (put_entry s id e') a fl.1) as (-> & _). split; [done|].
      rewrite Hid in Hinv'. rewrite <- (inv_space _ _ _ Hinv' Hn a); [done|].
      rewrite Hpm. set_solver.
    + rewrite Hpm, length_app. simpl. lia.
  - split; [done|]. simpl. exists e. split; [|done].
    destruct (check_precondition m _ a) as [[]|] eqn:Hp; simpl;
      [|by rewrite lookup_insert_ne].
    destruct (settled_entry_inv s a m Hs Ad Hp) as (e' & -> & _ & _). simpl.
    set (fl := (apply_ops_to_entry _ m a).2).
    destruct (after_apply_frame (put_entry s (a_doc_id a) e') a fl.1 fl.2) as (-> & _).
    unfold maybe_snapshot, snapshot.
    destruct (persisted_frame (put_entry s (a_doc_id a) e') a fl.1) as (Ep & _).
    rewrite !Ep. simpl. rewrite lookup_insert_eq. simpl. case_match; simpl.
    + rewrite Ep. simpl. by rewrite !lookup_insert_ne.
    + rewrite Ep. simpl. by rewrite !lookup_insert_ne.
Qed.

(** C24. Restart: for a document of a reachable store whose actions all count at
    their canonical position, rebuilding it from the snapshot and the log
    file gives the same document and deleted flag. *)
Theorem restart_rebuilds s id e :
  reachable s -> i_entries s !! id = Some e -> key_inj canon_key (e_log e) ->
  none_skipped (i_models s) (lifted (base_entry id (dk_snaps (i_disk s) !! id))) (e_log e) ->
  let e' := replay_entry (i_models s) id (dk_snaps (i_disk s) !! id)
              (default [] (dk_alogs (i_disk s) !! id)) in
  e_doc e' = e_doc e /\ e_deleted e' = e_deleted e.
Proof.
  intros Hr%reachable_inv He Hk Hns e'. pose proof (inv_entries _ Hr id) as Hi.
  rewrite He in Hi. destruct Hi as [Hso Hv _ _ Hl Hb _ _]. fold (lines_of s id) in e'.
  assert (Hsort : sort_by_key canon_key (omap (fun l => l) (lines_of s id)) = e_log e).
  { rewrite <- (sort_by_key_id _ _ Hso). symmetry. apply sort_by_key_unique; [by rewrite Hl|done]. }
  assert (V : view e' = view e).
  { rewrite Hv. unfold e'. rewrite restart_restores; [|done|by rewrite Hsort].
    symmetry. by apply canonical_perm. }
  by injection V.
Qed.
End Durable.
