(* ===== verification/Apps.v ===== *)
(** The shipped models at work: what their definitions guarantee once the
    interpreter and the store run them.  Chat messages stay parallel, a space's
    tier comes from its [init] actions alone, a group post passes exactly the
    membership and private-channel gates, and a new manager needs two members. *)

From stdpp Require Import base list gmap strings numbers pretty.
From Stdlib Require Import Strings.Byte.
From S2P Require Import Prelude Json Doc Sample Action Model Builtins Entry Redeliver Store.
From S2P Require Import StoreInv StoreProps.

(** ** One field through the merge *)

(** How a keyed write changes one field of the map. *)
Definition merge_slot (cur : option Field) (op : Op) : option Field :=
  match cur with
  | None => match op_value op with Some _ => Some (field_from_op op) | None => None end
  | Some f => if replaces f (op_clock op) (stamp op) then Some (field_from_op op) else Some f
  end.

Lemma merge_field_slot m k op : (merge_field m k op).1 !! k = merge_slot (m !! k) op.
Proof.
  unfold merge_slot. destruct (m !! k) as [f|] eqn:E.
  - rewrite (merge_field_present _ _ _ _ E). case_match; simpl; by rewrite ?lookup_insert_eq.
  - rewrite (merge_field_absent _ _ _ E). case_match; simpl; by rewrite ?lookup_insert_eq.
Qed.

Section Slots.
Context `{Platform}.
Implicit Types (e : Entry) (a : Action).

(** The fields after a list of writes, one field at a time. *)
Lemma merge_fields_slot ops m j :
  (forall o, o ∈ ops -> is_Some (op_key o)) ->
  merge_fields m ops !! j
  = foldl merge_slot (m !! j) (filter (fun o => op_key o = Some j) ops).
Proof.
  revert m. induction ops as [|o ops IH]; intros m Hk; [done|].
  destruct (Hk o) as [k Ek]; [set_solver|]. simpl. rewrite Ek, IH by set_solver.
  rewrite filter_cons. destruct (decide (op_key o = Some j)) as [E|E].
  - simpl. assert (k = j) as -> by congruence. by rewrite merge_field_slot.
  - rewrite merge_field_other; [done|congruence].
Qed.

(** Applying the operations of an interpreted action to a live document
    changes each field by its own writes only. *)
Lemma apply_ops_slot e m a ops j :
  reduce m (e_doc e) a = Ok ops -> (forall o, o ∈ ops -> is_Some (op_key o)) ->
  j <> NAME_KEY ->
  doc_fields (e_doc (apply_ops_to_entry e m a).1) !! j =
  if e_deleted e then doc_fields (e_doc e) !! j
  else foldl merge_slot (doc_fields (e_doc e) !! j)
         (filter (fun o => op_key o = Some j) (restamp a <$> ops)).
Proof.
  intros R Hk Hj. rewrite apply_ops_spec, R.
  assert (Hlift : forall d, doc_fields (lift_name d) !! j = doc_fields d !! j).
  { intros d. unfold lift_name. case_match; simpl; [by rewrite lookup_delete_ne|done]. }
  assert (Hk' : forall o, o ∈ restamp a <$> ops -> is_Some (op_key o)).
  { intros o (x & -> & Hx)%list_elem_of_fmap. exact (Hk x Hx). }
  destruct (e_deleted e).
  - rewrite merge_loop_deleted. simpl. apply Hlift.
  - destruct (merge_loop_keyed (restamp a <$> ops) (e_doc e) false Hk') as [any ->].
    simpl. rewrite Hlift. simpl. by apply merge_fields_slot.
Qed.

(** The kinds a definition declares, in key order. *)
Definition kinds (m : AnyModel) : list string :=
  match m with
  | MOpen _ => []
  | ML1 l => (default [] (as_object (l1_reducers l))).*1
  end.

Lemma reduce_known_kind l d a ops : reduce (ML1 l) d a = Ok ops -> a_kind a ∈ kinds (ML1 l).
Proof.
  change (reduce (ML1 l)) with (l1_reduce l). intros (rd & Hr & _)%l1_reduce_ok.
  unfold reducer, vget in Hr. simpl. destruct (l1_reducers l); try done. simpl.
  by eapply obj_lookup_key.
Qed.

Lemma l1_keyed l d a ops o :
  reduce (ML1 l) d a = Ok ops -> o ∈ ops -> is_Some (op_key o).
Proof.
  change (reduce (ML1 l)) with (l1_reduce l). intros (rd & _ & HF)%l1_reduce_ok Ho.
  rewrite Forall_forall in HF. destruct (HF o Ho) as (_ & f & w & v & -> & _). by eexists.
Qed.
End Slots.

(** ** Chat (src/model/chat.rs) *)

Section Chat.
Context `{Platform}.
Implicit Types (e : Entry) (a : Action) (d : Doc).

(** The bookkeeping of a field and the length of its array. *)
Definition shape (f : Field) : VecClock * (N * string) * nat :=
  (fld_version f, (fld_ts f, fld_origin f),
   if fld_deleted f then 0 else default 0 (length <$> as_array (fld_value f))).

Definition parallel d : Prop :=
  shape <$> doc_fields d !! "msg_from" = shape <$> doc_fields d !! "msg_text" /\
  shape <$> doc_fields d !! "msg_text" = shape <$> doc_fields d !! "msg_ts".

Lemma array_length_shape d k :
  length (current_array d k) = default 0 (snd <$> (shape <$> doc_fields d !! k)).
Proof.
  unfold current_array, current_value, shape. destruct (doc_fields d !! k) as [f|]; [|done].
  simpl. destruct (fld_deleted f); [done|]. by destruct (as_array (fld_value f)).
Qed.

(** The shape after a write of an array depends on the shape before it. *)
Lemma merge_slot_shape cur cur' a k k' l l' :
  shape <$> cur = shape <$> cur' -> length l = length l' ->
  shape <$> merge_slot cur (op_of_action a (Some k) (Some (Array l)))
  = shape <$> merge_slot cur' (op_of_action a (Some k') (Some (Array l'))).
Proof.
  intros E El. destruct cur as [f|], cur' as [f'|]; try done; simpl in *.
  - injection E as E1 E2 E3 E4.
    assert (Er : replaces f (a_clock a) (a_ts a, a_origin a)
                 = replaces f' (a_clock a) (a_ts a, a_origin a))
      by by unfold replaces; rewrite E1, E2, E3.
    change (stamp _) with (a_ts a, a_origin a). rewrite Er.
    destruct (replaces f' _ _); unfold shape; simpl; congruence.
  - unfold shape; simpl. by rewrite El.
Qed.

(** The writes of the two reducers. *)
Definition chat_post d a : list Op :=
  [op_of_action a (Some "msg_from") (Some (Array (current_array d "msg_from" ++ [Str (a_origin a)])));
   op_of_action a (Some "msg_text")
     (Some (Array (current_array d "msg_text" ++ [default Null (vget (a_payload a) "text")])));
   op_of_action a (Some "msg_ts")
     (Some (Array (current_array d "msg_ts" ++ [Number (Z.of_N (a_ts a))])))].
Definition chat_init a : list Op :=
  [op_of_action a (Some NAME_KEY) (Some (default Null (vget (a_payload a) "name")));
   op_of_action a (Some "channel") (Some (default Null (vget (a_payload a) "channel")));
   op_of_action a (Some "msg_from") (Some (Array []));
   op_of_action a (Some "msg_text") (Some (Array []));
   op_of_action a (Some "msg_ts") (Some (Array []))].

Lemma chat_reduce d a ops :
  reduce chat d a = Ok ops -> ops = chat_post d a \/ ops = chat_init a.
Proof.
  change chat with (ML1 (l1_of chat_def)). intros R.
  pose proof (reduce_known_kind _ _ _ _ R) as Hk.
  change (l1_reduce (l1_of chat_def) d a = Ok ops) in R. unfold l1_reduce in R.
  apply elem_of_cons in Hk as [E|[E|Hk%not_elem_of_nil]%elem_of_cons]; [| |done];
    rewrite E in R; injection R as <-; auto.
Qed.

Lemma chat_step_parallel e a :
  parallel (e_doc e) -> parallel (e_doc (apply_ops_to_entry e chat a).1).
Proof.
  intros [P1 P2]. destruct (reduce chat (e_doc e) a) as [ops|] eqn:R;
    [|by rewrite apply_ops_spec, R].
  assert (Hk : forall o, o ∈ ops -> is_Some (op_key o)) by (intros o; exact (l1_keyed (l1_of chat_def) _ _ _ _ R)).
  unfold parallel. rewrite !(apply_ops_slot e chat a ops) by done.
  destruct (e_deleted e); [done|].
  pose proof (array_length_shape (e_doc e)) as Hlen.
  assert (L1 : length (current_array (e_doc e) "msg_from")
               = length (current_array (e_doc e) "msg_text")) by by rewrite !Hlen, P1.
  assert (L2 : length (current_array (e_doc e) "msg_text")
               = length (current_array (e_doc e) "msg_ts")) by by rewrite !Hlen, P2.
  apply chat_reduce in R as [-> | ->]; cbn;
    split; apply merge_slot_shape; rewrite ?length_app; simpl; congruence.
Qed.

Lemma chat_fold_parallel r log e :
  (forall a, a ∈ log -> reg_find r (a_model a) = Some chat) ->
  parallel (e_doc e) -> parallel (e_doc (foldl (canon_step r) e log)).
Proof.
  revert e. induction log as [|a log IH]; intros e Hm Hp; [done|]. simpl.
  apply IH; [set_solver|]. unfold canon_step. rewrite Hm by set_solver.
  unfold refold_step. case_match; [|done]. by apply chat_step_parallel.
Qed.

(** A channel's messages stay aligned: in a reachable store, a document
    whose log holds only chat actions has as many authors as texts and as
    many texts as timestamps, whatever the posts, re-inits, concurrency and
    order of arrival were. *)
Theorem chat_messages_parallel s id e :
  reachable s -> i_entries s !! id = Some e -> dk_snaps (i_disk s) !! id = None ->
  (forall a, a ∈ e_log e -> reg_find (i_models s) (a_model a) = Some chat) ->
  length (current_array (e_doc e) "msg_from") = length (current_array (e_doc e) "msg_text") /\
  length (current_array (e_doc e) "msg_text") = length (current_array (e_doc e) "msg_ts").
Proof.
  intros Hr%reachable_inv He Hn Hm. pose proof (inv_entries _ Hr id) as Hi. rewrite He in Hi.
  assert (P : parallel (e_doc e)).
  { change (e_doc e) with (view e).1. rewrite (inv_view _ _ _ Hi), Hn.
    apply chat_fold_parallel; [|done]. intros a Ha. apply Hm.
    by rewrite sort_by_key_perm in Ha. }
  destruct P as [P1 P2]. by rewrite !array_length_shape, P1, P2.
Qed.
End Chat.

(** ** Spaces (src/model/space.rs) *)

Section Spaces.
Context `{Platform}.
Implicit Types (e : Entry) (a : Action) (d : Doc).

(** The writes of a space action to the tier: one for [init], none else. *)
Lemma space_tier_writes d a ops :
  reduce space d a = Ok ops ->
  filter (fun o => op_key o = Some "visibility") (restamp a <$> ops) =
  if bool_decide (a_kind a = "init")
  then [op_of_action a (Some "visibility")
          (Some (default Null (vget (a_payload a) "visibility")))]
  else [].
Proof.
  change space with (ML1 (l1_of space_def)). intros R.
  pose proof (reduce_known_kind _ _ _ _ R) as Hk.
  change (l1_reduce (l1_of space_def) d a = Ok ops) in R. unfold l1_reduce in R.
  assert (Hin : a_kind a ∈ ["add-manager"; "add-member"; "disable-app"; "enable-app"; "init";
                            "remove-member"]) by exact Hk.
  repeat (apply elem_of_cons in Hin as [E|Hin];
    [rewrite E in R; injection R as <-; by rewrite E|]).
  by apply not_elem_of_nil in Hin.
Qed.

(** An [init] action of the space model always reduces, and nothing but its
    payload decides the tier it writes. *)
Lemma space_init_reduces d a :
  a_kind a = "init" -> exists ops, reduce space d a = Ok ops.
Proof.
  intros E. change space with (ML1 (l1_of space_def)).
  change (exists ops, l1_reduce (l1_of space_def) d a = Ok ops).
  unfold l1_reduce. rewrite E. by eexists.
Qed.

Lemma space_init_unconditional d a :
  a_kind a = "init" ->
  is_ok (check_precondition space d a) && is_ok (authorize space d a) = true.
Proof.
  intros E. change space with (ML1 (l1_of space_def)).
  change (is_ok (l1_check_precondition (l1_of space_def) d a)
          && is_ok (l1_authorize (l1_of space_def) d a) = true).
  unfold l1_check_precondition, l1_authorize. by rewrite E.
Qed.

Lemma space_step_deleted e a : e_deleted (apply_ops_to_entry e space a).1 = e_deleted e.
Proof.
  destruct (reduce space (e_doc e) a) as [ops|] eqn:R; [|by rewrite apply_ops_spec, R].
  eapply apply_ops_deleted_keyed; [exact R|]. intros o.
  exact (l1_keyed (l1_of space_def) _ _ _ _ R).
Qed.

Lemma space_step_tier e a :
  doc_fields (e_doc (apply_ops_to_entry e space a).1) !! "visibility" =
  if negb (e_deleted e) && bool_decide (a_kind a = "init")
  then merge_slot (doc_fields (e_doc e) !! "visibility")
         (op_of_action a (Some "visibility")
            (Some (default Null (vget (a_payload a) "visibility"))))
  else doc_fields (e_doc e) !! "visibility".
Proof.
  destruct (reduce space (e_doc e) a) as [ops|] eqn:R.
  - rewrite (apply_ops_slot e space a ops) by
      (try done; intros o; exact (l1_keyed (l1_of space_def) _ _ _ _ R)).
    rewrite (space_tier_writes _ _ _ R). destruct (e_deleted e); [done|]. simpl.
    by case_bool_decide.
  - rewrite apply_ops_spec, R. case_bool_decide as E; [|by rewrite andb_false_r].
    destruct (space_init_reduces (e_doc e) a E). congruence.
Qed.

Lemma space_fold_tier r log e1 e2 :
  (forall a, a ∈ log -> reg_find r (a_model a) = Some space) ->
  doc_fields (e_doc e1) !! "visibility" = doc_fields (e_doc e2) !! "visibility" ->
  e_deleted e1 = e_deleted e2 ->
  doc_fields (e_doc (foldl (canon_step r) e1 log)) !! "visibility" =
  doc_fields (e_doc (foldl (canon_step r) e2 (filter (fun a => a_kind a = "init") log)))
    !! "visibility".
Proof.
  revert e1 e2. induction log as [|a log IH]; intros e1 e2 Hm Hv Hd; [done|].
  cbn [foldl]. rewrite filter_cons.
  assert (Ea : forall e, canon_step r e a = refold_step e (a, space)).
  { intros e. unfold canon_step. rewrite Hm; [done|]. apply elem_of_cons; by left. }
  assert (Hm' : forall x, x ∈ log -> reg_find r (a_model x) = Some space)
    by (intros x Hx; apply Hm, elem_of_cons; by right).
  clear Hm.
  case_decide as Ek; cbn [foldl].
  - rewrite !Ea. unfold refold_step. rewrite !space_init_unconditional by done.
    apply IH; [done| |]; cbn [set_model e_doc e_deleted].
    + by rewrite !space_step_tier, Hv, Hd.
    + by rewrite !space_step_deleted.
  - apply IH; [done| |]; rewrite Ea; unfold refold_step; case_match; try done;
      cbn [set_model e_doc e_deleted].
    + by rewrite space_step_tier, (bool_decide_eq_false_2 _ Ek), andb_false_r.
    + by rewrite space_step_deleted.
Qed.

Lemma sort_filter {A K} `{TotalOrd K} (key : A -> K) (P : A -> Prop)
    `{!forall x, Decision (P x)} l :
  sorted_by key l -> sorted_by key (filter P l).
Proof.
  induction 1 as [|x l Hx Hl IH]; [constructor|]. rewrite filter_cons. case_decide; [|done].
  constructor; [|done]. apply Forall_forall. intros y [_ Hy]%list_elem_of_filter.
  rewrite Forall_forall in Hx. by apply Hx.
Qed.

(** A space's tier is decided by its [init] actions alone: in a reachable
    store, the visibility of a space document is the visibility of the fold
    of the [init] actions of its log; members, managers and apps can change
    without ever touching it. *)
Theorem space_tier_from_init s id e :
  reachable s -> i_entries s !! id = Some e -> dk_snaps (i_disk s) !! id = None ->
  (forall a, a ∈ e_log e -> reg_find (i_models s) (a_model a) = Some space) ->
  visibility_of (e_doc e) =
  visibility_of
    (canonical (i_models s) id None (filter (fun a => a_kind a = "init") (e_log e))).1.
Proof.
  intros Hr%reachable_inv He Hn Hm. pose proof (inv_entries _ Hr id) as Hi. rewrite He in Hi.
  pose proof (inv_sorted _ _ _ Hi) as Hso.
  change (e_doc e) with (view e).1. rewrite (inv_view _ _ _ Hi), Hn. unfold visibility_of.
  unfold canonical. rewrite (sort_by_key_id _ _ Hso).
  rewrite (sort_by_key_id _ _ (sort_filter _ _ _ Hso)). simpl.
  by rewrite (space_fold_tier _ _ _ (lifted (entry_new id))).
Qed.
End Spaces.

(** ** Groups (src/model/group.rs) *)

Section Groups.
Context `{Platform}.
Implicit Types (s : Inner) (a : Action) (d : Doc).

Lemma in_list_spec d f o : in_list d f o = true <-> Str o ∈ current_array d f.
Proof. apply existsb_as_str. Qed.

(** Posting to a group: the model lets an action of kind [post] through
    exactly when its author is in [members], and, for every channel of the
    target name that is marked private, in that channel's own list. *)
Theorem group_post_gate d a :
  a_kind a = "post" ->
  (check_precondition group d a = Ok tt <-> Str (a_origin a) ∈ current_array d "members") /\
  (authorize group d a = Ok tt <->
   forall ch, ch ∈ current_array d "channels" ->
     vget ch "name" = Some (default Null (vget (a_payload a) "channel")) ->
     vget ch "visibility" = Some (Str "private") ->
     Str (a_origin a) ∈ default [] (vget ch "members" ≫= as_array)).
Proof.
  intros Ek. change group with (ML1 (l1_of group_def)). split.
  - change (check_precondition (ML1 (l1_of group_def)) d a)
      with (l1_check_precondition (l1_of group_def) d a).
    unfold l1_check_precondition. rewrite Ek. rewrite <- in_list_spec.
    change (pre_list (l1_of group_def) "post") with [Object [("actor-in", Str "members")]].
    cbn -[in_list]. by destruct (in_list d "members" (a_origin a)).
  - change (authorize (ML1 (l1_of group_def)) d a) with (l1_authorize (l1_of group_def) d a).
    unfold l1_authorize. rewrite Ek. cbn [vget l1_auth l1_of].
    match goal with |- match ?x with _ => _ end = _ <-> _ =>
      let v := eval vm_compute in x in change x with v end.
    rewrite authorize_entries_ok, Forall_forall.
    change (rule_str _ "field" "") with "channels". cbn -[current_array].
    unfold entry_refuses. split; intros Hall ch Hch.
    + intros Hname Hvis. destruct (decide (Str (a_origin a) ∈
        default [] (vget ch "members" ≫= as_array))); [done|]. by destruct (Hall ch Hch).
    + intros (Hname & Hvis & Hout). by apply Hout, Hall.
Qed.

(** The people behind an accepted action whose kind asks for two endorsers. *)
Definition two_signers s (a : Action) (q : QuorumSpec) : Prop :=
  exists gd o1 o2, o1 <> o2 /\ quorum_doc s q a = Some gd /\
    (forall o, o = o1 \/ o = o2 ->
       o ∈ group_members gd (q_field q) /\ (o = a_origin a \/ o ∈ cs_origin <$> a_cosig a)).
Lemma quorum_two_signers s a r m q :
  (apply_action a s).2 = Ok r -> reg_find (i_models s) (a_model a) = Some m ->
  quorum m (a_kind a) = Some q -> (2 <= q_min q)%N -> two_signers s a q.
Proof.
  rewrite apply_action_eq. destruct (admission s a) as [m'|] eqn:Ad; [|done].
  intros _ Hm Hq H2. apply admission_ok in Ad.
  assert (m' = m) as -> by (pose proof (adm_model _ _ _ Ad); congruence).
  pose proof (proj1 (check_quorum_ok s m a) (adm_quorum _ _ _ Ad) _ Hq) as Hp.
  apply quorum_met in Hp as (gd & Hgd & Hmin).
  rewrite endorsers_spec in Hmin. set (E := _ ∩ _) in Hmin.
  assert (Hsz : 2 <= size E) by lia.
  destruct (size_pos_elem_of E) as [o1 Ho1]; [lia|].
  destruct (size_pos_elem_of (E ∖ {[o1]})) as [o2 Ho2].
  { rewrite size_difference, size_singleton by set_solver. lia. }
  exists gd, o1, o2. split; [set_solver|]. split; [done|].
  assert (Hall : forall o, o ∈ E -> o ∈ group_members gd (q_field q) /\
                     (o = a_origin a \/ o ∈ cs_origin <$> a_cosig a)).
  { unfold E. intros o [[Ho%elem_of_singleton|Ho%elem_of_list_to_set]%elem_of_union Hg]%elem_of_intersection;
      auto. }
  intros o [-> | ->]; apply Hall; set_solver.
Qed.

End Groups.
