(* ===== verification/Scenario.v ===== *)
(** Concrete runs of the store on the sample platform: the inputs at which the
    properties are applied, and the runs in which the code departs from its
    comments. *)

From stdpp Require Import base list gmap strings numbers pretty.
From Stdlib Require Import Strings.Byte.
From S2P Require Import Prelude Json Doc Sample Action Model Builtins Entry Redeliver Store.
From S2P Require Import StoreInv StoreProps Apps.

Definition run {A} (p : storeM A) (s : Inner) : Inner := (p s).1.

(** Alice's node, with Bob's and Mallory's keys pinned. *)
Definition alice_key : SigningKey := sk 1.
Definition bob_key : SigningKey := sk 2.
Definition mallory_key : SigningKey := sk 3.
Definition node0 : Inner := open_inner empty_disk alice_key "alice" [].
Definition node1 : Inner := run (register_peer_key "bob" (verifying_key bob_key)) node0.
Definition node2 : Inner := run (register_peer_key "mallory" (verifying_key mallory_key)) node1.

(** A protected space of Alice and Bob. *)
Definition team_payload (visibility : string) : Value :=
  json_obj [("name", Str "team"); ("visibility", Str visibility);
            ("members", json_strs ["alice"; "bob"]); ("managers", json_strs ["alice"])].
Definition team_node : Inner :=
  run (create_space_at (fun _ => "id") 1000 100 "team" (team_payload PROTECTED)) node2.

(** A chat channel in it. *)
Definition chat_payload : Value :=
  json_obj [("name", Str "general"); ("channel", Str "general")].
Definition chat_node : Inner :=
  run (create_doc_in_space 2000 101 "general" (modelref_new "chat" "1") chat_payload (Some 100%N))
    team_node.

(** Reachability, one step at a time. *)
Lemma reachable_by {A} (p : storeM A) (s : Inner) :
  reachable s -> step s (p s).1 -> reachable (run p s).
Proof. apply reach_step. Qed.

Lemma fresh_by (s : Inner) (id : DocId) :
  match i_entries s !! id with None => true | Some _ => false end = true -> fresh_id s id.
Proof. unfold fresh_id. by destruct (i_entries s !! id). Qed.

Lemma node2_reachable : reachable node2.
Proof.
  apply reachable_by; [|apply step_register_key].
  apply reachable_by; [|apply step_register_key]. apply reach_open.
Qed.

Lemma node2_step : step node1 node2.
Proof. apply step_register_key. Qed.

Lemma team_reachable : reachable team_node.
Proof. apply reachable_by; [apply node2_reachable|apply step_create_space]. Qed.

Lemma chat_reachable : reachable chat_node.
Proof.
  apply reachable_by; [apply team_reachable|]. apply step_create_in_space.
  apply fresh_by. vm_compute. reflexivity.
Qed.

Example team_created :
  (create_space_at (fun _ => "id") 1000 100 "team" (team_payload PROTECTED) node2).2 = Ok 100%N.
Proof. vm_compute. reflexivity. Qed.
Example chat_created :
  (create_doc_in_space 2000 101 "general" (modelref_new "chat" "1") chat_payload (Some 100%N)
     team_node).2 = Ok 101%N.
Proof. vm_compute. reflexivity. Qed.

(** ** Evaluating facts about a node *)

Lemma entry_at_some (s : Inner) (id : DocId) :
  match i_entries s !! id with Some _ => true | None => false end = true ->
  i_entries s !! id = Some (entry_at s id).
Proof. unfold entry_at. by destruct (i_entries s !! id). Qed.

Lemma key_inj_by (l : list Action) :
  forallb (fun x => forallb (fun y => negb (bool_decide (canon_key x = canon_key y))
                                      || bool_decide (x = y)) l) l = true ->
  key_inj canon_key l.
Proof.
  rewrite forallb_forall. setoid_rewrite forallb_forall. intros Hl x y Hx Hy E.
  specialize (Hl x (proj1 (list_elem_of_In _ _) Hx) y (proj1 (list_elem_of_In _ _) Hy)).
  rewrite (bool_decide_eq_true_2 _ E) in Hl. by apply bool_decide_eq_true in Hl.
Qed.

Lemma log_models_by (s : Inner) (l : list Action) (name : string) (m : AnyModel) :
  reg_find (i_models s) (ref_ m) = Some m ->
  forallb (fun a => bool_decide (a_model a = ref_ m)) l = true ->
  forall a, a ∈ l -> reg_find (i_models s) (a_model a) = Some m.
Proof.
  intros Hm Hl a Ha%list_elem_of_In. rewrite forallb_forall in Hl.
  specialize (Hl a Ha). apply bool_decide_eq_true in Hl. by rewrite Hl.
Qed.

Lemma perm_by (l k : list Action) : bool_decide (l = k) = true -> l ≡ₚ k.
Proof. by intros ->%bool_decide_eq_true. Qed.

(** A signed action, as another node would send it. *)
Definition sent (key : SigningKey) (origin : string) (doc : DocId) (m : AnyModel)
    (kind : string) (payload : Value) (ts : N) (clock : VecClock) (sp : option DocId) : Action :=
  sign {| a_doc_id := doc; a_model := ref_ m; a_kind := kind; a_payload := payload; a_ts := ts;
          a_clock := clock; a_origin := origin; a_cosig := []; a_prev_hash := None;
          a_space := sp; a_sig := [] |} key.
Definition co_sign (a : Action) (origin : string) (key : SigningKey) : Action :=
  with_cosig a (a_cosig a ++ [{| cs_origin := origin; cs_sig := ed_sign key (message_bytes a) |}]).

Definition text_payload (t : string) : Value := json_obj [("text", Str t)].

(** ** Two posts that arrive in either order *)

Definition bob_post : Action :=
  sent bob_key "bob" 101 chat "post" (text_payload "hi") 5000
    (<["bob" := 1%N]> (<["alice" := 1%N]> ∅)) (Some 100%N).
Definition alice_post : Action :=
  sent alice_key "alice" 101 chat "post" (text_payload "hello") 6000
    (<["alice" := 2%N]> ∅) (Some 100%N).
Definition node_x : Inner := run (apply_action alice_post) (run (apply_action bob_post) chat_node).
Definition node_y : Inner := run (apply_action bob_post) (run (apply_action alice_post) chat_node).

Lemma node_x_reachable : reachable node_x.
Proof.
  apply reachable_by; [|apply step_apply]. apply reachable_by; [apply chat_reachable|apply step_apply].
Qed.
Lemma node_y_reachable : reachable node_y.
Proof.
  apply reachable_by; [|apply step_apply]. apply reachable_by; [apply chat_reachable|apply step_apply].
Qed.

Example posts_accepted :
  is_ok (apply_action bob_post chat_node).2 = true /\
  is_ok (apply_action alice_post (run (apply_action bob_post) chat_node)).2 = true /\
  is_ok (apply_action bob_post (run (apply_action alice_post) chat_node)).2 = true /\
  out_of_order (run (apply_action alice_post) chat_node) bob_post = true.
Proof. vm_compute. done. Qed.

(** ** A group *)

Definition group_payload : Value :=
  json_obj [("name", Str "crew"); ("members", json_strs ["alice"; "bob"]);
            ("managers", json_strs ["alice"])].
Definition group_node : Inner :=
  run (create_doc_in_space 3000 200 "crew" (modelref_new "group" "1") group_payload None) node2.
Definition group_post : Action :=
  sent bob_key "bob" 200 group "post"
    (json_obj [("text", Str "hi"); ("channel", Str "general")]) 3007
    (<["bob" := 1%N]> (<["alice" := 1%N]> ∅)) None.
Definition remove_bob : Action :=
  sent alice_key "alice" 200 group "remove-member" (json_obj [("member", Str "bob")]) 3005
    (<["alice" := 2%N]> ∅) None.
Definition add_carol : Action :=
  co_sign (sent alice_key "alice" 200 group "add-manager" (json_obj [("member", Str "carol")]) 3010
    (<["alice" := 2%N]> ∅) None) "bob" bob_key.

Lemma group_reachable : reachable group_node.
Proof.
  apply reachable_by; [apply node2_reachable|]. apply step_create_in_space.
  apply fresh_by. vm_compute. reflexivity.
Qed.

Example group_actions :
  is_ok (apply_action group_post group_node).2 = true /\
  is_ok (apply_action remove_bob (run (apply_action group_post) group_node)).2 = true /\
  is_ok (apply_action add_carol group_node).2 = true.
Proof. vm_compute. done. Qed.

(** ** Witnesses of the store's properties *)

(** Below, the nodes are only evaluated by [vm_compute]. *)
#[local] Opaque node1 node2 team_node chat_node node_x node_y group_node apply_action.

Lemma documents_are_canonical_witness :
  sorted_by canon_key (e_log (entry_at node_y 101)) /\
  length (e_log (entry_at node_y 101)) = 3.
Proof.
  split; [|vm_compute; reflexivity].
  refine (proj1 (documents_are_canonical node_y 101 (entry_at node_y 101) node_y_reachable _)).
  apply entry_at_some. vm_compute. reflexivity.
Defined.


Lemma accepted_iff_witness :
  exists m, admission chat_node bob_post = Ok m /\
    check_precondition m (e_doc (entry_at chat_node (a_doc_id bob_post))) bob_post = Ok tt.
Proof.
  apply (accepted_iff chat_node bob_post chat_reachable).
  destruct (apply_action bob_post chat_node).2 as [r|] eqn:E; [exists r; reflexivity|].
  exfalso. assert (X : is_ok (apply_action bob_post chat_node).2 = true)
    by (vm_compute; reflexivity). rewrite E in X. discriminate X.
Defined.

Lemma accepted_action_sound_witness :
  exists r, (apply_action bob_post chat_node).2 = Ok r /\
    pinned_key_checks chat_node "bob" (verify bob_post).
Proof.
  destruct (apply_action bob_post chat_node).2 as [r|] eqn:E.
  - exists r. split; [reflexivity|]. exact (proj1 (accepted_action_sound chat_node bob_post r E)).
  - exfalso. assert (X : is_ok (apply_action bob_post chat_node).2 = true)
      by (vm_compute; reflexivity). rewrite E in X. discriminate X.
Defined.

(** Mallory is not a member of the space. *)
Definition mallory_post : Action :=
  sent mallory_key "mallory" 101 chat "post" (text_payload "spam") 5000
    (<["mallory" := 1%N]> ∅) (Some 100%N).


Lemma pinned_keys_permanent_witness :
  i_known_keys node2 !! "bob" = Some (verifying_key bob_key) /\
  (verifying_key mallory_key <> verifying_key bob_key ->
   exists msg, register_peer_key "bob" (verifying_key mallory_key) node2 = (node2, Err msg)).
Proof.
  apply (pinned_keys_permanent node1 node2 "bob" (verifying_key bob_key) (verifying_key mallory_key)).
  - vm_compute. reflexivity.
  - apply rtc_once. exact node2_step.
Defined.

Lemma local_action_wellformed_witness :
  exists e s' a, i_entries chat_node !! 101%N = Some e /\
    build_local_action 9000 "general" (modelref_new "chat" "1") "post" (text_payload "x") chat_node
      = (s', Ok a) /\ check_origin s' a = Ok tt.
Proof.
  destruct (local_action_wellformed chat_node 9000 "general" 101 (modelref_new "chat" "1") "post"
              (text_payload "x") chat_reachable) as (e & s' & a & He & Hb & _ & _ & _ & _ & _ & _ & Ho & _).
  - vm_compute. reflexivity.
  - vm_compute. reflexivity.
  - vm_compute. reflexivity.
  - exists e, s', a. split; [exact He|]. split; [exact Hb|exact Ho].
Defined.

Definition deleted_node : Inner :=
  run (open_write 7000 "general" "delete" (json_obj [])) chat_node.
Lemma deleted_reachable : reachable deleted_node.
Proof. apply reachable_by; [apply chat_reachable|apply step_open_write]. Qed.

Lemma deleted_iff_logged_witness :
  exists a, a ∈ e_log (entry_at deleted_node 101) /\ deletes (i_models deleted_node) a = true.
Proof.
  destruct (proj1 (deleted_iff_logged deleted_node 101 (entry_at deleted_node 101)
    deleted_reachable ltac:(apply entry_at_some; vm_compute; reflexivity)))
    as [(b & Hb & _)|Ha].
  - vm_compute. reflexivity.
  - exfalso. assert (X : (match dk_snaps (i_disk deleted_node) !! 101%N with
                          | Some _ => true | None => false end) = false)
      by (vm_compute; reflexivity). rewrite Hb in X. discriminate X.
  - exact Ha.
Defined.

(** Bob tries to take the channel out of its space. *)
Definition drag_out : Action :=
  sent bob_key "bob" 101 chat "post" (text_payload "bye") 8000
    (<["bob" := 1%N]> (<["alice" := 1%N]> ∅)) None.

Lemma space_is_fixed_witness :
  is_ok (apply_action drag_out chat_node).2 = false /\
  exists e', i_entries (apply_action drag_out chat_node).1 !! 101%N = Some e' /\
             e_space e' = e_space (entry_at chat_node 101).
Proof.
  destruct (space_is_fixed chat_node drag_out 101 (entry_at chat_node 101) chat_reachable)
    as (_ & Hr & He).
  - apply entry_at_some. vm_compute. reflexivity.
  - intros E. assert (X : bool_decide (e_log (entry_at chat_node 101) = []) = false)
      by (vm_compute; reflexivity). rewrite E in X. discriminate X.
  - vm_compute. reflexivity.
  - vm_compute. reflexivity.
  - split; [|exact He]. apply Hr; [reflexivity|]. intros E.
    assert (X : bool_decide (a_space drag_out = e_space (entry_at chat_node 101)) = false)
      by (vm_compute; reflexivity).
    rewrite (bool_decide_eq_true_2 _ E) in X. discriminate X.
Defined.

(** Every action of the log counts, as a computation. *)
Fixpoint none_skipped_b (r : ModelRegistry) (e : Entry) (log : list Action) : bool :=
  match log with
  | [] => true
  | a :: log' =>
      match reg_find r (a_model a) with
      | None => false
      | Some m => is_ok (check_precondition m (e_doc e) a) && is_ok (authorize m (e_doc e) a)
                  && none_skipped_b r (canon_step r e a) log'
      end
  end.
Lemma none_skipped_by r e log : none_skipped_b r e log = true -> none_skipped r e log.
Proof.
  revert e. induction log as [|a log IH]; intros e; simpl; [done|].
  destruct (reg_find r (a_model a)) as [m|]; [|done].
  rewrite !andb_true_iff. naive_solver.
Qed.

Lemma restart_rebuilds_witness :
  e_doc (replay_entry (i_models node_y) 101 (dk_snaps (i_disk node_y) !! 101%N)
           (default [] (dk_alogs (i_disk node_y) !! 101%N)))
  = e_doc (entry_at node_y 101).
Proof.
  refine (proj1 (restart_rebuilds node_y 101 (entry_at node_y 101) node_y_reachable _ _ _)).
  - apply entry_at_some. vm_compute. reflexivity.
  - apply key_inj_by. vm_compute. reflexivity.
  - apply none_skipped_by. vm_compute. reflexivity.
Defined.

(** ** Witnesses of the models' properties *)

Lemma log_of_chat (a : Action) :
  a ∈ e_log (entry_at node_y 101) -> reg_find (i_models node_y) (a_model a) = Some chat.
Proof. apply (log_models_by node_y _ "chat"); vm_compute; reflexivity. Qed.

Lemma chat_messages_parallel_witness :
  length (current_array (e_doc (entry_at node_y 101)) "msg_from")
  = length (current_array (e_doc (entry_at node_y 101)) "msg_text") /\
  length (current_array (e_doc (entry_at node_y 101)) "msg_from") = 2.
Proof.
  split; [|vm_compute; reflexivity].
  refine (proj1 (chat_messages_parallel node_y 101 (entry_at node_y 101) node_y_reachable _ _
                   log_of_chat)).
  - apply entry_at_some. vm_compute. reflexivity.
  - vm_compute. reflexivity.
Defined.

Lemma log_of_space (a : Action) :
  a ∈ e_log (entry_at team_node 100) -> reg_find (i_models team_node) (a_model a) = Some space.
Proof. apply (log_models_by team_node _ "space"); vm_compute; reflexivity. Qed.

Lemma space_tier_from_init_witness :
  visibility_of (e_doc (entry_at team_node 100)) =
  visibility_of (canonical (i_models team_node) 100 None
    (filter (fun a => a_kind a = "init") (e_log (entry_at team_node 100)))).1.
Proof.
  refine (space_tier_from_init team_node 100 (entry_at team_node 100) team_reachable _ _
            log_of_space).
  - apply entry_at_some. vm_compute. reflexivity.
  - vm_compute. reflexivity.
Defined.

Lemma group_post_gate_witness :
  check_precondition group (e_doc (entry_at group_node 200)) group_post = Ok tt /\
  authorize group (e_doc (entry_at group_node 200)) group_post = Ok tt.
Proof.
  destruct (group_post_gate (e_doc (entry_at group_node 200)) group_post) as [Hp Ha].
  - reflexivity.
  - split; [|vm_compute; reflexivity]. apply (proj2 Hp).
    apply existsb_as_str. vm_compute. reflexivity.
Defined.


Lemma redelivery_harmless_witness :
  canonical (i_models node_y) 101 None ([] ++ bob_post :: bob_post :: [alice_post])
  = canonical (i_models node_y) 101 None ([] ++ bob_post :: [alice_post]).
Proof.
  apply (redelivery_harmless (i_models node_y) 101 None [] bob_post [alice_post]).
  apply (sorted_by_cons canon_key bob_post [alice_post]).
  - apply Forall_singleton. vm_compute. reflexivity.
  - apply (sorted_by_cons canon_key alice_post []); constructor.
Defined.

(** An interpreter whose two named checks refer to each other. *)
Definition cyclic : L1 :=
  {| l1_ref := modelref_new "cyclic" "1"; l1_def := Null; l1_fields := Null;
     l1_reducers := Null;
     l1_checks := Object [("a", Object [("check", Str "b")]); ("b", Object [("check", Str "a")])];
     l1_auth := Null |}.

Lemma named_check_cycle_refused_witness :
  exists r, eval_precond 9 cyclic (empty_doc 1 "") bob_post (Object [("check", Str "a")]) = Err r.
Proof.
  apply (named_check_cycle_refused cyclic (empty_doc 1 "") bob_post ["a"; "b"] "a").
  - intros x [->|[->|Hx%not_elem_of_nil]%elem_of_cons]%elem_of_cons; [..|done].
    + exists "b". split; [set_solver|reflexivity].
    + exists "a". split; [set_solver|reflexivity].
  - set_solver.
Defined.

Lemma authorize_exact_witness :
  l1_authorize (l1_of group_def) (e_doc (entry_at group_node 200)) group_post = Ok tt.
Proof.
  refine (proj2 (authorize_exact (l1_of group_def) (e_doc (entry_at group_node 200)) group_post
    (Object [("allow", Str "members"); ("field", Str "channels"); ("match", Str "$payload.channel");
             ("name", Str "name"); ("private", Str "private"); ("visibility", Str "visibility")])
    _) _).
  - vm_compute. reflexivity.
  - assert (E : current_array (e_doc (entry_at group_node 200)) "channels"
      = [Object [("members", Array []); ("name", Str "general"); ("visibility", Str "public")]])
      by (vm_compute; reflexivity).
    intros entry Hin. change (rule_str _ "field" "") with "channels" in Hin.
    rewrite E in Hin. apply list_elem_of_singleton in Hin as ->.
    intros _ Hv. vm_compute in Hv. discriminate Hv.
Defined.

Lemma pinned_model_agrees_witness :
  exists l1 l2, group = ML1 l1 /\ group = ML1 l2 /\
    (json_to_vec (l1_def l1) = json_to_vec (l1_def l2) \/ sha256_collision).
Proof.
  apply (pinned_model_agrees seeded_with_builtins (reg_insert seeded_with_open group) (ref_ group)
           (model_def_hash group_def)).
  - apply seeded_ok.
  - apply registry_ok_insert; [|apply builtin_ok; unfold shipped_defs; set_solver].
    apply seeded_open_ok.
  - reflexivity.
  - vm_compute. reflexivity.
  - vm_compute. reflexivity.
Defined.

(** ** Runs in which the code and its comments part ways *)

(** The texts of a group's or a channel's messages. *)
Definition texts (s : Inner) (id : DocId) : list Value :=
  current_array (e_doc (entry_at s id)) "msg_text".
Definition reopened (s : Inner) : Inner := open_inner (i_disk s) (i_key s) (i_origin s) [].

Definition group_live : Inner :=
  run (apply_action remove_bob) (run (apply_action group_post) group_node).

(** A restart can change a document: Bob's post is accepted, then Alice's
    removal of Bob arrives with an earlier timestamp.  The live node re-folds
    and drops the post, which now follows the removal; the restarted node folds
    the same log file without re-checking the precondition and keeps it. *)
Theorem restart_diverges :
  reachable group_live /\ texts group_live 200 = [] /\
  texts (reopened group_live) 200 = [Str "hi"].
Proof.
  split; [|vm_compute; done].
  apply reachable_by; [|apply step_apply]. apply reachable_by; [|apply step_apply].
  apply group_reachable.
Qed.

(** A snapshot unbinds the space: after one, a member's action that names no
    space is accepted and moves the document out of its protected space; a
    peer that is not a member may then read it. *)
Theorem snapshot_unbinds_space :
  let s := snapshot chat_node 101 in
  reachable s /\ may_peer_read s "mallory" 101 = false /\
  is_ok (apply_action drag_out s).2 = true /\
  may_peer_read (apply_action drag_out s).1 "mallory" 101 = true.
Proof.
  split; [|vm_compute; done]. eapply reach_step; [apply chat_reachable|apply step_snapshot].
Qed.

(** Mallory, who is neither a member nor a manager, initializes the space again. *)
Definition reinit : Action :=
  sent mallory_key "mallory" 100 space "init" (team_payload PUBLIC) 9000
    (<["mallory" := 1%N]> (<["alice" := 1%N]> ∅)) (Some 100%N).

(** The tier is not fixed: [init] has no precondition, so any peer whose key
    is pinned can send a second one; it is accepted, turns the protected space
    public, and opens its documents to a peer that was refused before. *)
Theorem space_reinit_discloses :
  visibility_of (e_doc (entry_at chat_node 100)) = PROTECTED /\
  may_peer_read chat_node "mallory" 101 = false /\
  is_ok (apply_action reinit chat_node).2 = true /\
  visibility_of (e_doc (entry_at (apply_action reinit chat_node).1 100)) = PUBLIC /\
  may_peer_read (apply_action reinit chat_node).1 "mallory" 101 = true.
Proof. vm_compute. done. Qed.

(** A snapshot forgets the model: the chat document is reported under
    [open@1] after a snapshot and a restart. *)
Theorem snapshot_forgets_model :
  mr_name (e_model (entry_at (snapshot chat_node 101) 101)) = "chat" /\
  e_model (entry_at (reopened (snapshot chat_node 101)) 101) = open_ref.
Proof. vm_compute. done. Qed.

(** An adopted state is not durable: nothing is written for it, so the
    document is gone after a restart. *)
Theorem adopted_state_lost :
  let st := state_of (entry_at chat_node 101) in
  let s := run (adopt_state st) node2 in
  e_doc (entry_at s 101) = e_doc (entry_at chat_node 101) /\
  i_entries (reopened s) !! 101%N = None.
Proof.
  split; [|vm_compute; reflexivity]. refine (bool_decide_eq_true_1 _ _). vm_compute. reflexivity.
Qed.

(** A refused first action leaves an entry: a post to a group this node does
    not have is refused by its precondition, and the unknown document is listed
    afterwards. *)
Theorem refused_action_leaves_entry :
  is_ok (apply_action group_post node2).2 = false /\
  doc_ids node2 = [] /\ doc_ids (apply_action group_post node2).1 = [200%N].
Proof. vm_compute. done. Qed.
