(* ===== verification/Text.v ===== *)
(** Text handling shared by the tokens of src/p2p: trimming and prefixes of
    the Rust standard library, and the base64 and serde crates as interfaces. *)

From stdpp Require Import base list gmap strings numbers.
From Stdlib Require Import Strings.Byte Strings.Ascii.
From S2P Require Import Prelude Json Sample.

(** [str::trim] on ASCII text. *)
Definition is_space (c : ascii) : bool :=
  let n := N_of_ascii c in ((9 <=? n) && (n <=? 13) || (n =? 32))%N.
Fixpoint trim_start (s : string) : string :=
  match s with
  | String c s' => if is_space c then trim_start s' else s
  | EmptyString => EmptyString
  end.
Fixpoint trim_end (s : string) : string :=
  match s with
  | String c s' =>
      match trim_end s' with
      | EmptyString => if is_space c then EmptyString else String c EmptyString
      | t => String c t
      end
  | EmptyString => EmptyString
  end.
Definition trim (s : string) : string := trim_end (trim_start s).

(** [str::strip_prefix]. *)
Definition strip_prefix (p s : string) : option string :=
  if String.prefix p s then Some (String.substring (slen p) (slen s - slen p) s) else None.

(** [base64]'s standard engine: a parameter, with the laws its documentation
    gives (a round trip; the alphabet has no white space). *)
Class Base64 := {
  base64_encode : list byte -> string;
  base64_decode_raw : string -> result string (list byte)
}.
Class Base64Laws `{Base64} := {
  base64_roundtrip : forall b, base64_decode_raw (base64_encode b) = Ok b;
  base64_graphic : forall b, Forall (fun c => is_space c = false)
                       (String.list_ascii_of_string (base64_encode b))
}.

(** The derived [Serialize] and [Deserialize] of a type, through
    [serde_json::to_vec] and [from_slice]. *)
Class Serde (A : Type) := {
  to_json : A -> list byte;
  from_json : list byte -> result string A
}.

(** ** Lemmas *)

Lemma trim_end_graphic s :
  Forall (fun c => is_space c = false) (String.list_ascii_of_string s) -> trim_end s = s.
Proof.
  induction s as [|c s IH]; simpl; [done|]. intros [Hc Hs]%Forall_cons_1. rewrite IH by done.
  destruct s; [by rewrite Hc|done].
Qed.

Lemma trim_graphic s :
  Forall (fun c => is_space c = false) (String.list_ascii_of_string s) -> trim s = s.
Proof.
  intros Hs. unfold trim. assert (E : trim_start s = s).
  { destruct s as [|c s]; [done|]. simpl in *. apply Forall_cons_1 in Hs as [-> _]. done. }
  rewrite E. by apply trim_end_graphic.
Qed.

Lemma prefix_app p s : String.prefix p (p +:+ s) = true.
Proof. induction p as [|c p IH]; simpl; [by destruct s|]. by destruct (ascii_dec c c). Qed.

Lemma substring_all s : String.substring 0 (slen s) s = s.
Proof. unfold slen. induction s as [|c s IH]; simpl; [done|]. by rewrite IH. Qed.

Lemma strip_prefix_app p s : strip_prefix p (p +:+ s) = Some s.
Proof.
  unfold strip_prefix. rewrite prefix_app. f_equal. unfold slen.
  assert (L : String.length (p +:+ s) - String.length p = String.length s).
  { induction p as [|c p IH]; [apply Nat.sub_0_r|exact IH]. }
  rewrite L. clear L. induction p as [|c p IH]; [apply substring_all|exact IH].
Qed.

Lemma list_ascii_app s t : String.list_ascii_of_string (s +:+ t) =
  String.list_ascii_of_string s ++ String.list_ascii_of_string t.
Proof. induction s as [|c s IH]; simpl; [done|]. by rewrite IH. Qed.

Lemma trim_start_app s t :
  Forall (fun c => is_space c = true) (String.list_ascii_of_string s) ->
  trim_start (s +:+ t) = trim_start t.
Proof.
  induction s as [|c s IH]; simpl; [done|]. intros [Hc Hs]%Forall_cons_1. rewrite Hc. by apply IH.
Qed.

Lemma trim_end_spaces t :
  Forall (fun c => is_space c = true) (String.list_ascii_of_string t) -> trim_end t = "".
Proof.
  induction t as [|c t IH]; simpl; [done|]. intros [Hc Ht]%Forall_cons_1.
  by rewrite IH, Hc by done.
Qed.

Lemma trim_end_app s t :
  Forall (fun c => is_space c = true) (String.list_ascii_of_string t) ->
  trim_end (s +:+ t) = trim_end s.
Proof.
  intros Ht. induction s as [|c s IH]; simpl; [by apply trim_end_spaces|].
  change (String.append s t) with (s +:+ t). by rewrite IH.
Qed.

(** White space around a token that has none is dropped. *)
Lemma trim_pasted pre s post :
  Forall (fun c => is_space c = true) (String.list_ascii_of_string pre) ->
  Forall (fun c => is_space c = true) (String.list_ascii_of_string post) ->
  Forall (fun c => is_space c = false) (String.list_ascii_of_string s) ->
  s <> "" -> trim (pre +:+ s +:+ post) = s.
Proof.
  intros Hpre Hpost Hs Hne. unfold trim. rewrite trim_start_app by done.
  assert (E : trim_start (s +:+ post) = s +:+ post).
  { destruct s as [|c s]; [done|]. simpl in *. by apply Forall_cons_1 in Hs as [-> _]. }
  rewrite E, trim_end_app by done. by apply trim_end_graphic.
Qed.

(** ** The sample platform: hexadecimal in place of base64 *)

#[export] Instance sample_base64 : Base64 := {|
  base64_encode := sample_hex_encode;
  base64_decode_raw := sample_hex_decode
|}.

Lemma nibble_graphic n : (n < 16)%N -> is_space (nibble_char n) = false.
Proof.
  intros Hn. unfold is_space, nibble_char.
  rewrite N_ascii_embedding by (case_match; lia).
  destruct (N.ltb_spec n 10); apply orb_false_iff; split;
    rewrite ?andb_false_iff, ?N.leb_gt, ?N.eqb_neq; lia.
Qed.

#[export] Instance sample_base64_laws : Base64Laws.
Proof.
  split; [apply sample_hex_roundtrip|]. intros b. simpl.
  induction b as [|x b IH]; simpl; [done|].
  repeat constructor; [..|exact IH]; apply nibble_graphic; destruct x; vm_compute; done.
Qed.
