(* ===== verification/Cosign.v ===== *)
(** Out-of-band co-signing (src/p2p/cosign.rs): a partially signed action
    travels between members as a token until its quorum is met. *)

From stdpp Require Import base list gmap strings numbers pretty.
From Stdlib Require Import Strings.Byte Strings.Ascii.
From S2P Require Import Prelude Json Doc Sample Action Model Builtins Entry Redeliver Store.
From S2P Require Import StoreInv StoreProps Text.

Definition PREFIX : string := "PROPOSAL:".

(** [base64_decode]. *)
Definition base64_decode `{Base64} (s : string) : result string (list byte) :=
  match base64_decode_raw (trim s) with
  | Ok b => Ok b
  | Err e => Err ("proposal is not valid base64: " +:+ e)
  end.

(** [encode]. *)
Definition encode `{Base64, Serde Action} (a : Action) : string :=
  PREFIX +:+ base64_encode (to_json a).

(** The co-signatures of [decode] from position [i] on. *)
Fixpoint decode_cosigs `{Platform} (key_of : string -> option (list byte)) (a : Action) (i : nat)
    (l : list CoSig) : result string unit :=
  match l with
  | [] => Ok tt
  | cs :: l' =>
      k ← ok_or (key_of (cs_origin cs))
            ("unknown co-signer " +:+ cs_origin cs +:+ ": no key for it");
      if verify_cosig a i k then decode_cosigs key_of a (S i) l'
      else Err ("co-signature from " +:+ cs_origin cs
                  +:+ " does not verify (the proposal was altered)")
  end.

(** [decode]. *)
Definition decode `{Platform, Base64, Serde Action} (key_of : string -> option (list byte))
    (token : string) : result string Action :=
  body ← ok_or (strip_prefix PREFIX (trim token))
           ("not a proposal token (expected it to start with " +:+ PREFIX +:+ ")");
  raw ← base64_decode body;
  match from_json raw with
  | Err e => Err ("malformed proposal: " +:+ e)
  | Ok a =>
      k ← ok_or (key_of (a_origin a))
            ("unknown proposer " +:+ a_origin a +:+ ": no key for it");
      if verify a k then
        _ ← decode_cosigs key_of a 0 (a_cosig a);
        Ok a
      else Err "the proposer's signature does not verify (the proposal was altered)"
  end.

(** [add_cosig]. *)
Definition add_cosig `{Platform} (a : Action) (origin : string) (key : SigningKey) :
    result string Action :=
  if bool_decide (a_origin a = origin)
  then Err "you proposed this action; your signature already counts toward the quorum"
  else if existsb (fun c => bool_decide (cs_origin c = origin)) (a_cosig a)
  then Err "you have already co-signed this proposal"
  else Ok (with_cosig a (a_cosig a ++
             [{| cs_origin := origin; cs_sig := ed_sign key (message_bytes a) |}])).

(** [endorser_count]. *)
Definition endorser_count (a : Action) (members : list string) : nat :=
  length (foldl (fun seen o => if contains members o && negb (contains seen o)
                               then seen ++ [o] else seen)
            (if contains members (a_origin a) then [a_origin a] else [])
            (cs_origin <$> a_cosig a)).

(** ** Lemmas *)

Section Tokens.
Context `{Platform}.

Lemma decode_cosigs_ok key_of a l i :
  decode_cosigs key_of a i l = Ok tt <->
  forall j cs, l !! j = Some cs ->
    exists k, key_of (cs_origin cs) = Some k /\ verify_cosig a (i + j) k = true.
Proof.
  revert i. induction l as [|c l IH]; intros i; simpl; [split; [done|by intros]|].
  rewrite bind_ok. setoid_rewrite ok_or_ok. split.
  - intros (k & Hk & Hc) j cs Hj. destruct (verify_cosig a i k) eqn:V; [|done].
    destruct j as [|j]; simpl in Hj.
    + injection Hj as <-. exists k. by rewrite Nat.add_0_r.
    + rewrite <- Nat.add_succ_comm. by apply (proj1 (IH (S i)) Hc).
  - intros Hall. destruct (Hall 0 c eq_refl) as (k & Hk & V). rewrite Nat.add_0_r in V.
    exists k. split; [done|]. rewrite V. apply IH. intros j cs Hj.
    rewrite Nat.add_succ_comm. by apply Hall.
Qed.

(** The signatures of a token hold under the keys of [key_of]. *)
Definition signatures_hold (key_of : string -> option (list byte)) (a : Action) : Prop :=
  (exists k, key_of (a_origin a) = Some k /\ verify a k = true) /\
  (forall i cs, a_cosig a !! i = Some cs ->
     exists k, key_of (cs_origin cs) = Some k /\ verify_cosig a i k = true).

(** What [decode] does with the action once the token is read. *)
Lemma check_signatures_ok key_of a :
  (exists k, ok_or (key_of (a_origin a)) ("unknown proposer " +:+ a_origin a +:+ ": no key for it") = Ok k
     /\ (if verify a k then (_ ← decode_cosigs key_of a 0 (a_cosig a); Ok a)
         else Err "the proposer's signature does not verify (the proposal was altered)") = Ok a)
  <-> signatures_hold key_of a.
Proof.
  setoid_rewrite ok_or_ok. unfold signatures_hold. split.
  - intros (k & Hk & Hc). destruct (verify a k) eqn:V; [|done].
    rewrite bind_ok in Hc. destruct Hc as ([] & Hd & _).
    split; [by exists k|]. exact (proj1 (decode_cosigs_ok key_of a (a_cosig a) 0) Hd).
  - intros [(k & Hk & V) Hc]. exists k. split; [done|]. rewrite V.
    rewrite bind_ok. exists tt. split; [|done]. by apply decode_cosigs_ok.
Qed.

Lemma decode_ok `{Base64, Serde Action} key_of token a :
  decode key_of token = Ok a <->
  (exists body raw, strip_prefix PREFIX (trim token) = Some body /\
     base64_decode body = Ok raw /\ from_json raw = Ok a) /\
  signatures_hold key_of a.
Proof.
  unfold decode. rewrite bind_ok. setoid_rewrite ok_or_ok. setoid_rewrite bind_ok. split.
  - intros (body & Hb & raw & Hr & Hd). destruct (from_json raw) as [b|] eqn:Ha; [|done].
    assert (Eb : b = a).
    { rewrite bind_ok in Hd. destruct Hd as (k & _ & Hd). destruct (verify b k); [|done].
      rewrite bind_ok in Hd. destruct Hd as (? & _ & Hd). by injection Hd. }
    subst b. split; [by eauto|]. apply check_signatures_ok. by rewrite bind_ok in Hd.
  - intros [(body & raw & Hb & Hr & Ha) Hs]. exists body. split; [done|]. exists raw.
    split; [done|]. rewrite Ha. rewrite bind_ok. by apply check_signatures_ok.
Qed.

Lemma encode_graphic `{Base64Laws, Serde Action} a :
  Forall (fun c => is_space c = false) (String.list_ascii_of_string (encode a)).
Proof.
  unfold encode. rewrite list_ascii_app. apply Forall_app. split; [|apply base64_graphic].
  by repeat constructor.
Qed.

(** ** The number of endorsers *)

Lemma count_fold (members l seen : list string) :
  NoDup seen -> (forall o, o ∈ seen -> o ∈ members) ->
  let r := foldl (fun seen o => if contains members o && negb (contains seen o)
                                then seen ++ [o] else seen) seen l in
  NoDup r /\ (forall o, o ∈ r <-> o ∈ seen \/ (o ∈ l /\ o ∈ members)).
Proof.
  revert seen. induction l as [|o l IH]; intros seen Hn Hm; simpl.
  { split; [done|]. intros o. split; [by left|]. intros [?|[Hin _]]; [done|].
    by apply not_elem_of_nil in Hin. }
  destruct (contains members o) eqn:Ho, (contains seen o) eqn:Hs; simpl;
    rewrite ?contains_true, ?contains_false in Ho; rewrite ?contains_true, ?contains_false in Hs.
  2: { destruct (IH (seen ++ [o])) as [H1 H2].
    - apply NoDup_app. split; [done|]. split; [|apply NoDup_singleton].
      intros x Hx E. apply list_elem_of_singleton in E. by subst x.
    - intros x [Hx|Hx]%elem_of_app; [by apply Hm|].
      apply list_elem_of_singleton in Hx. by subst x.
    - split; [done|]. intros x. rewrite H2, elem_of_app, list_elem_of_singleton, elem_of_cons.
      naive_solver. }
  all: destruct (IH seen Hn Hm) as [H1 H2]; split; [done|]; intros x;
    rewrite H2, elem_of_cons; naive_solver.
Qed.

Lemma endorser_count_size a members :
  endorser_count a members = size (endorsers (list_to_set members) a).
Proof.
  unfold endorser_count. rewrite endorsers_spec.
  destruct (count_fold members (cs_origin <$> a_cosig a)
    (if contains members (a_origin a) then [a_origin a] else [])) as [Hn Hin].
  - case_match; [apply NoDup_singleton|constructor].
  - intros o. unfold contains. destruct (bool_decide_reflect (a_origin a ∈ members));
      [intros E; apply list_elem_of_singleton in E; by subst o|by intros ?%not_elem_of_nil].
  - simpl in Hn, Hin. rewrite <- (size_list_to_set (C := gset string) _ Hn).
    f_equal. apply set_eq. intros o.
    rewrite elem_of_list_to_set, Hin, elem_of_intersection, elem_of_union, elem_of_singleton,
      !elem_of_list_to_set. unfold contains.
    destruct (bool_decide_reflect (a_origin a ∈ members)).
    + rewrite list_elem_of_singleton. naive_solver.
    + split; [|naive_solver]. intros [?%not_elem_of_nil|?]; naive_solver.
Qed.

(** A proposal token carries its action faithfully: pasted with any white
    space around it, [decode] gives the action back exactly when the proposer's
    and every co-signer's signature verify under the keys the reader knows; and
    no token whatever decodes to an action with a signature that does not. *)
Theorem proposal_roundtrip `{Base64Laws, Serde Action} (key_of : string -> option (list byte)) :
  (forall a pre post,
     from_json (to_json a) = Ok a ->
     Forall (fun c => is_space c = true) (String.list_ascii_of_string pre) ->
     Forall (fun c => is_space c = true) (String.list_ascii_of_string post) ->
     decode key_of (pre +:+ encode a +:+ post) = Ok a <-> signatures_hold key_of a) /\
  (forall token a, decode key_of token = Ok a -> signatures_hold key_of a).
Proof.
  split; [|by intros token a [_ Hs]%decode_ok].
  intros a pre post Hj Hpre Hpost. rewrite decode_ok.
  rewrite trim_pasted by (done || apply encode_graphic).
  split; [by intros [_ Hs]|]. intros Hs. split; [|done].
  exists (base64_encode (to_json a)), (to_json a).
  split; [apply strip_prefix_app|]. split; [|done].
  unfold base64_decode. by rewrite (trim_graphic _ (base64_graphic _)), base64_roundtrip.
Qed.

Lemma existsb_origin o l :
  existsb (fun c => bool_decide (cs_origin c = o)) l = true <-> o ∈ (cs_origin <$> l).
Proof.
  rewrite existsb_exists, list_elem_of_fmap. setoid_rewrite bool_decide_eq_true.
  setoid_rewrite <- list_elem_of_In. naive_solver.
Qed.

Lemma add_cosig_ok a o k a' :
  add_cosig a o k = Ok a' <->
  a_origin a <> o /\ o ∉ (cs_origin <$> a_cosig a) /\
  a' = with_cosig a (a_cosig a ++ [{| cs_origin := o; cs_sig := ed_sign k (message_bytes a) |}]).
Proof.
  unfold add_cosig. rewrite <- existsb_origin.
  destruct (bool_decide_reflect (a_origin a = o)), (existsb _ _); naive_solver.
Qed.

Lemma endorsers_snoc members a o s :
  endorsers members (with_cosig a (a_cosig a ++ [{| cs_origin := o; cs_sig := s |}])) =
  endorsers members a ∪ ({[o]} ∩ members).
Proof.
  rewrite !endorsers_spec. simpl. rewrite fmap_app, list_to_set_app_L. simpl. set_solver.
Qed.

(** The signatures of an action survive a further co-signature. *)
Lemma signatures_hold_snoc `{!PlatformLaws} key_of a o k :
  key_of o = Some (verifying_key k) -> signatures_hold key_of a ->
  signatures_hold key_of
    (with_cosig a (a_cosig a ++ [{| cs_origin := o; cs_sig := ed_sign k (message_bytes a) |}])).
Proof.
  intros Ho [Ha Hc]. split; [exact Ha|]. simpl. intros i cs Hi.
  unfold verify_cosig. simpl. rewrite Hi.
  change (message_bytes (with_cosig a _)) with (message_bytes a).
  apply lookup_app_Some in Hi as [Hi|[_ Hi]].
  - destruct (Hc i cs Hi) as (k' & Hk & V). exists k'. split; [done|].
    unfold verify_cosig in V. by rewrite Hi in V.
  - apply list_lookup_singleton_Some in Hi as [_ <-]. exists (verifying_key k).
    split; [done|]. unfold verify_bytes. simpl. rewrite decide_True by apply sign_length.
    apply sign_verify_strict.
Qed.
End Tokens.

(** Co-signing makes exactly one step of progress: it leaves the signed
    bytes, the proposer's signature and the earlier co-signatures as they are,
    the result still verifies, the quorum count (which is the number the store
    computes) grows by one for a member and by nothing for an outsider, and
    neither the proposer nor an earlier co-signer can sign again. *)
Theorem cosign_progress `{PlatformLaws} (key_of : string -> option (list byte))
    (members : list string) (a a' : Action) (o : string) (k : SigningKey) :
  key_of o = Some (verifying_key k) -> signatures_hold key_of a ->
  add_cosig a o k = Ok a' ->
  message_bytes a' = message_bytes a /\ a_sig a' = a_sig a /\
  a_cosig a `prefix_of` a_cosig a' /\
  signatures_hold key_of a' /\
  endorser_count a' members = endorser_count a members + (if contains members o then 1 else 0) /\
  endorser_count a' members = size (endorsers (list_to_set members) a') /\
  forall k', is_ok (add_cosig a' o k') = false /\ is_ok (add_cosig a' (a_origin a) k') = false.
Proof.
  intros Ho Hs (Hne & Hnew & ->)%add_cosig_ok.
  split; [done|]. split; [done|]. split; [by eexists|].
  split; [by apply signatures_hold_snoc|]. split; [|split; [apply endorser_count_size|]].
  - rewrite !endorser_count_size, endorsers_snoc. unfold contains.
    destruct (bool_decide_reflect (o ∈ members)) as [Hm|Hm].
    + rewrite size_union; [|rewrite endorsers_spec; set_solver].
      replace ({[o]} ∩ list_to_set members) with ({[o]} : gset string) by set_solver.
      by rewrite size_singleton.
    + replace ({[o]} ∩ list_to_set members) with (∅ : gset string) by set_solver.
      rewrite union_empty_r_L. lia.
  - intros k'. split.
    + destruct (add_cosig _ o k') eqn:E; [|done]. apply add_cosig_ok in E as (_ & Hin & _).
      destruct Hin. simpl. rewrite fmap_app. apply elem_of_app. right. by left.
    + destruct (add_cosig _ (a_origin a) k') eqn:E; [|done]. by apply add_cosig_ok in E as [? _].
Qed.

(** ** Witnesses *)

Module Example.
Definition proposal : Action := sign (with_cosig Golden.action []) (sk 1).
Definition cosigned : Action :=
  match add_cosig proposal "bob" (sk 2) with Ok a => a | Err _ => proposal end.
Definition known (o : string) : option (list byte) :=
  if decide (o = a_origin proposal) then Some (verifying_key (sk 1))
  else if decide (o = "bob") then Some (verifying_key (sk 2)) else None.

(** The JSON text of the two actions. *)
#[export] Instance sample_serde : Serde Action := {|
  to_json := fun a => match a_cosig a with [] => [x01] | _ => [x02] end;
  from_json := fun b =>
    match b with
    | [x01] => Ok proposal
    | [x02] => Ok cosigned
    | _ => Err "expected value at line 1 column 1"
    end
|}.
End Example.
Import Example.

Lemma cosigned_holds : signatures_hold known cosigned.
Proof.
  split; [exists (verifying_key (sk 1)); split; vm_compute; reflexivity|].
  intros [|i] cs Hi; [|destruct i; discriminate Hi].
  injection Hi as <-. exists (verifying_key (sk 2)). split; vm_compute; reflexivity.
Qed.

Lemma proposal_holds : signatures_hold known proposal.
Proof.
  split; [exists (verifying_key (sk 1)); split; vm_compute; reflexivity|].
  intros [|i] cs Hi; discriminate Hi.
Qed.

Lemma proposal_roundtrip_witness :
  decode known (" " +:+ encode cosigned +:+ String (ascii_of_N 10) EmptyString) = Ok cosigned.
Proof.
  apply (proposal_roundtrip known).
  - reflexivity.
  - repeat constructor.
  - repeat constructor.
  - exact cosigned_holds.
Defined.

Lemma cosign_progress_witness :
  let members := [a_origin proposal; "bob"; "carol"] in
  endorser_count proposal members = 1 /\ endorser_count cosigned members = 2.
Proof.
  intros members. split; [reflexivity|].
  destruct (cosign_progress known members proposal cosigned "bob" (sk 2)) as (_ & _ & _ & _ & E & _).
  - reflexivity.
  - exact proposal_holds.
  - reflexivity.
  - rewrite E. reflexivity.
Defined.
