(* ===== verification/Invite.v ===== *)
(** One-shot invites (src/p2p/invite.rs): the signed token an inviter hands out,
    the signed acceptance a joiner answers with, and the choice of the address
    an invite carries. *)

From stdpp Require Import base list gmap strings numbers pretty.
From Stdlib Require Import Strings.Byte Strings.Ascii.
From S2P Require Import Prelude Json Doc Sample Action Text.

Definition TOKEN_MAGIC : list byte := as_bytes "ph-reactor/invite/v1".
Definition ACCEPT_MAGIC : list byte := as_bytes "ph-reactor/accept/v1".
Definition NONCE_BYTES : nat := 16.

(** [push_str]. *)
Definition push_str (s : string) : list byte := len_prefixed (as_bytes s).

Record InviteToken := {
  t_version : N;
  t_name : string;
  t_peer_id : string;
  t_pubkey : list byte;
  t_addr : string;
  t_nonce : list byte;
  t_groups : list string;
  t_sig : list byte
}.

Record InviteAccept := {
  c_nonce : list byte;
  c_name : string;
  c_peer_id : string;
  c_pubkey : list byte;
  c_sig : list byte
}.

(** [InviteToken::message_bytes]. *)
Definition token_message_bytes (t : InviteToken) : list byte :=
  TOKEN_MAGIC ++ be_bytes 4 (t_version t) ++ push_str (t_name t) ++ push_str (t_peer_id t)
  ++ t_pubkey t ++ push_str (t_addr t) ++ t_nonce t
  ++ be_bytes 4 (u32_of_nat (length (t_groups t))) ++ (t_groups t ≫= push_str).

(** [InviteAccept::message_bytes]. *)
Definition accept_message_bytes (c : InviteAccept) : list byte :=
  ACCEPT_MAGIC ++ c_nonce c ++ push_str (c_name c) ++ push_str (c_peer_id c) ++ c_pubkey c.

Section Invites.
Context `{Platform}.

(** [verifying_key] of this module: the length check, then the key check. *)
Definition invite_verifying_key (pk : list byte) : result string (list byte) :=
  if decide (length pk = 32) then
    match vk_from_bytes pk with Ok _ => Ok pk | Err e => Err e end
  else Err ("pubkey must be 32 bytes, got " +:+ pretty (length pk)).

(** [InviteToken::sign]. *)
Definition token_sign (t : InviteToken) (key : SigningKey) : InviteToken :=
  {| t_version := t_version t; t_name := t_name t; t_peer_id := t_peer_id t;
     t_pubkey := t_pubkey t; t_addr := t_addr t; t_nonce := t_nonce t;
     t_groups := t_groups t; t_sig := ed_sign key (token_message_bytes t) |}.

(** [InviteToken::make], on the outcome of [new_nonce]. *)
Definition token_make (name peer_id : string) (key : SigningKey) (addr : string)
    (groups : list string) (new_nonce : result string (list byte)) : result string InviteToken :=
  n ← new_nonce;
  Ok (token_sign {| t_version := 1; t_name := name; t_peer_id := peer_id;
                    t_pubkey := verifying_key key; t_addr := addr; t_nonce := n;
                    t_groups := groups; t_sig := [] |} key).

(** [InviteToken::verify]; the texts of the signature crate are left out. *)
Definition token_verify (t : InviteToken) : result string unit :=
  pk ← invite_verifying_key (t_pubkey t);
  if decide (length (t_sig t) = 64) then
    if ed_verify_strict pk (token_message_bytes t) (t_sig t) then Ok tt
    else Err "invite signature invalid"
  else Err "bad invite sig".

(** [InviteToken::encode]. *)
Definition token_encode `{Base64, Serde InviteToken} (t : InviteToken) : string :=
  base64_encode (to_json t).

(** [InviteToken::decode]. *)
Definition token_decode `{Base64, Serde InviteToken} (s : string) : result string InviteToken :=
  match base64_decode_raw (trim s) with
  | Err e => Err ("not a valid invite (bad encoding): " +:+ e)
  | Ok j =>
      match from_json j with
      | Err e => Err ("bad invite: " +:+ e)
      | Ok t => _ ← token_verify t; Ok t
      end
  end.

(** [InviteAccept::sign]. *)
Definition accept_sign (c : InviteAccept) (key : SigningKey) : InviteAccept :=
  {| c_nonce := c_nonce c; c_name := c_name c; c_peer_id := c_peer_id c;
     c_pubkey := c_pubkey c; c_sig := ed_sign key (accept_message_bytes c) |}.

(** [InviteAccept::make]. *)
Definition accept_make (nonce : list byte) (name peer_id : string) (key : SigningKey) :
    InviteAccept :=
  accept_sign {| c_nonce := nonce; c_name := name; c_peer_id := peer_id;
                 c_pubkey := verifying_key key; c_sig := [] |} key.

(** [InviteAccept::verify]. *)
Definition accept_verify (c : InviteAccept) : result string unit :=
  pk ← invite_verifying_key (c_pubkey c);
  if decide (length (c_sig c) = 64) then
    if ed_verify_strict pk (accept_message_bytes c) (c_sig c) then Ok tt
    else Err "accept signature invalid"
  else Err "bad accept sig".
End Invites.

(** [pick_invite_addr]. *)
Definition pick_invite_addr (external : list string) (listen : option string) : option string :=
  match find (fun a => negb (bool_decide (trim a = ""))) external with
  | Some first => Some (trim first)
  | None => listen
  end.

(** [str::contains]. *)
Fixpoint str_contains (s p : string) : bool :=
  String.prefix p s ||
  match s with EmptyString => false | String _ s' => str_contains s' p end.

(** [is_undialable_by_peers]. *)
Definition is_undialable_by_peers (addr : string) : bool :=
  str_contains addr "/ip4/0.0.0.0/" || str_contains addr "/ip6/::/"
  || str_contains addr "/ip4/127." || str_contains addr "/ip6/::1/".

(** ** The signed bytes *)

(** The lengths and integers of a token are in range. *)
Record token_in_range (t : InviteToken) : Prop := {
  tr_version : (t_version t < 2 ^ 32)%N;
  tr_name : fits_u32 (slen (t_name t));
  tr_peer_id : fits_u32 (slen (t_peer_id t));
  tr_pubkey : length (t_pubkey t) = 32;
  tr_addr : fits_u32 (slen (t_addr t));
  tr_nonce : length (t_nonce t) = NONCE_BYTES;
  tr_count : fits_u32 (length (t_groups t));
  tr_groups : Forall (fun g => fits_u32 (slen g)) (t_groups t)
}.
Record accept_in_range (c : InviteAccept) : Prop := {
  cr_nonce : length (c_nonce c) = NONCE_BYTES;
  cr_name : fits_u32 (slen (c_name c));
  cr_peer_id : fits_u32 (slen (c_peer_id c))
}.

Definition token_fields (t : InviteToken) :=
  (t_version t, t_name t, t_peer_id t, t_pubkey t, t_addr t, t_nonce t, t_groups t).
Definition accept_fields (c : InviteAccept) := (c_nonce c, c_name c, c_peer_id c, c_pubkey c).

Lemma push_str_app_inj s t r r' :
  fits_u32 (slen s) -> fits_u32 (slen t) ->
  push_str s ++ r = push_str t ++ r' -> s = t /\ r = r'.
Proof. exact (str_prefixed_app_inj s t r r'). Qed.

Lemma groups_inj (l k : list string) :
  Forall (fun g => fits_u32 (slen g)) l -> Forall (fun g => fits_u32 (slen g)) k ->
  length l = length k -> l ≫= push_str = k ≫= push_str -> l = k.
Proof.
  revert k. induction l as [|g l IH]; intros [|h k] Hl Hk L E; try done.
  apply Forall_cons_1 in Hl as [Hg Hl]. apply Forall_cons_1 in Hk as [Hh Hk].
  rewrite !bind_cons in E. destruct (push_str_app_inj g h _ _ Hg Hh E) as [-> E'].
  f_equal. apply IH; [exact Hl|exact Hk| |exact E']. by injection L.
Qed.

Lemma u32_bound n : (u32_of_nat n < 256 ^ N.of_nat 4)%N.
Proof. unfold u32_of_nat. by apply N.mod_lt. Qed.

Lemma token_bytes_inj t u :
  token_in_range t -> token_in_range u ->
  token_message_bytes t = token_message_bytes u -> token_fields t = token_fields u.
Proof.
  intros [] [] E. unfold token_message_bytes in E. apply app_inv_head in E.
  apply be_bytes_app_inj in E as [E1 E]; [|done..].
  apply push_str_app_inj in E as [E2 E]; [|done..].
  apply push_str_app_inj in E as [E3 E]; [|done..].
  apply app_inj_len in E as [E4 E]; [|congruence].
  apply push_str_app_inj in E as [E5 E]; [|done..].
  apply app_inj_len in E as [E6 E]; [|congruence].
  apply be_bytes_app_inj in E as [E7 E]; [|apply u32_bound..].
  apply u32_of_nat_inj in E7; [|done..]. apply groups_inj in E; [|done..].
  unfold token_fields. congruence.
Qed.

Lemma accept_bytes_inj c d :
  accept_in_range c -> accept_in_range d ->
  accept_message_bytes c = accept_message_bytes d -> accept_fields c = accept_fields d.
Proof.
  intros [] [] E. unfold accept_message_bytes in E. apply app_inv_head in E.
  apply app_inj_len in E as [E1 E]; [|congruence].
  apply push_str_app_inj in E as [E2 E]; [|done..].
  apply push_str_app_inj in E as [E3 E]; [|done..].
  unfold accept_fields. congruence.
Qed.

(** The byte at position 16 tells an action (1) from a token and an acceptance,
    whose magic has a letter there; the two magics differ before that. *)
Lemma action_byte16 `{Platform} a : message_bytes a !! 16 = Some x01.
Proof.
  unfold message_bytes, docid_bytes. rewrite lookup_app_r by by rewrite be_bytes_length.
  by rewrite be_bytes_length.
Qed.

Lemma token_byte16 t : token_message_bytes t !! 16 = Some x65.
Proof. reflexivity. Qed.
Lemma accept_byte16 c : accept_message_bytes c !! 16 = Some x74.
Proof. reflexivity. Qed.

(** The bytes an invite or an acceptance signs determine every field of it,
    given the 32-byte key and 16-byte nonce of a token that [make] built; and
    the signed bytes of actions, invites and acceptances never coincide, so a
    signature made for one of the three can not be presented as another. *)
Theorem signed_messages_distinct `{Platform} :
  (forall t u, token_in_range t -> token_in_range u ->
     token_message_bytes t = token_message_bytes u -> token_fields t = token_fields u) /\
  (forall c d, accept_in_range c -> accept_in_range d ->
     accept_message_bytes c = accept_message_bytes d -> accept_fields c = accept_fields d) /\
  (forall a t c, message_bytes a <> token_message_bytes t /\
     message_bytes a <> accept_message_bytes c /\
     token_message_bytes t <> accept_message_bytes c).
Proof.
  split; [exact token_bytes_inj|]. split; [exact accept_bytes_inj|]. intros a t c.
  split_and!; intros E; apply (f_equal (lookup 16)) in E;
    rewrite ?action_byte16, ?token_byte16, ?accept_byte16 in E; discriminate E.
Qed.

(** ** Making, verifying and carrying an invite *)

Lemma invite_key_of_signer `{PlatformLaws} k : invite_verifying_key (verifying_key k) = Ok (verifying_key k).
Proof. unfold invite_verifying_key. by rewrite decide_True, vk_valid by apply vk_length. Qed.

Lemma token_sign_verify `{PlatformLaws} t k :
  t_pubkey t = verifying_key k -> token_verify (token_sign t k) = Ok tt.
Proof.
  intros E. unfold token_verify. simpl. rewrite E, invite_key_of_signer. simpl.
  rewrite decide_True by apply sign_length.
  change (token_message_bytes (token_sign t k)) with (token_message_bytes t).
  by rewrite sign_verify_strict.
Qed.

Lemma token_decode_ok `{Platform, Base64, Serde InviteToken} s t :
  token_decode s = Ok t <->
  (exists j, base64_decode_raw (trim s) = Ok j /\ from_json j = Ok t) /\ token_verify t = Ok tt.
Proof.
  unfold token_decode. destruct (base64_decode_raw (trim s)) as [j|];
    [|split; [done|by intros [(? & ? & _) _]]].
  destruct (from_json j) as [u|] eqn:Hj;
    [|split; [done|intros [(j' & [= <-] & E) _]; by rewrite Hj in E]]. rewrite bind_ok. split.
  - intros ([] & V & E). injection E as ->. eauto.
  - intros [(j' & [= <-] & E) V]. rewrite Hj in E. injection E as ->. by exists tt.
Qed.

(** An invite survives its trip: what [make] builds verifies, carries the
    inviter's key and the fields asked for, and [decode] of its encoding gives
    it back; no text decodes to an invite whose signature does not verify, and
    without randomness there is no invite. *)
Theorem invite_roundtrip `{PlatformLaws, !Base64, !Base64Laws, Serde InviteToken} :
  (forall name pid k addr groups n, exists t,
     token_make name pid k addr groups (Ok n) = Ok t /\
     token_fields t = (1%N, name, pid, verifying_key k, addr, n, groups) /\
     token_verify t = Ok tt /\
     (from_json (to_json t) = Ok t -> token_decode (token_encode t) = Ok t)) /\
  (forall name pid k addr groups e, token_make name pid k addr groups (Err e) = Err e) /\
  (forall s t, token_decode s = Ok t -> token_verify t = Ok tt) /\
  (forall n name pid k, accept_verify (accept_make n name pid k) = Ok tt).
Proof.
  split; [|split; [done|split; [by intros s t [_ V]%token_decode_ok|]]].
  - intros name pid k addr groups n. eexists. split; [reflexivity|]. split; [done|].
    split; [by apply token_sign_verify|]. intros Hj. apply token_decode_ok.
    split; [|by apply token_sign_verify]. eexists. split; [|exact Hj].
    unfold token_encode. by rewrite (trim_graphic _ (base64_graphic _)), base64_roundtrip.
  - intros n name pid k. unfold accept_verify. simpl. rewrite invite_key_of_signer. simpl.
    rewrite decide_True by apply sign_length.
    change (accept_message_bytes (accept_make n name pid k)) with
      (accept_message_bytes {| c_nonce := n; c_name := name; c_peer_id := pid;
                               c_pubkey := verifying_key k; c_sig := [] |}).
    by rewrite sign_verify_strict.
Qed.

(** The nonce has no length prefix and [verify] does not check its length:
    from any invite whose last group is the empty string anyone can build
    another one, with the same signature, a longer nonce and no groups at all,
    and it verifies too. *)
Theorem invite_groups_strippable `{PlatformLaws} name pid k addr g n t :
  token_make name pid k addr [g; ""] (Ok n) = Ok t ->
  exists u, token_verify u = Ok tt /\ t_sig u = t_sig t /\ t_groups u = [] /\
    t_name u = t_name t /\ t_peer_id u = t_peer_id t /\ t_pubkey u = t_pubkey t.
Proof.
  intros [= <-].
  exists {| t_version := 1; t_name := name; t_peer_id := pid; t_pubkey := verifying_key k;
       t_addr := addr; t_nonce := n ++ be_bytes 4 2 ++ push_str g; t_groups := [];
       t_sig := t_sig (token_sign {| t_version := 1; t_name := name; t_peer_id := pid;
                  t_pubkey := verifying_key k; t_addr := addr; t_nonce := n;
                  t_groups := [g; ""]; t_sig := [] |} k) |}.
  split; [|done]. unfold token_verify. simpl. rewrite invite_key_of_signer. simpl.
  rewrite decide_True by apply sign_length.
  replace (token_message_bytes _) with
    (token_message_bytes {| t_version := 1; t_name := name; t_peer_id := pid;
       t_pubkey := verifying_key k; t_addr := addr; t_nonce := n;
       t_groups := [g; ""]; t_sig := [] |}); [by rewrite sign_verify_strict|].
  unfold token_message_bytes. simpl. by rewrite <- !app_assoc.
Qed.

(** ** The address of an invite *)

(** The address of an invite is the first configured external address that
    is not blank, trimmed; the listen address is used only when there is none,
    and there is no address exactly when both are missing. *)
Theorem pick_invite_addr_exact external listen :
  (forall pre a post, external = pre ++ a :: post ->
     Forall (fun x => trim x = "") pre -> trim a <> "" ->
     pick_invite_addr external listen = Some (trim a)) /\
  (Forall (fun x => trim x = "") external -> pick_invite_addr external listen = listen).
Proof.
  unfold pick_invite_addr. split.
  - intros pre a post -> Hpre Ha. induction Hpre as [|x pre Hx Hpre IH]; simpl.
    + by rewrite bool_decide_eq_false_2.
    + by rewrite bool_decide_eq_true_2.
  - intros Hall. induction Hall as [|x l Hx Hl IH]; simpl; [done|].
    by rewrite bool_decide_eq_true_2.
Qed.

(** ** Witnesses *)

Module InviteExample.
Definition nonce : list byte := replicate 16 x07.
Definition token : InviteToken :=
  token_sign {| t_version := 1; t_name := "home"; t_peer_id := "12D3"; t_pubkey := verifying_key (sk 1);
     t_addr := "/ip4/10.0.0.2/tcp/4201"; t_nonce := nonce; t_groups := ["powerhouse"; ""];
     t_sig := [] |} (sk 1).
#[export] Instance sample_serde_token : Serde InviteToken := {|
  to_json := fun _ => [x01];
  from_json := fun b => match b with [x01] => Ok token | _ => Err "expected value" end
|}.
Definition accept : InviteAccept := accept_make nonce "cabin" "12D4" (sk 2).
End InviteExample.
Import InviteExample.

Lemma signed_messages_distinct_witness :
  token_in_range token /\ token_fields token = token_fields (token_sign token (sk 5)) /\
  accept_fields accept = accept_fields (accept_sign accept (sk 5)).
Proof.
  split; [by repeat constructor|].
  split; [apply signed_messages_distinct|apply signed_messages_distinct].
  - by repeat constructor.
  - by repeat constructor.
  - reflexivity.
  - by repeat constructor.
  - by repeat constructor.
  - reflexivity.
Defined.

Lemma invite_roundtrip_witness : token_decode (token_encode token) = Ok token.
Proof.
  destruct invite_roundtrip as [Hmake _].
  destruct (Hmake "home" "12D3" (sk 1) "/ip4/10.0.0.2/tcp/4201" ["powerhouse"; ""] nonce)
    as (t & Ht & _ & _ & Hd).
  injection Ht as <-. apply Hd. reflexivity.
Defined.

Lemma invite_groups_strippable_witness :
  exists u, token_verify u = Ok tt /\ t_sig u = t_sig token /\ t_groups u = [].
Proof.
  destruct (invite_groups_strippable "home" "12D3" (sk 1) "/ip4/10.0.0.2/tcp/4201" "powerhouse"
    nonce token) as (u & V & S & G & _).
  - reflexivity.
  - exists u. split; [exact V|]. split; [exact S|exact G].
Defined.

Lemma pick_invite_addr_exact_witness :
  pick_invite_addr [""; "  "; " /ip4/198.51.100.1/tcp/25422"] (Some "/ip4/127.0.0.1/tcp/1")
  = Some "/ip4/198.51.100.1/tcp/25422".
Proof.
  apply (proj1 (pick_invite_addr_exact _ _) [""; "  "] " /ip4/198.51.100.1/tcp/25422" []).
  - reflexivity.
  - by repeat constructor.
  - discriminate.
Defined.

(** The addresses of the repository's test of [is_undialable_by_peers]. *)
Example undialable_examples :
  is_undialable_by_peers <$>
    ["/ip4/127.0.0.1/tcp/25423/ws"; "/ip4/0.0.0.0/tcp/25422"; "/ip6/::1/tcp/25422";
     "/ip4/46.225.34.129/tcp/25422"; "/dns4/ws.example/tcp/443/tls/ws"]
  = [true; true; true; false; false].
Proof. reflexivity. Qed.
