(* ===== verification/Blob.v ===== *)
(** Content-addressed chunk storage (src/blob/mod.rs): a blob is cut into chunks
    of 256 KiB, each kept in a file named after its hash.  The directory is a
    map from hash to contents; file operations succeed.  Contents may have
    changed behind the program's back, so nothing is assumed of a chunk that is
    already there except where a theorem says so. *)

From stdpp Require Import base list gmap strings numbers pretty.
From Stdlib Require Import Strings.Byte Strings.Ascii.
From S2P Require Import Prelude Json Doc Sample.

(** [CHUNK_BYTES]: 256 KiB. *)
Definition CHUNK_BYTES : nat := 512 * 512.

Record BlobRef := { br_hash : Hash32; br_size : N; br_chunks : list Hash32 }.

(** [BlobStore]: the chunk files of its directory. *)
Abbreviation BlobStore := (gmap N (list byte)) (only parsing).

(** [slice::chunks]; the fuel is the length, which is enough because every
    chunk but none is empty. *)
Fixpoint chunks_from {A} (fuel n : nat) (l : list A) : list (list A) :=
  match fuel, l with
  | O, _ | _, [] => []
  | S fuel', _ => take n l :: chunks_from fuel' n (drop n l)
  end.
Definition chunks {A} (n : nat) (l : list A) : list (list A) := chunks_from (length l) n l.

(** [x as u64] of a length. *)
Definition len_u64 {A} (l : list A) : N := wrap64 (N.of_nat (length l)).

Section Blobs.
Context `{Platform} (show_hash : Hash32 -> string).
Implicit Type s : BlobStore.

(** [BlobRef::of]. *)
Definition blobref_of (bytes : list byte) : BlobRef :=
  {| br_hash := hash32_of bytes; br_size := len_u64 bytes;
     br_chunks := hash32_of <$> chunks CHUNK_BYTES bytes |}.

(** [has_chunk], [get_chunk]. *)
Definition has_chunk (s : BlobStore) (h : Hash32) : bool := bool_decide (is_Some (s !! h)).
Definition get_chunk (s : BlobStore) (h : Hash32) : option (list byte) := s !! h.

(** [put_chunk]. *)
Definition put_chunk (s : BlobStore) (claimed : Hash32) (bytes : list byte) :
    BlobStore * result string unit :=
  let actual := hash32_of bytes in
  if decide (actual = claimed) then
    if has_chunk s claimed then (s, Ok tt) else (<[claimed := bytes]> s, Ok tt)
  else (s, Err ("chunk does not match its hash (claimed " +:+ show_hash claimed
                  +:+ ", got " +:+ show_hash actual +:+ ")")).

(** The loop of [put] over the chunks and their hashes. *)
Fixpoint put_chunks (s : BlobStore) (l : list (Hash32 * list byte)) : BlobStore * result string unit :=
  match l with
  | [] => (s, Ok tt)
  | (h, c) :: l' =>
      match put_chunk s h c with
      | (s', Ok _) => put_chunks s' l'
      | (s', Err e) => (s', Err e)
      end
  end.

(** [put]. *)
Definition put (s : BlobStore) (bytes : list byte) : BlobStore * result string BlobRef :=
  let r := blobref_of bytes in
  match put_chunks s (zip (br_chunks r) (chunks CHUNK_BYTES bytes)) with
  | (s', Ok _) => (s', Ok r)
  | (s', Err e) => (s', Err e)
  end.

(** [missing]: the filter with its set of hashes already seen. *)
Fixpoint missing_from (s : BlobStore) (seen : gset N) (l : list Hash32) : list Hash32 :=
  match l with
  | [] => []
  | h :: l' =>
      if decide (h ∈ seen) then missing_from s seen l'
      else if has_chunk s h then missing_from s ({[h]} ∪ seen) l'
      else h :: missing_from s ({[h]} ∪ seen) l'
  end.
Definition missing (s : BlobStore) (r : BlobRef) : list Hash32 := missing_from s ∅ (br_chunks r).

(** [is_complete]. *)
Definition is_complete (s : BlobStore) (r : BlobRef) : bool := forallb (has_chunk s) (br_chunks r).

(** The loop of [get]. *)
Fixpoint gather (s : BlobStore) (out : list byte) (l : list Hash32) : result string (list byte) :=
  match l with
  | [] => Ok out
  | h :: l' => c ← ok_or (get_chunk s h) ("missing chunk " +:+ show_hash h); gather s (out ++ c) l'
  end.

(** [get]. *)
Definition get (s : BlobStore) (r : BlobRef) : result string (list byte) :=
  out ← gather s [] (br_chunks r);
  if decide (len_u64 out = br_size r) then
    if decide (hash32_of out = br_hash r) then Ok out
    else Err ("reassembled blob does not match its hash (want " +:+ show_hash (br_hash r)
                +:+ ", got " +:+ show_hash (hash32_of out) +:+ ")")
  else Err ("reassembled " +:+ pretty (length out) +:+ " bytes, expected " +:+ pretty (br_size r)).

(** [gc]. *)
Definition gc (s : BlobStore) (keep : list BlobRef) : BlobStore * nat :=
  let live : gset N := list_to_set (keep ≫= br_chunks) in
  let kept := filter (fun p => p.1 ∈ live) s in
  (kept, size s - size kept).

(** ** Chunking *)

Lemma chunks_from_concat {A} fuel n (l : list A) :
  0 < n -> length l <= fuel -> concat (chunks_from fuel n l) = l.
Proof.
  intros Hn. revert l. induction fuel as [|fuel IH]; intros l Hl; simpl.
  - by destruct l; [|simpl in Hl; lia].
  - destruct l as [|x l]; [done|]. cbn [concat]. rewrite IH; [apply take_drop|].
    rewrite length_drop. simpl in *. lia.
Qed.

Lemma chunks_from_short {A} fuel n (l : list A) :
  Forall (fun c => length c <= n) (chunks_from fuel n l).
Proof.
  revert l. induction fuel as [|fuel IH]; intros l; simpl; [by destruct l|].
  destruct l; constructor; [|apply IH]. rewrite length_take. lia.
Qed.

Lemma CHUNK_BYTES_pos : 0 < CHUNK_BYTES.
Proof. unfold CHUNK_BYTES. lia. Qed.
#[local] Opaque CHUNK_BYTES.

Lemma chunks_concat {A} (l : list A) : concat (chunks CHUNK_BYTES l) = l.
Proof. apply chunks_from_concat; [apply CHUNK_BYTES_pos|done]. Qed.

(** ** Storing *)

(** Every stored chunk hashes to its name. *)
Definition blobs_honest (s : BlobStore) : Prop := map_Forall (fun h c => hash32_of c = h) s.

Lemma put_chunk_ok s h c : hash32_of c = h ->
  put_chunk s h c = (if has_chunk s h then s else <[h := c]> s, Ok tt).
Proof. intros E. unfold put_chunk. rewrite decide_True by done. by case_match. Qed.

Lemma put_chunk_honest s h c : blobs_honest s -> blobs_honest (put_chunk s h c).1.
Proof.
  intros Hs. unfold put_chunk. case_decide as E; [|done]. case_match; [done|].
  by apply map_Forall_insert_2.
Qed.

(** What is stored is never replaced. *)
Lemma put_chunk_mono s h c : s ⊆ (put_chunk s h c).1.
Proof.
  unfold put_chunk, has_chunk. case_decide; [|done]. case_bool_decide as Hi; [done|].
  apply insert_subseteq. by apply eq_None_not_Some.
Qed.

Lemma put_chunks_ok s l :
  Forall (fun p => hash32_of p.2 = p.1) l -> blobs_honest s ->
  exists s', put_chunks s l = (s', Ok tt) /\ s ⊆ s' /\ blobs_honest s' /\
    Forall (fun p => is_Some (s' !! p.1)) l.
Proof.
  revert s. induction l as [|[h c] l IH]; intros s Hl Hs; simpl; [by exists s|].
  apply Forall_cons_1 in Hl as [Hh Hl]. rewrite put_chunk_ok by done.
  destruct (IH (put_chunk s h c).1 Hl (put_chunk_honest s h c Hs)) as (s' & E & Hsub & Hh' & Hall).
  rewrite put_chunk_ok in E, Hsub by done. simpl in E, Hsub. exists s'.
  split; [exact E|]. split.
  { etrans; [|exact Hsub]. pose proof (put_chunk_mono s h c) as M. by rewrite put_chunk_ok in M. }
  split; [done|]. constructor; [|done]. simpl.
  unfold has_chunk in Hsub. case_bool_decide as Hi.
  - destruct Hi as [c' Hc']. exists c'. by eapply lookup_weaken.
  - exists c. eapply lookup_weaken; [apply lookup_insert_eq|exact Hsub].
Qed.

Lemma zip_honest (cs : list (list byte)) :
  Forall (fun p => hash32_of p.2 = p.1) (zip (hash32_of <$> cs) cs).
Proof. induction cs; simpl; by constructor. Qed.

Lemma gather_eq s out cs :
  Forall (fun c => s !! hash32_of c = Some c) cs ->
  gather s out (hash32_of <$> cs) = Ok (out ++ concat cs).
Proof.
  revert out. induction cs as [|c cs IH]; intros out Hc; simpl; [by rewrite app_nil_r|].
  apply Forall_cons_1 in Hc as [E Hc]. unfold get_chunk. rewrite E. simpl.
  change (gather s (out ++ c) (hash32_of <$> cs) = Ok (out ++ c ++ concat cs)).
  by rewrite IH, <- app_assoc.
Qed.

Lemma gather_found s s' out l r :
  s ⊆ s' -> gather s out l = Ok r -> gather s' out l = Ok r.
Proof.
  intros Hsub. revert out. induction l as [|h l IH]; intros out; simpl; [done|].
  rewrite !bind_ok. setoid_rewrite ok_or_ok. unfold get_chunk. intros (c & Hc & Hg).
  exists c. split; [by eapply lookup_weaken|]. by apply IH.
Qed.

(** A present chunk of an honest store is the chunk, or SHA-256 collides. *)
Lemma honest_chunk s c :
  blobs_honest s -> is_Some (s !! hash32_of c) -> s !! hash32_of c = Some c \/ sha256_collision.
Proof.
  intros Hs [c' Hc']. destruct (decide (c' = c)) as [->|Hne]; [by left|right].
  exists c', c. split; [done|]. exact (Hs _ _ Hc').
Qed.

Lemma honest_chunks s cs :
  blobs_honest s -> Forall (fun c => is_Some (s !! hash32_of c)) cs ->
  Forall (fun c => s !! hash32_of c = Some c) cs \/ sha256_collision.
Proof.
  intros Hs. induction 1 as [|c cs Hc _ IH]; [left; constructor|].
  destruct IH as [IH|]; [|by right]. destruct (honest_chunk s c Hs Hc); [left; by constructor|by right].
Qed.

(** C26. Storing a blob and reading it back gives the bytes: into any store of
    honest chunks [put] succeeds, keeps every chunk already there, and [get] of
    the returned reference yields the blob, now and after any further chunks
    are added, unless SHA-256 collides. *)
Theorem blob_roundtrip s bytes :
  blobs_honest s -> exists s',
    put s bytes = (s', Ok (blobref_of bytes)) /\ s ⊆ s' /\ blobs_honest s' /\
    is_complete s' (blobref_of bytes) = true /\
    (sha256_collision \/ forall t, s' ⊆ t -> get t (blobref_of bytes) = Ok bytes).
Proof.
  intros Hs. unfold put. simpl.
  destruct (put_chunks_ok s _ (zip_honest (chunks CHUNK_BYTES bytes)) Hs)
    as (s' & E & Hsub & Hh & Hall). rewrite E. exists s'.
  assert (Hp : Forall (fun c => is_Some (s' !! hash32_of c)) (chunks CHUNK_BYTES bytes)).
  { clear -Hall. revert Hall. generalize (chunks CHUNK_BYTES bytes) as cs.
    induction cs as [|c cs IH]; simpl; [constructor|].
    intros [? ?]%Forall_cons_1. constructor; [done|by apply IH]. }
  split; [done|]. split; [done|]. split; [done|]. split.
  { apply forallb_forall. intros h Hin. simpl in Hin. apply list_elem_of_In in Hin.
    apply list_elem_of_fmap in Hin as (c & -> & Hc). rewrite Forall_forall in Hp.
    apply bool_decide_eq_true. by apply Hp. }
  destruct (honest_chunks s' _ Hh Hp) as [Hc|]; [right|by left].
  intros t Ht. unfold get. simpl. rewrite bind_ok.
  exists bytes. split.
  - eapply gather_found; [exact Ht|]. by rewrite gather_eq, chunks_concat.
  - by rewrite !decide_True.
Qed.

Lemma gather_is_ok s out l : is_ok (gather s out l) = forallb (has_chunk s) l.
Proof.
  revert out. induction l as [|h l IH]; intros out; cbn [gather forallb]; [done|].
  unfold get_chunk. destruct (s !! h) as [c|] eqn:E; simpl.
  - assert (Hc : has_chunk s h = true) by (apply bool_decide_eq_true; by exists c).
    by rewrite Hc, IH.
  - assert (Hc : has_chunk s h = false) by (apply bool_decide_eq_false; rewrite E; by intros [? ?]).
    by rewrite Hc.
Qed.

Lemma get_ok s r out : get s r = Ok out ->
  gather s [] (br_chunks r) = Ok out /\ hash32_of out = br_hash r /\ len_u64 out = br_size r.
Proof.
  intros Hg. unfold get in Hg. rewrite bind_ok in Hg. destruct Hg as (o & Ho & Hg).
  case_decide; [|done]. case_decide; [|done]. by injection Hg as ->.
Qed.

(** Nothing but the named content is ever returned: whatever the chunk
    files hold, bytes that [get] returns have the size and the hash of the
    reference, so two nodes that both read one reference read the same bytes or
    exhibit a SHA-256 collision; a missing chunk is an error; and a chunk whose
    bytes do not hash to its claimed name is refused and not stored. *)
Theorem blob_integrity s r :
  (forall out, get s r = Ok out ->
     hash32_of out = br_hash r /\ len_u64 out = br_size r /\
     is_complete s r = true /\
     forall s' out', get s' r = Ok out' -> out' = out \/ sha256_collision) /\
  (is_complete s r = false -> is_ok (get s r) = false) /\
  (forall h c, hash32_of c <> h -> exists e, put_chunk s h c = (s, Err e)).
Proof.
  split; [|split].
  - intros out Hg. destruct (get_ok s r out Hg) as (Hga & Hh & Hl).
    split; [done|]. split; [done|]. split; [unfold is_complete; by rewrite <- (gather_is_ok s []), Hga|].
    intros s' out' Hg'. destruct (get_ok s' r out' Hg') as (_ & Hh' & _).
    destruct (decide (out' = out)); [by left|right]. exists out', out. split; [done|].
    unfold hash32_of in *. congruence.
  - unfold is_complete. rewrite <- (gather_is_ok s []). intros Hc. unfold get.
    destruct (gather s [] (br_chunks r)); [done|]. done.
  - intros h c Hne. unfold put_chunk. rewrite decide_False by done. by eexists.
Qed.

Lemma missing_from_spec s seen l h :
  h ∈ missing_from s seen l <-> h ∉ seen /\ h ∈ l /\ s !! h = None.
Proof.
  revert seen. induction l as [|x l IH]; intros seen; simpl; [set_solver|].
  unfold has_chunk. destruct (s !! x) eqn:E.
  - rewrite bool_decide_eq_true_2 by done. case_decide; rewrite IH, elem_of_cons; [set_solver|].
    rewrite not_elem_of_union, not_elem_of_singleton. naive_solver.
  - rewrite bool_decide_eq_false_2 by (by intros [? ?]).
    case_decide; rewrite ?elem_of_cons, IH; [set_solver|].
    rewrite not_elem_of_union, not_elem_of_singleton.
    destruct (decide (h = x)); naive_solver.
Qed.

Lemma missing_from_NoDup s seen l : NoDup (missing_from s seen l).
Proof.
  revert seen. induction l as [|x l IH]; intros seen; simpl; [constructor|].
  case_decide; [apply IH|]. case_match; [apply IH|]. constructor; [|apply IH].
  rewrite missing_from_spec. set_solver.
Qed.

(** What to fetch and what to keep: [missing] lists exactly the chunks of
    the reference that are not stored, each once, and is empty exactly for a
    complete blob; [gc] removes exactly the chunks no kept reference names,
    counts them, and a kept blob reads as before. *)
Theorem missing_and_gc_exact s r keep :
  NoDup (missing s r) /\
  (forall h, h ∈ missing s r <-> h ∈ br_chunks r /\ s !! h = None) /\
  (missing s r = [] <-> is_complete s r = true) /\
  (forall h, (gc s keep).1 !! h =
     if decide (h ∈ (keep ≫= br_chunks)) then s !! h else None) /\
  size s = size (gc s keep).1 + (gc s keep).2 /\
  (r ∈ keep -> get (gc s keep).1 r = get s r).
Proof.
  assert (M : forall h, h ∈ missing s r <-> h ∈ br_chunks r /\ s !! h = None).
  { intros h. unfold missing. rewrite missing_from_spec. set_solver. }
  assert (L : forall h, (gc s keep).1 !! h =
     if decide (h ∈ (keep ≫= br_chunks)) then s !! h else None).
  { intros h. simpl. case_decide as Hd.
    - destruct (s !! h) eqn:E.
      + apply map_lookup_filter_Some. split; [done|]. simpl. by apply elem_of_list_to_set.
      + apply map_lookup_filter_None. by left.
    - apply map_lookup_filter_None. right. intros c Hc. simpl. by rewrite elem_of_list_to_set. }
  split; [apply missing_from_NoDup|]. split; [done|]. split; [|split; [done|split]].
  - unfold is_complete. rewrite forallb_forall. setoid_rewrite <- list_elem_of_In. split.
    + intros E h Hin. apply bool_decide_eq_true. destruct (s !! h) eqn:Eh; [done|].
      assert (Hm : h ∈ missing s r) by by apply M. rewrite E in Hm. by apply not_elem_of_nil in Hm.
    + intros Hall. destruct (missing s r) as [|h l] eqn:E; [done|].
      destruct (proj1 (M h)) as [Hin Hn]; [by left|].
      specialize (Hall h Hin). apply bool_decide_eq_true in Hall as [c Hc]. congruence.
  - simpl. pose proof (map_subseteq_size (filter (fun p => p.1 ∈ (list_to_set (keep ≫= br_chunks) : gset N)) s) s
      (map_filter_subseteq _ _)). lia.
  - intros Hk. unfold get. f_equal.
    assert (Hg : forall l out, (forall h, h ∈ l -> h ∈ br_chunks r) ->
      gather (gc s keep).1 out l = gather s out l); [|by apply Hg].
    induction l as [|h l IH]; intros out Hl; cbn [gather]; [done|].
    unfold get_chunk. rewrite L, decide_True
      by (apply list_elem_of_bind; exists r; split; [apply Hl; by left|done]).
    destruct (s !! h); simpl; [|done]. apply IH. intros x Hx. apply Hl. by right.
Qed.
End Blobs.

(** ** Witnesses *)

Definition sample_show (h : Hash32) : string := pretty h.

Lemma blob_roundtrip_witness :
  exists s', put sample_show ∅ [x01; x02] = (s', Ok (blobref_of [x01; x02])).
Proof.
  destruct (blob_roundtrip sample_show ∅ [x01; x02]) as (s' & E & _).
  - apply map_Forall_empty.
  - exists s'. exact E.
Defined.

Lemma blob_integrity_witness :
  let r := {| br_hash := hash32_of [x05]; br_size := 1; br_chunks := [hash32_of [x05]] |} in
  let s := {[hash32_of [x05] := [x05]]} : gmap N (list byte) in
  is_complete s r = true /\ get sample_show ∅ r = Err ("missing chunk " +:+ sample_show (hash32_of [x05])).
Proof.
  intros r s. split; [|reflexivity].
  apply (proj1 (blob_integrity sample_show s r) [x05]). vm_compute. reflexivity.
Defined.

Lemma missing_and_gc_exact_witness :
  let r := {| br_hash := hash32_of [x05]; br_size := 1; br_chunks := [hash32_of [x05]] |} in
  let s := {[hash32_of [x05] := [x05]; 9%N := [x06]]} : gmap N (list byte) in
  get sample_show (gc s [r]).1 r = Ok [x05] /\ (gc s [r]).2 = 1.
Proof.
  intros r s. split; [|vm_compute; reflexivity].
  destruct (missing_and_gc_exact sample_show s r [r]) as (_ & _ & _ & _ & _ & Hg).
  rewrite Hg; [vm_compute; reflexivity|by left].
Defined.
