(* ===== verification/Codec.v ===== *)
(** The wire protocol (src/p2p/codec.rs): the messages of the sync protocol and
    their framing, a big-endian length and the JSON text, capped at 1 MiB. *)

From stdpp Require Import base list gmap strings numbers pretty.
From Stdlib Require Import Strings.Byte Strings.Ascii.
From S2P Require Import Prelude Json Doc Sample Action Model Builtins Entry Text Invite Blob.

Definition PROTOCOL_VERSION : N := 3.
Definition MAX_MSG_BYTES : N := 1048576.
Definition CATCH_UP_MAX_ACTIONS : nat := 64.

Record DocSummary := { ds_id : DocId; ds_name : string; ds_clock : VecClock }.

Record Hello := {
  h_version : N;
  h_name : string;
  h_peer_id : string;
  h_pubkey : string;
  h_token : option string;
  h_accept : option InviteAccept
}.
Record HelloAck := {
  ack_version : N;
  ack_name : string;
  ack_docs : list DocSummary;
  ack_pubkey : option string
}.
Inductive HelloError :=
  | BadVersion (expected got : N)
  | AuthRequired
  | BadToken
  | KeyMismatch
  | Banned.

Record CatchUp := { cu_doc_id : DocId; cu_have : VecClock }.
Record CatchUpAck := {
  ca_doc_id : DocId;
  ca_state : option DocState;
  ca_actions : list Action;
  ca_more : bool
}.
Record ActionMsg := { am_action : Action; am_name : option string }.

Inductive SyncMsg :=
  | MHello (h : Hello)
  | MHelloAck (a : HelloAck)
  | MHelloErr (e : HelloError)
  | MCatchUp (c : CatchUp)
  | MCatchUpAck (a : CatchUpAck)
  | MSummary (clocks : list (DocId * VecClock))
  | MSummaryAck (clocks : list (DocId * VecClock))
  | MModelRequest (r : ModelRef)
  | MModelDef (r : ModelRef) (def : option Value)
  | MChunkRequest (hash : Hash32)
  | MChunkData (hash : Hash32) (bytes : option (list byte)).

(** [HelloError::as_str]. *)
Definition hello_error_str (e : HelloError) : string :=
  match e with
  | BadVersion _ _ => "bad-version"
  | AuthRequired => "auth-required"
  | BadToken => "bad-token"
  | KeyMismatch => "key-mismatch"
  | Banned => "banned"
  end.

(** ** Framing *)

(** [u32::from_be_bytes]. *)
Definition u32_from_be (b : list byte) : N :=
  foldl (fun acc x => acc * 256 + Byte.to_N x)%N 0%N b.

(** [read_exact]: the next [n] bytes and the rest, or the end of the stream. *)
Definition read_exact (n : nat) (io : list byte) : result string (list byte * list byte) :=
  if n <=? length io then Ok (take n io, drop n io) else Err "early eof".

Section Frames.
Context `{Serde SyncMsg}.

(** [read_msg]: the message and the rest of the stream. *)
Definition read_msg (io : list byte) (max_len : N) : result string (SyncMsg * list byte) :=
  p ← read_exact 4 io;
  let len := u32_from_be p.1 in
  if (max_len <? len)%N
  then Err ("message too large: " +:+ pretty len +:+ " > " +:+ pretty max_len)
  else
    q ← read_exact (N.to_nat len) p.2;
    match from_json q.1 with
    | Ok m => Ok (m, q.2)
    | Err e => Err ("bad json: " +:+ e)
    end.

(** [write_msg]: the bytes written. *)
Definition write_msg (m : SyncMsg) : result string (list byte) :=
  let body := to_json m in
  if (MAX_MSG_BYTES <? N.of_nat (length body))%N then Err "encoded message too large"
  else Ok (be_bytes 4 (u32_of_nat (length body)) ++ body).

Lemma u32_from_be_bytes n : (n < 2 ^ 32)%N -> u32_from_be (be_bytes 4 n) = n.
Proof.
  intros Hn. change (u32_from_be (be_bytes 4 n)) with (be_value (be_bytes 4 n) 0).
  by apply (be_value_be_bytes 4).
Qed.

Lemma read_exact_app a b : read_exact (length a) (a ++ b) = Ok (a, b).
Proof.
  unfold read_exact. rewrite (proj2 (Nat.leb_le _ _)) by (rewrite length_app; lia).
  by rewrite take_app_length, drop_app_length.
Qed.

Lemma write_msg_ok m out :
  write_msg m = Ok out <->
  (N.of_nat (length (to_json m)) <= MAX_MSG_BYTES)%N /\
  out = be_bytes 4 (u32_of_nat (length (to_json m))) ++ to_json m.
Proof. unfold write_msg. destruct (N.ltb_spec MAX_MSG_BYTES (N.of_nat (length (to_json m)))); naive_solver lia. Qed.

Lemma read_written m out rest :
  from_json (to_json m) = Ok m -> write_msg m = Ok out ->
  read_msg (out ++ rest) MAX_MSG_BYTES = Ok (m, rest).
Proof.
  intros Hj (Hlen & ->)%write_msg_ok. unfold read_msg. rewrite <- app_assoc.
  assert (Hu : u32_of_nat (length (to_json m)) = N.of_nat (length (to_json m))).
  { unfold u32_of_nat. apply N.mod_small. unfold MAX_MSG_BYTES in Hlen. lia. }
  rewrite (read_exact_app (be_bytes 4 _) _ : read_exact 4 _ = _).
  cbn [mbind result_bind fst snd].
  rewrite u32_from_be_bytes by (rewrite Hu; unfold MAX_MSG_BYTES in Hlen; lia).
  rewrite Hu, (proj2 (N.ltb_ge _ _)) by done. rewrite Nat2N.id, read_exact_app.
  cbn [mbind result_bind fst snd].
  by rewrite Hj.
Qed.

(** [SyncCodec], the codec the request-response behaviour is given: both
    directions read and write the same frames. *)
Record SyncCodec := { sc_max_len : N }.
Definition sync_codec_new : SyncCodec := {| sc_max_len := MAX_MSG_BYTES |}.
Definition read_request (c : SyncCodec) (io : list byte) : result string (SyncMsg * list byte) :=
  read_msg io (sc_max_len c).
Definition read_response (c : SyncCodec) (io : list byte) : result string (SyncMsg * list byte) :=
  read_msg io (sc_max_len c).
Definition write_request (c : SyncCodec) (req : SyncMsg) : result string (list byte) := write_msg req.
Definition write_response (c : SyncCodec) (res : SyncMsg) : result string (list byte) := write_msg res.

(** One exchange on a stream: what the asking side wrote is what the serving
    side reads, and its answer what the asking side reads, whatever follows. *)
Lemma codec_exchange req res out back rest rest' :
  from_json (to_json req) = Ok req -> from_json (to_json res) = Ok res ->
  write_request sync_codec_new req = Ok out -> write_response sync_codec_new res = Ok back ->
  read_request sync_codec_new (out ++ rest) = Ok (req, rest) /\
  read_response sync_codec_new (back ++ rest') = Ok (res, rest').
Proof. intros. split; by apply read_written. Qed.

(** A sequence of messages, written one after the other and read back. *)
Fixpoint write_all (l : list SyncMsg) : result string (list byte) :=
  match l with
  | [] => Ok []
  | m :: l' => a ← write_msg m; b ← write_all l'; Ok (a ++ b)
  end.
Fixpoint read_all (n : nat) (io : list byte) : result string (list SyncMsg * list byte) :=
  match n with
  | O => Ok ([], io)
  | S n' =>
      p ← read_msg io MAX_MSG_BYTES;
      q ← read_all n' p.2;
      Ok (p.1 :: q.1, q.2)
  end.

(** The framing loses nothing: any sequence of messages that is written is
    read back as the same sequence, leaving the rest of the stream untouched;
    and a frame that announces more than the cap is refused from its four
    length bytes alone, whatever follows. *)
Theorem framing_roundtrip :
  (forall l out rest, Forall (fun m => from_json (to_json m) = Ok m) l ->
     write_all l = Ok out -> read_all (length l) (out ++ rest) = Ok (l, rest)) /\
  (forall n body, (MAX_MSG_BYTES < n < 2 ^ 32)%N ->
     read_msg (be_bytes 4 n ++ body) MAX_MSG_BYTES =
     Err ("message too large: " +:+ pretty n +:+ " > " +:+ pretty MAX_MSG_BYTES)).
Proof.
  split.
  - intros l. induction l as [|m l IH]; intros out rest Hl Hw.
    { simpl in Hw. by injection Hw as <-. }
    apply Forall_cons_1 in Hl as [Hm Hl]. simpl in Hw. rewrite bind_ok in Hw.
    destruct Hw as (a & Ha & Hw). rewrite bind_ok in Hw. destruct Hw as (b & Hb & Hw).
    injection Hw as <-. cbn [length read_all]. rewrite <- app_assoc, (read_written m a _ Hm Ha).
    cbn. specialize (IH b rest Hl Hb). unfold mbind, result_bind in *. by rewrite IH.
  - intros n body [Hlo Hhi]. unfold read_msg.
    rewrite (read_exact_app (be_bytes 4 n) body : read_exact 4 _ = _).
    cbn [mbind result_bind fst snd].
    rewrite u32_from_be_bytes by done. by rewrite (proj2 (N.ltb_lt _ _)).
Qed.

(** ** The size of a chunk message *)

(** The decimal digits of a byte, and the length of [serde_json]'s text of a
    [Vec<u8>]: an array of decimal numbers separated by commas. *)
Definition dec_digits (x : byte) : nat :=
  let n := Byte.to_N x in if (n <? 10)%N then 1 else if (n <? 100)%N then 2 else 3.
Definition u8_array_len (b : list byte) : nat :=
  2 + sum_list (dec_digits <$> b) + (length b - 1).

Lemma sum_digits_three b :
  Forall (fun x => 100 <= Byte.to_N x)%N b -> sum_list (dec_digits <$> b) = 3 * length b.
Proof.
  intros Hb. induction Hb as [|x b Hx _ IH]; [done|].
  assert (Hd : dec_digits x = 3).
  { unfold dec_digits. destruct (N.ltb_spec (Byte.to_N x) 10); [lia|].
    destruct (N.ltb_spec (Byte.to_N x) 100); [lia|done]. }
  change (dec_digits x + sum_list (dec_digits <$> b) = 3 * S (length b)). lia.
Qed.

(** A full chunk need not fit in a message: its bytes travel as decimal
    numbers, so a chunk of 256 KiB whose bytes are all 100 or more takes more
    than the 1 MiB cap and its [ChunkData] can not be written. *)
Theorem full_chunk_too_large (hash : Hash32) (bytes : list byte) :
  u8_array_len bytes <= length (to_json (MChunkData hash (Some bytes))) ->
  length bytes = CHUNK_BYTES -> Forall (fun x => 100 <= Byte.to_N x)%N bytes ->
  write_msg (MChunkData hash (Some bytes)) = Err "encoded message too large".
Proof.
  intros Hlen Hn Hb. unfold u8_array_len in Hlen. rewrite (sum_digits_three _ Hb), Hn in Hlen.
  unfold write_msg. rewrite (proj2 (N.ltb_lt _ _)); [done|].
  assert (HC : N.of_nat CHUNK_BYTES = 262144%N) by (unfold CHUNK_BYTES; lia).
  unfold MAX_MSG_BYTES. lia.
Qed.
End Frames.

(** ** Witnesses *)

Module CodecExample.
Definition dec_text (x : byte) : list byte := as_bytes (pretty (Byte.to_N x)).
Fixpoint array_body (b : list byte) : list byte :=
  match b with
  | [] => []
  | x :: b' => dec_text x ++ match b' with [] => [] | _ => x2c :: array_body b' end
  end.
(** The refusals as their names, the bytes of a chunk as a decimal array. *)
#[export] Instance sample_serde_msg : Serde SyncMsg := {|
  to_json := fun m =>
    match m with
    | MHelloErr e => as_bytes (hello_error_str e)
    | MChunkData _ (Some b) => x5b :: array_body b ++ [x5d]
    | _ => []
    end;
  from_json := fun b =>
    if decide (b = as_bytes "banned") then Ok (MHelloErr Banned)
    else if decide (b = as_bytes "bad-token") then Ok (MHelloErr BadToken)
    else Err "unknown variant"
|}.

Lemma dec_text_length x : length (dec_text x) = dec_digits x.
Proof. by destruct x. Qed.

Lemma array_body_length b : length (array_body b) = sum_list (dec_digits <$> b) + (length b - 1).
Proof.
  induction b as [|x b IH]; [done|]. cbn [array_body]. rewrite length_app, dec_text_length.
  change (sum_list (dec_digits <$> x :: b)) with (dec_digits x + sum_list (dec_digits <$> b)).
  destruct b as [|y b]; [by rewrite !Nat.add_0_r|].
  cbn [length]. rewrite IH. cbn [length]. lia.
Qed.
End CodecExample.
Import CodecExample.

Lemma framing_roundtrip_witness :
  exists out, write_all [MHelloErr Banned; MHelloErr BadToken] = Ok out /\
    read_all 2 (out ++ [x00]) = Ok ([MHelloErr Banned; MHelloErr BadToken], [x00]).
Proof.
  eexists. split; [reflexivity|].
  apply (proj1 framing_roundtrip [MHelloErr Banned; MHelloErr BadToken]).
  - repeat constructor.
  - reflexivity.
Defined.

Lemma full_chunk_too_large_witness :
  write_msg (MChunkData 0 (Some (replicate CHUNK_BYTES xff))) = Err "encoded message too large".
Proof.
  apply full_chunk_too_large.
  - change (u8_array_len (replicate CHUNK_BYTES xff)
      <= S (length (array_body (replicate CHUNK_BYTES xff) ++ [x5d]))).
    rewrite length_app, array_body_length. unfold u8_array_len. cbn [length]. lia.
  - apply length_replicate.
  - apply Forall_replicate. discriminate.
Defined.
