(* ===== verification/Engine.v ===== *)
(** The sync engine (src/p2p/mod.rs): drives, the handshake, serving and
    handling the messages of the sync protocol, gossip, the catch-up tick and
    the commands of the daemon.

    A handler takes the engine to the engine after it.  What it does to the
    world is recorded in order in [g_out]: requests, responses, gossip, dials,
    calls of the DHT and events for the daemon.  The clock ([now], in
    milliseconds), whether a peer is connected and a random peer id are
    arguments.  A [PeerId] is its base58 text.  Iteration over a [HashMap] has
    no fixed order in the program; here it is that of [map_to_list], and no
    theorem depends on it. *)

From stdpp Require Import base list gmap strings numbers pretty.
From Stdlib Require Import Strings.Byte Strings.Ascii.
From S2P Require Import Prelude Json Doc Sample Action Model Builtins Entry Redeliver Store.
From S2P Require Import Text Invite Blob Codec.

Definition CATCH_UP_TICK : N := 30000.
Definition PUBLISHED_CAP : nat := 64 * 128.
Definition IDLE_AFTER_SILENCE : N := 1800000.
Definition AUTH_BAN_AFTER : N := 3.
Definition AUTH_BAN_WINDOW : N := 600000.

Abbreviation PeerId := string (only parsing).

(** A component of a multiaddr: the program tells [/p2p/], [/tcp/] and the IP
    addresses from the rest. *)
Inductive Protocol :=
  | P2p (p : PeerId)
  | Tcp (port : N)
  | Ip4 (ip : string)
  | Ip6 (ip : string)
  | OtherProto (text : string).

(** The multiaddr crate. *)
Class Net := {
  Multiaddr : Type;
  addr_iter : Multiaddr -> list Protocol;
  addr_collect : list Protocol -> Multiaddr;
  addr_parse : string -> result string Multiaddr
}.

(** ** Data *)

(** [drives::DriveStatus], [drives::Drive]. *)
Inductive DriveStatus := Synced | Connecting | Paused | Offline | RequiresAuth | DriveError.
#[export] Instance drive_status_eq_dec : EqDecision DriveStatus.
Proof. solve_decision. Defined.

(** [DriveStatus::as_str], [DriveStatus::parse]. *)
Definition status_str (d : DriveStatus) : string :=
  match d with
  | Synced => "synced"
  | Connecting => "connecting"
  | Paused => "paused"
  | Offline => "offline"
  | RequiresAuth => "requires-auth"
  | DriveError => "error"
  end.
Definition status_parse (s : string) : option DriveStatus :=
  if decide (s = "synced") then Some Synced
  else if decide (s = "connecting") then Some Connecting
  else if decide (s = "paused") then Some Paused
  else if decide (s = "offline") then Some Offline
  else if decide (s = "requires-auth") then Some RequiresAuth
  else if decide (s = "error") then Some DriveError
  else None.

Record Drive `{Net} := {
  d_name : string;
  d_addr : Multiaddr;
  d_token_env : option string;
  d_paused : bool;
  d_available_offline : bool
}.

(** [Drive::peer_id]: the first [/p2p/] component. *)
Definition drive_peer_id `{Net} (d : Drive) : option PeerId :=
  find_map (fun p => match p with P2p pid => Some pid | _ => None end)
    (addr_iter (d_addr d)).

(** [parse_bootstrap]: the last [/p2p/] component, and the address without any. *)
Definition parse_bootstrap `{Net} (s : string) : option (PeerId * Multiaddr) :=
  match addr_parse s with
  | Err _ => None
  | Ok full =>
      let '(pid, base) := foldl (fun '(pid, base) proto =>
        match proto with
        | P2p p => (Some p, base)
        | other => (pid, base ++ [other])
        end) (None, []) (addr_iter full) in
      p ← pid; Some (p, addr_collect base)
  end.

Record DriveRuntime `{Net} := {
  r_drive : Drive;
  r_peer : PeerId;
  r_status : DriveStatus;
  r_remote_clocks : gmap N VecClock;
  r_in_flight : gset N;
  r_handshaken : bool;
  r_next_catch_up : N;
  r_last_seen : N;
  r_accept : option InviteAccept
}.

Inductive EngineCommand `{Net} :=
  | AddDrive (drive : Drive)
  | RemoveDrive (name : string)
  | SetPaused (name : string) (paused : bool)
  | Resync (name : string)
  | DhtBootstrap (peers : list (PeerId * Multiaddr))
  | FetchBlob (blob : BlobRef)
  | PublishProvider (name : string) (doc : DocId)
  | FindProviders (key : list byte)
  | Join (drive : Drive) (accept : InviteAccept)
  | Ban (peer : PeerId)
  | Unban (peer : PeerId)
  | Shutdown.

Inductive EngineEvent `{Net} :=
  | EvIdentity (peer_id : PeerId) (listen : Multiaddr)
  | EvDriveStatus (name : string) (status : DriveStatus) (detail : option string)
  | EvDocChanged (name : option string)
  | EvDhtBootstrap (ok : bool)
  | EvDhtProvider (key : list byte) (peer : PeerId)
  | EvChunkStored (hash : Hash32)
  | EvPeerConnected (peer : PeerId)
  | EvDriveJoined (name : string) (addr : Multiaddr)
  | EvPeerAutoBanned (peer : string)
  | EvInviteAccepted (peer : PeerId) (nonce : list byte).

(** The calls a handler makes on the swarm and the event channel. *)
Inductive Output `{Net} :=
  | OSubscribe
  | OListen (a : Multiaddr)
  | OAnnounce (a : Multiaddr)
  | ORequest (peer : PeerId) (id : N) (m : SyncMsg)
  | OResponse (peer : PeerId) (m : SyncMsg)
  | OPublish (m : ActionMsg)
  | ODial (peer : option PeerId) (addr : Multiaddr)
  | OAddPeerAddress (peer : PeerId) (addr : Multiaddr)
  | OKadAddAddress (peer : PeerId) (addr : Multiaddr)
  | OKadBootstrap
  | OKadProvide (doc : DocId)
  | OKadGetProviders (key : list byte)
  | OEvent (e : EngineEvent).

(** [SyncEngine]; the swarm is its outputs and the counter of request ids. *)
Record SyncEngine `{Platform, Net} := {
  g_store : Inner;
  g_peer_id : PeerId;
  g_pub_name : string;
  g_listen : Multiaddr;
  g_listen_ws : option Multiaddr;
  g_external : list Multiaddr;
  g_kad : bool;
  g_blobs : gmap N (list byte);
  g_token : option string;
  g_drives : gmap string DriveRuntime;
  g_guests : gset string;
  g_banned : gset string;
  g_auth_failures : gmap string (N * N);
  g_running : bool;
  g_idle_notified : bool;
  g_withheld : N;
  g_identity_sent : bool;
  g_pending : list (ModelRef * Action);
  g_requested : gset (string * string);
  g_published : gset N;
  g_published_order : list N;
  g_next_req : N;
  g_out : list Output
}.

Section Setters.
Context `{Platform, Net}.
Definition set_store (g : SyncEngine) (x : Inner) : SyncEngine :=
  {| g_store := x; g_peer_id := g_peer_id g; g_pub_name := g_pub_name g;
     g_listen := g_listen g; g_listen_ws := g_listen_ws g; g_external := g_external g;
     g_kad := g_kad g; g_blobs := g_blobs g; g_token := g_token g; g_drives := g_drives g;
     g_guests := g_guests g; g_banned := g_banned g; g_auth_failures := g_auth_failures g;
     g_running := g_running g; g_idle_notified := g_idle_notified g;
     g_withheld := g_withheld g; g_identity_sent := g_identity_sent g;
     g_pending := g_pending g; g_requested := g_requested g; g_published := g_published g;
     g_published_order := g_published_order g; g_next_req := g_next_req g; g_out := g_out g |}.
Definition set_blobs (g : SyncEngine) (x : gmap N (list byte)) : SyncEngine :=
  {| g_store := g_store g; g_peer_id := g_peer_id g; g_pub_name := g_pub_name g;
     g_listen := g_listen g; g_listen_ws := g_listen_ws g; g_external := g_external g;
     g_kad := g_kad g; g_blobs := x; g_token := g_token g; g_drives := g_drives g;
     g_guests := g_guests g; g_banned := g_banned g; g_auth_failures := g_auth_failures g;
     g_running := g_running g; g_idle_notified := g_idle_notified g;
     g_withheld := g_withheld g; g_identity_sent := g_identity_sent g;
     g_pending := g_pending g; g_requested := g_requested g; g_published := g_published g;
     g_published_order := g_published_order g; g_next_req := g_next_req g; g_out := g_out g |}.
Definition set_drives (g : SyncEngine) (x : gmap string DriveRuntime) : SyncEngine :=
  {| g_store := g_store g; g_peer_id := g_peer_id g; g_pub_name := g_pub_name g;
     g_listen := g_listen g; g_listen_ws := g_listen_ws g; g_external := g_external g;
     g_kad := g_kad g; g_blobs := g_blobs g; g_token := g_token g; g_drives := x;
     g_guests := g_guests g; g_banned := g_banned g; g_auth_failures := g_auth_failures g;
     g_running := g_running g; g_idle_notified := g_idle_notified g;
     g_withheld := g_withheld g; g_identity_sent := g_identity_sent g;
     g_pending := g_pending g; g_requested := g_requested g; g_published := g_published g;
     g_published_order := g_published_order g; g_next_req := g_next_req g; g_out := g_out g |}.
Definition set_guests (g : SyncEngine) (x : gset string) : SyncEngine :=
  {| g_store := g_store g; g_peer_id := g_peer_id g; g_pub_name := g_pub_name g;
     g_listen := g_listen g; g_listen_ws := g_listen_ws g; g_external := g_external g;
     g_kad := g_kad g; g_blobs := g_blobs g; g_token := g_token g; g_drives := g_drives g;
     g_guests := x; g_banned := g_banned g; g_auth_failures := g_auth_failures g;
     g_running := g_running g; g_idle_notified := g_idle_notified g;
     g_withheld := g_withheld g; g_identity_sent := g_identity_sent g;
     g_pending := g_pending g; g_requested := g_requested g; g_published := g_published g;
     g_published_order := g_published_order g; g_next_req := g_next_req g; g_out := g_out g |}.
Definition set_banned (g : SyncEngine) (x : gset string) : SyncEngine :=
  {| g_store := g_store g; g_peer_id := g_peer_id g; g_pub_name := g_pub_name g;
     g_listen := g_listen g; g_listen_ws := g_listen_ws g; g_external := g_external g;
     g_kad := g_kad g; g_blobs := g_blobs g; g_token := g_token g; g_drives := g_drives g;
     g_guests := g_guests g; g_banned := x; g_auth_failures := g_auth_failures g;
     g_running := g_running g; g_idle_notified := g_idle_notified g;
     g_withheld := g_withheld g; g_identity_sent := g_identity_sent g;
     g_pending := g_pending g; g_requested := g_requested g; g_published := g_published g;
     g_published_order := g_published_order g; g_next_req := g_next_req g; g_out := g_out g |}.
Definition set_auth_failures (g : SyncEngine) (x : gmap string (N * N)) : SyncEngine :=
  {| g_store := g_store g; g_peer_id := g_peer_id g; g_pub_name := g_pub_name g;
     g_listen := g_listen g; g_listen_ws := g_listen_ws g; g_external := g_external g;
     g_kad := g_kad g; g_blobs := g_blobs g; g_token := g_token g; g_drives := g_drives g;
     g_guests := g_guests g; g_banned := g_banned g; g_auth_failures := x;
     g_running := g_running g; g_idle_notified := g_idle_notified g;
     g_withheld := g_withheld g; g_identity_sent := g_identity_sent g;
     g_pending := g_pending g; g_requested := g_requested g; g_published := g_published g;
     g_published_order := g_published_order g; g_next_req := g_next_req g; g_out := g_out g |}.
Definition set_running (g : SyncEngine) (x : bool) : SyncEngine :=
  {| g_store := g_store g; g_peer_id := g_peer_id g; g_pub_name := g_pub_name g;
     g_listen := g_listen g; g_listen_ws := g_listen_ws g; g_external := g_external g;
     g_kad := g_kad g; g_blobs := g_blobs g; g_token := g_token g; g_drives := g_drives g;
     g_guests := g_guests g; g_banned := g_banned g; g_auth_failures := g_auth_failures g;
     g_running := x; g_idle_notified := g_idle_notified g; g_withheld := g_withheld g;
     g_identity_sent := g_identity_sent g; g_pending := g_pending g;
     g_requested := g_requested g; g_published := g_published g;
     g_published_order := g_published_order g; g_next_req := g_next_req g; g_out := g_out g |}.
Definition set_idle_notified (g : SyncEngine) (x : bool) : SyncEngine :=
  {| g_store := g_store g; g_peer_id := g_peer_id g; g_pub_name := g_pub_name g;
     g_listen := g_listen g; g_listen_ws := g_listen_ws g; g_external := g_external g;
     g_kad := g_kad g; g_blobs := g_blobs g; g_token := g_token g; g_drives := g_drives g;
     g_guests := g_guests g; g_banned := g_banned g; g_auth_failures := g_auth_failures g;
     g_running := g_running g; g_idle_notified := x; g_withheld := g_withheld g;
     g_identity_sent := g_identity_sent g; g_pending := g_pending g;
     g_requested := g_requested g; g_published := g_published g;
     g_published_order := g_published_order g; g_next_req := g_next_req g; g_out := g_out g |}.
Definition set_withheld (g : SyncEngine) (x : N) : SyncEngine :=
  {| g_store := g_store g; g_peer_id := g_peer_id g; g_pub_name := g_pub_name g;
     g_listen := g_listen g; g_listen_ws := g_listen_ws g; g_external := g_external g;
     g_kad := g_kad g; g_blobs := g_blobs g; g_token := g_token g; g_drives := g_drives g;
     g_guests := g_guests g; g_banned := g_banned g; g_auth_failures := g_auth_failures g;
     g_running := g_running g; g_idle_notified := g_idle_notified g; g_withheld := x;
     g_identity_sent := g_identity_sent g; g_pending := g_pending g;
     g_requested := g_requested g; g_published := g_published g;
     g_published_order := g_published_order g; g_next_req := g_next_req g; g_out := g_out g |}.
Definition set_identity_sent (g : SyncEngine) (x : bool) : SyncEngine :=
  {| g_store := g_store g; g_peer_id := g_peer_id g; g_pub_name := g_pub_name g;
     g_listen := g_listen g; g_listen_ws := g_listen_ws g; g_external := g_external g;
     g_kad := g_kad g; g_blobs := g_blobs g; g_token := g_token g; g_drives := g_drives g;
     g_guests := g_guests g; g_banned := g_banned g; g_auth_failures := g_auth_failures g;
     g_running := g_running g; g_idle_notified := g_idle_notified g;
     g_withheld := g_withheld g; g_identity_sent := x; g_pending := g_pending g;
     g_requested := g_requested g; g_published := g_published g;
     g_published_order := g_published_order g; g_next_req := g_next_req g; g_out := g_out g |}.
Definition set_pending (g : SyncEngine) (x : list (ModelRef * Action)) : SyncEngine :=
  {| g_store := g_store g; g_peer_id := g_peer_id g; g_pub_name := g_pub_name g;
     g_listen := g_listen g; g_listen_ws := g_listen_ws g; g_external := g_external g;
     g_kad := g_kad g; g_blobs := g_blobs g; g_token := g_token g; g_drives := g_drives g;
     g_guests := g_guests g; g_banned := g_banned g; g_auth_failures := g_auth_failures g;
     g_running := g_running g; g_idle_notified := g_idle_notified g;
     g_withheld := g_withheld g; g_identity_sent := g_identity_sent g; g_pending := x;
     g_requested := g_requested g; g_published := g_published g;
     g_published_order := g_published_order g; g_next_req := g_next_req g; g_out := g_out g |}.
Definition set_requested (g : SyncEngine) (x : gset (string * string)) : SyncEngine :=
  {| g_store := g_store g; g_peer_id := g_peer_id g; g_pub_name := g_pub_name g;
     g_listen := g_listen g; g_listen_ws := g_listen_ws g; g_external := g_external g;
     g_kad := g_kad g; g_blobs := g_blobs g; g_token := g_token g; g_drives := g_drives g;
     g_guests := g_guests g; g_banned := g_banned g; g_auth_failures := g_auth_failures g;
     g_running := g_running g; g_idle_notified := g_idle_notified g;
     g_withheld := g_withheld g; g_identity_sent := g_identity_sent g;
     g_pending := g_pending g; g_requested := x; g_published := g_published g;
     g_published_order := g_published_order g; g_next_req := g_next_req g; g_out := g_out g |}.
Definition set_window (g : SyncEngine) (p : gset N) (o : list N) : SyncEngine :=
  {| g_store := g_store g; g_peer_id := g_peer_id g; g_pub_name := g_pub_name g;
     g_listen := g_listen g; g_listen_ws := g_listen_ws g; g_external := g_external g;
     g_kad := g_kad g; g_blobs := g_blobs g; g_token := g_token g; g_drives := g_drives g;
     g_guests := g_guests g; g_banned := g_banned g; g_auth_failures := g_auth_failures g;
     g_running := g_running g; g_idle_notified := g_idle_notified g;
     g_withheld := g_withheld g; g_identity_sent := g_identity_sent g;
     g_pending := g_pending g; g_requested := g_requested g; g_published := p;
     g_published_order := o; g_next_req := g_next_req g; g_out := g_out g |}.
(** What leaves the engine is appended to [g_out]. *)
Definition emit (g : SyncEngine) (o : Output) : SyncEngine :=
  {| g_store := g_store g; g_peer_id := g_peer_id g; g_pub_name := g_pub_name g;
     g_listen := g_listen g; g_listen_ws := g_listen_ws g; g_external := g_external g;
     g_kad := g_kad g; g_blobs := g_blobs g; g_token := g_token g; g_drives := g_drives g;
     g_guests := g_guests g; g_banned := g_banned g; g_auth_failures := g_auth_failures g;
     g_running := g_running g; g_idle_notified := g_idle_notified g;
     g_withheld := g_withheld g; g_identity_sent := g_identity_sent g;
     g_pending := g_pending g; g_requested := g_requested g; g_published := g_published g;
     g_published_order := g_published_order g; g_next_req := g_next_req g;
     g_out := g_out g ++ [o] |}.
Definition next_request (g : SyncEngine) : SyncEngine :=
  {| g_store := g_store g; g_peer_id := g_peer_id g; g_pub_name := g_pub_name g;
     g_listen := g_listen g; g_listen_ws := g_listen_ws g; g_external := g_external g;
     g_kad := g_kad g; g_blobs := g_blobs g; g_token := g_token g; g_drives := g_drives g;
     g_guests := g_guests g; g_banned := g_banned g; g_auth_failures := g_auth_failures g;
     g_running := g_running g; g_idle_notified := g_idle_notified g;
     g_withheld := g_withheld g; g_identity_sent := g_identity_sent g;
     g_pending := g_pending g; g_requested := g_requested g; g_published := g_published g;
     g_published_order := g_published_order g; g_next_req := (g_next_req g + 1)%N;
     g_out := g_out g |}.
End Setters.

(** Changes of a drive's runtime. *)
Section Runtime.
Context `{Net}.
Definition rt_touch (rt : DriveRuntime) (status : DriveStatus) (clocks : gmap N VecClock)
    (inflight : gset N) (hs : bool) (next seen : N) (accept : option InviteAccept) : DriveRuntime :=
  {| r_drive := r_drive rt; r_peer := r_peer rt; r_status := status; r_remote_clocks := clocks;
     r_in_flight := inflight; r_handshaken := hs; r_next_catch_up := next; r_last_seen := seen;
     r_accept := accept |}.
Definition rt_status (d : DriveStatus) (rt : DriveRuntime) : DriveRuntime :=
  rt_touch rt d (r_remote_clocks rt) (r_in_flight rt) (r_handshaken rt) (r_next_catch_up rt)
    (r_last_seen rt) (r_accept rt).
Definition rt_clocks (c : gmap N VecClock) (rt : DriveRuntime) : DriveRuntime :=
  rt_touch rt (r_status rt) c (r_in_flight rt) (r_handshaken rt) (r_next_catch_up rt)
    (r_last_seen rt) (r_accept rt).
Definition rt_in_flight (f : gset N) (rt : DriveRuntime) : DriveRuntime :=
  rt_touch rt (r_status rt) (r_remote_clocks rt) f (r_handshaken rt) (r_next_catch_up rt)
    (r_last_seen rt) (r_accept rt).
Definition rt_handshaken (b : bool) (rt : DriveRuntime) : DriveRuntime :=
  rt_touch rt (r_status rt) (r_remote_clocks rt) (r_in_flight rt) b (r_next_catch_up rt)
    (r_last_seen rt) (r_accept rt).
Definition rt_next (n : N) (rt : DriveRuntime) : DriveRuntime :=
  rt_touch rt (r_status rt) (r_remote_clocks rt) (r_in_flight rt) (r_handshaken rt) n
    (r_last_seen rt) (r_accept rt).
Definition rt_seen (n : N) (rt : DriveRuntime) : DriveRuntime :=
  rt_touch rt (r_status rt) (r_remote_clocks rt) (r_in_flight rt) (r_handshaken rt)
    (r_next_catch_up rt) n (r_accept rt).
Definition rt_accept (a : option InviteAccept) (rt : DriveRuntime) : DriveRuntime :=
  rt_touch rt (r_status rt) (r_remote_clocks rt) (r_in_flight rt) (r_handshaken rt)
    (r_next_catch_up rt) (r_last_seen rt) a.
Definition rt_paused (b : bool) (rt : DriveRuntime) : DriveRuntime :=
  {| r_drive := {| d_name := d_name (r_drive rt); d_addr := d_addr (r_drive rt);
                   d_token_env := d_token_env (r_drive rt); d_paused := b;
                   d_available_offline := d_available_offline (r_drive rt) |};
     r_peer := r_peer rt; r_status := r_status rt; r_remote_clocks := r_remote_clocks rt;
     r_in_flight := r_in_flight rt; r_handshaken := r_handshaken rt;
     r_next_catch_up := r_next_catch_up rt; r_last_seen := r_last_seen rt;
     r_accept := r_accept rt |}.
(** The clocks of a list entered one after the other. *)
Definition merge_clocks (c : gmap N VecClock) (l : list (DocId * VecClock)) : gmap N VecClock :=
  foldl (fun m p => <[p.1 := p.2]> m) c l.
End Runtime.

(** ** The engine's functions *)

Section Engine.
Context `{Platform, Net}.
Implicit Type g : SyncEngine.

(** [if let Some(rt) = self.drives.get_mut(name)]. *)
Definition on_drive (g : SyncEngine) (name : string) (f : DriveRuntime -> DriveRuntime) : SyncEngine :=
  match g_drives g !! name with
  | Some rt => set_drives g (<[name := f rt]> (g_drives g))
  | None => g
  end.

(** [send_request], [send_response], [evt_tx.send], [set_status]. *)
Definition send_request (g : SyncEngine) (peer : PeerId) (m : SyncMsg) : SyncEngine * N :=
  (next_request (emit g (ORequest peer (g_next_req g) m)), g_next_req g).
Definition send_response (g : SyncEngine) (peer : PeerId) (m : SyncMsg) : SyncEngine :=
  emit g (OResponse peer m).
Definition send_event (g : SyncEngine) (e : EngineEvent) : SyncEngine := emit g (OEvent e).
Definition set_status (g : SyncEngine) (name : string) (d : DriveStatus) (detail : option string) :
    SyncEngine :=
  send_event g (EvDriveStatus name d detail).

(** [drive_name_by_peer]. *)
Definition drive_name_by_peer (g : SyncEngine) (peer : PeerId) : option string :=
  fst <$> find (fun p => bool_decide (r_peer p.2 = peer)) (map_to_list (g_drives g)).

(** [publish_action]. *)
Fixpoint evict (fuel : nat) (published : gset N) (order : list N) : gset N * list N :=
  match fuel with
  | O => (published, order)
  | S fuel' =>
      if PUBLISHED_CAP <? length order then
        match order with
        | [] => (published, order)
        | old :: order' => evict fuel' (published ∖ {[old]}) order'
        end
      else (published, order)
  end.
Definition publish_now (g : SyncEngine) (a : Action) : SyncEngine :=
  let h := hash a in
  if decide (h ∈ g_published g) then g
  else
    let order := g_published_order g ++ [h] in
    let '(p, o) := evict (length order) ({[h]} ∪ g_published g) order in
    emit (set_window g p o) (OPublish {| am_action := a; am_name := Some (g_pub_name g) |}).
Definition publish_action (g : SyncEngine) (a : Action) : SyncEngine :=
  match space_visibility (g_store g) (a_doc_id a) with
  | Some visibility => if may_gossip visibility then publish_now g a else g
  | None => publish_now g a
  end.

(** [request_model], [note_pending], [apply_remote_action]. *)
Definition request_model (g : SyncEngine) (peer : PeerId) (r : ModelRef) : SyncEngine :=
  let key := (mr_name r, mr_version r) in
  if decide (key ∈ g_requested g) then g
  else (send_request (set_requested g ({[key]} ∪ g_requested g)) peer (MModelRequest r)).1.
Definition note_pending (g : SyncEngine) (a : Action) : SyncEngine :=
  if existsb (fun p => bool_decide (hash p.2 = hash a)) (g_pending g) then g
  else set_pending g (g_pending g ++ [(a_model a, a)]).
Definition engine_apply_remote (g : SyncEngine) (peer : option PeerId) (a : Action) :
    SyncEngine * bool :=
  if model_available (g_store g) (a_model a) then
    match apply_remote_action a (g_store g) with
    | (s, Ok r) =>
        let g := set_store g s in
        if applied r
        then (send_event g (EvDocChanged (Some (store_doc_name s (a_doc_id a)))), true)
        else (g, false)
    | (s, Err _) => (set_store g s, false)
    end
  else
    let g := match peer with Some p => request_model g p (a_model a) | None => g end in
    (note_pending g a, false).

(** [open_handshake]. *)
Definition open_handshake (g : SyncEngine) (name : string) : SyncEngine :=
  match g_drives g !! name with
  | None => g
  | Some rt =>
      if negb (r_handshaken rt) && negb (d_paused (r_drive rt)) then
        if decide (r_peer rt ∈ g_banned g)
        then set_status g name DriveError (Some "banned by user")
        else
          let g := on_drive g name (rt_accept None) in
          (send_request g (r_peer rt) (MHello
             {| h_version := PROTOCOL_VERSION; h_name := g_pub_name g; h_peer_id := g_peer_id g;
                h_pubkey := hex_encode (verifying_key (i_key (g_store g)));
                h_token := g_token g; h_accept := r_accept rt |})).1
      else g
  end.

(** [add_drive_internal]. *)
Definition add_drive_internal (g : SyncEngine) (now : N) (connected : PeerId -> bool)
    (random : PeerId) (drive : Drive) : SyncEngine :=
  let peer := default random (drive_peer_id drive) in
  let rt := {| r_drive := drive; r_peer := peer;
               r_status := if d_paused drive then Paused else Connecting;
               r_remote_clocks := ∅; r_in_flight := ∅; r_handshaken := false;
               r_next_catch_up := now; r_last_seen := now; r_accept := None |} in
  let name := d_name drive in
  let g := set_drives g (<[name := rt]> (g_drives g)) in
  if d_paused drive then g
  else
    let guest := bool_decide (peer ∈ g_guests g) in
    let g := if guest
             then set_status (on_drive g name (fun rt => rt_seen now (rt_handshaken true rt)))
                    name Connecting None
             else g in
    let g := if negb guest && connected peer then open_handshake g name else g in
    set_status (emit g (ODial (Some peer) (d_addr drive))) name Connecting (Some "dialing").

(** [handle_invite_accept]. *)
Definition handle_invite_accept (g : SyncEngine) (now : N) (connected : PeerId -> bool)
    (random : PeerId) (peer : PeerId) (accept : InviteAccept) : SyncEngine :=
  if decide (peer ∈ g_banned g) then g
  else if negb (is_ok (accept_verify accept)) then g
  else
    match register_peer_key (c_peer_id accept) (c_pubkey accept) (g_store g) with
    | (s, Err _) => set_store g s
    | (s, Ok _) =>
        let g := set_store g s in
        let name := c_name accept +:+ " (" +:+ String.substring 0 12 peer +:+ ")" in
        match addr_parse ("/p2p/" +:+ peer) with
        | Err _ => g
        | Ok addr =>
            let g := add_drive_internal g now connected random
              {| d_name := name; d_addr := addr; d_token_env := None; d_paused := false;
                 d_available_offline := true |} in
            send_event (send_event g (EvDriveJoined name addr))
              (EvInviteAccepted peer (c_nonce accept))
        end
    end.

(** [record_auth_failure]. *)
Definition record_auth_failure (g : SyncEngine) (now : N) (peer : PeerId) : SyncEngine * bool :=
  let entry := default (0%N, now) (g_auth_failures g !! peer) in
  let count := ((if (AUTH_BAN_WINDOW <? now - entry.2) then 0 else entry.1) + 1)%N in
  if (AUTH_BAN_AFTER <=? count)%N then
    let g := set_auth_failures g (delete peer (g_auth_failures g)) in
    let g := set_banned g ({[peer]} ∪ g_banned g) in
    let detail := "auto-banned after " +:+ pretty count +:+ " failed auth attempts" in
    let g := match drive_name_by_peer g peer with
             | Some name => set_status g name DriveError (Some detail)
             | None => g
             end in
    (send_event g (EvPeerAutoBanned peer), true)
  else (set_auth_failures g (<[peer := (count, now)]> (g_auth_failures g)), false).

(** The handshake steps of [serve_request], each a gate that may answer. *)

(** The token gate. *)
Definition token_gate (g : SyncEngine) (now : N) (peer : PeerId) (h : Hello) :
    SyncEngine * option HelloError :=
  match g_token g with
  | None => (g, None)
  | Some need =>
      match h_token h with
      | Some got =>
          if decide (got = need) then (g, None)
          else
            let '(g, ban) := record_auth_failure g now peer in
            (g, Some (if ban then Banned else BadToken))
      | None => (g, Some BadToken)
      end
  end.

(** The key gate: a well-formed key completes the handshake of the peer's
    drive and is pinned under the connection's identity. *)
Definition key_gate (g : SyncEngine) (now : N) (peer : PeerId) (h : Hello) :
    SyncEngine * option HelloError :=
  match hex_decode (h_pubkey h) with
  | Err _ => (g, None)
  | Ok kb =>
      if decide (length kb = 32) then
        let name := drive_name_by_peer g peer in
        let auth_required :=
          match name ≫= fun n => g_drives g !! n with
          | Some rt => bool_decide (is_Some (d_token_env (r_drive rt)))
                         && bool_decide (h_token h = None)
          | None => false
          end in
        if auth_required then (g, Some AuthRequired)
        else
          let g := match name with
                   | Some n =>
                       set_status (on_drive g n (fun rt =>
                         rt_touch rt Connecting ∅ (r_in_flight rt) true (r_next_catch_up rt) now
                           (r_accept rt))) n Connecting None
                   | None => g
                   end in
          let g := set_guests g ({[peer]} ∪ g_guests g) in
          match register_peer_key peer kb (g_store g) with
          | (s, Err _) => (set_store g s, Some KeyMismatch)
          | (s, Ok _) => (set_store g s, None)
          end
      else (g, None)
  end.

(** The acknowledgement: the documents this peer may read. *)
Definition hello_ack (g : SyncEngine) (peer : PeerId) : HelloAck :=
  {| ack_version := PROTOCOL_VERSION; ack_name := g_pub_name g;
     ack_docs := (fun p => {| ds_id := p.1; ds_name := store_doc_name (g_store g) p.1;
                              ds_clock := p.2 |})
                 <$> map_to_list (summary_for (g_store g) peer);
     ack_pubkey := Some (hex_encode (verifying_key (i_key (g_store g)))) |}.

Definition serve_hello (g : SyncEngine) (now : N) (connected : PeerId -> bool) (random : PeerId)
    (peer : PeerId) (h : Hello) : SyncEngine :=
  if decide (peer ∈ g_banned g) then send_response g peer (MHelloErr Banned)
  else if negb (h_version h =? PROTOCOL_VERSION)%N
  then send_response g peer (MHelloErr (BadVersion PROTOCOL_VERSION (h_version h)))
  else
    let g := match h_accept h with
             | Some accept => handle_invite_accept g now connected random peer accept
             | None => g
             end in
    match token_gate g now peer h with
    | (g, Some e) => send_response g peer (MHelloErr e)
    | (g, None) =>
        match key_gate g now peer h with
        | (g, Some e) => send_response g peer (MHelloErr e)
        | (g, None) => send_response g peer (MHelloAck (hello_ack g peer))
        end
    end.

(** Serving a catch-up request: the read gate. *)
Definition serve_catch_up (g : SyncEngine) (peer : PeerId) (c : CatchUp) : SyncEngine :=
  if may_peer_read (g_store g) peer (cu_doc_id c) then
    let '(state, actions) := catch_up (g_store g) (cu_doc_id c) (cu_have c) in
    send_response g peer (MCatchUpAck
      {| ca_doc_id := cu_doc_id c; ca_state := state;
         ca_actions := take CATCH_UP_MAX_ACTIONS actions;
         ca_more := CATCH_UP_MAX_ACTIONS <? length actions |})
  else
    send_response (set_withheld g (u64_succ (g_withheld g))) peer (MCatchUpAck
      {| ca_doc_id := cu_doc_id c; ca_state := None; ca_actions := []; ca_more := false |}).

(** The peer's clocks are kept for the next tick and answered with ours. *)
Definition serve_summary (g : SyncEngine) (now : N) (peer : PeerId) (clocks : list (DocId * VecClock)) :
    SyncEngine :=
  let g := match drive_name_by_peer g peer with
           | Some n => on_drive g n (fun rt =>
                         rt_seen now (rt_clocks (merge_clocks (r_remote_clocks rt) clocks) rt))
           | None => g
           end in
  send_response g peer (MSummaryAck (map_to_list (summary_for (g_store g) peer))).

(** A model definition and a chunk, if this node has them. *)
Definition serve_model_request (g : SyncEngine) (peer : PeerId) (r : ModelRef) : SyncEngine :=
  send_response g peer (MModelDef r (model_definition (g_store g) r)).
Definition serve_chunk_request (g : SyncEngine) (peer : PeerId) (hash : Hash32) : SyncEngine :=
  send_response g peer (MChunkData hash (get_chunk (g_blobs g) hash)).

(** [serve_request]. *)
Definition serve_request (g : SyncEngine) (now : N) (connected : PeerId -> bool) (random : PeerId)
    (peer : PeerId) (request : SyncMsg) : SyncEngine :=
  match request with
  | MHello h => serve_hello g now connected random peer h
  | MCatchUp c => serve_catch_up g peer c
  | MSummary clocks => serve_summary g now peer clocks
  | MModelRequest r => serve_model_request g peer r
  | MChunkRequest hash => serve_chunk_request g peer hash
  | MHelloAck _ | MCatchUpAck _ | MSummaryAck _ | MHelloErr _ | MChunkData _ _ | MModelDef _ _ => g
  end.

(** ** Responses *)

(** The documents on which the drive is ahead of this node. *)
Definition gaps_of (own remote : gmap N VecClock) : list (DocId * VecClock) :=
  omap (fun p => let ours := default ∅ (own !! p.1) in
                 if vc_covers ours p.2 then None else Some (p.1, ours)) (map_to_list remote).

(** Asking for each gap, with the request ids kept as in flight. *)
Definition send_gaps (g : SyncEngine) (name : string) (peer : PeerId)
    (gaps : list (DocId * VecClock)) : SyncEngine :=
  foldl (fun g p =>
    let '(g, rq) := send_request g peer (MCatchUp {| cu_doc_id := p.1; cu_have := p.2 |}) in
    on_drive g name (fun rt => rt_in_flight ({[rq]} ∪ r_in_flight rt) rt)) g gaps.

(** Pinning the responder's key, when the acknowledgement carries a well-formed one. *)
Definition register_ack_key (s : Inner) (peer : PeerId) (ack : HelloAck) :
    Inner * result string unit :=
  match ack_pubkey ack with
  | Some pk =>
      match hex_decode pk with
      | Ok kb => if decide (length kb = 32) then register_peer_key peer kb s else (s, Ok tt)
      | Err _ => (s, Ok tt)
      end
  | None => (s, Ok tt)
  end.

Definition on_hello_ack (g : SyncEngine) (now : N) (name : string) (peer : PeerId) (ack : HelloAck) :
    SyncEngine :=
  let registered := register_ack_key (g_store g) peer ack in
  let g := set_store g registered.1 in
  match registered.2 with
  | Err _ =>
      set_status g name DriveError (Some
        ("TOFU key mismatch: the peer presented a different key "
         +:+ "than was pinned on first contact"))
  | Ok _ =>
      match g_drives g !! name with
      | None => g
      | Some _ =>
          let g := on_drive g name (fun rt =>
            if r_handshaken rt then rt
            else rt_touch rt Connecting ∅ (r_in_flight rt) true (r_next_catch_up rt) now
                   (r_accept rt)) in
          let g := set_status g name Connecting None in
          let g := on_drive g name (fun rt =>
            rt_clocks (merge_clocks (r_remote_clocks rt)
                         ((fun d => (ds_id d, ds_clock d)) <$> ack_docs ack)) rt) in
          let remote := default ∅ (r_remote_clocks <$> g_drives g !! name) in
          send_gaps g name peer (gaps_of (summary (g_store g)) remote)
      end
  end.

(** The status a refused handshake leaves a drive in. *)
Definition hello_err_status (e : HelloError) : DriveStatus * string :=
  match e with
  | BadVersion expected got =>
      (DriveError, "version mismatch (theirs " +:+ pretty got +:+ ", ours " +:+ pretty expected +:+ ")")
  | AuthRequired => (RequiresAuth, "the drive requires a token (p2p.tokenEnv)")
  | BadToken => (RequiresAuth, "token rejected by the drive")
  | KeyMismatch => (DriveError, "TOFU key mismatch: the peer's key differs from the pinned key")
  | Banned => (DriveError, "banned: the peer is refused by the remote (or is on our ban list)")
  end.

(** Applying a list of remote actions, with the number applied. *)
Definition apply_all (g : SyncEngine) (peer : PeerId) (l : list Action) : SyncEngine * nat :=
  foldl (fun acc a =>
    let '(g, ok) := engine_apply_remote acc.1 (Some peer) a in
    (g, if ok : bool then S acc.2 else acc.2)) (g, 0) l.

Definition on_catch_up_ack (g : SyncEngine) (now : N) (name : string) (peer : PeerId)
    (ack : CatchUpAck) : SyncEngine :=
  let '(g, applied) := apply_all g peer (ca_actions ack) in
  match g_drives g !! name with
  | None => g
  | Some rt =>
      let clocks := match last (ca_actions ack) with
                    | Some a => <[ca_doc_id ack := a_clock a]> (r_remote_clocks rt)
                    | None => r_remote_clocks rt
                    end in
      let synced := negb (ca_more ack) && bool_decide (r_in_flight rt = ∅)
                      && negb (bool_decide (r_status rt = Paused)) in
      let g := on_drive g name (fun rt =>
        rt_touch rt (if synced then Synced else r_status rt) clocks (r_in_flight rt)
          (r_handshaken rt) (r_next_catch_up rt) now (r_accept rt)) in
      if synced then set_status g name Synced (Some (pretty applied +:+ " actions applied")) else g
  end.

(** A definition from the mesh: what [on_response] checks before it registers it. *)
Definition accept_model_def (r : ModelRef) (def : Value) : option L1 :=
  if bool_decide ((vget def "name" ≫= as_str) = Some (mr_name r))
     && bool_decide ((vget def "version" ≫= as_str) = Some (mr_version r)) then
    let hash_ok := match mr_hash r with
                   | Some want => bool_decide (model_def_hash def = want)
                   | None => true
                   end in
    if hash_ok then match from_def def with Ok l1 => Some l1 | Err _ => None end else None
  else None.

Definition pending_for (r : ModelRef) (p : ModelRef * Action) : bool :=
  bool_decide (mr_name p.1 = mr_name r) && bool_decide (mr_version p.1 = mr_version r).

Definition on_model_def (g : SyncEngine) (peer : PeerId) (r : ModelRef) (def : option Value) :
    SyncEngine :=
  match def ≫= accept_model_def r with
  | None => g
  | Some l1 =>
      let g := set_store g (add_model (g_store g) (ML1 l1)) in
      let g := set_requested g (g_requested g ∖ {[(mr_name r, mr_version r)]}) in
      let to_apply := snd <$> filter (fun p => pending_for r p = true) (g_pending g) in
      let g := set_pending g (filter (fun p => pending_for r p = false) (g_pending g)) in
      (apply_all g peer to_apply).1
  end.

Context (show_hash : Hash32 -> string).

(** A refused hello: the drive shows why. *)
Definition on_hello_err (g : SyncEngine) (name : string) (err : HelloError) : SyncEngine :=
  let '(status, detail) := hello_err_status err in
  set_status (on_drive g name (rt_status status)) name status (Some detail).

Definition on_summary_ack (g : SyncEngine) (name : string) (clocks : list (DocId * VecClock)) : SyncEngine :=
  on_drive g name (fun rt => rt_clocks (merge_clocks (r_remote_clocks rt) clocks) rt).

(** A chunk is stored under its own hash or refused; the daemon is told
    either way. *)
Definition on_chunk_data (g : SyncEngine) (hash : Hash32) (bytes : option (list byte)) : SyncEngine :=
  match bytes with
  | None => g
  | Some b => send_event (set_blobs g (put_chunk show_hash (g_blobs g) hash b).1) (EvChunkStored hash)
  end.

(** [on_response]. *)
Definition on_response (g : SyncEngine) (now : N) (peer : PeerId) (request_id : N)
    (response : SyncMsg) : SyncEngine :=
  match drive_name_by_peer g peer with
  | None => g
  | Some name =>
      let g := on_drive g name (fun rt => rt_in_flight (r_in_flight rt ∖ {[request_id]}) rt) in
      match response with
      | MHelloAck ack => on_hello_ack g now name peer ack
      | MHelloErr err => on_hello_err g name err
      | MCatchUpAck ack => on_catch_up_ack g now name peer ack
      | MSummaryAck clocks => on_summary_ack g name clocks
      | MModelDef r def => on_model_def g peer r def
      | MChunkData hash bytes => on_chunk_data g hash bytes
      | MHello _ | MCatchUp _ | MSummary _ | MChunkRequest _ | MModelRequest _ => g
      end
  end.

(** ** The tick *)

(** A drive that is due: not paused, handshaken, its time come. *)
Definition due (now : N) (rt : DriveRuntime) : bool :=
  negb (d_paused (r_drive rt)) && r_handshaken rt && (r_next_catch_up rt <=? now)%N.

Definition tick_catch (now : N) (own : gmap N VecClock) (g : SyncEngine) (name : string)
    (rt : DriveRuntime) : SyncEngine :=
  send_gaps (on_drive g name (rt_next (now + CATCH_UP_TICK)%N)) name (r_peer rt)
    (gaps_of own (r_remote_clocks rt)).

Definition tick_summary (own : gmap N VecClock) (g : SyncEngine) (name : string) (peer : PeerId) :
    SyncEngine :=
  let g := (send_request g peer (MSummary (map_to_list own))).1 in
  match g_drives g !! name with
  | Some rt =>
      if bool_decide (r_status rt = Connecting)
      then set_status (on_drive g name (rt_status Synced)) name Synced None
      else g
  | None => g
  end.

(** [tick]. *)
Definition tick (g : SyncEngine) (now last_activity : N) : SyncEngine :=
  let '(s, queued) := drain_outbound (g_store g) in
  let g := foldl publish_action (set_store g s) queued in
  let idle_for := (now - last_activity)%N in
  let g := if (IDLE_AFTER_SILENCE <? idle_for)%N && negb (g_idle_notified g)
           then set_idle_notified g true
           else if (idle_for <? IDLE_AFTER_SILENCE)%N then set_idle_notified g false else g in
  let own := summary (g_store g) in
  let dues := filter (fun p => due now p.2 = true) (map_to_list (g_drives g)) in
  let g := foldl (fun g p => tick_catch now own g p.1 p.2) g dues in
  foldl (fun g p => tick_summary own g p.1 (r_peer p.2)) g dues.

(** ** Commands *)

(** [handle_cmd]. *)
Definition handle_cmd (g : SyncEngine) (now : N) (connected : PeerId -> bool) (random : PeerId)
    (cmd : EngineCommand) : SyncEngine :=
  match cmd with
  | AddDrive drive => add_drive_internal g now connected random drive
  | Join drive accept =>
      on_drive (add_drive_internal g now connected random drive) (d_name drive)
        (rt_accept (Some accept))
  | Ban peer => set_banned g ({[peer]} ∪ g_banned g)
  | Unban peer => set_banned g (g_banned g ∖ {[peer]})
  | RemoveDrive name =>
      match g_drives g !! name with
      | Some _ => set_status (set_drives g (delete name (g_drives g))) name Offline None
      | None => g
      end
  | SetPaused name paused =>
      match g_drives g !! name with
      | None => g
      | Some rt =>
          let g := on_drive g name (fun rt =>
            rt_next now (rt_status (if paused then Paused else Connecting) (rt_paused paused rt))) in
          if paused then g else emit g (ODial None (d_addr (r_drive rt)))
      end
  | Resync name =>
      match g_drives g !! name with
      | None => g
      | Some rt =>
          if r_handshaken rt
          then set_status (on_drive g name (rt_next now)) name Connecting (Some "re-sync requested")
          else set_status g name Connecting (Some "re-sync requested (handshaking)")
      end
  | FetchBlob blob =>
      let peers := (fun p => r_peer p.2) <$> map_to_list (g_drives g) in
      foldl (fun g hash =>
        foldl (fun g peer => (send_request g peer (MChunkRequest hash)).1) g peers)
        g (missing (g_blobs g) blob)
  | DhtBootstrap peers =>
      let g := foldl (fun g p => emit g (OAddPeerAddress p.1 p.2)) g peers in
      if g_kad g then
        let g := foldl (fun g p => emit g (OKadAddAddress p.1 p.2)) g peers in
        match peers with [] => g | _ => emit g OKadBootstrap end
      else g
  | PublishProvider _ doc => if g_kad g then emit g (OKadProvide doc) else g
  | FindProviders key => if g_kad g then emit g (OKadGetProviders key) else g
  | Shutdown => set_running g false
  end.

(** ** Events of the swarm *)

Inductive SwarmEvent :=
  | NewListenAddr (address : Multiaddr)
  | ConnectionEstablished (peer : PeerId)
  | ConnectionClosed (peer : PeerId) (num_established : nat)
  | GossipMessage (source : option PeerId) (m : ActionMsg)
  | SyncRequest (peer : PeerId) (request : SyncMsg)
  | SyncResponse (peer : PeerId) (request_id : N) (response : SyncMsg)
  | OutboundFailure (peer : PeerId)
  | MdnsDiscovered (l : list (PeerId * Multiaddr))
  | IdentifyReceived (peer : PeerId) (addrs : list Multiaddr)
  | KadBootstrapResult (ok : bool)
  | KadProviders (key : list byte) (providers : list PeerId)
  | OtherEvent.

(** [on_gossip] of a message that decodes; any other is dropped. *)
Definition on_gossip (g : SyncEngine) (source : option PeerId) (m : ActionMsg) : SyncEngine :=
  (engine_apply_remote g source (am_action m)).1.

(** [on_swarm_event], with [on_sync]. *)
Definition on_swarm_event (g : SyncEngine) (now : N) (connected : PeerId -> bool)
    (random : PeerId) (ev : SwarmEvent) : SyncEngine :=
  match ev with
  | NewListenAddr address =>
      if g_identity_sent g then g
      else send_event (set_identity_sent g true) (EvIdentity (g_peer_id g) address)
  | ConnectionEstablished peer =>
      let g := send_event g (EvPeerConnected peer) in
      match drive_name_by_peer g peer with
      | Some name => open_handshake g name
      | None => g
      end
  | ConnectionClosed peer num =>
      if decide (num = 0) then
        match drive_name_by_peer g peer with
        | None => g
        | Some name =>
            let status := match g_drives g !! name with
                          | Some rt => if d_paused (r_drive rt) then Paused else Connecting
                          | None => Connecting
                          end in
            let g := on_drive g name (fun rt =>
              rt_status status (rt_in_flight ∅ (rt_handshaken false rt))) in
            set_status g name status (Some "reconnecting")
        end
      else g
  | GossipMessage source m => on_gossip g source m
  | SyncRequest peer request => serve_request g now connected random peer request
  | SyncResponse peer id response => on_response g now peer id response
  | OutboundFailure peer =>
      match drive_name_by_peer g peer with
      | None => g
      | Some name =>
          let paused := match g_drives g !! name with
                        | Some rt => bool_decide (r_status rt = Paused)
                        | None => false
                        end in
          if paused then g
          else set_status (on_drive g name (rt_status Connecting)) name Connecting
                 (Some "request failed (will retry)")
      end
  | MdnsDiscovered l => foldl (fun g p => emit g (OAddPeerAddress p.1 p.2)) g l
  | IdentifyReceived peer addrs =>
      if g_kad g then foldl (fun g a => emit g (OKadAddAddress peer a)) g addrs else g
  | KadBootstrapResult ok => send_event g (EvDhtBootstrap ok)
  | KadProviders key providers =>
      foldl (fun g p => if decide (p = g_peer_id g) then g else send_event g (EvDhtProvider key p))
        g providers
  | OtherEvent => g
  end.

(** ** The main loop *)

(** [SyncEngine::new], on a store and a chunk store. *)
Definition engine_new (store : Inner) (peer_id : PeerId) (pub_name : string) (listen : Multiaddr)
    (listen_ws : option Multiaddr) (external : list Multiaddr) (blobs : gmap N (list byte))
    (dht_enabled : bool) (token : option string) (banned : gset string) : SyncEngine :=
  {| g_store := store; g_peer_id := peer_id; g_pub_name := pub_name; g_listen := listen;
     g_listen_ws := listen_ws; g_external := external; g_kad := dht_enabled; g_blobs := blobs;
     g_token := token; g_drives := ∅; g_guests := ∅; g_banned := banned; g_auth_failures := ∅;
     g_running := true; g_idle_notified := false; g_withheld := 0; g_identity_sent := false;
     g_pending := []; g_requested := ∅; g_published := ∅; g_published_order := [];
     g_next_req := 0; g_out := [] |}.

(** What [run] does before its loop. *)
Definition run_start (g : SyncEngine) : SyncEngine :=
  let g := emit g OSubscribe in
  let g := emit g (OListen (g_listen g)) in
  let g := match g_listen_ws g with Some ws => emit g (OListen ws) | None => g end in
  let g := foldl (fun g a => emit g (OAnnounce a)) g (g_external g) in
  set_store g (connect_outbound (g_store g)).

(** One turn of the [select!] loop: an input with the values of the clock, the
    connection table and the random source at that moment.  [IOutbound] is an
    action from the store's feed, [IClosed] the end of the command channel. *)
Inductive Input :=
  | ITick (last_activity : N)
  | ICmd (c : EngineCommand)
  | ISwarm (e : SwarmEvent)
  | IOutbound (a : Action)
  | IClosed.
Definition run_step (g : SyncEngine) (now : N) (connected : PeerId -> bool) (random : PeerId)
    (i : Input) : SyncEngine :=
  if g_running g then
    match i with
    | ITick last_activity => tick g now last_activity
    | ICmd c => handle_cmd g now connected random c
    | ISwarm e => on_swarm_event g now connected random e
    | IOutbound a => publish_action g a
    | IClosed => set_running g false
    end
  else g.
End Engine.
