(* ===== verification/EngineProps.v ===== *)
(** Theorems about the sync engine: what it discloses, what it gossips, whom it
    lets in, what it does with models it lacks, and that it drives the store
    through the store's own operations only. *)

From stdpp Require Import base list gmap strings numbers pretty relations.
From Stdlib Require Import Strings.Byte Strings.Ascii.
From S2P Require Import Prelude Json Doc Sample Action Model Builtins Entry Redeliver Store.
From S2P Require Import StoreInv StoreProps Text Invite Blob Codec Engine.

#[global] Arguments send_request : simpl never.
#[global] Arguments set_status : simpl never.
#[global] Arguments send_event : simpl never.
#[global] Arguments on_drive : simpl never.

Section Frame.
Context `{Platform, Net} (S : Prop).
Implicit Types (g : SyncEngine) (o : Output).

(** ** What a handler does to the outside and to the store *)

(** Outputs that neither answer a peer nor go to the mesh. *)
Definition quiet (o : Output) : Prop :=
  match o with OResponse _ _ | OPublish _ => False | _ => True end.

(** [g'] comes from [g] by quiet outputs and store operations, with the same
    configuration and gossip window. *)
Record calm (g g' : SyncEngine) : Prop := {
  calm_out : exists new, g_out g' = g_out g ++ new /\ Forall quiet new;
  calm_window : g_published g' = g_published g /\ g_published_order g' = g_published_order g;
  calm_store : S -> rtc step (g_store g) (g_store g');
  calm_config : g_token g' = g_token g /\ g_pub_name g' = g_pub_name g
}.

Lemma calm_same g g' :
  g_out g' = g_out g -> g_published g' = g_published g ->
  g_published_order g' = g_published_order g -> g_store g' = g_store g ->
  g_token g' = g_token g -> g_pub_name g' = g_pub_name g -> calm g g'.
Proof.
  intros Ho Hp Hq Hs Ht Hn. split; [|done| |done].
  - exists []. by rewrite app_nil_r.
  - intros _. by rewrite Hs.
Qed.

#[global] Instance calm_preorder : PreOrder calm.
Proof.
  split; [intros g; by apply calm_same|].
  intros g1 g2 g3 [(n1 & E1 & F1) [W1 O1] S1 [T1 N1]] [(n2 & E2 & F2) [W2 O2] S2 [T2 N2]].
  split; [|by split; congruence|intros HS; etrans; [by apply S1|by apply S2]|by split; congruence].
  exists (n1 ++ n2). split; [by rewrite E2, E1, app_assoc|]. by apply Forall_app.
Qed.

Lemma calm_emit g o : quiet o -> calm g (emit g o).
Proof. intros Hq. split; [by exists [o]; split; [|constructor]|done|by intros _|done]. Qed.
Lemma calm_event g e : calm g (send_event g e).
Proof. by apply calm_emit. Qed.
Lemma calm_status g n d t : calm g (set_status g n d t).
Proof. apply calm_event. Qed.
Lemma calm_on_drive g n f : calm g (on_drive g n f).
Proof. unfold on_drive. case_match; by apply calm_same. Qed.
Lemma calm_request g p m : calm g (send_request g p m).1.
Proof. etrans; [by apply (calm_emit g (ORequest p (g_next_req g) m))|by apply calm_same]. Qed.
Lemma calm_set_store g s : (S -> rtc step (g_store g) s) -> calm g (set_store g s).
Proof. intros Hs. split; [by exists []; rewrite app_nil_r|done|done|done]. Qed.
Lemma calm_register g x k : calm g (set_store g (register_peer_key x k (g_store g)).1).
Proof. apply calm_set_store. intros _. apply rtc_once. constructor. Qed.

Lemma calm_foldl {A} (f : SyncEngine -> A -> SyncEngine) l g :
  (forall g x, calm g (f g x)) -> calm g (foldl f g l).
Proof.
  intros Hf. revert g. induction l as [|x l IH]; intros g; [done|]. simpl.
  etrans; [apply Hf|apply IH].
Qed.
End Frame.

Create HintDb calm discriminated.
#[export] Hint Resolve calm_event calm_status calm_on_drive calm_request calm_register : calm.
#[export] Hint Extern 1 (calm _ _ (emit _ _)) => apply calm_emit; exact I : calm.
#[export] Hint Extern 2 (calm _ _ (set_drives _ _)) => by apply calm_same : calm.
#[export] Hint Extern 2 (calm _ _ (set_guests _ _)) => by apply calm_same : calm.
#[export] Hint Extern 2 (calm _ _ (set_banned _ _)) => by apply calm_same : calm.
#[export] Hint Extern 2 (calm _ _ (set_auth_failures _ _)) => by apply calm_same : calm.
#[export] Hint Extern 2 (calm _ _ (set_pending _ _)) => by apply calm_same : calm.
#[export] Hint Extern 2 (calm _ _ (set_requested _ _)) => by apply calm_same : calm.
#[export] Hint Extern 2 (calm _ _ (set_running _ _)) => by apply calm_same : calm.
#[export] Hint Extern 2 (calm _ _ (set_blobs _ _)) => by apply calm_same : calm.
#[export] Hint Extern 2 (calm _ _ (set_withheld _ _)) => by apply calm_same : calm.
#[export] Hint Extern 2 (calm _ _ (set_idle_notified _ _)) => by apply calm_same : calm.
#[export] Hint Extern 2 (calm _ _ (set_identity_sent _ _)) => by apply calm_same : calm.

(** Peel the outermost operation off the right-hand engine. *)
Ltac calm_step :=
  match goal with
  | |- calm _ ?g ?g => reflexivity
  | |- calm _ _ (match ?x with _ => _ end) => destruct x eqn:?; simpl
  | |- calm _ _ (if ?x then _ else _) => destruct x eqn:?; simpl
  | |- calm _ _ (set_status ?g _ _ _) => transitivity g; [|apply calm_status]
  | |- calm _ _ (send_event ?g _) => transitivity g; [|apply calm_event]
  | |- calm _ _ (on_drive ?g _ _) => transitivity g; [|apply calm_on_drive]
  | |- calm _ _ (send_request ?g _ _).1 => transitivity g; [|apply calm_request]
  | |- calm _ _ (next_request ?g) => transitivity g; [|by apply calm_same]
  | |- calm _ _ (emit ?g _) => transitivity g; [|auto with calm; fail]
  | |- calm _ _ (set_drives ?g _) => transitivity g; [|auto with calm; fail]
  | |- calm _ _ (set_guests ?g _) => transitivity g; [|auto with calm; fail]
  | |- calm _ _ (set_banned ?g _) => transitivity g; [|auto with calm; fail]
  | |- calm _ _ (set_auth_failures ?g _) => transitivity g; [|auto with calm; fail]
  | |- calm _ _ (set_pending ?g _) => transitivity g; [|auto with calm; fail]
  | |- calm _ _ (set_requested ?g _) => transitivity g; [|auto with calm; fail]
  | |- calm _ _ (set_running ?g _) => transitivity g; [|auto with calm; fail]
  | |- calm _ _ (set_blobs ?g _) => transitivity g; [|auto with calm; fail]
  | |- calm _ _ (set_withheld ?g _) => transitivity g; [|auto with calm; fail]
  | |- calm _ _ (set_idle_notified ?g _) => transitivity g; [|auto with calm; fail]
  | |- calm _ _ (set_identity_sent ?g _) => transitivity g; [|auto with calm; fail]
  | |- calm _ _ (foldl _ ?g _) => transitivity g; [|apply calm_foldl; intros]
  end.
Ltac solve_calm := repeat (calm_step; simpl); auto with calm.

Section Calm.
Context `{Platform, Net} (S : Prop).
Implicit Types (g : SyncEngine) (o : Output).

Lemma calm_request_model g p r : calm S g (request_model g p r).
Proof. unfold request_model. case_decide; [done|]. etrans; [|apply calm_request]. solve_calm. Qed.
Lemma calm_note_pending g a : calm S g (note_pending g a).
Proof. unfold note_pending. solve_calm. Qed.

Lemma calm_apply_remote g p a : calm S g (engine_apply_remote g p a).1.
Proof.
  unfold engine_apply_remote. destruct (model_available _ _).
  - assert (Hc : calm S g (set_store g (apply_action a (g_store g)).1)).
    { apply calm_set_store. intros _. apply rtc_once. constructor. }
    change (apply_remote_action a (g_store g)) with (apply_action a (g_store g)).
    destruct (apply_action a (g_store g)) as [s [r|e]]; simpl in *; [|done].
    destruct (applied r); simpl; [|done]. etrans; [exact Hc|apply calm_event].
  - simpl. etrans; [|apply calm_note_pending]. destruct p; [apply calm_request_model|done].
Qed.

Lemma calm_apply_all g p l : calm S g (apply_all g p l).1.
Proof.
  unfold apply_all. generalize 0 as n. revert g. induction l as [|a l IH]; intros g n; [done|].
  simpl. pose proof (calm_apply_remote g (Some p) a) as Hc.
  destruct (engine_apply_remote g (Some p) a) as [g' ok]. etrans; [exact Hc|apply IH].
Qed.

Lemma calm_open_handshake g n : calm S g (open_handshake g n).
Proof. unfold open_handshake. solve_calm. Qed.

Lemma calm_add_drive g now c r d : calm S g (add_drive_internal g now c r d).
Proof.
  unfold add_drive_internal. case_match; [solve_calm|].
  do 2 calm_step. etrans; [|case_match; [apply calm_open_handshake|reflexivity]]. solve_calm.
Qed.

Lemma calm_invite_accept g now c r p a : calm S g (handle_invite_accept g now c r p a).
Proof.
  unfold handle_invite_accept. case_decide; [done|]. case_match; [done|].
  pose proof (calm_register S g (c_peer_id a) (c_pubkey a)) as Hr.
  destruct (register_peer_key _ _ _) as [s [u|e]]; simpl in *; [|done].
  case_match; [|done]. do 2 calm_step. etrans; [exact Hr|apply calm_add_drive].
Qed.

Lemma calm_auth_failure g now p : calm S g (record_auth_failure g now p).1.
Proof. unfold record_auth_failure. case_match; simpl; [|solve_calm]. solve_calm. Qed.

Lemma calm_token_gate g now p h : calm S g (token_gate g now p h).1.
Proof.
  unfold token_gate. destruct (g_token g) as [need|]; [|done].
  destruct (h_token h) as [got|]; [|done]. case_decide; [done|].
  pose proof (calm_auth_failure g now p) as Hc. by destruct (record_auth_failure g now p).
Qed.

Lemma calm_key_gate g now p h : calm S g (key_gate g now p h).1.
Proof.
  unfold key_gate. destruct (hex_decode _) as [kb|]; [|done]. case_decide; [|done].
  set (name := drive_name_by_peer g p). case_match; [done|].
  match goal with |- context [register_peer_key p kb (g_store ?g')] =>
    assert (Hc : calm S g g') by (destruct name; solve_calm);
    pose proof (calm_register S g' p kb) as Hr; destruct (register_peer_key p kb (g_store g')) as [s [u|e]]
  end; simpl in *; by etrans.
Qed.

Lemma calm_send_gaps g n p l : calm S g (send_gaps g n p l).
Proof.
  unfold send_gaps. apply calm_foldl. intros g' x. simpl. etrans; [|apply calm_on_drive].
  apply (calm_request S g' p).
Qed.

Lemma calm_register_ack g p a : calm S g (set_store g (register_ack_key (g_store g) p a).1).
Proof.
  unfold register_ack_key. destruct (ack_pubkey a) as [pk|]; [|by apply calm_same].
  destruct (hex_decode pk); [|by apply calm_same].
  case_decide; [apply calm_register|by apply calm_same].
Qed.

Lemma calm_hello_ack g now n p a : calm S g (on_hello_ack g now n p a).
Proof.
  unfold on_hello_ack. etrans; [apply (calm_register_ack g p a)|].
  destruct (register_ack_key _ _ _).2; [|apply calm_status]. case_match; [|done].
  etrans; [|apply calm_send_gaps]. solve_calm.
Qed.

Lemma calm_catch_up_ack g now n p a : calm S g (on_catch_up_ack g now n p a).
Proof.
  unfold on_catch_up_ack. pose proof (calm_apply_all g p (ca_actions a)) as Hc.
  destruct (apply_all _ _ _) as [g' k]. simpl in Hc. etrans; [exact Hc|]. solve_calm.
Qed.
End Calm.
#[export] Hint Resolve calm_open_handshake calm_add_drive calm_invite_accept calm_apply_remote
  calm_apply_all calm_hello_ack calm_catch_up_ack calm_send_gaps calm_auth_failure : calm.

(** ** Handlers of responses, commands and the tick *)

Section Handlers.
Context `{Platform, Net} (S : Prop) (show_hash : Hash32 -> string).
Implicit Types (g : SyncEngine) (o : Output).

Lemma accept_model_def_ref r def l :
  accept_model_def r def = Some l ->
  from_def def = Ok l /\ mr_name (l1_ref l) = mr_name r /\ mr_version (l1_ref l) = mr_version r /\
  (forall want, mr_hash r = Some want -> model_def_hash def = want).
Proof.
  unfold accept_model_def. case_bool_decide as Hn; [|done]. case_bool_decide as Hv; [|done]. simpl.
  intros Hl. destruct (match mr_hash r with Some _ => _ | None => _ end) eqn:Hh; [|done].
  destruct (from_def def) as [l'|] eqn:Hd; [|done]. injection Hl as ->.
  split; [done|]. unfold from_def in Hd. rewrite Hn, Hv in Hd. simpl in Hd.
  case_bool_decide; [done|]. injection Hd as <-. simpl. split_and!; [done..|].
  intros want Hw. rewrite Hw in Hh. by apply bool_decide_eq_true in Hh.
Qed.

(** The definition does not take the place of a loaded model. *)
Definition def_fresh g (r : ModelRef) : Prop :=
  i_models (g_store g) !! (mr_name r, mr_version r) = None.

Lemma calm_model_def g p r d : (S -> def_fresh g r) -> calm S g (on_model_def g p r d).
Proof.
  intros Hf. unfold on_model_def. destruct (d ≫= accept_model_def r) as [l|] eqn:E; [|done].
  apply bind_Some in E as (def & _ & Ha). apply accept_model_def_ref in Ha as (_ & Hn & Hv & _).
  cbn zeta. etrans; [|apply calm_apply_all]. do 2 calm_step.
  apply calm_set_store. intros HS. apply rtc_once, step_add_model.
  change (ref_ (ML1 l)) with (l1_ref l). rewrite Hn, Hv. by apply Hf.
Qed.

(** The registry of a response's definition is free. *)
Definition response_fresh g (m : SyncMsg) : Prop :=
  match m with MModelDef r _ => def_fresh g r | _ => True end.

Lemma store_on_drive g n f : g_store (on_drive g n f) = g_store g.
Proof. unfold on_drive. by case_match. Qed.

Lemma calm_response g now p id m :
  (S -> response_fresh g m) -> calm S g (on_response show_hash g now p id m).
Proof.
  intros Hf. unfold on_response. destruct (drive_name_by_peer g p) as [n|]; [|done].
  cbn zeta. etrans; [apply calm_on_drive|]. destruct m; simpl;
    unfold on_hello_err, on_summary_ack, on_chunk_data; auto with calm; try solve_calm.
  apply calm_model_def. unfold response_fresh, def_fresh in *. by rewrite store_on_drive.
Qed.

Lemma calm_cmd g now c r cmd : calm S g (handle_cmd g now c r cmd).
Proof.
  destruct cmd; simpl; auto with calm; solve_calm.
Qed.
End Handlers.

(** ** Gossip *)

Section Gossip.
Context `{Platform, Net}.
Implicit Types (g : SyncEngine) (s : Inner).

(** The dedupe window: the queue without repeats, the set its elements. *)
Record window_inv g : Prop := {
  win_nodup : NoDup (g_published_order g);
  win_set : g_published g = list_to_set (g_published_order g);
  win_len : length (g_published_order g) <= PUBLISHED_CAP
}.

(** A document whose space does not forbid gossip. *)
Definition gossipable s (id : DocId) : Prop :=
  space_visibility s id = None \/ space_visibility s id = Some PUBLIC.

Lemma PUBLISHED_CAP_pos : 0 < PUBLISHED_CAP.
Proof. unfold PUBLISHED_CAP. lia. Qed.
#[local] Opaque PUBLISHED_CAP.

Lemma evict_spec fuel p o :
  length o <= fuel -> NoDup o -> p = list_to_set o ->
  exists o', evict fuel p o = (list_to_set o', o') /\
    o' = drop (length o - PUBLISHED_CAP) o.
Proof.
  revert p o. induction fuel as [|fuel IH]; intros p o Hf Hn Hp; cbn [evict].
  { destruct o; [|simpl in Hf; lia]. exists []. by subst. }
  destruct (PUBLISHED_CAP <? length o) eqn:E.
  - apply Nat.ltb_lt in E. destruct o as [|old o]; [simpl in E; lia|].
    cbn [length] in *. rewrite list_to_set_cons in Hp.
    apply NoDup_cons in Hn as [Hold Hn].
    destruct (IH (p ∖ {[old]}) o) as (o' & E' & ->); [lia|done| |].
    { subst p. apply set_eq. intros x. rewrite elem_of_list_to_set. set_solver. }
    rewrite E'. eexists. split; [done|].
    by replace (S (length o) - PUBLISHED_CAP) with (S (length o - PUBLISHED_CAP)) by lia.
  - apply Nat.ltb_ge in E. exists o. subst p. split; [done|].
    replace (length o - PUBLISHED_CAP) with 0 by lia. done.
Qed.

Lemma publish_now_spec g a :
  window_inv g ->
  window_inv (publish_now g a) /\ hash a ∈ g_published (publish_now g a) /\
  g_store (publish_now g a) = g_store g /\
  g_out (publish_now g a) = g_out g ++
    (if decide (hash a ∈ g_published g) then []
     else [OPublish {| am_action := a; am_name := Some (g_pub_name g) |}]).
Proof.
  intros [Hn Hs Hl]. unfold publish_now. case_decide as Hh; [by rewrite app_nil_r|].
  set (h := hash a) in *. set (order := g_published_order g ++ [h]).
  assert (Hno : NoDup order).
  { apply NoDup_app. split; [done|]. split; [|apply NoDup_singleton].
    intros x Hx E. apply list_elem_of_singleton in E. subst x. apply Hh. rewrite Hs.
    by apply elem_of_list_to_set. }
  destruct (evict_spec (length order) ({[h]} ∪ g_published g) order) as (o' & E & Ho'); [done|done| |].
  { subst order. rewrite Hs. apply set_eq. intros x.
    rewrite elem_of_union, !elem_of_list_to_set, elem_of_app, elem_of_singleton,
      list_elem_of_singleton. naive_solver. }
  rewrite E. assert (Hlen : length order = S (length (g_published_order g))).
  { subst order. rewrite length_app. simpl. lia. }
  pose proof PUBLISHED_CAP_pos. split; [|split; [|done]].
  - split; simpl; subst o'; [by eapply sublist_NoDup, sublist_drop|done|].
    rewrite length_drop. lia.
  - simpl. apply elem_of_list_to_set. subst o'.
    assert (Hd : length order - PUBLISHED_CAP <= length (g_published_order g)) by lia.
    subst order. rewrite drop_app_le by done. apply elem_of_app. right. by left.
Qed.

Lemma publish_action_spec g a :
  window_inv g ->
  window_inv (publish_action g a) /\ g_store (publish_action g a) = g_store g /\
  exists new, g_out (publish_action g a) = g_out g ++ new /\
    (new = [] /\ (hash a ∈ g_published g \/ ~ gossipable (g_store g) (a_doc_id a)) \/
     new = [OPublish {| am_action := a; am_name := Some (g_pub_name g) |}] /\
     hash a ∉ g_published g /\ gossipable (g_store g) (a_doc_id a)).
Proof.
  intros Hw. destruct (publish_now_spec g a Hw) as (W & _ & Hs & Ho).
  unfold publish_action, gossipable, may_gossip.
  destruct (space_visibility (g_store g) (a_doc_id a)) as [v|]; [case_bool_decide as Hv|].
  2: { split; [done|]. split; [done|]. exists []. rewrite app_nil_r. split; [done|]. left.
       split; [done|right]. by intros [?|[= ?]]. }
  all: split; [done|]; split; [done|]; eexists; split; [exact Ho|]; case_decide; subst; auto.
Qed.

(** ** Serving *)

(** What [peer] may be told, given the documents of [s]. *)
Definition allowed s (peer : PeerId) (m : SyncMsg) : Prop :=
  match m with
  | MHelloAck a => forall d, d ∈ ack_docs a -> may_peer_read s peer (ds_id d) = true
  | MSummaryAck l | MSummary l => forall p, p ∈ l -> may_peer_read s peer p.1 = true
  | MCatchUpAck a =>
      ca_state a = None /\ ca_actions a = [] \/
      may_peer_read s peer (ca_doc_id a) = true /\
      exists e, i_entries s !! ca_doc_id a = Some e /\ ca_state a = Some (state_of e) /\
        forall x, x ∈ ca_actions a -> x ∈ e_log e
  | _ => True
  end.

Lemma may_peer_read_entries s s' p id :
  i_entries s' = i_entries s -> may_peer_read s' p id = may_peer_read s p id.
Proof. intros E. unfold may_peer_read. by rewrite E. Qed.

Lemma allowed_entries s s' p m : i_entries s' = i_entries s -> allowed s' p m -> allowed s p m.
Proof.
  intros E. destruct m; simpl; try done.
  - intros Ha d Hd. rewrite <- (may_peer_read_entries _ _ _ _ E). by apply Ha.
  - by rewrite E, (may_peer_read_entries _ _ _ _ E).
  - intros Ha d Hd. rewrite <- (may_peer_read_entries _ _ _ _ E). by apply Ha.
  - intros Ha d Hd. rewrite <- (may_peer_read_entries _ _ _ _ E). by apply Ha.
Qed.

Lemma summary_for_allowed s peer p :
  p ∈ map_to_list (summary_for s peer) -> may_peer_read s peer p.1 = true.
Proof.
  destruct p as [id c]. rewrite elem_of_map_to_list. unfold summary_for.
  rewrite map_lookup_filter_Some. by intros [_ Hr].
Qed.

Lemma hello_ack_allowed g p : allowed (g_store g) p (MHelloAck (hello_ack g p)).
Proof.
  simpl. intros d Hd. apply list_elem_of_fmap in Hd as (x & -> & Hx). simpl.
  by apply summary_for_allowed.
Qed.

Lemma store_open_handshake g n : g_store (open_handshake g n) = g_store g.
Proof.
  unfold open_handshake. case_match; [|done]. case_match; [|done]. case_decide; [done|].
  unfold send_request. simpl. apply store_on_drive.
Qed.

Lemma store_add_drive g now c r d : g_store (add_drive_internal g now c r d) = g_store g.
Proof.
  unfold add_drive_internal. case_match; [done|].
  change (g_store (set_status (emit ?g' _) _ _ _)) with (g_store g').
  match goal with |- g_store (if _ then open_handshake ?g1 _ else ?g1) = _ =>
    transitivity (g_store g1); [case_match; [apply store_open_handshake|done]|] end.
  case_match; [|done]. unfold set_status, send_event. simpl. by rewrite store_on_drive.
Qed.

(** Registering a key leaves the documents alone. *)
Lemma register_entries o k s : i_entries (register_peer_key o k s).1 = i_entries s.
Proof. unfold register_peer_key. case_match; [by case_decide|done]. Qed.

Lemma entries_invite_accept g now c r p a :
  i_entries (g_store (handle_invite_accept g now c r p a)) = i_entries (g_store g).
Proof.
  unfold handle_invite_accept. case_decide; [done|]. case_match; [done|].
  pose proof (register_entries (c_peer_id a) (c_pubkey a) (g_store g)) as E.
  destruct (register_peer_key _ _ _) as [s [u|e]]; simpl in *; [|done].
  case_match; [|done].
  match goal with |- context [add_drive_internal ?g1 ?t ?x ?y ?d] =>
    change (i_entries (g_store (add_drive_internal g1 t x y d)) = i_entries (g_store g)) end.
  by rewrite store_add_drive.
Qed.

Lemma store_token_gate g now p h : g_store (token_gate g now p h).1 = g_store g.
Proof.
  unfold token_gate. destruct (g_token g); [|done]. destruct (h_token h); [|done].
  case_decide; [done|]. unfold record_auth_failure.
  destruct (AUTH_BAN_AFTER <=? _)%N; simpl; [|done]. by destruct (drive_name_by_peer _ _).
Qed.

Lemma entries_key_gate g now p h : i_entries (g_store (key_gate g now p h).1) = i_entries (g_store g).
Proof.
  unfold key_gate. destruct (hex_decode _) as [kb|]; [|done]. case_decide; [|done].
  set (name := drive_name_by_peer g p). case_match; [done|].
  match goal with |- context [register_peer_key p kb (g_store ?g')] =>
    pose proof (register_entries p kb (g_store g')) as E;
    assert (E2 : g_store g' = g_store g)
      by (destruct name; [unfold set_status, send_event; simpl; apply store_on_drive|done]);
    destruct (register_peer_key p kb (g_store g')) as [s [u|e]] end; simpl in *; congruence.
Qed.

(** Serving a request answers that peer at most once, and only with what it
    may read. *)
Lemma serve_request_spec S g now c r p m :
  serve_request g now c r p m = g \/
  exists g1 resp, calm S g g1 /\ serve_request g now c r p m = send_response g1 p resp /\
    allowed (g_store g) p resp.
Proof.
  destruct m; simpl; auto; right.
  - unfold serve_hello. case_decide; [by exists g; eexists|]. case_match; [by exists g; eexists|].
    set (g1 := match h_accept h with Some _ => _ | None => _ end).
    assert (C1 : calm S g g1) by (subst g1; destruct (h_accept h); auto with calm; reflexivity).
    assert (E1 : i_entries (g_store g1) = i_entries (g_store g)).
    { subst g1. destruct (h_accept h); [apply entries_invite_accept|done]. }
    pose proof (calm_token_gate S g1 now p h) as C2. pose proof (store_token_gate g1 now p h) as E2.
    destruct (token_gate g1 now p h) as [g2 [e|]]; simpl in *; [exists g2; eexists; split; [by etrans|done]|].
    pose proof (calm_key_gate S g2 now p h) as C3. pose proof (entries_key_gate g2 now p h) as E3.
    destruct (key_gate g2 now p h) as [g3 [e|]]; simpl in *; exists g3; eexists;
      (split; [by do 2 (etrans; [eassumption|])|]); (split; [done|]); [done|].
    eapply allowed_entries; [|apply hello_ack_allowed]. congruence.
  - unfold serve_catch_up. destruct (may_peer_read _ _ _) eqn:Hr.
    + unfold catch_up. unfold may_peer_read in Hr.
      destruct (i_entries (g_store g) !! cu_doc_id c0) as [e|] eqn:He; [|done].
      exists g. eexists. split; [done|]. split; [done|]. right. simpl. split.
      { unfold may_peer_read. by rewrite He. }
      exists e. split; [done|]. split; [done|]. intros x Hx%elem_of_take.
      destruct Hx as (i & Hx & _). apply list_elem_of_lookup_2, list_elem_of_filter in Hx. by destruct Hx.
    + eexists _, _. split; [|split; [done|by left]]. by apply calm_same.
  - unfold serve_summary. eexists _, _. split; [|split; [done|]].
    + case_match; [apply calm_on_drive|done].
    + simpl. intros x Hx. apply summary_for_allowed.
      destruct (drive_name_by_peer g p); [|done]. by rewrite store_on_drive in Hx.
  - by exists g; eexists.
  - by exists g; eexists.
Qed.
End Gossip.

(** ** A turn of the main loop *)

Section Run.
Context `{Platform, Net} (show_hash : Hash32 -> string).
Implicit Types (g : SyncEngine) (s : Inner).

Lemma calm_swarm_event S g now c r ev :
  (forall p id m, ev = SyncResponse p id m -> S -> response_fresh g m) ->
  (forall p m, ev <> SyncRequest p m) -> calm S g (on_swarm_event show_hash g now c r ev).
Proof.
  intros Hf Hn. destruct ev; simpl; auto with calm; try (solve_calm; fail).
  - etrans; [apply calm_event|]. case_match; [apply calm_open_handshake|done].
  - apply calm_apply_remote.
  - by destruct (Hn peer request).
  - apply calm_response. by eapply Hf.
Qed.

Lemma publish_fold l g :
  window_inv g -> let g' := foldl publish_action g l in
  window_inv g' /\ g_store g' = g_store g /\
  exists new, g_out g' = g_out g ++ new /\
    Forall (fun o => exists m, o = OPublish m /\ gossipable (g_store g) (a_doc_id (am_action m))) new.
Proof.
  revert g. induction l as [|a l IH]; intros g Hw; simpl.
  { split; [done|]. split; [done|]. exists []. by rewrite app_nil_r. }
  destruct (publish_action_spec g a Hw) as (W & Hs & new & Ho & Hnew).
  destruct (IH _ W) as (W' & Hs' & new' & Ho' & Hnew'). split; [done|].
  split; [congruence|]. exists (new ++ new'). rewrite Ho', Ho, app_assoc. split; [done|].
  rewrite Hs in Hnew'. apply Forall_app. split; [|done].
  destruct Hnew as [[-> _]|(-> & _ & Hg)]; [done|]. constructor; [by eexists|done].
Qed.

(** The tick publishes what is queued and is calm after that. *)
Lemma tick_calm S g now t :
  calm S (foldl publish_action (set_store g (drain_outbound (g_store g)).1) (i_outbound (g_store g)))
    (tick g now t).
Proof.
  unfold tick. change (drain_outbound (g_store g)) with
    ((drain_outbound (g_store g)).1, i_outbound (g_store g)).
  cbv beta iota zeta. set (g1 := foldl publish_action _ _).
  set (g2 := if _ && _ then _ else _). assert (C2 : calm S g1 g2) by (subst g2; solve_calm).
  etrans; [exact C2|].
  match goal with |- calm _ _ (foldl _ ?g3 _) => transitivity g3 end;
    apply calm_foldl; intros g' [n rt].
  - unfold tick_catch. etrans; [|apply calm_send_gaps]. apply calm_on_drive.
  - unfold tick_summary. cbn [fst snd].
    match goal with |- context [(send_request g' ?p ?m).1] =>
      etrans; [apply (calm_request S g' p m)|]; generalize (send_request g' p m).1 as g4 end.
    intros g4. solve_calm.
Qed.

Lemma calm_window_inv S g g' : calm S g g' -> window_inv g -> window_inv g'.
Proof. intros [_ [E1 E2] _ _] [Hn Hs Hl]. by split; rewrite ?E1, ?E2. Qed.

(** What a turn may send, given the documents at its start. *)
Definition lawful s (i : Input) (o : Output) : Prop :=
  match o with
  | OResponse p m => allowed s p m /\ exists req, i = ISwarm (SyncRequest p req)
  | OPublish m => gossipable s (a_doc_id (am_action m))
  | _ => True
  end.

Lemma quiet_lawful s i o : quiet o -> lawful s i o.
Proof. by destruct o. Qed.

Lemma calm_lawful S s i g g' :
  calm S g g' -> exists new, g_out g' = g_out g ++ new /\ Forall (lawful s i) new.
Proof.
  intros [(new & E & Hq) _ _ _]. exists new. split; [done|].
  eapply Forall_impl; [exact Hq|]. intros o. apply quiet_lawful.
Qed.

Lemma run_step_lawful g now c r i :
  window_inv g -> let g' := run_step show_hash g now c r i in
  window_inv g' /\
  exists new, g_out g' = g_out g ++ new /\ Forall (lawful (g_store g) i) new.
Proof.
  intros Hw. cbn zeta. unfold run_step. destruct (g_running g).
  2: { split; [done|]. exists []. by rewrite app_nil_r. }
  assert (Hcalm : forall g', calm False g g' -> window_inv g' /\
    exists new, g_out g' = g_out g ++ new /\ Forall (lawful (g_store g) i) new).
  { intros g' Hc. split; [by eapply calm_window_inv|by eapply calm_lawful]. }
  destruct i as [t|cmd|ev|a|].
  - set (g0 := set_store g (drain_outbound (g_store g)).1).
    destruct (publish_fold (i_outbound (g_store g)) g0) as (W & Hs & new & Ho & Hp); [by destruct Hw|].
    pose proof (tick_calm False g now t) as Hc. split; [by eapply calm_window_inv|].
    destruct (calm_lawful _ (g_store g) (ITick t) _ _ Hc) as (new' & E & Hl).
    exists (new ++ new'). split; [change (set_store g _) with g0 in E; by rewrite E, Ho, app_assoc|].
    apply Forall_app. split; [|done].
    eapply Forall_impl; [exact Hp|]. by intros o (m & -> & Hg).
  - apply Hcalm, calm_cmd.
  - assert (Hev : (exists p m, ev = SyncRequest p m) \/ forall p m, ev <> SyncRequest p m)
      by (destruct ev; eauto; by right).
    destruct Hev as [(p & m & ->)|Hn].
    + simpl. destruct (serve_request_spec False g now c r p m) as [->|(g1 & resp & Hc & -> & Ha)].
      { split; [done|]. exists []. by rewrite app_nil_r. }
      split; [destruct (calm_window_inv _ _ _ Hc Hw); by split|].
      destruct (calm_lawful _ (g_store g) (ISwarm (SyncRequest p m)) _ _ Hc) as (new & E & Hl).
      exists (new ++ [OResponse p resp]). split; [simpl; by rewrite E, app_assoc|].
      apply Forall_app. split; [done|]. constructor; [|done]. split; [done|by eexists].
    + by apply Hcalm, calm_swarm_event.
  - destruct (publish_action_spec g a Hw) as (W & _ & new & Ho & Hnew). split; [done|].
    exists new. split; [done|]. destruct Hnew as [[-> _]|(-> & _ & Hg)]; [done|]. by constructor.
  - apply Hcalm. solve_calm.
Qed.
End Run.
