(* ===== verification/Sync.v ===== *)
(** The theorems on the sync engine: disclosure, gossip, the handshake, models
    fetched from peers, and the store under a running engine. *)

From stdpp Require Import base list gmap strings numbers pretty relations.
From Stdlib Require Import Strings.Byte Strings.Ascii.
From S2P Require Import Prelude Json Doc Sample Action Model Builtins Entry Redeliver Store.
From S2P Require Import StoreInv StoreProps Text Invite Blob Codec Engine EngineProps.

(** ** The running engine *)

Section Running.
Context `{Platform, Net} (show_hash : Hash32 -> string).
Implicit Types (g : SyncEngine) (s : Inner).

(** No peer answers with a definition for a name and version already loaded. *)
Definition input_fresh g (i : Input) : Prop :=
  match i with ISwarm (SyncResponse _ _ m) => response_fresh g m | _ => True end.

(** The states of a running engine: it starts on a reachable store, takes turns
    of its loop in any order, and between two turns the daemon may use the
    store it shares. *)
Inductive running : SyncEngine -> Prop :=
  | running_start s peer name listen ws ext blobs dht token banned :
      reachable s ->
      running (run_start (engine_new s peer name listen ws ext blobs dht token banned))
  | running_turn g now c r i :
      running g -> input_fresh g i -> running (run_step show_hash g now c r i)
  | running_store g s : running g -> step (g_store g) s -> running (set_store g s).

Lemma start_calm g : calm True g (run_start g).
Proof.
  unfold run_start. cbv zeta.
  match goal with |- calm _ _ (set_store ?g1 _) => assert (C : calm True g g1) by solve_calm end.
  etrans; [exact C|]. apply calm_set_store. intros _. apply rtc_once. constructor.
Qed.

Lemma run_step_store g now c r i :
  window_inv g -> input_fresh g i ->
  rtc step (g_store g) (g_store (run_step show_hash g now c r i)).
Proof.
  intros Hw Hf. unfold run_step. destruct (g_running g); [|done].
  destruct i as [t|cmd|ev|a|].
  - etrans; [apply rtc_once, step_drain|].
    destruct (publish_fold (i_outbound (g_store g)) (set_store g (drain_outbound (g_store g)).1))
      as (_ & Hs & _); [by destruct Hw|].
    pose proof (calm_store _ _ _ (tick_calm True g now t) I) as Hc. by rewrite Hs in Hc.
  - exact (calm_store _ _ _ (calm_cmd True g now c r cmd) I).
  - assert (Hev : (exists p m, ev = SyncRequest p m) \/ forall p m, ev <> SyncRequest p m)
      by (destruct ev; eauto; by right).
    destruct Hev as [(p & m & ->)|Hn].
    + simpl. destruct (serve_request_spec True g now c r p m) as [->|(g1 & resp & Hc & -> & _)]; [done|].
      exact (calm_store _ _ _ Hc I).
    + eapply (calm_store True); [|done]. apply calm_swarm_event; [|done]. by intros p id m ->.
  - by destruct (publish_action_spec g a Hw) as (_ & -> & _).
  - done.
Qed.

Lemma running_inv g : running g -> reachable (g_store g) /\ window_inv g.
Proof.
  assert (Hrtc : forall s s', rtc step s s' -> reachable s -> reachable s').
  { induction 1; [done|]. intros. apply IHrtc. by eapply reach_step. }
  induction 1 as [s ? ? ? ? ? ? ? ? ? Hs|g now c r i _ [Hs Hw] Hf|g s _ [Hs Hw] Hst].
  - pose proof (start_calm (engine_new s peer name listen ws ext blobs dht token banned)) as Hc.
    split; [by eapply Hrtc; [apply (calm_store _ _ _ Hc I)|]|].
    eapply calm_window_inv; [exact Hc|]. split; simpl; [constructor|done|lia].
  - split; [eapply Hrtc; [by apply run_step_store|done]|by apply run_step_lawful].
  - split; [by eapply reach_step|by destruct Hw].
Qed.

(** C11. A running engine drives the store through the store's own operations
    only: whatever arrives from the network, in whatever order, interleaved with
    the daemon's own use of the store, the store stays a reachable one (so every
    document is the canonical fold of its log), provided no peer is allowed to
    replace a loaded model; and each turn is a sequence of store steps. *)
Theorem engine_drives_store g :
  running g ->
  reachable (g_store g) /\ store_inv (g_store g) /\
  forall now c r i, input_fresh g i ->
    rtc step (g_store g) (g_store (run_step show_hash g now c r i)).
Proof.
  intros [Hs Hw]%running_inv. split; [done|]. split; [by apply reachable_inv|].
  intros. by apply run_step_store.
Qed.


(** An action is gossiped at most once while the window of the last 8192
    remembers it: a running engine publishes an action exactly when its space
    allows gossip and its hash is not in the window, the window then holds it,
    never exceeds its bound, and the set and the queue agree. *)
Theorem gossip_exact g a :
  running g ->
  let g' := publish_action g a in
  let msg := OPublish {| am_action := a; am_name := Some (g_pub_name g) |} in
  (gossipable (g_store g) (a_doc_id a) /\ hash a ∉ g_published g -> g_out g' = g_out g ++ [msg]) /\
  (~ (gossipable (g_store g) (a_doc_id a) /\ hash a ∉ g_published g) -> g_out g' = g_out g) /\
  (gossipable (g_store g) (a_doc_id a) -> hash a ∈ g_published g') /\
  NoDup (g_published_order g') /\ length (g_published_order g') <= PUBLISHED_CAP /\
  g_published g' = list_to_set (g_published_order g').
Proof.
  intros [_ Hw]%running_inv. cbn zeta.
  destruct (publish_action_spec g a Hw) as ([W1 W2 W3] & _ & new & Ho & Hnew).
  split; [|split; [|split; [|done]]].
  - intros [Hg Hh]. rewrite Ho. destruct Hnew as [[_ [?|?]]|[-> _]]; done.
  - intros Hn. rewrite Ho. destruct Hnew as [[-> _]|(_ & Hh & Hg)]; [by rewrite app_nil_r|].
    by destruct Hn.
  - intros Hg. destruct (publish_now_spec g a Hw) as (_ & Hin & _).
    unfold publish_action. destruct Hg as [->| ->]; done.
Qed.
End Running.

(** ** The handshake *)

Section Handshake.
Context `{Platform, Net}.
Implicit Types (g : SyncEngine) (s : Inner).

Lemma register_ok_known o k s s' : register_peer_key o k s = (s', Ok tt) -> i_known_keys s' !! o = Some k.
Proof.
  unfold register_peer_key. destruct (i_known_keys s !! o) as [k'|] eqn:E.
  - case_decide; [|done]. intros [= <-]. by subst.
  - intros [= <-]. simpl. by rewrite lookup_insert_eq.
Qed.

Lemma banned_add_drive g now c r d : g_banned (add_drive_internal g now c r d) = g_banned g.
Proof.
  unfold add_drive_internal, open_handshake, on_drive, set_status, send_event, send_request.
  repeat (case_match; simpl); done.
Qed.

Lemma token_gate_pass g now p h g' :
  token_gate g now p h = (g', None) ->
  g' = g /\ forall need, g_token g = Some need -> h_token h = Some need.
Proof.
  unfold token_gate. destruct (g_token g) as [need|]; [|intros [= <-]; by split].
  destruct (h_token h) as [got|]; [|done]. case_decide as E; [intros [= <-]|].
  - subst got. split; [done|]. by intros n [= ->].
  - by destruct (record_auth_failure g now p).
Qed.

Lemma key_gate_pass g now p h g' kb :
  key_gate g now p h = (g', None) -> hex_decode (h_pubkey h) = Ok kb -> length kb = 32 ->
  i_known_keys (g_store g') !! p = Some kb /\ p ∈ g_guests g'.
Proof.
  unfold key_gate. intros Hk Hd Hl. rewrite Hd, decide_True in Hk by done.
  set (name := drive_name_by_peer g p) in *.
  destruct (match name ≫= _ with Some _ => _ | None => _ end); [done|].
  match type of Hk with context [register_peer_key p kb (g_store ?g1)] =>
    destruct (register_peer_key p kb (g_store g1)) as [s [[]|e]] eqn:E end; [|done].
  injection Hk as <-. simpl. split; [by eapply register_ok_known|set_solver].
Qed.

(** C20. The handshake gates: a hello is answered exactly once, with an
    acknowledgement or a refusal.  An acknowledgement means the peer was not
    banned, speaks this protocol version and presented the shared token if one
    is configured, and that the key it presented, if well formed, is the one
    pinned for it; a banned peer is refused with nothing else changed. *)
Theorem hello_gates g now c r p h :
  let g' := serve_request g now c r p (MHello h) in
  (exists new m, g_out g' = g_out g ++ new ++ [OResponse p m] /\ Forall quiet new /\
     ((exists ack, m = MHelloAck ack) \/ exists e, m = MHelloErr e)) /\
  (forall ack, last (g_out g') = Some (OResponse p (MHelloAck ack)) ->
     p ∉ g_banned g /\ h_version h = PROTOCOL_VERSION /\
     (forall need, g_token g = Some need -> h_token h = Some need) /\
     (forall kb, hex_decode (h_pubkey h) = Ok kb -> length kb = 32 ->
        i_known_keys (g_store g') !! p = Some kb)) /\
  (p ∈ g_banned g -> g' = send_response g p (MHelloErr Banned)).
Proof.
  cbn zeta. simpl. unfold serve_hello.
  assert (R : forall g1 e, calm False g g1 ->
    exists new m, g_out (send_response g1 p (MHelloErr e)) = g_out g ++ new ++ [OResponse p m] /\
      Forall quiet new /\ ((exists ack, m = MHelloAck ack) \/ exists e, m = MHelloErr e)).
  { intros g1 e [(new & E & Hq) _ _ _]. exists new, (MHelloErr e). simpl.
    rewrite E, app_assoc. eauto. }
  assert (L : forall g1 e ack, last (g_out (send_response g1 p (MHelloErr e)))
    <> Some (OResponse p (MHelloAck ack))) by (intros; simpl; by rewrite last_snoc).
  case_decide as Hb; [split; [by apply R|split; [by intros ack ?%L|done]]|].
  destruct (N.eqb_spec (h_version h) PROTOCOL_VERSION) as [Hv|]; simpl;
    [|split; [by apply R|split; [by intros ack ?%L|done]]].
  set (g1 := match h_accept h with Some _ => _ | None => _ end).
  assert (C1 : calm False g g1) by (subst g1; destruct (h_accept h); auto with calm; reflexivity).
  assert (T1 : g_token g1 = g_token g) by (by destruct C1 as [_ _ _ [? _]]).
  pose proof (calm_token_gate False g1 now p h) as C2. destruct (token_gate g1 now p h) as [g2 [e|]] eqn:Ht.
  { simpl in C2. split; [apply R; by etrans|split; [by intros ack ?%L|done]]. }
  apply token_gate_pass in Ht as [-> Ht]. rewrite T1 in Ht.
  pose proof (calm_key_gate False g1 now p h) as C3. destruct (key_gate g1 now p h) as [g3 [e|]] eqn:Hk.
  { simpl in C3. split; [apply R; by etrans|split; [by intros ack ?%L|done]]. }
  assert (C : calm False g g3) by (by etrans). split; [|split; [|done]].
  - destruct C as [(new & E & Hq) _ _ _]. exists new. eexists. simpl. rewrite E, app_assoc. eauto.
  - intros ack _. split_and!; [done..|]. intros kb Hd Hl. by destruct (key_gate_pass _ _ _ _ _ _ Hk Hd Hl).
Qed.

(** ** Repeated wrong tokens *)

(** A failure that does not reach the limit is noted with its count and time. *)
Lemma record_noted g now p c t :
  default (0%N, now) (g_auth_failures g !! p) = (c, t) ->
  let n := ((if (AUTH_BAN_WINDOW <? now - t) then 0 else c) + 1)%N in
  (n < AUTH_BAN_AFTER)%N ->
  record_auth_failure g now p = (set_auth_failures g (<[p := (n, now)]> (g_auth_failures g)), false).
Proof.
  intros E n Hn. unfold record_auth_failure. rewrite E. cbn [fst snd]. fold n.
  by rewrite (proj2 (N.leb_gt _ _) Hn).
Qed.

(** The third one in the window bans. *)
Lemma record_third g now p t :
  g_auth_failures g !! p = Some (2%N, t) -> (now - t <= AUTH_BAN_WINDOW)%N ->
  (record_auth_failure g now p).2 = true /\ p ∈ g_banned (record_auth_failure g now p).1.
Proof.
  intros E Ht. unfold record_auth_failure. rewrite E. cbn [default fst snd]. unfold id. cbn [fst snd].
  rewrite (proj2 (N.ltb_ge _ _) Ht). change (AUTH_BAN_AFTER <=? 2 + 1)%N with true. cbv iota zeta.
  split; [done|]. cbn [fst]. unfold send_event, set_status. case_match; simpl; set_solver.
Qed.

(** A hello of the right version with a token and no join-proof. *)
Definition attempt (h : Hello) : Prop := h_version h = PROTOCOL_VERSION /\ h_accept h = None.

Lemma wrong_token_hello g now c r p h need got :
  attempt h -> g_token g = Some need -> h_token h = Some got -> got <> need -> p ∉ g_banned g ->
  serve_request g now c r p (MHello h) =
  let '(g1, ban) := record_auth_failure g now p in
  send_response g1 p (MHelloErr (if ban then Banned else BadToken)).
Proof.
  intros [Hv Ha] Hn Hg Hne Hb. simpl. unfold serve_hello. rewrite decide_False, Hv, Ha by done.
  simpl. unfold token_gate. rewrite Hn, Hg, decide_False by done.
  by destruct (record_auth_failure g now p).
Qed.

(** Three wrong tokens and out: when a peer not tracked so far presents a
    wrong token three times, each within ten minutes of the one before, the
    first two are refused as bad tokens, the third bans it, and from then on
    every hello of it, whatever it carries, is refused without effect; after a
    pause longer than the window the third is the first again. *)
Theorem three_strikes g p c r need h1 h2 h3 t1 t2 t3 :
  g_token g = Some need -> p ∉ g_banned g -> g_auth_failures g !! p = None ->
  Forall (fun h => attempt h /\ exists got, h_token h = Some got /\ got <> need) [h1; h2; h3] ->
  (t2 - t1 <= AUTH_BAN_WINDOW)%N ->
  let g1 := serve_request g t1 c r p (MHello h1) in
  let g2 := serve_request g1 t2 c r p (MHello h2) in
  let g3 := serve_request g2 t3 c r p (MHello h3) in
  last (g_out g1) = Some (OResponse p (MHelloErr BadToken)) /\
  last (g_out g2) = Some (OResponse p (MHelloErr BadToken)) /\
  ((t3 - t2 <= AUTH_BAN_WINDOW)%N ->
     last (g_out g3) = Some (OResponse p (MHelloErr Banned)) /\
     forall h t c r, serve_request g3 t c r p (MHello h) = send_response g3 p (MHelloErr Banned)) /\
  ((AUTH_BAN_WINDOW < t3 - t2)%N ->
     last (g_out g3) = Some (OResponse p (MHelloErr BadToken)) /\ p ∉ g_banned g3).
Proof.
  intros Hn Hb Hf Hh Ht2. cbn zeta.
  apply Forall_cons_1 in Hh as [(A1 & got1 & G1 & N1) Hh].
  apply Forall_cons_1 in Hh as [(A2 & got2 & G2 & N2) Hh].
  apply Forall_cons_1 in Hh as [(A3 & got3 & G3 & N3) _].
  rewrite (wrong_token_hello g t1 c r p h1 need got1) by done.
  rewrite (record_noted g t1 p 0 t1) by (by rewrite ?Hf, ?N.sub_diag). rewrite N.sub_diag.
  set (g1 := send_response _ _ _).
  assert (E1 : g_auth_failures g1 !! p = Some (1%N, t1)) by (simpl; by rewrite lookup_insert_eq).
  rewrite (wrong_token_hello g1 t2 c r p h2 need got2) by done.
  rewrite (record_noted g1 t2 p 1 t1) by (rewrite ?E1, ?(proj2 (N.ltb_ge _ _) Ht2); done).
  rewrite (proj2 (N.ltb_ge _ _) Ht2). set (g2 := send_response _ _ _).
  assert (E2 : g_auth_failures g2 !! p = Some (2%N, t2)) by (simpl; by rewrite lookup_insert_eq).
  rewrite (wrong_token_hello g2 t3 c r p h3 need got3) by done.
  split; [simpl; by rewrite last_snoc|]. split; [simpl; by rewrite last_snoc|]. split; intros Ht3.
  - destruct (record_third g2 t3 p t2 E2 Ht3) as [Hban Hin].
    destruct (record_auth_failure g2 t3 p) as [g3 ban]. simpl in Hban, Hin. subst ban.
    split; [simpl; by rewrite last_snoc|]. intros h t c' r'. simpl. unfold serve_hello.
    by rewrite decide_True.
  - rewrite (record_noted g2 t3 p 2 t2) by (rewrite ?E2, ?(proj2 (N.ltb_lt _ _) Ht3); done).
    split; [simpl; by rewrite last_snoc|exact Hb].
Qed.
End Handshake.

(** ** Models from the mesh *)

Section Models.
Context `{Platform, Net} (show_hash : Hash32 -> string).
Implicit Types (g : SyncEngine) (s : Inner).

(** The store's part of applying a remote action: nothing without its model. *)
Definition try_apply s (a : Action) : Inner :=
  if model_available s (a_model a) then (apply_action a s).1 else s.

Lemma store_request_model g p r : g_store (request_model g p r) = g_store g.
Proof. unfold request_model. by case_decide. Qed.
Lemma store_note_pending g a : g_store (note_pending g a) = g_store g.
Proof. unfold note_pending. by case_match. Qed.

Lemma store_apply_remote g p a : g_store (engine_apply_remote g p a).1 = try_apply (g_store g) a.
Proof.
  unfold engine_apply_remote, try_apply. destruct (model_available _ _).
  - change (apply_remote_action a (g_store g)) with (apply_action a (g_store g)).
    destruct (apply_action a (g_store g)) as [s [r|e]]; simpl; [|done]. by destruct (applied r).
  - simpl. rewrite store_note_pending. destruct p; [apply store_request_model|done].
Qed.

Lemma store_apply_all g p l : g_store (apply_all g p l).1 = foldl try_apply (g_store g) l.
Proof.
  unfold apply_all. generalize 0 as n. revert g. induction l as [|a l IH]; intros g n; [done|].
  simpl. pose proof (store_apply_remote g (Some p) a) as E.
  destruct (engine_apply_remote g (Some p) a) as [g' ok]. simpl in E. by rewrite IH, E.
Qed.

Lemma models_apply a s : i_models (apply_action a s).1 = i_models s.
Proof.
  rewrite apply_action_eq. destruct (admission s a) as [m|]; [|done]. cbn zeta.
  destruct (check_precondition m _ a); [|done]. destruct (settled_entry s m a) as [e'|]; [|done].
  cbn [fst].
  destruct (after_apply_frame (put_entry s (a_doc_id a) e') a
    (apply_ops_to_entry (entry_at s (a_doc_id a)) m a).2.1
    (apply_ops_to_entry (entry_at s (a_doc_id a)) m a).2.2) as (_ & _ & (Hm & _) & _).
  exact Hm.
Qed.

Lemma models_try_apply s a : i_models (try_apply s a) = i_models s.
Proof. unfold try_apply. case_match; [apply models_apply|done]. Qed.
Lemma models_try_all l s : i_models (foldl try_apply s l) = i_models s.
Proof. revert s. induction l as [|a l IH]; intros s; simpl; [done|]. by rewrite IH, models_try_apply. Qed.

Lemma available_models s s' r : i_models s' = i_models s -> model_available s' r = model_available s r.
Proof. intros E. unfold model_available. by rewrite E. Qed.

Lemma pending_apply_remote g p a x :
  x ∈ g_pending (engine_apply_remote g p a).1 ->
  x ∈ g_pending g \/ x = (a_model a, a) /\ model_available (g_store g) (a_model a) = false.
Proof.
  unfold engine_apply_remote. destruct (model_available _ _) eqn:E.
  - destruct (apply_remote_action a (g_store g)) as [s [r|e]]; simpl; [|by left].
    destruct (applied r); by left.
  - simpl. unfold note_pending. set (g1 := match p with Some _ => _ | None => _ end).
    assert (Hp : g_pending g1 = g_pending g).
    { subst g1. destruct p; [|done]. unfold request_model. by case_decide. }
    rewrite Hp. case_match; [rewrite Hp; by left|]. simpl. rewrite elem_of_app, list_elem_of_singleton.
    naive_solver.
Qed.

Lemma pending_apply_all g p l x :
  x ∈ g_pending (apply_all g p l).1 ->
  x ∈ g_pending g \/
  x.2 ∈ l /\ x.1 = a_model x.2 /\ model_available (g_store g) (a_model x.2) = false.
Proof.
  unfold apply_all. generalize 0 as n. revert g. induction l as [|a l IH]; intros g n; [by left|].
  simpl. pose proof (store_apply_remote g (Some p) a) as Hs.
  pose proof (pending_apply_remote g (Some p) a x) as Hp.
  destruct (engine_apply_remote g (Some p) a) as [g' ok]. simpl in Hs, Hp. intros Hx.
  apply IH in Hx as [Hx|(Hin & Hm & Ha)].
  - destruct (Hp Hx) as [?|[-> Ha]]; [by left|right]. split; [by left|done].
  - right. split; [by right|]. split; [done|].
    by rewrite Hs, (available_models _ _ _ (models_try_apply (g_store g) a)) in Ha.
Qed.

(** A definition fetched from a peer: one that does not carry the name and
    version of the reference, or whose content does not hash to the pinned hash,
    changes neither the models nor the waiting actions.  One that is accepted is
    loaded under that name and version, a pinned reference then resolves to
    exactly that definition, every action that waited for it is handed to the
    store in order of arrival, and what still waits either waited for another
    model or names a hash the new definition does not have. *)
Theorem model_fetch g now p n id r def :
  drive_name_by_peer g p = Some n ->
  let g' := on_response show_hash g now p id (MModelDef r def) in
  (def ≫= accept_model_def r = None ->
     g_store g' = g_store g /\ g_pending g' = g_pending g) /\
  (forall d want, def = Some d -> mr_hash r = Some want -> model_def_hash d <> want ->
     g_store g' = g_store g) /\
  (forall d l, def = Some d -> accept_model_def r d = Some l ->
     i_models (g_store g') = <[(mr_name r, mr_version r) := ML1 l]> (i_models (g_store g)) /\
     l1_def l = d /\
     (mr_hash r <> None -> model_definition (g_store g') r = Some d) /\
     g_store g' = foldl try_apply (add_model (g_store g) (ML1 l))
       (snd <$> filter (fun x => pending_for r x = true) (g_pending g)) /\
     forall x, x ∈ g_pending g' ->
       x ∈ g_pending g /\ pending_for r x = false \/
       x.2 ∈ (snd <$> g_pending g) /\ model_available (g_store g') (a_model x.2) = false).
Proof.
  intros Hn. cbn zeta. unfold on_response. rewrite Hn. simpl.
  set (g0 := on_drive g n _).
  assert (S0 : g_store g0 = g_store g) by apply store_on_drive.
  assert (P0 : g_pending g0 = g_pending g) by (subst g0; unfold on_drive; by case_match).
  assert (F : def ≫= accept_model_def r = None -> on_model_def g0 p r def = g0).
  { intros E. unfold on_model_def. by rewrite E. }
  split; [|split].
  - intros E. by rewrite (F E).
  - intros d want -> Hh Hne. rewrite F; [done|]. simpl.
    destruct (accept_model_def r d) as [l|] eqn:E; [|done].
    apply accept_model_def_ref in E as (_ & _ & _ & Hw). by destruct Hne; apply Hw.
  - intros d l -> Hl. unfold on_model_def. simpl. rewrite Hl.
    pose proof (accept_model_def_ref _ _ _ Hl) as (Hd & Hna & Hv & Hh).
    rewrite S0, P0. set (g1 := set_pending _ _). set (acts := snd <$> _).
    assert (S1 : g_store g1 = add_model (g_store g) (ML1 l)) by done.
    assert (M1 : i_models (g_store g1) = <[(mr_name r, mr_version r) := ML1 l]> (i_models (g_store g))).
    { rewrite S1. unfold add_model, reg_insert. simpl. change (ref_ (ML1 l)) with (l1_ref l).
      by rewrite Hna, Hv. }
    rewrite store_apply_all, models_try_all. split; [exact M1|]. split; [by eapply from_def_def|].
    split; [|split; [by rewrite S1|]].
    + intros Hp. unfold model_definition, reg_definition, reg_find. rewrite models_try_all, M1.
      rewrite lookup_insert_eq. simpl. change (ref_ (ML1 l)) with (l1_ref l).
      destruct (mr_hash r) as [want|] eqn:Er; [|done].
      rewrite decide_True; [simpl; f_equal; by eapply from_def_def|].
      pose proof (from_def_def _ _ Hd) as E. pose proof Hd as Hd'. rewrite <- E in Hd'.
      rewrite (from_def_hash _ Hd'), E. f_equal. by apply Hh.
    + intros x Hx. apply pending_apply_all in Hx as [Hx|(Hin & _ & Ha)].
      * left. simpl in Hx. apply list_elem_of_filter in Hx as [? ?]. done.
      * right. split; [|by rewrite (available_models (g_store g1) _ _ (models_try_all acts _))].
        subst acts. apply list_elem_of_fmap in Hin as (y & E & Hy).
        apply list_elem_of_filter in Hy as [_ Hy]. rewrite E. by apply list_elem_of_fmap_2.
Qed.
End Models.

(** ** Waiting for a model *)

Section Waiting.
Context `{Platform, Net} (show_hash : Hash32 -> string).
Implicit Types (g : SyncEngine) (s : Inner).

Lemma note_pending_spec g a :
  let g' := note_pending g a in
  (exists x, x ∈ g_pending g' /\ hash x.2 = hash a) /\
  (forall x, x ∈ g_pending g -> x ∈ g_pending g') /\
  (NoDup ((fun x => hash x.2) <$> g_pending g) -> NoDup ((fun x => hash x.2) <$> g_pending g')).
Proof.
  cbn zeta. unfold note_pending. destruct (existsb _ _) eqn:E.
  - apply existsb_exists in E as (x & Hx & Hh). apply bool_decide_eq_true in Hh.
    apply list_elem_of_In in Hx. split; [by exists x|done].
  - simpl. split; [exists (a_model a, a); split; [apply elem_of_app; right; by left|done]|].
    split; [intros x Hx; apply elem_of_app; by left|]. intros Hn. rewrite fmap_app.
    apply NoDup_app. split; [done|]. split; [|apply NoDup_singleton].
    intros h Hin Hs. apply list_elem_of_singleton in Hs. subst h.
    apply list_elem_of_fmap in Hin as (x & Ex & Hx). 
    assert (Hc : existsb (fun p => bool_decide (hash p.2 = hash a)) (g_pending g) = true); [|congruence].
    apply existsb_exists. exists x. split; [by apply list_elem_of_In|]. by apply bool_decide_eq_true.
Qed.

(** A missing model is a request, not a rejection: an action under a model
    that is not loaded leaves the store alone and is held, once, with everything
    held before; the definition is asked of the sender if it was not asked for
    already. *)
Theorem missing_model_held g p a :
  model_available (g_store g) (a_model a) = false ->
  let key := (mr_name (a_model a), mr_version (a_model a)) in
  let g' := (engine_apply_remote g (Some p) a).1 in
  g_store g' = g_store g /\
  (exists x, x ∈ g_pending g' /\ hash x.2 = hash a) /\
  (forall x, x ∈ g_pending g -> x ∈ g_pending g') /\
  (NoDup ((fun x => hash x.2) <$> g_pending g) -> NoDup ((fun x => hash x.2) <$> g_pending g')) /\
  key ∈ g_requested g' /\
  g_out g' = g_out g ++
    (if decide (key ∈ g_requested g) then []
     else [ORequest p (g_next_req g) (MModelRequest (a_model a))]).
Proof.
  intros Ha. cbn zeta. unfold engine_apply_remote. rewrite Ha. cbn [fst].
  set (g1 := request_model g p (a_model a)).
  assert (P1 : g_pending g1 = g_pending g) by (subst g1; unfold request_model; by case_decide).
  destruct (note_pending_spec g1 a) as (Hx & Hk & Hn). rewrite P1 in Hk, Hn.
  assert (E : g_requested (note_pending g1 a) = g_requested g1 /\
    g_out (note_pending g1 a) = g_out g1 /\ g_store (note_pending g1 a) = g_store g1)
    by (unfold note_pending; by case_match).
  destruct E as (-> & -> & ->). split; [apply store_request_model|]. split; [done|]. split; [done|].
  split; [done|]. subst g1. unfold request_model. case_decide; [by rewrite app_nil_r|].
  simpl. split; [set_solver|done].
Qed.

(** A peer that answers without a definition leaves the model marked as
    requested, so no peer is asked for it again. *)
Lemma unanswered_model_not_retried g now p id r p' a :
  (mr_name r, mr_version r) ∈ g_requested g ->
  mr_name (a_model a) = mr_name r -> mr_version (a_model a) = mr_version r ->
  let g' := on_response show_hash g now p id (MModelDef r None) in
  model_available (g_store g') (a_model a) = false ->
  g_out (engine_apply_remote g' (Some p') a).1 = g_out g'.
Proof.
  intros Hr Hn Hv g' Ha.
  assert (Hr' : (mr_name r, mr_version r) ∈ g_requested g').
  { subst g'. unfold on_response. destruct (drive_name_by_peer g p); [|done]. simpl.
    unfold on_drive. by case_match. }
  unfold engine_apply_remote. rewrite Ha. cbn [fst]. unfold request_model. rewrite Hn, Hv.
  rewrite decide_True by done. unfold note_pending. by case_match.
Qed.

(** A peer can replace any model: a response that carries an unpinned
    reference is checked against nothing but its own name and version, whether
    or not it was asked for, so a definition of the peer's choosing takes the
    place of a loaded one, built-ins included. *)
Theorem unsolicited_model_replaces g now p n id r d l :
  drive_name_by_peer g p = Some n -> mr_hash r = None ->
  vget d "name" ≫= as_str = Some (mr_name r) -> vget d "version" ≫= as_str = Some (mr_version r) ->
  from_def d = Ok l ->
  i_models (g_store (on_response show_hash g now p id (MModelDef r (Some d))))
    !! (mr_name r, mr_version r) = Some (ML1 l).
Proof.
  intros Hn Hh Hna Hv Hd. unfold on_response. rewrite Hn. simpl. unfold on_model_def. simpl.
  assert (Ha : accept_model_def r d = Some l).
  { unfold accept_model_def. by rewrite Hna, Hv, !bool_decide_eq_true_2, Hh, Hd. }
  rewrite Ha. rewrite store_apply_all, models_try_all. simpl.
  apply accept_model_def_ref in Ha as (_ & E1 & E2 & _). unfold reg_insert.
  change (ref_ (ML1 l)) with (l1_ref l). by rewrite E1, E2, lookup_insert_eq.
Qed.
End Waiting.

(** ** Where the engine discloses more than its comments say *)

Section Disclosure.
Context `{Platform, Net} (show_hash : Hash32 -> string).
Implicit Types (g : SyncEngine) (s : Inner).

Lemma foldl_emits {A} (f : SyncEngine -> A -> SyncEngine) (o : Output -> Prop) l g x :
  (forall g y, calm False g (f g y)) ->
  (forall g, exists y, o y /\ y ∈ g_out (f g x)) -> x ∈ l ->
  exists y, o y /\ y ∈ g_out (foldl f g l).
Proof.
  intros Hc Hx. revert g. induction l as [|z l IH]; intros g Hin; [by apply not_elem_of_nil in Hin|].
  simpl. apply elem_of_cons in Hin as [->|Hin]; [|by apply IH].
  destruct (Hx g) as (y & Ho & Hy). exists y. split; [done|].
  destruct (calm_foldl False f l (f g z) Hc) as [(new & E & _) _ _ _]. rewrite E. apply elem_of_app. by left.
Qed.

Lemma calm_tick_summary S own g n p : calm S g (tick_summary own g n p).
Proof.
  unfold tick_summary.
  etrans; [apply (calm_request S g p (MSummary (map_to_list own)))|].
  generalize (send_request g p (MSummary (map_to_list own))).1 as g4. intros g4. solve_calm.
Qed.

Lemma tick_summary_sends own g n p :
  exists y, (exists id, y = ORequest p id (MSummary (map_to_list own))) /\
    y ∈ g_out (tick_summary own g n p).
Proof.
  exists (ORequest p (g_next_req g) (MSummary (map_to_list own))). split; [by eexists|].
  unfold tick_summary, send_request. cbn [fst].
  set (g1 := next_request _).
  assert (Hin : ORequest p (g_next_req g) (MSummary (map_to_list own)) ∈ g_out g1).
  { simpl. apply elem_of_app. right. by left. }
  case_match; [|done]. case_match; [|done].
  assert (Hc : calm False g1 (set_status (on_drive g1 n (rt_status Synced)) n Synced None)) by solve_calm.
  destruct Hc as [(new & E & _) _ _ _]. rewrite E. apply elem_of_app. by left.
Qed.

(** The tick does not filter: every drive that is due is sent a summary with
    the id and clock of every document of the store, whether or not that peer
    may read it. *)
Theorem tick_names_every_document g now t name rt id e :
  g_drives g !! name = Some rt -> due now rt = true -> i_entries (g_store g) !! id = Some e ->
  window_inv g ->
  exists n clocks, ORequest (r_peer rt) n (MSummary clocks) ∈ g_out (tick g now t) /\
    (id, e_clock e) ∈ clocks.
Proof.
  intros Hd Hdue He Hw. unfold tick.
  change (drain_outbound (g_store g)) with ((drain_outbound (g_store g)).1, i_outbound (g_store g)).
  cbv beta iota zeta.
  set (g0 := set_store g (drain_outbound (g_store g)).1).
  destruct (publish_fold (i_outbound (g_store g)) g0) as (_ & Hs & _); [by destruct Hw|].
  assert (D1 : forall l g, g_drives (foldl publish_action g l) = g_drives g).
  { induction l as [|a l IH]; intros g1; [done|]. simpl. rewrite IH.
    unfold publish_action, publish_now. repeat (case_match; simpl); done. }
  set (g1 := foldl publish_action g0 _) in *. set (g2 := if _ && _ then _ else _).
  assert (E2 : g_drives g2 = g_drives g /\ g_store g2 = g_store g1).
  { subst g2. split; [rewrite <- (D1 (i_outbound (g_store g)) g0 : g_drives g1 = g_drives g)|];
      repeat (case_match; simpl); done. }
  destruct E2 as [Ed Es]. set (own := summary (g_store g2)).
  assert (Hown : own !! id = Some (e_clock e)).
  { subst own. unfold summary. rewrite Es, Hs. simpl. by rewrite lookup_fmap, He. }
  match goal with |- context [foldl (fun g p => tick_summary own g p.1 (r_peer p.2)) ?g3 ?l] =>
    destruct (foldl_emits (fun g p => tick_summary own g p.1 (r_peer p.2))
      (fun y => exists n, y = ORequest (r_peer rt) n (MSummary (map_to_list own))) l g3 (name, rt))
      as (y & (n & ->) & Hy) end.
  - intros g' y. apply calm_tick_summary.
  - intros g'. apply tick_summary_sends.
  - apply list_elem_of_filter. split; [done|]. apply elem_of_map_to_list. by rewrite Ed.
  - exists n, (map_to_list own). split; [done|]. by apply elem_of_map_to_list.
Qed.

(** A document of a space that is not here is readable by no peer, and is
    gossiped to all of them. *)
Lemma orphaned_document_gossiped g a e sp :
  i_entries (g_store g) !! a_doc_id a = Some e -> e_space e = Some sp ->
  i_entries (g_store g) !! sp = None -> hash a ∉ g_published g -> window_inv g ->
  (forall peer, may_peer_read (g_store g) peer (a_doc_id a) = false) /\
  OPublish {| am_action := a; am_name := Some (g_pub_name g) |} ∈ g_out (publish_action g a).
Proof.
  intros He Hsp Hno Hh Hw.
  assert (Hne : sp <> a_doc_id a) by (intros ->; congruence). split.
  - intros peer. unfold may_peer_read. by rewrite He, Hsp, decide_False, Hno.
  - destruct (publish_action_spec g a Hw) as (_ & _ & new & -> & Hnew).
    assert (Hg : gossipable (g_store g) (a_doc_id a)).
    { left. unfold space_visibility. rewrite He. simpl. rewrite Hsp. simpl. by rewrite decide_False, Hno. }
    destruct Hnew as [[_ [?|?]]|(-> & _)]; [done..|]. apply elem_of_app. right. by left.
Qed.

(** A hello whose key does not decode skips the key and the drive's token
    check and is acknowledged with the summary; nothing is pinned. *)
Lemma unkeyed_hello_acknowledged g now c r p h e :
  p ∉ g_banned g -> h_version h = PROTOCOL_VERSION -> h_accept h = None -> g_token g = None ->
  hex_decode (h_pubkey h) = Err e ->
  serve_request g now c r p (MHello h) = send_response g p (MHelloAck (hello_ack g p)).
Proof.
  intros Hb Hv Ha Ht Hd. simpl. unfold serve_hello, token_gate, key_gate.
  by rewrite decide_False, Hv, Ha, Ht, Hd by done.
Qed.
End Disclosure.

(** ** Witnesses *)

Module SyncExample.
#[export] Instance sample_net : Net := {|
  Multiaddr := list Protocol;
  addr_iter := fun a => a;
  addr_collect := fun l => l;
  addr_parse := fun s =>
    match strip_prefix "/p2p/" s with
    | Some p => Ok [P2p p]
    | None => Ok [OtherProto s]
    end
|}.

(** A node on an empty directory. *)
Definition node : SyncEngine :=
  run_start (engine_new (open_inner empty_disk (sk 1) "12D3me" []) "12D3me" "home"
    [OtherProto "/ip4/0.0.0.0/tcp/0"] None [] ∅ false (Some "secret") ∅).

(** A node with no models, one document of a space it does not have, and one
    handshaken drive. *)
Definition hidden : Entry := set_space (entry_new 7) (Some 99%N).
Definition bare : Inner :=
  {| i_disk := empty_disk; i_key := sk 1; i_origin := "12D3me"; i_known_keys := ∅;
     i_entries := {[7%N := hidden]}; i_names := ∅; i_ts_hint := 0; i_outbound := [];
     i_outbound_feed := None; i_quarantined := 0; i_models := ∅; i_subscribers := [] |}.
Definition vault : Drive :=
  {| d_name := "vault"; d_addr := [P2p "12D3vault"]; d_token_env := None; d_paused := false;
     d_available_offline := true |}.
Definition linked : SyncEngine :=
  on_drive (handle_cmd (engine_new bare "12D3me" "home" [] None [] ∅ false (Some "secret") ∅)
              0 (fun _ => false) "12D3random" (AddDrive vault)) "vault" (rt_handshaken true).

Definition hello (token : string) : Hello :=
  {| h_version := 3; h_name := "eve"; h_peer_id := "12D3eve"; h_pubkey := ""; h_token := Some token;
     h_accept := None |}.
(** A [group] definition of a peer's choosing. *)
Definition evil : Value :=
  json_obj [("name", Str "group"); ("version", Str "1"); ("reducers", json_obj [])].
Definition post : Action :=
  {| a_doc_id := 3; a_model := modelref_new "group" "1"; a_kind := "post"; a_payload := Null;
     a_ts := 1; a_clock := ∅; a_origin := "12D3vault"; a_cosig := []; a_prev_hash := None;
     a_space := None; a_sig := [] |}.

Lemma node_running : running sample_show node.
Proof. apply running_start. constructor. Qed.
Lemma linked_window : window_inv linked.
Proof. split; [constructor|reflexivity|apply Nat.le_0_l]. Qed.
End SyncExample.
Import SyncExample.

Lemma engine_drives_store_witness : reachable (g_store node).
Proof. apply (engine_drives_store sample_show node node_running). Defined.


Lemma gossip_exact_witness :
  g_out (publish_action node post)
  = g_out node ++ [OPublish {| am_action := post; am_name := Some (g_pub_name node) |}].
Proof.
  destruct (gossip_exact sample_show node post node_running) as (E & _). apply E.
  split; [left; reflexivity|]. apply not_elem_of_empty.
Defined.

Lemma hello_gates_witness :
  serve_request (handle_cmd node 0 (fun _ => false) "x" (Ban "12D3eve")) 5 (fun _ => false) "x"
    "12D3eve" (MHello (hello "secret"))
  = send_response (handle_cmd node 0 (fun _ => false) "x" (Ban "12D3eve")) "12D3eve"
      (MHelloErr Banned).
Proof.
  apply (hello_gates (handle_cmd node 0 (fun _ => false) "x" (Ban "12D3eve"))).
  simpl. set_solver.
Defined.

Lemma three_strikes_witness :
  let serve g t := serve_request g t (fun _ => false) "x" "12D3eve" (MHello (hello "guess")) in
  last (g_out (serve (serve (serve linked 1000%N) 2000%N) 3000%N))
  = Some (OResponse "12D3eve" (MHelloErr Banned)).
Proof.
  intros serve.
  destruct (three_strikes linked "12D3eve" (fun _ => false) "x" "secret" (hello "guess")
    (hello "guess") (hello "guess") 1000 2000 3000) as (_ & _ & Hban & _).
  - reflexivity.
  - apply not_elem_of_empty.
  - reflexivity.
  - assert (A : attempt (hello "guess") /\ exists got, h_token (hello "guess") = Some got /\ got <> "secret").
    { split; [split; reflexivity|]. exists "guess". split; [reflexivity|discriminate]. }
    constructor; [exact A|]. constructor; [exact A|]. constructor; [exact A|]. constructor.
  - discriminate.
  - apply Hban. discriminate.
Defined.

Lemma model_fetch_witness :
  g_store (on_response sample_show linked 5 "12D3vault" 0
    (MModelDef {| mr_name := "group"; mr_version := "1"; mr_hash := Some 1%N |} (Some evil)))
  = g_store linked.
Proof.
  destruct (model_fetch sample_show linked 5 "12D3vault" "vault" 0
    {| mr_name := "group"; mr_version := "1"; mr_hash := Some 1%N |} (Some evil)) as (_ & Hbad & _).
  - vm_compute. reflexivity.
  - apply (Hbad evil 1%N); [reflexivity|reflexivity|]. vm_compute. discriminate.
Defined.

Lemma missing_model_held_witness :
  g_out (engine_apply_remote linked (Some "12D3vault") post).1
  = g_out linked ++ [ORequest "12D3vault" 0 (MModelRequest (a_model post))].
Proof.
  destruct (missing_model_held linked "12D3vault" post) as (_ & _ & _ & _ & _ & E).
  - vm_compute. reflexivity.
  - rewrite E. reflexivity.
Defined.

Lemma unsolicited_model_replaces_witness :
  exists l, i_models (g_store (on_response sample_show linked 5 "12D3vault" 0
    (MModelDef (modelref_new "group" "1") (Some evil)))) !! ("group", "1") = Some (ML1 l) /\
    l1_def l = evil.
Proof.
  destruct (from_def evil) as [l|e] eqn:El; [|vm_compute in El; discriminate El].
  exists l. split; [|by apply from_def_def].
  apply (unsolicited_model_replaces sample_show linked 5 "12D3vault" "vault" 0
    (modelref_new "group" "1") evil l).
  - vm_compute. reflexivity.
  - reflexivity.
  - reflexivity.
  - reflexivity.
  - exact El.
Defined.

Lemma tick_names_every_document_witness :
  may_peer_read (g_store linked) "12D3vault" 7 = false /\
  exists n clocks, ORequest "12D3vault" n (MSummary clocks) ∈ g_out (tick linked 5 0) /\
    (7%N, e_clock hidden) ∈ clocks.
Proof.
  split; [vm_compute; reflexivity|].
  destruct (g_drives linked !! "vault") as [rt|] eqn:Ert; [|vm_compute in Ert; discriminate Ert].
  assert (Hrt : r_peer rt = "12D3vault" /\ due 5 rt = true).
  { vm_compute in Ert. injection Ert as <-. split; vm_compute; reflexivity. }
  destruct Hrt as [Hp Hdue]. rewrite <- Hp.
  apply (tick_names_every_document linked 5 0 "vault" rt 7 hidden).
  - exact Ert.
  - exact Hdue.
  - vm_compute. reflexivity.
  - exact linked_window.
Defined.
