(* ===== verification/Fs.v ===== *)
(** The files the program keeps, and the calls of [std::fs] it makes on them.

    A path is the list of its components, a file system a finite map from
    paths to contents.  Every call takes the next entry of a schedule that says
    whether the operating system carries it out, refuses it, or (for a write)
    stops in the middle; a theorem that holds for every schedule holds whatever
    fails.  Directories and permission bits are not part of the map. *)

From stdpp Require Import base gmap strings numbers list.
From Stdlib Require Import Strings.Byte Strings.Ascii.
From S2P Require Import Prelude.

(** ** Paths *)

Definition Path : Type := list string.

(** [Path::parent], [Path::join] with a single name, [Path::file_name]. *)
Definition parent (p : Path) : option Path :=
  match p with [] => None | _ => Some (removelast p) end.
Definition join (p : Path) (name : string) : Path := p ++ [name].
Definition file_name (p : Path) : option string := last p.

(** [Path::with_file_name]. *)
Definition with_file_name (p : Path) (name : string) : Path := removelast p ++ [name].

(** A suffix pushed onto the path's text: it lands on the last component. *)
Definition with_suffix (p : Path) (suffix : string) : Path :=
  removelast p ++ [default "" (last p) +:+ suffix].

(** The part of a file name before its last dot, when that is not all of it. *)
Fixpoint file_stem (s : string) : option string :=
  match s with
  | EmptyString => None
  | String c s' =>
      match file_stem s' with
      | Some r => Some (String c r)
      | None => if decide (c = "."%char) then Some EmptyString else None
      end
  end.

(** [Path::with_extension]. *)
Definition with_extension (p : Path) (ext : string) : Path :=
  let n := default "" (last p) in
  let stem := match file_stem n with Some EmptyString | None => n | Some r => r end in
  with_file_name p (stem +:+ "." +:+ ext).

(** [Path::display], for error texts. *)
Definition path_display (p : Path) : string := String.concat "/" p.

(** ** The state and the monad *)

(** What the operating system does with a call. *)
Inductive Outcome : Type :=
  | Done
  | Refused
  | Stopped (n : nat).

Record Fs := {
  fs_files : gmap Path (list byte);
  fs_sched : list Outcome
}.

(** A computation on files that fails with a value of [E]; the calls
    themselves fail with a text. *)
Definition fsE (E A : Type) : Type := Fs -> Fs * result E A.
#[export] Instance fsE_ret E : MRet (fsE E) := fun A a s => (s, Ok a).
#[export] Instance fsE_bind E : MBind (fsE E) := fun A B k m s =>
  match m s with
  | (s', Ok a) => k a s'
  | (s', Err e) => (s', Err e)
  end.
Abbreviation fsM := (fsE string).

Definition fs_fail {E A} (e : E) : fsE E A := fun s => (s, Err e).

(** [Result::map_err] and the [let _ =] that ignores a result. *)
Definition fs_map_err {E F A} (f : E -> F) (m : fsE E A) : fsE F A := fun s =>
  match m s with
  | (s', Err e) => (s', Err (f e))
  | (s', Ok a) => (s', Ok a)
  end.
Definition fs_ignore {E F A} (m : fsE E A) : fsE F unit := fun s => ((m s).1, Ok tt).
(** A result looked at as a value. *)
Definition fs_try {E F A} (m : fsE E A) : fsE F (result E A) := fun s =>
  ((m s).1, Ok (m s).2).

(** The next outcome; an exhausted schedule carries every call out. *)
Definition next_outcome (s : Fs) : Outcome * Fs :=
  match fs_sched s with
  | [] => (Done, s)
  | o :: l => (o, {| fs_files := fs_files s; fs_sched := l |})
  end.

Definition set_files (s : Fs) (m : gmap Path (list byte)) : Fs :=
  {| fs_files := m; fs_sched := fs_sched s |}.

(** ** The calls *)

(** [Path::exists], [Path::is_file]: never an error. *)
Definition fs_exists (p : Path) : fsM bool := fun s =>
  (s, Ok (bool_decide (is_Some (fs_files s !! p)))).

(** [fs::read]. *)
Definition fs_read (p : Path) : fsM (list byte) := fun s =>
  match next_outcome s with
  | (Done, s) =>
      match fs_files s !! p with
      | Some b => (s, Ok b)
      | None => (s, Err "No such file or directory")
      end
  | (_, s) => (s, Err "read failed")
  end.

(** [std::str::from_utf8]: [need] continuation bytes are outstanding, the next
    one in [lo..=hi]. *)
Fixpoint utf8_from (need : nat) (lo hi : N) (b : list byte) : bool :=
  match b with
  | [] => bool_decide (need = 0)
  | x :: b =>
      let v := Byte.to_N x in
      match need with
      | S n => (lo <=? v)%N && (v <=? hi)%N && utf8_from n 128 191 b
      | O =>
          if (v <? 128)%N then utf8_from 0 0 0 b
          else if (v <? 194)%N then false
          else if (v <? 224)%N then utf8_from 1 128 191 b
          else if (v =? 224)%N then utf8_from 2 160 191 b
          else if (v =? 237)%N then utf8_from 2 128 159 b
          else if (v <? 240)%N then utf8_from 2 128 191 b
          else if (v =? 240)%N then utf8_from 3 144 191 b
          else if (v <? 244)%N then utf8_from 3 128 191 b
          else if (v =? 244)%N then utf8_from 3 128 143 b
          else false
      end
  end.
Definition utf8_ok (b : list byte) : bool := utf8_from 0 0 0 b.

(** [fs::read_to_string]. *)
Definition fs_read_to_string (p : Path) : fsM (list byte) :=
  b ← fs_read p;
  if utf8_ok b then mret b else fs_fail "stream did not contain valid UTF-8".

(** [fs::write]: truncates, then writes; stopped, it leaves a prefix. *)
Definition fs_write (p : Path) (b : list byte) : fsM unit := fun s =>
  match next_outcome s with
  | (Done, s) => (set_files s (<[p := b]> (fs_files s)), Ok tt)
  | (Refused, s) => (s, Err "open failed")
  | (Stopped n, s) => (set_files s (<[p := take n b]> (fs_files s)), Err "write failed")
  end.

(** A file opened for appending and [write_all]. *)
Definition fs_append (p : Path) (b : list byte) : fsM unit := fun s =>
  let old := default [] (fs_files s !! p) in
  match next_outcome s with
  | (Done, s) => (set_files s (<[p := old ++ b]> (fs_files s)), Ok tt)
  | (Refused, s) => (s, Err "open failed")
  | (Stopped n, s) => (set_files s (<[p := old ++ take n b]> (fs_files s)), Err "write failed")
  end.

(** [fs::rename]: atomic, replaces the destination. *)
Definition fs_rename (from to : Path) : fsM unit := fun s =>
  match next_outcome s with
  | (Done, s) =>
      match fs_files s !! from with
      | Some b => (set_files s (<[to := b]> (delete from (fs_files s))), Ok tt)
      | None => (s, Err "No such file or directory")
      end
  | (_, s) => (s, Err "rename failed")
  end.

(** [fs::remove_file]. *)
Definition fs_remove (p : Path) : fsM unit := fun s =>
  match next_outcome s with
  | (Done, s) =>
      match fs_files s !! p with
      | Some _ => (set_files s (delete p (fs_files s)), Ok tt)
      | None => (s, Err "No such file or directory")
      end
  | (_, s) => (s, Err "remove failed")
  end.

(** [fs::create_dir_all] and [fs::set_permissions]: they can fail, and change
    no contents. *)
Definition fs_meta (e : string) : fsM unit := fun s =>
  match next_outcome s with
  | (Done, s) => (s, Ok tt)
  | (_, s) => (s, Err e)
  end.
Definition fs_create_dir_all : fsM unit := fs_meta "mkdir failed".
Definition fs_set_permissions : fsM unit := fs_meta "chmod failed".

(** The pattern the program uses to replace a file: a temporary sibling, then
    a rename. *)
Definition write_replace (path : Path) (b : list byte) : fsM unit :=
  let tmp := with_extension path "tmp" in
  _ ← fs_write tmp b;
  fs_rename tmp path.

(** ** Lemmas *)

Lemma fs_run_bind {E A B} (m : fsE E A) (k : A -> fsE E B) s :
  (x ← m; k x) s = match (m s).2 with
                   | Ok a => k a (m s).1
                   | Err e => ((m s).1, Err e)
                   end.
Proof. unfold mbind, fsE_bind. by destruct (m s) as [? []]. Qed.

Lemma next_outcome_files s : fs_files (next_outcome s).2 = fs_files s.
Proof. unfold next_outcome. by case_match. Qed.

(** A call touches only the paths it names. *)
Definition leaves {E A} (m : fsE E A) (q : Path) : Prop :=
  forall s, fs_files (m s).1 !! q = fs_files s !! q.

Lemma leaves_ret {E A} (a : A) q : leaves (mret (M := fsE E) a) q.
Proof. by intros s. Qed.

Lemma leaves_bind {E A B} (m : fsE E A) (k : A -> fsE E B) q :
  leaves m q -> (forall a, leaves (k a) q) -> leaves (x ← m; k x) q.
Proof.
  intros Hm Hk s. rewrite fs_run_bind. specialize (Hm s). destruct (m s) as [s' [a|e]]; simpl in *;
    [by rewrite (Hk a s')|done].
Qed.

Lemma leaves_map_err {E F A} (f : E -> F) (m : fsE E A) q : leaves m q -> leaves (fs_map_err f m) q.
Proof. intros Hm s. specialize (Hm s). unfold fs_map_err. by destruct (m s) as [? []]. Qed.

Lemma leaves_ignore {E F A} (m : fsE E A) q : leaves m q -> leaves (fs_ignore (F := F) m) q.
Proof. intros Hm s. apply Hm. Qed.

Lemma leaves_try {E F A} (m : fsE E A) q : leaves m q -> leaves (fs_try (F := F) m) q.
Proof. intros Hm s. apply Hm. Qed.

(** Split on what happens to the next call. *)
Ltac fs_outcome s :=
  pose proof (next_outcome_files s); destruct (next_outcome s) as [[] ?]; simpl in *.

Lemma leaves_fail {E A} (e : E) q : leaves (fs_fail (A := A) e) q.
Proof. by intros s. Qed.

Lemma leaves_exists p q : leaves (fs_exists p) q.
Proof. by intros s. Qed.

Lemma leaves_read p q : leaves (fs_read p) q.
Proof. intros s. unfold fs_read. fs_outcome s; try congruence. case_match; simpl; congruence. Qed.

Lemma leaves_read_to_string p q : leaves (fs_read_to_string p) q.
Proof.
  apply leaves_bind; [apply leaves_read|]. intros b. case_match; [apply leaves_ret|apply leaves_fail].
Qed.

Lemma leaves_meta e q : leaves (fs_meta e) q.
Proof. intros s. unfold fs_meta. fs_outcome s; congruence. Qed.

Lemma leaves_write p b q : q <> p -> leaves (fs_write p b) q.
Proof.
  intros Hne s. unfold fs_write. fs_outcome s; rewrite ?lookup_insert_ne by done; congruence.
Qed.

Lemma leaves_append p b q : q <> p -> leaves (fs_append p b) q.
Proof.
  intros Hne s. unfold fs_append. fs_outcome s; rewrite ?lookup_insert_ne by done; congruence.
Qed.

Lemma leaves_rename f t q : q <> f -> q <> t -> leaves (fs_rename f t) q.
Proof.
  intros H1 H2 s. unfold fs_rename. fs_outcome s; try congruence.
  case_match; simpl; [|congruence].
  rewrite lookup_insert_ne, lookup_delete_ne by done. congruence.
Qed.

Lemma leaves_remove p q : q <> p -> leaves (fs_remove p) q.
Proof.
  intros Hne s. unfold fs_remove. fs_outcome s; try congruence.
  case_match; simpl; [|congruence]. rewrite lookup_delete_ne by done. congruence.
Qed.

#[export] Hint Resolve leaves_ret leaves_bind leaves_map_err leaves_ignore leaves_try leaves_fail
  leaves_exists leaves_read leaves_read_to_string leaves_meta leaves_write leaves_append leaves_rename leaves_remove
  : reactor.

(** What a successful call did. *)
Lemma fs_write_ok p b s : (fs_write p b s).2 = Ok tt ->
  fs_files (fs_write p b s).1 = <[p := b]> (fs_files s).
Proof. unfold fs_write. fs_outcome s; try done. intros _. by f_equal. Qed.

Lemma fs_read_ok p s b : (fs_read p s).2 = Ok b -> fs_files s !! p = Some b.
Proof. unfold fs_read. fs_outcome s; try done. case_match; simpl; [intros [= <-]|done]. congruence. Qed.

(** A rename either happens, atomically, or changes nothing. *)
Lemma fs_rename_cases f t s :
  (exists b, (fs_rename f t s).2 = Ok tt /\ fs_files s !! f = Some b /\
     fs_files (fs_rename f t s).1 = <[t := b]> (delete f (fs_files s))) \/
  (is_ok (fs_rename f t s).2 = false /\ fs_files (fs_rename f t s).1 = fs_files s).
Proof.
  unfold fs_rename. fs_outcome s; try (right; split; [done|congruence]).
  case_match eqn:E; simpl; [left|right; split; [done|congruence]].
  exists l. split_and!; [done|congruence|congruence].
Qed.

(** With nothing scheduled to fail, calls are carried out. *)
Definition calm_fs (s : Fs) : Prop := fs_sched s = [].
Abbreviation disk m := {| fs_files := m; fs_sched := [] |}.

Lemma calm_next s : calm_fs s -> next_outcome s = (Done, s).
Proof. unfold calm_fs, next_outcome. by intros ->. Qed.

(** A replaced file holds the new contents when the call succeeds and the old
    ones when it fails, at whatever step. *)
Lemma write_replace_atomic path b s :
  with_extension path "tmp" <> path ->
  fs_files (write_replace path b s).1 !! path =
  if is_ok (write_replace path b s).2 then Some b else fs_files s !! path.
Proof.
  intros Hne. unfold write_replace. rewrite fs_run_bind.
  pose proof (leaves_write (with_extension path "tmp") b path (not_eq_sym Hne) s) as Hl.
  pose proof (fs_write_ok (with_extension path "tmp") b s) as Hw.
  destruct (fs_write _ b s) as [s1 [[]|e]]; simpl in *; [|done]. specialize (Hw eq_refl).
  destruct (fs_rename_cases (with_extension path "tmp") path s1) as [(c & -> & Hc & ->)|[-> ->]];
    simpl; [|done]. rewrite lookup_insert_eq. rewrite Hw, lookup_insert_eq in Hc. congruence.
Qed.

Lemma write_replace_calm path b s : calm_fs s -> (write_replace path b s).2 = Ok tt /\
  calm_fs (write_replace path b s).1.
Proof.
  intros Hc. unfold write_replace. rewrite fs_run_bind. unfold fs_write, fs_rename.
  rewrite calm_next by done. simpl. rewrite calm_next by exact Hc. simpl.
  by rewrite lookup_insert_eq.
Qed.
