(* ===== verification/ReadModel.v ===== *)
(** The read models of the views crate (views/src/read_model.rs,
    document_view.rs, query.rs): projections of documents, the [ReadModel]
    contract, the snapshot index [DocumentView] and the query service; and the
    stateless query of the core crate (src/query.rs) it is measured against.

    A read model is mutated through [&self] under a lock, so a method is a
    function on its state.  [HashMap]s are finite maps. *)

From stdpp Require Import base gmap strings numbers pretty list.
From Stdlib Require Import Strings.Byte Strings.Ascii.
From S2P Require Import Prelude Json Doc Sample Action Model Builtins Entry Store Text Fs.

(** [uuid::Uuid]'s text: a parameter; different ids have different texts. *)
Class Uuid := { uuid_display : DocId -> string }.
Class UuidLaws `{Uuid} := {
  uuid_display_inj : forall a b, uuid_display a = uuid_display b -> a = b
}.

(** ** Snapshots *)

(** [DocSnapshot]. *)
Record DocSnapshot := {
  sn_doc_id : DocId;
  sn_name : string;
  sn_model : ModelRef;
  sn_fields : gmap string Value;
  sn_deleted : bool;
  sn_ts : N
}.

#[export] Instance DocSnapshot_eq_dec : EqDecision DocSnapshot.
Proof. solve_decision. Defined.

(** [DocSnapshot::from_state], [DocSnapshot::from_change]. *)
Definition from_state (st : DocState) (ts : N) : DocSnapshot :=
  {| sn_doc_id := doc_id (ds_doc st); sn_name := doc_name (ds_doc st);
     sn_model := ds_model st; sn_fields := fld_value <$> doc_fields (ds_doc st);
     sn_deleted := ds_deleted st; sn_ts := ts |}.
Definition from_change (c : DocChange) : DocSnapshot :=
  {| sn_doc_id := dc_doc_id c; sn_name := dc_name c; sn_model := dc_model c;
     sn_fields := fld_value <$> doc_fields (ds_doc (dc_state c));
     sn_deleted := dc_deleted c; sn_ts := dc_ts c |}.

(** ** The contract *)

(** [trait ReadModel]. *)
Class ReadModel (M : Type) := {
  rm_name : M -> string;
  rm_apply : M -> DocSnapshot -> M * result string unit;
  rm_save : M -> fsM unit;
  rm_load : M -> fsM (M * bool)
}.

(** [ReadModelCoordinator]: a store's snapshots and changes, handed to every
    read model in turn; a read model's error is only logged. *)
Section Coordinator.
Context `{Platform} {M : Type} `{ReadModel M}.
Implicit Types (s : Inner) (ms : list M).

Definition apply_all (ms : list M) (sn : DocSnapshot) : list M :=
  (fun m => (rm_apply m sn).1) <$> ms.

Definition prime_one s ms (id : DocId) : list M :=
  match full_state s id with
  | None => ms
  | Some st => apply_all ms (from_state st 0)
  end.
Definition prime s ms : list M := foldl (prime_one s) ms (doc_ids s).

(** The loop of [run], on the changes received. *)
Definition drive ms (feed : list DocChange) : list M :=
  foldl (fun ms c => apply_all ms (from_change c)) ms feed.
End Coordinator.

(** ** The snapshot index *)

(** [DocFilter]. *)
Record DocFilter := { df_field : string; df_value : Value }.

(** [document_view::Inner]. *)
Record DocumentView := {
  v_by_id : gmap string DocSnapshot;
  v_by_name : gmap string string;
  v_by_model : gmap string (list string);
  v_path : option Path
}.

(** [DocumentView::new]. *)
Definition view_new (path : option Path) : DocumentView :=
  {| v_by_id := ∅; v_by_name := ∅; v_by_model := ∅; v_path := path |}.

(** [Vec::retain(|x| x != id)], [Vec::dedup]. *)
Definition retain_ne (id : string) (l : list string) : list string :=
  filter (fun x => x <> id) l.
Fixpoint dedup_adjacent (l : list string) : list string :=
  match l with
  | x :: ((y :: _) as l') =>
      if decide (x = y) then dedup_adjacent l' else x :: dedup_adjacent l'
  | _ => l
  end.

Section View.
Context `{Uuid}.
Implicit Types (v : DocumentView) (sn : DocSnapshot).

(** The first block of [apply]: the document leaves its old bucket. *)
Definition leave_bucket v (id : string) sn : gmap string (list string) :=
  match v_by_id v !! id with
  | Some p =>
      if negb (bool_decide (mr_name (sn_model p) = mr_name (sn_model sn)))
         || negb (Bool.eqb (sn_deleted p) (sn_deleted sn))
      then alter (retain_ne id) (mr_name (sn_model p)) (v_by_model v)
      else v_by_model v
  | None => v_by_model v
  end.

(** [DocumentView::apply]. *)
Definition view_apply v sn : DocumentView :=
  let id := uuid_display (sn_doc_id sn) in
  let by_model := leave_bucket v id sn in
  let by_name := if bool_decide (sn_name sn = "") then v_by_name v
                 else <[sn_name sn := id]> (v_by_name v) in
  let model := mr_name (sn_model sn) in
  let by_model :=
    if sn_deleted sn then alter (retain_ne id) model by_model
    else <[model := dedup_adjacent (default [] (by_model !! model) ++ [id])]> by_model in
  {| v_by_id := <[id := sn]> (v_by_id v); v_by_name := by_name;
     v_by_model := by_model; v_path := v_path v |}.

(** [HashMap::values]. *)
Definition snapshots v : list DocSnapshot := (map_to_list (v_by_id v)).*2.

Context `{!Serde (list DocSnapshot)}.

(** [DocumentView::save]. *)
Definition view_save v : fsM unit :=
  match v_path v with
  | None => mret tt
  | Some path =>
      _ ← fs_create_dir_all;
      write_replace path (to_json (snapshots v))
  end.

(** [DocumentView::load]. *)
Definition view_load v : fsM (DocumentView * bool) :=
  match v_path v with
  | None => mret (v, false)
  | Some path =>
      raw ← fs_try (fs_read_to_string path);
      match raw with
      | Err _ => mret (v, false)
      | Ok raw =>
          match from_json raw with
          | Err e => fs_fail ("parse view: " +:+ e)
          | Ok docs => mret (foldl view_apply v docs, true)
          end
      end
  end.

#[export] Instance DocumentView_read_model : ReadModel DocumentView := {|
  rm_name := fun _ => "document-view";
  rm_apply := fun v sn => (view_apply v sn, Ok tt);
  rm_save := view_save;
  rm_load := view_load
|}.
End View.

(** ** The query surface *)

Section Queries.
Implicit Types (v : DocumentView) (sn : DocSnapshot).

(** [DocumentView::get]. *)
Definition view_get v (name_or_id : string) : option DocSnapshot :=
  match v_by_name v !! name_or_id with
  | Some id => v_by_id v !! id
  | None => v_by_id v !! name_or_id
  end.

(** The body of [find]'s loop: whether the snapshot is pushed. *)
Definition selects (model : string) (filter : option DocFilter) sn : bool :=
  negb (sn_deleted sn)
  && (bool_decide (model = "") || bool_decide (mr_name (sn_model sn) = model))
  && match filter with
     | None => true
     | Some f => match sn_fields sn !! df_field f with
                 | None => false
                 | Some x => bool_decide (x = df_value f)
                 end
     end.

(** [DocumentView::find]. *)
Definition find v (model : string) (f : option DocFilter) : list DocSnapshot :=
  sort_by_key sn_name (filter (fun sn => selects model f sn = true) (snapshots v)).

(** [DocumentView::count], [DocumentView::exists]. *)
Definition count v (model : string) : nat :=
  if bool_decide (model = "")
  then length (filter (fun sn => sn_deleted sn = false) (snapshots v))
  else length (filter (fun sn => sn_deleted sn = false /\ mr_name (sn_model sn) = model)
                 (snapshots v)).
Definition view_exists v (name : string) : bool :=
  match v_by_id v !! default "" (v_by_name v !! name) with
  | Some sn => negb (sn_deleted sn)
  | None => false
  end.

(** [to_json] of query.rs: the fields as an object in key order. *)
Definition fields_json (m : gmap string Value) : Value := Object (btree_iter m).
Definition snapshot_json sn : Value :=
  json_obj [("name", Str (sn_name sn)); ("model", Str (mr_name (sn_model sn)));
            ("fields", fields_json (sn_fields sn))].

(** [QueryService::query]. *)
Definition service_query v (model : string) (f : option DocFilter) : Value :=
  Array (snapshot_json <$> find v model f).
End Queries.

(** ** The stateless query of the core crate *)

(** [FieldFilter], and [serde_json::from_str::<Value>] as an argument. *)
Record FieldFilter := { ff_field : string; ff_value : Value }.

(** [parse_filter]. *)
Definition parse_filter (parse_json : string -> option Value) (spec : string) :
    option FieldFilter :=
  '(field, value) ← split_once "="%char spec;
  Some {| ff_field := trim field; ff_value := default (Str value) (parse_json value) |}.

Section QueryDocs.
Context `{Platform} `{Uuid}.
Implicit Type s : Inner.

(** The body of [query_docs]'s loop. *)
Definition query_doc s (model : string) (filter : option FieldFilter) (id : DocId) :
    option Value :=
  st ← full_state s id;
  if ds_deleted st then None else
  let name := mr_name (ds_model st) in
  if negb (bool_decide (model = "")) && negb (bool_decide (name = model)) then None else
  let keep := match filter with
              | None => true
              | Some f => match doc_fields (ds_doc st) !! ff_field f with
                          | Some x => bool_decide (fld_value x = ff_value f)
                          | None => false
                          end
              end in
  if (keep : bool) then
    Some (json_obj [("id", Str (uuid_display (doc_id (ds_doc st))));
                    ("name", Str (doc_name (ds_doc st))); ("model", Str name);
                    ("fields", fields_json (fld_value <$> doc_fields (ds_doc st)))])
  else None.

(** The sort key: the JSON text of the name. *)
Definition name_text (v : Value) : string :=
  json_to_string (default Null (vget v "name")).

(** [query_docs]. *)
Definition query_docs s (model : string) (filter : option FieldFilter) : list Value :=
  sort_by_key name_text (omap (query_doc s model filter) (doc_ids s)).
End QueryDocs.

(** ** Lemmas: what the index holds *)

Section ViewLemmas.
Context `{Uuid}.
Implicit Types (v : DocumentView) (sn : DocSnapshot).

(** Every document sits under the text of its id. *)
Definition keyed v : Prop :=
  forall k sn, v_by_id v !! k = Some sn -> k = uuid_display (sn_doc_id sn).

Lemma view_apply_keyed v sn : keyed v -> keyed (view_apply v sn).
Proof. intros Hk k x. simpl. intros [[<- <-]|[_ E]]%lookup_insert_Some; [done|by apply Hk]. Qed.

Lemma view_new_keyed p : keyed (view_new p).
Proof. intros k sn E. by apply (lookup_empty_Some k sn) in E. Qed.

(** The latest snapshot of each document is the one held. *)
Definition latest (l : list DocSnapshot) (m : gmap string DocSnapshot) : gmap string DocSnapshot :=
  foldl (fun m sn => <[uuid_display (sn_doc_id sn) := sn]> m) m l.

Lemma view_fold_by_id l v : v_by_id (foldl view_apply v l) = latest l (v_by_id v).
Proof. revert v. induction l as [|sn l IH]; intros v; [done|]. simpl. by rewrite IH. Qed.

Lemma latest_pairs (l : list (string * DocSnapshot)) m :
  NoDup l.*1 -> Forall (fun p => p.1 = uuid_display (sn_doc_id p.2)) l ->
  latest l.*2 m = list_to_map l ∪ m.
Proof.
  revert m. induction l as [|[k sn] l IH]; intros m Hn Hk; simpl.
  { by rewrite map_empty_union. }
  apply NoDup_cons in Hn as [Hni Hn]. apply Forall_cons_1 in Hk as [Ek Hk]. simpl in Ek, Hni.
  rewrite IH by done. rewrite <- Ek, <- insert_union_l. symmetry.
  apply insert_union_r. by apply not_elem_of_list_to_map_1.
Qed.

Lemma latest_values v : keyed v -> latest (snapshots v) ∅ = v_by_id v.
Proof.
  intros Hk. unfold snapshots. rewrite latest_pairs.
  - by rewrite map_union_empty, list_to_map_to_list.
  - apply NoDup_fst_map_to_list.
  - apply Forall_forall. intros [k sn] Hin. apply elem_of_map_to_list in Hin. by apply Hk.
Qed.

Context `{!Serde (list DocSnapshot)}.

(** Saving the snapshot index replaces its file in one step, whatever the
    operating system refuses: on success the file holds every snapshot, on
    failure what it held before.  Loading a saved index into a fresh one gives
    back every document, so every query by model and field answers the same. *)
Theorem view_persists v p s :
  v_path v = Some p -> with_extension p "tmp" <> p -> keyed v ->
  from_json (to_json (snapshots v)) = Ok (snapshots v) -> utf8_ok (to_json (snapshots v)) = true ->
  (forall t, fs_files (view_save v t).1 !! p =
     if is_ok (view_save v t).2 then Some (to_json (snapshots v)) else fs_files t !! p) /\
  (calm_fs s -> (view_save v s).2 = Ok tt /\
   exists v', (view_load (view_new (Some p)) (view_save v s).1).2 = Ok (v', true) /\
     v_by_id v' = v_by_id v /\ forall model f, find v' model f = find v model f).
Proof.
  intros Hp Hne Hk Hj Hu. assert (Hat : forall t, fs_files (view_save v t).1 !! p =
     if is_ok (view_save v t).2 then Some (to_json (snapshots v)) else fs_files t !! p).
  { intros t. unfold view_save. rewrite Hp, fs_run_bind.
    pose proof (leaves_meta "mkdir failed" p t) as Hm. fold fs_create_dir_all in Hm.
    destruct (fs_create_dir_all t) as [t' []]; simpl in *; [|done].
    rewrite write_replace_atomic by done. by case_match. }
  split; [exact Hat|]. intros Hc. specialize (Hat s).
  assert (Hs : (view_save v s).2 = Ok tt /\ calm_fs (view_save v s).1).
  { unfold view_save. rewrite Hp, fs_run_bind. unfold fs_create_dir_all, fs_meta.
    rewrite calm_next by done. by apply write_replace_calm. }
  destruct Hs as [Hok Hc']. split; [exact Hok|]. rewrite Hok in Hat. simpl in Hat.
  set (t := (view_save v s).1) in *. exists (foldl view_apply (view_new (Some p)) (snapshots v)).
  assert (Hb : v_by_id (foldl view_apply (view_new (Some p)) (snapshots v)) = v_by_id v).
  { rewrite view_fold_by_id. by apply latest_values. }
  split_and!; [|exact Hb|].
  - unfold view_load. cbn [v_path view_new]. rewrite fs_run_bind. unfold fs_try, fs_read_to_string.
    rewrite (fs_run_bind (fs_read p)). unfold fs_read. rewrite (calm_next _ Hc'), Hat. cbn. rewrite Hu.
    cbn. by rewrite Hj.
  - intros model f. unfold find, snapshots at 1. by rewrite Hb.
Qed.
End ViewLemmas.

(** ** The sample ids, and a saved index *)

#[export] Instance sample_uuid : Uuid := {| uuid_display := pretty |}.
#[export] Instance sample_uuid_laws : UuidLaws.
Proof. split. intros a b. apply (inj pretty). Qed.

Section Sample.
Definition memo : DocSnapshot :=
  {| sn_doc_id := 7; sn_name := "memo"; sn_model := modelref_new "note" "1";
     sn_fields := {[ "status" := Str "open" ]}; sn_deleted := false; sn_ts := 1 |}.
Definition memo_path : Path := ["state"; "view.json"].
Definition memo_view : DocumentView := view_apply (view_new (Some memo_path)) memo.
#[local] Instance memo_serde : Serde (list DocSnapshot) :=
  {| to_json := fun _ => [x01]; from_json := fun _ => Ok [memo] |}.

Lemma view_persists_witness :
  let s := {| fs_files := ∅; fs_sched := [] |} in
  exists v', (view_load (view_new (Some memo_path)) (view_save memo_view s).1).2 = Ok (v', true) /\
    v_by_id v' = v_by_id memo_view /\ view_get v' "memo" = Some memo.
Proof.
  destruct (view_persists memo_view memo_path {| fs_files := ∅; fs_sched := [] |})
    as [_ Hload]; [reflexivity|discriminate| |vm_compute; reflexivity|vm_compute; reflexivity|].
  { apply view_apply_keyed, view_new_keyed. }
  destruct (Hload eq_refl) as (_ & v' & E & Hb & _). exists v'. split_and!; [exact E|exact Hb|].
  revert E. vm_compute. by intros [= <-].
Defined.
End Sample.
