(* ===== verification/Relations.v ===== *)
(** The relationship graph of the views crate (views/src/relationship.rs):
    edges derived from the declared relationship fields of documents, and the
    path and ancestry queries over them. *)

From stdpp Require Import base gmap strings numbers pretty relations list.
From Stdlib Require Import Strings.Byte.
From S2P Require Import Prelude Json Doc Sample Builtins Text Fs ReadModel.

(** [EdgeMap]: source name, then field, to the set of target names. *)
Abbreviation EdgeMap := (gmap string (gmap string (gset string))).

(** [RelationshipIndex]. *)
Record RelationshipIndex := {
  ri_decl : gmap (string * string) string;
  ri_edges : EdgeMap;
  ri_path : option Path
}.

(** [RelationshipIndex::new]. *)
Definition index_new (decl : gmap (string * string) string) (path : option Path) :
    RelationshipIndex := {| ri_decl := decl; ri_edges := ∅; ri_path := path |}.

Definition set_edges (ix : RelationshipIndex) (g : EdgeMap) : RelationshipIndex :=
  {| ri_decl := ri_decl ix; ri_edges := g; ri_path := ri_path ix |}.

(** Iterating a [BTreeSet]. *)
Definition set_iter (s : gset string) : list string := sort_by_key (fun x => x) (elements s).

(** [rels_for]: the declared fields of a model, in the order of the map. *)
Definition rels_for (decl : gmap (string * string) string) (model : string) : list string :=
  (fun p => p.1.2) <$> filter (fun p => p.1.1 = model) (sort_by_key fst (map_to_list decl)).

(** The target of a relationship field, when it is a name. *)
Definition target_of (sn : DocSnapshot) (field : string) : option string :=
  t ← sn_fields sn !! field ≫= as_str;
  if bool_decide (t = "") then None else Some t.

(** One round of [apply]'s loop: an edge for the field. *)
Definition add_edge (sn : DocSnapshot) (g : EdgeMap) (field : string) : EdgeMap :=
  match target_of sn field with
  | None => g
  | Some t =>
      let m := default ∅ (g !! sn_name sn) in
      <[sn_name sn := <[field := {[t]} ∪ default ∅ (m !! field)]> m]> g
  end.

(** [RelationshipIndex::apply]. *)
Definition index_apply (ix : RelationshipIndex) (sn : DocSnapshot) : RelationshipIndex :=
  let g := delete (sn_name sn) (ri_edges ix) in
  set_edges ix
    (if sn_deleted sn || bool_decide (sn_name sn = "") then g
     else foldl (add_edge sn) g (rels_for (ri_decl ix) (mr_name (sn_model sn)))).

(** [Persisted]. *)
Abbreviation Persisted := (gmap string (gmap string (list string))).

Section Persistence.
Context `{!Serde Persisted}.

(** [RelationshipIndex::save]. *)
Definition flatten (g : EdgeMap) : Persisted :=
  (fun m : gmap string (gset string) => set_iter <$> m) <$> g.
Definition index_save (ix : RelationshipIndex) : fsM unit :=
  match ri_path ix with
  | None => mret tt
  | Some path =>
      _ ← fs_create_dir_all;
      write_replace path (to_json (flatten (ri_edges ix)))
  end.

(** [RelationshipIndex::load]: the parsed maps become sets. *)
Definition index_load (ix : RelationshipIndex) : fsM (RelationshipIndex * bool) :=
  match ri_path ix with
  | None => mret (ix, false)
  | Some path =>
      raw ← fs_try (fs_read_to_string path);
      match raw with
      | Err _ => mret (ix, false)
      | Ok raw =>
          match from_json raw with
          | Err e => fs_fail ("parse index: " +:+ e)
          | Ok p => mret (set_edges ix ((fun m : gmap string (list string) =>
                             (list_to_set : list string -> gset string) <$> m) <$> p), true)
          end
      end
  end.

#[export] Instance RelationshipIndex_read_model : ReadModel RelationshipIndex := {|
  rm_name := fun _ => "relationship-index";
  rm_apply := fun ix sn => (index_apply ix sn, Ok tt);
  rm_save := index_save;
  rm_load := index_load
|}.
End Persistence.

(** ** Graph queries *)

(** [outgoing], [incoming]. *)
Definition outgoing (ix : RelationshipIndex) (source field : string) : list string :=
  default [] (set_iter <$> (ri_edges ix !! source ≫= fun m => m !! field)).
Definition incoming (ix : RelationshipIndex) (target field : string) : list string :=
  sort_by_key (fun x => x)
    (filter (fun p : string * gmap string (gset string) =>
               target ∈ default (∅ : gset string) (p.2 !! field))
       (map_to_list (ri_edges ix))).*1.

(** [QueryService]: the document view, and the index when there is one; its
    two graph questions ([query] is [service_query] on the view). *)
Record QueryService := { qs_view : DocumentView; qs_index : option RelationshipIndex }.
Definition service_outgoing (q : QueryService) (source field : string) : Value :=
  match qs_index q with
  | None => Array []
  | Some ix => Array (Str <$> outgoing ix source field)
  end.
Definition service_incoming (q : QueryService) (target field : string) : Value :=
  match qs_index q with
  | None => Array []
  | Some ix => Array (Str <$> incoming ix target field)
  end.

(** The targets of a node over every field, in the order the loops visit them. *)
Definition successors (g : EdgeMap) (n : string) : list string :=
  match g !! n with
  | None => []
  | Some m => mjoin ((fun p => set_iter p.2) <$> btree_iter m)
  end.

(** [find_path]'s loop.  The stack is a list with its top first; a path is a
    non-empty list of names. *)
Fixpoint path_loop (fuel : nat) (g : EdgeMap) (to : string) (stack paths : list (list string)) :
    option (list (list string)) :=
  match fuel with
  | O => None
  | S fuel' =>
      match stack with
      | [] => Some paths
      | path :: stack =>
          let last := default "" (last path) in
          if bool_decide (last = to) then path_loop fuel' g to stack (paths ++ [path])
          else if 8 <? length path then path_loop fuel' g to stack paths
          else path_loop fuel' g to
                 (foldl (fun st t => (path ++ [t]) :: st) stack (successors g last)) paths
      end
  end.

(** Enough turns of the loop: one per path of at most nine names, each node
    having at most [width] targets, and one to find the stack empty. *)
Definition width (g : EdgeMap) : nat :=
  foldr Nat.max 0 ((fun p => length (successors g p.1)) <$> map_to_list g).
Fixpoint path_weight (w room : nat) : nat :=
  match room with
  | O => 1
  | S room' => S (w * path_weight w room')
  end.
Definition path_fuel (g : EdgeMap) : nat := S (path_weight (width g) 8).

(** Lexicographic order on paths, for [Vec::sort]. *)
Fixpoint path_leb (p q : list string) : bool :=
  match p, q with
  | [], _ => true
  | _ :: _, [] => false
  | x :: p', y :: q' => if decide (x = y) then path_leb p' q' else ord_leb x y
  end.

#[export] Program Instance path_ord : TotalOrd (list string) := {| ord_leb := path_leb |}.
Next Obligation. induction x as [|a x IH]; simpl; [done|]. by rewrite decide_True. Qed.
Next Obligation.
  induction x as [|a x IH]; intros [|b y] [|c z]; simpl; try done.
  repeat case_decide; subst; try congruence; eauto using ord_trans.
  intros E1 E2. exfalso. eauto using ord_antisym.
Qed.
Next Obligation.
  induction x as [|a x IH]; intros [|b y]; simpl; try done.
  repeat case_decide; subst; try congruence; intros E1 E2.
  - f_equal. by apply IH.
  - exfalso. eauto using ord_antisym.
Qed.
Next Obligation.
  induction x as [|a x IH]; intros [|b y]; simpl; auto.
  repeat case_decide; subst; try congruence; [apply IH|apply ord_total].
Qed.

(** [find_path]. *)
Definition find_path (ix : RelationshipIndex) (from to : string) : option (list (list string)) :=
  sort_by_key (fun p => p) <$> path_loop (path_fuel (ri_edges ix)) (ri_edges ix) to [[from]] [].

(** Whether a field of the node points at [n]. *)
Definition points_at (m : gmap string (gset string)) (n : string) : bool :=
  existsb (fun p : string * gset string => bool_decide (n ∈ p.2)) (map_to_list m).

(** The inner loop of [ancestors]: every node that points at [n] and is new is
    marked and pushed. *)
Fixpoint mark (n : string) (nodes : list (string * gmap string (gset string)))
    (seen : gset string) (stack : list string) : gset string * list string :=
  match nodes with
  | [] => (seen, stack)
  | (src, m) :: nodes =>
      if bool_decide (src = n) || bool_decide (src ∈ seen) then mark n nodes seen stack
      else if points_at m n then mark n nodes ({[src]} ∪ seen) (src :: stack)
      else mark n nodes seen stack
  end.

(** Its outer loop. *)
Fixpoint ancestor_loop (fuel : nat) (g : EdgeMap) (seen : gset string) (stack : list string) :
    option (gset string) :=
  match fuel with
  | O => None
  | S fuel' =>
      match stack with
      | [] => Some seen
      | n :: stack =>
          let '(seen, stack) := mark n (map_to_list g) seen stack in
          ancestor_loop fuel' g seen stack
      end
  end.

(** [ancestors]: at most one turn per node, one for the start and one to find
    the stack empty. *)
Definition ancestors (ix : RelationshipIndex) (name : string) : option (list string) :=
  set_iter <$> ancestor_loop (2 + size (ri_edges ix)) (ri_edges ix) ∅ [name].

(** ** Edges *)

(** A field of [a] names [b]. *)
Definition edge (g : EdgeMap) (a b : string) : Prop :=
  exists m f s, g !! a = Some m /\ m !! f = Some s /\ b ∈ (s : gset string).
(** An edge between different documents. *)
Definition link (g : EdgeMap) (a b : string) : Prop := a <> b /\ edge g a b.

Lemma elem_of_set_iter s x : x ∈ set_iter s <-> x ∈ s.
Proof. unfold set_iter. by rewrite sort_by_key_perm, elem_of_elements. Qed.

Lemma elem_of_successors g a b : b ∈ successors g a <-> edge g a b.
Proof.
  unfold successors, edge. destruct (g !! a) as [m|]; [|set_solver].
  rewrite list_elem_of_join. split.
  - intros (l & Hb & ((f & s) & -> & Hp%elem_of_btree_iter)%list_elem_of_fmap).
    rewrite elem_of_set_iter in Hb. by exists m, f, s.
  - intros (? & f & s & [= <-] & Hf & Hb). exists (set_iter s). rewrite elem_of_set_iter.
    split; [done|]. apply list_elem_of_fmap. exists (f, s). by rewrite elem_of_btree_iter.
Qed.

Lemma points_at_true m n : points_at m n = true <-> exists f s, m !! f = Some s /\ n ∈ s.
Proof.
  unfold points_at. rewrite existsb_exists. split.
  - intros ([f s] & Hin%list_elem_of_In%elem_of_map_to_list & Hb%bool_decide_eq_true). by exists f, s.
  - intros (f & s & Hf & Hn). exists (f, s). split; [|by apply bool_decide_eq_true].
    by apply list_elem_of_In, elem_of_map_to_list.
Qed.

(** ** Ancestors *)

Section Ancestors.
Context (g : EdgeMap) (name : string).

(** What the inner loop does to the marks and the stack. *)
Record marked (n : string) (nodes : list (string * gmap string (gset string)))
    (seen : gset string) (stack : list string) (seen' : gset string) (stack' : list string) :
    Prop := {
  mk_keep : seen ⊆ seen';
  mk_stack : forall x, x ∈ stack -> x ∈ stack';
  mk_new : forall x, x ∈ stack' -> x ∈ stack \/ x ∈ seen';
  mk_pushed : forall x, x ∈ seen' -> x ∈ seen \/ x ∈ stack';
  mk_sound : forall x, x ∈ seen' -> x ∈ seen \/
    x <> n /\ exists m, (x, m) ∈ nodes /\ points_at m n = true;
  mk_complete : forall x m, (x, m) ∈ nodes -> x <> n -> points_at m n = true -> x ∈ seen';
  mk_measure : forall D : gset string, Forall (fun p => p.1 ∈ D) nodes ->
    length stack' + size (D ∖ seen') = length stack + size (D ∖ seen)
}.

Lemma size_difference_remove (D seen : gset string) x :
  x ∈ D -> x ∉ seen -> size (D ∖ seen) = S (size (D ∖ ({[x]} ∪ seen))).
Proof.
  intros Hx Hs. assert (E : D ∖ seen = {[x]} ∪ D ∖ ({[x]} ∪ seen)).
  { apply set_eq. intros y. destruct (decide (y = x)) as [->|]; set_solver. }
  rewrite E, size_union by set_solver. by rewrite size_singleton.
Qed.

Lemma mark_spec n nodes seen stack :
  let '(seen', stack') := mark n nodes seen stack in marked n nodes seen stack seen' stack'.
Proof.
  revert seen stack. induction nodes as [|[src m] nodes IH]; intros seen stack; simpl.
  { split; try done; try (by left). intros x m Hx. by apply elem_of_nil in Hx. }
  assert (Hskip : (src = n \/ src ∈ seen \/ points_at m n = false) ->
    let '(seen', stack') := mark n nodes seen stack in
    marked n ((src, m) :: nodes) seen stack seen' stack').
  { intros Hc. specialize (IH seen stack). destruct (mark n nodes seen stack) as [seen' stack'].
    destruct IH as [K S1 S2 S3 So Co Me]. split; try done.
    - intros x [?|(? & m' & Hm & ?)]%So; [by left|right]. split; [done|]. exists m'. set_solver.
    - intros x m' [[= -> ->]|Hin]%elem_of_cons Hne Hp; [|by apply (Co x m')].
      destruct Hc as [?|[?|?]]; [done| |congruence]. by apply K.
    - intros D [_ HD]%Forall_cons_1. by apply Me. }
  case_bool_decide as E1; simpl; [apply Hskip; auto|].
  case_bool_decide as E2; simpl; [apply Hskip; auto|].
  destruct (points_at m n) eqn:Ep; [|apply Hskip; auto].
  specialize (IH ({[src]} ∪ seen) (src :: stack)).
  destruct (mark n nodes _ _) as [seen' stack']. destruct IH as [K S1 S2 S3 So Co Me].
  split.
  - set_solver.
  - set_solver.
  - intros x [[->|?]%elem_of_cons|?]%S2; [right; set_solver|by left|by right].
  - intros x [[->%elem_of_singleton|?]%elem_of_union|?]%S3; [right; apply S1; left|by left|by right].
  - intros x [[->%elem_of_singleton|?]%elem_of_union|(? & m' & Hm & ?)]%So;
      [right|by left|right]; (split; [done|]); [exists m|exists m']; set_solver.
  - intros x m' [[= -> ->]|Hin]%elem_of_cons Hne Hp; [apply K; set_solver|by apply (Co x m')].
  - intros D [HD1 HD]%Forall_cons_1. rewrite Me by done. simpl in *.
    rewrite (size_difference_remove D seen src) by done. lia.
Qed.

(** The state of the outer loop. *)
Record worklist (seen : gset string) (stack : list string) : Prop := {
  wl_sound : forall x, x ∈ seen -> tc (link g) x name;
  wl_stack : forall x, x ∈ stack -> x = name \/ x ∈ seen;
  wl_closed : forall x, x = name \/ x ∈ seen ->
    x ∈ stack \/ forall y, link g y x -> y ∈ seen
}.

Lemma worklist_step n seen stack :
  worklist seen (n :: stack) ->
  let '(seen', stack') := mark n (map_to_list g) seen stack in worklist seen' stack'.
Proof.
  intros [So St Cl]. pose proof (mark_spec n (map_to_list g) seen stack) as Hm.
  destruct (mark _ _ _ _) as [seen' stack']. destruct Hm as [K S1 S2 S3 Ms Mc _].
  assert (Hn : n = name \/ n ∈ seen) by (apply St; left).
  assert (Hl : forall x m, (x, m) ∈ map_to_list g -> points_at m n = true -> edge g x n).
  { intros x m Hin%elem_of_map_to_list (f & s & Hf & Hs)%points_at_true. by exists m, f, s. }
  split.
  - intros x [?|(Hne & m & Hin & Hp)]%Ms; [by apply So|].
    assert (link g x n) by (split; [done|by eapply Hl]).
    destruct Hn as [->|Hn]; [by apply tc_once|]. by eapply tc_l; [|apply So].
  - intros x [?|?]%S2; [|by right]. destruct (St x) as [?|?]; [by right|by left|right; by apply K].
  - intros x Hx. destruct (decide (x = n)) as [->|Hxn].
    + right. intros y [Hne (m & f & s & Hg & Hf & Hs)]. apply (Mc y m); [|done|].
      * by apply elem_of_map_to_list.
      * apply points_at_true. by exists f, s.
    + assert (Hc : x ∈ stack' \/ (x = name \/ x ∈ seen)).
      { destruct Hx as [?|[?|?]%S3]; auto. }
      destruct Hc as [?|[[?|?]%elem_of_cons|Hall]%Cl]; [by left|done|left; by apply S1|].
      right. intros y Hy. by apply K, Hall.
Qed.

Lemma mark_measure n seen stack :
  let '(seen', stack') := mark n (map_to_list g) seen stack in
  length stack' + size (dom g ∖ seen') = length stack + size (dom g ∖ seen).
Proof.
  pose proof (mark_spec n (map_to_list g) seen stack) as Hm.
  destruct (mark _ _ _ _) as [seen' stack']. apply (mk_measure _ _ _ _ _ _ Hm).
  apply Forall_forall. intros [x m] Hin%elem_of_map_to_list. apply elem_of_dom. by eexists.
Qed.

(** The loop ends, with the stack empty and the marks closed. *)
Lemma ancestor_loop_ends fuel seen stack :
  length stack + size (dom g ∖ seen) < fuel -> worklist seen stack ->
  exists seen', ancestor_loop fuel g seen stack = Some seen' /\ worklist seen' [].
Proof.
  revert seen stack. induction fuel as [|fuel IH]; intros seen stack Hf Hw; [lia|].
  destruct stack as [|n stack]; [by exists seen|]. simpl.
  pose proof (worklist_step n seen stack Hw) as Hw'.
  pose proof (mark_measure n seen stack) as Hm.
  destruct (mark _ _ _ _) as [seen' stack']. apply IH; [simpl in Hf; lia|done].
Qed.

Lemma worklist_done seen x : worklist seen [] -> x ∈ seen <-> tc (link g) x name.
Proof.
  intros [So _ Cl]. split; [apply So|]. induction 1 as [x y Hl|x y z Hl _ IH].
  - destruct (Cl y (or_introl eq_refl)) as [[]%elem_of_nil|Hall]. by apply Hall.
  - destruct (Cl y (or_intror (IH So Cl))) as [[]%elem_of_nil|Hall]. by apply Hall.
Qed.
End Ancestors.

(** C35. [ancestors] always ends, and returns in order exactly the documents
    that reach [name] through one or more edges between different documents:
    the transitive closure of the graph, read backwards.  A document is its own
    ancestor when it lies on a longer cycle, never by a self-reference. *)
Theorem ancestors_closure ix name :
  exists l, ancestors ix name = Some l /\ sorted_by (fun x => x) l /\ NoDup l /\
    forall x, x ∈ l <-> tc (link (ri_edges ix)) x name.
Proof.
  destruct (ancestor_loop_ends (ri_edges ix) name (2 + size (ri_edges ix)) ∅ [name])
    as (seen & E & Hw).
  - rewrite difference_empty_L, size_dom. simpl. lia.
  - split; [set_solver|intros x Hx; left; by apply list_elem_of_singleton in Hx|].
    intros x [->|Hx]; [left; set_solver|set_solver].
  - exists (set_iter seen). unfold ancestors. rewrite E. split_and!; [done| | |].
    + apply sort_by_key_sorted.
    + unfold set_iter. rewrite sort_by_key_perm. apply NoDup_elements.
    + intros x. rewrite elem_of_set_iter. by apply worklist_done.
Qed.

(** ** Paths *)

Section Paths.
Context (g : EdgeMap) (from to : string).

(** A walk along edges from [from]. *)
Inductive walk : list string -> Prop :=
  | walk_start : walk [from]
  | walk_snoc p x t : walk p -> last p = Some x -> edge g x t -> walk (p ++ [t]).

(** The walks the search extends: it stops at [to] and at nine names. *)
Inductive explored : list string -> Prop :=
  | ex_start : explored [from]
  | ex_snoc p x t : explored p -> last p = Some x -> x <> to -> length p <= 8 ->
      edge g x t -> explored (p ++ [t]).

Lemma walk_nonempty p : walk p -> p <> [].
Proof. destruct 1; [done|]. intros []%app_eq_nil. done. Qed.

Lemma explored_iff p :
  explored p <-> walk p /\ to ∉ removelast p /\ length p <= 9.
Proof.
  split.
  - induction 1 as [|p x t _ (Hw & Ht & Hl) Hx Hne Hlen He].
    { split_and!; [constructor|set_solver|simpl; lia]. }
    split_and!; [by eapply walk_snoc| |rewrite length_app; simpl; lia].
    rewrite removelast_last. destruct p as [|y p' _] using rev_ind; [done|].
    rewrite last_snoc in Hx. injection Hx as ->. rewrite removelast_last in Ht. set_solver.
  - intros (Hw & Ht & Hl). induction Hw as [|p x t Hw IH Hx He]; [constructor|].
    rewrite removelast_last in Ht. rewrite length_app in Hl. simpl in Hl.
    assert (x ∈ p) by (by apply last_Some_elem_of).
    eapply ex_snoc; [|exact Hx|set_solver|lia|done]. apply IH; [|lia].
    intros Hin. apply Ht. destruct p as [|y p' _] using rev_ind; [by apply elem_of_nil in Hin|].
    rewrite removelast_last in Hin. set_solver.
Qed.

Lemma prefix_of_snoc (p q : list string) t : p `prefix_of` q ++ [t] -> p <> q ++ [t] -> p `prefix_of` q.
Proof.
  intros [k Hk] Hne. destruct k as [|y k _] using rev_ind; [by rewrite app_nil_r in Hk|].
  rewrite app_assoc in Hk. apply app_inj_tail in Hk as [-> _]. by exists k.
Qed.

(** A proper prefix of an explored walk was extended by the search. *)
Lemma explored_prefix p q :
  explored q -> p `prefix_of` q -> p <> [] -> p <> q ->
  exists x t, last p = Some x /\ x <> to /\ length p <= 8 /\ t ∈ successors g x /\
    p ++ [t] `prefix_of` q.
Proof.
  intros Hq. revert p. induction Hq as [|q x t Hq IH Hx Hne Hl He]; intros p Hp Hp0 Hpq.
  - destruct Hp as [k Hk]. destruct p as [|y p]; [done|]. injection Hk as -> Hk.
    symmetry in Hk. apply app_eq_nil in Hk as [-> ->]. done.
  - destruct (decide (p = q)) as [->|Hpq'].
    + exists x, t. by rewrite elem_of_successors.
    + destruct (IH p) as (x' & t' & ? & ? & ? & ? & Hpre); [|done|done|].
      * by eapply prefix_of_snoc.
      * exists x', t'. split_and!; try done. by apply prefix_app_r.
Qed.

(** The state of the search: everything on the stack was reached, and every
    answer is found or has a prefix on the stack. *)
Record searching (stack paths : list (list string)) : Prop := {
  sr_stack : forall p, p ∈ stack -> explored p;
  sr_paths : forall p, p ∈ paths -> explored p /\ last p = Some to;
  sr_pending : forall q, explored q -> last q = Some to ->
    q ∈ paths \/ exists p, p ∈ stack /\ p `prefix_of` q
}.

Lemma elem_of_pushed (path : list string) ts stack p :
  p ∈ foldl (fun st t => (path ++ [t]) :: st) stack ts <->
  p ∈ stack \/ exists t, t ∈ ts /\ p = path ++ [t].
Proof.
  revert stack. induction ts as [|t ts IH]; intros stack; simpl; [set_solver|].
  rewrite IH. set_solver.
Qed.

Lemma explored_last p : explored p -> exists x, last p = Some x /\ p <> [].
Proof.
  destruct 1; [by exists from|]. exists t. rewrite last_snoc. split; [done|].
  intros []%app_eq_nil. done.
Qed.

(** Dropping a path that is not extended loses no answer but itself. *)
Lemma search_drop p stack paths :
  searching (p :: stack) paths -> (last p = Some to \/ 8 < length p) -> forall q, explored q ->
  last q = Some to -> q = p \/ q ∈ paths \/ exists p', p' ∈ stack /\ p' `prefix_of` q.
Proof.
  intros [Hs _ Hq] Hstop q He Hl. destruct (Hq q He Hl) as [?|(p' & [->|Hp']%elem_of_cons & Hpre)];
    [auto| |right; right; eauto].
  destruct (decide (q = p)) as [->|Hne]; [by left|exfalso].
  destruct (explored_last p) as (x & Hx & Hne0); [apply Hs; left|].
  destruct (explored_prefix p q He Hpre Hne0 ltac:(done)) as (y & t & Hy & Hyt & Hlen & _).
  destruct Hstop as [E|E]; [congruence|lia].
Qed.

Lemma search_found p stack paths :
  searching (p :: stack) paths -> last p = Some to -> searching stack (paths ++ [p]).
Proof.
  intros Hs Hl. pose proof (search_drop p stack paths Hs (or_introl Hl)) as Hd.
  destruct Hs as [S1 S2 _]. split.
  - intros q Hq. apply S1. by right.
  - intros q [?|Hq%list_elem_of_singleton]%elem_of_app; [by apply S2|subst].
    split; [apply S1; left|done].
  - intros q He Hq. destruct (Hd q He Hq) as [->|[?|?]]; [left|left|by right]; set_solver.
Qed.

Lemma search_cut p stack paths :
  searching (p :: stack) paths -> last p <> Some to -> 8 < length p -> searching stack paths.
Proof.
  intros Hs Hl Hlen. pose proof (search_drop p stack paths Hs (or_intror Hlen)) as Hd.
  destruct Hs as [S1 S2 _]. split; [intros q Hq; apply S1; by right|done|].
  intros q He Hq. destruct (Hd q He Hq) as [->|[?|?]]; [done|by left|by right].
Qed.

Lemma search_extend p x stack paths :
  searching (p :: stack) paths -> last p = Some x -> x <> to -> length p <= 8 ->
  searching (foldl (fun st t => (p ++ [t]) :: st) stack (successors g x)) paths.
Proof.
  intros [S1 S2 S3] Hx Hne Hlen. split; [|done|].
  - intros q [?|(t & Ht%elem_of_successors & ->)]%elem_of_pushed; [apply S1; by right|].
    eapply ex_snoc; eauto. apply S1. left.
  - intros q He Hq. destruct (S3 q He Hq) as [?|(p' & [->|Hp']%elem_of_cons & Hpre)]; [by left|right|].
    + destruct (explored_last p) as (x' & Hx' & Hne0); [apply S1; left|].
      destruct (explored_prefix p q He Hpre Hne0) as (y & t & Hy & _ & _ & Ht & Hpre').
      { intros ->. congruence. }
      simplify_eq. exists (p ++ [t]). split; [|done]. apply elem_of_pushed. right. by exists t.
    + right. exists p'. split; [|done]. apply elem_of_pushed. by left.
Qed.

(** The turns the stack can still cost. *)
Definition stack_weight (stack : list (list string)) : nat :=
  sum_list_with (fun p => path_weight (width g) (9 - length p)) stack.

Lemma successors_width x : length (successors g x) <= width g.
Proof.
  destruct (g !! x) as [m|] eqn:E; [|unfold successors; rewrite E; simpl; lia].
  apply elem_of_map_to_list in E. unfold width.
  induction (map_to_list g) as [|[y m'] l IH]; [by apply elem_of_nil in E|].
  rewrite fmap_cons. cbn [foldr fst].
  apply elem_of_cons in E as [[= <- <-]|E]; [lia|]. apply IH in E. lia.
Qed.

Lemma pushed_weight p ts stack r :
  9 - length p = S r ->
  stack_weight (foldl (fun st t => (p ++ [t]) :: st) stack ts)
  = length ts * path_weight (width g) r + stack_weight stack.
Proof.
  intros Hr. revert stack. induction ts as [|t ts IH]; intros stack; [done|].
  cbn [foldl length]. rewrite IH. unfold stack_weight. simpl.
  rewrite length_app. simpl. replace (9 - (length p + 1)) with r by lia. lia.
Qed.

Lemma path_loop_ends fuel stack paths :
  searching stack paths -> stack_weight stack < fuel ->
  exists ps, path_loop fuel g to stack paths = Some ps /\ searching [] ps.
Proof.
  revert stack paths. induction fuel as [|fuel IH]; intros stack paths Hs Hf; [lia|].
  destruct stack as [|p stack]; [by exists paths|].
  destruct (explored_last p) as (x & Hx & Hne); [apply (sr_stack _ _ Hs); left|].
  cbn [path_loop]. rewrite Hx. change (default _ (Some x)) with x.
  assert (Hw : stack_weight (p :: stack) = path_weight (width g) (9 - length p) + stack_weight stack)
    by done.
  assert (1 <= path_weight (width g) (9 - length p)) 
    by (clear; destruct (9 - length p); simpl; lia).
  case_bool_decide as Et.
  { apply IH; [apply search_found; [exact Hs|congruence]|lia]. }
  destruct (Nat.ltb_spec 8 (length p)).
  { apply IH; [eapply search_cut; [done|congruence|done]|lia]. }
  destruct (9 - length p) as [|r] eqn:Er; [lia|]. cbn [path_weight] in *.
  apply IH; [by apply search_extend|]. rewrite (pushed_weight _ _ _ r Er).
  pose proof (Nat.mul_le_mono_r _ _ (path_weight (width g) r) (successors_width x)). lia.
Qed.
End Paths.

(** [find_path] always ends, and returns in order exactly the walks along
    relationship edges from [from] to [to] of at most eight edges that do not
    pass through [to] before their end. *)
Theorem find_path_exact ix from to :
  exists ps, find_path ix from to = Some ps /\ sorted_by (fun p => p) ps /\
    forall p, p ∈ ps <->
      walk (ri_edges ix) from p /\ last p = Some to /\ to ∉ removelast p /\ length p <= 9.
Proof.
  destruct (path_loop_ends (ri_edges ix) from to (path_fuel (ri_edges ix)) [[from]] [])
    as (ps & E & Hs).
  - split.
    + intros p Hp. apply list_elem_of_singleton in Hp as ->. constructor.
    + by intros p ?%elem_of_nil.
    + intros q He Hq. right. exists [from]. split; [left|]. clear Hq.
      induction He as [|q x t He IH]; [done|]. by apply prefix_app_r.
  - unfold stack_weight, path_fuel. cbn [sum_list_with length]. change (9 - 1) with 8. lia.
  - exists (sort_by_key (fun p => p) ps). unfold find_path. rewrite E.
    split_and!; [done|apply sort_by_key_sorted|]. intros p. rewrite sort_by_key_perm. split.
    + intros [He Hl]%(sr_paths _ _ _ _ _ Hs). by apply explored_iff in He as (? & ? & ?).
    + intros (Hw & Hl & Ht & Hlen).
      destruct (sr_pending _ _ _ _ _ Hs p) as [?|(p' & Hp' & _)]; [by apply explored_iff|done|done|].
      by apply elem_of_nil in Hp'.
Qed.

(** ** The graph follows the documents *)

(** [b] is among the targets of field [f] of [a]. *)
Definition fedge (g : EdgeMap) (a f b : string) : Prop :=
  exists m s, g !! a = Some m /\ m !! f = Some s /\ b ∈ (s : gset string).

(** A live, named document whose declared relationship field [f] names [b]. *)
Definition declares (decl : gmap (string * string) string) (sn : DocSnapshot) (f b : string) : Prop :=
  sn_deleted sn = false /\ is_Some (decl !! (mr_name (sn_model sn), f)) /\
  sn_fields sn !! f = Some (Str b) /\ b <> "".

Lemma elem_of_rels_for decl model f : f ∈ rels_for decl model <-> is_Some (decl !! (model, f)).
Proof.
  unfold rels_for. rewrite list_elem_of_fmap. split.
  - intros ([[m f'] t] & -> & [Hm Hin]%list_elem_of_filter). simpl in *. subst.
    rewrite sort_by_key_perm in Hin. apply elem_of_map_to_list in Hin. by eexists.
  - intros [t Ht]. exists ((model, f), t). split; [done|]. apply list_elem_of_filter.
    split; [done|]. rewrite sort_by_key_perm. by apply elem_of_map_to_list.
Qed.

Lemma target_of_Some sn f b : target_of sn f = Some b <-> sn_fields sn !! f = Some (Str b) /\ b <> "".
Proof.
  unfold target_of. destruct (sn_fields sn !! f) as [[]|]; simpl; try naive_solver.
  case_bool_decide; naive_solver.
Qed.

Lemma add_edge_other sn g f n : n <> sn_name sn -> add_edge sn g f !! n = g !! n.
Proof. intros Hne. unfold add_edge. case_match; [|done]. by rewrite lookup_insert_ne. Qed.

Lemma add_edge_fedge sn g f f' b :
  fedge (add_edge sn g f) (sn_name sn) f' b <->
  fedge g (sn_name sn) f' b \/ f' = f /\ target_of sn f = Some b.
Proof.
  unfold add_edge, fedge. destruct (target_of sn f) as [t|]; [|naive_solver].
  rewrite lookup_insert_eq. destruct (decide (f' = f)) as [->|Hne]; simpl.
  - split.
    + intros (? & s & [= <-] & Hs & Hb). rewrite lookup_insert_eq in Hs. injection Hs as <-.
      apply elem_of_union in Hb as [->%elem_of_singleton|Hb]; [by right|left].
      destruct (g !! sn_name sn) as [m|]; simpl in Hb;
        [|rewrite lookup_empty in Hb; simpl in Hb; set_solver].
      destruct (m !! f) as [s|] eqn:Es; simpl in Hb; [|set_solver]. by exists m, s.
    + intros Hb. eexists _, _. split; [done|]. rewrite lookup_insert_eq. split; [done|].
      destruct Hb as [(m & s & -> & Hs & Hb)|[_ [= ->]]]; [|set_solver].
      simpl. rewrite Hs. simpl. set_solver.
  - split.
    + intros (? & s & [= <-] & Hs & Hb). rewrite lookup_insert_ne in Hs by done. left.
      destruct (g !! sn_name sn) as [m|]; simpl in Hs; [by exists m, s|].
      by rewrite lookup_empty in Hs.
    + intros [(m & s & -> & Hs & Hb)|[? _]]; [|done]. eexists _, s. split; [done|].
      simpl. by rewrite lookup_insert_ne.
Qed.

Lemma add_edges_fedge sn fs g a f b :
  fedge (foldl (add_edge sn) g fs) a f b <->
  fedge g a f b \/ a = sn_name sn /\ f ∈ fs /\ target_of sn f = Some b.
Proof.
  revert g. induction fs as [|f' fs IH]; intros g; simpl; [set_solver|]. rewrite IH.
  destruct (decide (a = sn_name sn)) as [->|Hne].
  - rewrite add_edge_fedge. set_solver.
  - unfold fedge. rewrite add_edge_other by done. naive_solver.
Qed.

(** One snapshot replaces the edges of its name. *)
Lemma index_apply_fedge ix sn a f b :
  fedge (ri_edges (index_apply ix sn)) a f b <->
  if decide (a = sn_name sn) then a <> "" /\ declares (ri_decl ix) sn f b
  else fedge (ri_edges ix) a f b.
Proof.
  unfold index_apply; simpl. set (g := delete (sn_name sn) (ri_edges ix)).
  assert (Hg : forall f' b', fedge g (sn_name sn) f' b' <-> False).
  { intros f' b'. unfold fedge, g. rewrite lookup_delete_eq. naive_solver. }
  assert (Ho : a <> sn_name sn -> fedge g a f b <-> fedge (ri_edges ix) a f b).
  { intros Hne. unfold fedge, g. by rewrite lookup_delete_ne by done. }
  unfold declares. destruct (sn_deleted sn); simpl.
  { case_decide as E; [subst; rewrite Hg; naive_solver|by apply Ho]. }
  case_bool_decide as En.
  { case_decide as E; [subst; rewrite Hg; naive_solver|by apply Ho]. }
  rewrite add_edges_fedge, elem_of_rels_for, target_of_Some.
  case_decide as E; [subst; rewrite Hg; naive_solver|rewrite Ho by done; naive_solver].
Qed.

Lemma index_fold_decl l ix : ri_decl (foldl index_apply ix l) = ri_decl ix.
Proof. revert ix. induction l as [|sn l IH]; intros ix; [done|]. simpl. by rewrite IH. Qed.

(** The latest snapshot under a name. *)
Definition latest_named (a : string) (l : list DocSnapshot) : option DocSnapshot :=
  last (filter (fun sn => sn_name sn = a) l).

Lemma index_fold_fedge decl p l a f b :
  fedge (ri_edges (foldl index_apply (index_new decl p) l)) a f b <->
  exists sn, latest_named a l = Some sn /\ a <> "" /\ declares decl sn f b.
Proof.
  unfold latest_named. induction l as [|sn l IH] using rev_ind.
  { simpl. unfold fedge. rewrite lookup_empty. naive_solver. }
  rewrite foldl_snoc, index_apply_fedge, index_fold_decl, filter_app, filter_cons, filter_nil.
  cbn [ri_decl index_new]. destruct (decide (sn_name sn = a)) as [<-|Hne].
  - rewrite decide_True by done. rewrite last_snoc. naive_solver.
  - rewrite decide_False by congruence. rewrite app_nil_r. exact IH.
Qed.

Lemma elem_of_outgoing ix a f b : b ∈ outgoing ix a f <-> fedge (ri_edges ix) a f b.
Proof.
  unfold outgoing, fedge. destruct (ri_edges ix !! a) as [m|]; simpl; [|set_solver].
  destruct (m !! f) as [s|] eqn:E; simpl; [rewrite elem_of_set_iter|set_solver]. naive_solver.
Qed.

Lemma elem_of_incoming ix a f b : a ∈ incoming ix b f <-> fedge (ri_edges ix) a f b.
Proof.
  unfold incoming, fedge. rewrite sort_by_key_perm, list_elem_of_fmap. split.
  - intros ([a' m] & -> & [Hb Hin%elem_of_map_to_list]%list_elem_of_filter). simpl in *.
    destruct (m !! f) as [s|] eqn:E; simpl in Hb; [|set_solver]. by exists m, s.
  - intros (m & s & Hm & Hs & Hb). exists (a, m). split; [done|]. apply list_elem_of_filter.
    rewrite elem_of_map_to_list. simpl. by rewrite Hs.
Qed.

(** The relationship index refines the documents it was shown: after any
    sequence of snapshots, [b] is an outgoing target of [a] for a field, and
    [a] an incoming source of [b], exactly when the latest snapshot named [a]
    is of a live document whose declared relationship field names [b]. *)
Theorem index_refines_documents decl p l a f b :
  let ix := foldl index_apply (index_new decl p) l in
  (b ∈ outgoing ix a f <-> a ∈ incoming ix b f) /\
  (b ∈ outgoing ix a f <->
   exists sn, latest_named a l = Some sn /\ a <> "" /\ declares decl sn f b).
Proof.
  intros ix. rewrite elem_of_outgoing, elem_of_incoming. split; [done|]. apply index_fold_fedge.
Qed.

(** What the query service answers over an index that was shown [l]: strings
    only, and exactly the links of the latest snapshots, seen from either end. *)
Lemma service_links v decl p l :
  let q := {| qs_view := v; qs_index := Some (foldl index_apply (index_new decl p) l) |} in
  let linked a f b := exists sn, latest_named a l = Some sn /\ a <> "" /\ declares decl sn f b in
  forall f x, exists outs ins,
    service_outgoing q x f = Array (Str <$> outs) /\ service_incoming q x f = Array (Str <$> ins) /\
    (forall b, b ∈ outs <-> linked x f b) /\ (forall a, a ∈ ins <-> linked a f x).
Proof.
  intros q linked f x. eexists _, _. split; [reflexivity|]. split; [reflexivity|].
  split; intros y; rewrite ?elem_of_outgoing, ?elem_of_incoming; apply index_fold_fedge.
Qed.
