(* ===== verification/Feed.v ===== *)
(** A read model against the store it is derived from: the change feed carries
    every effective write, a coordinator that is primed and subscribed keeps
    the snapshot index equal to the store, and a query of the index answers
    what the stateless query of the store answers. *)

From stdpp Require Import base gmap strings numbers pretty list.
From Stdlib Require Import Strings.Byte Strings.Ascii.
From S2P Require Import Prelude Json Doc Sample Action Model Builtins Entry Redeliver Store StoreInv.
From S2P Require Import Scenario Text Fs ReadModel.

(** ** What an action does to the entries and to the feed *)

Section FeedLemmas.
Context `{Platform}.
Implicit Types (s : Inner) (a : Action) (e : Entry).

(** What a read model sees of an entry. *)
Definition shown e : Doc * ModelRef * bool := (e_doc e, e_model e, e_deleted e).

Lemma from_state_shown e e' ts :
  shown e = shown e' -> from_state (state_of e) ts = from_state (state_of e') ts.
Proof. unfold shown, from_state. simpl. by intros [= -> -> ->]. Qed.

(** The feed of the latest subscriber grows by [l]. *)
Definition feeds s s' (l : list DocChange) : Prop :=
  forall pre q, i_subscribers s = pre ++ [{| sub_open := true; sub_queue := q |}] ->
  exists pre', i_subscribers s' = pre' ++ [{| sub_open := true; sub_queue := q ++ l |}].

Lemma feeds_same s s' : i_subscribers s' = i_subscribers s -> feeds s s' [].
Proof. intros E pre q Hs. exists pre. by rewrite app_nil_r, E. Qed.

Lemma feeds_trans s1 s2 s3 l1 l2 : feeds s1 s2 l1 -> feeds s2 s3 l2 -> feeds s1 s3 (l1 ++ l2).
Proof.
  intros H1 H2 pre q (pre2 & E2)%H1. apply H2 in E2 as (pre3 & ->).
  exists pre3. by rewrite app_assoc.
Qed.

(** The bookkeeping before the emission leaves the subscribers alone. *)
Lemma bookkeeping_subscribers s a any :
  i_subscribers (sync_names (maybe_snapshot (persisted s a any) (a_doc_id a)) (a_doc_id a))
  = i_subscribers s.
Proof.
  unfold sync_names, maybe_snapshot, snapshot, persisted, queue_local.
  repeat case_match; done.
Qed.

(** The change announced for an entry. *)
Lemma emit_feeds s id e ts o :
  i_entries s !! id = Some e -> doc_id (e_doc e) = id ->
  exists c, feeds s (emit_change s id ts o) [c] /\
    from_change c = from_state (state_of e) ts.
Proof.
  intros E Hid. unfold emit_change. rewrite E. eexists. split.
  - intros pre q Hs. cbn [i_subscribers set_subscribers]. rewrite Hs, omap_app. simpl. by eexists.
  - unfold from_change, from_state; simpl. by rewrite Hid.
Qed.

(** Snapshotting an entry keeps what is shown of it. *)
Lemma maybe_snapshot_shown s id id' :
  shown <$> i_entries (maybe_snapshot s id) !! id' = shown <$> i_entries s !! id'.
Proof.
  unfold maybe_snapshot, snapshot. case_match; [|done]. case_match eqn:E; [|done]. simpl.
  destruct (decide (id' = id)) as [->|]; [by rewrite lookup_insert_eq, E|].
  by rewrite lookup_insert_ne.
Qed.

Lemma after_apply_shown s a any del id :
  shown <$> i_entries (after_apply s a any del) !! id = shown <$> i_entries s !! id.
Proof.
  destruct (after_apply_frame s a any del) as (-> & _). rewrite maybe_snapshot_shown.
  by destruct (persisted_frame s a any) as (-> & _).
Qed.

(** An accepted action announces the entry it leaves behind, unless it had no
    effect. *)
Lemma after_apply_feeds s a any del e :
  i_entries s !! a_doc_id a = Some e -> doc_id (e_doc e) = a_doc_id a ->
  let s' := after_apply s a any del in
  if any || del then exists c, feeds s s' [c] /\ from_change c = from_state (state_of e) (a_ts a)
  else feeds s s' [].
Proof.
  intros E Hid s'. unfold s', after_apply. fold (persisted s a any).
  set (t := sync_names _ _).
  assert (Ht : i_subscribers t = i_subscribers s) by apply bookkeeping_subscribers.
  destruct (any || del); [|by apply feeds_same].
  assert (He : exists e', i_entries t !! a_doc_id a = Some e' /\ shown e' = shown e).
  { destruct (sync_names_frame (maybe_snapshot (persisted s a any) (a_doc_id a)) (a_doc_id a))
      as (Et & _). fold t in Et. rewrite Et.
    pose proof (maybe_snapshot_shown (persisted s a any) (a_doc_id a) (a_doc_id a)) as Es.
    destruct (persisted_frame s a any) as (Ep & _). rewrite Ep, E in Es.
    destruct (i_entries (maybe_snapshot _ _) !! _) as [e'|]; [|done].
    exists e'. split; [done|]. by apply (inj Some). }
  destruct He as (e' & He & Hs). injection Hs as Hd Hm Hdel.
  destruct (emit_feeds t (a_doc_id a) e' (a_ts a) (Some a) He) as (c & Hc & Ec).
  { by rewrite Hd. }
  exists c. split.
  - intros pre q Hs. apply (Hc pre q). by rewrite Ht.
  - rewrite Ec. apply from_state_shown. unfold shown. by rewrite Hd, Hm, Hdel.
Qed.
End FeedLemmas.

(** ** Actions without effect *)

Section Noop.
Context `{Platform}.
Implicit Types (s : Inner) (a : Action) (e : Entry) (m : AnyModel).

Lemma merge_doc_any ops d del : (foldl merge_doc (d, del, true) ops).2 = true.
Proof.
  revert d del. induction ops as [|o ops IH]; intros d del; [done|]. cbn [foldl].
  unfold merge_doc at 2. destruct (apply_op d ∅ del o) as [[[? ?] ?] ?]. apply IH.
Qed.

Lemma merge_field_noop f k o : (merge_field f k o).2 = false -> (merge_field f k o).1 = f.
Proof. unfold merge_field. by repeat case_match. Qed.

(** A merge loop that reports no effect had none. *)
Lemma merge_doc_noop ops d del :
  (foldl merge_doc (d, del, false) ops).2 = false ->
  foldl merge_doc (d, del, false) ops = (d, del, false).
Proof.
  induction ops as [|o ops IH]; [done|]. cbn [foldl]. unfold merge_doc at 2 4, apply_op.
  destruct del; [apply IH|]. destruct (op_key o) as [k|]; simpl.
  - pose proof (merge_field_noop (doc_fields d) k o) as Hn.
    destruct (merge_field _ _ _) as [f []]; simpl in *; [by rewrite merge_doc_any|].
    rewrite Hn by done. unfold set_fields. destruct d. apply IH.
  - by rewrite merge_doc_any.
Qed.

Lemma apply_ops_noop e m a :
  unnamed_fields (e_doc e) -> (apply_ops_to_entry e m a).2.1 = false ->
  view (apply_ops_to_entry e m a).1 = view e.
Proof.
  intros Hu. rewrite apply_ops_spec. destruct reduce as [ops|]; [|done].
  pose proof (merge_doc_noop (restamp a <$> ops) (e_doc e) (e_deleted e)) as Hn.
  destruct foldl as [[d del] any]. simpl in *. intros ->.
  specialize (Hn eq_refl). injection Hn as -> ->. unfold view. simpl. by rewrite lift_name_id.
Qed.
End Noop.

(** ** The index follows the store *)

Section Tracking.
Context `{Platform} `{Uuid} `{!UuidLaws}.
Implicit Types (s : Inner) (a : Action) (e : Entry) (v : DocumentView).

(** An entry nothing was ever written to: what a refused first action leaves. *)
Definition blank e : Prop := shown e = (empty_doc (doc_id (e_doc e)) "", open_ref, false).

(** The index holds the state of every document, and nothing else; it may not
    know of blank entries. *)
Record tracks s v : Prop := {
  tr_sound : forall k sn, v_by_id v !! k = Some sn ->
    exists id e, i_entries s !! id = Some e /\ k = uuid_display id /\
      sn = from_state (state_of e) (sn_ts sn);
  tr_complete : forall id e, i_entries s !! id = Some e ->
    is_Some (v_by_id v !! uuid_display id) \/ blank e
}.

(** Whether the feed tells about the action: it is refused, or has an effect,
    or is an in-order repetition on a document of the same model. *)
Definition announced s a : bool :=
  match (apply_action a s).2 with
  | Err _ => true
  | Ok r =>
      applied r || doc_deleted r ||
      (negb (out_of_order s a) &&
       match i_entries s !! a_doc_id a with
       | Some e => bool_decide (e_model e = a_model a)
       | None => false
       end)
  end.

(** What is shown of the entries determines tracking. *)
Lemma tracks_ext s s' v :
  (forall id, shown <$> i_entries s' !! id = shown <$> i_entries s !! id) ->
  tracks s v -> tracks s' v.
Proof.
  intros E [Hs Hc]. split.
  - intros k sn (id & e & He & -> & Hsn)%Hs. specialize (E id). rewrite He in E.
    destruct (i_entries s' !! id) as [e'|] eqn:E'; [|done]. apply (inj Some) in E.
    exists id, e'. split_and!; [done..|]. by rewrite Hsn, (from_state_shown e' e) by done.
  - intros id e He. specialize (E id). rewrite He in E.
    destruct (i_entries s !! id) as [e'|] eqn:E'; [|done]. apply (inj Some) in E.
    destruct (Hc id e' E') as [Hi|Hb]; [by left|right]. unfold blank in *.
    injection E as E1 E2 E3. unfold shown in *. by rewrite E1, E2, E3.
Qed.

(** Applying the snapshot of a document's new state follows the write. *)
Lemma tracks_write s s' v id e ts :
  tracks s v -> i_entries s' !! id = Some e -> doc_id (e_doc e) = id ->
  (forall j, j <> id -> shown <$> i_entries s' !! j = shown <$> i_entries s !! j) ->
  tracks s' (view_apply v (from_state (state_of e) ts)).
Proof.
  intros [Hs Hc] He Hid Hj. split.
  - intros k sn. simpl. rewrite Hid. destruct (decide (k = uuid_display id)) as [->|Hne].
    + rewrite lookup_insert_eq. intros [= <-]. by exists id, e.
    + rewrite lookup_insert_ne by done. intros (j & e' & He' & -> & Hsn)%Hs.
      assert (j <> id) by (intros ->; done). specialize (Hj j ltac:(done)). rewrite He' in Hj.
      destruct (i_entries s' !! j) as [e2|] eqn:E2; [|done]. apply (inj Some) in Hj.
      exists j, e2. split_and!; [done..|]. by rewrite Hsn, (from_state_shown e2 e').
  - intros j e' He'. simpl. rewrite Hid. destruct (decide (j = id)) as [->|Hne].
    + left. rewrite lookup_insert_eq. by eexists.
    + rewrite lookup_insert_ne by (intros E; by apply uuid_display_inj in E).
      specialize (Hj j Hne). rewrite He' in Hj.
      destruct (i_entries s !! j) as [e2|] eqn:E2; [|done]. apply (inj Some) in Hj.
      destruct (Hc j e2 E2) as [?|Hb]; [by left|right]. unfold blank in *.
      injection Hj as F1 F2 F3. unfold shown in *. by rewrite F1, F2, F3.
Qed.

(** A new blank entry needs no announcement. *)
Lemma tracks_blank s v id :
  i_entries s !! id = None -> tracks s v -> tracks (put_entry s id (entry_new id)) v.
Proof.
  intros En [Hs Hc]. split; simpl.
  - intros k sn (j & e & He & ? & ?)%Hs. exists j, e. rewrite lookup_insert_ne; [done|congruence].
  - intros j e. destruct (decide (j = id)) as [->|Hne].
    + rewrite lookup_insert_eq. intros [= <-]. by right.
    + rewrite lookup_insert_ne by done. apply Hc.
Qed.

(** An in-order action without effect leaves what is shown of its document. *)
Lemma noop_shown s a m e :
  store_inv s -> i_entries s !! a_doc_id a = Some e -> e_model e = a_model a ->
  (apply_ops_to_entry e m a).2.1 = false -> shown (appended e m a) = shown e.
Proof.
  intros Hs He Hm Hn. pose proof (entry_at_inv s (a_doc_id a) Hs) as Hinv.
  unfold entry_at in Hinv. rewrite He in Hinv. simpl in Hinv.
  pose proof (appended_view e m a) as Hv.
  rewrite (apply_ops_noop e m a (inv_unnamed _ _ _ Hinv) Hn) in Hv.
  assert (E : shown (appended e m a) =
    ((view (appended e m a)).1, a_model a, (view (appended e m a)).2)) by done.
  by rewrite E, Hv, <- Hm.
Qed.

Lemma put_entry_shown s id e j :
  j <> id -> shown <$> i_entries (put_entry s id e) !! j = shown <$> i_entries s !! j.
Proof. intros Hne. simpl. by rewrite lookup_insert_ne. Qed.

(** The feed and the entries after one action. *)
Lemma apply_tracked s a v :
  store_inv s -> announced s a = true -> tracks s v ->
  exists l, feeds s (apply_action a s).1 l /\
    tracks (apply_action a s).1 (foldl (fun v c => view_apply v (from_change c)) v l).
Proof.
  intros Hs Han Ht. unfold announced in Han. rewrite apply_action_eq in *.
  destruct (admission s a) as [m|] eqn:Ad; [|exists []; split; [by apply feeds_same|];
    by eapply tracks_ext; [|exact Ht]].
  apply admission_ok in Ad. set (id := a_doc_id a) in *. cbn zeta in *.
  destruct (check_precondition m (e_doc (entry_at s id)) a) as [[]|r] eqn:Hp.
  - destruct (settled_entry_inv s a m Hs Ad Hp) as (e' & Hse & _ & Hinv).
    rewrite Hse in *. fold id in Hinv. pose proof (inv_id _ _ _ Hinv) as Hid.
    set (fl := (apply_ops_to_entry (entry_at s id) m a).2) in *. cbn [fst snd] in *.
    set (t := put_entry s id e') in *.
    assert (Et : i_entries t !! id = Some e') by (simpl; by rewrite lookup_insert_eq).
    pose proof (after_apply_feeds t a fl.1 fl.2 e' Et Hid) as Hf. cbn [applied doc_deleted] in Han.
    destruct (fl.1 || fl.2) eqn:Efl; simpl in Han.
    + destruct Hf as (c & Hc & Ec). exists [c]. split; [exact Hc|]. cbn [foldl]. rewrite Ec.
      eapply tracks_ext; [intros j; apply (after_apply_shown t a fl.1 fl.2 j)|].
      by eapply tracks_write; [exact Ht|exact Et|done|apply put_entry_shown].
    + exists []. split; [exact Hf|]. apply andb_true_iff in Han as [Ho Hm].
      apply negb_true_iff in Ho. apply orb_false_iff in Efl as [Ea _].
      unfold settled_entry in Hse. rewrite Ho in Hse. injection Hse as <-.
      destruct (i_entries s !! id) as [e|] eqn:Ee; [|done]. apply bool_decide_eq_true in Hm.
      assert (Eat : entry_at s id = e) by (unfold entry_at; by rewrite Ee).
      unfold fl in Ea. rewrite Eat in Ea.
      eapply tracks_ext; [|exact Ht]. intros j. rewrite after_apply_shown. unfold t. simpl.
      fold id. rewrite Eat. destruct (decide (j = id)) as [->|Hne]; [|by rewrite lookup_insert_ne].
      rewrite lookup_insert_eq, Ee. simpl. f_equal. by apply (noop_shown s).
  - exists []. split; [by apply feeds_same|]. simpl.
    apply (tracks_ext (put_entry s id (entry_at s id))); [by intros j|]. unfold entry_at. destruct (i_entries s !! id) as [e|] eqn:Ee; simpl; [|by apply tracks_blank].
    eapply tracks_ext; [|exact Ht]. intros j. simpl. by rewrite insert_id.
Qed.
End Tracking.

(** ** Coordinators *)

Section Coordination.
Context `{Platform} `{Uuid} `{!UuidLaws} `{!Serde (list DocSnapshot)}.
Implicit Types (s : Inner) (a : Action) (e : Entry) (v : DocumentView).

(** Actions applied one after the other. *)
Definition deliver s (l : list Action) : Inner := foldl (fun s a => (apply_action a s).1) s l.
Fixpoint announced_run s (l : list Action) : bool :=
  match l with
  | [] => true
  | a :: l' => announced s a && announced_run (apply_action a s).1 l'
  end.

Lemma doc_ids_spec s id : id ∈ doc_ids s <-> is_Some (i_entries s !! id).
Proof.
  unfold doc_ids, sorted_keys. rewrite sort_by_key_perm, list_elem_of_fmap. split.
  - intros ([j e] & -> & Hj%elem_of_map_to_list). by exists e.
  - intros [e He]. exists (id, e). split; [done|]. by apply elem_of_map_to_list.
Qed.

Lemma drive_view v feed :
  drive [v] feed = [foldl (fun v c => view_apply v (from_change c)) v feed].
Proof. revert v. induction feed as [|c feed IH]; intros v; [done|]. apply IH. Qed.

Lemma run_tracked s v l :
  store_inv s -> announced_run s l = true -> tracks s v ->
  exists feed, feeds s (deliver s l) feed /\
    tracks (deliver s l) (foldl (fun v c => view_apply v (from_change c)) v feed).
Proof.
  revert s v. induction l as [|a l IH]; intros s v Hs Han Ht; simpl in *.
  - exists []. split; [by apply feeds_same|done].
  - apply andb_true_iff in Han as [Ha Hl].
    destruct (apply_tracked s a v Hs Ha Ht) as (l1 & F1 & T1).
    destruct (IH _ _ (store_inv_apply a s Hs) Hl T1) as (l2 & F2 & T2).
    exists (l1 ++ l2). split; [by eapply feeds_trans|]. by rewrite foldl_app.
Qed.

(** Priming, on the single view: the snapshot of every document is applied. *)
Lemma prime_ids_view s ids v :
  store_inv s -> (forall id, id ∈ ids -> is_Some (i_entries s !! id)) ->
  exists v', foldl (prime_one s) [v] ids = [v'] /\
    (forall k sn, v_by_id v' !! k = Some sn -> v_by_id v !! k = Some sn \/
      exists id e, i_entries s !! id = Some e /\ k = uuid_display id /\
        sn = from_state (state_of e) (sn_ts sn)) /\
    (forall k, is_Some (v_by_id v !! k) -> is_Some (v_by_id v' !! k)) /\
    (forall id, id ∈ ids -> is_Some (v_by_id v' !! uuid_display id)).
Proof.
  intros Hs. revert v. induction ids as [|id ids IH]; intros v Hids.
  { exists v. split_and!; [done|by left|done|]. by intros id ?%elem_of_nil. }
  destruct (Hids id ltac:(left)) as [e He]. pose proof (inv_entries _ Hs id) as Hinv.
  rewrite He in Hinv. pose proof (inv_id _ _ _ Hinv) as Hid.
  destruct (IH (view_apply v (from_state (state_of e) 0))) as (v' & E & S1 & S2 & S3).
  { intros j Hj. apply Hids. by right. }
  assert (Hput : v_by_id (view_apply v (from_state (state_of e) 0)) =
                 <[uuid_display id := from_state (state_of e) 0]> (v_by_id v)).
  { simpl. by rewrite Hid. }
  rewrite Hput in S1, S2. exists v'. split_and!.
  - rewrite <- E. simpl. unfold prime_one at 2, full_state. by rewrite He.
  - intros k sn [Hk|?]%S1; [|by right]. apply lookup_insert_Some in Hk as [[<- <-]|[_ ?]];
      [right; by exists id, e|by left].
  - intros k Hk. apply S2. destruct (decide (k = uuid_display id)) as [->|];
      [rewrite lookup_insert_eq; by eexists|by rewrite lookup_insert_ne].
  - intros j [->|Hj]%elem_of_cons; [|by apply S3]. apply S2. rewrite lookup_insert_eq. by eexists.
Qed.

Lemma prime_tracks s p :
  store_inv s -> exists v, prime s [view_new p] = [v] /\ tracks s v.
Proof.
  intros Hs. destruct (prime_ids_view s (doc_ids s) (view_new p) Hs) as (v & E & S1 & _ & S3).
  { intros id. apply doc_ids_spec. }
  exists v. split; [exact E|]. split.
  - intros k sn [Hk|?]%S1; [|done]. by apply (lookup_empty_Some k sn) in Hk.
  - intros id e He. left. apply S3, doc_ids_spec. by eexists.
Qed.

Lemma subscribe_tracks s v : tracks s v -> tracks (subscribe_changes s) v.
Proof. apply tracks_ext. by intros id. Qed.

Lemma subscribe_inv s : store_inv s -> store_inv (subscribe_changes s).
Proof. intros Hs. eapply store_inv_ext; [..|exact Hs]; try done. apply (inv_names _ Hs). Qed.

(** ** Queries of the index and of the store *)

(** The row the core crate answers with, from a snapshot. *)
Definition snapshot_row (sn : DocSnapshot) : Value :=
  json_obj [("id", Str (uuid_display (sn_doc_id sn))); ("name", Str (sn_name sn));
            ("model", Str (mr_name (sn_model sn))); ("fields", fields_json (sn_fields sn))].
Definition doc_filter (f : FieldFilter) : DocFilter :=
  {| df_field := ff_field f; df_value := ff_value f |}.

(** A query that cannot match a document nothing was written to. *)
Definition selective (model : string) (f : option FieldFilter) : Prop :=
  model <> "" /\ model <> "open" \/ f <> None.

Lemma query_doc_selects s model f id e ts :
  i_entries s !! id = Some e ->
  query_doc s model f id =
  if selects model (doc_filter <$> f) (from_state (state_of e) ts)
  then Some (snapshot_row (from_state (state_of e) ts)) else None.
Proof.
  intros He. unfold query_doc, full_state. rewrite He. unfold selects. simpl.
  destruct (e_deleted e); [done|]. simpl. rewrite <- negb_orb.
  destruct (bool_decide (model = "") || _); [|done]. simpl.
  destruct f as [f|]; [|done]. simpl. rewrite lookup_fmap.
  destruct (doc_fields (e_doc e) !! ff_field f) as [x|]; [|done]. simpl. by case_bool_decide.
Qed.

Lemma blank_unselected e model f ts :
  blank e -> selective model f ->
  selects model (doc_filter <$> f) (from_state (state_of e) ts) = false.
Proof.
  intros [= Ed Em Edel] Hsel. assert (Ef : doc_fields (e_doc e) = ∅) by (by rewrite Ed).
  unfold selects. simpl. rewrite Em, Ef.
  destruct Hsel as [[H1' H2']|Hf].
  - rewrite (bool_decide_eq_false_2 (model = "")), (bool_decide_eq_false_2 (_ = model)) by
      (simpl; congruence). simpl. by rewrite andb_false_r.
  - destruct f as [f|]; [|done]. simpl. rewrite fmap_empty, lookup_empty. by rewrite andb_false_r.
Qed.

Lemma omap_select {A B C} (g : A -> option B) (P : B -> bool) (row : B -> C)
    (h : A -> option C) (l : list A) :
  (forall x, x ∈ l -> h x = g x ≫= fun b => if P b then Some (row b) else None) ->
  row <$> filter (fun b => P b = true) (omap g l) = omap h l.
Proof.
  induction l as [|x l IH]; intros Hh; [done|]. simpl. rewrite Hh by left.
  assert (IH' : row <$> filter (fun b => P b = true) (omap g l) = omap h l).
  { apply IH. intros y Hy. apply Hh. by right. }
  destruct (g x) as [b|]; simpl; [|done]. rewrite filter_cons.
  destruct (P b) eqn:Eb; [rewrite decide_True by done|rewrite decide_False by congruence];
    [|exact IH']. rewrite fmap_cons. f_equal. exact IH'.
Qed.

(** The snapshots of a tracking index, in the order of the store's ids. *)
Lemma tracked_snapshots s v :
  tracks s v -> snapshots v ≡ₚ omap (fun id => v_by_id v !! uuid_display id) (doc_ids s).
Proof.
  intros [Hs Hc]. unfold snapshots.
  set (g := fun id => (fun sn => (uuid_display id, sn)) <$> v_by_id v !! uuid_display id).
  assert (E : omap (fun id => v_by_id v !! uuid_display id) (doc_ids s) = (omap g (doc_ids s)).*2).
  { unfold g. induction (doc_ids s) as [|id l IH]; [done|]. simpl.
    destruct (v_by_id v !! uuid_display id); simpl; [f_equal|]; exact IH. }
  rewrite E. f_equiv. apply NoDup_Permutation.
  - apply NoDup_map_to_list.
  - assert (Hn : NoDup (doc_ids s)).
    { unfold doc_ids, sorted_keys. rewrite sort_by_key_perm. apply NoDup_fst_map_to_list. }
    clear E. induction Hn as [|id l Hni _ IH]; simpl; [constructor|].
    destruct (g id) as [p|] eqn:Eg; [|done]. constructor; [|done].
    intros (j & Hj & Ej)%list_elem_of_omap. unfold g in Eg, Ej.
    destruct (v_by_id v !! uuid_display id), (v_by_id v !! uuid_display j); try done.
    simpl in Eg, Ej. injection Eg as <-. injection Ej as Ej _.
    apply uuid_display_inj in Ej. by subst.
  - intros [k sn]. rewrite elem_of_map_to_list, list_elem_of_omap. split.
    + intros Hk. destruct (Hs _ _ Hk) as (id & e & He & -> & _). exists id. unfold g.
      split; [apply doc_ids_spec; by eexists|]. by rewrite Hk.
    + unfold g. intros (id & _ & E2). destruct (v_by_id v !! uuid_display id) eqn:Ev; [|done].
      by simplify_eq/=.
Qed.

Lemma find_rows s v model f :
  tracks s v -> selective model f ->
  snapshot_row <$> find v model (doc_filter <$> f) ≡ₚ query_docs s model f.
Proof.
  intros Ht Hsel. unfold find, query_docs. rewrite !sort_by_key_perm, (tracked_snapshots s v Ht).
  erewrite omap_select; [done|]. intros id Hid%doc_ids_spec. destruct Hid as [e He].
  destruct (tr_complete _ _ Ht id e He) as [[sn Hsn]|Hb].
  - rewrite Hsn. simpl. destruct (tr_sound _ _ Ht _ _ Hsn) as (j & e' & He' & Hj & ->).
    apply uuid_display_inj in Hj as <-. rewrite He in He'. injection He' as <-.
    by apply query_doc_selects.
  - rewrite (query_doc_selects _ _ _ _ _ 0 He). rewrite blank_unselected by done.
    destruct (v_by_id v !! uuid_display id) as [sn|] eqn:Hsn; [|done]. simpl.
    destruct (tr_sound _ _ Ht _ _ Hsn) as (j & e' & He' & Hj & Esn).
    apply uuid_display_inj in Hj as <-. rewrite He in He'. injection He' as <-.
    rewrite Esn. by rewrite blank_unselected.
Qed.

End Coordination.

(** ** Concrete runs *)

(** The chat channel with Bob's and Alice's posts, followed by a view. *)
Section Run.
#[local] Instance no_file : Serde (list DocSnapshot) :=
  {| to_json := fun _ => []; from_json := fun _ => Err "" |}.


(** Alice takes Bob in again, after his post. *)
Definition add_bob : Action :=
  sent alice_key "alice" 200 group "add-member" (json_obj [("member", Str "bob")]) 3010
    (<["alice" := 3%N]> ∅) None.
Definition busy_group : Inner := deliver (subscribe_changes group_node) [group_post; add_bob].

(** The feed does not tell about every change: when Alice's removal of Bob
    arrives after his post and after his return, it changes no field by
    itself, but the re-fold drops the post; no subscriber is told, and the
    index still shows a message the store no longer has. *)
Theorem silent_refold :
  texts busy_group 200 = [Str "hi"] /\
  is_ok (apply_action remove_bob busy_group).2 = true /\
  texts (apply_action remove_bob busy_group).1 200 = [] /\
  (fun sub => length (sub_queue sub)) <$> i_subscribers (apply_action remove_bob busy_group).1
  = (fun sub => length (sub_queue sub)) <$> i_subscribers busy_group /\
  announced busy_group remove_bob = false.
Proof. split_and!; vm_compute; reflexivity. Qed.

(** A field that was deleted is still answered by queries, as [null]. *)
Definition note_node : Inner :=
  run (create_doc (fun i => 4000 + N.of_nat i)%N 300 "memo" {[ "status" := Str "open" ]}) node2.
Definition erased_node : Inner := run (delete_field 4100 "memo" "status") note_node.
Theorem deleted_field_is_queried :
  let f := {| ff_field := "status"; ff_value := Null |} in
  (get_doc erased_node "memo" ≫= fun d => doc_fields d !! "status") = None /\
  length (query_docs erased_node "open" (Some f)) = 1.
Proof. split; vm_compute; reflexivity. Qed.
End Run.
