(* ===== verification/CatchUp.v ===== *)
(** Two engines in conversation: a node that is behind on a document hears of
    it in the handshake, asks for what it lacks, and ends with the document of
    the node that answered.

    The messages between the two are the ones their handlers send
    (src/p2p/mod.rs); the answer is the one [serve_request] makes. *)

From stdpp Require Import base gmap strings numbers pretty list.
From Stdlib Require Import Strings.Byte Strings.Ascii.
From S2P Require Import Prelude Json Doc Sample Action Model Builtins Entry Store StoreInv StoreProps.
From S2P Require Import Text Cosign Invite Blob Codec Engine EngineProps Sync Feed.

(** ** The store that receives *)

Section Receive.
Context `{Platform}.
Implicit Types (s : Inner) (a : Action) (e : Entry) (m : AnyModel).

(** Stores that differ only in document [id] (and in bookkeeping). *)
Record apart (id : DocId) s s' : Prop := {
  ap_models : i_models s' = i_models s;
  ap_keys : i_known_keys s' = i_known_keys s;
  ap_entries : forall j, j <> id -> i_entries s' !! j = i_entries s !! j
}.
Lemma apart_refl id s : apart id s s.
Proof. by split. Qed.
Lemma apart_trans id s1 s2 s3 : apart id s1 s2 -> apart id s2 s3 -> apart id s1 s3.
Proof. intros [M1 K1 E1] [M2 K2 E2]. split; [congruence|congruence|]. intros j Hj. by rewrite E2, E1. Qed.

(** The checks of an action that do not look at its own document: signatures
    under pinned keys, the payload, the quorum and the space list. *)
Definition vouched s a : Prop :=
  exists m, reg_find (i_models s) (a_model a) = Some m /\
    validate_payload m (a_kind a) (a_payload a) = Ok tt /\
    forall s', apart (a_doc_id a) s s' ->
      check_origin s' a = Ok tt /\ check_cosigs s' a 0 (a_cosig a) = Ok tt /\
      check_quorum s' m a = Ok tt /\ check_space_member s' m a = Ok tt.

(** The entry an accepted action leaves, at the end of the bookkeeping. *)
Lemma after_apply_entry_at s a any del e :
  i_entries s !! a_doc_id a = Some e ->
  let s' := after_apply s a any del in
  view (entry_at s' (a_doc_id a)) = view e /\ e_space (entry_at s' (a_doc_id a)) = e_space e /\
  (e_log (entry_at s' (a_doc_id a)) = e_log e \/ e_log (entry_at s' (a_doc_id a)) = []) /\
  apart (a_doc_id a) s s'.
Proof.
  intros E s'. destruct (after_apply_frame s a any del) as (Ee & _ & (Em & Ek & _) & _). fold s' in Ee, Em, Ek.
  destruct (persisted_frame s a any) as (Ep & _).
  assert (Hat : i_entries s' !! a_doc_id a = Some e \/ i_entries s' !! a_doc_id a = Some (set_log e [])).
  { rewrite Ee. unfold maybe_snapshot. rewrite Ep, E. cbn [fmap option_fmap option_map default].
    destruct (_ <=? _)%N; [right|left; by rewrite Ep]. unfold snapshot. rewrite Ep, E. cbn. apply lookup_insert_eq. }
  assert (Hj : forall j, j <> a_doc_id a -> i_entries s' !! j = i_entries s !! j).
  { intros j Hj. rewrite Ee. unfold maybe_snapshot. destruct (_ <=? _)%N; [|by rewrite Ep].
    unfold snapshot. rewrite Ep, E. cbn. rewrite lookup_insert_ne by done. by rewrite Ep. }
  unfold entry_at. destruct Hat as [-> | ->]; cbn; (split_and!; [done|done|tauto|by split]).
Qed.

(** An action that arrives in order is folded exactly as the canonical fold
    does it: merged when its conditions hold on the document, skipped when
    they do not. *)
Lemma apply_as_fold s a id sp :
  a_doc_id a = id -> vouched s a -> out_of_order s a = false ->
  (e_log (entry_at s id) <> [] -> e_space (entry_at s id) = sp) -> a_space a = sp ->
  let s' := (apply_action a s).1 in
  view (entry_at s' id) = view (canon_step (i_models s) (entry_at s id) a) /\
  apart id s s' /\
  (forall l, last (e_log (entry_at s' id)) = Some l -> l = a \/ last (e_log (entry_at s id)) = Some l) /\
  (e_log (entry_at s' id) <> [] -> e_space (entry_at s' id) = sp).
Proof.
  intros <- (m & Hm & Hv & Hs) Hoo Hsp Ha s'. set (id := a_doc_id a) in *.
  destruct (Hs s (apart_refl _ s)) as (C1 & C2 & C3 & C4).
  assert (C5 : check_space_binding s a = Ok tt).
  { unfold check_space_binding, entry_at in *. fold id. destruct (i_entries s !! id) as [e|]; [|done]. cbn in Hsp.
    case_bool_decide as El; [done|]. by rewrite Hsp, Ha, bool_decide_eq_true_2. }
  unfold canon_step. rewrite Hm. unfold refold_step, s'. rewrite apply_action_eq. fold id.
  assert (Hadm : authorize m (e_doc (entry_at s id)) a = Ok tt -> admission s a = Ok m).
  { intros Hau. apply admission_ok. split; try done. unfold check_authorized, entry_at in *. fold id.
    destruct (i_entries s !! id); [|done]. cbn in Hau. by rewrite Hau. }
  destruct (authorize m (e_doc (entry_at s id)) a) as [[]|r] eqn:Eau.
  2: { assert (Hno : admission s a = Err (describe r)).
       { unfold admission. rewrite C1. cbn. rewrite C2. cbn. rewrite Hm. cbn. rewrite Hv. cbn. rewrite C3. cbn.
         unfold check_authorized. fold id. unfold entry_at in Eau. destruct (i_entries s !! id) as [e|]; cbn in Eau.
         - by rewrite Eau.
         - by rewrite authorize_empty in Eau. }
       rewrite Hno, andb_false_r. cbn [fst]. split_and!; [done|by split|by right|done]. }
  rewrite (Hadm eq_refl). cbv zeta. cbn [is_ok]. rewrite andb_true_r.
  destruct (check_precondition m (e_doc (entry_at s id)) a) as [[]|r] eqn:Ep; cbn [is_ok].
  2: { cbn [fst]. assert (Ea : entry_at (quarantine (put_entry s id (entry_at s id))) id = entry_at s id).
       { unfold entry_at at 1. cbn. by rewrite lookup_insert_eq. }
       rewrite Ea. split_and!; [done| |by right|done]. split; [done|done|]. intros j Hj. cbn. by apply lookup_insert_ne. }
  unfold settled_entry. fold id. rewrite Hoo. cbn [fst].
  set (e' := appended (entry_at s id) m a).
  destruct (after_apply_entry_at (put_entry s id e') a (apply_ops_to_entry (entry_at s id) m a).2.1
    (apply_ops_to_entry (entry_at s id) m a).2.2 e') as (V & S & L & A).
  { cbn. apply lookup_insert_eq. }
  fold id in V, S, L, A. set (t := after_apply _ _ _ _) in *. split_and!.
  - rewrite V. unfold e'. rewrite appended_view. done.
  - eapply apart_trans; [|exact A]. split; [done|done|]. intros j Hj. cbn. by apply lookup_insert_ne.
  - intros l Hl. destruct L as [L|L]; rewrite L in Hl; [|done]. unfold e' in Hl. rewrite appended_log, last_snoc in Hl.
    injection Hl as <-. by left.
  - intros _. rewrite S. unfold e'. rewrite appended_space. case_bool_decide as El; [done|by apply Hsp].
Qed.
End Receive.

(** ** A run of actions *)

Section Batch.
Context `{Platform}.
Implicit Types (s : Inner) (a : Action) (e : Entry) (m : AnyModel).

Lemma sorted_front {A K} `{TotalOrd K} (key : A -> K) l k : sorted_by key (l ++ k) -> sorted_by key l.
Proof.
  revert l. induction k as [|x k IH]; intros l; [by rewrite app_nil_r|]. rewrite cons_middle, app_assoc.
  intros Hs%IH. by apply sorted_by_snoc in Hs as [Hs _].
Qed.
Lemma sorted_before {A K} `{TotalOrd K} (key : A -> K) p x q y :
  sorted_by key ((p ++ [x]) ++ q) -> y ∈ p -> ord_leb (key y) (key x) = true.
Proof. intros Hs%sorted_front%sorted_by_snoc Hy. destruct Hs as [_ Hs]. by eapply Forall_forall in Hs. Qed.

Definition receive s (q : list Action) : Inner := foldl (fun s a => (apply_action a s).1) s q.

(** [s] holds the fold of [p], a beginning of a log of document [id] in space
    [sp]. *)
Record holds id sp r (p : list Action) s : Prop := {
  ho_view : view (entry_at s id) = view (foldl (canon_step r) (entry_new id) p);
  ho_last : forall l, last (e_log (entry_at s id)) = Some l -> l ∈ p;
  ho_space : e_log (entry_at s id) <> [] -> e_space (entry_at s id) = sp
}.

Lemma vouched_apart id s s' a : a_doc_id a = id -> apart id s s' -> vouched s a -> vouched s' a.
Proof.
  intros <- Ha (m & Hm & Hv & Hs). exists m. split_and!; [by rewrite (ap_models _ _ _ Ha)|done|].
  intros s2 H2. apply Hs. by eapply apart_trans.
Qed.

(** Whatever becomes of an action, only its document is touched. *)
Lemma applied_apart s a : apart (a_doc_id a) s (apply_action a s).1.
Proof.
  rewrite apply_action_eq. destruct (admission s a) as [m|]; [|by split]. cbv zeta.
  destruct (check_precondition _ _ _).
  - destruct (settled_entry s m a) as [e'|].
    + destruct (after_apply_entry_at (put_entry s (a_doc_id a) e') a (apply_ops_to_entry (entry_at s (a_doc_id a)) m a).2.1
        (apply_ops_to_entry (entry_at s (a_doc_id a)) m a).2.2 e') as (_ & _ & _ & A); [cbn; apply lookup_insert_eq|].
      cbn [fst]. eapply apart_trans; [|exact A]. split; [done|done|]. intros j Hj. cbn. by apply lookup_insert_ne.
    + split; [done|done|]. intros j Hj. cbn. by apply lookup_insert_ne.
  - split; [done|done|]. intros j Hj. cbn. by apply lookup_insert_ne.
Qed.

Lemma receive_folds id sp p q s :
  sorted_by canon_key (p ++ q) ->
  Forall (fun a => a_doc_id a = id /\ a_space a = sp /\ vouched s a) q ->
  holds id sp (i_models s) p s ->
  holds id sp (i_models s) (p ++ q) (receive s q) /\ apart id s (receive s q).
Proof.
  revert p s. induction q as [|a q IH]; intros p s Hso Hq Hh.
  { rewrite app_nil_r. split; [done|apply apart_refl]. }
  apply Forall_cons in Hq as [(Hid & Hsp & Hv) Hq]. cbn [receive foldl].
  rewrite cons_middle, app_assoc in Hso |- *.
  assert (Hoo : out_of_order s a = false).
  { unfold out_of_order. rewrite Hid. destruct (i_entries s !! id) as [e|] eqn:Ee; [|done]. cbn.
    destruct (last (e_log e)) as [l|] eqn:El; [|done].
    assert (Hl : l ∈ p) by (apply (ho_last _ _ _ _ _ Hh); unfold entry_at; by rewrite Ee).
    apply ord_not_ltb_leb. by eapply sorted_before. }
  destruct (apply_as_fold s a id sp Hid Hv Hoo (ho_space _ _ _ _ _ Hh) Hsp) as (V & A & L & S).
  set (s1 := (apply_action a s).1) in *. fold (receive s1 q).
  assert (Hm : i_models s1 = i_models s) by apply A. rewrite <- Hm.
  destruct (IH (p ++ [a]) s1 Hso) as [Hh1 Ha1].
  - eapply Forall_impl; [exact Hq|]. intros b (B1 & B2 & B3). split_and!; [done|done|]. by eapply vouched_apart.
  - split.
    + rewrite V, Hm, foldl_snoc. apply canon_step_view, Hh.
    + intros l Hl. apply elem_of_app. destruct (L l Hl) as [->|Hl']; [right; by apply list_elem_of_singleton|left].
      by apply (ho_last _ _ _ _ _ Hh).
    + exact S.
  - split; [exact Hh1|]. by eapply apart_trans.
Qed.
End Batch.

(** ** The document of the other node *)

Section Agree.
Context `{Platform}.
Implicit Types (s : Inner) (a : Action) (e : Entry).

Definition no_snapshot s (id : DocId) : Prop := dk_snaps (i_disk s) !! id = None.

(** [sa] holds a beginning of the log [sb] holds, [q] is the rest, and [sa]
    has the keys, models, groups and spaces to check it. *)
Record behind (id : DocId) sa sb (q : list Action) : Prop := {
  bh_a : store_inv sa;
  bh_b : store_inv sb;
  bh_snap_a : no_snapshot sa id;
  bh_snap_b : no_snapshot sb id;
  bh_log : e_log <$> i_entries sb !! id = Some (e_log (entry_at sa id) ++ q);
  bh_doc : Forall (fun a => a_doc_id a = id) q;
  bh_models : forall a, a ∈ e_log (entry_at sa id) ++ q ->
                reg_find (i_models sa) (a_model a) = reg_find (i_models sb) (a_model a);
  bh_vouched : Forall (vouched sa) q
}.

Lemma canon_fold_ext (r r' : ModelRegistry) l e :
  (forall a, a ∈ l -> reg_find r (a_model a) = reg_find r' (a_model a)) ->
  foldl (canon_step r) e l = foldl (canon_step r') e l.
Proof.
  revert e. induction l as [|a l IH]; intros e Hl; [done|]. cbn [foldl]. unfold canon_step at 2 4.
  rewrite <- Hl by left. apply IH. intros b Hb. apply Hl. by right.
Qed.

Lemma entry_fold s id e :
  store_inv s -> no_snapshot s id -> i_entries s !! id = Some e ->
  view e = view (foldl (canon_step (i_models s)) (entry_new id) (e_log e)) /\ sorted_by canon_key (e_log e) /\
  forall a, a ∈ e_log e -> a_space a = e_space e.
Proof.
  intros Hs Hn He. pose proof (inv_entries _ Hs id) as Hi. rewrite He in Hi. split_and!.
  - rewrite (inv_view _ _ _ Hi), Hn. unfold canonical. by rewrite sort_by_key_id by apply Hi.
  - apply Hi.
  - by apply (inv_space _ _ _ Hi).
Qed.

Lemma behind_agrees id sa sb q :
  behind id sa sb q ->
  view (entry_at (receive sa q) id) = view (entry_at sb id) /\ apart id sa (receive sa q).
Proof.
  intros [Ia Ib Na Nb Hl Hd Hm Hv]. destruct (i_entries sb !! id) as [eb|] eqn:Eb; [|done].
  cbn in Hl. injection Hl as Hl. unfold entry_at at 2. rewrite Eb. cbn [default from_option]. change (view (Datatypes.id eb)) with (view eb).
  destruct (entry_fold sb id eb Ib Nb Eb) as (Vb & Sb & Pb). set (p := e_log (entry_at sa id)) in *.
  assert (Hh : holds id (e_space eb) (i_models sa) p sa).
  { destruct (i_entries sa !! id) as [ea|] eqn:Ea.
    - assert (Et : entry_at sa id = ea) by (unfold entry_at; by rewrite Ea). unfold p in *. rewrite Et in *.
      destruct (entry_fold sa id ea Ia Na Ea) as (Va & _ & Pa). split; rewrite Et; [done| |].
      + intros l Hlast. by apply last_Some_elem_of in Hlast.
      + intros Hne. destruct (e_log ea) as [|a l] eqn:El; [done|].
        rewrite <- (Pa a), <- (Pb a); [done|rewrite Hl; left|left].
    - assert (Et : entry_at sa id = entry_new id) by (unfold entry_at; by rewrite Ea). unfold p. split; by rewrite Et. }
  rewrite Hl in Sb. destruct (receive_folds id (e_space eb) p q sa Sb) as [Hr Hap]; [|done|].
  - apply Forall_forall. intros a Ha. split_and!; [by eapply Forall_forall in Hd| |by eapply Forall_forall in Hv].
    apply Pb. rewrite Hl. apply elem_of_app. by right.
  - split; [|done]. rewrite (ho_view _ _ _ _ _ Hr), Vb, Hl. f_equal. by apply canon_fold_ext.
Qed.
End Agree.

(** ** The conversation *)

Section Conversation.
Context `{Platform, Net} (show_hash : Hash32 -> string).
Implicit Types (g : SyncEngine) (rt : DriveRuntime).

(** A drive leads to the peer. *)
Definition linked_to g (peer : PeerId) : Prop :=
  exists n rt, g_drives g !! n = Some rt /\ r_peer rt = peer.

Lemma linked_named g peer : linked_to g peer ->
  exists n rt, drive_name_by_peer g peer = Some n /\ g_drives g !! n = Some rt.
Proof.
  intros (n & rt & Hn & Hp). unfold drive_name_by_peer.
  destruct (find _ (map_to_list (g_drives g))) as [[n' rt']|] eqn:Ef.
  - exists n', rt'. split; [done|]. apply find_some in Ef as [Hin _]. apply elem_of_map_to_list. by apply list_elem_of_In.
  - exfalso. assert (Hin : In (n, rt) (map_to_list (g_drives g))) by (by apply list_elem_of_In, elem_of_map_to_list).
    apply (find_none _ _ Ef) in Hin. cbn in Hin. by apply bool_decide_eq_false in Hin.
Qed.
Lemma on_drive_linked g n f peer :
  (forall rt, r_peer (f rt) = r_peer rt) -> linked_to g peer -> linked_to (on_drive g n f) peer.
Proof.
  intros Hf (n' & rt & Hn & Hp). unfold on_drive. destruct (g_drives g !! n) as [r0|] eqn:E; [|by exists n', rt].
  destruct (decide (n' = n)) as [->|Hne].
  - exists n, (f r0). cbn. rewrite lookup_insert_eq. rewrite Hf. split; [done|]. congruence.
  - exists n', rt. cbn. by rewrite lookup_insert_ne.
Qed.
Lemma on_drive_store g n f : g_store (on_drive g n f) = g_store g.
Proof. unfold on_drive. by case_match. Qed.
Lemma on_drive_out g n f : g_out (on_drive g n f) = g_out g.
Proof. unfold on_drive. by case_match. Qed.
Lemma on_drive_lookup g n f rt :
  g_drives g !! n = Some rt -> g_drives (on_drive g n f) !! n = Some (f rt).
Proof. intros E. unfold on_drive. rewrite E. apply lookup_insert_eq. Qed.

(** Every gap is asked for. *)
Lemma send_gaps_spec g name peer gaps p :
  let g' := send_gaps g name peer gaps in
  g_store g' = g_store g /\ (linked_to g p -> linked_to g' p) /\ (forall o, o ∈ g_out g -> o ∈ g_out g') /\
  forall id have, (id, have) ∈ gaps -> exists rq, ORequest peer rq (MCatchUp {| cu_doc_id := id; cu_have := have |}) ∈ g_out g'.
Proof.
  revert g. induction gaps as [|[i h] gaps IH]; intros g; [split_and!; try done; intros ? ? []%not_elem_of_nil|].
  set (g1 := on_drive (send_request g peer (MCatchUp {| cu_doc_id := i; cu_have := h |})).1 name
               (fun rt => rt_in_flight ({[g_next_req g]} ∪ r_in_flight rt) rt)).
  change (send_gaps g name peer ((i, h) :: gaps)) with (send_gaps g1 name peer gaps).
  destruct (IH g1) as (S & L & O & R). cbv zeta.
  assert (Ho : g_out g1 = g_out g ++ [ORequest peer (g_next_req g) (MCatchUp {| cu_doc_id := i; cu_have := h |})])
    by (unfold g1; by rewrite on_drive_out).
  split_and!.
  - rewrite S. unfold g1. by rewrite on_drive_store.
  - intros Hl. apply L. by apply on_drive_linked.
  - intros o Hin. apply O. rewrite Ho. apply elem_of_app. by left.
  - intros id have [Hin|Hin]%elem_of_cons; [|by apply R]. injection Hin as -> ->. exists (g_next_req g). apply O.
    rewrite Ho. apply elem_of_app. right. by apply list_elem_of_singleton.
Qed.

Lemma merge_clocks_all (c m : gmap N VecClock) id v :
  m !! id = Some v -> merge_clocks c (map_to_list m) !! id = Some v.
Proof.
  intros Hm. assert (Hin : (id, v) ∈ map_to_list m) by (by apply elem_of_map_to_list).
  pose proof (NoDup_fst_map_to_list m) as Hn. revert Hin Hn. generalize (map_to_list m). clear m Hm.
  intros l. revert c. unfold merge_clocks. induction l as [|[j w] l IH]; intros c; [by intros ?%not_elem_of_nil|].
  rewrite fmap_cons, NoDup_cons. intros [E|Hin]%elem_of_cons [Hj Hn]; cbn [foldl fst snd] in *; [|by apply IH].
  injection E as <- <-. clear IH Hn. assert (Hc : <[id:=v]> c !! id = Some v) by apply lookup_insert_eq.
  revert Hc. generalize (<[id:=v]> c). clear c. induction l as [|[j w] l IH]; intros c Hc; [done|].
  rewrite fmap_cons, not_elem_of_cons in Hj. destruct Hj as [Hne Hj]. cbn. apply IH; [done|].
  by rewrite lookup_insert_ne.
Qed.

(** Hearing of a document one is behind on: the acknowledgement of the hello
    makes the engine ask for it, with its own clock. *)
Lemma hello_asks ga gb now pa pb rq id eb :
  linked_to ga pb -> (register_ack_key (g_store ga) pb (hello_ack gb pa)).2 = Ok tt ->
  i_entries (g_store gb) !! id = Some eb -> may_peer_read (g_store gb) pa id = true ->
  let ga1 := on_response show_hash ga now pb rq (MHelloAck (hello_ack gb pa)) in
  let have := e_clock (entry_at (g_store ga1) id) in
  vc_covers have (e_clock eb) = false ->
  g_store ga1 = (register_ack_key (g_store ga) pb (hello_ack gb pa)).1 /\ linked_to ga1 pb /\
  exists rq1, ORequest pb rq1 (MCatchUp {| cu_doc_id := id; cu_have := have |}) ∈ g_out ga1.
Proof.
  intros Hl Hr He Hm. destruct (linked_named ga pb Hl) as (n & rt & Hn & Hrt).
  unfold on_response. rewrite Hn. set (g0 := on_drive ga n _). unfold on_hello_ack.
  assert (Es0 : g_store g0 = g_store ga) by apply on_drive_store. rewrite Es0, Hr. cbv zeta.
  set (sa := (register_ack_key (g_store ga) pb (hello_ack gb pa)).1).
  assert (Hd0 : exists rt0, g_drives (set_store g0 sa) !! n = Some rt0) by (eexists; by apply on_drive_lookup).
  destruct Hd0 as [rt0 Hd0]. rewrite Hd0.
  set (g1 := on_drive (set_store g0 sa) n _). set (g2 := set_status g1 n _ _). set (g3 := on_drive g2 n _).
  assert (Hl3 : linked_to g3 pb).
  { unfold g3. apply on_drive_linked; [done|]. unfold linked_to, g2. cbn. fold (linked_to g1 pb). unfold g1.
    apply on_drive_linked; [by intros r0; destruct (r_handshaken r0)|]. unfold linked_to. cbn. fold (linked_to g0 pb).
    by apply on_drive_linked. }
  assert (Es3 : g_store g3 = sa).
  { unfold g3. rewrite on_drive_store. change (g_store g1 = sa). unfold g1. by rewrite on_drive_store. }
  set (remote := default ∅ _).
  assert (Hrem : remote !! id = Some (e_clock eb)).
  { unfold remote, g3. destruct (g_drives g2 !! n) as [r2|] eqn:E2.
    - rewrite (on_drive_lookup _ _ _ r2 E2). cbn.
      replace ((fun d => (ds_id d, ds_clock d)) <$> _) with (map_to_list (summary_for (g_store gb) pa)).
      + apply merge_clocks_all. unfold summary_for. apply map_lookup_filter_Some. unfold summary.
        by rewrite lookup_fmap, He.
      + rewrite <- list_fmap_compose. symmetry. rewrite <- (list_fmap_id (map_to_list _)) at 2.
        apply list_fmap_ext. by intros ? [] ?.
    - exfalso. change (g_drives g1 !! n = None) in E2. unfold g1 in E2. by rewrite (on_drive_lookup _ _ _ rt0 Hd0) in E2. }
  set (gaps := gaps_of (summary (g_store g3)) remote).
  destruct (send_gaps_spec g3 n pb gaps pb) as (S & L & _ & R).
  rewrite S, Es3. intros Hc. split_and!; [done|by apply L|]. apply R. unfold gaps, gaps_of.
  apply list_elem_of_omap. exists (id, e_clock eb). split; [by apply elem_of_map_to_list|]. cbn [fst snd].
  assert (Eo : default ∅ (summary (g_store g3) !! id) = e_clock (entry_at sa id)).
  { rewrite Es3. unfold summary, entry_at. rewrite lookup_fmap. by destruct (i_entries sa !! id). }
  by rewrite Eo, Hc.
Qed.

(** Applying a batch through the engine is applying it to the store. *)
Lemma apply_all_receive g peer l id :
  Forall (fun a => a_doc_id a = id /\ vouched (g_store g) a) l ->
  g_store (Engine.apply_all g peer l).1 = receive (g_store g) l /\
  (linked_to g peer -> linked_to (Engine.apply_all g peer l).1 peer).
Proof.
  unfold Engine.apply_all. generalize 0. revert g. induction l as [|a l IH]; intros g k Hl; [done|].
  apply Forall_cons in Hl as [(Hid & Hv) Hl]. cbn [foldl receive fst snd].
  pose proof Hv as (m & Hm & _).
  assert (Ha : model_available (g_store g) (a_model a) = true) by (apply bool_decide_eq_true_2; by rewrite Hm).
  assert (Hg : exists g1 b, engine_apply_remote g (Some peer) a = (g1, b) /\
             g_store g1 = (apply_action a (g_store g)).1 /\ g_drives g1 = g_drives g).
  { unfold engine_apply_remote. rewrite Ha. unfold apply_remote_action.
    destruct (apply_action a (g_store g)) as [s [r|e]]; [destruct (applied r)|]; eexists _, _; by split. }
  destruct Hg as (g1 & b & E & Es & Ed). rewrite E.
  destruct (IH g1 (if b then S k else k)) as [H1 H2].
  - eapply Forall_impl; [exact Hl|]. intros a' (A1 & A2). split; [done|]. rewrite Es.
    eapply (vouched_apart id (g_store g)); [done| |done]. rewrite <- Hid. apply applied_apart.
  - rewrite Es in H1. split; [exact H1|]. intros Hk. apply H2. unfold linked_to. by rewrite Ed.
Qed.

End Conversation.

(** ** A snapshot stops it *)

Section Snapshot.
Context `{Platform, Net} (show_hash : Hash32 -> string).

(** A node that has just taken a snapshot of a document has no actions of it
    left to give.  The answer carries the state, but nobody reads it: whatever
    the asking node lacks, it handles the answer without changing its store. *)
Theorem snapshot_answers_nothing gb pa id eb have now connected random :
  i_entries (snapshot (g_store gb) id) !! id = Some eb ->
  let gb' := set_store gb (snapshot (g_store gb) id) in
  exists ack,
    g_out (serve_request gb' now connected random pa (MCatchUp {| cu_doc_id := id; cu_have := have |})) =
      g_out gb ++ [OResponse pa (MCatchUpAck ack)] /\
    forall ga now' pb rq, g_store (on_response show_hash ga now' pb rq (MCatchUpAck ack)) = g_store ga.
Proof.
  intros He gb'.
  assert (El : e_log eb = []).
  { revert He. unfold snapshot. destruct (i_entries (g_store gb) !! id) as [e|] eqn:E; [|congruence].
    cbn. rewrite lookup_insert_eq. by intros [= <-]. }
  assert (Ha : forall ack ga now' pb rq, ca_actions ack = [] ->
    g_store (on_response show_hash ga now' pb rq (MCatchUpAck ack)) = g_store ga).
  { intros ack ga now' pb rq E. unfold on_response. destruct (drive_name_by_peer ga pb) as [n|]; [|done].
    unfold on_catch_up_ack. rewrite E. cbn [Engine.apply_all foldl]. cbv zeta.
    rewrite <- (on_drive_store ga n (fun rt => rt_in_flight (r_in_flight rt ∖ {[rq]}) rt)).
    set (g0 := on_drive ga n _). destruct (g_drives g0 !! n) as [rt|]; [|done].
    case_match; [unfold set_status, send_event; cbn [g_store emit]|]; apply on_drive_store. }
  cbn [serve_request]. unfold serve_catch_up. cbn [cu_doc_id cu_have].
  destruct (may_peer_read (g_store gb') pa id); [|eexists; split; [reflexivity|intros; by apply Ha]].
  unfold catch_up. cbn [g_store gb' set_store]. rewrite He, El. cbv beta iota.
  eexists. split; [reflexivity|]. intros. apply Ha. reflexivity.
Qed.
End Snapshot.

(** ** Two concrete nodes *)

Section Simple.
Context `{Platform}.
(** An action whose model asks for no quorum and no membership, and whose
    signatures hold under the pinned keys. *)
Definition simple (s : Inner) (a : Action) : bool :=
  match reg_find (i_models s) (a_model a) with
  | Some m => is_ok (validate_payload m (a_kind a) (a_payload a)) &&
              bool_decide (quorum m (a_kind a) = None) && bool_decide (requires_space_member m (a_kind a) = None) &&
              is_ok (check_origin s a) && is_ok (check_cosigs s a 0 (a_cosig a))
  | None => false
  end.
Lemma cosigs_keys s s' a i l : i_known_keys s' = i_known_keys s -> check_cosigs s' a i l = check_cosigs s a i l.
Proof.
  intros E. revert i. induction l as [|c l IH]; intros i; [done|]. cbn [check_cosigs]. rewrite E.
  destruct (i_known_keys s !! _); [|done]. cbn. destruct (vk_from_bytes _); [|done]. by rewrite IH.
Qed.
Lemma simple_vouched s a : simple s a = true -> vouched s a.
Proof.
  unfold simple, vouched. destruct (reg_find _ _) as [m|] eqn:Em; [|done].
  rewrite !andb_true_iff, !bool_decide_eq_true. intros ((((Hp & Hq) & Hs) & Ho) & Hc). exists m. split_and!; [done| |].
  - by destruct (validate_payload _ _ _) as [[]|].
  - intros s' Ha. rewrite (cosigs_keys s s') by apply Ha. unfold check_origin. rewrite (ap_keys _ _ _ Ha).
    fold (check_origin s a). unfold check_quorum, check_space_member.
    rewrite Hq, Hs.
    destruct (check_origin s a) as [[]|]; [|done]. by destruct (check_cosigs s a 0 _) as [[]|].
Qed.
End Simple.

Module CatchUpSample.
Import SyncExample.
Definition to_b : Drive :=
  {| d_name := "b"; d_addr := [P2p "12D3b"]; d_token_env := None; d_paused := false; d_available_offline := true |}.
(** A node that has never seen a document, with a drive to B. *)
Definition node_a : SyncEngine :=
  handle_cmd (engine_new (open_inner empty_disk (sk 1) "12D3a" []) "12D3a" "a" [] None [] ∅ false None ∅)
    0 (fun _ => false) "12D3random" (AddDrive to_b).
Definition store_b : Inner :=
  (create_doc (fun i => 1000 + N.of_nat i)%N 7 "notes" {[ "title" := Str "hello" ]}
     (open_inner empty_disk (sk 2) "12D3b" [])).1.
Definition engine_b (s : Inner) : SyncEngine := engine_new s "12D3b" "b" [] None [] ∅ false None ∅.
(** The whole exchange: hello, request, answer. *)
Definition exchange (ga gb : SyncEngine) : SyncEngine :=
  let ga1 := on_response sample_show ga 5 "12D3b" 0 (MHelloAck (hello_ack gb "12D3a")) in
  let have := e_clock (entry_at (g_store ga1) 7) in
  let gb1 := serve_request gb 5 (fun _ => false) "x" "12D3a" (MCatchUp {| cu_doc_id := 7; cu_have := have |}) in
  match last (g_out gb1) with
  | Some (OResponse _ m) => on_response sample_show ga1 5 "12D3b" 1 m
  | _ => ga1
  end.
(** A once B has answered its hello, and what it lacks. *)
Definition greeted : SyncEngine :=
  on_response sample_show node_a 5 "12D3b" 0 (MHelloAck (hello_ack (engine_b store_b) "12D3a")).
Definition lacking : list Action := (catch_up store_b 7 ∅).2.
(** B takes a snapshot, then writes once more. *)
Definition snapped : Inner := (update_field 3000 "notes" "body" (Str "later") (snapshot store_b 7)).1.
Definition title (s : Inner) : option Value := fld_value <$> doc_fields (e_doc (entry_at s 7)) !! "title".
Definition body (s : Inner) : option Value := fld_value <$> doc_fields (e_doc (entry_at s 7)) !! "body".
End CatchUpSample.
Import SyncExample CatchUpSample.

Lemma store_b_reachable : reachable store_b.
Proof.
  eapply reach_step; [apply reach_open|]. apply step_create_doc. vm_compute. reflexivity.
Qed.
Lemma node_a_linked : linked_to node_a "12D3b".
Proof. eexists "b", _. split; vm_compute; reflexivity. Qed.
Lemma ack_key_reachable s peer ack : reachable s -> reachable (register_ack_key s peer ack).1.
Proof.
  intros Hs. unfold register_ack_key. destruct (ack_pubkey ack); [|done]. destruct (hex_decode _); [|done].
  case_decide; [|done]. eapply reach_step; [done|apply step_register_key].
Qed.
Lemma store_b_entry : i_entries store_b !! 7%N = Some (entry_at store_b 7).
Proof. vm_compute. reflexivity. Qed.
Lemma greeted_reachable : reachable (g_store greeted).
Proof.
  unfold greeted. edestruct (hello_asks sample_show node_a (engine_b store_b) 5 "12D3a" "12D3b" 0 7 (entry_at store_b 7))
   as (-> & _).
  - exact node_a_linked.
  - vm_compute. reflexivity.
  - exact store_b_entry.
  - vm_compute. reflexivity.
  - vm_compute. reflexivity.
  - apply ack_key_reachable. apply (reach_open (sk 1) "12D3a" []).
Qed.
Lemma greeted_models : i_models (g_store greeted) = i_models store_b.
Proof. vm_cast_no_check (eq_refl (i_models store_b)). Qed.
Lemma greeted_behind : behind 7 (g_store greeted) store_b lacking.
Proof.
  split.
  - apply reachable_inv, greeted_reachable.
  - apply reachable_inv, store_b_reachable.
  - vm_compute. reflexivity.
  - vm_compute. reflexivity.
  - vm_compute. reflexivity.
  - apply (bool_decide_unpack _). vm_compute. exact I.
  - rewrite greeted_models. reflexivity.
  - eapply (Forall_impl (fun a => simple (g_store greeted) a = true)); [|intros a; apply simple_vouched].
    apply (bool_decide_unpack _). vm_compute. exact I.
Qed.

(** After the same exchange A has the later field only, and its clock covers
    B's: it will not ask again. *)
Lemma snapshot_splits_nodes :
  let a := g_store (exchange node_a (engine_b snapped)) in
  title snapped = Some (Str "hello") /\ body snapped = Some (Str "later") /\
  title a = None /\ body a = Some (Str "later") /\
  gaps_of (summary a) (summary snapped) = [].
Proof. vm_compute. repeat split. Qed.
