(* ===== verification/Package.v ===== *)
(** Plugin packages (src/package/mod.rs, trust.rs, install.rs): the manifest
    and what its publisher signs, the checks of what a package may ask for, the
    publishers an operator trusts, and installation. *)

From stdpp Require Import base gmap strings numbers pretty list.
From Stdlib Require Import Strings.Byte Strings.Ascii.
From S2P Require Import Prelude Json Doc Sample Action Model Builtins Entry Store Text Blob Fs.

(** ** Text *)

(** [str::to_lowercase] and the quoting of [{:?}]: parameters. *)
Class TextOps := {
  to_lowercase : string -> string;
  debug_text : string -> string
}.

(** [chars().count()] of a UTF-8 string: the bytes that start a character. *)
Definition starts_char (c : ascii) : bool :=
  negb ((128 <=? N_of_ascii c) && (N_of_ascii c <? 192))%N.
Fixpoint char_count (s : string) : nat :=
  match s with
  | EmptyString => 0
  | String c s' => (if starts_char c then 1 else 0) + char_count s'
  end.

(** [chars().any(|c| c.is_control())]: the C0 and C1 blocks and DEL. *)
Fixpoint has_control (s : string) : bool :=
  match s with
  | EmptyString => false
  | String c s' =>
      let n := N_of_ascii c in
      (n <? 32)%N || (n =? 127)%N
      || match s' with
         | String d _ => (n =? 194)%N && (N_of_ascii d <? 160)%N
         | EmptyString => false
         end
      || has_control s'
  end.

(** [is_ascii_alphanumeric() || '-' || '_']. *)
Definition view_char (c : ascii) : bool :=
  let n := N_of_ascii c in
  ((48 <=? n) && (n <=? 57) || (65 <=? n) && (n <=? 90) || (97 <=? n) && (n <=? 122)
   || (n =? 45) || (n =? 95))%N.

(** A text between double quotes. *)
Definition in_quotes (s : string) : string :=
  String (ascii_of_N 34) (s +:+ String (ascii_of_N 34) EmptyString).

(** ** The manifest *)

Record PublisherInfo := { pi_name : string; pi_url : string }.
Record WriteCapability := { wc_model : string; wc_kinds : list string }.
Record Capabilities := { cap_read : list string; cap_write : list WriteCapability }.
Record Projection := {
  pj_from : string;
  pj_on : string;
  pj_to : string;
  pj_into : string;
  pj_fields : list string
}.
Record Attention := {
  at_model : string;
  at_when : list (string * Value);
  at_needs : string;
  at_label : string
}.
Record NavItem := { nav_label : string; nav_icon : string; nav_view : string }.
Record PluginUi := { ui_nav : list NavItem }.
Record Manifest := {
  mf_name : string;
  mf_version : string;
  mf_description : string;
  mf_category : string;
  mf_publisher : PublisherInfo;
  mf_publisher_key : string;
  mf_document_models : list Value;
  mf_processors : list Value;
  mf_bundle : option BlobRef;
  mf_capabilities : Capabilities;
  mf_projections : list Projection;
  mf_attention : list Attention;
  mf_ui : PluginUi;
  mf_sig : string
}.

Definition set_sig (m : Manifest) (sig : string) : Manifest :=
  {| mf_name := mf_name m; mf_version := mf_version m; mf_description := mf_description m;
     mf_category := mf_category m; mf_publisher := mf_publisher m;
     mf_publisher_key := mf_publisher_key m; mf_document_models := mf_document_models m;
     mf_processors := mf_processors m; mf_bundle := mf_bundle m;
     mf_capabilities := mf_capabilities m; mf_projections := mf_projections m;
     mf_attention := mf_attention m; mf_ui := mf_ui m; mf_sig := sig |}.

(** ** What a package may ask for *)

(** [Projection::describe], [Projection::validate]. *)
Definition projection_describe (p : Projection) : string :=
  let what := match pj_fields p with [] => "nothing" | fs => String.concat ", " fs end in
  "when a " +:+ pj_from p +:+ " is " +:+ pj_on p +:+ ", publish its " +:+ what
  +:+ " into the '" +:+ pj_into p +:+ "' space as a " +:+ pj_to p.
Definition projection_validate (p : Projection) : result string unit :=
  match find_map (fun lv : string * string =>
          if bool_decide (trim lv.2 = "") then Some lv.1 else None)
          [("from", pj_from p); ("on", pj_on p); ("to", pj_to p); ("into", pj_into p)] with
  | Some label => Err ("a projection needs '" +:+ label +:+ "'")
  | None =>
      match pj_fields p with
      | [] => Err ("the projection from " +:+ pj_from p +:+ " would publish a document with no fields")
      | _ => Ok tt
      end
  end.

(** [Attention::describe], [Attention::validate]. *)
Definition attention_describe `{Platform} (a : Attention) : string :=
  let pair (kv : string * Value) :=
    kv.1 +:+ " is " +:+ default (json_to_string kv.2) (as_str kv.2) in
  let cond := match at_when a with
              | [] => ""
              | l => " whose " +:+ String.concat " and " (pair <$> l)
              end in
  "put a " +:+ at_model a +:+ cond +:+ " in your inbox when you are named in '"
  +:+ at_needs a +:+ "'".
Definition attention_validate (a : Attention) : result string unit :=
  if bool_decide (trim (at_model a) = "") then Err "an attention rule needs a model"
  else if bool_decide (trim (at_needs a) = "")
  then Err ("the attention rule for " +:+ at_model a +:+ " names no field saying who it needs")
  else if bool_decide (trim (at_label a) = "")
  then Err ("the attention rule for " +:+ at_model a +:+ " has nothing to say")
  else Ok tt.

(** [Capabilities::may_read], [may_write], [describe]. *)
Definition may_read (c : Capabilities) (model : string) : bool := contains (cap_read c) model.
Definition may_write (c : Capabilities) (model kind : string) : bool :=
  existsb (fun w => bool_decide (wc_model w = model) && contains (wc_kinds w) kind) (cap_write c).
Definition capabilities_describe (c : Capabilities) : list string :=
  let reads := match cap_read c with
               | [] => []
               | l => ["read documents of type: " +:+ String.concat ", " l]
               end in
  let writes := (fun w => "perform " +:+ String.concat ", " (wc_kinds w) +:+ " on " +:+ wc_model w)
                <$> cap_write c in
  match reads ++ writes with
  | [] => ["nothing — this plugin requests no access"]
  | out => out
  end.

(** [RESERVED_NAV_LABELS], [MAX_NAV_ITEMS]. *)
Definition RESERVED_NAV_LABELS : list string :=
  ["home"; "groups"; "plugins"; "settings"; "profile"; "reactor"; "documents"; "types";
   "folders"; "overview"; "spaces"; "space"].
Definition MAX_NAV_ITEMS : nat := 3.

Section Nav.
Context `{TextOps}.

(** One turn of [PluginUi::validate]'s loop: the folded label, or the reason. *)
Definition check_nav_item (seen : list string) (item : NavItem) : result string string :=
  let label := trim (nav_label item) in
  let folded := to_lowercase label in
  if bool_decide (label = "") then Err "a sidebar entry needs a label"
  else if 24 <? char_count label
  then Err ("sidebar label too long (max 24): " +:+ debug_text label)
  else if has_control label
  then Err ("sidebar label contains control characters: " +:+ debug_text label)
  else if contains RESERVED_NAV_LABELS folded
  then Err (in_quotes label +:+ " is a reserved sidebar name — a plugin may not impersonate the console's own navigation")
  else if contains seen folded then Err ("duplicate sidebar entry: " +:+ debug_text label)
  else if 2 <? char_count (nav_icon item)
  then Err ("sidebar icon must be at most 2 characters: " +:+ debug_text (nav_icon item))
  else if has_control (nav_icon item) then Err "sidebar icon contains control characters"
  else if (32 <? char_count (nav_view item))
          || negb (forallb view_char (String.list_ascii_of_string (nav_view item)))
  then Err ("a view name may only be letters, digits, - and _ (max 32): "
            +:+ debug_text (nav_view item))
  else Ok folded.

Fixpoint check_nav (seen : list string) (items : list NavItem) : result string unit :=
  match items with
  | [] => Ok tt
  | item :: items' =>
      folded ← check_nav_item seen item;
      check_nav (seen ++ [folded]) items'
  end.

(** [PluginUi::is_empty], [PluginUi::validate], [PluginUi::describe]. *)
Definition ui_is_empty (ui : PluginUi) : bool := match ui_nav ui with [] => true | _ => false end.
Definition ui_validate (ui : PluginUi) : result string unit :=
  let n := length (ui_nav ui) in
  if MAX_NAV_ITEMS <? n
  then Err ("a plugin may add at most " +:+ pretty MAX_NAV_ITEMS
            +:+ " sidebar entries, this one asks for " +:+ pretty n)
  else check_nav [] (ui_nav ui).
Definition ui_describe (ui : PluginUi) : option string :=
  match nav_label <$> ui_nav ui with
  | [] => None
  | names =>
      Some ("add " +:+ pretty (length names) +:+ " item"
            +:+ (if length names =? 1 then "" else "s")
            +:+ " to your sidebar: " +:+ String.concat ", " names)
  end.
End Nav.

(** ** What is signed *)

Section Signing.
Context `{Platform}.

(** A struct is written with its fields in declaration order; [skip] is
    [skip_serializing_if]. *)
Definition skip (b : bool) (k : string) (v : Value) : list (string * Value) :=
  if b then [] else [(k, v)].

Definition hash_json (h : Hash32) : Value := Str (hex_encode (hash_bytes h)).
Definition blobref_json (b : BlobRef) : Value :=
  Object [("hash", hash_json (br_hash b)); ("size", Number (Z.of_N (br_size b)));
          ("chunks", Array (hash_json <$> br_chunks b))].
Definition projection_json (p : Projection) : Value :=
  Object [("from", Str (pj_from p)); ("on", Str (pj_on p)); ("to", Str (pj_to p));
          ("into", Str (pj_into p)); ("fields", json_strs (pj_fields p))].
Definition attention_json (a : Attention) : Value :=
  Object [("model", Str (at_model a)); ("when", Object (at_when a));
          ("needs", Str (at_needs a)); ("label", Str (at_label a))].
Definition nav_json (i : NavItem) : Value :=
  Object [("label", Str (nav_label i)); ("icon", Str (nav_icon i)); ("view", Str (nav_view i))].
Definition capability_json (w : WriteCapability) : Value :=
  Object [("model", Str (wc_model w)); ("kinds", json_strs (wc_kinds w))].

(** The derived [Serialize] of [Manifest]. *)
Definition manifest_json (m : Manifest) : Value :=
  Object (
    [("name", Str (mf_name m)); ("version", Str (mf_version m));
     ("description", Str (mf_description m)); ("category", Str (mf_category m));
     ("publisher", Object [("name", Str (pi_name (mf_publisher m)));
                           ("url", Str (pi_url (mf_publisher m)))]);
     ("publisher_key", Str (mf_publisher_key m));
     ("documentModels", Array (mf_document_models m)); ("processors", Array (mf_processors m))]
    ++ match mf_bundle m with Some b => [("bundle", blobref_json b)] | None => [] end
    ++ [("capabilities", Object [("read", json_strs (cap_read (mf_capabilities m)));
                                 ("write", Array (capability_json <$> cap_write (mf_capabilities m)))])]
    ++ skip (bool_decide (mf_projections m = [])) "projections" (Array (projection_json <$> mf_projections m))
    ++ skip (bool_decide (mf_attention m = [])) "attention" (Array (attention_json <$> mf_attention m))
    ++ skip (ui_is_empty (mf_ui m)) "ui" (Object [("nav", Array (nav_json <$> ui_nav (mf_ui m)))])
    ++ [("sig", Str (mf_sig m))]).

(** [Manifest::message_bytes], [Manifest::sign]. *)
Definition manifest_bytes (m : Manifest) : list byte := json_to_vec (manifest_json (set_sig m "")).
Definition manifest_sign (m : Manifest) (key : SigningKey) : Manifest :=
  set_sig m (hex_encode (ed_sign key (manifest_bytes m))).

(** The body of [Manifest::verify] and of [Release::verify]: a signature under
    a key named in hex; [what] is the last word of the failure. *)
Definition verify_detached (key sig : string) (msg : list byte) (what : string) :
    result string unit :=
  match hex_decode key with
  | Err e => Err ("publisher_key is not hex: " +:+ e)
  | Ok k =>
      if negb (length k =? 32) then Err "publisher_key must be 32 bytes" else
      match vk_from_bytes k with
      | Err e => Err ("publisher_key is not a valid ed25519 key: " +:+ e)
      | Ok _ =>
          match hex_decode sig with
          | Err e => Err ("signature is not hex: " +:+ e)
          | Ok b =>
              if negb (length b =? 64) then Err "signature must be 64 bytes" else
              if ed_verify k msg b then Ok tt
              else Err ("signature does not verify: the " +:+ what +:+ " was altered")
          end
      end
  end.

(** [Manifest::verify], [Manifest::id]. *)
Definition manifest_verify (m : Manifest) : result string unit :=
  verify_detached (mf_publisher_key m) (mf_sig m) (manifest_bytes m) "package".
Definition manifest_id (m : Manifest) : string := mf_name m +:+ "@" +:+ mf_version m.
End Signing.

(** ** Trusted publishers *)

Record TrustedPublisher := { tp_key : string; tp_name : string; tp_approved_at : string }.
Abbreviation TrustStore := (gmap string TrustedPublisher).

Section Trust.
Context `{!Serde TrustStore}.

(** [TrustStore::load]: a missing or unreadable file trusts nobody. *)
Definition trust_load (path : Path) : fsM TrustStore :=
  raw ← fs_try (fs_read path);
  mret match raw with
       | Err _ => ∅
       | Ok raw => match from_json raw with Ok t => t | Err _ => ∅ end
       end.

(** [TrustStore::save]. *)
Definition trust_save (t : TrustStore) (path : Path) : fsM unit :=
  _ ← fs_create_dir_all;
  fs_map_err (fun e => "writing " +:+ path_display path +:+ ": " +:+ e) (fs_write path (to_json t)).
End Trust.

(** [is_trusted], [list], [trust], [revoke]; [now] is [rfc3339_now()]. *)
Definition is_trusted (t : TrustStore) (key : string) : bool := bool_decide (is_Some (t !! key)).
Definition trust_list (t : TrustStore) : list TrustedPublisher := (btree_iter t).*2.
Definition trust (t : TrustStore) (now key name : string) : TrustStore :=
  match t !! key with
  | Some _ => t
  | None => <[key := {| tp_key := key; tp_name := name; tp_approved_at := now |}]> t
  end.
Definition revoke (t : TrustStore) (key : string) : TrustStore * bool :=
  (delete key t, is_trusted t key).

(** ** Installed packages *)

Record InstalledPackage := { ip_manifest : Manifest; ip_installed_at : string }.

Inductive InstallError : Type :=
  | Integrity (e : string)
  | UntrustedPublisher (key name : string)
  | BundleIncomplete (missing : nat)
  | Invalid (e : string)
  | Io (e : string).

(** [Display] of [InstallError]. *)
Definition install_error_text (e : InstallError) : string :=
  match e with
  | Integrity e => "package failed verification: " +:+ e
  | UntrustedPublisher key name =>
      "publisher " +:+ name +:+ " (" +:+ key
      +:+ ") is not trusted on this node; approve it before installing"
  | BundleIncomplete n =>
      "the UI bundle is incomplete (" +:+ pretty n +:+ " chunk(s) still to fetch)"
  | Invalid e => "package contents are invalid: " +:+ e
  | Io e => e
  end.

Abbreviation Installed := (list InstalledPackage).
Definition pkg_name (p : InstalledPackage) : string := mf_name (ip_manifest p).

(** [Installed::get], [put], [remove], [live_blobs]. *)
Definition installed_get (l : Installed) (name : string) : option InstalledPackage :=
  head (filter (fun p => pkg_name p = name) l).
Definition installed_put (l : Installed) (pkg : InstalledPackage) : Installed :=
  filter (fun p => pkg_name p <> pkg_name pkg) l ++ [pkg].
Definition installed_remove (l : Installed) (name : string) : Installed * bool :=
  let l' := filter (fun p => pkg_name p <> name) l in
  (l', negb (length l' =? length l)).
Definition live_blobs (l : Installed) : list BlobRef := omap (fun p => mf_bundle (ip_manifest p)) l.

Section Install.
Context `{Platform} `{TextOps} `{!Serde Installed} `{!Serde (list Value)}.
Implicit Types (m : Manifest) (s : Inner) (fs : Fs).

(** [Installed::load], [Installed::save]. *)
Definition installed_load (path : Path) : fsM Installed :=
  raw ← fs_try (fs_read path);
  mret match raw with
       | Err _ => []
       | Ok raw => match from_json raw with Ok l => l | Err _ => [] end
       end.
Definition installed_save (l : Installed) (path : Path) : fsM unit :=
  _ ← fs_create_dir_all;
  fs_map_err (fun e => "writing " +:+ path_display path +:+ ": " +:+ e) (fs_write path (to_json l)).

(** [persist::load_all], [persist::save] on the file (src/model/persist.rs). *)
Definition load_all (path : Path) : fsM (list Value) :=
  raw ← fs_try (fs_read path);
  mret match raw with
       | Err _ => []
       | Ok raw => match from_json raw with Ok l => l | Err _ => [] end
       end.
Definition persist_save (path : Path) (def : Value) : fsM unit :=
  if bool_decide ((def_key def).1 = "") then fs_fail "a model definition needs a name" else
  all ← load_all path;
  match save all def with
  | Err e => fs_fail e
  | Ok all =>
      _ ← fs_create_dir_all;
      fs_map_err (fun e => "writing " +:+ path_display path +:+ ": " +:+ e) (fs_write path (to_json all))
  end.

Definition map_err {E F A} (f : E -> F) (r : result E A) : result F A :=
  match r with Ok a => Ok a | Err e => Err (f e) end.

(** The definitions a package carries, each interpreted. *)
Fixpoint parse_defs (defs : list Value) : result InstallError (list L1) :=
  match defs with
  | [] => Ok []
  | d :: defs' =>
      l ← map_err (fun e => Invalid ("model definition: " +:+ e)) (from_def d);
      ls ← parse_defs defs';
      Ok (l :: ls)
  end.

(** [check]. *)
Definition check m (t : TrustStore) (blobs : BlobStore) : result InstallError unit :=
  _ ← map_err Integrity (manifest_verify m);
  _ ← (if is_trusted t (mf_publisher_key m) then Ok tt
       else Err (UntrustedPublisher (mf_publisher_key m) (pi_name (mf_publisher m))));
  _ ← map_err (fun e => Invalid ("sidebar: " +:+ e)) (ui_validate (mf_ui m));
  _ ← match mf_bundle m with
      | Some b => match length (missing blobs b) with
                  | O => Ok tt
                  | n => Err (BundleIncomplete n)
                  end
      | None => Ok tt
      end;
  _ ← parse_defs (mf_document_models m);
  Ok tt.

(** The loop of [install]: a definition is registered, then written. *)
Fixpoint register_defs (models_file : Path) (defs : list Value) s fs :
    Inner * Fs * result InstallError unit :=
  match defs with
  | [] => (s, fs, Ok tt)
  | d :: defs' =>
      match from_def d with
      | Err e => (s, fs, Err (Invalid ("model definition: " +:+ e)))
      | Ok l =>
          let s := add_model s (ML1 l) in
          let '(fs, r) := persist_save models_file d fs in
          match r with
          | Err e => (s, fs, Err (Io e))
          | Ok _ => register_defs models_file defs' s fs
          end
      end
  end.

(** [install]; [now] is [rfc3339_now()]. *)
Definition install m (t : TrustStore) (blobs : BlobStore) (installed_file models_file : Path)
    (now : string) s fs : Inner * Fs * result InstallError InstalledPackage :=
  match check m t blobs with
  | Err e => (s, fs, Err e)
  | Ok _ =>
      let '(s, fs, r) := register_defs models_file (mf_document_models m) s fs in
      match r with
      | Err e => (s, fs, Err e)
      | Ok _ =>
          let pkg := {| ip_manifest := m; ip_installed_at := now |} in
          let '(fs, r) := (all ← installed_load installed_file;
                           installed_save (installed_put all pkg) installed_file) fs in
          (s, fs, match r with Ok _ => Ok pkg | Err e => Err (Io e) end)
      end
  end.
End Install.
