(* ===== verification/PackageProps.v ===== *)
(** What the package checks establish: the exact conditions of [check], the
    sidebar entries that pass, publishers trusted and packages installed after
    any sequence of decisions, and that a signature binds the whole manifest. *)

From stdpp Require Import base gmap strings numbers pretty list.
From Stdlib Require Import Strings.Byte Strings.Ascii.
From S2P Require Import Prelude Json Doc Sample Action Model Builtins Entry Store Text Blob Fs Package.

(** What the program relies on of a derived [Serialize]/[Deserialize] pair. *)
Class SerdeLaws (A : Type) `{Serde A} := {
  serde_roundtrip : forall a : A, from_json (to_json a) = Ok a
}.

(** ** Sidebar entries *)

Section NavProps.
Context `{TextOps}.

(** The label as the sidebar compares it. *)
Definition folded_label (i : NavItem) : string := to_lowercase (trim (nav_label i)).

Record nav_item_ok (i : NavItem) : Prop := {
  nio_label : trim (nav_label i) <> "";
  nio_short : char_count (trim (nav_label i)) <= 24;
  nio_label_text : has_control (trim (nav_label i)) = false;
  nio_free : folded_label i ∉ RESERVED_NAV_LABELS;
  nio_icon : char_count (nav_icon i) <= 2;
  nio_icon_text : has_control (nav_icon i) = false;
  nio_view : char_count (nav_view i) <= 32;
  nio_view_text : Forall (fun c => view_char c = true) (String.list_ascii_of_string (nav_view i))
}.

Lemma check_nav_item_ok seen i f :
  check_nav_item seen i = Ok f <-> nav_item_ok i /\ f = folded_label i /\ f ∉ seen.
Proof.
  unfold check_nav_item. fold (folded_label i). split.
  - intros E. repeat case_match; try discriminate E. injection E as <-.
    repeat match goal with
    | H : bool_decide _ = false |- _ => apply bool_decide_eq_false in H
    | H : (_ <? _) = false |- _ => apply Nat.ltb_ge in H
    | H : contains _ _ = false |- _ => apply contains_false in H
    | H : _ || _ = false |- _ => apply orb_false_iff in H as [? ?]
    | H : negb _ = false |- _ => apply negb_false_iff in H
    end.
    split_and!; [|done..]. split; try done. apply Forall_forall. intros c Hc%list_elem_of_In.
    by eapply forallb_forall.
  - intros ([H1 H2 H3 H4 H5 H6 H7 H8] & -> & Hs).
    rewrite bool_decide_eq_false_2 by done.
    rewrite (proj2 (Nat.ltb_ge 24 _)) by done. rewrite H3.
    rewrite (proj2 (contains_false _ _)) by done. rewrite (proj2 (contains_false _ _)) by done.
    rewrite (proj2 (Nat.ltb_ge 2 _)) by done. rewrite H6.
    rewrite (proj2 (Nat.ltb_ge 32 _)) by done.
    rewrite (proj2 (forallb_forall _ _)); [done|]. intros c Hc%list_elem_of_In.
    by eapply Forall_forall in H8.
Qed.

Lemma check_nav_ok seen l :
  check_nav seen l = Ok tt <->
  Forall nav_item_ok l /\ NoDup (folded_label <$> l) /\
  Forall (fun i => folded_label i ∉ seen) l.
Proof.
  revert seen. induction l as [|i l IH]; intros seen; cbn [check_nav].
  { split; [|done]. intros _. split_and!; constructor. }
  rewrite bind_ok. setoid_rewrite check_nav_item_ok. setoid_rewrite IH.
  rewrite fmap_cons, NoDup_cons, !Forall_cons, list_elem_of_fmap. split.
  - intros (f & (Hi & -> & Hs) & Hl & Hd & Hf). split_and!; try done.
    + intros (j & Ej & Hj). eapply Forall_forall in Hf; [|exact Hj]. set_solver.
    + eapply Forall_impl; [exact Hf|]. set_solver.
  - intros ([Hi Hl] & [Hni Hd] & Hs & Hf). exists (folded_label i). split_and!; try done.
    apply Forall_forall. intros j Hj. eapply Forall_forall in Hf; [|exact Hj].
    intros [?|E%list_elem_of_singleton]%elem_of_app; [done|]. apply Hni. by exists j.
Qed.

(** The sidebar check accepts exactly what it says: at most three entries,
    every label visible, short, free of control characters and of the
    console's own names, no two that fold to the same text, icons of at most
    two characters and view names of letters, digits, dash and underscore. *)
Theorem nav_check_exact ui :
  ui_validate ui = Ok tt <->
  length (ui_nav ui) <= MAX_NAV_ITEMS /\ Forall nav_item_ok (ui_nav ui) /\
  NoDup (folded_label <$> ui_nav ui).
Proof.
  unfold ui_validate. destruct (Nat.ltb_spec MAX_NAV_ITEMS (length (ui_nav ui))).
  - split; [done|]. intros [? _]. lia.
  - rewrite check_nav_ok. split; [naive_solver|]. intros (_ & ? & ?). split_and!; [done..|].
    apply Forall_forall. intros i _. apply not_elem_of_nil.
Qed.
End NavProps.

(** ** The check before an install *)

Lemma missing_nil (blobs : BlobStore) b :
  missing blobs b = [] <-> Forall (fun h => is_Some (blobs !! h)) (br_chunks b).
Proof.
  rewrite Forall_forall. split.
  - intros E h Hh. destruct (blobs !! h) eqn:Eh; [by eexists|].
    assert (Hm : h ∈ missing blobs b) by 
      (apply (missing_from_spec (fun _ => "")); split; [apply not_elem_of_empty|done]).
    rewrite E in Hm. by apply elem_of_nil in Hm.
  - intros Hall. destruct (missing blobs b) as [|h l] eqn:E; [done|].
    assert (Hm : h ∈ missing blobs b) by (rewrite E; left).
    apply (missing_from_spec (fun _ => "")) in Hm as (_ & Hh & Hn).
    destruct (Hall h Hh). congruence.
Qed.

Section CheckProps.
Context `{Platform} `{TextOps}.

Lemma map_err_ok {E F A} (f : E -> F) (r : result E A) a : map_err f r = Ok a <-> r = Ok a.
Proof. destruct r; simpl; naive_solver. Qed.

Lemma parse_defs_ok defs ls :
  parse_defs defs = Ok ls <-> Forall2 (fun d l => from_def d = Ok l) defs ls.
Proof.
  revert ls. induction defs as [|d defs IH]; intros ls; simpl.
  { split; [intros [= <-]; constructor|]. by inversion 1. }
  rewrite bind_ok. setoid_rewrite map_err_ok. setoid_rewrite bind_ok. setoid_rewrite IH. split.
  - intros (l & Hl & ls' & Hls & [= <-]). by constructor.
  - inversion 1 as [|? ? ? ls' Hl Hls]; subst. eauto 10.
Qed.

(** A package passes [check] exactly when its signature verifies under the
    key it names, that key is one the operator trusts, its sidebar entries are
    acceptable, every chunk of its bundle is present, and every model
    definition it carries can be interpreted. *)
Theorem check_exact m t blobs :
  check m t blobs = Ok tt <->
  manifest_verify m = Ok tt /\ is_Some (t !! mf_publisher_key m) /\
  ui_validate (mf_ui m) = Ok tt /\
  (forall b, mf_bundle m = Some b -> Forall (fun h => is_Some (blobs !! h)) (br_chunks b)) /\
  exists ls, Forall2 (fun d l => from_def d = Ok l) (mf_document_models m) ls.
Proof.
  unfold check, is_trusted. rewrite bind_ok. setoid_rewrite map_err_ok.
  setoid_rewrite bind_ok. setoid_rewrite bind_ok. setoid_rewrite map_err_ok.
  setoid_rewrite bind_ok. setoid_rewrite bind_ok. setoid_rewrite parse_defs_ok. split.
  - intros ([] & Hv & [] & Ht & [] & Hu & [] & Hb & ls & Hls & _).
    case_bool_decide; [|done]. split_and!; [done..| |by exists ls].
    intros b Eb. rewrite Eb in Hb. apply missing_nil. by destruct (missing blobs b).
  - intros (Hv & Ht & Hu & Hb & ls & Hls). exists tt. split; [done|]. exists tt.
    rewrite bool_decide_eq_true_2 by done. split; [done|]. exists tt. split; [done|].
    exists tt. split; [|by exists ls]. destruct (mf_bundle m) as [b|]; [|done].
    by rewrite (proj2 (missing_nil _ _) (Hb b eq_refl)).
Qed.
End CheckProps.

(** ** Installing *)

Section InstallProps.
Context `{Platform} `{TextOps} `{!Serde Installed} `{!Serde (list Value)} `{!SerdeLaws (list Value)}.
Implicit Types (m : Manifest) (s : Inner) (fs : Fs).

(** What a file of definitions and a file of packages hold. *)
Definition defs_in fs (p : Path) : list Value :=
  match fs_files fs !! p with
  | Some raw => match from_json raw with Ok l => l | Err _ => [] end
  | None => []
  end.
Definition packages_in fs (p : Path) : Installed :=
  match fs_files fs !! p with
  | Some raw => match from_json raw with Ok l => l | Err _ => [] end
  | None => []
  end.

(** A definition takes the place of the one of its name and version. *)
Definition saved (all : list Value) (def : Value) : list Value :=
  filter (fun v => def_key v <> def_key def) all ++ [def].

Lemma load_all_calm p fs : calm_fs fs -> load_all p fs = (fs, Ok (defs_in fs p)).
Proof.
  intros Hc. unfold load_all. rewrite fs_run_bind. unfold fs_try, fs_read.
  rewrite calm_next by done. unfold defs_in. destruct (fs_files fs !! p) as [raw|]; simpl; [|done].
  by destruct (from_json raw).
Qed.

Lemma installed_load_calm p fs : calm_fs fs -> installed_load p fs = (fs, Ok (packages_in fs p)).
Proof.
  intros Hc. unfold installed_load. rewrite fs_run_bind. unfold fs_try, fs_read.
  rewrite calm_next by done. unfold packages_in. destruct (fs_files fs !! p) as [raw|]; simpl; [|done].
  by destruct (from_json raw).
Qed.

(** Writing a file after its directory, with nothing to refuse it. *)
Lemma save_calm (f : string -> string) p b fs : calm_fs fs ->
  (_ ← fs_create_dir_all; fs_map_err f (fs_write p b)) fs
  = (set_files fs (<[p := b]> (fs_files fs)), Ok tt).
Proof.
  intros Hc. rewrite fs_run_bind. unfold fs_create_dir_all, fs_meta. rewrite calm_next by done.
  cbn [fst snd]. unfold fs_map_err, fs_write. by rewrite calm_next by done.
Qed.

Lemma from_def_named d l : from_def d = Ok l -> (def_key d).1 <> "".
Proof. unfold from_def, def_key. case_bool_decide; [done|]. done. Qed.

Lemma persist_save_calm p d fs :
  calm_fs fs -> (def_key d).1 <> "" ->
  persist_save p d fs = (set_files fs (<[p := to_json (saved (defs_in fs p) d)]> (fs_files fs)), Ok tt).
Proof.
  intros Hc Hd. unfold persist_save. rewrite bool_decide_eq_false_2 by done.
  rewrite fs_run_bind, load_all_calm by done. cbn [fst snd]. unfold save.
  rewrite bool_decide_eq_false_2 by done. by apply save_calm.
Qed.

Lemma defs_in_written fs p l : defs_in (set_files fs (<[p := to_json l]> (fs_files fs))) p = l.
Proof. unfold defs_in. simpl. by rewrite lookup_insert_eq, serde_roundtrip. Qed.

Lemma register_defs_calm p defs ls s fs :
  Forall2 (fun d l => from_def d = Ok l) defs ls -> calm_fs fs ->
  exists fs', register_defs p defs s fs = (foldl (fun s l => add_model s (ML1 l)) s ls, fs', Ok tt) /\
    calm_fs fs' /\ defs_in fs' p = foldl saved (defs_in fs p) defs /\
    forall q, q <> p -> fs_files fs' !! q = fs_files fs !! q.
Proof.
  intros Hd. revert s fs. induction Hd as [|d l defs ls Hl _ IH]; intros s fs Hc.
  { by exists fs. }
  cbn [register_defs]. rewrite Hl. rewrite persist_save_calm by eauto using from_def_named.
  destruct (IH (add_model s (ML1 l))
    (set_files fs (<[p := to_json (saved (defs_in fs p) d)]> (fs_files fs))) Hc)
    as (fs' & E & Hc' & Hin & Hq).
  exists fs'. split_and!; [exact E|done|by rewrite Hin, defs_in_written|].
  intros q Hne. rewrite Hq by done. simpl. by rewrite lookup_insert_ne.
Qed.

(** Installing a package that fails a check changes nothing.  One that
    passes, with no write refused, registers every model it carries and
    nothing else, keeps each definition once in the models file, and records
    the package as the only one of its name; the store's documents stay as
    they were. *)
Theorem install_effect m t blobs pf mf now s fs :
  mf <> pf -> calm_fs fs ->
  match check m t blobs with
  | Err e => install m t blobs pf mf now s fs = (s, fs, Err e)
  | Ok _ =>
      exists ls fs',
        let pkg := {| ip_manifest := m; ip_installed_at := now |} in
        Forall2 (fun d l => from_def d = Ok l) (mf_document_models m) ls /\
        install m t blobs pf mf now s fs
        = (set_models s (foldl (fun r l => reg_insert r (ML1 l)) (i_models s) ls), fs', Ok pkg) /\
        defs_in fs' mf = foldl saved (defs_in fs mf) (mf_document_models m) /\
        fs_files fs' !! pf = Some (to_json (installed_put (packages_in fs pf) pkg)) /\
        (forall q, q <> mf -> q <> pf -> fs_files fs' !! q = fs_files fs !! q)
  end.
Proof.
  intros Hne Hc. unfold install. destruct (check m t blobs) as [[]|e] eqn:Ek; [|done].
  apply check_exact in Ek as (_ & _ & _ & _ & ls & Hls). exists ls.
  destruct (register_defs_calm mf _ ls s fs Hls Hc) as (fs1 & E & Hc1 & Hd & Hq). rewrite E.
  assert (Hp : packages_in fs1 pf = packages_in fs pf) by (unfold packages_in; by rewrite Hq).
  rewrite fs_run_bind, installed_load_calm by done. cbn [fst snd]. rewrite Hp.
  unfold installed_save. rewrite save_calm by done. eexists. split_and!; [done| | | |].
  - f_equal. f_equal. clear. revert s. induction ls as [|l ls IH]; intros s; simpl; [by destruct s|].
    rewrite IH. by destruct s.
  - unfold defs_in in *. simpl. by rewrite lookup_insert_ne by done.
  - simpl. by rewrite lookup_insert_eq.
  - intros q H1 H2. simpl. rewrite lookup_insert_ne by done. by apply Hq.
Qed.
End InstallProps.

(** ** Decisions over time *)

Inductive TrustOp : Type :=
  | OpTrust (now key name : string)
  | OpRevoke (key : string).
Definition op_subject (o : TrustOp) : string :=
  match o with OpTrust _ k _ => k | OpRevoke k => k end.
Definition trust_step (t : TrustStore) (o : TrustOp) : TrustStore :=
  match o with OpTrust now k n => trust t now k n | OpRevoke k => (revoke t k).1 end.

(** The approval that counts: the first one since the last withdrawal. *)
Fixpoint standing (key : string) (cur : option TrustedPublisher) (l : list TrustOp) :
    option TrustedPublisher :=
  match l with
  | [] => cur
  | OpTrust now k n :: l' =>
      if decide (k = key)
      then standing key (Some (default {| tp_key := k; tp_name := n; tp_approved_at := now |} cur)) l'
      else standing key cur l'
  | OpRevoke k :: l' => if decide (k = key) then standing key None l' else standing key cur l'
  end.

(** After any sequence of approvals and withdrawals a key is trusted
    exactly when its last decision was an approval, and the name and date on
    record are those of the first approval since it was last withdrawn: a
    publisher cannot rename itself, and no decision touches another key. *)
Theorem trust_follows_decisions t l key :
  foldl trust_step t l !! key = standing key (t !! key) l.
Proof.
  revert t. induction l as [|o l IH]; intros t; [done|]. simpl. rewrite IH.
  destruct o as [now k n|k]; simpl.
  - unfold trust. destruct (t !! k) eqn:E; case_decide as Ek; subst; rewrite ?E; try done.
    + by rewrite lookup_insert_eq.
    + by rewrite lookup_insert_ne.
  - case_decide as Ek; subst; [by rewrite lookup_delete_eq|by rewrite lookup_delete_ne].
Qed.

(** One version of each package: the newest put, unless removed since. *)
Lemma installed_put_get l p name :
  installed_get (installed_put l p) name =
  if decide (pkg_name p = name) then Some p else installed_get l name.
Proof.
  unfold installed_get, installed_put. rewrite filter_app, filter_cons, filter_nil.
  case_decide as E.
  - subst. replace (filter _ (filter _ l)) with (@nil InstalledPackage); [done|].
    induction l as [|q l IH]; [done|]. rewrite filter_cons. case_decide; [|done].
    by rewrite filter_cons, decide_False.
  - rewrite app_nil_r. f_equal. induction l as [|q l IH]; [done|].
    rewrite !filter_cons. destruct (decide (pkg_name q = name)) as [Eq|Nq].
    + rewrite decide_True by congruence. rewrite filter_cons, decide_True by done. by rewrite IH.
    + case_decide; [|done]. by rewrite filter_cons, decide_False by done.
Qed.

Lemma installed_put_NoDup l p : NoDup (pkg_name <$> l) -> NoDup (pkg_name <$> installed_put l p).
Proof.
  intros Hn. unfold installed_put. rewrite fmap_app. apply NoDup_app. split_and!.
  - eapply sublist_NoDup; [exact Hn|]. apply fmap_sublist, sublist_filter.
  - intros n (q & -> & [Hq _]%list_elem_of_filter)%list_elem_of_fmap. set_solver.
  - apply NoDup_singleton.
Qed.

(** ** What a signature binds *)

Section Binding.
Context `{Platform} `{!PlatformLaws}.
Implicit Types (m : Manifest).

Lemma hex_encode_inj a b : hex_encode a = hex_encode b -> a = b.
Proof. intros E. pose proof (hex_roundtrip a) as Ha. rewrite E, hex_roundtrip in Ha. congruence. Qed.

Definition blobref_bounded (b : BlobRef) : Prop :=
  (br_hash b < 2 ^ 256)%N /\ Forall (fun h => (h < 2 ^ 256)%N) (br_chunks b).

Lemma hash_json_inj a b : (a < 2 ^ 256)%N -> (b < 2 ^ 256)%N -> hash_json a = hash_json b -> a = b.
Proof.
  intros Ha Hb. unfold hash_json. intros [= E%hex_encode_inj]. unfold hash_bytes in E.
  eapply be_bytes_inj; [| |exact E]; done.
Qed.

Lemma fmap_inj_on {A B} (f : A -> B) (P : A -> Prop) l k :
  (forall a b, P a -> P b -> f a = f b -> a = b) -> Forall P l -> Forall P k ->
  f <$> l = f <$> k -> l = k.
Proof.
  intros Hf Hl. revert k. induction Hl as [|a l Ha _ IH]; intros [|b k] Hk; try done.
  apply Forall_cons_1 in Hk as [Hb Hk]. rewrite !fmap_cons. intros [= E1 E2].
  f_equal; [by apply Hf|by apply IH].
Qed.

Lemma blobref_json_inj a b :
  blobref_bounded a -> blobref_bounded b -> blobref_json a = blobref_json b -> a = b.
Proof.
  destruct a as [h1 s1 c1], b as [h2 s2 c2]. intros [Ha1 Ha2] [Hb1 Hb2]. unfold blobref_json.
  simpl in *. intros [= E1 E2 E3]. f_equal.
  - apply hash_json_inj; [done..|]. unfold hash_json. congruence.
  - lia.
  - eapply (fmap_inj_on hash_json (fun h => (h < 2 ^ 256)%N)); eauto using hash_json_inj.
Qed.

Lemma fmap_inj_all {A B} (f : A -> B) (l k : list A) :
  (forall a b, f a = f b -> a = b) -> f <$> l = f <$> k -> l = k.
Proof.
  intros Hf. apply (fmap_inj_on f (fun _ => True)); [auto| |]; by apply Forall_forall.
Qed.

Lemma json_strs_inj l k : json_strs l = json_strs k -> l = k.
Proof. intros [= E]. eapply fmap_inj_all; [|exact E]. congruence. Qed.

Lemma projection_json_inj p q : projection_json p = projection_json q -> p = q.
Proof.
  destruct p, q. unfold projection_json. simpl. intros [= -> -> -> -> E].
  f_equal. apply json_strs_inj. unfold json_strs. congruence.
Qed.
Lemma attention_json_inj p q : attention_json p = attention_json q -> p = q.
Proof. destruct p, q. unfold attention_json. simpl. congruence. Qed.
Lemma nav_json_inj p q : nav_json p = nav_json q -> p = q.
Proof. destruct p, q. unfold nav_json. simpl. congruence. Qed.
Lemma capability_json_inj p q : capability_json p = capability_json q -> p = q.
Proof.
  destruct p, q. unfold capability_json. simpl. intros [= -> E].
  f_equal. apply json_strs_inj. unfold json_strs. congruence.
Qed.

(** The optional entries are told apart by their keys. *)
Lemma optional_inj {A} (k : string) (a b : option A) (f : A -> Value) (r s : list (string * Value)) :
  head r.*1 <> Some k -> head s.*1 <> Some k ->
  match a with Some x => [(k, f x)] | None => [] end ++ r
  = match b with Some x => [(k, f x)] | None => [] end ++ s ->
  (f <$> a) = (f <$> b) /\ r = s.
Proof.
  intros Hr Hs. destruct a as [x|], b as [y|]; simpl.
  - intros [= E ->]. by rewrite E.
  - intros <-. done.
  - intros ->. done.
  - done.
Qed.

Lemma skip_inj {A} (k : string) (w : Value -> Value) (l j : list A) (f : A -> Value)
    (r s : list (string * Value)) (b c : bool) :
  (forall x y, w x = w y -> x = y) -> (forall x y, f x = f y -> x = y) ->
  (b = true <-> l = []) -> (c = true <-> j = []) ->
  head r.*1 <> Some k -> head s.*1 <> Some k ->
  skip b k (w (Array (f <$> l))) ++ r = skip c k (w (Array (f <$> j))) ++ s -> l = j /\ r = s.
Proof.
  intros Hw Hf Hb Hc Hr Hs. unfold skip. destruct b, c; simpl.
  - intros ->. split; [|done]. by rewrite (proj1 Hb eq_refl), (proj1 Hc eq_refl).
  - intros ->. done.
  - intros <-. done.
  - intros [= E ->]. apply Hw in E. injection E as E. split; [|done]. by eapply fmap_inj_all.
Qed.

Lemma ui_empty_iff ui : ui_is_empty ui = true <-> ui_nav ui = [].
Proof. unfold ui_is_empty. by destruct (ui_nav ui). Qed.

Local Ltac skip_side :=
  first [ by intros | apply projection_json_inj | apply attention_json_inj | apply nav_json_inj
        | by rewrite bool_decide_eq_true | apply ui_empty_iff
        | by unfold skip; repeat case_match | by intros; congruence ].

Lemma manifest_json_inj m m' :
  (forall b, mf_bundle m = Some b -> blobref_bounded b) ->
  (forall b, mf_bundle m' = Some b -> blobref_bounded b) ->
  manifest_json m = manifest_json m' -> m = m'.
Proof.
  intros Hb Hb' [= E1 E2 E3 E4 E5 E6 E7 E8 E9 E].
  apply optional_inj in E as [Eb E]; [|done..]. simpl in E. injection E as Er Ew E.
  apply (skip_inj "projections" (fun v => v)) in E as [Ep E]; [|skip_side..].
  apply (skip_inj "attention" (fun v => v)) in E as [Ea E]; [|skip_side..].
  apply (skip_inj "ui" (fun v => Object [("nav", v)])) in E as [Eu E]; [|skip_side..].
  injection E as E. apply fmap_inj_all in Ew; [|apply capability_json_inj].
  assert (Er' : cap_read (mf_capabilities m) = cap_read (mf_capabilities m')).
  { apply json_strs_inj. unfold json_strs. congruence. }
  assert (Ebu : mf_bundle m = mf_bundle m').
  { destruct (mf_bundle m) as [b|], (mf_bundle m') as [b'|]; try done. simpl in Eb.
    f_equal. apply blobref_json_inj; [by apply Hb|by apply Hb'|]. congruence. }
  destruct m as [? ? ? ? [] ? ? ? ? [] ? ? [] ?], m' as [? ? ? ? [] ? ? ? ? [] ? ? [] ?].
  simpl in *. subst. done.
Qed.

(** A publisher's signature binds the whole manifest.  What is signed with
    the key the manifest names verifies; and two manifests with the same signed
    bytes agree on everything but the signature, or the JSON writer has given
    two different values the same text.  Bundle hashes are 32 bytes. *)
Theorem signature_binds_manifest key m m' :
  (forall b, mf_bundle m = Some b -> blobref_bounded b) ->
  (forall b, mf_bundle m' = Some b -> blobref_bounded b) ->
  (mf_publisher_key m = hex_encode (verifying_key key) ->
   manifest_verify (manifest_sign m key) = Ok tt) /\
  (manifest_bytes m = manifest_bytes m' ->
   set_sig m "" = set_sig m' "" \/
   exists v w, v <> w /\ json_to_vec v = json_to_vec w).
Proof.
  intros Hb Hb'. split.
  - intros Ek. unfold manifest_verify, manifest_sign. cbn [mf_publisher_key set_sig mf_sig].
    change (manifest_bytes (set_sig m _)) with (manifest_bytes m).
    unfold verify_detached. rewrite Ek, !hex_roundtrip, vk_length, vk_valid, sign_length.
    simpl. by rewrite sign_verify.
  - unfold manifest_bytes. intros E.
    destruct (decide (manifest_json (set_sig m "") = manifest_json (set_sig m' ""))) as [Ej|Ej].
    + left. by apply manifest_json_inj in Ej.
    + right. eauto.
Qed.
End Binding.

(** ** A sample package *)

#[export] Instance sample_serde_values : Serde (list Value) := {|
  to_json := fun l => pos_bytes (encode l);
  from_json := fun b => ok_or (decode (bytes_pos b)) "not a list of values"
|}.
#[export] Instance sample_serde_values_laws : SerdeLaws (list Value).
Proof. split. intros l. simpl. by rewrite bytes_pos_bytes, decode_encode. Qed.

Definition lower_char (c : ascii) : ascii :=
  let n := N_of_ascii c in if ((65 <=? n) && (n <=? 90))%N then ascii_of_N (n + 32) else c.
#[export] Instance sample_text_ops : TextOps := {|
  to_lowercase := fun s => String.string_of_list_ascii (lower_char <$> String.list_ascii_of_string s);
  debug_text := in_quotes
|}.

Definition vault_model : Value := json_obj [("name", Str "vault"); ("version", Str "1")].
Definition vault_manifest : Manifest :=
  manifest_sign {| mf_name := "vault"; mf_version := "1.0.0"; mf_description := ""; mf_category := "";
     mf_publisher := {| pi_name := "Acme"; pi_url := "" |};
     mf_publisher_key := hex_encode (verifying_key (sk 9)); mf_document_models := [vault_model];
     mf_processors := []; mf_bundle := None;
     mf_capabilities := {| cap_read := ["vault@1"]; cap_write := [] |}; mf_projections := [];
     mf_attention := [];
     mf_ui := {| ui_nav := [{| nav_label := "Vault"; nav_icon := "V"; nav_view := "main" |}] |};
     mf_sig := "" |} (sk 9).
Definition vault_trust : TrustStore := trust ∅ "2026-01-01" (hex_encode (verifying_key (sk 9))) "Acme".

Lemma signature_binds_manifest_witness : manifest_verify vault_manifest = Ok tt.
Proof.
  refine (proj1 (signature_binds_manifest (sk 9) (set_sig vault_manifest "")
    (set_sig vault_manifest "") _ _) _); [intros b; discriminate..|reflexivity].
Defined.

Section Sample.
#[local] Instance sample_serde_installed : Serde Installed :=
  {| to_json := fun l => as_bytes (String.concat "," (pkg_name <$> l)); from_json := fun _ => Err "" |}.
Definition quiet_fs : Fs := {| fs_files := ∅; fs_sched := [] |}.

Definition vault_node : Inner :=
  open_inner {| dk_index := None; dk_snaps := ∅; dk_alogs := ∅ |} (sk 1) "a" [].

Lemma install_effect_witness :
  exists fs', (install vault_manifest vault_trust ∅ ["packages.json"] ["models.json"] "now"
                 vault_node quiet_fs).2
    = Ok {| ip_manifest := vault_manifest; ip_installed_at := "now" |} /\
    defs_in fs' ["models.json"] = [vault_model] /\
    fs_files fs' !! ["packages.json"] = Some (as_bytes "vault").
Proof.
  pose proof (install_effect vault_manifest vault_trust ∅ ["packages.json"] ["models.json"] "now" vault_node
    quiet_fs ltac:(discriminate) eq_refl) as E.
  assert (Ek : check vault_manifest vault_trust ∅ = Ok tt) by (vm_compute; reflexivity).
  rewrite Ek in E. destruct E as (ls & fs' & _ & Ei & Ed & Ep & _). exists fs'. rewrite Ei.
  split; [reflexivity|]. split; [exact Ed|exact Ep].
Defined.

(** An install that fails leaves something behind: when the models file
    cannot be written the package is not recorded, but its model stays
    registered, so documents of it are accepted until the next start. *)
Theorem failed_install_leaves_model :
  let fs := {| fs_files := ∅; fs_sched := [Done; Done; Refused] |} in
  let out := install vault_manifest vault_trust ∅ ["packages.json"] ["models.json"] "now"
               vault_node fs in
  is_ok out.2 = false /\ fs_files out.1.2 = ∅ /\
  model_available vault_node (modelref_new "vault" "1") = false /\
  model_available out.1.1 (modelref_new "vault" "1") = true.
Proof. split_and!; vm_compute; reflexivity. Qed.

(** A projection that publishes nothing is refused by [projection_validate],
    yet a package that declares one passes [check]. *)
Definition empty_projection : Projection :=
  {| pj_from := "milestone"; pj_on := "accept"; pj_to := "entry"; pj_into := "commons"; pj_fields := [] |}.
Definition careless_manifest : Manifest :=
  manifest_sign {| mf_name := "vault"; mf_version := "1.0.0"; mf_description := ""; mf_category := "";
     mf_publisher := {| pi_name := "Acme"; pi_url := "" |};
     mf_publisher_key := hex_encode (verifying_key (sk 9)); mf_document_models := [];
     mf_processors := []; mf_bundle := None;
     mf_capabilities := {| cap_read := []; cap_write := [] |};
     mf_projections := [empty_projection]; mf_attention := []; mf_ui := {| ui_nav := [] |};
     mf_sig := "" |} (sk 9).
Theorem check_skips_projections :
  is_ok (projection_validate empty_projection) = false /\
  check careless_manifest vault_trust ∅ = Ok tt.
Proof. vm_compute. done. Qed.
End Sample.
