(* ===== verification/Update.v ===== *)
(** Self update (src/update/mod.rs, src/update/apply.rs): signed releases, the
    order of versions, and the steps that put a new binary in place while the
    old one is kept. *)

From stdpp Require Import base gmap strings numbers pretty list.
From Stdlib Require Import Strings.Byte Strings.Ascii.
From S2P Require Import Prelude Json Doc Sample Text Blob Fs Package.

(** ** Versions *)

(** [str::trim_start_matches(c)]. *)
Fixpoint trim_start_char (c : ascii) (s : string) : string :=
  match s with
  | String d s' => if decide (d = c) then trim_start_char c s' else s
  | EmptyString => EmptyString
  end.

(** [str::split(c)]. *)
Fixpoint split_char (c : ascii) (s : string) : list string :=
  match s with
  | EmptyString => [EmptyString]
  | String d s' =>
      if decide (d = c) then EmptyString :: split_char c s'
      else match split_char c s' with
           | p :: ps => String d p :: ps
           | [] => [String d EmptyString]
           end
  end.

(** [parse::<u64>()]: a plus sign is allowed, then at least one digit, and no
    overflow. *)
Definition digit (c : ascii) : option N :=
  let n := N_of_ascii c in if ((48 <=? n) && (n <=? 57))%N then Some (n - 48)%N else None.
Fixpoint parse_digits (acc : N) (s : string) : option N :=
  match s with
  | EmptyString => Some acc
  | String c s' =>
      d ← digit c;
      let acc := (acc * 10 + d)%N in
      if (acc <? U64_MOD)%N then parse_digits acc s' else None
  end.
Definition parse_u64 (s : string) : option N :=
  let s := match s with String "+" s' => s' | _ => s end in
  match s with EmptyString => None | _ => parse_digits 0 s end.

(** The closure [parse] of [compare]. *)
Definition parse_version (s : string) : option (list N) :=
  let core := trim_start_char "v"%char (trim s) in
  if has_char "-"%char core || has_char "+"%char core || bool_decide (core = "") then None
  else mapM parse_u64 (split_char "."%char core).

(** [Vec::resize(n, 0)] to a length that is not smaller. *)
Definition pad (n : nat) (x : list N) : list N := x ++ replicate (n - length x) 0%N.

(** [Ord] of [Vec<u64>]. *)
Fixpoint lex_compare (x y : list N) : comparison :=
  match x, y with
  | [], [] => Eq
  | [], _ :: _ => Lt
  | _ :: _, [] => Gt
  | a :: x', b :: y' => match N.compare a b with Eq => lex_compare x' y' | c => c end
  end.

(** [compare]. *)
Definition compare (a b : string) : option comparison :=
  x ← parse_version a;
  y ← parse_version b;
  let n := Nat.max (length x) (length y) in
  Some (lex_compare (pad n x) (pad n y)).

(** ** Releases *)

Record Release := {
  rl_version : string;
  rl_platform : string;
  rl_notes : string;
  rl_binary : BlobRef;
  rl_publisher_key : string;
  rl_sig : string
}.

Definition set_rl_sig (r : Release) (sig : string) : Release :=
  {| rl_version := rl_version r; rl_platform := rl_platform r; rl_notes := rl_notes r;
     rl_binary := rl_binary r; rl_publisher_key := rl_publisher_key r; rl_sig := sig |}.

Section Releases.
Context `{Platform}.

(** The derived [Serialize] of [Release]. *)
Definition release_json (r : Release) : Value :=
  Object [("version", Str (rl_version r)); ("platform", Str (rl_platform r));
          ("notes", Str (rl_notes r)); ("binary", blobref_json (rl_binary r));
          ("publisher_key", Str (rl_publisher_key r)); ("sig", Str (rl_sig r))].

(** [Release::message_bytes], [Release::sign], [Release::verify]. *)
Definition release_bytes (r : Release) : list byte := json_to_vec (release_json (set_rl_sig r "")).
Definition release_sign (r : Release) (key : SigningKey) : Release :=
  set_rl_sig r (hex_encode (ed_sign key (release_bytes r))).
Definition release_verify (r : Release) : result string unit :=
  verify_detached (rl_publisher_key r) (rl_sig r) (release_bytes r) "release".
End Releases.

(** [Release::is_newer_than], [Release::runs_on]. *)
Definition is_newer_than (r : Release) (current : string) : bool :=
  match compare (rl_version r) current with Some Gt => true | _ => false end.
Definition runs_on (r : Release) (platform : string) : bool := bool_decide (rl_platform r = platform).

(** ** Applying a release *)

Inductive ApplyError : Type :=
  | Corrupt (e : string)
  | Incomplete (n : nat)
  | WrongPlatform (want got : string)
  | NotNewer (current offered : string)
  | ApplyIo (e : string).

(** [Display] of [ApplyError]. *)
Definition apply_error_text (e : ApplyError) : string :=
  match e with
  | Corrupt e => "the staged binary does not match its signed hash: " +:+ e
  | Incomplete n => pretty n +:+ " chunks of the binary have not arrived yet"
  | WrongPlatform want got => "this release is for " +:+ got +:+ ", this node is " +:+ want
  | NotNewer current offered => offered +:+ " does not supersede the running " +:+ current
  | ApplyIo e => e
  end.

Abbreviation applyM := (fsE ApplyError).
Definition refuse {A} (e : ApplyError) : applyM A := fs_fail e.
(** A call of [std::fs] with [map_err(ApplyError::Io)]. *)
Definition io {A} (what : string) (m : fsM A) : applyM A :=
  fs_map_err (fun e => ApplyIo (what +:+ ": " +:+ e)) m.

Definition PROBE : string := ".ph-reactor-write-probe".
Definition STAGED_MARKER : string := "staged.json".

(** [exe.parent().unwrap_or(Path::new("."))]. *)
Definition beside (exe : Path) : Path := default ["."] (parent exe).

(** [is_writable], [staging_dir]. *)
Definition is_writable (dir : Path) : fsM bool :=
  let probe := join dir PROBE in
  r ← fs_try (fs_write probe []);
  match r with
  | Ok _ => _ ← fs_ignore (fs_remove probe); mret true
  | Err _ => mret false
  end.
Definition staging_dir (exe state_dir : Path) : fsM Path :=
  w ← is_writable (beside exe);
  mret (if (w : bool) then beside exe else join state_dir "bin").

Definition staged_path (dir : Path) (version : string) : Path :=
  join dir (".ph-reactor-" +:+ version +:+ ".staged").
Definition previous (target : Path) : Path := with_suffix target ".previous".

Section Apply.
Context `{Platform} (show_hash : Hash32 -> string) (current_platform : string).

(** The refusals before anything is written: platform, version, chunks, hash. *)
Definition verified_bytes (r : Release) (blobs : BlobStore) (current : string) :
    result ApplyError (list byte) :=
  if negb (runs_on r current_platform)
  then Err (WrongPlatform current_platform (rl_platform r))
  else if negb (is_newer_than r current) then Err (NotNewer current (rl_version r))
  else match length (missing blobs (rl_binary r)) with
       | S n => Err (Incomplete (S n))
       | O => match get show_hash blobs (rl_binary r) with
              | Err e => Err (Corrupt e)
              | Ok b => Ok b
              end
       end.

(** Writing the staged file and reading back what landed. *)
Definition stage (staged : Path) (h : Hash32) (bytes : list byte) : applyM unit :=
  _ ← io ("writing " +:+ path_display staged) (fs_write staged bytes);
  written ← io ("re-reading " +:+ path_display staged) (fs_read staged);
  _ ← (if bool_decide (hash32_of written = h) then mret tt
       else _ ← fs_try (fs_remove staged);
            refuse (Corrupt "what landed on disk is not what was verified"));
  io ("chmod " +:+ path_display staged) fs_set_permissions.

(** Keeping what is running. *)
Definition preserve (target staged : Path) : applyM unit :=
  here ← io "" (fs_exists target);
  if (here : bool) then
    r ← fs_try (fs_rename target (previous target));
    match r with
    | Ok _ => mret tt
    | Err e =>
        still ← io "" (fs_exists target);
        if (still : bool)
        then _ ← fs_try (fs_remove staged);
             refuse (ApplyIo ("could not preserve the current binary: " +:+ e))
        else mret tt
    end
  else mret tt.

(** The marker a start from another path will find. *)
Definition marker_body (r : Release) (target : Path) : Value :=
  json_obj [("version", Str (rl_version r)); ("path", Str (path_display target))].
Definition mark_staged (r : Release) (exe dir target : Path) : applyM unit :=
  if bool_decide (target = exe) then mret tt
  else let marker := join dir STAGED_MARKER in
       io ("writing " +:+ path_display marker)
          (fs_write marker (as_bytes (json_to_string (marker_body r target)))).

(** Everything after the staging directory is known. *)
Definition swap (r : Release) (exe dir : Path) (bytes : list byte) : applyM Path :=
  _ ← io ("creating " +:+ path_display dir) fs_create_dir_all;
  let staged := staged_path dir (rl_version r) in
  _ ← stage staged (br_hash (rl_binary r)) bytes;
  let target := if bool_decide (dir = beside exe) then exe else join dir "ph-reactor" in
  _ ← preserve target staged;
  _ ← io ("installing " +:+ path_display target) (fs_rename staged target);
  _ ← mark_staged r exe dir target;
  mret target.

(** [apply]. *)
Definition apply (r : Release) (blobs : BlobStore) (exe state_dir : Path) (current : string) :
    applyM Path :=
  match verified_bytes r blobs current with
  | Err e => refuse e
  | Ok bytes =>
      dir ← io "" (staging_dir exe state_dir);
      swap r exe dir bytes
  end.

(** [rollback], [ready]. *)
Definition rollback (target : Path) : fsM unit :=
  here ← fs_exists (previous target);
  if (here : bool)
  then fs_map_err (fun e => "rolling back: " +:+ e) (fs_rename (previous target) target)
  else fs_fail ("no " +:+ path_display (previous target) +:+ " to roll back to").
Definition ready (blobs : BlobStore) (binary : BlobRef) : bool :=
  is_complete blobs binary && is_ok (get show_hash blobs binary).

(** [staged_replacement]; parsing JSON text and path text are arguments. *)
Definition staged_replacement (parse_json : list byte -> option Value)
    (path_from : string -> Path) (state_dir : Path) (current : string) (fs : Fs) :
    option (Path * string) :=
  let marker := join (join state_dir "bin") STAGED_MARKER in
  raw ← fs_files fs !! marker;
  v ← parse_json raw;
  version ← vget v "version" ≫= as_str;
  path ← path_from <$> (vget v "path" ≫= as_str);
  if bool_decide (is_Some (fs_files fs !! path)) then
    match compare version current with Some Gt => Some (path, version) | _ => None end
  else None.
End Apply.

(** ** The order of versions *)

(** The [i]-th number of a version, zero past its end. *)
Definition at_ (x : list N) (i : nat) : N := default 0%N (x !! i).
Definition ver_eq (x y : list N) : Prop := forall i, at_ x i = at_ y i.
Definition ver_lt (x y : list N) : Prop :=
  exists i, (forall j, j < i -> at_ x j = at_ y j) /\ (at_ x i < at_ y i)%N.

Lemma at_pad n x i : at_ (pad n x) i = at_ x i.
Proof.
  unfold at_, pad. destruct (decide (i < length x)).
  - by rewrite lookup_app_l.
  - rewrite lookup_app_r by lia. rewrite (lookup_ge_None_2 x) by lia.
    destruct (replicate _ _ !! _) as [z|] eqn:E; [|done]. by apply lookup_replicate in E as [-> _].
Qed.

Lemma pad_length n x : length x <= n -> length (pad n x) = n.
Proof. intros Hl. unfold pad. rewrite length_app, length_replicate. lia. Qed.

Lemma ver_lt_cons a x y : ver_lt x y -> ver_lt (a :: x) (a :: y).
Proof.
  intros (i & Hj & Hi). exists (S i). split; [|done]. intros [|j] Hlt; [done|]. apply Hj. lia.
Qed.

Lemma lex_compare_spec x y :
  length x = length y ->
  match lex_compare x y with Eq => x = y | Lt => ver_lt x y | Gt => ver_lt y x end.
Proof.
  revert y. induction x as [|a x IH]; intros [|b y] Hl; simplify_eq/=; [done|].
  destruct (N.compare_spec a b) as [->|Hlt|Hlt].
  - specialize (IH y Hl). destruct (lex_compare x y); [by f_equal|by apply ver_lt_cons..].
  - exists 0. split; [intros j; lia|done].
  - exists 0. split; [intros j; lia|done].
Qed.

Lemma ver_lt_irrefl x y : ver_lt x y -> ver_eq x y -> False.
Proof. intros (i & _ & Hi) He. rewrite (He i) in Hi. lia. Qed.

Lemma ver_lt_asym x y : ver_lt x y -> ver_lt y x -> False.
Proof.
  intros (i & Hj & Hi) (k & Hk & Hk'). destruct (lt_eq_lt_dec i k) as [[?|<-]|?].
  - rewrite (Hk i) in Hi by done. lia.
  - lia.
  - rewrite (Hj k) in Hk' by done. lia.
Qed.

Lemma compare_parsed a b x y :
  parse_version a = Some x -> parse_version b = Some y ->
  exists c, compare a b = Some c /\
    match c with Eq => ver_eq x y | Lt => ver_lt x y | Gt => ver_lt y x end.
Proof.
  intros Ha Hb. unfold compare. rewrite Ha, Hb. simpl. eexists. split; [done|].
  set (n := Nat.max (length x) (length y)).
  pose proof (lex_compare_spec (pad n x) (pad n y)) as Hs.
  rewrite !pad_length in Hs by (unfold n; lia). specialize (Hs eq_refl).
  destruct (lex_compare _ _).
  - intros i. by rewrite <- (at_pad n x), Hs, at_pad.
  - destruct Hs as (i & Hj & Hi). exists i. rewrite !at_pad in Hi. split; [|done].
    intros j Hlt. rewrite <- (at_pad n x), <- (at_pad n y). by apply Hj.
  - destruct Hs as (i & Hj & Hi). exists i. rewrite !at_pad in Hi. split; [|done].
    intros j Hlt. rewrite <- (at_pad n x), <- (at_pad n y). by apply Hj.
Qed.

(** Comparing two versions is comparing them number by number, a missing
    number counting as zero: the first difference decides.  A text that is not
    dotted decimal numbers within 64 bits compares with nothing, so it never
    supersedes and is never superseded. *)
Theorem compare_is_numeric a b :
  match parse_version a, parse_version b with
  | Some x, Some y =>
      (compare a b = Some Eq <-> ver_eq x y) /\ (compare a b = Some Lt <-> ver_lt x y) /\
      (compare a b = Some Gt <-> ver_lt y x)
  | _, _ => compare a b = None
  end.
Proof.
  destruct (parse_version a) as [x|] eqn:Ha; [|unfold compare; by rewrite Ha].
  destruct (parse_version b) as [y|] eqn:Hb; [|unfold compare; by rewrite Ha, Hb].
  destruct (compare_parsed a b x y Ha Hb) as (c & -> & Hc).
  assert (Hsym : ver_eq x y -> ver_eq y x) by (intros He i; by rewrite He).
  destruct c; split_and!; (split; [intros [=]; done|intros Hd]); try done; exfalso;
    eauto using ver_lt_irrefl, ver_lt_asym.
Qed.

(** ** Running the steps *)

Section Steps.
Implicit Types (s : Fs) (p q : Path).

Lemma io_run {A} what (m : fsM A) s :
  io what m s = ((m s).1, match (m s).2 with
                          | Ok a => Ok a
                          | Err e => Err (ApplyIo (what +:+ ": " +:+ e))
                          end).
Proof. unfold io, fs_map_err. by destruct (m s) as [? []]. Qed.

Lemma leaves_io {A} what (m : fsM A) q : leaves m q -> leaves (io what m) q.
Proof. apply leaves_map_err. Qed.

(** The last character of a path tells the program's own files apart. *)
Definition path_end (p : Path) : option ascii :=
  last (String.list_ascii_of_string (default "" (last p))).

Lemma last_ascii_app (a b : string) :
  b <> "" -> last (String.list_ascii_of_string (a +:+ b)) = last (String.list_ascii_of_string b).
Proof.
  intros Hb. rewrite list_ascii_app. destruct b as [|c b]; [done|]. simpl.
  apply last_app_cons.
Qed.

Lemma path_end_join d n : path_end (join d n) = last (String.list_ascii_of_string n).
Proof. unfold path_end, join. by rewrite last_snoc. Qed.
Lemma path_end_previous p : path_end (previous p) = Some "s"%char.
Proof. unfold path_end, previous, with_suffix. rewrite last_snoc. simpl. by rewrite last_ascii_app. Qed.
Lemma path_end_staged d v : path_end (staged_path d v) = Some "d"%char.
Proof.
  unfold staged_path. rewrite path_end_join. rewrite last_ascii_app; [|by destruct v].
  by rewrite last_ascii_app.
Qed.
Lemma path_ends_differ p q : path_end p <> path_end q -> p <> q.
Proof. congruence. Qed.

Lemma slen_app (a b : string) : slen (a +:+ b) = slen a + slen b.
Proof. unfold slen. induction a as [|c a IH]; [done|]. simpl. by rewrite <- IH. Qed.

Lemma previous_ne p : p <> [] -> previous p <> p.
Proof.
  intros Hp E. assert (L : slen (default "" (last (previous p))) = slen (default "" (last p)))
    by by rewrite E. unfold previous, with_suffix in L. rewrite last_snoc in L. simpl in L.
  rewrite slen_app in L. simpl in L. lia.
Qed.

Lemma join_inj d e n k : join d n = join e k -> d = e.
Proof. unfold join. by intros [-> _]%app_inj_tail. Qed.

Lemma join_beside p : p <> [] -> exists n, p = join (beside p) n.
Proof.
  intros Hp. destruct p as [|n p _] using rev_ind; [done|]. exists n. unfold beside, parent.
  destruct (p ++ [n]) eqn:E; [by apply app_eq_nil in E as [_ ?]|]. rewrite <- E. simpl.
  by rewrite removelast_last.
Qed.
End Steps.

Section Safety.
Context `{Platform} (show_hash : Hash32 -> string) (current_platform : string).
Implicit Types (s : Fs) (p q target staged : Path).

(** A path the staging steps do not name keeps its contents. *)
Lemma stage_leaves staged h bytes q : q <> staged -> leaves (stage staged h bytes) q.
Proof.
  intros Hq. unfold stage. apply leaves_bind; [apply leaves_map_err, leaves_write; done|intros _].
  apply leaves_bind; [apply leaves_map_err, leaves_read|intros w].
  apply leaves_bind; [|intros _; apply leaves_map_err, leaves_meta].
  case_match; [apply leaves_ret|].
  apply leaves_bind; [by apply leaves_try, leaves_remove|intros _; apply leaves_fail].
Qed.

(** What passes the check on disk has the signed hash. *)
Lemma stage_ok staged h bytes s :
  (stage staged h bytes s).2 = Ok tt ->
  exists w, fs_files (stage staged h bytes s).1 !! staged = Some w /\ hash32_of w = h.
Proof.
  unfold stage. rewrite fs_run_bind. destruct (io _ (fs_write _ _) s) as [s1 [[]|e]]; [|done].
  cbn [fst snd]. rewrite fs_run_bind, (io_run _ (fs_read staged)).
  pose proof (fs_read_ok staged s1) as Hr. pose proof (leaves_read staged staged s1) as Hl.
  destruct (fs_read staged s1) as [s2 [w|e]]; [|done]. cbn [fst snd] in *.
  specialize (Hr w eq_refl). rewrite fs_run_bind. case_bool_decide as Eh.
  - cbn [fst snd mret fsE_ret]. intros Hp. exists w. split; [|done].
    unfold fs_set_permissions. rewrite (leaves_io _ _ staged (leaves_meta _ staged) s2). by rewrite Hl.
  - rewrite fs_run_bind. done.
Qed.

Lemma preserve_leaves target staged q :
  q <> target -> q <> previous target -> q <> staged -> leaves (preserve target staged) q.
Proof.
  intros H1 H2 H3. unfold preserve. apply leaves_bind; [apply leaves_map_err, leaves_exists|intros []];
    [|apply leaves_ret].
  apply leaves_bind; [by apply leaves_try, leaves_rename|intros []]; [apply leaves_ret|].
  apply leaves_bind; [apply leaves_map_err, leaves_exists|intros []]; [|apply leaves_ret].
  apply leaves_bind; [by apply leaves_try, leaves_remove|intros _; apply leaves_fail].
Qed.

(** Either the running binary was moved aside, or nothing happened to it. *)
Lemma preserve_cases target staged s :
  target <> staged -> previous target <> staged -> previous target <> target ->
  let s' := (preserve target staged s).1 in
  (fs_files s' !! target = fs_files s !! target /\ fs_files s' !! previous target = fs_files s !! previous target /\
   ((preserve target staged s).2 = Ok tt -> fs_files s !! target = None)) \/
  (fs_files s' !! target = None /\ fs_files s' !! previous target = fs_files s !! target).
Proof.
  intros H1 H2 H3. destruct (preserve target staged s) as [s' r] eqn:E. cbn [fst snd].
  unfold preserve in E. rewrite fs_run_bind, io_run in E. unfold fs_exists in E. cbn [fst snd] in E.
  case_bool_decide as Et.
  2:{ injection E as <- <-. left. split_and!; [done..|]. intros _.
      destruct (fs_files s !! target); [|done]. destruct Et. by eexists. }
  rewrite fs_run_bind in E. unfold fs_try in E. cbn [fst snd] in E.
  destruct (fs_rename_cases target (previous target) s) as [(b & Er & Eb & Ef)|[Er Ef]].
  - rewrite Er in E. injection E as <- <-. right. rewrite Ef, lookup_insert_ne by done.
    by rewrite lookup_delete_eq, lookup_insert_eq.
  - destruct (fs_rename target (previous target) s) as [s1 [[]|e]]; [done|]. cbn [fst snd] in *.
    rewrite fs_run_bind, io_run in E. cbn [fst snd] in E. rewrite Ef in E.
    rewrite bool_decide_eq_true_2 in E by done. rewrite fs_run_bind in E. cbn [fst snd] in E.
    injection E as <- <-. left. split_and!; [| |done].
    + by rewrite (leaves_remove staged target H1 s1), Ef.
    + by rewrite (leaves_remove staged (previous target) H2 s1), Ef.
Qed.

(** A successful move leaves the staged file alone. *)
Lemma preserve_keeps_staged target staged s :
  target <> staged -> previous target <> staged -> (preserve target staged s).2 = Ok tt ->
  fs_files (preserve target staged s).1 !! staged = fs_files s !! staged.
Proof.
  intros H1 H2. destruct (preserve target staged s) as [s' r] eqn:E. cbn [fst snd].
  unfold preserve in E. rewrite fs_run_bind, io_run in E. unfold fs_exists in E. cbn [fst snd] in E.
  case_bool_decide; [|by injection E as <- <-]. rewrite fs_run_bind in E. unfold fs_try in E.
  cbn [fst snd] in E. pose proof (leaves_rename target (previous target) staged
    (not_eq_sym H1) (not_eq_sym H2) s) as Hl.
  destruct (fs_rename target (previous target) s) as [s1 [[]|e]]; cbn [fst snd] in *.
  - by injection E as <- <-.
  - rewrite fs_run_bind, io_run in E. cbn [fst snd] in E. case_bool_decide.
    + rewrite fs_run_bind in E. cbn [fst snd] in E. injection E as <- <-. done.
    + injection E as <- <-. done.
Qed.

(** The path a release lands on. *)
Definition target_in (exe dir : Path) : Path :=
  if bool_decide (dir = beside exe) then exe else join dir "ph-reactor".

Lemma mark_leaves r exe dir target q :
  (target <> exe -> q <> join dir STAGED_MARKER) -> leaves (mark_staged r exe dir target) q.
Proof.
  intros Hq. unfold mark_staged. case_bool_decide; [apply leaves_ret|].
  apply leaves_map_err, leaves_write. by apply Hq.
Qed.

Lemma swap_leaves r exe dir bytes q :
  let target := target_in exe dir in
  q <> staged_path dir (rl_version r) -> q <> target -> q <> previous target ->
  (target <> exe -> q <> join dir STAGED_MARKER) -> leaves (swap r exe dir bytes) q.
Proof.
  intros target H1 H2 H3 H4. unfold swap. fold (target_in exe dir). fold target.
  apply leaves_bind; [apply leaves_map_err, leaves_meta|intros _].
  apply leaves_bind; [by apply stage_leaves|intros _].
  apply leaves_bind; [by apply preserve_leaves|intros _].
  apply leaves_bind; [by apply leaves_map_err, leaves_rename|intros _].
  apply leaves_bind; [by apply mark_leaves|intros _; apply leaves_ret].
Qed.

(** What the target may be after a step that could fail anywhere: what it was,
    or, with what it was kept beside it, a binary of the signed hash or (after
    an error) nothing. *)
Definition recoverable (h : Hash32) (old : option (list byte)) target s (ok : bool) : Prop :=
  fs_files s !! target = old \/
  (forall b, old = Some b -> fs_files s !! previous target = Some b) /\
  ((exists w, fs_files s !! target = Some w /\ hash32_of w = h) \/
   (fs_files s !! target = None /\ ok = false)).

Lemma swap_recoverable r exe dir bytes s :
  let target := target_in exe dir in let staged := staged_path dir (rl_version r) in
  target <> staged -> previous target <> target ->
  (target <> exe -> target <> join dir STAGED_MARKER) ->
  let out := swap r exe dir bytes s in
  recoverable (br_hash (rl_binary r)) (fs_files s !! target) target out.1 (is_ok out.2).
Proof.
  intros target staged H1 H2 H3 out.
  assert (H4 : previous target <> staged).
  { apply path_ends_differ. unfold staged. by rewrite path_end_previous, path_end_staged. }
  assert (H5 : target <> exe -> previous target <> join dir STAGED_MARKER).
  { intros _. apply path_ends_differ. by rewrite path_end_previous, path_end_join. }
  unfold out, swap. fold (target_in exe dir). fold target. fold staged. clear out.
  rewrite fs_run_bind.
  pose proof (leaves_io ("creating " +:+ path_display dir) fs_create_dir_all target (leaves_meta _ _) s) as E1.
  destruct (io _ fs_create_dir_all s) as [s1 [[]|e]]; cbn [fst snd] in *; [|by left].
  rewrite fs_run_bind. pose proof (stage_leaves staged (br_hash (rl_binary r)) bytes target H1 s1) as E2.
  pose proof (stage_ok staged (br_hash (rl_binary r)) bytes s1) as Ew.
  destruct (stage staged _ bytes s1) as [s2 [[]|e]]; cbn [fst snd] in *; [|left; congruence].
  destruct (Ew eq_refl) as (w & Hw & Hh). clear Ew.
  rewrite fs_run_bind. pose proof (preserve_cases target staged s2 H1 H4 H2) as Ep. cbn zeta in Ep.
  pose proof (preserve_keeps_staged target staged s2) as Ek.
  destruct (preserve target staged s2) as [s3 [[]|e]]; cbn [fst snd] in *.
  2:{ destruct Ep as [(Et & _)|[Et Epr]]; [left; congruence|right].
      split; [intros b Eb; congruence|right; by split]. }
  rewrite fs_run_bind, io_run. cbn [fst snd].
  assert (Hst : fs_files s3 !! staged = Some w) by (rewrite Ek; done). clear Ek.
  destruct (fs_rename_cases staged target s3) as [(b & Er & Eb & Ef)|[Er Ef]].
  - rewrite Er. rewrite fs_run_bind. set (s4 := (fs_rename staged target s3).1) in *.
    pose proof (mark_leaves r exe dir target target H3 s4) as M1.
    pose proof (mark_leaves r exe dir target (previous target) H5 s4) as M2.
    assert (G1 : fs_files s4 !! target = Some w) by (rewrite Ef, lookup_insert_eq; congruence).
    assert (G2 : fs_files s4 !! previous target = fs_files s3 !! previous target).
    { rewrite Ef, lookup_insert_ne, lookup_delete_ne by done. done. }
    destruct (mark_staged r exe dir target s4) as [s5 [[]|e]]; cbn [fst snd] in *; right;
      (split; [|left; exists w; split; [simpl; congruence|done]]); intros b' Eb'; simpl;
      rewrite M2, G2; (destruct Ep as [(Et & _ & En)|[Et Epr]]; [specialize (En eq_refl)|]); congruence.
  - destruct (fs_rename staged target s3) as [s4 [[]|e]]; [done|]. cbn [fst snd] in *.
    destruct Ep as [(Et & _ & En)|[Et Epr]].
    + left. rewrite Ef. congruence.
    + right. rewrite Ef. split; [intros b Eb; congruence|right; by split].
Qed.

Lemma staging_dir_leaves exe state_dir q :
  q <> join (beside exe) PROBE -> leaves (staging_dir exe state_dir) q.
Proof.
  intros Hq. unfold staging_dir, is_writable. apply leaves_bind; [|intros; apply leaves_ret].
  apply leaves_bind; [by apply leaves_try, leaves_write|intros []]; [|apply leaves_ret].
  apply leaves_bind; [by apply leaves_ignore, leaves_remove|intros; apply leaves_ret].
Qed.

Lemma staging_dir_result exe state_dir s :
  (staging_dir exe state_dir s).2 = Ok (beside exe) \/
  (staging_dir exe state_dir s).2 = Ok (join state_dir "bin").
Proof.
  unfold staging_dir, is_writable, mbind, fsE_bind, fs_try.
  destruct (fs_write _ _ s) as [s1 [[]|e]]; [left|right]; reflexivity.
Qed.

(** The paths a release may land on. *)
Definition landing (exe state_dir t : Path) : Prop :=
  t = exe \/ t = join (join state_dir "bin") "ph-reactor".

(** Neither of them is a file the update makes for itself. *)
Lemma landing_apart r exe state_dir t :
  exe <> [] -> exe <> staged_path (beside exe) (rl_version r) ->
  exe <> join (beside exe) PROBE -> landing exe state_dir t ->
  t <> [] /\ t <> join (beside exe) PROBE /\
  forall dir, t <> staged_path dir (rl_version r).
Proof.
  intros H0 H1 H2 [->| ->].
  - split_and!; [done..|]. intros dir E. apply H1. destruct (join_beside exe H0) as [n En].
    assert (Ed : beside exe = dir) by (eapply join_inj; rewrite <- En; exact E). by rewrite Ed.
  - split_and!; [by intros []%app_eq_nil|apply path_ends_differ; by rewrite !path_end_join|].
    intros dir. apply path_ends_differ. by rewrite path_end_join, path_end_staged.
Qed.


(** With nothing refused, each call is its effect. *)

Lemma disk_write p b m : fs_write p b (disk m) = (disk (<[p := b]> m), Ok tt).
Proof. done. Qed.
Lemma disk_read p b m : m !! p = Some b -> fs_read p (disk m) = (disk m, Ok b).
Proof. intros E. unfold fs_read. simpl. by rewrite E. Qed.
Lemma disk_rename p q b m : m !! p = Some b -> fs_rename p q (disk m) = (disk (<[q := b]> (delete p m)), Ok tt).
Proof. intros E. unfold fs_rename. simpl. by rewrite E. Qed.
Lemma disk_remove p b m : m !! p = Some b -> fs_remove p (disk m) = (disk (delete p m), Ok tt).
Proof. intros E. unfold fs_remove. simpl. by rewrite E. Qed.

Lemma disk_staging exe state_dir m : join (beside exe) PROBE ∉ dom m ->
  staging_dir exe state_dir (disk m) = (disk m, Ok (beside exe)).
Proof.
  intros Hp. unfold staging_dir, is_writable, mbind, fsE_bind, fs_try, fs_ignore.
  rewrite disk_write. cbn [fst snd]. rewrite (disk_remove _ []) by apply lookup_insert_eq.
  cbn [fst]. rewrite delete_insert_id by (by apply not_elem_of_dom). done.
Qed.

Lemma disk_stage staged h bytes m : hash32_of bytes = h ->
  stage staged h bytes (disk m) = (disk (<[staged := bytes]> m), Ok tt).
Proof.
  intros Eh. unfold stage. rewrite fs_run_bind, io_run, disk_write. cbn [fst snd].
  rewrite fs_run_bind, io_run, (disk_read _ bytes) by apply lookup_insert_eq. cbn [fst snd].
  rewrite bool_decide_eq_true_2 by done. done.
Qed.

Lemma disk_preserve target staged b m : m !! target = Some b ->
  preserve target staged (disk m) = (disk (<[previous target := b]> (delete target m)), Ok tt).
Proof.
  intros E. unfold preserve. rewrite fs_run_bind, io_run. unfold fs_exists. cbn [fst snd fs_files].
  rewrite bool_decide_eq_true_2 by (rewrite E; by eexists).
  rewrite fs_run_bind. unfold fs_try. by rewrite (disk_rename _ _ b).
Qed.

Lemma disk_rollback target b m : m !! previous target = Some b ->
  rollback target (disk m) = (disk (<[target := b]> (delete (previous target) m)), Ok tt).
Proof.
  intros E. unfold rollback. rewrite fs_run_bind. unfold fs_exists. cbn [fst snd fs_files].
  rewrite bool_decide_eq_true_2 by (rewrite E; by eexists).
  unfold fs_map_err. by rewrite (disk_rename _ _ b).
Qed.

(** With nothing refused, a release that passes its checks is installed in
    place: the running path holds the bytes whose hash was signed, the old
    binary is kept under [.previous], no marker is left, and a rollback puts
    the old binary back. *)
Theorem update_then_rollback r blobs exe state_dir current m old bytes :
  exe <> [] -> exe <> staged_path (beside exe) (rl_version r) ->
  m !! exe = Some old -> join (beside exe) PROBE ∉ dom m ->
  verified_bytes show_hash current_platform r blobs current = Ok bytes ->
  exists m', apply show_hash current_platform r blobs exe state_dir current (disk m) = (disk m', Ok exe) /\
    m' !! exe = Some bytes /\ m' !! previous exe = Some old /\ hash32_of bytes = br_hash (rl_binary r) /\
    exists m2, rollback exe (disk m') = (disk m2, Ok tt) /\ m2 !! exe = Some old.
Proof.
  intros H0 H1 Ho Hp Hv.
  assert (Hh : hash32_of bytes = br_hash (rl_binary r)).
  { unfold verified_bytes in Hv. repeat case_match; try done. injection Hv as <-.
    by eapply get_ok. }
  assert (Hne : previous exe <> staged_path (beside exe) (rl_version r)).
  { apply path_ends_differ. by rewrite path_end_previous, path_end_staged. }
  unfold apply. rewrite Hv, fs_run_bind, io_run, disk_staging by done. cbn [fst snd].
  unfold swap. rewrite (bool_decide_eq_true_2 (beside exe = beside exe)) by done.
  rewrite fs_run_bind, io_run. cbn [fst snd fs_create_dir_all fs_meta next_outcome fs_sched].
  rewrite fs_run_bind, disk_stage by done. cbn [fst snd].
  rewrite fs_run_bind, (disk_preserve _ _ old) by (by rewrite lookup_insert_ne). cbn [fst snd].
  rewrite fs_run_bind, io_run, (disk_rename _ _ bytes).
  2:{ rewrite lookup_insert_ne, lookup_delete_ne by done. apply lookup_insert_eq. }
  cbn [fst snd]. rewrite fs_run_bind. unfold mark_staged. rewrite bool_decide_eq_true_2 by done.
  eexists. split; [reflexivity|]. rewrite lookup_insert_eq.
  assert (Hpo : (<[exe := bytes]> (delete (staged_path (beside exe) (rl_version r))
     (<[previous exe := old]> (delete exe (<[staged_path (beside exe) (rl_version r) := bytes]> m)))))
     !! previous exe = Some old).
  { rewrite lookup_insert_ne by (by apply not_eq_sym, previous_ne).
    rewrite lookup_delete_ne by done. apply lookup_insert_eq. }
  split_and!; [done|exact Hpo|done|]. eexists. split; [by apply disk_rollback|].
  apply lookup_insert_eq.
Qed.
End Safety.

(** ** Concrete runs *)

Definition new_binary : list byte := [x01; x02].
Definition new_blobs : BlobStore := (put sample_show ∅ new_binary).1.
Definition new_release : Release :=
  {| rl_version := "1.10.0"; rl_platform := "x86_64-linux"; rl_notes := "";
     rl_binary := blobref_of new_binary; rl_publisher_key := hex_encode (verifying_key (sk 9));
     rl_sig := "" |}.
Definition opt_exe : Path := ["opt"; "ph-reactor"].
Definition old_disk : gmap Path (list byte) := {[ opt_exe := [x00] ]}.
Definition upgrade (s : Fs) : Fs * result ApplyError Path :=
  apply sample_show "x86_64-linux" new_release new_blobs opt_exe ["state"] "1.9.0" s.

Example versions_numeric :
  compare "v1.10.0" "1.9" = Some Gt /\ compare "1.8" "1.8.0" = Some Eq /\
  compare "1.8.0-rc1" "1.8.0" = None /\ compare "1.18446744073709551616" "1" = None.
Proof. vm_compute. done. Qed.

Lemma update_then_rollback_witness :
  exists m', upgrade {| fs_files := old_disk; fs_sched := [] |}
             = ({| fs_files := m'; fs_sched := [] |}, Ok opt_exe) /\
    m' !! opt_exe = Some new_binary /\ m' !! previous opt_exe = Some [x00].
Proof.
  destruct (update_then_rollback sample_show "x86_64-linux" new_release new_blobs opt_exe ["state"]
    "1.9.0" old_disk [x00] new_binary) as (m' & E & E1 & E2 & _);
    [discriminate|discriminate|vm_compute; reflexivity|apply not_elem_of_dom; vm_compute; reflexivity
    |vm_compute; reflexivity|].
  exists m'. split; [exact E|]. split; [exact E1|exact E2].
Defined.

(** The last rename is refused. *)
Definition unlucky : Fs :=
  {| fs_files := old_disk;
     fs_sched := [Done; Done; Done; Done; Done; Done; Done; Refused] |}.


(** An update can leave no binary: when the operating system moves the
    running one aside and then refuses to move the new one in, [apply] returns
    the error without putting the old one back, and the path the supervisor
    starts from is empty. *)
Theorem update_can_leave_nothing :
  fs_files unlucky !! opt_exe = Some [x00] /\ is_ok (upgrade unlucky).2 = false /\
  fs_files (upgrade unlucky).1 !! opt_exe = None /\
  fs_files (upgrade unlucky).1 !! previous opt_exe = Some [x00].
Proof. split_and!; vm_compute; reflexivity. Qed.
