(* ===== verification/Processor.v ===== *)
(** User-configurable processors and projections (src/processor.rs,
    src/projection.rs): subscriptions on the change feed that run a reaction,
    and the records a package publishes from one space into another.

    The shell, the clock and fresh document ids are arguments: [exec] gives the
    outcome of a command, [clock i] and [fresh i] what the [i]-th reaction of a
    dispatch sees. *)

From stdpp Require Import base gmap strings numbers pretty list.
From Stdlib Require Import Strings.Byte Strings.Ascii.
From S2P Require Import Prelude Json Doc Sample Action Model Builtins Entry Redeliver Store StoreInv.
From S2P Require Import StoreProps Apps Scenario Text Fs Package.

(** ** Filters *)

(** [ActionFilter]. *)
Record ActionFilter := {
  af_models : list string;
  af_action_kind : option string;
  af_field : option string;
  af_value : option Value
}.

(** One optional constraint of a filter. *)
Definition constraint {A} `{EqDecision A} (want got : option A) : bool :=
  match want with None => true | Some x => bool_decide (got = Some x) end.

(** [ActionFilter::matches]. *)
Definition matches (f : ActionFilter) (c : DocChange) : bool :=
  (bool_decide (af_models f = []) || contains (af_models f) (mr_name (dc_model c)))
  && constraint (af_action_kind f) (dc_action_kind c)
  && constraint (af_field f) (dc_action_field c)
  && constraint (af_value f) (dc_action_value c).

(** ** Specs *)

Inductive Reaction : Type :=
  | Log (message : string)
  | Run (command : string)
  | Emit (event : string)
  | CreateDoc (model name : string) (fields : gmap string Value).

Record ProcessorSpec := {
  ps_name : string;
  ps_models : list string;
  ps_action_kind : option string;
  ps_field : option string;
  ps_value : option Value;
  ps_reaction : Reaction;
  ps_created : N
}.

Record Fire := {
  fi_spec : string;
  fi_doc : string;
  fi_model : string;
  fi_action : option string;
  fi_detail : string;
  fi_ts : N
}.

(** [ProcessorSpec::filter]. *)
Definition spec_filter (s : ProcessorSpec) : ActionFilter :=
  {| af_models := ps_models s; af_action_kind := ps_action_kind s; af_field := ps_field s;
     af_value := ps_value s |}.

Definition with_created (s : ProcessorSpec) (t : N) : ProcessorSpec :=
  {| ps_name := ps_name s; ps_models := ps_models s; ps_action_kind := ps_action_kind s;
     ps_field := ps_field s; ps_value := ps_value s; ps_reaction := ps_reaction s;
     ps_created := t |}.

(** [iter_mut().find] and the assignment through it: the first spec of the
    name is replaced and keeps its creation time. *)
Fixpoint replace_spec (specs : list ProcessorSpec) (spec : ProcessorSpec) :
    option (list ProcessorSpec) :=
  match specs with
  | [] => None
  | p :: rest =>
      if decide (ps_name p = ps_name spec) then Some (with_created spec (ps_created p) :: rest)
      else cons p <$> replace_spec rest spec
  end.

Definition spec_key (s : ProcessorSpec) : N * string := (ps_created s, ps_name s).

(** [set_spec] and [remove_spec] on the list; saving follows. *)
Definition put_spec (specs : list ProcessorSpec) (spec : ProcessorSpec) : list ProcessorSpec :=
  sort_by_key spec_key (default (specs ++ [spec]) (replace_spec specs spec)).
Definition drop_spec (specs : list ProcessorSpec) (name : string) : list ProcessorSpec :=
  filter (fun s => ps_name s <> name) specs.

(** ** Reactions *)

(** [str::replace] of a non-empty pattern: the first [skip] characters belong
    to an occurrence already replaced. *)
Fixpoint replace_from (skip : nat) (pat rep s : string) : string :=
  match s with
  | EmptyString => EmptyString
  | String c s' =>
      match skip with
      | S k => replace_from k pat rep s'
      | O => if String.prefix pat s
             then rep +:+ replace_from (slen pat - 1) pat rep s'
             else String c (replace_from 0 pat rep s')
      end
  end.
Definition replace_all (pat rep s : string) : string := replace_from 0 pat rep s.

(** [substitute]. *)
Definition substitute (template doc model : string) : string :=
  replace_all "$name" doc (replace_all "$model" model (replace_all "$doc" doc template)).

(** How a command ended. *)
Inductive RunOutcome : Type :=
  | Exited (status : string)
  | SpawnFailed (e : string)
  | TimedOut.

Definition HISTORY_CAP : nat := 50.

Section Reactions.
Context `{Platform} (exec : string -> string -> string -> RunOutcome).
Context (clock : nat -> N) (fresh : nat -> DocId).
Implicit Types (s : Inner) (spec : ProcessorSpec) (c : DocChange).

(** The payload of a created document. *)
Definition create_payload (doc_name doc model : string) (fields : gmap string Value) : Value :=
  Object (foldl (fun m kv =>
            obj_insert kv.1 (match as_str kv.2 with
                             | Some t => Str (substitute t doc model)
                             | None => kv.2
                             end) m)
            [("__name__", Str doc_name)] (btree_iter fields)).

(** [perform]: the store after the reaction, and the line for the history.
    In the [CreateDoc] arm [model] is the reaction's own field, as in the
    code, where it shadows the triggering document's model. *)
Definition perform (i : nat) s spec c : Inner * string :=
  let doc := dc_name c in
  let model := mr_name (dc_model c) in
  match ps_reaction spec with
  | Log message => (s, substitute message doc model)
  | Emit event => (s, substitute event doc model)
  | Run command =>
      let cmd := substitute command doc model in
      (s, match exec cmd doc model with
          | Exited status => "ran: " +:+ cmd +:+ " (exit " +:+ status +:+ ")"
          | SpawnFailed e => "run failed: " +:+ cmd +:+ " (" +:+ e +:+ ")"
          | TimedOut => "run timed out: " +:+ cmd
          end)
  | CreateDoc model name fields =>
      let doc_name := substitute name doc model in
      match get_doc s doc_name with
      | Some _ => (s, "doc '" +:+ doc_name +:+ "' already exists (skipped)")
      | None =>
          let model_name := substitute model doc model in
          let '(s, r) := create_doc_model (clock i) (fresh i) doc_name
                           (modelref_new model_name "1")
                           (create_payload doc_name doc model fields) s in
          (s, match r with
              | Ok _ => "created '" +:+ doc_name +:+ "'"
              | Err e => "create '" +:+ doc_name +:+ "' failed: " +:+ e
              end)
      end
  end.

(** [VecDeque::push_back], then [pop_front] over the cap. *)
Definition record_fire (h : gmap string (list Fire)) (f : Fire) : gmap string (list Fire) :=
  let d := default [] (h !! fi_spec f) ++ [f] in
  <[fi_spec f := if HISTORY_CAP <? length d then tail d else d]> h.

(** One turn of [dispatch]'s loop. *)
Definition dispatch_spec c (st : Inner * gmap string (list Fire)) (isp : nat * ProcessorSpec) :
    Inner * gmap string (list Fire) :=
  let '(s, h) := st in
  let '(i, spec) := isp in
  if matches (spec_filter spec) c then
    let '(s, detail) := perform i s spec c in
    (s, record_fire h {| fi_spec := ps_name spec; fi_doc := dc_name c;
                         fi_model := mr_name (dc_model c); fi_action := dc_action_kind c;
                         fi_detail := detail; fi_ts := clock i |})
  else (s, h).

(** [dispatch]. *)
Definition dispatch (specs : list ProcessorSpec) (st : Inner * gmap string (list Fire)) c :
    Inner * gmap string (list Fire) :=
  foldl (dispatch_spec c) st (imap pair specs).
End Reactions.

(** [reference_spec]; [now] is [now_ms()]. *)
Definition reference_spec (now : N) : ProcessorSpec :=
  {| ps_name := "pay-on-invoice-accepted"; ps_models := ["invoice"];
     ps_action_kind := Some "set-status"; ps_field := Some "status";
     ps_value := Some (Str "accepted");
     ps_reaction := Run "echo 'ph-reactor: invoice $PH_DOC accepted - payment due'";
     ps_created := now |}.

(** ** The runner *)

Section Runner.
Context `{!Serde (list ProcessorSpec)}.

(** [load_specs]: [blank] says whether the text is white space only. *)
Definition load_specs (blank : list byte -> bool) (path : Path) : fsM (list ProcessorSpec) :=
  raw ← fs_try (fs_read path);
  mret match raw with
       | Err _ => []
       | Ok raw => if blank raw then []
                   else match from_json raw with Ok l => l | Err _ => [] end
       end.
(** [save_specs]: best effort. *)
Definition save_specs (path : Path) (specs : list ProcessorSpec) : fsM unit :=
  _ ← fs_ignore fs_create_dir_all;
  fs_ignore (fs_write path (to_json specs)).

Inductive RunnerCmd : Type :=
  | SetSpec (spec : ProcessorSpec)
  | RemoveSpec (name : string).

(** The command arm of [run], with [set_spec] and [remove_spec]. *)
Definition run_cmd (path : Path) (specs : list ProcessorSpec) (cmd : RunnerCmd) (fs : Fs) :
    list ProcessorSpec * Fs :=
  let specs := match cmd with
               | SetSpec spec => put_spec specs spec
               | RemoveSpec name => drop_spec specs name
               end in
  (specs, (save_specs path specs fs).1).
End Runner.

(** [ProcessorHandle::specs], [ProcessorHandle::fires]: newest first. *)
Definition handle_specs (specs : list ProcessorSpec) : list ProcessorSpec := reverse specs.
Definition handle_fires (h : gmap string (list Fire)) (name : string) : list Fire :=
  reverse (default [] (h !! name)).

(** ** Projections *)

Section Projections.
Context `{Platform} (clock : nat -> N) (fresh : nat -> DocId).
Implicit Types (s : Inner) (p : Projection) (c : DocChange).

(** [projection::matches], [target_name], [payload]. *)
Definition projection_matches p c : bool :=
  bool_decide (mr_name (dc_model c) = pj_from p) && bool_decide (dc_action_kind c = Some (pj_on p)).
Definition target_name p (source_name : string) : string := source_name +:+ "-" +:+ pj_to p.
Definition copy_field c (m : list (string * Value)) (f : string) : list (string * Value) :=
  match doc_fields (ds_doc (dc_state c)) !! f with
  | Some x => if fld_deleted x then m else obj_insert f (fld_value x) m
  | None => m
  end.
Definition projection_payload p c (name : string) : Value :=
  Object (foldl (copy_field c) [("name", Str name)] (pj_fields p)).

(** One turn of [run_one]'s loop. *)
Definition publish c s (ip : nat * Projection) : Inner :=
  let '(i, p) := ip in
  if negb (projection_matches p c) then s else
  let name := target_name p (dc_name c) in
  match get_doc s name with
  | Some _ => s
  | None =>
      match get_doc s (pj_into p) with
      | None => s
      | Some d =>
          (create_doc_in_space (clock i) (fresh i) name (modelref_new (pj_to p) "1")
             (projection_payload p c name) (Some (doc_id d)) s).1
      end
  end.

(** [run_one]. *)
Definition run_one s (projections : list Projection) c : Inner :=
  foldl (publish c) s (imap pair projections).

(** One turn of the loop of [projection::spawn]: the projections of every
    installed package, the list read again for each change. *)
Definition project_change `{Serde Installed} (packages_file : Path) (c : DocChange) s fs : Inner * Fs :=
  match installed_load packages_file fs with
  | (fs, Ok l) => (run_one s (l ≫= (mf_projections ∘ ip_manifest)) c, fs)
  | (fs, Err _) => (s, fs)
  end.
End Projections.

(** ** The list of specs *)

Section SpecsLemmas.
Implicit Types (l : list ProcessorSpec) (sp q : ProcessorSpec).

(** One spec per name, oldest first. *)
Definition specs_ok l : Prop := NoDup (ps_name <$> l) /\ sorted_by spec_key l.

(** The creation time a spec keeps when it is set: that of the one it
    replaces, if there is one. *)
Definition created_of l sp : N :=
  default (ps_created sp) (ps_created <$> head (filter (fun p => ps_name p = ps_name sp) l)).

Lemma replace_spec_Some l sp l' :
  replace_spec l sp = Some l' ->
  ps_name <$> l' = ps_name <$> l /\
  (NoDup (ps_name <$> l) -> forall q, q ∈ l' <->
     q ∈ l /\ ps_name q <> ps_name sp \/ q = with_created sp (created_of l sp)).
Proof.
  revert l'. induction l as [|p l IH]; intros l'; [done|]. cbn [replace_spec].
  unfold created_of. rewrite filter_cons. destruct (decide (ps_name p = ps_name sp)) as [E|Hne].
  - intros [= <-]. rewrite !fmap_cons. split; [by rewrite E|]. intros [Hni _]%NoDup_cons q.
    simpl. rewrite !elem_of_cons. split; [|naive_solver].
    intros [->|Hq]; [by right|left]. split; [by right|]. intros Eq. apply Hni.
    rewrite E, <- Eq. by apply list_elem_of_fmap_2.
  - intros (l2 & Hl2 & ->)%fmap_Some_1. destruct (IH l2 Hl2) as [En Hq]. rewrite !fmap_cons.
    split; [by f_equal|]. intros [_ Hn]%NoDup_cons q. specialize (Hq Hn q).
    rewrite !elem_of_cons, Hq. fold (created_of l sp). naive_solver.
Qed.

Lemma replace_spec_None l sp : replace_spec l sp = None -> ps_name sp ∉ ps_name <$> l.
Proof.
  induction l as [|p l IH]; cbn [replace_spec]; [intros _; apply not_elem_of_nil|].
  case_decide as E; [done|]. intros Hn%fmap_None. rewrite fmap_cons. apply not_elem_of_cons.
  split; [congruence|auto].
Qed.

Lemma created_of_new l sp : ps_name sp ∉ ps_name <$> l -> created_of l sp = ps_created sp.
Proof.
  intros Hn. unfold created_of. replace (filter _ l) with (@nil ProcessorSpec); [done|]. symmetry.
  induction l as [|p l IH]; [done|]. rewrite filter_cons, decide_False; [apply IH|]; set_solver.
Qed.

Lemma with_created_id sp : with_created sp (ps_created sp) = sp.
Proof. by destruct sp. Qed.

Lemma put_spec_spec l sp :
  NoDup (ps_name <$> l) ->
  specs_ok (put_spec l sp) /\
  forall q, q ∈ put_spec l sp <->
    q ∈ l /\ ps_name q <> ps_name sp \/ q = with_created sp (created_of l sp).
Proof.
  intros Hn. unfold put_spec, specs_ok. destruct (replace_spec l sp) as [l'|] eqn:E; simpl.
  - apply replace_spec_Some in E as [En Hq]. split_and!.
    + by rewrite sort_by_key_perm, En.
    + apply sort_by_key_sorted.
    + intros q. rewrite sort_by_key_perm. by apply Hq.
  - apply replace_spec_None in E. split_and!.
    + rewrite sort_by_key_perm, fmap_app. apply NoDup_app.
      split_and!; [done| |apply NoDup_singleton]. set_solver.
    + apply sort_by_key_sorted.
    + intros q. rewrite sort_by_key_perm, elem_of_app, list_elem_of_singleton, created_of_new by done.
      rewrite with_created_id. split; [|naive_solver]. intros [Hq|?]; [left|by right].
      split; [done|]. intros Eq. apply E. rewrite <- Eq. by apply list_elem_of_fmap_2.
Qed.

Lemma sorted_by_filter {A K} `{TotalOrd K} (key : A -> K) (P : A -> Prop) `{!forall x, Decision (P x)}
    (l : list A) :
  sorted_by key l -> sorted_by key (filter P l).
Proof.
  induction 1 as [|x l Hx _ IH]; [constructor|]. rewrite filter_cons. case_decide; [|done].
  constructor; [|done]. apply Forall_forall. intros y [_ Hy]%list_elem_of_filter.
  by eapply Forall_forall in Hx.
Qed.
End SpecsLemmas.

Section SpecsProps.
Context `{!Serde (list ProcessorSpec)}.

(** The processor list is one spec per name, ordered by creation: a command
    keeps it so; setting a spec replaces the one of its name and keeps the
    original creation time, leaving all others; removing drops exactly that
    name; and the file then holds the list, when it can be written. *)
Theorem specs_command_exact path l cmd fs :
  specs_ok l ->
  let out := run_cmd path l cmd fs in
  specs_ok out.1 /\
  (forall q, q ∈ out.1 <->
     match cmd with
     | SetSpec sp => q ∈ l /\ ps_name q <> ps_name sp \/ q = with_created sp (created_of l sp)
     | RemoveSpec name => q ∈ l /\ ps_name q <> name
     end) /\
  (calm_fs fs -> fs_files out.2 !! path = Some (to_json out.1)).
Proof.
  intros [Hn Hs] out. split; [|split].
  - unfold out. destruct cmd as [sp|name]; simpl; [by apply put_spec_spec|]. split.
    + eapply sublist_NoDup; [exact Hn|]. apply fmap_sublist, sublist_filter.
    + by apply sorted_by_filter.
  - intros q. unfold out. destruct cmd as [sp|name]; simpl; [by apply put_spec_spec|].
    unfold drop_spec. rewrite list_elem_of_filter. naive_solver.
  - intros Hc. unfold out, run_cmd, save_specs. cbn [fst snd]. rewrite fs_run_bind.
    unfold fs_ignore, fs_create_dir_all, fs_meta. rewrite calm_next by done. cbn [fst snd].
    unfold fs_write. rewrite calm_next by done. apply lookup_insert_eq.
Qed.
End SpecsProps.

(** ** The fire history *)

Section HistoryProps.
Context `{Platform} (exec : string -> string -> string -> RunOutcome).
Context (clock : nat -> N) (fresh : nat -> DocId).
Implicit Types (s : Inner) (specs : list ProcessorSpec) (c : DocChange) (h : gmap string (list Fire)).

Definition fires h (n : string) : list Fire := default [] (h !! n).

(** The last [n] elements. *)
Definition lastn {A} (n : nat) (l : list A) : list A := drop (length l - n) l.

Lemma lastn_length {A} n (l : list A) : length (lastn n l) = Nat.min n (length l).
Proof. unfold lastn. rewrite length_drop. lia. Qed.

Lemma lastn_all {A} n (l : list A) : length l <= n -> lastn n l = l.
Proof. intros Hl. unfold lastn. replace (length l - n) with 0 by lia. done. Qed.

(** A fire goes to the end of its spec's list, over the cap the oldest goes. *)
Lemma record_fire_lookup h f n :
  (forall k, length (fires h k) <= HISTORY_CAP) ->
  fires (record_fire h f) n =
  if decide (n = fi_spec f) then lastn HISTORY_CAP (fires h n ++ [f]) else fires h n.
Proof.
  intros Hb. unfold fires, record_fire in *. case_decide as E; [subst n|by rewrite lookup_insert_ne].
  rewrite lookup_insert_eq. simpl. specialize (Hb (fi_spec f)).
  set (d := default [] (h !! fi_spec f)) in *. rewrite length_app. simpl.
  destruct (Nat.ltb_spec HISTORY_CAP (length d + 1)) as [Hl|Hl].
  - unfold lastn. rewrite length_app. simpl.
    replace (length d + 1 - HISTORY_CAP) with 1 by lia. by destruct (d ++ [f]).
  - rewrite lastn_all; [done|]. rewrite length_app. simpl. lia.
Qed.

Lemma lastn_app {A} n (l k : list A) : lastn n (lastn n l ++ k) = lastn n (l ++ k).
Proof.
  unfold lastn. rewrite !length_app, length_drop.
  destruct (decide (length l <= n)) as [Hl|Hl].
  - replace (length l - n) with 0 by lia. rewrite drop_0. f_equal. lia.
  - rewrite <- (drop_app_le l k (length l - n)) by lia. rewrite drop_drop. f_equal. lia.
Qed.

(** Whether a change fires the spec of this name. *)
Definition triggers specs (n : string) c : bool :=
  existsb (fun sp => bool_decide (ps_name sp = n) && matches (spec_filter sp) c) specs.

(** The documents on record for a spec. *)
Definition fired_docs h (n : string) : list string := fi_doc <$> fires h n.

Lemma fmap_lastn {A B} (f : A -> B) n (l : list A) : f <$> lastn n l = lastn n (f <$> l).
Proof. unfold lastn. by rewrite length_fmap, fmap_drop. Qed.

Definition capped h : Prop := forall k, length (fires h k) <= HISTORY_CAP.

Lemma record_fire_capped h f : capped h -> capped (record_fire h f).
Proof.
  intros Hb k. rewrite record_fire_lookup by done. case_decide; [rewrite lastn_length; lia|apply Hb].
Qed.

Lemma record_fire_docs h f n : capped h ->
  fired_docs (record_fire h f) n =
  if decide (n = fi_spec f) then lastn HISTORY_CAP (fired_docs h n ++ [fi_doc f]) else fired_docs h n.
Proof.
  intros Hb. unfold fired_docs. rewrite record_fire_lookup by done. case_decide; [|done].
  by rewrite fmap_lastn, fmap_app.
Qed.

Lemma fired_docs_capped h n : capped h -> lastn HISTORY_CAP (fired_docs h n) = fired_docs h n.
Proof. intros Hb. apply lastn_all. unfold fired_docs. rewrite length_fmap. apply Hb. Qed.

Lemma dispatch_list_docs c l s h n :
  NoDup ((fun p : nat * ProcessorSpec => ps_name p.2) <$> l) -> capped h ->
  let out := foldl (dispatch_spec exec clock fresh c) (s, h) l in
  capped out.2 /\
  fired_docs out.2 n =
  lastn HISTORY_CAP (fired_docs h n ++ if triggers l.*2 n c then [dc_name c] else []).
Proof.
  revert s h. induction l as [|[i sp] l IH]; intros s h Hn Hb.
  { simpl. rewrite app_nil_r. by rewrite fired_docs_capped. }
  rewrite fmap_cons in Hn. apply NoDup_cons in Hn as [Hni Hn]. cbn [foldl snd] in *.
  destruct (dispatch_spec exec clock fresh c (s, h) (i, sp)) as [s1 h1] eqn:Es.
  unfold dispatch_spec in Es. rewrite fmap_cons. unfold triggers. cbn [existsb snd].
  fold (triggers l.*2 n c). destruct (matches (spec_filter sp) c) eqn:Em.
  - destruct (perform exec clock fresh i s sp c) as [s' detail].
    injection Es as <- <-. set (f := {| fi_spec := _; fi_doc := _; fi_model := _; fi_action := _; fi_detail := _; fi_ts := _ |}).
    destruct (IH s' (record_fire h f) Hn (record_fire_capped h f Hb)) as [Hc Hd].
    split; [exact Hc|]. rewrite Hd, record_fire_docs by done. cbn [fi_spec f fi_doc].
    case_bool_decide as E; simpl; [subst n|by rewrite decide_False by congruence].
    rewrite decide_True by done. replace (triggers l.*2 (ps_name sp) c) with false.
    + rewrite app_nil_r. apply lastn_all. rewrite lastn_length. lia.
    + symmetry. apply not_true_iff_false. unfold triggers. rewrite existsb_exists.
      intros (q & Hq%list_elem_of_In & [E _]%andb_true_iff). apply bool_decide_eq_true in E.
      apply Hni. apply list_elem_of_fmap in Hq as (p & -> & Hp). apply list_elem_of_fmap. by exists p.
  - injection Es as <- <-. rewrite andb_false_r. by apply IH.
Qed.

Lemma imap_names specs : (fun p : nat * ProcessorSpec => ps_name p.2) <$> imap pair specs = ps_name <$> specs.
Proof. rewrite fmap_imap. simpl. generalize 0. induction specs; [done|]. intros. simpl. f_equal. auto. Qed.

(** The fire history holds, for every spec, the documents of its most
    recent fires in order, and never more than fifty: after any sequence of
    changes it is the last fifty of what it was followed by one entry per
    change the spec's filter matches. *)
Theorem history_is_recent specs cs s h n :
  NoDup (ps_name <$> specs) -> (forall k, length (fires h k) <= HISTORY_CAP) ->
  let out := foldl (dispatch exec clock fresh specs) (s, h) cs in
  length (fires out.2 n) <= HISTORY_CAP /\
  fired_docs out.2 n =
  lastn HISTORY_CAP (fired_docs h n ++ (dc_name <$> filter (fun c => triggers specs n c = true) cs)).
Proof.
  intros Hn Hb. revert s h Hb. induction cs as [|c cs IH]; intros s h Hb.
  { simpl. split; [apply Hb|]. rewrite app_nil_r. by rewrite fired_docs_capped. }
  cbn [foldl]. destruct (dispatch_list_docs c (imap pair specs) s h n) as [Hc Hd]; [|done|].
  { by rewrite imap_names. }
  fold (dispatch exec clock fresh specs (s, h) c) in *.
  destruct (dispatch exec clock fresh specs (s, h) c) as [s' h']. cbn [snd] in *.
  destruct (IH s' h' Hc) as [Hl He]. split; [exact Hl|]. rewrite He, Hd. rewrite filter_cons.
  replace (imap pair specs).*2 with specs.
  - destruct (triggers specs n c) eqn:Et.
    + rewrite decide_True by done. by rewrite lastn_app, <- app_assoc, fmap_cons.
    + rewrite decide_False by done. rewrite app_nil_r. apply lastn_app.
  - symmetry. rewrite fmap_imap. clear. simpl. generalize 0.
    induction specs; [done|]. intros. simpl. f_equal. auto.
Qed.
End HistoryProps.

(** ** What a projection publishes *)

Section ProjectionProps.
Context `{Platform} (clock : nat -> N) (fresh : nat -> DocId).
Implicit Types (s : Inner) (p : Projection) (c : DocChange) (a : Action) (e : Entry).

(** The value a field contributes: its live value in the source. *)
Definition live_value c (k : string) : option Value :=
  match doc_fields (ds_doc (dc_state c)) !! k with
  | Some x => if fld_deleted x then None else Some (fld_value x)
  | None => None
  end.

Lemma copy_fields_lookup c fs m k :
  obj_lookup (foldl (copy_field c) m fs) k =
  match (if decide (k ∈ fs) then live_value c k else None) with
  | Some v => Some v
  | None => obj_lookup m k
  end.
Proof.
  revert m. induction fs as [|f fs IH]; intros m; [done|]. cbn [foldl]. rewrite IH.
  assert (Hc : obj_lookup (copy_field c m f) k =
    match (if decide (k = f) then live_value c k else None) with
    | Some v => Some v | None => obj_lookup m k end).
  { unfold copy_field, live_value. destruct (decide (k = f)) as [->|Hne].
    - destruct (doc_fields _ !! f) as [x|]; [|done]. destruct (fld_deleted x); [done|].
      apply obj_lookup_insert_eq.
    - destruct (doc_fields _ !! f) as [x|]; [|done]. destruct (fld_deleted x); [done|].
      by apply obj_lookup_insert_ne. }
  rewrite Hc. destruct (decide (k = f)) as [->|Hne].
  - rewrite (decide_True (P := f ∈ f :: fs)) by left. by destruct (decide (f ∈ fs)), (live_value c f).
  - destruct (decide (k ∈ fs)).
    + by rewrite decide_True by (by right).
    + rewrite decide_False; [done|]. by intros [?|?]%elem_of_cons.
Qed.

(** The log and the space of an entry are kept by the bookkeeping, but for a
    snapshot, which empties the log. *)
Lemma after_apply_entry s a any del id e :
  i_entries (after_apply s a any del) !! id = Some e ->
  exists e0, i_entries s !! id = Some e0 /\ e_space e = e_space e0 /\
    (e_log e = e_log e0 \/ e_log e = []) /\ (id <> a_doc_id a -> e = e0).
Proof.
  destruct (after_apply_frame s a any del) as (-> & _).
  destruct (persisted_frame s a any) as (Ep & _).
  unfold maybe_snapshot, snapshot. case_match; [|rewrite Ep; intros ?; exists e; split_and!; auto].
  case_match eqn:E; [|rewrite Ep; intros ?; exists e; split_and!; auto]. simpl.
  rewrite Ep in *. destruct (decide (id = a_doc_id a)) as [->|Hne].
  - rewrite lookup_insert_eq. intros [= <-]. eexists. simpl. split_and!; auto; done.
  - rewrite lookup_insert_ne by done. intros ?. exists e. split_and!; auto.
Qed.

Lemma after_apply_some s a any del id :
  is_Some (i_entries s !! id) -> is_Some (i_entries (after_apply s a any del) !! id).
Proof.
  intros Hs. destruct (after_apply_frame s a any del) as (-> & _). apply maybe_snapshot_some.
  by destruct (persisted_frame s a any) as (-> & _).
Qed.

(** The first action of a document that was just put in a space. *)
Lemma first_action_entry s a sp :
  store_inv s -> i_entries s !! a_doc_id a = Some (set_space (entry_new (a_doc_id a)) sp) ->
  a_space a = sp ->
  let s' := (apply_action a s).1 in
  (forall id, id <> a_doc_id a -> i_entries s' !! id = i_entries s !! id) /\
  forall e, i_entries s' !! a_doc_id a = Some e -> e_space e = sp /\ Forall (eq a) (e_log e).
Proof.
  intros Hs He Hsp s'. set (e0 := set_space (entry_new (a_doc_id a)) sp) in *.
  assert (Eat : entry_at s (a_doc_id a) = e0) by (unfold entry_at; by rewrite He).
  assert (H0 : forall e, i_entries s !! a_doc_id a = Some e -> e_space e = sp /\ Forall (eq a) (e_log e)).
  { intros e E. rewrite He in E. injection E as <-. by split. }
  unfold s'. rewrite apply_action_eq. clear s'. destruct (admission s a) as [m|] eqn:Ad; [|by split].
  apply admission_ok in Ad. simpl. rewrite Eat. destruct (check_precondition m (e_doc e0) a) as [[]|rj] eqn:Hp.
  - destruct (settled_entry_inv s a m Hs Ad) as (e' & Hse & Hlog & _); [by rewrite Eat|].
    rewrite Hse. simpl. set (fl := (apply_ops_to_entry e0 m a).2). rewrite Eat in Hlog.
    assert (Es : e_space e' = sp).
    { unfold settled_entry in Hse. replace (out_of_order s a) with false in Hse.
      - injection Hse as <-. rewrite appended_space, Eat. exact Hsp.
      - unfold out_of_order. by rewrite He. }
    split.
    + intros id Hne. destruct (i_entries (after_apply _ a fl.1 fl.2) !! id) as [e|] eqn:E.
      * apply after_apply_entry in E as (e1 & E1 & _ & _ & Heq). rewrite Heq by done.
        simpl in E1. by rewrite lookup_insert_ne in E1.
      * pose proof (after_apply_some (put_entry s (a_doc_id a) e') a fl.1 fl.2 id) as G.
        destruct (i_entries s !! id) as [e1|] eqn:E1; [|done]. destruct G as [e2 G].
        { simpl. rewrite lookup_insert_ne by done. rewrite E1. by eexists. }
        congruence.
    + intros e (e1 & E1 & Sp & Lg & _)%after_apply_entry. simpl in E1.
      rewrite lookup_insert_eq in E1. injection E1 as <-. split; [congruence|].
      destruct Lg as [->| ->]; [|constructor]. rewrite Hlog. simpl. by repeat constructor.
  - simpl. split; [intros id Hne; by rewrite lookup_insert_ne|].
    intros e. rewrite lookup_insert_eq. intros [= <-]. by split.
Qed.

(** Creating a document in a space touches no other document; its own entry is
    in that space and its log holds at most the first action, with the payload
    it was given. *)
Lemma create_in_space_entries now id name model payload sp s :
  store_inv s -> i_entries s !! id = None ->
  let s' := (create_doc_in_space now id name model payload sp s).1 in
  (forall j, j <> id -> i_entries s' !! j = i_entries s !! j) /\
  forall e, i_entries s' !! id = Some e ->
    e_space e = sp /\ Forall (fun a => a_payload a = payload /\ a_space a = sp) (e_log e).
Proof.
  intros Hs Hf s'. unfold s', create_doc_in_space. clear s'. rewrite run_bind.
  destruct (validate_name name) as [[]|er]; simpl; [|split; [done|intros e; congruence]].
  rewrite run_bind. pose proof (name_free_pure name s) as Hn.
  destruct (name_free name s) as [s0 [[]|er]]; simpl in Hn; subst s0; simpl;
    [|split; [done|intros e; congruence]].
  rewrite run_bind. simpl. set (t := put_entry s id (set_space (entry_new id) sp)).
  assert (Ht : store_inv t) by (by apply put_new_inv).
  assert (Et : i_entries t !! id = Some (set_space (entry_new id) sp))
    by (simpl; by rewrite lookup_insert_eq).
  rewrite run_bind. unfold build_action. rewrite run_bind. simpl. rewrite run_bind. simpl.
  rewrite lookup_insert_eq. simpl. rewrite run_bind.
  match goal with |- context [apply_action ?act ?st] => set (a := act); set (t1 := st) end.
  assert (Ht1 : store_inv t1).
  { eapply store_inv_ext; [..|exact Ht]; try done. apply (inv_names _ Ht). }
  destruct (first_action_entry t1 a sp Ht1 Et eq_refl) as [Ho Hi].
  destruct (apply_action a t1) as [s2 [r|er]]; simpl in *.
  all: split; [intros j Hne; rewrite Ho by done; by rewrite lookup_insert_ne|].
  all: intros e He; destruct (Hi e He) as [E1 E2]; split; [done|].
  all: eapply Forall_impl; [exact E2|]; intros x <-; done.
Qed.

(** A projection stays within what was declared.  It touches no existing
    document; what it creates, if anything, was triggered by the declared
    model and reducer, lives in the space the projection names, and carries in
    its log only the payload of the projection: the derived name and those of
    the named fields that are live in the source. *)
Theorem projection_confined s c i p :
  reachable s -> i_entries s !! fresh i = None ->
  let s' := publish clock fresh c s (i, p) in
  let name := target_name p (dc_name c) in
  let payload := projection_payload p c name in
  (forall id, id <> fresh i -> i_entries s' !! id = i_entries s !! id) /\
  (forall e, i_entries s' !! fresh i = Some e ->
     projection_matches p c = true /\ get_doc s name = None /\
     exists d, get_doc s (pj_into p) = Some d /\ e_space e = Some (doc_id d) /\
       Forall (fun a => a_payload a = payload /\ a_space a = Some (doc_id d)) (e_log e)) /\
  (forall k, vget payload k =
     match (if decide (k ∈ pj_fields p) then live_value c k else None) with
     | Some v => Some v
     | None => if decide (k = "name") then Some (Str name) else None
     end).
Proof.
  intros Hr%reachable_inv Hf s' name payload. split; [|split].
  - intros id Hne. unfold s', publish. destruct (projection_matches p c); [|done]. cbn [negb].
    fold name. destruct (get_doc s name); [done|]. destruct (get_doc s (pj_into p)); [|done].
    by apply create_in_space_entries.
  - intros e. unfold s', publish. destruct (projection_matches p c) eqn:Em; simpl; [|congruence].
    fold name. destruct (get_doc s name) eqn:Eg; [congruence|].
    destruct (get_doc s (pj_into p)) as [d|] eqn:Ed; [|congruence]. intros He.
    split_and!; [done..|]. exists d. split; [done|].
    by eapply create_in_space_entries in He.
  - intros k. unfold payload, projection_payload. cbn [vget]. rewrite copy_fields_lookup. done.
Qed.
End ProjectionProps.

(** ** Concrete runs *)

Definition live_field (v : Value) : Field :=
  {| fld_value := v; fld_version := ∅; fld_ts := 1; fld_origin := "alice"; fld_deleted := false |}.
Definition change_of (name model kind : string) (fields : gmap string Field) : DocChange :=
  {| dc_doc_id := 900; dc_name := name; dc_model := modelref_new model "1"; dc_deleted := false;
     dc_state := {| ds_doc := {| doc_id := 900; doc_name := name; doc_fields := fields |};
                    ds_clock := ∅; ds_deleted := false; ds_log_hash := None;
                    ds_model := modelref_new model "1"; ds_space := None |};
     dc_ts := 1; dc_action_kind := Some kind; dc_action_field := None; dc_action_value := None |}.

(** A milestone, of which only the channel is published. *)
Definition milestone : DocChange :=
  change_of "m1" "milestone" "accept"
    (<["channel" := live_field (Str "general")]> {[ "evidence" := live_field (Str "secret") ]}).
Definition announce : Projection :=
  {| pj_from := "milestone"; pj_on := "accept"; pj_to := "chat"; pj_into := "team";
     pj_fields := ["channel"] |}.
Definition at_9000 (i : nat) : N := 9000.
Definition id_901 (i : nat) : DocId := 901.

Lemma projection_confined_witness :
  let s' := publish at_9000 id_901 milestone chat_node (0, announce) in
  let payload := projection_payload announce milestone "m1-chat" in
  length (e_log (entry_at s' 901)) = 1 /\
  e_space (entry_at s' 901) = Some 100%N /\
  vget payload "channel" = Some (Str "general") /\ vget payload "evidence" = None.
Proof.
  destruct (projection_confined at_9000 id_901 chat_node milestone 0 announce chat_reachable)
    as (_ & Hnew & Hp); [vm_compute; reflexivity|].
  split; [vm_compute; reflexivity|]. split.
  - destruct (Hnew (entry_at (publish at_9000 id_901 milestone chat_node (0, announce)) 901))
      as (_ & _ & d & Hd & -> & _); [apply entry_at_some; vm_compute; reflexivity|].
    revert Hd. vm_compute. by intros [= <-].
  - split; [rewrite Hp; vm_compute; reflexivity|rewrite Hp; vm_compute; reflexivity].
Defined.

Definition log_spec (n : string) : ProcessorSpec :=
  {| ps_name := n; ps_models := []; ps_action_kind := None; ps_field := None; ps_value := None;
     ps_reaction := Log "saw $doc"; ps_created := 1 |}.
Definition no_shell (cmd doc model : string) : RunOutcome := TimedOut.

Lemma history_is_recent_witness :
  length (fires (foldl (dispatch no_shell at_9000 id_901 [log_spec "a"; log_spec "b"])
            (node2, ∅) (replicate 60 milestone)).2 "a") <= HISTORY_CAP /\
  fi_detail <$> handle_fires (dispatch no_shell at_9000 id_901 [log_spec "a"] (node2, ∅) milestone).2 "a"
  = ["saw m1"].
Proof.
  split; [|vm_compute; reflexivity].
  apply (history_is_recent no_shell at_9000 id_901 [log_spec "a"; log_spec "b"]
    (replicate 60 milestone) node2 ∅ "a").
  - apply (bool_decide_eq_true_1 _). vm_compute. reflexivity.
  - intros k. unfold fires. rewrite lookup_empty. simpl. apply le_0_n.
Defined.

Section Commands.
#[local] Instance no_specs_file : Serde (list ProcessorSpec) :=
  {| to_json := fun l => as_bytes (String.concat "," (ps_name <$> l)); from_json := fun _ => Err "" |}.
Lemma specs_command_exact_witness :
  let out := run_cmd ["processors.json"] [log_spec "a"] (SetSpec (with_created (log_spec "a") 9))
               {| fs_files := ∅; fs_sched := [] |} in
  specs_ok out.1 /\ ps_created <$> out.1 = [1%N].
Proof.
  split; [|vm_compute; reflexivity].
  apply (specs_command_exact ["processors.json"] [log_spec "a"]
    (SetSpec (with_created (log_spec "a") 9)) {| fs_files := ∅; fs_sched := [] |}).
  split; [apply (bool_decide_eq_true_1 _); vm_compute; reflexivity|]. repeat constructor.
Defined.
End Commands.

Definition spec_with (r : Reaction) : ProcessorSpec :=
  {| ps_name := "audit"; ps_models := []; ps_action_kind := None; ps_field := None;
     ps_value := None; ps_reaction := r; ps_created := 1 |}.

(** In a reaction that creates a document, [$model] is not the triggering
    document's model: the reaction's own model shadows it, so an invoice
    triggers a document named after the reaction's model.  And a document of
    the open model cannot be created this way, since that model has no [init]. *)
Theorem create_reaction_shadows_model :
  let invoice := change_of "inv-1" "invoice" "create" ∅ in
  (perform no_shell at_9000 id_901 0 chat_node (spec_with (CreateDoc "open" "log-$model" ∅)) invoice).2
  = "create 'log-open' failed: unknown kind 'init'".
Proof. vm_compute. reflexivity. Qed.

(** A document created by a peer under a name no local write could give it. *)
Definition hostile : Action :=
  sent bob_key "bob" 777 (MOpen open_new) "create" (field_payload NAME_KEY (Str "x; rm -rf /"))
    3010 (<["bob" := 1%N]> ∅) None.

(** A peer's text reaches the shell: the name of a document that a peer
    sends is not validated, the change feed carries it, and a [Run] reaction
    substitutes it into the command line unquoted. *)
Theorem peer_text_reaches_shell :
  let s' := (apply_action hostile (subscribe_changes node2)).1 in
  is_ok (validate_name "x; rm -rf /") = false /\
  (sub_queue <$> i_subscribers s') ≫= (fun l => (fun c =>
     (perform (fun cmd _ _ => SpawnFailed cmd) at_9000 id_901 0 s' (spec_with (Run "notify $doc")) c).2)
     <$> l)
  = ["run failed: notify x; rm -rf / (notify x; rm -rf /)"].
Proof. split; vm_compute; reflexivity. Qed.
