(* ===== verification/Runner.v ===== *)
(** The processor engine as a running task (src/processor.rs,
    [ProcessorRunner]): its state, its start, and one turn of its loop, which
    takes either the next change of its subscription to the store or the next
    command of the console.

    The store is shared: a reaction writes to the store the engine listens to,
    so the change it makes comes back through the subscription. *)

From stdpp Require Import base gmap strings numbers list relations.
From Stdlib Require Import Strings.Byte Strings.Ascii.
From S2P Require Import Prelude Json Doc Sample Action Model Builtins Entry Store StoreInv StoreProps Scenario.
From S2P Require Import Text Fs ReadModel Feed Package Processor.

(** [ProcessorRunner]: [ru_sub] is the position of its receiver among the
    subscribers of the store; [ru_turn] counts the changes handled, to give
    each its own clock readings and ids. *)
Record Runner `{Platform} := {
  ru_store : Inner;
  ru_sub : nat;
  ru_path : Path;
  ru_specs : list ProcessorSpec;
  ru_history : gmap string (list Fire);
  ru_fs : Fs;
  ru_turn : nat
}.

(** What a turn of [run] receives. *)
Inductive RunnerInput :=
  | FeedReady
  | GotCmd (cmd : RunnerCmd).

Section Loop.
Context `{Platform} `{!Serde (list ProcessorSpec)}.
Context (exec : string -> string -> string -> RunOutcome).
Context (clock : nat -> nat -> N) (fresh : nat -> nat -> DocId).
Implicit Types (s : Inner) (r : Runner).

(** [ProcessorRunner::new]: the specs of the file, no history, a subscription. *)
Definition runner_new (blank : list byte -> bool) s (path : Path) (fs : Fs) : Runner :=
  let '(fs, specs) := load_specs blank path fs in
  {| ru_store := subscribe_changes s; ru_sub := length (i_subscribers s); ru_path := path;
     ru_specs := match specs with Ok l => l | Err _ => [] end; ru_history := ∅; ru_fs := fs; ru_turn := 0 |}.

(** [feed.recv()] when a change is waiting. *)
Definition recv_change s (k : nat) : option (DocChange * Inner) :=
  match i_subscribers s !! k with
  | Some sub =>
      match sub_queue sub with
      | c :: q => Some (c, set_subscribers s
                             (<[k := {| sub_open := sub_open sub; sub_queue := q |}]> (i_subscribers s)))
      | [] => None
      end
  | None => None
  end.

(** One turn of [run]. *)
Definition runner_step r (i : RunnerInput) : Runner :=
  match i with
  | FeedReady =>
      match recv_change (ru_store r) (ru_sub r) with
      | None => r
      | Some (c, s) =>
          let '(s, h) := dispatch exec (clock (ru_turn r)) (fresh (ru_turn r)) (ru_specs r) (s, ru_history r) c in
          {| ru_store := s; ru_sub := ru_sub r; ru_path := ru_path r; ru_specs := ru_specs r; ru_history := h;
             ru_fs := ru_fs r; ru_turn := S (ru_turn r) |}
      end
  | GotCmd cmd =>
      let '(specs, fs) := run_cmd (ru_path r) (ru_specs r) cmd (ru_fs r) in
      {| ru_store := ru_store r; ru_sub := ru_sub r; ru_path := ru_path r; ru_specs := specs;
         ru_history := ru_history r; ru_fs := fs; ru_turn := ru_turn r |}
  end.
Definition runner_run r (l : list RunnerInput) : Runner := foldl runner_step r l.
End Loop.

(** ** What a store operation does to the subscriptions *)

Section Hearing.
Context `{Platform}.
Implicit Types (s : Inner) (a : Action).

Definition all_open s : Prop := Forall (fun sub => sub_open sub = true) (i_subscribers s).
Definition waiting s (k : nat) (q : list DocChange) : Prop :=
  i_subscribers s !! k = Some {| sub_open := true; sub_queue := q |}.

(** Every receiver stays, and hears more or nothing; none misses a change that
    was already waiting. *)
Definition hears s s' : Prop :=
  all_open s -> all_open s' /\ forall k q, waiting s k q -> exists l, waiting s' k (q ++ l).

#[export] Instance hears_preorder : PreOrder hears.
Proof.
  split.
  - intros s Ho. split; [done|]. intros k q Hq. exists []. by rewrite app_nil_r.
  - intros s1 s2 s3 H1 H2 Ho. destruct (H1 Ho) as [Ho2 Hw1]. destruct (H2 Ho2) as [Ho3 Hw2]. split; [done|].
    intros k q Hq. destruct (Hw1 k q Hq) as [l1 H3]. destruct (Hw2 k _ H3) as [l2 H4]. exists (l1 ++ l2).
    by rewrite app_assoc.
Qed.
Lemma hears_same s s' : i_subscribers s' = i_subscribers s -> hears s s'.
Proof. intros E Ho. unfold all_open, waiting. rewrite E. split; [done|]. intros k q Hq. exists []. by rewrite app_nil_r. Qed.

Lemma emit_hears s id ts o : hears s (emit_change s id ts o).
Proof.
  unfold emit_change. destruct (i_entries s !! id) as [e|]; [|by apply hears_same]. cbv zeta.
  set (c := {| dc_doc_id := id |}). intros Ho. unfold all_open, waiting in *. cbn [i_subscribers set_subscribers].
  assert (E : omap (fun sub => if sub_open sub then Some {| sub_open := true; sub_queue := sub_queue sub ++ [c] |}
                               else None) (i_subscribers s) =
              (fun sub => {| sub_open := true; sub_queue := sub_queue sub ++ [c] |}) <$> i_subscribers s).
  { induction Ho as [|sub l Hs _ IH]; [done|]. cbn. rewrite Hs. cbn. f_equal. exact IH. }
  rewrite E. split.
  - rewrite Forall_fmap. apply Forall_true. by intros sub.
  - intros k q Hq. exists [c]. rewrite list_lookup_fmap, Hq. reflexivity.
Qed.

(** An operation that only ever adds to what is waiting. *)
Definition audible {A} (m : storeM A) : Prop := forall s, hears s (m s).1.
Lemma audible_bind {A B} (m : storeM A) (f : A -> storeM B) :
  audible m -> (forall x, audible (f x)) -> audible (x ← m; f x).
Proof.
  intros Hm Hf s. rewrite run_bind. specialize (Hm s). destruct (m s) as [s1 [x|e]]; [|done].
  etransitivity; [exact Hm|apply Hf].
Qed.
Lemma audible_pure {A} (f : Inner -> result string A) : audible (fun s => (s, f s)).
Proof. intros s. by apply hears_same. Qed.
Lemma audible_modify f : (forall s, i_subscribers (f s) = i_subscribers s) -> audible (modify f).
Proof. intros Hf s. apply hears_same, Hf. Qed.
Lemma audible_lift {A} (r : result string A) : audible (lift_res r).
Proof. apply (audible_pure (fun _ => r)). Qed.
Lemma audible_fail {A} e : audible (fail (A := A) e).
Proof. apply (audible_pure (fun _ => Err e)). Qed.
Lemma audible_ret {A} (x : A) : audible (mret x).
Proof. apply (audible_pure (fun _ => Ok x)). Qed.
Lemma audible_get : audible get_state.
Proof. apply (audible_pure Ok). Qed.

Lemma audible_apply a : audible (apply_action a).
Proof.
  intros s. rewrite apply_action_eq. destruct (admission s a); [|by apply hears_same]. cbv zeta.
  destruct (check_precondition _ _ _); [|by apply hears_same].
  destruct (settled_entry s _ a) as [e'|]; [|by apply hears_same]. cbn [fst]. unfold after_apply.
  fold (persisted (put_entry s (a_doc_id a) e') a (apply_ops_to_entry (entry_at s (a_doc_id a)) a0 a).2.1).
  set (t := sync_names _ _).
  assert (Ht : hears s t) by (apply hears_same; unfold t; rewrite bookkeeping_subscribers; done).
  case_match; [|done]. etransitivity; [exact Ht|apply emit_hears].
Qed.
Lemma audible_build now id model kind payload : audible (build_action now id model kind payload).
Proof.
  apply audible_bind; [intros s; by apply hears_same|intros ts].
  apply audible_bind; [apply audible_get|intros s0]. apply audible_bind; [apply audible_lift|intros e]. apply audible_ret.
Qed.
Lemma audible_free name : audible (name_free name).
Proof. apply audible_bind; [apply audible_get|]. intros s0. case_match; [intros s; by apply hears_same|apply audible_ret]. Qed.
End Hearing.

Create HintDb hearing.
#[export] Hint Resolve audible_bind audible_lift audible_ret audible_get audible_apply audible_build audible_free audible_fail : hearing.
#[export] Hint Extern 1 (audible (modify _)) => (apply audible_modify; done) : hearing.
#[export] Hint Extern 1 (audible (match _ with left _ => _ | right _ => _ end)) => case_match : hearing.

Section Heard.
Context `{Platform}.
Implicit Types (s : Inner) (a : Action).

Lemma audible_create_in_space now id name model payload sp :
  audible (create_doc_in_space now id name model payload sp).
Proof. unfold create_doc_in_space. auto 20 with hearing. Qed.
Lemma audible_fields now i id l : audible (create_fields now i id l).
Proof. revert i. induction l as [|[f v] l IH]; intros i; cbn [create_fields]; auto 20 with hearing. Qed.
Lemma audible_create_doc now id name fields : audible (create_doc now id name fields).
Proof. unfold create_doc. pose proof audible_fields. auto 20 with hearing. Qed.
Lemma audible_create_space show now id name payload : audible (create_space_at show now id name payload).
Proof. unfold create_space_at. auto 20 with hearing. Qed.
Lemma audible_write now name kind payload : audible (open_write now name kind payload).
Proof. unfold open_write, doc_id_or_err. auto 20 with hearing. Qed.
Lemma audible_local now name model kind payload : audible (build_local_action now name model kind payload).
Proof. unfold build_local_action. auto 20 with hearing. Qed.

(** Every operation of the store is heard this way: what waits in a
    subscription is never lost, reordered or overtaken. *)
Lemma step_hears s s' : step s s' -> hears s s'.
Proof.
  destruct 1.
  - apply audible_apply.
  - apply audible_create_doc.
  - apply audible_create_in_space.
  - apply audible_create_space.
  - apply audible_write.
  - apply audible_local.
  - apply (audible_bind (build_local_action now name model kind payload)); [apply audible_local|auto 20 with hearing].
  - apply hears_same. unfold register_peer_key. repeat case_match; done.
  - by apply hears_same.
  - apply hears_same. unfold snapshot. repeat case_match; done.
  - intros Ho. unfold all_open, waiting, subscribe_changes. cbn [i_subscribers set_subscribers]. split.
    + apply Forall_app. split; [exact Ho|]. by repeat constructor.
    + intros k q Hq. exists []. rewrite app_nil_r. by apply lookup_app_l_Some.
  - by apply hears_same.
  - by apply hears_same.
Qed.
End Heard.

(** ** The engine under any interleaving *)

Section RunnerProps.
Context `{Platform} `{!Serde (list ProcessorSpec)}.
Context (exec : string -> string -> string -> RunOutcome).
Context (clock : nat -> nat -> N) (fresh : nat -> nat -> DocId).
Implicit Types (s : Inner) (r : Runner) (c : DocChange).

Record runner_inv r : Prop := {
  ri_store : store_inv (ru_store r);
  ri_open : all_open (ru_store r);
  ri_waiting : exists q, waiting (ru_store r) (ru_sub r) q;
  ri_specs : specs_ok (ru_specs r);
  ri_history : capped (ru_history r)
}.

(** The ids a turn draws are new when they are drawn. *)
Fixpoint fresh_turn (turn : nat) c (st : Inner * gmap string (list Fire)) (l : list (nat * ProcessorSpec)) : Prop :=
  match l with
  | [] => True
  | isp :: l => fresh_id st.1 (fresh turn isp.1) /\
                fresh_turn turn c (dispatch_spec exec (clock turn) (fresh turn) c st isp) l
  end.
Definition draws_fresh r : Prop :=
  forall c s, recv_change (ru_store r) (ru_sub r) = Some (c, s) ->
    fresh_turn (ru_turn r) c (s, ru_history r) (imap pair (ru_specs r)).

Definition with_ru_store r s : Runner :=
  {| ru_store := s; ru_sub := ru_sub r; ru_path := ru_path r; ru_specs := ru_specs r;
     ru_history := ru_history r; ru_fs := ru_fs r; ru_turn := ru_turn r |}.

(** A turn of the engine, or an operation of any other part of the daemon on
    the shared store. *)
Inductive rstep : Runner -> Runner -> Prop :=
  | r_feed r : draws_fresh r -> rstep r (runner_step exec clock fresh r FeedReady)
  | r_cmd r cmd : rstep r (runner_step exec clock fresh r (GotCmd cmd))
  | r_other r s : step (ru_store r) s -> rstep r (with_ru_store r s).

Lemma dispatch_spec_step turn c s h isp :
  fresh_id s (fresh turn isp.1) -> rtc step s (dispatch_spec exec (clock turn) (fresh turn) c (s, h) isp).1.
Proof.
  intros Hf. destruct isp as [i spec]. cbn [dispatch_spec]. destruct (matches _ c); [|done].
  unfold perform. destruct (ps_reaction spec) as [| | |m n f]; try done.
  destruct (get_doc s _); [done|]. cbn [fst] in Hf.
  pose proof (step_create_in_space s (clock turn i) (fresh turn i) (substitute n (dc_name c) m)
    (modelref_new (substitute m (dc_name c) m) "1") (create_payload (substitute n (dc_name c) m) (dc_name c) m f)
    None Hf) as Hs.
  unfold create_doc_model. destruct (create_doc_in_space _ _ _ _ _ _ s) as [s1 res]. by apply rtc_once.
Qed.
Lemma dispatch_capped turn c l s h :
  capped h -> fresh_turn turn c (s, h) l ->
  let st := foldl (dispatch_spec exec (clock turn) (fresh turn) c) (s, h) l in
  rtc step s st.1 /\ capped st.2.
Proof.
  revert s h. induction l as [|isp l IH]; intros s h Hh; [by split|]. intros [Hf Hl].
  pose proof (dispatch_spec_step turn c s h isp Hf) as Hs. cbn [foldl fst] in *.
  assert (Hc : capped (dispatch_spec exec (clock turn) (fresh turn) c (s, h) isp).2).
  { destruct isp as [i spec]. cbn [dispatch_spec]. destruct (matches _ c); [|done].
    destruct (perform _ _ _ _ _ _ _). by apply record_fire_capped. }
  destruct (dispatch_spec _ _ _ c (s, h) isp) as [s1 h1]. destruct (IH s1 h1 Hc Hl) as [H1 H2]. split; [|done].
  etransitivity; [exact Hs|exact H1].
Qed.
Lemma steps_hear s s' : rtc step s s' -> hears s s'.
Proof. induction 1 as [|s s1 s2 Hs _ IH]; [done|]. etransitivity; [by apply step_hears|exact IH]. Qed.
Lemma steps_inv s s' : rtc step s s' -> store_inv s -> store_inv s'.
Proof. induction 1 as [|s s1 s2 Hs _ IH]; [done|]. intros Hi. apply IH. by eapply step_inv. Qed.

(** What was waiting, and what came since, was handled in that order, one
    change a turn, or still waits. *)
Definition accounted r r' : Prop :=
  forall q, waiting (ru_store r) (ru_sub r) q ->
  exists l handled q', waiting (ru_store r') (ru_sub r') q' /\ q ++ l = handled ++ q' /\
    ru_turn r' = ru_turn r + length handled.
Lemma accounted_trans r1 r2 r3 : accounted r1 r2 -> accounted r2 r3 -> accounted r1 r3.
Proof.
  intros H1 H2 q Hq. destruct (H1 q Hq) as (l1 & h1 & q1 & W1 & E1 & T1).
  destruct (H2 q1 W1) as (l2 & h2 & q2 & W2 & E2 & T2). exists (l1 ++ l2), (h1 ++ h2), q2. split_and!; [done| |].
  - by rewrite app_assoc, E1, <- app_assoc, E2, app_assoc.
  - rewrite length_app. lia.
Qed.
(** A store that only adds to the subscription. *)
Lemma accounted_hears r r' s l :
  ru_store r' = s -> ru_sub r' = ru_sub r -> ru_turn r' = ru_turn r + length l -> all_open (ru_store r) ->
  (forall q, waiting (ru_store r) (ru_sub r) q -> exists q1 l1, q = l ++ q1 /\ waiting s (ru_sub r) (q1 ++ l1)) ->
  accounted r r'.
Proof.
  intros <- Es Et Ho Hq q Hw. destruct (Hq q Hw) as (q1 & l1 & -> & Hw1). exists l1, l, (q1 ++ l1).
  rewrite Es. split_and!; [done|by rewrite app_assoc|done].
Qed.

Lemma feed_inv r :
  draws_fresh r -> runner_inv r ->
  runner_inv (runner_step exec clock fresh r FeedReady) /\ accounted r (runner_step exec clock fresh r FeedReady).
Proof.
  intros Hf Hi. pose proof Hi as [Hs Ho [q0 Hq] Hsp Hh]. cbn [runner_step].
  destruct (recv_change (ru_store r) (ru_sub r)) as [[c s]|] eqn:Er.
  2: { split; [done|]. apply (accounted_hears r r (ru_store r) []); [done|done|cbn; lia|done|].
       intros q Hw. exists q, []. by rewrite app_nil_r. }
  pose proof (Hf c s Er) as Hfr. unfold recv_change in Er. unfold waiting in Hq. rewrite Hq in Er. cbn in Er.
  destruct q0 as [|c0 q1]; [done|]. injection Er as -> <-.
  set (s1 := set_subscribers _ _) in *.
  assert (Hlen : ru_sub r < length (i_subscribers (ru_store r))) by (by eapply lookup_lt_Some).
  assert (Hs1 : store_inv s1) by (eapply store_inv_ext; [..|exact Hs]; try done; apply (inv_names _ Hs)).
  assert (Ho1 : all_open s1) by (unfold all_open, s1; cbn; by apply Forall_insert).
  assert (Hw1 : waiting s1 (ru_sub r) q1) by (unfold waiting, s1; cbn; by apply list_lookup_insert_eq).
  destruct (dispatch_capped (ru_turn r) c (imap pair (ru_specs r)) s1 (ru_history r) Hh Hfr) as [Hst Hcap].
  unfold dispatch. destruct (foldl _ _ _) as [s2 h2]. cbn [fst snd] in *.
  pose proof (steps_hear _ _ Hst Ho1) as [Ho2 Hw2]. destruct (Hw2 _ _ Hw1) as [l2 Hw3]. split.
  - split; cbn; [by eapply steps_inv|done|by eexists|done|done].
  - eapply (accounted_hears r _ s2 [c]); [done|done|cbn; lia|done|].
    intros q Hqq. unfold waiting in Hqq. rewrite Hq in Hqq. injection Hqq as <-. by exists q1, l2.
Qed.

Lemma rstep_inv r r' : rstep r r' -> runner_inv r -> runner_inv r' /\ accounted r r'.
Proof.
  intros Hst Hi. destruct Hst as [r Hf|r cmd|r s Hs].
  - by apply feed_inv.
  - destruct Hi as [Hs Ho Hw Hsp Hh]. cbn [runner_step].
    pose proof (specs_command_exact (ru_path r) (ru_specs r) cmd (ru_fs r) Hsp) as [Hsp' _].
    destruct (run_cmd _ _ _ _) as [specs fs]. split; [by split|].
    apply (accounted_hears r _ (ru_store r) []); [done|done|cbn; lia|done|].
    intros q Hq. exists q, []. by rewrite app_nil_r.
  - destruct Hi as [Hi Ho Hw Hsp Hh]. destruct (step_hears _ _ Hs Ho) as [Ho' Hw'].
    destruct Hw as [q Hq]. destruct (Hw' _ _ Hq) as [l Hl]. split.
    + split; cbn; [by eapply step_inv|done|by eexists|done|done].
    + apply (accounted_hears r _ s []); [done|done|cbn; lia|done|]. intros q2 Hq2.
      destruct (Hw' _ _ Hq2) as [l2 Hl2]. by exists q2, l2.
Qed.


(** The engine starts in such a state, when the file lists each name once and
    in order. *)
Lemma runner_new_inv blank s path fs :
  store_inv s -> all_open s -> specs_ok (ru_specs (runner_new blank s path fs)) -> runner_inv (runner_new blank s path fs).
Proof.
  unfold runner_new. destruct (load_specs _ _ _) as [fs1 l]. intros Hs Ho Hl. split; cbn in *.
  - by apply subscribe_inv.
  - apply Forall_app. split; [exact Ho|]. by repeat constructor.
  - exists []. unfold waiting, subscribe_changes. cbn. by rewrite lookup_app_r, Nat.sub_diag.
  - done.
  - intros k. unfold fires. rewrite lookup_empty. apply le_0_n.
Qed.
End RunnerProps.

(** ** A reaction that feeds itself *)

Module RunnerSample.
#[export] Instance sample_specs_file : Serde (list ProcessorSpec) :=
  {| to_json := fun l => as_bytes (String.concat "," (ps_name <$> l)); from_json := fun _ => Err "" |}.
Definition tick_clock (t i : nat) : N := (9000 + N.of_nat t)%N.
Definition turn_id (t i : nat) : DocId := (900 + N.of_nat t)%N.

(** "When a note is created, file a copy": the reaction's name and the name
    among its fields differ. *)
Definition copy_note : ProcessorSpec :=
  {| ps_name := "copy-note"; ps_models := ["note"]; ps_action_kind := Some "init"; ps_field := None;
     ps_value := None; ps_created := 1;
     ps_reaction := CreateDoc "note" "copy"
       (<["name" := Str "filed"]> (<["title" := Str "t"]> {[ "body" := Str "b" ]})) |}.
Definition note_model : AnyModel := builtin note_def.
Definition note_payload : Value := json_obj [("name", Str "first"); ("title", Str "t"); ("body", Str "b")].
Definition engine : Runner :=
  let r := runner_new (fun _ => true) (add_model node2 note_model) ["processors.json"] {| fs_files := ∅; fs_sched := [] |} in
  let r := runner_step no_shell tick_clock turn_id r (GotCmd (SetSpec copy_note)) in
  with_ru_store r (create_doc_model 5000 800 "first" (modelref_new "note" "1") note_payload (ru_store r)).1.
End RunnerSample.
Import RunnerSample.

Lemma engine_inv : runner_inv engine.
Proof.
  set (r0 := runner_new (fun _ => true) (add_model node2 note_model) ["processors.json"] {| fs_files := ∅; fs_sched := [] |}).
  assert (Hr : reachable (add_model node2 note_model)).
  { eapply reach_step; [exact node2_reachable|]. apply step_add_model. vm_compute. reflexivity. }
  assert (H0 : runner_inv r0).
  { apply runner_new_inv; [by apply reachable_inv|apply Forall_nil_2|]. split; [apply NoDup_nil_2|constructor]. }
  pose proof (rstep_inv no_shell tick_clock turn_id r0 _ (r_cmd _ _ _ r0 (SetSpec copy_note)) H0) as [H1 _].
  eapply (rstep_inv no_shell tick_clock turn_id); [|exact H1]. apply r_other. apply step_create_in_space.
  vm_compute. reflexivity.
Qed.

Lemma engine_fresh : draws_fresh no_shell tick_clock turn_id engine.
Proof.
  intros c s E.
  assert (Hf : match recv_change (ru_store engine) (ru_sub engine) with
               | Some (c, s) => fresh_turn no_shell tick_clock turn_id (ru_turn engine) c (s, ru_history engine)
                                  (imap pair (ru_specs engine))
               | None => True end).
  { vm_compute. split; [reflexivity|exact I]. }
  rewrite E in Hf. exact Hf.
Qed.


(** The check that skips a reaction looks for the name of the reaction, while
    the model names the document by the payload: when the two differ the
    document is created again by the change it announces, and so on without
    end.  After forty turns there are forty-one documents and another change
    waits. *)
Theorem reaction_feeds_itself :
  let r := runner_run no_shell tick_clock turn_id engine (replicate 40 FeedReady) in
  ru_turn r = 40 /\ length (doc_ids (ru_store r)) = 41 /\
  (length ∘ sub_queue) <$> i_subscribers (ru_store r) = [1].
Proof. split_and!; vm_compute; reflexivity. Qed.
