(* ===== verification/Jobs.v ===== *)
(** The processor framework of the views crate (views/src/processor.rs): a
    bounded job queue over the change feed, one worker, and a retry budget per
    job.

    The dispatcher and the worker are two tasks that share the queue; they are
    modelled as the steps of a transition system on [Manager].  [send] waits
    while the queue is full: its step is only enabled when there is room. *)

From stdpp Require Import base gmap strings numbers pretty relations list.
From Stdlib Require Import Strings.Byte.
From S2P Require Import Prelude Json Doc Sample Action Model Builtins Entry Store Text Fs ReadModel.
From S2P Require Import Package Processor.

(** [trait Processor]; [on_change] takes [&mut self]. *)
Class Processor (P : Type) := {
  proc_name : P -> string;
  proc_filter : P -> ActionFilter;
  on_change : P -> DocSnapshot -> P * result string unit
}.

(** [Job]. *)
Record Job := { job_proc : nat; job_snap : DocSnapshot; job_attempts : N }.

(** [mpsc::channel(1024)]. *)
Definition QUEUE_CAP : nat := 1024.

(** The shared state of the two tasks: the processors, the queue, the changes
    not yet received, the jobs of the current change not yet sent, and the
    retry the worker is sending. *)
Record Manager (P : Type) := {
  mg_procs : list P;
  mg_queue : list Job;
  mg_feed : list DocChange;
  mg_sending : list Job;
  mg_retry : option Job
}.
Arguments mg_procs {P}.
Arguments mg_queue {P}.
Arguments mg_feed {P}.
Arguments mg_sending {P}.
Arguments mg_retry {P}.

Section Run.
Context {P : Type} `{Processor P} (max_attempts : N).
Implicit Types (g : Manager P) (j : Job) (c : DocChange).

(** The jobs of a change: one per processor whose filter matches. *)
Definition jobs_of (procs : list P) c : list Job :=
  omap (fun ip : nat * P =>
          if matches (proc_filter ip.2) c
          then Some {| job_proc := ip.1; job_snap := from_change c; job_attempts := 0 |}
          else None) (imap pair procs).

Definition retry_of j : Job :=
  {| job_proc := job_proc j; job_snap := job_snap j; job_attempts := job_attempts j + 1 |}.

(** One job run by the worker: the processor after it, and the retry if it
    failed within the budget.  A job names a processor of the list. *)
Definition run_job (procs : list P) j : list P * option Job :=
  match procs !! job_proc j with
  | None => (procs, None)
  | Some p =>
      let '(p', r) := on_change p (job_snap j) in
      (<[job_proc j := p']> procs,
       match r with
       | Ok _ => None
       | Err _ => if (job_attempts j <? max_attempts)%N then Some (retry_of j) else None
       end)
  end.

Inductive mstep : Manager P -> Manager P -> Prop :=
  | ms_receive procs q c feed retry :
      mstep {| mg_procs := procs; mg_queue := q; mg_feed := c :: feed; mg_sending := []; mg_retry := retry |}
            {| mg_procs := procs; mg_queue := q; mg_feed := feed; mg_sending := jobs_of procs c;
               mg_retry := retry |}
  | ms_send procs q feed j js retry :
      length q < QUEUE_CAP ->
      mstep {| mg_procs := procs; mg_queue := q; mg_feed := feed; mg_sending := j :: js; mg_retry := retry |}
            {| mg_procs := procs; mg_queue := q ++ [j]; mg_feed := feed; mg_sending := js; mg_retry := retry |}
  | ms_run procs j q feed sending :
      mstep {| mg_procs := procs; mg_queue := j :: q; mg_feed := feed; mg_sending := sending; mg_retry := None |}
            {| mg_procs := (run_job procs j).1; mg_queue := q; mg_feed := feed; mg_sending := sending;
               mg_retry := (run_job procs j).2 |}
  | ms_resend procs q feed sending j :
      length q < QUEUE_CAP ->
      mstep {| mg_procs := procs; mg_queue := q; mg_feed := feed; mg_sending := sending; mg_retry := Some j |}
            {| mg_procs := procs; mg_queue := q ++ [j]; mg_feed := feed; mg_sending := sending; mg_retry := None |}.

(** The worker alone, once the feed is quiet: one job, and its retry put back. *)
Definition work (st : list P * list Job) : list P * list Job :=
  let '(procs, q) := st in
  match q with
  | [] => (procs, [])
  | j :: q =>
      let '(procs, retry) := run_job procs j in
      (procs, q ++ match retry with Some r => [r] | None => [] end)
  end.

(** ** Bounds *)

(** What every reachable state satisfies. *)
Record manager_ok g : Prop := {
  mo_queue : length (mg_queue g) <= QUEUE_CAP;
  mo_jobs : Forall (fun j => (job_attempts j <= max_attempts)%N) (mg_queue g);
  mo_sending : Forall (fun j => job_attempts j = 0%N) (mg_sending g);
  mo_retry : forall j, mg_retry g = Some j -> (0 < job_attempts j <= max_attempts)%N
}.

Lemma run_job_retry procs j r :
  (run_job procs j).2 = Some r ->
  (job_attempts j < max_attempts)%N /\ job_attempts r = (job_attempts j + 1)%N /\
  job_proc r = job_proc j /\ job_snap r = job_snap j.
Proof.
  unfold run_job. destruct (procs !! job_proc j) as [p|]; [|done].
  destruct (on_change p (job_snap j)) as [p' []]; [done|]. simpl.
  destruct (N.ltb_spec (job_attempts j) max_attempts); [|done]. by intros [= <-].
Qed.

Lemma jobs_of_new procs c : Forall (fun j => job_attempts j = 0%N) (jobs_of procs c).
Proof.
  apply Forall_forall. intros j (ip & _ & E)%list_elem_of_omap. case_match; [|done]. by simplify_eq.
Qed.

(** Whatever the two tasks do, in whatever order, the queue never holds
    more than its capacity and no job is attempted more often than the first
    time and its retry budget. *)
Theorem manager_bounded g g' : manager_ok g -> rtc mstep g g' -> manager_ok g'.
Proof.
  intros Hg Hr. induction Hr as [|g g1 g' Hst _ IH]; [done|]. apply IH. clear IH.
  destruct Hst as [procs q c feed retry|procs q feed j js retry Hl|procs j q feed sending
    |procs q feed sending j Hl]; destruct Hg as [G1 G2 G3 G4]; simpl in *.
  - split; simpl; try done. apply jobs_of_new.
  - apply Forall_cons_1 in G3 as [E G3]. split; simpl; try done.
    + rewrite length_app. simpl. lia.
    + apply Forall_app. split; [done|]. apply Forall_singleton. lia.
  - apply Forall_cons_1 in G2 as [E G2]. split; simpl; try done; [lia|].
    intros r Hr. apply run_job_retry in Hr as (? & ? & _). lia.
  - split; simpl; try done; [rewrite length_app; simpl; lia|].
    apply Forall_app. split; [done|]. apply Forall_singleton. by apply G4.
Qed.

(** ** Draining *)

(** The runs a job can still cost. *)
Definition budget j : nat := S (N.to_nat (max_attempts - job_attempts j)).
Definition total (q : list Job) : nat := sum_list_with budget q.

Lemma total_app q r : total (q ++ r) = total q + total r.
Proof. apply sum_list_with_app. Qed.

Lemma total_cons j q : total (j :: q) = budget j + total q.
Proof. done. Qed.

Lemma work_decreases procs q :
  q <> [] -> total (work (procs, q)).2 < total q.
Proof.
  destruct q as [|j q]; [done|]. intros _. unfold work.
  pose proof (run_job_retry procs j) as Hr. destruct (run_job procs j) as [procs' [r|]]; cbn [snd].
  - destruct (Hr r eq_refl) as (Hl & Ea & _). rewrite total_app, !total_cons.
    unfold budget. rewrite Ea. unfold total at 2. simpl. lia.
  - rewrite app_nil_r, total_cons. unfold budget. lia.
Qed.

Fixpoint drain (fuel : nat) (st : list P * list Job) : list P * list Job :=
  match fuel with
  | O => st
  | S fuel' => match st.2 with [] => st | _ => drain fuel' (work st) end
  end.

Lemma drain_done fuel procs q : total q <= fuel -> (drain fuel (procs, q)).2 = [].
Proof.
  revert procs q. induction fuel as [|fuel IH]; intros procs q Hf.
  - destruct q as [|j q]; [done|]. rewrite total_cons in Hf. unfold budget in Hf. lia.
  - cbn [drain snd]. destruct q as [|j q]; [done|].
    pose proof (work_decreases procs (j :: q) ltac:(done)) as Hw.
    destruct (work (procs, j :: q)) as [procs' q']. apply IH. cbn [snd] in Hw. lia.
Qed.

(** The worker's loop is the steps of the system, while there is room for its
    own retries. *)
Lemma work_steps procs q feed :
  length q <= QUEUE_CAP ->
  rtc mstep {| mg_procs := procs; mg_queue := q; mg_feed := feed; mg_sending := []; mg_retry := None |}
    {| mg_procs := (work (procs, q)).1; mg_queue := (work (procs, q)).2; mg_feed := feed;
       mg_sending := []; mg_retry := None |}.
Proof.
  intros Hl. destruct q as [|j q]; [done|]. simpl in Hl. eapply rtc_l; [apply ms_run|].
  unfold work. destruct (run_job procs j) as [procs' [r|]]; cbn [fst snd].
  - eapply rtc_l; [apply ms_resend; lia|]. done.
  - by rewrite app_nil_r.
Qed.

Lemma work_length procs q : length (work (procs, q)).2 <= length q.
Proof.
  destruct q as [|j q]; [done|]. unfold work. destruct (run_job procs j) as [procs' [r|]]; simpl;
    rewrite length_app; simpl; lia.
Qed.


(** ** A full queue *)

(** With the queue full and the worker waiting to put a retry back, nothing is
    ever run again: the only reader of the queue is the one that waits. *)
Lemma stuck_forever g g' j :
  length (mg_queue g) = QUEUE_CAP -> mg_retry g = Some j -> rtc (mstep) g g' ->
  mg_queue g' = mg_queue g /\ mg_retry g' = Some j /\ mg_procs g' = mg_procs g.
Proof.
  intros Hq Hj Hr. induction Hr as [|g g1 g' Hst _ IH]; [done|].
  assert (E : mg_queue g1 = mg_queue g /\ mg_retry g1 = mg_retry g /\ mg_procs g1 = mg_procs g).
  { destruct Hst; simpl in *; try done; lia. }
  destruct E as (E1 & E2 & E3). rewrite <- E1, <- E3. apply IH; congruence.
Qed.

(** The dispatcher fills the queue while the worker has not been scheduled. *)
Lemma fill_steps procs q n c rest j :
  jobs_of procs c = [j] -> length q + n <= QUEUE_CAP ->
  rtc mstep
    {| mg_procs := procs; mg_queue := q; mg_feed := replicate n c ++ rest; mg_sending := []; mg_retry := None |}
    {| mg_procs := procs; mg_queue := q ++ replicate n j; mg_feed := rest; mg_sending := []; mg_retry := None |}.
Proof.
  intros Hj. revert q. induction n as [|n IH]; intros q Hl; simpl; [by rewrite app_nil_r|].
  eapply rtc_l; [apply ms_receive|]. rewrite Hj. eapply rtc_l; [apply ms_send; lia|].
  replace (q ++ j :: replicate n j) with ((q ++ [j]) ++ replicate n j) by (by rewrite <- app_assoc).
  apply IH. rewrite length_app. simpl. lia.
Qed.

Lemma stuck_reachable procs procs' c j r :
  jobs_of procs c = [j] -> run_job procs j = (procs', Some r) -> 0 < QUEUE_CAP ->
  exists g, rtc mstep
    {| mg_procs := procs; mg_queue := []; mg_feed := replicate (S QUEUE_CAP) c; mg_sending := []; mg_retry := None |} g /\
    length (mg_queue g) = QUEUE_CAP /\ mg_retry g = Some r /\ mg_feed g = [].
Proof.
  intros Hj Hr Hc. destruct QUEUE_CAP as [|cap] eqn:Ecap; [lia|].
  exists {| mg_procs := procs'; mg_queue := replicate cap j ++ [j]; mg_feed := []; mg_sending := [];
            mg_retry := Some r |}. split.
  - replace (replicate (S (S cap)) c) with (replicate (S cap) c ++ [c]).
    2:{ change [c] with (replicate 1 c). rewrite <- replicate_add. f_equal. lia. }
    etrans; [apply (fill_steps procs [] (S cap) c [c] j Hj); simpl; lia|].
    eapply rtc_l; [apply ms_receive|]. rewrite Hj.
    eapply rtc_l; [apply (ms_run procs j (replicate cap j) [] [j])|]. rewrite Hr. cbn [fst snd].
    eapply rtc_l; [apply ms_send; rewrite length_replicate; lia|]. done.
  - cbn [mg_queue mg_retry mg_feed]. rewrite length_app, length_replicate. simpl. split_and!; [lia|done|done].
Qed.
End Run.

(** ** A processor that fails *)

(** [DocCounter]: changes counted per model; [c[&key].saturating_sub(1)]. *)
Record DocCounter := { cn_name : string; cn_models : list string; cn_counts : gmap string N }.
Definition counter_on_change (d : DocCounter) (sn : DocSnapshot) : DocCounter * result string unit :=
  let key := mr_name (sn_model sn) in
  let n := default 0%N (cn_counts d !! key) in
  ({| cn_name := cn_name d; cn_models := cn_models d;
      cn_counts := <[key := if sn_deleted sn then (n - 1)%N else wrap64 (n + 1)]> (cn_counts d) |}, Ok tt).
#[export] Instance DocCounter_processor : Processor DocCounter := {|
  proc_name := cn_name;
  proc_filter := fun d => {| af_models := cn_models d; af_action_kind := None; af_field := None;
                             af_value := None |};
  on_change := counter_on_change
|}.

(** A processor whose reaction always fails, on every change. *)
Definition broken_processor : Processor unit := {|
  proc_name := fun _ => "broken";
  proc_filter := fun _ => {| af_models := []; af_action_kind := None; af_field := None; af_value := None |};
  on_change := fun _ _ => (tt, Err "down")
|}.

Section Deadlock.
#[local] Existing Instance broken_processor.
Definition burst : Manager unit :=
  {| mg_procs := [tt]; mg_queue := []; mg_feed := replicate (S QUEUE_CAP) milestone; mg_sending := [];
     mg_retry := None |}.

(** The job queue can deadlock.  When a burst of one change more than the
    queue holds meets a processor that fails, a reachable state has the queue
    full and the worker waiting for room to put a retry back; from there no
    sequence of steps ever runs another job, because the worker that waits is
    the queue's only reader. *)
Theorem full_queue_deadlocks :
  exists g, rtc (mstep 3) burst g /\ length (mg_queue g) = QUEUE_CAP /\
    forall g', rtc (mstep 3) g g' -> mg_queue g' = mg_queue g /\ is_Some (mg_retry g').
Proof.
  destruct (stuck_reachable 3 [tt] [tt] milestone
    {| job_proc := 0; job_snap := from_change milestone; job_attempts := 0 |}
    {| job_proc := 0; job_snap := from_change milestone; job_attempts := 1 |})
    as (g & Hr & Hq & Hj & _); [reflexivity|reflexivity|apply Nat.lt_0_succ|].
  exists g. split_and!; [exact Hr|exact Hq|]. intros g' Hg'.
  destruct (stuck_forever 3 g g' _ Hq Hj Hg') as (E1 & E2 & _). by rewrite E1, E2.
Qed.
End Deadlock.

(** ** Applied at concrete queues *)

Definition counter : DocCounter := {| cn_name := "docs"; cn_models := []; cn_counts := ∅ |}.
Definition counted : Job :=
  {| job_proc := 0; job_snap := from_change milestone; job_attempts := 0 |}.


Lemma manager_bounded_witness :
  manager_ok 3 {| mg_procs := [counter]; mg_queue := [counted]; mg_feed := []; mg_sending := [];
                  mg_retry := None |}.
Proof.
  apply (manager_bounded 3 {| mg_procs := [counter]; mg_queue := []; mg_feed := []; mg_sending := [counted];
                  mg_retry := None |}).
  - split; simpl; [apply le_0_n|constructor|by repeat constructor|done].
  - apply rtc_once. apply (ms_send 3 [counter] [] [] counted [] None). apply Nat.lt_0_succ.
Defined.
