(* ===== verification/Config.v ===== *)
(** The state directory (src/paths.rs) and the daemon's configuration
    (src/config.rs).

    [config.json] is one JSON object.  Its structures are decoded the way the
    derived [Deserialize] with [#[serde(default)]] does: a missing field takes
    its default, a nested structure may also be given as an array, what a
    nested structure does not declare is skipped, and what the top level does
    not declare is kept in [c_extra].  The text of a value is the interface
    [JsonText]; a text that repeats a key, or that holds a fraction, does not
    parse in the model.  The texts of [serde]'s own errors are left out. *)

From stdpp Require Import base gmap strings numbers pretty list.
From Stdlib Require Import Strings.Byte Strings.Ascii.
From S2P Require Import Prelude Json Text Fs Engine.

(** ** Paths *)

(** [DEFAULT_ROOT], on [$PH_REACTOR_STATE_DIR] and the home directory. *)
Definition default_root (env home : option Path) : Path :=
  match env with
  | Some dir => dir
  | None => default [] home ++ [".ph"; "reactor"]
  end.

(** [root]. *)
Definition root (state_dir : option Path) (dflt : Path) : Path := default dflt state_dir.

(** [StatePaths]. *)
Record StatePaths := {
  sp_root : Path;
  docs_dir : Path;
  logs_dir : Path;
  run_dir : Path;
  config_file : Path
}.

(** [StatePaths::for_root]. *)
Definition for_root (r : Path) : StatePaths :=
  {| sp_root := r; docs_dir := join r "docs"; logs_dir := join r "logs"; run_dir := join r "run";
     config_file := join r "config.json" |}.

(** [StatePaths::ensure_dirs]. *)
Definition ensure_dir (dir : Path) : fsM unit :=
  _ ← fs_create_dir_all; fs_ignore fs_set_permissions.
Definition ensure_dirs (sp : StatePaths) : fsM unit :=
  _ ← ensure_dir (sp_root sp);
  _ ← ensure_dir (docs_dir sp);
  _ ← ensure_dir (logs_dir sp);
  ensure_dir (run_dir sp).

(** The files of the state directory. *)
Definition reactor_log (sp : StatePaths) : Path := join (logs_dir sp) "reactor.log".
Definition key_file (sp : StatePaths) : Path := join (sp_root sp) "key".
Definition bans_file (sp : StatePaths) : Path := join (sp_root sp) "bans.json".
Definition processors_file (sp : StatePaths) : Path := join (sp_root sp) "processors.json".
Definition packages_file (sp : StatePaths) : Path := join (sp_root sp) "packages.json".
Definition publishers_file (sp : StatePaths) : Path := join (sp_root sp) "publishers.json".
Definition blobs_dir (sp : StatePaths) : Path := join (sp_root sp) "blobs".
Definition models_file (sp : StatePaths) : Path := join (sp_root sp) "models.json".
Definition daemon_pidfile (sp : StatePaths) : Path := join (run_dir sp) "ph-reactor.pid".
Definition lock_file (sp : StatePaths) : Path := join (run_dir sp) "lock".

(** ** The document *)

Definition CONFIG_VERSION : N := 2.
Definition DEFAULT_LISTEN : string := "/ip4/0.0.0.0/tcp/4201".
Definition DEFAULT_INSTANCE_NAME : string := "reactor".
Definition LOG_LEVELS : list string := ["verbose"; "debug"; "info"; "warn"; "error"; "silent"].

Inductive ConfigError : Type :=
  | CfgIo (e : string)
  | CfgJson (e : string)
  | CfgInvalid (e : string).
Definition config_error_text (e : ConfigError) : string :=
  match e with
  | CfgIo e => "io: " +:+ e
  | CfgJson e => "json: " +:+ e
  | CfgInvalid e => "config: " +:+ e
  end.

Record InstanceConfig := {
  in_name : string;
  in_listen : string;
  in_listen_ws : option string;
  in_external : list string
}.
Record P2pConfig := {
  pp_mdns : bool;
  pp_token_env : option string;
  pp_dht : bool;
  pp_relay : bool;
  pp_bootstraps : list string
}.
Record DriveConfig := {
  dr_name : string;
  dr_addr : string;
  dr_token_env : option string;
  dr_paused : bool;
  dr_available_offline : bool
}.
Record SettingsConfig := { st_host : string; st_port : N }.
Record LlmConfig := { llm_base_url : string; llm_api_key_env : string; llm_model : string }.
Record UpdateConfig := { up_check : bool; up_auto : bool }.
Record ReactorConfig := {
  c_version : N;
  c_instance : InstanceConfig;
  c_p2p : P2pConfig;
  c_drives : list DriveConfig;
  c_settings : SettingsConfig;
  c_llm : LlmConfig;
  c_update : UpdateConfig;
  c_log_level : string;
  c_extra : gmap string Value
}.

(** The [Default] instances. *)
Definition default_instance : InstanceConfig :=
  {| in_name := DEFAULT_INSTANCE_NAME; in_listen := DEFAULT_LISTEN; in_listen_ws := None;
     in_external := [] |}.
Definition default_p2p : P2pConfig :=
  {| pp_mdns := true; pp_token_env := None; pp_dht := true; pp_relay := false; pp_bootstraps := [] |}.
Definition default_drive : DriveConfig :=
  {| dr_name := ""; dr_addr := ""; dr_token_env := None; dr_paused := false;
     dr_available_offline := true |}.
Definition default_settings : SettingsConfig := {| st_host := "127.0.0.1"; st_port := 4002 |}.
Definition default_llm : LlmConfig :=
  {| llm_base_url := "https://api.openai.com/v1"; llm_api_key_env := "LLM_API_KEY";
     llm_model := "gpt-4o-mini" |}.
Definition default_update : UpdateConfig := {| up_check := true; up_auto := false |}.
Definition default_config : ReactorConfig :=
  {| c_version := CONFIG_VERSION; c_instance := default_instance; c_p2p := default_p2p;
     c_drives := []; c_settings := default_settings; c_llm := default_llm;
     c_update := default_update; c_log_level := "info"; c_extra := ∅ |}.

(** Assignments to one part. *)
Definition with_instance (c : ReactorConfig) (x : InstanceConfig) : ReactorConfig :=
  {| c_version := c_version c; c_instance := x; c_p2p := c_p2p c; c_drives := c_drives c;
     c_settings := c_settings c; c_llm := c_llm c; c_update := c_update c;
     c_log_level := c_log_level c; c_extra := c_extra c |}.
Definition with_p2p (c : ReactorConfig) (x : P2pConfig) : ReactorConfig :=
  {| c_version := c_version c; c_instance := c_instance c; c_p2p := x; c_drives := c_drives c;
     c_settings := c_settings c; c_llm := c_llm c; c_update := c_update c;
     c_log_level := c_log_level c; c_extra := c_extra c |}.
Definition with_drives (c : ReactorConfig) (x : list DriveConfig) : ReactorConfig :=
  {| c_version := c_version c; c_instance := c_instance c; c_p2p := c_p2p c; c_drives := x;
     c_settings := c_settings c; c_llm := c_llm c; c_update := c_update c;
     c_log_level := c_log_level c; c_extra := c_extra c |}.
Definition with_settings (c : ReactorConfig) (x : SettingsConfig) : ReactorConfig :=
  {| c_version := c_version c; c_instance := c_instance c; c_p2p := c_p2p c; c_drives := c_drives c;
     c_settings := x; c_llm := c_llm c; c_update := c_update c;
     c_log_level := c_log_level c; c_extra := c_extra c |}.
Definition with_llm (c : ReactorConfig) (x : LlmConfig) : ReactorConfig :=
  {| c_version := c_version c; c_instance := c_instance c; c_p2p := c_p2p c; c_drives := c_drives c;
     c_settings := c_settings c; c_llm := x; c_update := c_update c;
     c_log_level := c_log_level c; c_extra := c_extra c |}.
Definition with_update (c : ReactorConfig) (x : UpdateConfig) : ReactorConfig :=
  {| c_version := c_version c; c_instance := c_instance c; c_p2p := c_p2p c; c_drives := c_drives c;
     c_settings := c_settings c; c_llm := c_llm c; c_update := x;
     c_log_level := c_log_level c; c_extra := c_extra c |}.
Definition with_log_level (c : ReactorConfig) (x : string) : ReactorConfig :=
  {| c_version := c_version c; c_instance := c_instance c; c_p2p := c_p2p c; c_drives := c_drives c;
     c_settings := c_settings c; c_llm := c_llm c; c_update := c_update c;
     c_log_level := x; c_extra := c_extra c |}.

(** ** To JSON and back *)

(** [Option<String>] and the fields that are skipped. *)
Definition opt_json (o : option string) : Value := match o with Some s => Str s | None => Null end.
Definition skip_none (k : string) (o : option string) : list (string * Value) :=
  match o with Some s => [(k, Str s)] | None => [] end.
Definition skip_empty (k : string) (l : list string) : list (string * Value) :=
  match l with [] => [] | _ => [(k, json_strs l)] end.

Definition instance_json (x : InstanceConfig) : Value :=
  json_obj ([("name", Str (in_name x)); ("listen", Str (in_listen x))]
            ++ skip_none "listenWs" (in_listen_ws x) ++ skip_empty "external" (in_external x)).
Definition p2p_json (x : P2pConfig) : Value :=
  json_obj [("mdns", Bool (pp_mdns x)); ("tokenEnv", opt_json (pp_token_env x));
            ("dht", Bool (pp_dht x)); ("relay", Bool (pp_relay x));
            ("bootstraps", json_strs (pp_bootstraps x))].
Definition drive_json (x : DriveConfig) : Value :=
  json_obj [("name", Str (dr_name x)); ("addr", Str (dr_addr x));
            ("tokenEnv", opt_json (dr_token_env x)); ("paused", Bool (dr_paused x));
            ("availableOffline", Bool (dr_available_offline x))].
Definition settings_json (x : SettingsConfig) : Value :=
  json_obj [("host", Str (st_host x)); ("port", Number (Z.of_N (st_port x)))].
Definition llm_json (x : LlmConfig) : Value :=
  json_obj [("baseUrl", Str (llm_base_url x)); ("apiKeyEnv", Str (llm_api_key_env x));
            ("model", Str (llm_model x))].
Definition update_json (x : UpdateConfig) : Value :=
  json_obj [("check", Bool (up_check x)); ("auto", Bool (up_auto x))].

(** The declared fields, written over the kept ones. *)
Definition declared (c : ReactorConfig) : list (string * Value) :=
  [("schemaVersion", Number (Z.of_N (c_version c))); ("instance", instance_json (c_instance c));
   ("p2p", p2p_json (c_p2p c)); ("drives", Array (drive_json <$> c_drives c));
   ("settings", settings_json (c_settings c)); ("llm", llm_json (c_llm c));
   ("update", update_json (c_update c)); ("logLevel", Str (c_log_level c))].
Definition config_json (c : ReactorConfig) : Value :=
  Object (foldl (fun m kv => obj_insert kv.1 kv.2 m) (btree_iter (c_extra c)) (declared c)).

(** The names of the declared fields. *)
Definition KNOWN : list string :=
  ["schemaVersion"; "instance"; "p2p"; "drives"; "settings"; "llm"; "update"; "logLevel"].

(** The readers of the primitive types. *)
Definition de_string (v : Value) : result string string :=
  match v with Str s => Ok s | _ => Err "invalid type: expected a string" end.
Definition de_bool (v : Value) : result string bool :=
  match v with Bool b => Ok b | _ => Err "invalid type: expected a boolean" end.
Definition de_uint (max : N) (v : Value) : result string N :=
  match v with
  | Number n => if ((0 <=? n) && (n <=? Z.of_N max))%Z then Ok (Z.to_N n)
                else Err "invalid value: integer out of range"
  | _ => Err "invalid type: expected an integer"
  end.
Definition de_option {A} (de : Value -> result string A) (v : Value) : result string (option A) :=
  match v with Null => Ok None | v => x ← de v; Ok (Some x) end.
Definition de_vec {A} (de : Value -> result string A) (v : Value) : result string (list A) :=
  match v with Array l => mapM de l | _ => Err "invalid type: expected a sequence" end.

(** A structure of [n] fields, and its [i]th field, called [k]. *)
Definition de_struct (n : nat) (v : Value) : result string unit :=
  match v with
  | Object _ => Ok tt
  | Array l => if length l <=? n then Ok tt else Err "trailing characters"
  | _ => Err "invalid type: expected a struct"
  end.
Definition de_field {A} (v : Value) (i : nat) (k : string) (de : Value -> result string A) (d : A) :
    result string A :=
  match match v with Object m => obj_lookup m k | Array l => l !! i | _ => None end with
  | Some x => de x
  | None => Ok d
  end.

Definition de_instance (v : Value) : result string InstanceConfig :=
  _ ← de_struct 4 v;
  n ← de_field v 0 "name" de_string (in_name default_instance);
  l ← de_field v 1 "listen" de_string (in_listen default_instance);
  w ← de_field v 2 "listenWs" (de_option de_string) None;
  e ← de_field v 3 "external" (de_vec de_string) [];
  Ok {| in_name := n; in_listen := l; in_listen_ws := w; in_external := e |}.
Definition de_p2p (v : Value) : result string P2pConfig :=
  _ ← de_struct 5 v;
  m ← de_field v 0 "mdns" de_bool (pp_mdns default_p2p);
  t ← de_field v 1 "tokenEnv" (de_option de_string) (pp_token_env default_p2p);
  d ← de_field v 2 "dht" de_bool (pp_dht default_p2p);
  r ← de_field v 3 "relay" de_bool (pp_relay default_p2p);
  b ← de_field v 4 "bootstraps" (de_vec de_string) (pp_bootstraps default_p2p);
  Ok {| pp_mdns := m; pp_token_env := t; pp_dht := d; pp_relay := r; pp_bootstraps := b |}.
Definition de_drive (v : Value) : result string DriveConfig :=
  _ ← de_struct 5 v;
  n ← de_field v 0 "name" de_string (dr_name default_drive);
  a ← de_field v 1 "addr" de_string (dr_addr default_drive);
  t ← de_field v 2 "tokenEnv" (de_option de_string) (dr_token_env default_drive);
  p ← de_field v 3 "paused" de_bool (dr_paused default_drive);
  o ← de_field v 4 "availableOffline" de_bool (dr_available_offline default_drive);
  Ok {| dr_name := n; dr_addr := a; dr_token_env := t; dr_paused := p; dr_available_offline := o |}.
Definition de_settings (v : Value) : result string SettingsConfig :=
  _ ← de_struct 2 v;
  h ← de_field v 0 "host" de_string (st_host default_settings);
  p ← de_field v 1 "port" (de_uint 65535) (st_port default_settings);
  Ok {| st_host := h; st_port := p |}.
Definition de_llm (v : Value) : result string LlmConfig :=
  _ ← de_struct 3 v;
  b ← de_field v 0 "baseUrl" de_string (llm_base_url default_llm);
  k ← de_field v 1 "apiKeyEnv" de_string (llm_api_key_env default_llm);
  m ← de_field v 2 "model" de_string (llm_model default_llm);
  Ok {| llm_base_url := b; llm_api_key_env := k; llm_model := m |}.
Definition de_update (v : Value) : result string UpdateConfig :=
  _ ← de_struct 2 v;
  c ← de_field v 0 "check" de_bool (up_check default_update);
  a ← de_field v 1 "auto" de_bool (up_auto default_update);
  Ok {| up_check := c; up_auto := a |}.

(** The top level: flattened, so only an object. *)
Definition config_of_json (v : Value) : result string ReactorConfig :=
  match v with
  | Object m =>
      ver ← de_field v 0 "schemaVersion" (de_uint 4294967295) CONFIG_VERSION;
      i ← de_field v 0 "instance" de_instance default_instance;
      p ← de_field v 0 "p2p" de_p2p default_p2p;
      d ← de_field v 0 "drives" (de_vec de_drive) [];
      s ← de_field v 0 "settings" de_settings default_settings;
      l ← de_field v 0 "llm" de_llm default_llm;
      u ← de_field v 0 "update" de_update default_update;
      g ← de_field v 0 "logLevel" de_string "info";
      Ok {| c_version := ver; c_instance := i; c_p2p := p; c_drives := d; c_settings := s;
            c_llm := l; c_update := u; c_log_level := g;
            c_extra := list_to_map (filter (fun kv => kv.1 ∉ KNOWN) m) |}
  | _ => Err "invalid type: expected a map"
  end.

(** The text of a value: [serde_json::to_string_pretty] and [from_str]. *)
Class JsonText := {
  json_pretty : Value -> list byte;
  json_parse : list byte -> result string Value
}.
(** What is written, with the newline the program adds, is read back, and is
    UTF-8. *)
Class JsonTextLaws `{JsonText} := {
  json_text_roundtrip : forall v, json_parse (json_pretty v ++ [x0a]) = Ok v;
  json_text_utf8 : forall v, utf8_ok (json_pretty v ++ [x0a]) = true
}.

(** ** Validation and the dotted keys *)

(** [invalid]. *)
Definition invalid (key why : string) : ConfigError := CfgInvalid (key +:+ ": " +:+ why).
Definition blank (s : string) : bool := bool_decide (trim s = "").
Definition http_url (s : string) : bool :=
  String.prefix "http://" s || String.prefix "https://" s.
Definition log_level_error : ConfigError :=
  invalid "logLevel" ("expected one of: " +:+ String.concat ", " LOG_LEVELS).

Section Config.
Context `{Net}.
Implicit Types (c : ReactorConfig) (value : Value).

(** The loop of [validate] over the drives. *)
Fixpoint validate_drives (l : list DriveConfig) : result ConfigError unit :=
  match l with
  | [] => Ok tt
  | d :: l =>
      if blank (dr_name d) then Err (invalid "drives[].name" "must be non-empty") else
      match addr_parse (dr_addr d) with
      | Err e => Err (invalid ("drives[" +:+ dr_name d +:+ "].addr") ("not a valid multiaddr: " +:+ e))
      | Ok _ => validate_drives l
      end
  end.

(** [ReactorConfig::validate]. *)
Definition validate c : result ConfigError unit :=
  if blank (in_name (c_instance c)) then Err (invalid "instance.name" "must be a non-empty string") else
  match addr_parse (in_listen (c_instance c)) with
  | Err e => Err (invalid "instance.listen" ("not a valid multiaddr: " +:+ e))
  | Ok _ =>
      _ ← validate_drives (c_drives c);
      if negb (contains LOG_LEVELS (c_log_level c)) then Err log_level_error else
      if blank (llm_base_url (c_llm c)) || negb (http_url (llm_base_url (c_llm c)))
      then Err (invalid "llm.baseUrl" "must be an http(s) base URL") else
      if blank (llm_model (c_llm c)) then Err (invalid "llm.model" "must be a non-empty string") else
      Ok tt
  end.

(** [set_string], [set_port], [bool_value]: the value to assign. *)
Definition set_string (key : string) value (valid : string -> bool) : result ConfigError string :=
  match value with
  | Str s => if valid s then Ok s else Err (invalid key "invalid value")
  | _ => Err (invalid key "expected a string")
  end.
Definition set_port (key : string) value : result ConfigError N :=
  match as_u64 value with
  | Some n => if (1 <=? n)%N && (n <=? 65535)%N then Ok n
              else Err (invalid key "port must be 1..=65535")
  | None => Err (invalid key "expected a number")
  end.
Definition bool_value (key : string) value : result ConfigError bool :=
  match value with Bool b => Ok b | _ => Err (invalid key "expected a boolean") end.
Definition string_or_null (key : string) value : result ConfigError (option string) :=
  match value with
  | Null => Ok None
  | Str s => Ok (Some s)
  | _ => Err (invalid key "expected a string or null")
  end.
Definition set_log_level value : result ConfigError string :=
  match value with
  | Str s => if contains LOG_LEVELS s then Ok s else Err log_level_error
  | _ => Err (invalid "logLevel" "expected a string")
  end.

(** The arms of [set]: the configuration with the key assigned. *)
Definition set_key c (key : string) value : result ConfigError ReactorConfig :=
  let i := c_instance c in let p := c_p2p c in let t := c_settings c in
  let l := c_llm c in let u := c_update c in
  if decide (key = "instance.name") then
    s ← set_string key value (fun s => negb (blank s));
    Ok (with_instance c {| in_name := s; in_listen := in_listen i; in_listen_ws := in_listen_ws i;
                           in_external := in_external i |})
  else if decide (key = "instance.listen") then
    s ← set_string key value (fun s => is_ok (addr_parse s));
    Ok (with_instance c {| in_name := in_name i; in_listen := s; in_listen_ws := in_listen_ws i;
                           in_external := in_external i |})
  else if decide (key = "p2p.mdns") then
    b ← bool_value key value;
    Ok (with_p2p c {| pp_mdns := b; pp_token_env := pp_token_env p; pp_dht := pp_dht p;
                      pp_relay := pp_relay p; pp_bootstraps := pp_bootstraps p |})
  else if decide (key = "p2p.tokenEnv") then
    o ← string_or_null key value;
    Ok (with_p2p c {| pp_mdns := pp_mdns p; pp_token_env := o; pp_dht := pp_dht p;
                      pp_relay := pp_relay p; pp_bootstraps := pp_bootstraps p |})
  else if decide (key = "settings.host") then
    s ← set_string key value (fun s => negb (bool_decide (s = "")));
    Ok (with_settings c {| st_host := s; st_port := st_port t |})
  else if decide (key = "settings.port") then
    n ← set_port key value;
    Ok (with_settings c {| st_host := st_host t; st_port := n |})
  else if decide (key = "update.check") then
    b ← bool_value key value; Ok (with_update c {| up_check := b; up_auto := up_auto u |})
  else if decide (key = "update.auto") then
    b ← bool_value key value; Ok (with_update c {| up_check := up_check u; up_auto := b |})
  else if decide (key = "logLevel") then
    s ← set_log_level value; Ok (with_log_level c s)
  else if decide (key = "llm.baseUrl") then
    s ← set_string key value http_url;
    Ok (with_llm c {| llm_base_url := s; llm_api_key_env := llm_api_key_env l; llm_model := llm_model l |})
  else if decide (key = "llm.apiKeyEnv") then
    o ← string_or_null key value;
    Ok (with_llm c {| llm_base_url := llm_base_url l; llm_api_key_env := default "" o;
                      llm_model := llm_model l |})
  else if decide (key = "llm.model") then
    s ← set_string key value (fun s => negb (blank s));
    Ok (with_llm c {| llm_base_url := llm_base_url l; llm_api_key_env := llm_api_key_env l;
                      llm_model := s |})
  else Err (invalid key "unknown key (allowed: instance.name, instance.listen, p2p.mdns, p2p.tokenEnv, llm.baseUrl, llm.apiKeyEnv, llm.model, settings.host, settings.port, update.check, update.auto, logLevel)").

(** [set]: the configuration is assigned before it is validated as a whole. *)
Definition set c (key : string) value : ReactorConfig * result ConfigError unit :=
  match set_key c key value with
  | Ok c' => (c', validate c')
  | Err e => (c, Err e)
  end.

(** [process_fingerprint]: the hasher is a parameter, of the fields it is fed. *)
Definition process_fields c :=
  (in_listen (c_instance c), in_name (c_instance c), pp_mdns (c_p2p c), pp_token_env (c_p2p c),
   st_host (c_settings c), st_port (c_settings c), c_log_level c).
Definition process_fingerprint (sip : string * string * bool * option string * string * N * string -> N)
    c : N := sip (process_fields c).

(** ** The file *)

Context `{JsonText}.

(** [render]. *)
Definition render c : list byte := json_pretty (config_json c) ++ [x0a].

(** [atomic_write]: a temporary file with a fixed name beside the target. *)
Definition tmp_of (path : Path) : Path :=
  join (default [] (parent path)) ("." +:+ default "f" (file_name path) +:+ ".tmp").
Definition atomic_write (path : Path) (content : list byte) : fsM unit :=
  match parent path with
  | None => fs_fail "no parent"
  | Some _ =>
      _ ← fs_write (tmp_of path) content;
      _ ← fs_ignore fs_set_permissions;
      fs_rename (tmp_of path) path
  end.

(** [save]. *)
Definition save (sp : StatePaths) c : fsE ConfigError unit :=
  _ ← fs_map_err CfgIo (atomic_write (config_file sp) (render c));
  fs_ignore fs_set_permissions.

(** [quarantine]; [ts] is the clock. *)
Definition corrupt_path (file : Path) (ts : N) : Path :=
  with_file_name file (default "config" (file_name file) +:+ ".corrupt-" +:+ pretty ts).
Definition quarantine (file : Path) (ts : N) : fsE ConfigError unit :=
  fs_ignore (fs_rename file (corrupt_path file ts)).

(** The two branches of [load_quiet] that write defaults. *)
Definition write_defaults (file : Path) : fsE ConfigError (ReactorConfig * bool) :=
  _ ← fs_map_err CfgIo (fs_write file (render default_config));
  _ ← fs_ignore fs_set_permissions;
  mret (default_config, true).

(** [ErrorKind::NotFound]. *)
Definition is_not_found (e : string) : bool := bool_decide (e = "No such file or directory").

(** [load_quiet], [load]. *)
Definition load_quiet (sp : StatePaths) (ts : N) : fsE ConfigError (ReactorConfig * bool) :=
  raw ← fs_try (fs_read_to_string (config_file sp));
  match raw with
  | Ok raw =>
      match json_parse raw ≫= config_of_json with
      | Ok c => match validate c with Ok _ => mret (c, false) | Err e => fs_fail e end
      | Err _ => _ ← quarantine (config_file sp) ts; write_defaults (config_file sp)
      end
  | Err e => if is_not_found e then write_defaults (config_file sp) else fs_fail (CfgIo e)
  end.
Definition load (sp : StatePaths) (ts : N) : fsE ConfigError ReactorConfig :=
  x ← load_quiet sp ts; mret x.1.
End Config.
