(* ===== verification/ConfigProps.v ===== *)
(** What the configuration guarantees: it survives its file with every
    top-level field kept, a key is set all or nothing, and no failing call
    leaves the file half written or lets an invalid document through. *)

From stdpp Require Import base gmap strings numbers pretty list.
From Stdlib Require Import Strings.Byte Strings.Ascii.
From S2P Require Import Prelude Json Sample Text Fs Engine Sync Update Config.

(** ** Decoding what was encoded *)

Lemma de_field_at {A} m i k (de : Value -> result string A) d x a :
  obj_lookup m k = Some x -> de x = Ok a -> de_field (Object m) i k de d = Ok a.
Proof. intros E <-. unfold de_field. by rewrite E. Qed.

Lemma de_field_missing {A} m i k (de : Value -> result string A) d :
  obj_lookup m k = None -> de_field (Object m) i k de d = Ok d.
Proof. intros E. unfold de_field. by rewrite E. Qed.

Lemma de_vec_map {A} (de : Value -> result string A) (en : A -> Value) l :
  (forall x, x ∈ l -> de (en x) = Ok x) -> de_vec de (Array (en <$> l)) = Ok l.
Proof.
  intros He. cbn [de_vec]. induction l as [|x l IH]; [done|]. cbn [fmap list_fmap mapM].
  rewrite He by left. cbn. specialize (IH (fun y Hy => He y (list_elem_of_further _ _ _ Hy))).
  cbn in IH. by rewrite IH.
Qed.
Lemma de_vec_strs l : de_vec de_string (json_strs l) = Ok l.
Proof. by apply de_vec_map. Qed.
Lemma de_opt_json o : de_option de_string (opt_json o) = Ok o.
Proof. by destruct o. Qed.
Lemma de_uint_json max n : (n <= max)%N -> de_uint max (Number (Z.of_N n)) = Ok n.
Proof.
  intros Hn. cbn [de_uint]. rewrite (proj2 (Z.leb_le _ _)), (proj2 (Z.leb_le _ _)) by lia.
  simpl. by rewrite N2Z.id.
Qed.
Create HintDb serde.
#[export] Hint Resolve de_vec_strs de_opt_json de_uint_json : serde.

(** A structure read field by field. *)
Ltac de_fields :=
  repeat (first [ rewrite de_field_missing by reflexivity
                | erewrite de_field_at; [|reflexivity|solve [eauto with serde | reflexivity]] ];
          cbn [mbind result_bind de_struct]).

Lemma de_instance_json x : de_instance (instance_json x) = Ok x.
Proof.
  destruct x as [n l [w|] [|e es]]; unfold de_instance, instance_json, json_obj;
    cbn [mbind result_bind de_struct]; de_fields; reflexivity.
Qed.
Lemma de_p2p_json x : de_p2p (p2p_json x) = Ok x.
Proof. destruct x. unfold de_p2p, p2p_json, json_obj. cbn [mbind result_bind de_struct]. by de_fields. Qed.
Lemma de_drive_json x : de_drive (drive_json x) = Ok x.
Proof. destruct x. unfold de_drive, drive_json, json_obj. cbn [mbind result_bind de_struct]. by de_fields. Qed.
Lemma de_settings_json x : (st_port x <= 65535)%N -> de_settings (settings_json x) = Ok x.
Proof.
  destruct x as [h p]. cbn [st_port]. intros Hp. unfold de_settings, settings_json, json_obj.
  cbn [mbind result_bind de_struct]. by de_fields.
Qed.
Lemma de_llm_json x : de_llm (llm_json x) = Ok x.
Proof. destruct x. unfold de_llm, llm_json, json_obj. cbn [mbind result_bind de_struct]. by de_fields. Qed.
Lemma de_update_json x : de_update (update_json x) = Ok x.
Proof. destruct x. unfold de_update, update_json, json_obj. cbn [mbind result_bind de_struct]. by de_fields. Qed.
Lemma de_drives_json l : de_vec de_drive (Array (drive_json <$> l)) = Ok l.
Proof. apply de_vec_map. intros. apply de_drive_json. Qed.
#[export] Hint Resolve de_instance_json de_p2p_json de_drive_json de_settings_json de_llm_json
  de_update_json de_drives_json : serde.

(** Keys of an association list. *)
Lemma list_to_map_obj m k : (list_to_map m : gmap string Value) !! k = obj_lookup m k.
Proof.
  induction m as [|[j v] m IH]; simpl; [apply lookup_empty|].
  case_decide; [subst; apply lookup_insert_eq|]. by rewrite lookup_insert_ne.
Qed.
Lemma obj_lookup_filter (P : string -> Prop) `{!forall k, Decision (P k)} m k :
  obj_lookup (filter (fun kv => P kv.1) m) k = if decide (P k) then obj_lookup m k else None.
Proof.
  induction m as [|[j v] m IH]; [by case_decide|]. rewrite filter_cons. cbn [fst].
  destruct (decide (P j)) as [Hj|Hj]; cbn [obj_lookup]; destruct (decide (k = j)) as [E|E];
    rewrite ?IH; [subst k; by rewrite decide_True|done| |done].
  subst k. by rewrite !decide_False.
Qed.
Lemma obj_lookup_unknown m k :
  obj_lookup (filter (fun kv => kv.1 ∉ KNOWN) m) k = if decide (k ∉ KNOWN) then obj_lookup m k else None.
Proof. exact (obj_lookup_filter (fun k => k ∉ KNOWN) m k). Qed.
Lemma obj_lookup_btree (m : gmap string Value) k : obj_lookup (btree_iter m) k = m !! k.
Proof.
  rewrite <- list_to_map_obj. apply option_eq. intros v.
  rewrite <- elem_of_list_to_map, elem_of_btree_iter; [done|].
  unfold btree_iter. rewrite sort_by_key_perm. apply NoDup_fst_map_to_list.
Qed.
Lemma obj_lookup_inserts l m k :
  obj_lookup (foldl (fun m kv => obj_insert kv.1 kv.2 m) m l) k =
  match obj_lookup (reverse l) k with Some v => Some v | None => obj_lookup m k end.
Proof.
  revert m. induction l as [|[j v] l IH] using rev_ind; intros m; [done|].
  rewrite foldl_snoc, reverse_snoc. cbn [obj_lookup fst snd].
  destruct (decide (k = j)) as [->|]; [apply obj_lookup_insert_eq|].
  rewrite obj_lookup_insert_ne by done. apply IH.
Qed.

(** Well-typed: the machine integers in range, and no kept key a declared one. *)
Record config_wf (c : ReactorConfig) : Prop := {
  wf_version : (c_version c <= 4294967295)%N;
  wf_port : (st_port (c_settings c) <= 65535)%N;
  wf_extra : forall k, k ∈ KNOWN -> c_extra c !! k = None
}.

Lemma config_lookup c k :
  vget (config_json c) k =
  match obj_lookup (reverse (declared c)) k with Some v => Some v | None => c_extra c !! k end.
Proof. cbn [vget config_json]. by rewrite obj_lookup_inserts, obj_lookup_btree. Qed.

Lemma declared_other c k : k ∉ KNOWN -> obj_lookup (reverse (declared c)) k = None.
Proof.
  intros Hk. destruct (obj_lookup (reverse (declared c)) k) eqn:E; [exfalso|done]. apply Hk.
  apply obj_lookup_key in E. by rewrite fmap_reverse, elem_of_reverse in E.
Qed.

Lemma config_roundtrip_json c : config_wf c -> config_of_json (config_json c) = Ok c.
Proof.
  intros [Hv Hp He]. unfold config_of_json, config_json.
  set (m := foldl _ _ _).
  assert (Hk : forall k, obj_lookup m k = vget (config_json c) k) by done.
  assert (Hd : forall k x, obj_lookup (reverse (declared c)) k = Some x -> obj_lookup m k = Some x).
  { intros k x E. by rewrite Hk, config_lookup, E. }
  repeat (erewrite de_field_at; [|apply Hd; reflexivity|solve [eauto with serde | reflexivity]];
          cbn [mbind result_bind]).
  transitivity (Ok (E := string) {| c_version := c_version c; c_instance := c_instance c; c_p2p := c_p2p c;
    c_drives := c_drives c; c_settings := c_settings c; c_llm := c_llm c; c_update := c_update c;
    c_log_level := c_log_level c; c_extra := c_extra c |}); [|by destruct c].
  assert (Hx : list_to_map (filter (fun kv => kv.1 ∉ KNOWN) m) = c_extra c);
    [|rewrite Hx; by destruct c as [? [] [] ? [] [] [] ? ?]].
  apply map_eq. intros k.
  rewrite list_to_map_obj, obj_lookup_unknown. case_decide as Hn.
  - by rewrite Hk, config_lookup, declared_other.
  - symmetry. by apply He.
Qed.

(** What decodes is well-typed, and keeps every key it does not declare. *)
Lemma config_of_json_wf v c : config_of_json v = Ok c ->
  config_wf c /\ forall k, k ∉ KNOWN -> vget (config_json c) k = vget v k.
Proof.
  assert (Hu : forall max v n, de_uint max v = Ok n -> (n <= max)%N).
  { intros max w n. destruct w as [| |z| | |]; try done. cbn [de_uint]. destruct (_ && _) eqn:E; [|done].
    apply andb_prop in E as [E1%Z.leb_le E2%Z.leb_le]. intros [= <-]. lia. }
  assert (Hf : forall v i k max d n, (d <= max)%N -> de_field v i k (de_uint max) d = Ok n -> (n <= max)%N).
  { intros w i k max d n Hd. unfold de_field. repeat case_match; try (intros [= <-]; done); apply Hu. }
  destruct v as [| | | | |m]; try done. unfold config_of_json. intros E.
  repeat match type of E with (_ ← ?r; _) = _ => destruct r eqn:?; [|done]; cbn [mbind result_bind] in E end.
  injection E as <-. split; [split|]; cbn [c_version c_settings c_extra].
  - eapply Hf; [|done]. done.
  - match goal with H : de_field _ _ "settings" _ _ = _ |- _ => revert H end. unfold de_field.
    case_match; [|by intros [= <-]]. unfold de_settings. intros E. clear - E Hf.
    repeat match type of E with (_ ← ?r; _) = _ => destruct r eqn:?; [|done]; cbn [mbind result_bind] in E end.
    injection E as <-. cbn [st_port]. eapply Hf; [|done]. done.
  - intros k Hk. by rewrite list_to_map_obj, obj_lookup_unknown, decide_False by tauto.
  - intros k Hk. rewrite config_lookup, declared_other by done. cbn [c_extra vget].
    by rewrite list_to_map_obj, obj_lookup_unknown, decide_True.
Qed.

(** ** Setting a key *)

(** The value at a dotted key of the written document. *)
Definition dotted (v : Value) (key : string) : option Value :=
  foldl (fun o k => o ≫= fun v => vget v k) (Some v) (split_char "."%char key).

(** The keys [set] takes. *)
Definition SETTABLE : list string :=
  ["instance.name"; "instance.listen"; "p2p.mdns"; "p2p.tokenEnv"; "settings.host"; "settings.port";
   "update.check"; "update.auto"; "logLevel"; "llm.baseUrl"; "llm.apiKeyEnv"; "llm.model"].

(** What is stored for a value: a null key variable is the empty text. *)
Definition stored (key : string) (value : Value) : Value :=
  if decide (key = "llm.apiKeyEnv" /\ value = Null) then Str "" else value.

(** The dotted keys read the declared fields. *)
Definition dotted_declared (c : ReactorConfig) (key : string) : option Value :=
  match split_char "."%char key with
  | [k] => obj_lookup (reverse (declared c)) k
  | [k; j] => v ← obj_lookup (reverse (declared c)) k; vget v j
  | _ => None
  end.

Ltac split_keys :=
  repeat match goal with
  | |- context [split_char ?c ?k] =>
      let l := eval vm_compute in (split_char c k) in change (split_char c k) with l
  end.

Lemma dotted_settable c key : key ∈ SETTABLE -> dotted (config_json c) key = dotted_declared c key.
Proof.
  intros Hk. unfold SETTABLE in Hk.
  repeat (apply elem_of_cons in Hk as [->|Hk];
    [unfold dotted, dotted_declared; split_keys; cbn [foldl mbind option_bind];
     rewrite config_lookup; reflexivity|]).
  by apply elem_of_nil in Hk.
Qed.

Section SetLemmas.
Context `{Net}.
Implicit Types (c : ReactorConfig) (value : Value).

Lemma validate_ok c : validate c = Ok tt <->
  blank (in_name (c_instance c)) = false /\ is_ok (addr_parse (in_listen (c_instance c))) = true /\
  validate_drives (c_drives c) = Ok tt /\ contains LOG_LEVELS (c_log_level c) = true /\
  blank (llm_base_url (c_llm c)) = false /\ http_url (llm_base_url (c_llm c)) = true /\
  blank (llm_model (c_llm c)) = false.
Proof.
  unfold validate. split.
  - destruct (blank (in_name _)); [done|]. destruct (addr_parse _); [|done].
    destruct (validate_drives _) as [[]|]; [|done]. cbn [mbind result_bind].
    destruct (contains _ _); [|done]. destruct (blank (llm_base_url _)); [done|].
    destruct (http_url _); [|done]. destruct (blank (llm_model _)); [done|]. done.
  - intros (-> & Ha & -> & -> & -> & -> & ->). by destruct (addr_parse _).
Qed.

Lemma http_not_blank s : http_url s = true -> blank s = false.
Proof.
  intros Hs. unfold blank. apply bool_decide_eq_false. intros E.
  destruct s as [|c s]; [done|]. unfold http_url in Hs. cbn [String.prefix] in Hs.
  destruct (ascii_dec "h" c) as [<-|]; [|done]. clear Hs. unfold trim in E.
  change (trim_start (String "h" s)) with (String "h" s) in E. cbn [trim_end] in E.
  change (is_space "h") with false in E. by destruct (trim_end s).
Qed.

Lemma declared_instance c :
  obj_lookup (reverse (declared c)) "instance" = Some (instance_json (c_instance c)).
Proof. reflexivity. Qed.
Lemma instance_name x : vget (instance_json x) "name" = Some (Str (in_name x)).
Proof. by destruct x as [? ? [] []]. Qed.
Lemma instance_listen x : vget (instance_json x) "listen" = Some (Str (in_listen x)).
Proof. by destruct x as [? ? [] []]. Qed.
Ltac dotted_eq :=
  unfold dotted_declared; split_keys; cbv beta iota;
  first [reflexivity
        |rewrite !declared_instance; cbn [mbind option_bind];
         rewrite ?instance_name, ?instance_listen; reflexivity].

(** One arm: the side conditions compute, once the assigned value is known. *)
Ltac set_arm :=
  split; [by apply contains_true|]; split; [cbn; split_and!; eauto using http_not_blank|];
  split; [by split|]; split; [done|]; split; [done|]; split; [dotted_eq|];
  intros k Hk Hne; unfold SETTABLE in Hk;
  repeat (apply elem_of_cons in Hk as [->|Hk]; [first [done | dotted_eq]|]);
  by apply elem_of_nil in Hk.

Lemma set_string_ok key value P s :
  set_string key value P = Ok s -> value = Str s /\ P s = true.
Proof. destruct value; try done. cbn. destruct (P s0) eqn:E; [|done]. by intros [= <-]. Qed.
Lemma bool_value_ok key value b : bool_value key value = Ok b -> value = Bool b.
Proof. destruct value; try done. by intros [= <-]. Qed.
Lemma string_or_null_ok key value o : string_or_null key value = Ok o -> value = opt_json o.
Proof. by destruct value; try done; intros [= <-]. Qed.
Lemma set_log_level_ok value s :
  set_log_level value = Ok s -> value = Str s /\ contains LOG_LEVELS s = true.
Proof.
  destruct value; try done. cbn [set_log_level]. destruct (contains LOG_LEVELS s0) eqn:E; [|done].
  by intros [= <-].
Qed.
Lemma set_port_ok key value n :
  set_port key value = Ok n -> value = Number (Z.of_N n) /\ (n <= 65535)%N.
Proof.
  destruct value as [| |z| | |]; try done. unfold set_port. cbn [as_u64].
  destruct (0 <=? z)%Z eqn:Ez; [|done]. destruct (_ && _) eqn:E; [|done]. intros [= <-].
  apply andb_prop in E as [_ E%N.leb_le]. apply Z.leb_le in Ez. by rewrite Z2N.id.
Qed.

(** Each arm of [set] keeps a valid configuration valid, and stores the value. *)
Lemma set_key_ok c key value c' :
  validate c = Ok tt -> config_wf c -> set_key c key value = Ok c' ->
  key ∈ SETTABLE /\ validate c' = Ok tt /\ config_wf c' /\ c_drives c' = c_drives c /\
  c_extra c' = c_extra c /\ dotted_declared c' key = Some (stored key value) /\
  forall k, k ∈ SETTABLE -> k <> key -> dotted_declared c' k = dotted_declared c k.
Proof.
  intros Hv [W1 W2 W3] E. unfold set_key in E. rewrite validate_ok in Hv. rewrite validate_ok.
  destruct Hv as (V1 & V2 & V3 & V4 & V5 & V6 & V7).
  repeat (case_decide; [subst key|]); try done.
  all: match type of E with (?r ≫= _) = _ => destruct r as [x|] eqn:Ex; [|done] end; injection E as <-.
  all: first [apply set_string_ok in Ex as [-> Hx]; rewrite ?negb_true_iff in Hx
             |apply bool_value_ok in Ex as -> |apply string_or_null_ok in Ex as ->
             |apply set_log_level_ok in Ex as [-> Hx] |apply set_port_ok in Ex as [-> Hx]].
  11: destruct x.
  all: set_arm.
Qed.
End SetLemmas.

(** ** The file *)

Lemma tmp_differs r : tmp_of (join r "config.json") <> join r "config.json".
Proof.
  unfold tmp_of, join, parent, file_name. rewrite last_snoc, removelast_last.
  replace (match r ++ ["config.json"] with [] => None | _ => Some r end) with (Some r)
    by (by destruct r). cbn [default from_option id]. intros [_ E]%app_inj_tail. discriminate E.
Qed.

Section FileLemmas.
Context `{Net} `{JsonText}.
Implicit Types (c : ReactorConfig) (sp : StatePaths) (s : Fs).

(** Replacing a file through the temporary one: all or nothing. *)
Lemma atomic_write_atomic path b s :
  tmp_of path <> path ->
  fs_files (atomic_write path b s).1 !! path =
  if is_ok (atomic_write path b s).2 then Some b else fs_files s !! path.
Proof.
  intros Hne. unfold atomic_write. destruct (parent path); [|done]. rewrite fs_run_bind.
  pose proof (leaves_write (tmp_of path) b path (not_eq_sym Hne) s) as Hl.
  pose proof (fs_write_ok (tmp_of path) b s) as Hw.
  destruct (fs_write _ b s) as [s1 [[]|e]]; cbn [fst snd is_ok] in *; [|done]. specialize (Hw eq_refl).
  rewrite fs_run_bind. unfold fs_ignore. cbn [fst snd].
  pose proof (leaves_meta "chmod failed" path s1) as L1. fold fs_set_permissions in L1.
  pose proof (leaves_meta "chmod failed" (tmp_of path) s1) as L2. fold fs_set_permissions in L2.
  destruct (fs_set_permissions s1) as [s2 r2]. cbn [fst snd] in *.
  destruct (fs_rename_cases (tmp_of path) path s2) as [(x & -> & Hx & ->)|[-> ->]]; cbn [is_ok]; [|congruence].
  rewrite lookup_insert_eq. rewrite L2, Hw, lookup_insert_eq in Hx. congruence.
Qed.

Lemma atomic_write_calm path b m :
  parent path <> None ->
  atomic_write path b (disk m) = (disk (<[path := b]> (delete (tmp_of path) (<[tmp_of path := b]> m))), Ok tt).
Proof.
  intros Hp. unfold atomic_write. destruct (parent path) eqn:E; [|done].
  rewrite fs_run_bind. cbn. rewrite fs_run_bind. cbn. unfold fs_rename. cbn. by rewrite lookup_insert_eq.
Qed.
End FileLemmas.

Section FileTheorems.
Context `{Net} `{JsonTextLaws}.
Implicit Types (c : ReactorConfig) (s : Fs).

(** Reading the file of a calm file system. *)
Lemma load_quiet_text r ts m raw c :
  m !! join r "config.json" = Some raw -> utf8_ok raw = true ->
  json_parse raw ≫= config_of_json = Ok c -> validate c = Ok tt ->
  load_quiet (for_root r) ts (disk m) = (disk m, Ok (c, false)).
Proof.
  intros Hm Hu Hj Hv. unfold load_quiet. rewrite fs_run_bind. unfold fs_try, fs_read_to_string.
  rewrite fs_run_bind. unfold fs_read. cbn. rewrite Hm. cbn [fst snd]. rewrite Hu. cbn [mret fsE_ret snd fst].
  by rewrite Hj, Hv.
Qed.

(** C31. The configuration survives the file.  Whatever document the file
    holds, the configuration read from it is well-typed and writes back every
    top-level key it does not declare; and a valid, well-typed configuration
    that is saved is the one the next load returns, whole. *)
Theorem config_survives r ts m c :
  config_wf c -> validate c = Ok tt ->
  (forall v c', config_of_json v = Ok c' ->
     config_wf c' /\ forall k, k ∉ KNOWN -> vget (config_json c') k = vget v k) /\
  exists m', save (for_root r) c (disk m) = (disk m', Ok tt) /\
    load_quiet (for_root r) ts (disk m') = (disk m', Ok (c, false)) /\
    forall p, p <> join r "config.json" -> p <> tmp_of (join r "config.json") -> m' !! p = m !! p.
Proof.
  intros Hw Hv. split; [apply config_of_json_wf|].
  set (p := join r "config.json"). exists (<[p := render c]> (delete (tmp_of p) (<[tmp_of p := render c]> m))).
  split_and!.
  - unfold save. rewrite fs_run_bind. unfold fs_map_err. cbn [for_root config_file]. fold p.
    rewrite atomic_write_calm; [done|]. unfold p, join. by destruct r.
  - eapply load_quiet_text; [apply lookup_insert_eq|apply json_text_utf8| |done].
    unfold render. rewrite json_text_roundtrip. by apply config_roundtrip_json.
  - intros q Q1 Q2. by rewrite lookup_insert_ne, lookup_delete_ne, lookup_insert_ne.
Qed.


(** Whatever calls the operating system refuses or cuts short, the
    configuration file is never left half written by a save, and what a load
    returns is valid: either the document the file held, unchanged on disk, or
    the defaults, flagged as such. *)
Theorem config_file_safe r ts c s :
  is_ok (addr_parse DEFAULT_LISTEN) = true ->
  fs_files (save (for_root r) c s).1 !! join r "config.json" =
    (if is_ok (save (for_root r) c s).2 then Some (render c) else fs_files s !! join r "config.json") /\
  match (load_quiet (for_root r) ts s).2 with
  | Ok (c', fresh) =>
      validate c' = Ok tt /\
      if fresh then c' = default_config
      else exists raw, fs_files s !! join r "config.json" = Some raw /\
             json_parse raw ≫= config_of_json = Ok c' /\
             fs_files (load_quiet (for_root r) ts s).1 = fs_files s
  | Err _ => True
  end.
Proof.
  intros Hd. split.
  - unfold save. rewrite fs_run_bind. unfold fs_map_err. cbn [for_root config_file].
    pose proof (atomic_write_atomic _ (render c) s (tmp_differs r)) as Ha.
    destruct (atomic_write _ _ s) as [s1 [[]|e]]; cbn [fst snd is_ok] in *; [|done].
    rewrite <- Ha. apply (leaves_ignore (F := ConfigError)), leaves_meta.
  - assert (Vd : validate default_config = Ok tt) by (apply validate_ok; by split_and!).
    assert (Hw : forall t, match (write_defaults (join r "config.json") t).2 with
                           | Ok (c', fresh) => validate c' = Ok tt /\ fresh = true /\ c' = default_config
                           | Err _ => True end).
    { intros t. unfold write_defaults. rewrite fs_run_bind.
      destruct (fs_map_err _ _ t) as [t1 [[]|]]; cbn [fst snd]; [|done]. rewrite fs_run_bind. done. }
    unfold load_quiet. cbn [for_root config_file]. rewrite fs_run_bind. unfold fs_try. cbn [fst snd].
    unfold fs_read_to_string. rewrite fs_run_bind.
    pose proof (fs_read_ok (join r "config.json") s) as Hr.
    assert (Hl : fs_files (fs_read (join r "config.json") s).1 = fs_files s).
    { apply map_eq. intros q. apply leaves_read. }
    destruct (fs_read _ s) as [s1 [raw|e]]; cbn [fst snd] in *.
    + specialize (Hr raw eq_refl). destruct (utf8_ok raw); cbn [mret fsE_ret fst snd fs_fail].
      * destruct (json_parse raw ≫= config_of_json) as [c'|e] eqn:Ej.
        -- destruct (validate c') as [[]|] eqn:Ev; cbn [mret fsE_ret fst snd fs_fail]; [|done].
           split; [done|]. exists raw. by split_and!.
        -- rewrite fs_run_bind. unfold quarantine, fs_ignore. cbn [fst snd].
           specialize (Hw (fs_rename (join r "config.json") (corrupt_path (join r "config.json") ts) s1).1).
           destruct (write_defaults _ _) as [t [[c' fresh]|]]; cbn [fst snd] in *; [|done].
           by destruct Hw as (? & -> & ->).
      * done.
    + destruct (is_not_found e); [|done]. specialize (Hw s1).
      destruct (write_defaults _ s1) as [t [[c' fresh]|]]; cbn [fst snd] in *; [|done].
      by destruct Hw as (? & -> & ->).
Qed.
End FileTheorems.

(** ** What the file loses *)

(** A field of a nested structure that is not declared is dropped on the next
    save, although one at the top level is kept. *)
Lemma nested_unknown_lost :
  let v := Object [("instance", Object [("zone", Str "eu")])] in
  exists c, config_of_json v = Ok c /\ dotted v "instance.zone" = Some (Str "eu") /\
    dotted (config_json c) "instance.zone" = None.
Proof. eexists. split_and!; vm_compute; reflexivity. Qed.

(** A corrupt file is overwritten with the defaults when it can not be moved
    aside. *)
Lemma quarantine_can_lose `{Net, JsonText} r ts raw :
  utf8_ok raw = true -> is_ok (json_parse raw ≫= config_of_json) = false ->
  load_quiet (for_root r) ts {| fs_files := {[join r "config.json" := raw]}; fs_sched := [Done; Refused] |}
  = (disk {[join r "config.json" := render default_config]}, Ok (default_config, true)).
Proof.
  intros Hu Hj. unfold load_quiet. rewrite fs_run_bind. unfold fs_try, fs_read_to_string.
  rewrite fs_run_bind. unfold fs_read. cbn. rewrite lookup_singleton_eq. cbn. rewrite Hu. cbn.
  destruct (json_parse raw ≫= config_of_json); [done|]. cbn.
  rewrite fs_run_bind. unfold quarantine, fs_ignore, fs_rename. cbn. unfold write_defaults.
  rewrite fs_run_bind. cbn. by rewrite insert_singleton_eq.
Qed.

(** ** A concrete text of values *)

Module ConfigSample.
Lemma pos_bytes_utf8 p : utf8_ok (pos_bytes p ++ [x0a]) = true.
Proof. unfold utf8_ok. by induction p as [p IH|p IH|]. Qed.

#[export] Instance sample_text : JsonText := {|
  json_pretty := fun v => pos_bytes (encode v);
  json_parse := fun b => match decode (bytes_pos b) with Some v => Ok v | None => Err "syntax" end
|}.
#[export] Instance sample_text_laws : JsonTextLaws.
Proof.
  split; intros v; cbn; [|apply pos_bytes_utf8]. by rewrite bytes_pos_line, decode_encode.
Qed.

Definition state : Path := ["state"].
Lemma default_valid `{Net} : is_ok (addr_parse DEFAULT_LISTEN) = true -> validate default_config = Ok tt.
Proof. intros E. apply validate_ok. by split_and!. Qed.
Lemma default_wf : config_wf default_config.
Proof. split; [done|done|]. intros. apply lookup_empty. Qed.
End ConfigSample.
Import ConfigSample.
Import SyncExample.

Lemma config_survives_witness :
  exists m', save (for_root state) default_config (disk ∅) = (disk m', Ok tt) /\
    load_quiet (for_root state) 0 (disk m') = (disk m', Ok (default_config, false)).
Proof.
  destruct (config_survives state 0 ∅ default_config) as [_ (m' & E1 & E2 & _)].
  - exact default_wf.
  - vm_compute. reflexivity.
  - exists m'. split; [exact E1|exact E2].
Defined.


Lemma config_file_safe_witness :
  fs_files (save (for_root state) default_config {| fs_files := ∅; fs_sched := [Stopped 3] |}).1
    !! join state "config.json" = None.
Proof.
  destruct (config_file_safe state 0 default_config {| fs_files := ∅; fs_sched := [Stopped 3] |}) as [E _].
  - reflexivity.
  - rewrite E. reflexivity.
Defined.
