(* ===== verification/Logs.v ===== *)
(** Log rotation (src/logrotate.rs): a log file and its numbered generations.
    Reading a file's length is a call that can fail, like the others. *)

From stdpp Require Import base gmap strings numbers pretty list.
From Stdlib Require Import Strings.Byte Strings.Ascii.
From S2P Require Import Prelude Fs.

Definition MAX_BYTES : N := 10 * 1024 * 1024.
Definition KEEP_GENERATIONS : nat := 3.

(** [path.metadata().map(|m| m.len())]. *)
Definition fs_len (p : Path) : fsM N := fun s =>
  match next_outcome s with
  | (Done, s) =>
      match fs_files s !! p with
      | Some b => (s, Ok (N.of_nat (length b)))
      | None => (s, Err "No such file or directory")
      end
  | (_, s) => (s, Err "stat failed")
  end.

(** [u64::saturating_add]. *)
Definition saturating_add (a b : N) : N := N.min (a + b) (2 ^ 64 - 1).

(** [gen]: generation [n] of a log. *)
Definition gen (path : Path) (n : nat) : Path :=
  with_file_name path (default "" (file_name path) +:+ "." +:+ pretty n).

(** [if from.exists() { fs::rename(from, to)?; }]. *)
Definition shift (from to : Path) : fsM unit :=
  e ← fs_exists from;
  if (e : bool) then fs_rename from to else mret tt.

(** The loop over the generations, oldest first. *)
Fixpoint shift_gens (path : Path) (l : list nat) : fsM unit :=
  match l with
  | [] => mret tt
  | n :: l => _ ← shift (gen path n) (gen path (S n)); shift_gens path l
  end.

(** [rotate]. *)
Definition rotate (path : Path) : fsM unit :=
  e ← fs_exists (gen path KEEP_GENERATIONS);
  _ ← (if (e : bool) then fs_remove (gen path KEEP_GENERATIONS) else mret tt);
  _ ← shift_gens path (reverse (seq 1 (KEEP_GENERATIONS - 1)));
  shift path (gen path 1).

(** [append]. *)
Definition append (path : Path) (bytes : list byte) : fsM unit :=
  r ← fs_try (fs_len path);
  let current := match r with Ok n => n | Err _ => 0%N end in
  _ ← (if (MAX_BYTES <? saturating_add current (N.of_nat (length bytes)))%N
       then rotate path else mret tt);
  fs_append path bytes.

(** [append_line]. *)
Definition append_line (path : Path) (line : list byte) : fsM unit :=
  append path (if decide (last line = Some x0a) then line else line ++ [x0a]).

(** [LogAppend::write]: every write of the logging layer is an append. *)
Definition log_write (path : Path) (buf : list byte) : fsM N :=
  _ ← append path buf;
  mret (N.of_nat (length buf)).

(** [tail], on the bytes: [None] is the whole file. *)
Definition tail (path : Path) (max_bytes : option N) : fsM (list byte) :=
  b ← fs_read path;
  let len := N.of_nat (length b) in
  let take := N.min (default len max_bytes) len in
  mret (drop (N.to_nat (len - take)) b).

(** ** The generations of a log *)

Lemma append_suffix_ne (x y : string) : y <> EmptyString -> x +:+ y <> x.
Proof.
  intros Hy E. induction x as [|c x IH]; [done|]. cbn in E. injection E as E. by apply IH.
Qed.
Lemma gen_ne path i : gen path i <> path.
Proof.
  unfold gen, with_file_name, file_name. destruct path as [|x l _] using rev_ind; [done|].
  rewrite removelast_last, last_snoc. cbn [default from_option id].
  intros [_ E]%app_inj_tail. by apply append_suffix_ne in E.
Qed.
Lemma gen_inj path i j : gen path i = gen path j -> i = j.
Proof.
  unfold gen, with_file_name. intros [_ E]%app_inj_tail.
  apply (inj (String.append _)) in E. apply (inj (String.append _)) in E. by apply (inj pretty) in E.
Qed.
Lemma gens_ne path i j : i <> j -> gen path i <> gen path j.
Proof. by intros Hn E%gen_inj. Qed.

(** A shift onto a free path moves the file, if there is one. *)
Lemma shift_free f t m :
  f <> t -> m !! t = None ->
  exists m', shift f t (disk m) = (disk m', Ok tt) /\ m' !! t = m !! f /\ m' !! f = None /\
    forall q, q <> f -> q <> t -> m' !! q = m !! q.
Proof.
  intros Hne Ht. unfold shift. rewrite fs_run_bind. cbn. destruct (m !! f) as [b|] eqn:Ef.
  - rewrite bool_decide_eq_true_2 by done. unfold fs_rename. cbn. rewrite Ef.
    eexists. split; [reflexivity|]. split_and!.
    + apply lookup_insert_eq.
    + by rewrite lookup_insert_ne, lookup_delete_eq.
    + intros q Q1 Q2. by rewrite lookup_insert_ne, lookup_delete_ne.
  - rewrite bool_decide_eq_false_2 by (by intros []). exists m. by split_and!.
Qed.

Section Rotation.
Variable path : Path.
Implicit Types (m : gmap Path (list byte)) (b : list byte).
Local Abbreviation g := (gen path).

(** A rotation with nothing failing: every generation moves up by one, the
    oldest is dropped, and the log starts afresh. *)
Lemma rotate_moves m :
  exists m', rotate path (disk m) = (disk m', Ok tt) /\
    m' !! g 3 = m !! g 2 /\ m' !! g 2 = m !! g 1 /\ m' !! g 1 = m !! path /\ m' !! path = None.
Proof.
  pose proof (gen_ne path) as Np. pose proof (gens_ne path) as Ng.
  unfold rotate. rewrite fs_run_bind. cbn [fs_exists fst snd fs_files]. rewrite fs_run_bind.
  set (m1 := delete (g 3) m).
  assert (E1 : (if bool_decide (is_Some (m !! gen path KEEP_GENERATIONS))
                then fs_remove (gen path KEEP_GENERATIONS) else mret tt) (disk m) = (disk m1, Ok tt)).
  { change KEEP_GENERATIONS with 3. case_bool_decide as Hx.
    - unfold fs_remove. cbn. by destruct Hx as [x ->].
    - unfold m1. rewrite delete_id; [done|]. by apply eq_None_not_Some. }
  rewrite E1. cbn [fst snd]. change (reverse (seq 1 (KEEP_GENERATIONS - 1))) with [2; 1].
  cbn [shift_gens]. rewrite !fs_run_bind.
  destruct (shift_free (g 2) (g 3) m1) as (m2 & -> & A3 & A2 & Ao); [by apply Ng|apply lookup_delete_eq|].
  cbn [fst snd].
  destruct (shift_free (g 1) (g 2) m2) as (m3 & -> & B2 & B1 & Bo); [by apply Ng|done|].
  cbn [fst snd mret fsE_ret].
  destruct (shift_free path (g 1) m3) as (m4 & -> & C1 & C0 & Co); [by apply not_eq_sym, Np|done|].
  exists m4. split; [done|]. split_and!; [| | |done].
  - rewrite Co, Bo, A3 by auto. unfold m1. by rewrite lookup_delete_ne by auto.
  - rewrite Co, B2, Ao by auto. unfold m1. by rewrite lookup_delete_ne by auto.
  - rewrite C1, Bo, Ao by auto. unfold m1. by rewrite lookup_delete_ne by auto.
Qed.

(** What a file holds; a missing one holds nothing. *)
Definition text m (p : Path) : list byte := default [] (m !! p).

(** The history a log keeps, oldest first. *)
Definition kept m : list byte := text m (g 3) ++ text m (g 2) ++ text m (g 1) ++ text m path.

(** The shape of the generations when chunks are at most [c] long: none is
    longer than the limit, a full one was closed for lack of room, they are
    filled from the first on, and nothing was dropped before all were there. *)
Record rotated (c : N) (hist : list byte) m : Prop := {
  ro_suffix : kept m `suffix_of` hist;
  ro_log : forall b, m !! path = Some b -> (N.of_nat (length b) <= MAX_BYTES)%N;
  ro_gens : forall i b, 1 <= i <= 3 -> m !! g i = Some b ->
    (N.of_nat (length b) <= MAX_BYTES < N.of_nat (length b) + c)%N;
  ro_order : (is_Some (m !! g 3) -> is_Some (m !! g 2)) /\ (is_Some (m !! g 2) -> is_Some (m !! g 1));
  ro_lost : kept m = hist \/ is_Some (m !! g 3)
}.

Lemma append_run m b :
  append path b (disk m) =
  if (MAX_BYTES <? saturating_add (N.of_nat (length (text m path))) (N.of_nat (length b)))%N
  then match rotate path (disk m) with
       | (s, Ok _) => fs_append path b s
       | (s, Err e) => (s, Err e)
       end
  else fs_append path b (disk m).
Proof.
  unfold append. rewrite fs_run_bind. unfold fs_try at 1. cbn [fst snd].
  assert (E : fs_len path (disk m) = (disk m, match m !! path with
    | Some t => Ok (N.of_nat (length t)) | None => Err "No such file or directory" end)).
  { unfold fs_len. cbn. by destruct (m !! path). }
  rewrite E. cbn [fst snd]. replace (match _ with Ok n => n | Err _ => 0%N end)
    with (N.of_nat (length (text m path))) by (unfold text; by destruct (m !! path)).
  unfold fs_try. rewrite fs_run_bind, E. cbn [fst snd].
  destruct (_ <? _)%N; [by destruct (rotate path _) as [? []]|done].
Qed.

(** One append keeps the shape, and adds the chunk at the end. *)
Lemma append_rotated c hist m b :
  (c <= MAX_BYTES)%N -> (N.of_nat (length b) <= c)%N -> rotated c hist m ->
  exists m', append path b (disk m) = (disk m', Ok tt) /\ rotated c (hist ++ b) m' /\
    ((N.of_nat (length (text m path) + length b) <= MAX_BYTES)%N -> text m' path = text m path ++ b).
Proof.
  intros Hc Hb [Rs Rl Rg [Ro3 Ro2] Rd]. rewrite append_run.
  assert (Hsat : forall n k, (MAX_BYTES <? saturating_add n k)%N = (MAX_BYTES <? n + k)%N).
  { intros n k. unfold saturating_add, MAX_BYTES. apply Bool.eq_iff_eq_true. rewrite !N.ltb_lt. lia. }
  rewrite Hsat. destruct (_ <? _)%N eqn:E; [apply N.ltb_lt in E|apply N.ltb_ge in E].
  - destruct (rotate_moves m) as (m' & -> & E3 & E2 & E1 & E0).
    unfold fs_append. cbn. rewrite E0. cbn [default from_option id app].
    assert (Hp : is_Some (m !! path)).
    { unfold text in E. destruct (m !! path); [done|]. cbn in E. lia. }
    assert (Hg : forall i, <[path := b]> m' !! g i = m' !! g i).
    { intros i. by rewrite lookup_insert_ne by apply not_eq_sym, gen_ne. }
    assert (Hk : kept (<[path := b]> m') = (text m (g 2) ++ text m (g 1) ++ text m path) ++ b).
    { unfold kept, text. by rewrite !Hg, E3, E2, E1, lookup_insert_eq, <- !app_assoc. }
    exists (<[path := b]> m'). split; [done|]. split; [|lia]. split.
    + rewrite Hk. destruct Rs as [k Ek]. exists (k ++ text m (g 3)). rewrite Ek.
      unfold kept. by rewrite <- !app_assoc.
    + intros x. rewrite lookup_insert_eq. intros [= <-]. lia.
    + intros i x Hi. rewrite Hg.
      assert (i = 1 \/ i = 2 \/ i = 3) as [->|[->| ->]] by lia; rewrite ?E1, ?E2, ?E3; intros Hx.
      * pose proof (Rl _ Hx). unfold text in E. rewrite Hx in E. cbn in E. lia.
      * apply (Rg 1 x); [lia|done].
      * apply (Rg 2 x); [lia|done].
    + rewrite !Hg, E1, E2, E3. auto.
    + rewrite Hg, E3. destruct (m !! g 3) as [t3|] eqn:E3'; [right; by apply Ro3|].
      left. rewrite Hk. destruct Rd as [<-|Hd]; [|by destruct Hd].
      unfold kept. unfold text at 4. rewrite E3'. cbn [default from_option id app]. by rewrite <- !app_assoc.
  - unfold fs_append. cbn. set (t := text m path ++ b).
    assert (Hg : forall i, <[path := t]> m !! g i = m !! g i).
    { intros i. by rewrite lookup_insert_ne by apply not_eq_sym, gen_ne. }
    assert (Hk : kept (<[path := t]> m) = kept m ++ b).
    { unfold kept, text. rewrite !Hg, lookup_insert_eq. cbn [default from_option id]. unfold t, text.
      by rewrite <- !app_assoc. }
    exists (<[path := t]> m). split; [done|]. split; [|by intros _; unfold text at 1; rewrite lookup_insert_eq].
    split.
    + rewrite Hk. destruct Rs as [k Ek]. exists k. by rewrite Ek, app_assoc.
    + intros x. rewrite lookup_insert_eq. intros [= <-]. unfold t. rewrite length_app. lia.
    + intros i x Hi. rewrite Hg. by apply Rg.
    + rewrite !Hg. auto.
    + rewrite Hk, Hg. destruct Rd as [->|Hd]; [by left|by right].
Qed.

(** The appends of a list of chunks, one after the other. *)
Fixpoint append_all (l : list (list byte)) : fsM unit :=
  match l with
  | [] => mret tt
  | b :: l => _ ← append path b; append_all l
  end.

End Rotation.

(** ** Two lines *)

Definition app_log : Path := ["logs"; "app.log"].
