(* ===== verification/Status.v ===== *)
(** The status snapshot, the clock text it carries and its rendering
    (src/status.rs).

    Seconds are a [u64].  The days and everything derived from them are [i64]
    in the program; they stay far below its bounds, and the division is the
    truncating one. *)

From stdpp Require Import base strings numbers pretty list.
From Stdlib Require Import ZArith Lia Strings.Ascii.
From S2P Require Import Prelude.

(** ** Data *)

Record GroupSummary := { gs_name : string; gs_members : nat; gs_messages : nat }.
Record ReactorStatus := {
  rs_running : bool;
  rs_healthy : bool;
  rs_peer_id : option string;
  rs_listen : string;
  rs_docs : N;
  rs_last_event : option string;
  rs_active_drives : nat;
  rs_last_doc : option string
}.
Record DriveStatusEntry := {
  ds_name : string;
  ds_addr : string;
  ds_paused : bool;
  ds_status : string;
  ds_detail : string
}.
Record SettingsStatus := { ss_url : string }.
Record StatusSnapshot := {
  sn_version : string;
  sn_reactor : ReactorStatus;
  sn_drives : list DriveStatusEntry;
  sn_bans : list string;
  sn_settings : SettingsStatus;
  sn_groups : list GroupSummary;
  sn_updated_at : string
}.

(** ** The clock *)

(** [{n:0w}]. *)
Definition zero_pad (w : nat) (s : string) : string :=
  String.concat "" (replicate (w - String.length s) "0") +:+ s.

(** The date and time of day [rfc3339] computes. *)
Record Civil := { cv_year : Z; cv_month : Z; cv_day : Z; cv_hour : Z; cv_min : Z; cv_sec : Z }.

Open Scope Z_scope.
(** The date of a number of days (the body of [rfc3339]). *)
Definition civil_date (days : Z) : Z * Z * Z :=
  let z := days + 719468 in
  let era := Z.quot (if 0 <=? z then z else z - 146096) 146097 in
  let doe := z - era * 146097 in
  let yoe := Z.quot (doe - Z.quot doe 1460 + Z.quot doe 36524 - Z.quot doe 146096) 365 in
  let y := yoe + era * 400 in
  let doy := doe - (365 * yoe + Z.quot yoe 4 - Z.quot yoe 100) in
  let mp := Z.quot (5 * doy + 2) 153 in
  let d := doy - Z.quot (153 * mp + 2) 5 + 1 in
  let mo := if mp <? 10 then mp + 3 else mp - 9 in
  (if mo <=? 2 then y + 1 else y, mo, d).
Definition civil (secs : N) : Civil :=
  let days := Z.of_N secs / 86400 in
  let rem := Z.of_N secs mod 86400 in
  let '(y, mo, d) := civil_date days in
  {| cv_year := y; cv_month := mo; cv_day := d; cv_hour := rem / 3600;
     cv_min := (rem mod 3600) / 60; cv_sec := rem mod 60 |}.

(** [rfc3339]. *)
Definition rfc3339 (secs : N) : string :=
  let c := civil secs in
  zero_pad 4 (pretty (cv_year c)) +:+ "-" +:+ zero_pad 2 (pretty (cv_month c)) +:+ "-"
  +:+ zero_pad 2 (pretty (cv_day c)) +:+ "T" +:+ zero_pad 2 (pretty (cv_hour c)) +:+ ":"
  +:+ zero_pad 2 (pretty (cv_min c)) +:+ ":" +:+ zero_pad 2 (pretty (cv_sec c)) +:+ "Z".
Close Scope Z_scope.

(** [StatusSnapshot::empty]; [now] is the clock. *)
Definition snapshot_empty (now : N) (version listen settings_url : string) : StatusSnapshot :=
  {| sn_version := version;
     sn_reactor := {| rs_running := false; rs_healthy := false; rs_peer_id := None;
                      rs_listen := listen; rs_docs := 0; rs_last_event := None;
                      rs_active_drives := 0; rs_last_doc := None |};
     sn_drives := []; sn_bans := []; sn_settings := {| ss_url := settings_url |};
     sn_groups := []; sn_updated_at := rfc3339 now |}.

(** ** Rendering *)

Definition newline : string := String (ascii_of_nat 10) "".
Definition reactor_state (r : ReactorStatus) : string :=
  if negb (rs_running r) then "stopped" else if rs_healthy r then "healthy" else "starting".
Definition render_drive (d : DriveStatusEntry) : string :=
  "    " +:+ ds_name d +:+ "  [" +:+ ds_status d +:+ "]" +:+ newline
  +:+ "      " +:+ ds_addr d +:+ newline +:+ "      " +:+ ds_detail d +:+ newline.

(** [render_text]. *)
Definition render_text (snap : StatusSnapshot) : string :=
  let r := sn_reactor snap in
  "ph-reactor " +:+ sn_version snap +:+ "  (settings: " +:+ ss_url (sn_settings snap) +:+ ")" +:+ newline
  +:+ "  reactor: " +:+ reactor_state r +:+ "  (" +:+ pretty (rs_docs r) +:+ " docs, peer "
  +:+ default "?" (rs_peer_id r) +:+ ")" +:+ newline +:+ "      listen: " +:+ rs_listen r +:+ newline
  +:+ match rs_last_event r with
      | Some ev => "      last event: " +:+ ev +:+ newline
      | None => ""
      end
  +:+ match sn_drives snap with
      | [] => "  drives: (none configured)" +:+ newline
      | ds => "  drives:" +:+ newline +:+ String.concat "" (render_drive <$> ds)
      end.

(** ** The calendar *)

Open Scope Z_scope.
(** The Gregorian calendar, counted out: leap years, month lengths, and the
    days since 1970-01-01, one year and one month at a time. *)
Definition leap (y : Z) : bool :=
  (y mod 4 =? 0) && (negb (y mod 100 =? 0) || (y mod 400 =? 0)).
Definition days_in_month (y m : Z) : Z :=
  if m =? 2 then if leap y then 29 else 28
  else if (m =? 4) || (m =? 6) || (m =? 9) || (m =? 11) then 30 else 31.
Definition days_in_year (y : Z) : Z := if leap y then 366 else 365.
Fixpoint year_start (n : nat) : Z :=
  match n with
  | O => 0
  | S n => year_start n + days_in_year (1970 + Z.of_nat n)
  end.
Fixpoint month_start (y : Z) (n : nat) : Z :=
  match n with
  | O => 0
  | S n => month_start y n + days_in_month y (Z.of_nat n + 1)
  end.
Definition day_number (y m d : Z) : Z :=
  year_start (Z.to_nat (y - 1970)) + month_start y (Z.to_nat (m - 1)) + (d - 1).

(** The closed form of the count of years. *)
Lemma year_start_closed n :
  let y := 1969 + Z.of_nat n in
  year_start n = 365 * y + y / 4 - y / 100 + y / 400 - 719162.
Proof.
  induction n as [|n IH]; [done|]. cbn zeta in *. cbn [year_start]. rewrite IH.
  unfold days_in_year, leap. replace (1970 + Z.of_nat n) with (1969 + Z.of_nat n + 1) by lia.
  replace (1969 + Z.of_nat (S n)) with (1969 + Z.of_nat n + 1) by lia.
  generalize (1969 + Z.of_nat n) as y. clear. intros y.
  destruct ((y + 1) mod 4 =? 0) eqn:E4, ((y + 1) mod 100 =? 0) eqn:E1, ((y + 1) mod 400 =? 0) eqn:E0;
    simpl; rewrite ?Z.eqb_eq, ?Z.eqb_neq in *; Z.to_euclidean_division_equations; lia.
Qed.

(** The year of an era that a day falls in, counted from March. *)
Definition march_start (y : Z) : Z := 365 * y + y / 4 - y / 100 + y / 400.
Lemma year_of_era doe :
  0 <= doe < 146097 ->
  let y := (doe - doe / 1460 + doe / 36524 - doe / 146096) / 365 in
  0 <= y < 400 /\ march_start y <= doe < march_start (y + 1).
Proof.
  intros Hd. cbn zeta. unfold march_start.
  assert (doe / 146096 = 0 \/ doe = 146096) as [E| ->] by (Z.to_euclidean_division_equations; lia).
  2: { vm_compute. by repeat split. }
  rewrite E. set (y := (doe - doe / 1460 + doe / 36524 - 0) / 365).
  assert (Hy : 0 <= y < 400) by (unfold y; Z.to_euclidean_division_equations; lia).
  split; [done|]. assert (H0 : y / 400 = 0) by (apply Z.div_small; lia). rewrite H0.
  split; unfold y in *; Z.to_euclidean_division_equations; lia.
Qed.

(** The month table: months counted from March, and the calendar's own. *)
Lemma month_starts y :
  month_start y 0 = 0 /\ month_start y 1 = 31 /\
  forall n, (n < 10)%nat ->
    month_start y (n + 2) = 59 + (if leap y then 1 else 0) + (153 * Z.of_nat n + 2) / 5.
Proof.
  split_and!; [done|done|]. intros n Hn.
  do 10 (destruct n as [|n]; [cbn; unfold days_in_month; simpl; destruct (leap y); done|]). lia.
Qed.

(** The date of a day, with the divisions rounding down. *)
Lemma civil_date_march days :
  0 <= days -> exists era y doy mp,
    0 <= era /\ 0 <= y < 400 /\ 0 <= doy /\ 0 <= mp <= 11 /\
    (153 * mp + 2) / 5 <= doy < (153 * (mp + 1) + 2) / 5 /\
    days + 719468 = era * 146097 + march_start y + doy /\
    march_start y + doy < march_start (y + 1) /\
    civil_date days = ((if mp <? 10 then y + era * 400 else y + era * 400 + 1),
                       (if mp <? 10 then mp + 3 else mp - 9), doy - (153 * mp + 2) / 5 + 1).
Proof.
  intros Hd. set (z := days + 719468). set (era := z / 146097). set (doe := z mod 146097).
  assert (Hz : z = era * 146097 + doe) by (unfold era, doe; pose proof (Z.div_mod z 146097); lia).
  assert (Hdoe : 0 <= doe < 146097) by (apply Z.mod_pos_bound; lia).
  destruct (year_of_era doe Hdoe) as [Hy Hr]. set (y := (doe - doe / 1460 + doe / 36524 - doe / 146096) / 365) in *.
  assert (H4 : y / 400 = 0) by (apply Z.div_small; lia).
  set (doy := doe - march_start y).
  assert (Hdoy : 0 <= doy < 366).
  { unfold doy, march_start in *. clearbody y. Z.to_euclidean_division_equations; lia. }
  exists era, y, doy, ((5 * doy + 2) / 153).
  assert (Hera : 0 <= era) by (apply Z.div_pos; unfold z; lia).
  split_and!; try lia; try (clearbody doy; Z.to_euclidean_division_equations; lia).
  unfold civil_date. fold z. rewrite (proj2 (Z.leb_le 0 z)) by (unfold z; lia).
  rewrite (Z.quot_div_nonneg z) by (unfold z; lia). fold era.
  replace (z - era * 146097) with doe by lia.
  rewrite !(Z.quot_div_nonneg doe) by lia.
  rewrite (Z.quot_div_nonneg (doe - doe / 1460 + doe / 36524 - doe / 146096))
    by (clearbody doe; Z.to_euclidean_division_equations; lia). fold y.
  rewrite !(Z.quot_div_nonneg y) by lia.
  replace (doe - (365 * y + y / 4 - y / 100)) with doy by (unfold doy, march_start; lia).
  rewrite (Z.quot_div_nonneg (5 * doy + 2)) by lia.
  set (mp := (5 * doy + 2) / 153).
  assert (Hmp : 0 <= mp <= 11) by (unfold mp; clearbody doy; Z.to_euclidean_division_equations; lia).
  rewrite (Z.quot_div_nonneg (153 * mp + 2)) by lia. clearbody mp.
  destruct (mp <? 10) eqn:E; [rewrite Z.ltb_lt in E|rewrite Z.ltb_ge in E].
  - by rewrite (proj2 (Z.leb_gt (mp + 3) 2)) by lia.
  - by rewrite (proj2 (Z.leb_le (mp - 9) 2)) by lia.
Qed.

(** A date of the calendar from 1970 on. *)
Definition real_date (y m d : Z) : Prop :=
  1970 <= y /\ 1 <= m <= 12 /\ 1 <= d <= days_in_month y m.

Lemma march_leap y : march_start (y + 1) = march_start y + (if leap (y + 1) then 366 else 365).
Proof.
  unfold march_start, leap.
  destruct ((y + 1) mod 4 =? 0) eqn:E4, ((y + 1) mod 100 =? 0) eqn:E1, ((y + 1) mod 400 =? 0) eqn:E0;
    simpl; rewrite ?Z.eqb_eq, ?Z.eqb_neq in *; Z.to_euclidean_division_equations; lia.
Qed.
Lemma march_era y era : march_start (y + era * 400) = era * 146097 + march_start y.
Proof. unfold march_start. Z.to_euclidean_division_equations; lia. Qed.
Lemma march_mono x y : x <= y -> march_start x <= march_start y.
Proof. intros. unfold march_start. Z.to_euclidean_division_equations; lia. Qed.
Lemma year_start_march y : 1969 <= y -> year_start (Z.to_nat (y + 1 - 1970)) = march_start y - 719162.
Proof.
  intros Hy. rewrite year_start_closed. unfold march_start.
  replace (1969 + Z.of_nat (Z.to_nat (y + 1 - 1970))) with y by lia. lia.
Qed.

Lemma civil_date_exact days :
  0 <= days ->
  let '(y, m, d) := civil_date days in real_date y m d /\ day_number y m d = days.
Proof.
  intros Hd. destruct (civil_date_march days Hd)
    as (era & y & doy & mp & He & Hy & Hdoy & Hmp & Hb & Hz & Hr & ->).
  set (M := y + era * 400). pose proof (march_era y era) as EM. fold M in EM.
  pose proof (march_era (y + 1) era) as EM1. replace (y + 1 + era * 400) with (M + 1) in EM1 by (unfold M; lia).
  pose proof (march_leap M) as L1. pose proof (march_leap (M - 1)) as L0. rewrite Z.sub_add in L0.
  pose proof (fun h => march_mono M 1969 h) as Mono1969. pose proof (fun h => march_mono M 1968 h) as Mono1968.
  change (march_start 1969) with 719162 in *. change (march_start 1968) with 718797 in *.
  unfold real_date, day_number. destruct (mp <? 10) eqn:E; [rewrite Z.ltb_lt in E|rewrite Z.ltb_ge in E].
  - assert (HM : 1970 <= M).
    { destruct (Z.le_gt_cases 1970 M); [done|]. Z.to_euclidean_division_equations; lia. }
    destruct (month_starts M) as (_ & _ & Hms). specialize (Hms (Z.to_nat mp)).
    rewrite Z2Nat.id in Hms by lia.
    replace (Z.to_nat (mp + 3 - 1)) with (Z.to_nat mp + 2)%nat by lia. rewrite Hms by lia.
    replace (M - 1970) with (M - 1 + 1 - 1970) by lia. rewrite year_start_march by lia.
    assert (Hm : mp = 0 \/ mp = 1 \/ mp = 2 \/ mp = 3 \/ mp = 4 \/ mp = 5 \/ mp = 6 \/ mp = 7 \/ mp = 8 \/ mp = 9) by lia.
    assert (Hlen : (153 * (mp + 1) + 2) / 5 - (153 * mp + 2) / 5 <= days_in_month M (mp + 3)).
    { repeat (destruct Hm as [->|Hm]; [vm_compute; discriminate|]). subst mp. vm_compute. discriminate. }
    repeat split; try lia. destruct (leap M); lia.
  - assert (HM : 1969 <= M).
    { destruct (Z.le_gt_cases 1969 M); [done|]. Z.to_euclidean_division_equations; lia. }
    rewrite year_start_march by lia. destruct (month_starts (M + 1)) as (H0 & H1 & _).
    assert (mp = 10 \/ mp = 11) as [->| ->] by lia.
    + change (Z.to_nat (10 - 9 - 1)) with 0%nat. rewrite H0. change (10 - 9) with 1.
      change (days_in_month (M + 1) 1) with 31.
      change ((153 * 10 + 2) / 5) with 306 in *. change ((153 * (10 + 1) + 2) / 5) with 337 in *. lia.
    + change (Z.to_nat (11 - 9 - 1)) with 1%nat. rewrite H1. change (11 - 9) with 2.
      change (days_in_month (M + 1) 2) with (if leap (M + 1) then 29 else 28).
      change ((153 * 11 + 2) / 5) with 337 in *. destruct (leap (M + 1)); lia.
Qed.

(** A date is determined by its day: months and years start in order. *)
Lemma month_start_year y : month_start y 12 = days_in_year y.
Proof. cbn. unfold days_in_month, days_in_year. simpl. by destruct (leap y). Qed.
Lemma month_start_mono y n k : (n <= k)%nat -> month_start y n <= month_start y k.
Proof.
  induction 1 as [|k _ IH]; [done|]. cbn [month_start]. unfold days_in_month. repeat case_match; lia.
Qed.
Lemma day_in_year y m d : real_date y m d ->
  year_start (Z.to_nat (y - 1970)) <= day_number y m d < year_start (Z.to_nat (y + 1 - 1970)).
Proof.
  intros (Hy & Hm & Hd). unfold day_number.
  replace (Z.to_nat (y + 1 - 1970)) with (S (Z.to_nat (y - 1970))) by lia. cbn [year_start].
  replace (1970 + Z.of_nat (Z.to_nat (y - 1970))) with y by lia.
  pose proof (month_start_mono y (S (Z.to_nat (m - 1))) 12) as H12. rewrite month_start_year in H12.
  pose proof (month_start_mono y 0 (Z.to_nat (m - 1))) as H0.
  cbn [month_start] in *. replace (Z.of_nat (Z.to_nat (m - 1)) + 1) with m in H12 by lia. lia.
Qed.
Lemma day_number_inj y m d y' m' d' :
  real_date y m d -> real_date y' m' d' -> day_number y m d = day_number y' m' d' ->
  (y, m, d) = (y', m', d').
Proof.
  intros R R' E. pose proof (day_in_year _ _ _ R) as B. pose proof (day_in_year _ _ _ R') as B'.
  destruct R as (Hy & Hm & Hd), R' as (Hy' & Hm' & Hd').
  assert (Ey : y = y').
  { assert (HH : forall x z, 1970 <= x -> x + 1 <= z ->
      year_start (Z.to_nat (x + 1 - 1970)) <= year_start (Z.to_nat (z - 1970))).
    { intros x z Hx Hxz. replace (z - 1970) with (z - 1 + 1 - 1970) by lia.
      rewrite !year_start_march by lia. pose proof (march_mono x (z - 1)). lia. }
    pose proof (HH y y' Hy). pose proof (HH y' y Hy'). lia. }
  subst y'. assert (Em : m = m').
  { assert (HH : forall x z, 1 <= x -> x + 1 <= z ->
      month_start y (Z.to_nat (x - 1)) + days_in_month y x <= month_start y (Z.to_nat (z - 1))).
    { intros x z Hx Hxz. pose proof (month_start_mono y (S (Z.to_nat (x - 1))) (Z.to_nat (z - 1))) as Hs.
      cbn [month_start] in Hs. replace (Z.of_nat (Z.to_nat (x - 1)) + 1) with x in Hs by lia. lia. }
    pose proof (HH m m'). pose proof (HH m' m). unfold day_number in E. lia. }
  subst m'. unfold day_number in E. f_equal. lia.
Qed.

(** The clock text is the calendar's.  For every number of seconds the
    fields of [rfc3339] are a real date and time of day whose count of days,
    one year and month at a time, and of seconds is the given number; and the
    date computed for a day of the calendar is that day: the arithmetic and
    the calendar are each other's inverse. *)
Theorem rfc3339_is_calendar :
  (forall secs, let c := civil secs in
     real_date (cv_year c) (cv_month c) (cv_day c) /\
     0 <= cv_hour c < 24 /\ 0 <= cv_min c < 60 /\ 0 <= cv_sec c < 60 /\
     Z.of_N secs = day_number (cv_year c) (cv_month c) (cv_day c) * 86400
                   + cv_hour c * 3600 + cv_min c * 60 + cv_sec c) /\
  (forall y m d, real_date y m d -> civil_date (day_number y m d) = (y, m, d)).
Proof.
  split.
  - intros secs. unfold civil. pose proof (civil_date_exact (Z.of_N secs / 86400)) as Hc.
    destruct (civil_date (Z.of_N secs / 86400)) as [[y m] d].
    destruct Hc as [Hr Hn]; [apply Z.div_pos; lia|]. cbn [cv_year cv_month cv_day cv_hour cv_min cv_sec].
    split; [exact Hr|]. rewrite Hn. clear. generalize (Z.of_N secs) as t. intros t.
    split_and!; Z.to_euclidean_division_equations; lia.
  - intros y m d Hr.
    assert (H0 : 0 <= day_number y m d).
    { pose proof (day_in_year y m d Hr) as [Hb _]. destruct Hr as (Hy & _).
      replace (y - 1970) with (y - 1 + 1 - 1970) in Hb by lia. rewrite year_start_march in Hb by lia.
      pose proof (march_mono 1969 (y - 1)). change (march_start 1969) with 719162 in *. lia. }
    pose proof (civil_date_exact _ H0) as Hc. destruct (civil_date _) as [[y' m'] d'].
    destruct Hc as [Hr' E]. by apply day_number_inj.
Qed.
Close Scope Z_scope.

Example rfc3339_known :
  rfc3339 0 = "1970-01-01T00:00:00Z" /\ rfc3339 1609459200 = "2021-01-01T00:00:00Z" /\
  rfc3339 1789346096 = "2026-09-14T00:34:56Z".
Proof. split_and!; vm_compute; reflexivity. Qed.
