(* ===== verification/Daemon.v ===== *)
(** The daemon (src/daemon.rs, src/commands.rs): its context, the commands it
    executes one after the other, the engine's events it folds in, external
    edits of [config.json] it adopts, the status it publishes, the self-update
    check, and the drive commands of the command line.

    [Ctx] holds the daemon's memory together with what it shares: the store,
    the files of the state directory and the channel to the engine, as the list
    of commands sent so far.  What the outside decides is an argument, [World]:
    the clocks, a fresh document id, the modification times of [config.json]
    and the random nonce.  The error texts of [anyhow] contexts are kept, those
    of the libraries behind them are what the interfaces return. *)

From stdpp Require Import base gmap strings numbers pretty list.
From Stdlib Require Import Strings.Byte Strings.Ascii.
From S2P Require Import Prelude Json Doc Action Model Store Text Cosign Invite Blob Engine.
From S2P Require Import Fs ReadModel Package Update Status Config.

#[export] Instance byte_countable : Countable byte :=
  inj_countable Byte.to_N Byte.of_N Byte.of_to_N.

(** [str::eq_ignore_ascii_case]. *)
Definition ascii_lower (c : ascii) : ascii :=
  let n := N_of_ascii c in
  if ((65 <=? n) && (n <=? 90))%N then ascii_of_N (n + 32) else c.
Definition lower (s : string) : string :=
  String.string_of_list_ascii (ascii_lower <$> String.list_ascii_of_string s).
Definition same_name (a b : string) : bool := bool_decide (lower a = lower b).

(** The text of a multiaddr and the reading of a peer id. *)
Class NetText `{Net} := {
  addr_display : Multiaddr -> string;
  peer_parse : string -> result string PeerId
}.

(** ** Data *)

(** [commands::Command]; the reply channel is the third result of
    [execute_command]. *)
Inductive Command :=
  | CmdAddDrive (name addr : string) (token_env : option string) (offline : bool)
  | CmdRemoveDrive (name : string)
  | CmdPauseDrive (name : string)
  | CmdResumeDrive (name : string)
  | CmdResyncDrive (name : string)
  | CmdCreateDoc (name : string) (fields : gmap string Value)
  | CmdCreateAction (name model kind : string) (payload : Value)
  | CmdPropose (name model kind : string) (payload : Value)
  | CmdCoSign (token : string)
  | CmdSubmit (token : string)
  | CmdCreateDocModel (name model : string) (payload : Value) (space : option string)
  | CmdCreateSpace (name visibility : string) (members managers : list string)
  | CmdInvite (groups : list string)
  | CmdJoin (invite : string)
  | CmdBan (peer : string)
  | CmdUnban (peer : string)
  | CmdFetchBlob (blob : BlobRef)
  | CmdSetConfig (key : string) (value : Value)
  | CmdQuit.

(** [commands::DriveOp]. *)
Inductive DriveOp :=
  | OpAdd (name addr : string) (token_env : option string) (offline : bool)
  | OpRemove (name : string)
  | OpPause (name : string)
  | OpResume (name : string)
  | OpResync (name : string).

(** What is sent back on the channel of a command. *)
Inductive Reply :=
  | ReplyUnit (r : result string unit)
  | ReplyAction (r : result string Action)
  | ReplyText (r : result string string).

(** [Ctx]. *)
Record Ctx `{Platform, Net} := {
  x_paths : StatePaths;
  x_config : ReactorConfig;
  x_peer_id : PeerId;
  x_listen : option Multiaddr;
  x_store : Inner;
  x_bans : gset string;
  x_engine_up : bool;
  x_sent : list EngineCommand;
  x_last_save_mtime : N;
  x_engine_drives : list string;
  x_drive_views : gmap string (DriveStatus * option string);
  x_reactor_healthy : bool;
  x_last_event : option string;
  x_last_doc : option string;
  x_pending_invites : gmap (list byte) (list string);
  x_stopping : bool;
  x_fs : Fs
}.

(** What the outside decides during one command. *)
Record World := {
  w_clock : nat -> N;
  w_id : DocId;
  w_secs : N;
  w_seen : option N;
  w_saved : option N;
  w_nonce : result string (list byte)
}.

Section Setters.
Context `{Platform, Net}.
Definition put_config (x : Ctx) (v : ReactorConfig) : Ctx :=
  {| x_paths := x_paths x; x_config := v; x_peer_id := x_peer_id x; x_listen := x_listen x;
     x_store := x_store x; x_bans := x_bans x; x_engine_up := x_engine_up x; x_sent := x_sent x;
     x_last_save_mtime := x_last_save_mtime x; x_engine_drives := x_engine_drives x;
     x_drive_views := x_drive_views x; x_reactor_healthy := x_reactor_healthy x; x_last_event :=
     x_last_event x; x_last_doc := x_last_doc x; x_pending_invites := x_pending_invites x;
     x_stopping := x_stopping x; x_fs := x_fs x |}.
Definition put_listen (x : Ctx) (v : option Multiaddr) : Ctx :=
  {| x_paths := x_paths x; x_config := x_config x; x_peer_id := x_peer_id x; x_listen := v;
     x_store := x_store x; x_bans := x_bans x; x_engine_up := x_engine_up x; x_sent := x_sent x;
     x_last_save_mtime := x_last_save_mtime x; x_engine_drives := x_engine_drives x;
     x_drive_views := x_drive_views x; x_reactor_healthy := x_reactor_healthy x; x_last_event :=
     x_last_event x; x_last_doc := x_last_doc x; x_pending_invites := x_pending_invites x;
     x_stopping := x_stopping x; x_fs := x_fs x |}.
Definition put_store (x : Ctx) (v : Inner) : Ctx :=
  {| x_paths := x_paths x; x_config := x_config x; x_peer_id := x_peer_id x; x_listen := x_listen
     x; x_store := v; x_bans := x_bans x; x_engine_up := x_engine_up x; x_sent := x_sent x;
     x_last_save_mtime := x_last_save_mtime x; x_engine_drives := x_engine_drives x;
     x_drive_views := x_drive_views x; x_reactor_healthy := x_reactor_healthy x; x_last_event :=
     x_last_event x; x_last_doc := x_last_doc x; x_pending_invites := x_pending_invites x;
     x_stopping := x_stopping x; x_fs := x_fs x |}.
Definition put_bans (x : Ctx) (v : gset string) : Ctx :=
  {| x_paths := x_paths x; x_config := x_config x; x_peer_id := x_peer_id x; x_listen := x_listen
     x; x_store := x_store x; x_bans := v; x_engine_up := x_engine_up x; x_sent := x_sent x;
     x_last_save_mtime := x_last_save_mtime x; x_engine_drives := x_engine_drives x;
     x_drive_views := x_drive_views x; x_reactor_healthy := x_reactor_healthy x; x_last_event :=
     x_last_event x; x_last_doc := x_last_doc x; x_pending_invites := x_pending_invites x;
     x_stopping := x_stopping x; x_fs := x_fs x |}.
Definition put_sent (x : Ctx) (v : list EngineCommand) : Ctx :=
  {| x_paths := x_paths x; x_config := x_config x; x_peer_id := x_peer_id x; x_listen := x_listen
     x; x_store := x_store x; x_bans := x_bans x; x_engine_up := x_engine_up x; x_sent := v;
     x_last_save_mtime := x_last_save_mtime x; x_engine_drives := x_engine_drives x;
     x_drive_views := x_drive_views x; x_reactor_healthy := x_reactor_healthy x; x_last_event :=
     x_last_event x; x_last_doc := x_last_doc x; x_pending_invites := x_pending_invites x;
     x_stopping := x_stopping x; x_fs := x_fs x |}.
Definition put_last_save_mtime (x : Ctx) (v : N) : Ctx :=
  {| x_paths := x_paths x; x_config := x_config x; x_peer_id := x_peer_id x; x_listen := x_listen
     x; x_store := x_store x; x_bans := x_bans x; x_engine_up := x_engine_up x; x_sent := x_sent
     x; x_last_save_mtime := v; x_engine_drives := x_engine_drives x; x_drive_views :=
     x_drive_views x; x_reactor_healthy := x_reactor_healthy x; x_last_event := x_last_event x;
     x_last_doc := x_last_doc x; x_pending_invites := x_pending_invites x; x_stopping :=
     x_stopping x; x_fs := x_fs x |}.
Definition put_engine_drives (x : Ctx) (v : list string) : Ctx :=
  {| x_paths := x_paths x; x_config := x_config x; x_peer_id := x_peer_id x; x_listen := x_listen
     x; x_store := x_store x; x_bans := x_bans x; x_engine_up := x_engine_up x; x_sent := x_sent
     x; x_last_save_mtime := x_last_save_mtime x; x_engine_drives := v; x_drive_views :=
     x_drive_views x; x_reactor_healthy := x_reactor_healthy x; x_last_event := x_last_event x;
     x_last_doc := x_last_doc x; x_pending_invites := x_pending_invites x; x_stopping :=
     x_stopping x; x_fs := x_fs x |}.
Definition put_drive_views (x : Ctx) (v : gmap string (DriveStatus * option string)) : Ctx :=
  {| x_paths := x_paths x; x_config := x_config x; x_peer_id := x_peer_id x; x_listen := x_listen
     x; x_store := x_store x; x_bans := x_bans x; x_engine_up := x_engine_up x; x_sent := x_sent
     x; x_last_save_mtime := x_last_save_mtime x; x_engine_drives := x_engine_drives x;
     x_drive_views := v; x_reactor_healthy := x_reactor_healthy x; x_last_event := x_last_event
     x; x_last_doc := x_last_doc x; x_pending_invites := x_pending_invites x; x_stopping :=
     x_stopping x; x_fs := x_fs x |}.
Definition put_reactor_healthy (x : Ctx) (v : bool) : Ctx :=
  {| x_paths := x_paths x; x_config := x_config x; x_peer_id := x_peer_id x; x_listen := x_listen
     x; x_store := x_store x; x_bans := x_bans x; x_engine_up := x_engine_up x; x_sent := x_sent
     x; x_last_save_mtime := x_last_save_mtime x; x_engine_drives := x_engine_drives x;
     x_drive_views := x_drive_views x; x_reactor_healthy := v; x_last_event := x_last_event x;
     x_last_doc := x_last_doc x; x_pending_invites := x_pending_invites x; x_stopping :=
     x_stopping x; x_fs := x_fs x |}.
Definition put_last_event (x : Ctx) (v : option string) : Ctx :=
  {| x_paths := x_paths x; x_config := x_config x; x_peer_id := x_peer_id x; x_listen := x_listen
     x; x_store := x_store x; x_bans := x_bans x; x_engine_up := x_engine_up x; x_sent := x_sent
     x; x_last_save_mtime := x_last_save_mtime x; x_engine_drives := x_engine_drives x;
     x_drive_views := x_drive_views x; x_reactor_healthy := x_reactor_healthy x; x_last_event :=
     v; x_last_doc := x_last_doc x; x_pending_invites := x_pending_invites x; x_stopping :=
     x_stopping x; x_fs := x_fs x |}.
Definition put_last_doc (x : Ctx) (v : option string) : Ctx :=
  {| x_paths := x_paths x; x_config := x_config x; x_peer_id := x_peer_id x; x_listen := x_listen
     x; x_store := x_store x; x_bans := x_bans x; x_engine_up := x_engine_up x; x_sent := x_sent
     x; x_last_save_mtime := x_last_save_mtime x; x_engine_drives := x_engine_drives x;
     x_drive_views := x_drive_views x; x_reactor_healthy := x_reactor_healthy x; x_last_event :=
     x_last_event x; x_last_doc := v; x_pending_invites := x_pending_invites x; x_stopping :=
     x_stopping x; x_fs := x_fs x |}.
Definition put_pending_invites (x : Ctx) (v : gmap (list byte) (list string)) : Ctx :=
  {| x_paths := x_paths x; x_config := x_config x; x_peer_id := x_peer_id x; x_listen := x_listen
     x; x_store := x_store x; x_bans := x_bans x; x_engine_up := x_engine_up x; x_sent := x_sent
     x; x_last_save_mtime := x_last_save_mtime x; x_engine_drives := x_engine_drives x;
     x_drive_views := x_drive_views x; x_reactor_healthy := x_reactor_healthy x; x_last_event :=
     x_last_event x; x_last_doc := x_last_doc x; x_pending_invites := v; x_stopping := x_stopping
     x; x_fs := x_fs x |}.
Definition put_stopping (x : Ctx) (v : bool) : Ctx :=
  {| x_paths := x_paths x; x_config := x_config x; x_peer_id := x_peer_id x; x_listen := x_listen
     x; x_store := x_store x; x_bans := x_bans x; x_engine_up := x_engine_up x; x_sent := x_sent
     x; x_last_save_mtime := x_last_save_mtime x; x_engine_drives := x_engine_drives x;
     x_drive_views := x_drive_views x; x_reactor_healthy := x_reactor_healthy x; x_last_event :=
     x_last_event x; x_last_doc := x_last_doc x; x_pending_invites := x_pending_invites x;
     x_stopping := v; x_fs := x_fs x |}.
Definition put_fs (x : Ctx) (v : Fs) : Ctx :=
  {| x_paths := x_paths x; x_config := x_config x; x_peer_id := x_peer_id x; x_listen := x_listen
     x; x_store := x_store x; x_bans := x_bans x; x_engine_up := x_engine_up x; x_sent := x_sent
     x; x_last_save_mtime := x_last_save_mtime x; x_engine_drives := x_engine_drives x;
     x_drive_views := x_drive_views x; x_reactor_healthy := x_reactor_healthy x; x_last_event :=
     x_last_event x; x_last_doc := x_last_doc x; x_pending_invites := x_pending_invites x;
     x_stopping := x_stopping x; x_fs := v |}.
End Setters.

(** ** Helpers *)

Section Daemon.
Context `{Platform, Net} `{!NetText} `{JsonText} `{Base64} `{!Serde Action} `{!Serde InviteToken}
  `{!Serde (list string)} `{Uuid}.
Context (sip : string * string * bool * option string * string * N * string -> N).
Implicit Types (x : Ctx) (w : World) (d : DriveConfig).

(** The engine's channel: a send to an engine that is gone is an error. *)
Definition send x (c : EngineCommand) : Ctx :=
  if x_engine_up x then put_sent x (x_sent x ++ [c]) else x.
Definition note x (ev : string) : Ctx := put_last_event x (Some ev).
Definition run_fs {E A} x (m : fsE E A) : Ctx * result E A := (put_fs x (m (x_fs x)).1, (m (x_fs x)).2).
Definition run_store {A} x (m : storeM A) : Ctx * result string A :=
  (put_store x (m (x_store x)).1, (m (x_store x)).2).

(** [load_bans], [save_bans]. *)
Definition load_bans (sp : StatePaths) : fsM (gset string) :=
  raw ← fs_try (fs_read_to_string (bans_file sp));
  mret match raw with
       | Err _ => ∅
       | Ok raw => match from_json raw with Ok l => list_to_set l | Err _ => ∅ end
       end.
Definition save_bans (sp : StatePaths) (bans : gset string) : fsM unit :=
  fs_write (bans_file sp) (to_json (sort_by_key (fun s => s) (elements bans))).

(** [default_drive_name]. *)
Definition default_drive_name (addr : Multiaddr) : string :=
  match find_map (fun p => match p with P2p pid => Some pid | _ => None end) (addr_iter addr) with
  | Some pid => "peer-" +:+ String.substring 0 8 pid
  | None =>
      match find_map (fun p => match p with Tcp port => Some port | _ => None end) (addr_iter addr) with
      | Some port => "drive-" +:+ pretty port
      | None => "drive"
      end
  end.

(** A configured drive, if its address parses. *)
Definition drive_of d : option Drive :=
  match addr_parse (dr_addr d) with
  | Ok a => Some {| d_name := dr_name d; d_addr := a; d_token_env := dr_token_env d;
                    d_paused := dr_paused d; d_available_offline := dr_available_offline d |}
  | Err _ => None
  end.

(** ** External edits *)

(** The end of [adopt_external]: the engine's drives follow the configuration. *)
Definition announce_drive x (dr : Drive) : Ctx :=
  if contains (x_engine_drives x) (d_name dr) then x
  else send (put_engine_drives x (x_engine_drives x ++ [d_name dr])) (AddDrive dr).
Definition drop_drive x (name : string) : Ctx :=
  send (put_drive_views x (delete name (x_drive_views x))) (RemoveDrive name).
Definition push_paused x d : Ctx := send x (SetPaused (dr_name d) (dr_paused d)).
Definition sync_drives x : Ctx :=
  let wanted := omap drive_of (c_drives (x_config x)) in
  let names := d_name <$> wanted in
  let x := foldl announce_drive x wanted in
  let stale := filter (fun n => n ∉ names) (x_engine_drives x) in
  let x := put_engine_drives x (filter (fun n => n ∈ names) (x_engine_drives x)) in
  let x := foldl drop_drive x stale in
  foldl push_paused x (c_drives (x_config x)).

(** [adopt_external]. *)
Definition adopt_external w (preserve_drives : bool) x : Ctx :=
  match w_seen w with
  | None => x
  | Some mtime =>
      if (mtime <=? x_last_save_mtime x)%N then x else
      match run_fs x (load_quiet (x_paths x) (w_secs w)) with
      | (x, Err _) => x
      | (x, Ok (_, true)) => put_last_save_mtime x mtime
      | (x, Ok (reloaded, false)) =>
          let restart_needed :=
            negb (process_fingerprint sip reloaded =? process_fingerprint sip (x_config x))%N in
          let reloaded := if preserve_drives then with_drives reloaded (c_drives (x_config x))
                          else reloaded in
          let x := put_last_save_mtime (put_config x reloaded) mtime in
          let x := if restart_needed then note x "config changed (restart to apply)" else x in
          sync_drives x
      end
  end.

(** [persist_config]. *)
Definition persist_config w x : Ctx * result ConfigError unit :=
  match run_fs (adopt_external w true x) (save (x_paths x) (x_config (adopt_external w true x))) with
  | (x, Ok _) => (put_last_save_mtime x (default 0%N (w_saved w)), Ok tt)
  | (x, Err e) => (x, Err e)
  end.

(** ** Commands *)

(** The result of a command: whether the daemon should stop, or its error; and
    the reply, for those that have one. *)
Definition ExecResult : Type := Ctx * result string bool * option Reply.
Definition done_ x : ExecResult := (x, Ok false, None).
Definition bail x (e : string) : ExecResult := (x, Err e, None).
Definition answer x (r : Reply) : ExecResult := (x, Ok false, Some r).

Definition has_drive (l : list DriveConfig) (name : string) : bool :=
  existsb (fun d => same_name (dr_name d) name) l.
Definition taken (name : string) : string := "a drive named '" +:+ name +:+ "' is already configured".
Definition unknown_drive (name : string) : string := "drive '" +:+ name +:+ "' is not configured".

(** The drive an [Add] asks for: its name and its address. *)
Definition new_drive (name addr : string) : result string (string * Multiaddr) :=
  let addr := trim addr in
  match addr_parse addr with
  | Err e => Err ("'" +:+ addr +:+ "' is not a valid multiaddr")
  | Ok ma => Ok (if blank name then default_drive_name ma else trim name, ma)
  end.
Definition drive_config (name : string) (ma : Multiaddr) (token_env : option string) (offline : bool) :
    DriveConfig :=
  {| dr_name := name; dr_addr := addr_display ma; dr_token_env := token_env; dr_paused := false;
     dr_available_offline := offline |}.

Definition push_drive x d : Ctx :=
  put_engine_drives (put_config x (with_drives (x_config x) (c_drives (x_config x) ++ [d])))
    (x_engine_drives x ++ [dr_name d]).

Definition cmd_add_drive w x (name addr : string) (token_env : option string) (offline : bool) :
    ExecResult :=
  match new_drive name addr with
  | Err e => bail x e
  | Ok (name, ma) =>
      if has_drive (c_drives (x_config x)) name then bail x (taken name) else
      match persist_config w (push_drive x (drive_config name ma token_env offline)) with
      | (x, Err e) => bail x (config_error_text e)
      | (x, Ok _) =>
          done_ (note (send x (AddDrive {| d_name := name; d_addr := ma; d_token_env := token_env;
                                           d_paused := false; d_available_offline := offline |}))
                   ("added drive '" +:+ name +:+ "'"))
      end
  end.

(** [Vec::remove] at the first drive of that name. *)
Fixpoint remove_drive (name : string) (l : list DriveConfig) : option (list DriveConfig) :=
  match l with
  | [] => None
  | d :: l => if same_name (dr_name d) name then Some l
              else l' ← remove_drive name l; Some (d :: l')
  end.
Definition cmd_remove_drive w x (name : string) : ExecResult :=
  match remove_drive name (c_drives (x_config x)) with
  | None => bail x (unknown_drive name)
  | Some l =>
      let x := put_config x (with_drives (x_config x) l) in
      let gone := filter (fun n => same_name n name = true) (x_engine_drives x) in
      let x := put_engine_drives x (filter (fun n => same_name n name = false) (x_engine_drives x)) in
      let x := foldl (fun x n => send x (RemoveDrive n)) x gone in
      let x := put_drive_views x (delete name (x_drive_views x)) in
      match persist_config w x with
      | (x, Err e) => bail x (config_error_text e)
      | (x, Ok _) => done_ (note x ("removed drive '" +:+ name +:+ "'"))
      end
  end.

(** The first drive of that name, with its flag set. *)
Definition set_paused d (paused : bool) : DriveConfig :=
  {| dr_name := dr_name d; dr_addr := dr_addr d; dr_token_env := dr_token_env d; dr_paused := paused;
     dr_available_offline := dr_available_offline d |}.
Fixpoint pause_drive (name : string) (paused : bool) (l : list DriveConfig) : option (list DriveConfig) :=
  match l with
  | [] => None
  | d :: l => if same_name (dr_name d) name then Some (set_paused d paused :: l)
              else l' ← pause_drive name paused l; Some (d :: l')
  end.
Definition cmd_pause w x (name : string) (paused : bool) : ExecResult :=
  match pause_drive name paused (c_drives (x_config x)) with
  | None => bail x (unknown_drive name)
  | Some l =>
      match persist_config w (put_config x (with_drives (x_config x) l)) with
      | (x, Err e) => bail x (config_error_text e)
      | (x, Ok _) =>
          done_ (note (send x (SetPaused name paused))
                   ((if paused then "paused" else "resumed") +:+ " drive '" +:+ name +:+ "'"))
      end
  end.

Definition cmd_resync x (name : string) : ExecResult :=
  if has_drive (c_drives (x_config x)) name
  then done_ (note (send x (Resync name)) ("re-syncing drive '" +:+ name +:+ "'"))
  else bail x (unknown_drive name).

Definition cmd_set_config w x (key : string) (value : Value) : ExecResult :=
  let before := process_fingerprint sip (x_config x) in
  match set (x_config x) key value with
  | (c, Err e) => bail (put_config x c) (config_error_text e)
  | (c, Ok _) =>
      match persist_config w (put_config x c) with
      | (x, Err e) => bail x (config_error_text e)
      | (x, Ok _) =>
          done_ (note x (if (process_fingerprint sip (x_config x) =? before)%N
                         then "config: set " +:+ key
                         else "config: set " +:+ key +:+ " (restart the daemon to apply)"))
      end
  end.

(** The commands on the store. *)
Definition cmd_create_doc w x (name : string) (fields : gmap string Value) : ExecResult :=
  match run_store x (create_doc (w_clock w) (w_id w) name fields) with
  | (x, Ok _) =>
      answer (note (put_last_doc x (Some name)) ("created doc '" +:+ name +:+ "'")) (ReplyUnit (Ok tt))
  | (x, Err e) => answer x (ReplyUnit (Err e))
  end.

Definition cmd_create_action w x (name model kind : string) (payload : Value) : ExecResult :=
  match modelref_parse model with
  | Err e => answer x (ReplyAction (Err e))
  | Ok mr =>
      match run_store x (apply_local_action (w_clock w 0) name mr kind payload) with
      | (x, Ok action) =>
          answer (note (put_last_doc x (Some name)) ("applied " +:+ kind +:+ " to '" +:+ name +:+ "'"))
            (ReplyAction (Ok action))
      | (x, Err e) => answer x (ReplyAction (Err e))
      end
  end.

Definition cmd_propose w x (name model kind : string) (payload : Value) : ExecResult :=
  match modelref_parse model with
  | Err e => answer x (ReplyText (Err e))
  | Ok mr =>
      match run_store x (build_local_action (w_clock w 0) name mr kind payload) with
      | (x, Ok action) => answer x (ReplyText (Ok (Cosign.encode action)))
      | (x, Err e) => answer x (ReplyText (Err e))
      end
  end.

(** The key a node knows for an origin, if it is one. *)
Definition key_of (s : Inner) (o : string) : option (list byte) :=
  b ← peer_key s o; if is_ok (vk_from_bytes b) then Some b else None.

Definition cmd_cosign x (token : string) : ExecResult :=
  answer x (ReplyText
    (action ← Cosign.decode (key_of (x_store x)) token;
     action ← add_cosig action (x_peer_id x) (i_key (x_store x));
     Ok (Cosign.encode action))).

Definition cmd_submit x (token : string) : ExecResult :=
  match Cosign.decode (key_of (x_store x)) token with
  | Err e => answer x (ReplyText (Err e))
  | Ok action =>
      match run_store x (apply_signed_action action) with
      | (x, Ok _) =>
          let said := "applied co-signed " +:+ a_kind action in
          answer (note x said) (ReplyText (Ok said))
      | (x, Err e) => answer x (ReplyText (Err e))
      end
  end.

(** The space a document is created in, by name. *)
Definition space_id (s : Inner) (space : option string) : result string (option DocId) :=
  match space with
  | None => Ok None
  | Some n => match get_doc s n with
              | Some d => Ok (Some (doc_id d))
              | None => Err ("no space named '" +:+ n +:+ "'")
              end
  end.
Definition cmd_create_doc_model w x (name model : string) (payload : Value) (space : option string) :
    ExecResult :=
  match mr ← modelref_parse model; sp ← space_id (x_store x) space; Ok (mr, sp) with
  | Err e => answer x (ReplyUnit (Err e))
  | Ok (mr, sp) =>
      match run_store x (create_doc_in_space (w_clock w 0) (w_id w) name mr payload sp) with
      | (x, Ok _) =>
          answer (note (put_last_doc x (Some name)) ("created " +:+ name +:+ " (" +:+ model +:+ ")"))
            (ReplyUnit (Ok tt))
      | (x, Err e) => answer x (ReplyUnit (Err e))
      end
  end.

Definition cmd_create_space w x (name visibility : string) (members managers : list string) : ExecResult :=
  let payload := json_obj [("name", Str name); ("visibility", Str visibility);
                           ("members", json_strs members); ("managers", json_strs managers)] in
  match run_store x (create_space_at uuid_display (w_clock w 0) (w_id w) name payload) with
  | (x, Ok _) =>
      answer (note x ("created space " +:+ name +:+ " (" +:+ visibility +:+ ")")) (ReplyUnit (Ok tt))
  | (x, Err e) => answer x (ReplyUnit (Err e))
  end.

(** Invites: at most [INVITE_CAP] + 1 grants are pending. *)
Definition INVITE_CAP : nat := 256.
Definition remember_invite x (nonce : list byte) (groups : list string) : Ctx :=
  let pending := if INVITE_CAP <? size (x_pending_invites x) then ∅ else x_pending_invites x in
  put_pending_invites x (<[nonce := groups]> pending).
Definition cmd_invite w x (groups : list string) : ExecResult :=
  match pick_invite_addr (in_external (c_instance (x_config x))) (addr_display <$> x_listen x) with
  | None => answer x (ReplyText (Err "the reactor has not announced its listen address yet; retry"))
  | Some listen =>
      let groups := match groups with [] => [in_name (c_instance (x_config x))] | _ => groups end in
      match token_make (in_name (c_instance (x_config x))) (x_peer_id x) (i_key (x_store x)) listen
              groups (w_nonce w) with
      | Err e => answer x (ReplyText (Err e))
      | Ok token =>
          answer (note (remember_invite x (t_nonce token) groups) "generated an invite")
            (ReplyText (Ok (token_encode token)))
      end
  end.

Definition cmd_join w x (invite : string) : ExecResult :=
  match token_decode invite with
  | Err e => answer x (ReplyUnit (Err e))
  | Ok token =>
      match run_store x (register_peer_key (t_peer_id token) (t_pubkey token)) with
      | (x, Err e) => answer x (ReplyUnit (Err e))
      | (x, Ok _) =>
          let accept := accept_make (t_nonce token) (in_name (c_instance (x_config x))) (x_peer_id x)
                          (i_key (x_store x)) in
          match peer_parse (t_peer_id token) with
          | Err e => answer x (ReplyUnit (Err ("bad inviter peer id: " +:+ e)))
          | Ok peer =>
              match addr_parse (t_addr token) with
              | Err e => answer x (ReplyUnit (Err e))
              | Ok a =>
                  let addr := addr_collect (addr_iter a ++ [P2p peer]) in
                  let name := t_name token in
                  if has_drive (c_drives (x_config x)) name
                  then answer x (ReplyUnit (Err (taken name))) else
                  match persist_config w (push_drive x (drive_config name addr None true)) with
                  | (x, Err e) => answer x (ReplyUnit (Err (config_error_text e)))
                  | (x, Ok _) =>
                      if x_engine_up x then
                        answer (note (send x (Join {| d_name := name; d_addr := addr; d_token_env := None;
                                                      d_paused := false; d_available_offline := true |} accept))
                                  "joined a vault via invite") (ReplyUnit (Ok tt))
                      else answer x (ReplyUnit (Err "channel closed"))
                  end
              end
          end
      end
  end.

(** [Ban] and [Unban]. *)
Definition cmd_ban x (peer : string) (ban : bool) : ExecResult :=
  match peer_parse peer with
  | Err e => answer x (ReplyUnit (Err ("'" +:+ peer +:+ "' is not a valid peer id: " +:+ e)))
  | Ok pid =>
      let x := put_bans x (if ban then {[peer]} ∪ x_bans x else x_bans x ∖ {[peer]}) in
      match run_fs x (save_bans (x_paths x) (x_bans x)) with
      | (x, Err e) => answer x (ReplyUnit (Err ("saving the ban list failed: " +:+ e)))
      | (x, Ok _) =>
          if x_engine_up x then
            let x := send x (if ban then Ban pid else Unban pid) in
            answer (if ban then note x "banned a peer" else x) (ReplyUnit (Ok tt))
          else answer x (ReplyUnit (Err "channel closed"))
      end
  end.

(** [execute_command]. *)
Definition execute_command w x (cmd : Command) : ExecResult :=
  match cmd with
  | CmdAddDrive name addr token_env offline => cmd_add_drive w x name addr token_env offline
  | CmdRemoveDrive name => cmd_remove_drive w x name
  | CmdPauseDrive name => cmd_pause w x name true
  | CmdResumeDrive name => cmd_pause w x name false
  | CmdResyncDrive name => cmd_resync x name
  | CmdFetchBlob blob => done_ (send x (FetchBlob blob))
  | CmdSetConfig key value => cmd_set_config w x key value
  | CmdCreateDoc name fields => cmd_create_doc w x name fields
  | CmdCreateAction name model kind payload => cmd_create_action w x name model kind payload
  | CmdPropose name model kind payload => cmd_propose w x name model kind payload
  | CmdCoSign token => cmd_cosign x token
  | CmdSubmit token => cmd_submit x token
  | CmdCreateDocModel name model payload space => cmd_create_doc_model w x name model payload space
  | CmdCreateSpace name visibility members managers => cmd_create_space w x name visibility members managers
  | CmdInvite groups => cmd_invite w x groups
  | CmdJoin invite => cmd_join w x invite
  | CmdBan peer => cmd_ban x peer true
  | CmdUnban peer => cmd_ban x peer false
  | CmdQuit => (put_stopping x true, Ok true, None)
  end.

(** ** Engine events *)

(** The grants of an accepted invite: one local action per group. *)
Definition grant_group (joiner : string) w (st : Ctx * nat * nat) (g : string) : Ctx * nat * nat :=
  let '(x, applied, i) := st in
  match run_store x (apply_local_action (w_clock w i) g (modelref_new "group" "1") "add-member"
                       (json_obj [("member", Str joiner)])) with
  | (x, Ok _) => (x, S applied, S i)
  | (x, Err _) => (x, applied, S i)
  end.
Definition on_invite_accepted w x (joiner : PeerId) (nonce : list byte) : Ctx :=
  match x_pending_invites x !! nonce with
  | None => note x ("a peer joined (" +:+ joiner +:+ ") but no invite grant was recorded for its nonce")
  | Some groups =>
      let x := put_pending_invites x (delete nonce (x_pending_invites x)) in
      let '(x, applied, _) := foldl (grant_group joiner w) (x, 0, 0) groups in
      note x ("granted " +:+ pretty applied +:+ " group(s) to " +:+ joiner +:+ " on invite join")
  end.
Definition on_drive_joined w x (name : string) (addr : Multiaddr) : Ctx :=
  if existsb (fun d => bool_decide (dr_name d = name)) (c_drives (x_config x)) then x else
  match persist_config w (push_drive x (drive_config name addr None true)) with
  | (x, Err _) => x
  | (x, Ok _) => note x ("peer " +:+ name +:+ " joined")
  end.
Definition on_auto_banned x (peer : string) : Ctx :=
  if bool_decide (peer ∈ x_bans x) then x else
  let x := put_bans x ({[peer]} ∪ x_bans x) in
  match run_fs x (save_bans (x_paths x) (x_bans x)) with
  | (x, Err _) => x
  | (x, Ok _) => note x ("auto-banned peer " +:+ peer +:+ " (repeated auth failures)")
  end.

(** [on_engine_event]. *)
Definition on_engine_event w x (ev : EngineEvent) : Ctx :=
  match ev with
  | EvChunkStored _ | EvPeerConnected _ => x
  | EvIdentity _ listen =>
      note (put_listen (put_reactor_healthy x true) (Some listen))
        ("p2p listening on " +:+ addr_display listen)
  | EvDriveStatus name status detail =>
      note (put_drive_views x (<[name := (status, detail)]> (x_drive_views x)))
        ("drive " +:+ name +:+ ": " +:+ status_str status
           +:+ match detail with Some t => " (" +:+ t +:+ ")" | None => "" end)
  | EvDocChanged name =>
      note (put_last_doc x name)
        match name with Some n => "doc updated: " +:+ n | None => "remote doc change" end
  | EvDhtBootstrap ok => note x (if ok then "dht: bootstrap complete" else "dht: bootstrap failed")
  | EvDhtProvider _ peer => note x ("dht: " +:+ peer +:+ " provides a doc")
  | EvDriveJoined name addr => on_drive_joined w x name addr
  | EvInviteAccepted peer nonce => on_invite_accepted w x peer nonce
  | EvPeerAutoBanned peer => on_auto_banned x peer
  end.

(** ** The loop *)

(** What one turn of the loop of [run_inner] receives. *)
Inductive DaemonInput :=
  | DSignal
  | DEvent (ev : EngineEvent)
  | DCommand (cmd : Command)
  | DTick.
Definition daemon_step w x (i : DaemonInput) : Ctx :=
  match i with
  | DSignal => put_stopping x true
  | DEvent ev => on_engine_event w x ev
  | DCommand cmd => (execute_command w x cmd).1.1
  | DTick => adopt_external w false x
  end.

(** The drives of the configuration announced before the loop starts. *)
Definition seed_drive x d : Ctx :=
  match drive_of d with
  | None => x
  | Some dr => send (put_engine_drives x (x_engine_drives x ++ [dr_name d])) (AddDrive dr)
  end.
Definition seed_drives x : Ctx := foldl seed_drive x (c_drives (x_config x)).

(** The context [run_inner] starts the loop with. *)
Definition ctx_new (sp : StatePaths) (config : ReactorConfig) (peer : PeerId) (s : Inner) (w : World)
    (fs : Fs) : Ctx :=
  let '(fs, bans) := load_bans sp fs in
  {| x_paths := sp; x_config := config; x_peer_id := peer; x_listen := None; x_store := s;
     x_bans := match bans with Ok b => b | Err _ => ∅ end; x_engine_up := true; x_sent := [];
     x_last_save_mtime := default 0%N (w_seen w); x_engine_drives := []; x_drive_views := ∅;
     x_reactor_healthy := false; x_last_event := None; x_last_doc := None; x_pending_invites := ∅;
     x_stopping := false; x_fs := fs |}.

(** ** Status *)

(** [group_summaries]. *)
Definition array_len (fields : option Value) (key : string) : nat :=
  match f ← fields; v ← vget f key; as_array v with Some l => length l | None => 0 end.
Definition group_summary (d : Value) : GroupSummary :=
  {| gs_name := default "" (v ← vget d "name"; as_str v);
     gs_members := array_len (vget d "fields") "members";
     gs_messages := array_len (vget d "fields") "msg_text" |}.
Definition group_summaries (s : Inner) : list GroupSummary := group_summary <$> query_docs s "group" None.

(** The entry of a drive in [refresh_status]. *)
Definition drive_entry x d : DriveStatusEntry :=
  let '(status, detail) := default (Connecting, None) (x_drive_views x !! dr_name d) in
  let status := if dr_paused d then Paused else status in
  {| ds_name := dr_name d; ds_addr := dr_addr d; ds_paused := dr_paused d;
     ds_status := status_str status; ds_detail := default "" detail |}.
Definition is_active (e : DriveStatusEntry) : bool :=
  bool_decide (ds_status e = "synced") || bool_decide (ds_status e = "connecting").

(** [refresh_status]; [version] is the crate's. *)
Definition refresh_status w x (version settings_url : string) : StatusSnapshot :=
  let drives := drive_entry x <$> c_drives (x_config x) in
  {| sn_version := version;
     sn_reactor := {| rs_running := true; rs_healthy := x_reactor_healthy x;
                      rs_peer_id := Some (x_peer_id x); rs_listen := in_listen (c_instance (x_config x));
                      rs_docs := N.of_nat (live_doc_count (x_store x));
                      rs_last_event := x_last_event x;
                      rs_active_drives := length (filter (fun e => is_active e = true) drives);
                      rs_last_doc := x_last_doc x |};
     sn_drives := drives; sn_bans := elements (x_bans x);
     sn_settings := {| ss_url := settings_url |}; sn_groups := group_summaries (x_store x);
     sn_updated_at := rfc3339 (w_secs w) |}.

(** [degraded_snapshot]. *)
Definition degraded_drive d : DriveStatusEntry :=
  {| ds_name := dr_name d; ds_addr := dr_addr d; ds_paused := dr_paused d;
     ds_status := if dr_paused d then "paused" else "offline"; ds_detail := "daemon not running" |}.
Definition degraded_snapshot (now : N) (version : string) (config : ReactorConfig)
    (settings_url : string) : StatusSnapshot :=
  let e := snapshot_empty now version (in_listen (c_instance config)) settings_url in
  let r := sn_reactor e in
  {| sn_version := sn_version e;
     sn_reactor := {| rs_running := false; rs_healthy := rs_healthy r; rs_peer_id := rs_peer_id r;
                      rs_listen := rs_listen r; rs_docs := rs_docs r;
                      rs_last_event := Some "daemon not running";
                      rs_active_drives := rs_active_drives r; rs_last_doc := rs_last_doc r |};
     sn_drives := degraded_drive <$> c_drives config; sn_bans := sn_bans e;
     sn_settings := sn_settings e; sn_groups := sn_groups e; sn_updated_at := sn_updated_at e |}.

(** ** Self-update *)

Section Updates.
Context `{!Serde Release} `{TrustStoreSerde : !Serde TrustStore} (show_hash : Hash32 -> string)
  (current_platform current : string).

(** The release a document carries, unless it is withdrawn or unreadable. *)
Definition release_of (doc : Value) : option Release :=
  if bool_decide ((f ← vget doc "fields"; v ← vget f "status"; as_str v) = Some "withdrawn") then None else
  raw ← (f ← vget doc "fields"; v ← vget f "manifest"; as_str v);
  match from_json (as_bytes raw) with Ok r => Some r | Err _ => None end.
(** Whether this node would take it. *)
Definition eligible (t : TrustStore) (r : Release) : bool :=
  is_trusted t (rl_publisher_key r) && is_ok (release_verify r) && runs_on r current_platform
  && is_newer_than r current.
Definition better (best : option Release) (r : Release) : option Release :=
  match best with
  | None => Some r
  | Some b => if bool_decide (Update.compare (rl_version r) (rl_version b) = Some Gt) then Some r else best
  end.

(** The loop of [check_for_update]. *)
Definition best_release (s : Inner) (t : TrustStore) : option Release :=
  foldl better None (filter (fun r => eligible t r = true)
                       (omap release_of (query_docs s "release" None))).

(** [check_for_update]: the commands it sends, and the files it changes. *)
Definition check_for_update (s : Inner) (blobs : BlobStore) (sp : StatePaths) (auto : bool)
    (exe : option Path) (fs : Fs) : Fs * list Command :=
  match trust_load (publishers_file sp) fs with
  | (fs, Err _) => (fs, [])
  | (fs, Ok t) =>
      match best_release s t with
      | None => (fs, [])
      | Some r =>
          if negb (bool_decide (missing blobs (rl_binary r) = []))
          then (fs, [CmdFetchBlob (rl_binary r)]) else
          if negb auto then (fs, []) else
          match exe with
          | None => (fs, [])
          | Some exe =>
              match Update.apply show_hash current_platform r blobs exe (sp_root sp) current fs with
              | (fs, Ok _) => (fs, [CmdQuit])
              | (fs, Err _) => (fs, [])
              end
          end
      end
  end.
End Updates.

(** ** The drive commands of the command line *)

(** [direct_drive_op]: on the file, with no daemon. *)
Definition direct_drive_op (sp : StatePaths) (c : ReactorConfig) (op : DriveOp) :
    fsE string ReactorConfig :=
  let store_ (c : ReactorConfig) : fsE string ReactorConfig :=
    _ ← fs_map_err config_error_text (save sp c); mret c in
  let paused name b :=
    match pause_drive name b (c_drives c) with
    | None => fs_fail (unknown_drive name)
    | Some l => store_ (with_drives c l)
    end in
  match op with
  | OpAdd name addr token_env offline =>
      match new_drive name addr with
      | Err e => fs_fail e
      | Ok (name, ma) =>
          if has_drive (c_drives c) name then fs_fail (taken name)
          else store_ (with_drives c (c_drives c ++ [drive_config name ma token_env offline]))
      end
  | OpRemove name =>
      let l := filter (fun d => same_name (dr_name d) name = false) (c_drives c) in
      if bool_decide (length l = length (c_drives c)) then fs_fail (unknown_drive name)
      else store_ (with_drives c l)
  | OpPause name => paused name true
  | OpResume name => paused name false
  | OpResync name =>
      if has_drive (c_drives c) name then mret c else fs_fail (unknown_drive name)
  end.

(** [resolve_target]: a 1-based index, or a name. *)
Definition resolve_target (c : ReactorConfig) (target : string) : result string string :=
  match parse_u64 target with
  | Some idx =>
      if (1 <=? idx)%N && (idx <=? N.of_nat (length (c_drives c)))%N
      then match c_drives c !! N.to_nat (idx - 1) with
           | Some d => Ok (dr_name d)
           | None => Err "index out of bounds"
           end
      else Err ("index " +:+ pretty idx +:+ " out of range (" +:+ pretty (length (c_drives c))
                  +:+ " drives configured)")
  | None =>
      match List.find (fun d => same_name (dr_name d) target) (c_drives c) with
      | Some d => Ok (dr_name d)
      | None => Err ("drive '" +:+ target +:+ "' not configured (see `ph-reactor drive list`)")
      end
  end.

(** [encode_path_segment]. *)
Definition unreserved (b : ascii) : bool :=
  let n := N_of_ascii b in
  ((65 <=? n) && (n <=? 90))%N || ((97 <=? n) && (n <=? 122))%N || ((48 <=? n) && (n <=? 57))%N
  || bool_decide (b ∈ ["-"; "_"; "."; "~"]%char).
Definition hex_digit (n : N) : ascii := ascii_of_N (if (n <? 10)%N then n + 48 else n + 55).
Fixpoint encode_path_segment (s : string) : string :=
  match s with
  | EmptyString => EmptyString
  | String b s =>
      if unreserved b then String b (encode_path_segment s)
      else String "%" (String (hex_digit (N_of_ascii b / 16))
                         (String (hex_digit (N_of_ascii b mod 16)) (encode_path_segment s)))
  end.

(** [api_target]: method, URL and body. *)
Definition api_target (c : ReactorConfig) (op : DriveOp) : string * string * option Value :=
  let base := "http://" +:+ st_host (c_settings c) +:+ ":" +:+ pretty (st_port (c_settings c))
                +:+ "/api/drives" in
  let at_ name tail := base +:+ "/" +:+ encode_path_segment name +:+ tail in
  match op with
  | OpAdd name addr token_env offline =>
      ("POST", base, Some (json_obj [("name", Str name); ("addr", Str addr);
                                     ("tokenEnv", opt_json token_env);
                                     ("availableOffline", Bool offline)]))
  | OpRemove name => ("DELETE", at_ name "", None)
  | OpPause name => ("POST", at_ name "/pause", None)
  | OpResume name => ("POST", at_ name "/resume", None)
  | OpResync name => ("POST", at_ name "/resync", None)
  end.
End Daemon.

(** ** Fields a handler leaves alone *)

(** A reading of the context that announcing drives does not change, and one
    that adopting and saving the configuration does not change either. *)
Class Aside `{Platform, Net} {T} (f : Ctx -> T) : Prop := {
  aside_sent : forall x v, f (put_sent x v) = f x;
  aside_drives : forall x v, f (put_engine_drives x v) = f x;
  aside_views : forall x v, f (put_drive_views x v) = f x
}.
Class Apart `{Platform, Net} {T} (f : Ctx -> T) : Prop := {
  apart_aside :: Aside f;
  apart_config : forall x v, f (put_config x v) = f x;
  apart_mtime : forall x v, f (put_last_save_mtime x v) = f x;
  apart_event : forall x v, f (put_last_event x v) = f x;
  apart_fs : forall x v, f (put_fs x v) = f x
}.

Section Frames.
Context `{Platform, Net} `{JsonText}.
Context (sip : string * string * bool * option string * string * N * string -> N).
Implicit Types (x : Ctx) (w : World).

#[export] Instance config_aside : Aside x_config.
Proof. by split. Qed.
#[export] Instance fs_aside : Aside x_fs.
Proof. by split. Qed.
#[export] Instance mtime_aside : Aside x_last_save_mtime.
Proof. by split. Qed.
#[export] Instance paths_apart : Apart x_paths.
Proof. by repeat split. Qed.
#[export] Instance store_apart : Apart x_store.
Proof. by repeat split. Qed.
#[export] Instance pending_apart : Apart x_pending_invites.
Proof. by repeat split. Qed.

Lemma fold_frame {A T} (f : Ctx -> T) (h : Ctx -> A -> Ctx) l x :
  (forall x a, f (h x a) = f x) -> f (foldl h x l) = f x.
Proof. intros Hh. revert x. induction l as [|a l IH]; intros x; [done|]. cbn [foldl]. by rewrite IH. Qed.

Section Aside.
Context {T} (f : Ctx -> T) `{!Aside f}.
Lemma send_frame x c : f (send x c) = f x.
Proof. unfold send. case_match; [apply aside_sent|done]. Qed.
Lemma sync_drives_frame x : f (sync_drives x) = f x.
Proof.
  unfold sync_drives. rewrite fold_frame by (intros; apply send_frame).
  rewrite fold_frame by (intros; unfold drop_drive; rewrite send_frame; apply aside_views).
  rewrite aside_drives. apply fold_frame. intros y d. unfold announce_drive. case_match; [done|].
  by rewrite send_frame, aside_drives.
Qed.
End Aside.

Section Apart.
Context {T} (f : Ctx -> T) `{!Apart f}.
Lemma adopt_external_frame w b x : f (adopt_external sip w b x) = f x.
Proof.
  unfold adopt_external, run_fs. case_match; [|done]. case_match; [done|].
  destruct (load_quiet _ _ _) as [fs [[c []]|e]]; cbn [fst snd].
  - by rewrite apart_mtime, apart_fs.
  - rewrite (sync_drives_frame f). destruct (negb _); unfold note;
      by rewrite ?apart_event, apart_mtime, apart_config, apart_fs.
  - apply apart_fs.
Qed.
Lemma persist_config_frame w x : f (persist_config sip w x).1 = f x.
Proof.
  unfold persist_config, run_fs. destruct (save _ _ _) as [fs []]; cbn [fst snd];
    by rewrite ?apart_mtime, apart_fs, adopt_external_frame.
Qed.
Lemma note_frame x ev : f (note x ev) = f x.
Proof. apply apart_event. Qed.
End Apart.
End Frames.
