(* ===== verification/DaemonDrives.v ===== *)
(** The engine's drives and the configured ones: what each command of the
    daemon does to the engine, and that the two stay in step. *)

From stdpp Require Import base gmap strings numbers pretty list relations.
From Stdlib Require Import Strings.Byte Strings.Ascii.
From S2P Require Import Prelude Json Doc Sample Action Model Entry Store StoreInv StoreProps Text Cosign.
From S2P Require Import Invite Blob Engine EngineProps Sync Fs ReadModel Package Update Status Config ConfigProps Daemon.

(** ** The engine's drives *)

(** What a command does to the engine's drives and their pause flags. *)
Definition told_step `{Net} (e : gmap string bool) (c : EngineCommand) : gmap string bool :=
  match c with
  | AddDrive d | Join d _ => <[d_name d := d_paused d]> e
  | RemoveDrive n => delete n e
  | SetPaused n p => match e !! n with Some _ => <[n := p]> e | None => e end
  | _ => e
  end.

Section EngineDrives.
Context `{Platform, Net}.
Implicit Type g : SyncEngine.

Definition engine_paused g : gmap string bool := (fun rt => d_paused (r_drive rt)) <$> g_drives g.

Lemma on_drive_paused g n f :
  (forall rt, r_drive (f rt) = r_drive rt) -> engine_paused (on_drive g n f) = engine_paused g.
Proof.
  intros Hf. unfold on_drive. destruct (g_drives g !! n) as [rt|] eqn:E; [|done].
  unfold engine_paused. cbn [g_drives set_drives]. rewrite fmap_insert, Hf. apply insert_id.
  by rewrite lookup_fmap, E.
Qed.
Lemma fold_paused {A} (f : SyncEngine -> A -> SyncEngine) l g :
  (forall g a, engine_paused (f g a) = engine_paused g) -> engine_paused (foldl f g l) = engine_paused g.
Proof. intros Hf. revert g. induction l as [|a l IH]; intros g; [done|]. simpl. by rewrite IH. Qed.
Lemma open_handshake_paused g n : engine_paused (open_handshake g n) = engine_paused g.
Proof.
  unfold open_handshake. destruct (g_drives g !! n); [|done]. case_match; [|done]. case_decide; [done|].
  exact (on_drive_paused g n (rt_accept None) (fun _ => eq_refl)).
Qed.

Lemma add_drive_paused g now c r d :
  engine_paused (add_drive_internal g now c r d) = <[d_name d := d_paused d]> (engine_paused g).
Proof.
  unfold add_drive_internal. set (rt := {| r_drive := d |}).
  assert (E : engine_paused (set_drives g (<[d_name d := rt]> (g_drives g))) = <[d_name d := d_paused d]> (engine_paused g)).
  { unfold engine_paused. cbn [g_drives set_drives]. by rewrite fmap_insert. }
  destruct (d_paused d) eqn:Ed; [done|]. rewrite <- E.
  destruct (bool_decide _); cbn [negb andb].
  - etransitivity; [|apply (on_drive_paused _ (d_name d) (fun rt => rt_seen now (rt_handshaken true rt)))]; done.
  - destruct (c _); [|done]. apply open_handshake_paused.
Qed.

Lemma handle_cmd_paused g now c r cmd :
  engine_paused (handle_cmd g now c r cmd) = told_step (engine_paused g) cmd.
Proof.
  destruct cmd; cbn [handle_cmd told_step]; try done.
  - apply add_drive_paused.
  - destruct (g_drives g !! name) as [rt|] eqn:E.
    + unfold engine_paused, set_status, send_event, emit. cbn [g_drives set_drives]. by rewrite fmap_delete.
    + rewrite delete_id; [done|]. unfold engine_paused. by rewrite lookup_fmap, E.
  - unfold engine_paused at 2. rewrite lookup_fmap. destruct (g_drives g !! name) as [rt|] eqn:E; [|done]. cbn.
    assert (Hs : engine_paused (on_drive g name (fun rt => rt_next now (rt_status
        (if paused then Paused else Connecting) (rt_paused paused rt)))) = <[name := paused]> (engine_paused g)).
    { unfold on_drive. rewrite E. unfold engine_paused. cbn [g_drives set_drives]. by rewrite fmap_insert. }
    by destruct paused.
  - destruct (g_drives g !! name) as [rt|]; [|done]. destruct (r_handshaken rt); [|done].
    etransitivity; [|apply (on_drive_paused g name (rt_next now))]; done.
  - set (g1 := foldl _ g peers). assert (E1 : engine_paused g1 = engine_paused g) by (by apply fold_paused).
    destruct (g_kad g1); [|done]. set (g2 := foldl _ g1 peers).
    assert (E2 : engine_paused g2 = engine_paused g1) by (by apply fold_paused).
    rewrite <- E1, <- E2. by destruct peers.
  - apply fold_paused. intros. by apply fold_paused.
  - by destruct (g_kad g).
  - by destruct (g_kad g).
  - etransitivity; [exact (on_drive_paused _ (d_name drive) (rt_accept (Some accept)) (fun _ => eq_refl))|].
    apply add_drive_paused.
Qed.

(** Commands executed one after the other. *)
Lemma engine_executes g now c r cs :
  engine_paused (foldl (fun g cmd => handle_cmd g now c r cmd) g cs) = foldl told_step (engine_paused g) cs.
Proof. revert g. induction cs as [|cmd cs IH]; intros g; [done|]. cbn [foldl]. by rewrite IH, handle_cmd_paused. Qed.
End EngineDrives.

(** The configured drives, by name. *)
Definition names (l : list DriveConfig) : list string := dr_name <$> l.
Definition drives_map (l : list DriveConfig) : gmap string bool :=
  list_to_map ((fun d => (dr_name d, dr_paused d)) <$> l).
(** No two names differ only in case. *)
Definition unique (l : list DriveConfig) : Prop := NoDup (lower <$> names l).

Lemma drives_map_None l n : drives_map l !! n = None <-> n ∉ names l.
Proof.
  unfold drives_map. rewrite <- not_elem_of_list_to_map. by rewrite <- list_fmap_compose.
Qed.
Lemma drives_map_dom l n : n ∈ names l <-> is_Some (drives_map l !! n).
Proof.
  pose proof (drives_map_None l n) as Hn. destruct (drives_map l !! n) as [b|].
  - split; [done|]. intros _. destruct (decide (n ∈ names l)) as [?|Hin]; [done|]. by apply Hn in Hin.
  - split; [by intros ?%Hn|by intros []].
Qed.
Lemma drives_map_cons d l : drives_map (d :: l) = <[dr_name d := dr_paused d]> (drives_map l).
Proof. done. Qed.
Lemma drives_map_snoc l d : dr_name d ∉ names l ->
  drives_map (l ++ [d]) = <[dr_name d := dr_paused d]> (drives_map l).
Proof.
  induction l as [|a l IH]; [done|]. intros Hn. cbn [app]. rewrite !drives_map_cons.
  unfold names in Hn. cbn in Hn. apply not_elem_of_cons in Hn as [Hne Hn].
  rewrite IH by done. apply insert_insert_ne. by apply not_eq_sym.
Qed.
Lemma unique_names l : unique l -> NoDup (names l).
Proof. apply NoDup_fmap_1. Qed.

(** Flags pushed for every drive, where the engine has exactly those. *)
Lemma flags_pushed `{Net} l (e : gmap string bool) n :
  NoDup (names l) ->
  foldl told_step e ((fun d => SetPaused (dr_name d) (dr_paused d)) <$> l) !! n =
  match drives_map l !! n with Some p => (fun _ => p) <$> e !! n | None => e !! n end.
Proof.
  intros Hnd. revert e. induction l as [|d l IH]; intros e; [done|]. cbn [fmap list_fmap foldl].
  unfold names in Hnd. cbn in Hnd. apply NoDup_cons in Hnd as [Hd Hnd]. rewrite IH by done.
  rewrite drives_map_cons. destruct (decide (n = dr_name d)) as [->|Hne].
  - rewrite lookup_insert_eq. replace (drives_map l !! dr_name d) with (@None bool)
      by (symmetry; by apply drives_map_None).
    cbn [told_step]. destruct (e !! dr_name d) eqn:E; [by rewrite lookup_insert_eq|by rewrite E].
  - rewrite lookup_insert_ne by done. cbn [told_step].
    destruct (e !! dr_name d); [by rewrite lookup_insert_ne|done].
Qed.

(** What a handler tells the engine. *)
Section Told.
Context `{Platform, Net}.
Implicit Types (x : Ctx) (e : gmap string bool).

Definition tells e x e' x' : Prop :=
  exists cs, x_sent x' = x_sent x ++ cs /\ foldl told_step e cs = e'.

Lemma tells_same e x x' : x_sent x' = x_sent x -> tells e x e x'.
Proof. intros E. exists []. by rewrite app_nil_r. Qed.
Lemma tells_trans e x e1 x1 e2 x2 : tells e x e1 x1 -> tells e1 x1 e2 x2 -> tells e x e2 x2.
Proof.
  intros (l1 & E1 & F1) (l2 & E2 & F2). exists (l1 ++ l2). by rewrite E2, E1, app_assoc, foldl_app, F1.
Qed.
Lemma tells_send e x c : x_engine_up x = true -> tells e x (told_step e c) (send x c).
Proof. intros E. exists [c]. unfold send. by rewrite E. Qed.
Lemma send_parts x c :
  x_engine_up (send x c) = x_engine_up x /\ x_config (send x c) = x_config x /\
  x_engine_drives (send x c) = x_engine_drives x.
Proof. unfold send. by destruct (x_engine_up x) eqn:E; cbn; rewrite ?E. Qed.

(** Sends of a list of commands. *)
Lemma tells_sends {A} (f : A -> EngineCommand) l e x :
  x_engine_up x = true ->
  let x' := foldl (fun x a => send x (f a)) x l in
  tells e x (foldl told_step e (f <$> l)) x' /\ x_engine_up x' = true /\
  x_config x' = x_config x /\ x_engine_drives x' = x_engine_drives x.
Proof.
  cbn zeta. revert e x. induction l as [|a l IH]; intros e x Hu; [split; [by apply tells_same|done]|].
  cbn [foldl fmap list_fmap]. destruct (send_parts x (f a)) as (P1 & P2 & P3).
  destruct (IH (told_step e (f a)) (send x (f a))) as (T & U & C & D); [by rewrite P1|].
  split; [by eapply tells_trans; [apply tells_send|]|]. by rewrite U, C, D, P2, P3.
Qed.

(** The first phase of [sync_drives]: every wanted drive is there. *)
Lemma announced_drives l e x :
  x_engine_up x = true -> (forall n, n ∈ x_engine_drives x <-> is_Some (e !! n)) ->
  let x' := foldl announce_drive x l in
  exists e', tells e x e' x' /\ x_engine_up x' = true /\ x_config x' = x_config x /\
    (forall n, n ∈ x_engine_drives x' <-> is_Some (e' !! n)) /\
    (forall n, n ∈ x_engine_drives x' <-> n ∈ x_engine_drives x \/ n ∈ d_name <$> l).
Proof.
  cbn zeta. revert e x. induction l as [|d l IH]; intros e x Hu Hd; cbn [foldl].
  { exists e. split_and!; try done; [by apply tells_same|]. intros n. cbn. rewrite elem_of_nil. tauto. }
  destruct (contains (x_engine_drives x) (d_name d)) eqn:Ec.
  - replace (announce_drive x d) with x by (unfold announce_drive; by rewrite Ec).
    apply contains_true in Ec. destruct (IH e x Hu Hd) as (e' & T & U & C & D & M). exists e'.
    split_and!; try done. intros n. rewrite M. cbn. rewrite elem_of_cons.
    split; [tauto|]. intros [?|[->|?]]; tauto.
  - set (x1 := put_engine_drives x (x_engine_drives x ++ [d_name d])).
    replace (announce_drive x d) with (send x1 (AddDrive d)) by (unfold announce_drive; by rewrite Ec).
    destruct (send_parts x1 (AddDrive d)) as (P1 & P2 & P3).
    assert (Hd1 : forall n, n ∈ x_engine_drives (send x1 (AddDrive d)) <-> is_Some (<[d_name d := d_paused d]> e !! n)).
    { intros n. rewrite P3. cbn. rewrite elem_of_app, Hd, list_elem_of_singleton.
      destruct (decide (n = d_name d)) as [->|]; [rewrite lookup_insert_eq; split; [done|by right]|].
      rewrite lookup_insert_ne by done. split; [by intros [?|?]|by left]. }
    destruct (IH _ _ ltac:(by rewrite P1) Hd1) as (e' & T & U & C & D & M). exists e'.
    split_and!; try done; [|by rewrite C, P2|].
    + eapply tells_trans; [|exact T]. by apply (tells_send e x1 (AddDrive d)).
    + intros n. rewrite M, P3. cbn. rewrite elem_of_app, list_elem_of_singleton, elem_of_cons. tauto.
Qed.

(** The second: stale drives go. *)
Lemma dropped_drives l e x :
  x_engine_up x = true ->
  let x' := foldl drop_drive x l in
  exists e', tells e x e' x' /\ x_engine_up x' = true /\ x_config x' = x_config x /\
    x_engine_drives x' = x_engine_drives x /\
    forall n, e' !! n = if decide (n ∈ l) then None else e !! n.
Proof.
  cbn zeta. revert e x. induction l as [|d l IH]; intros e x Hu; cbn [foldl].
  { exists e. split_and!; try done. by apply tells_same. }
  set (x1 := put_drive_views x (delete d (x_drive_views x))).
  change (drop_drive x d) with (send x1 (RemoveDrive d)).
  destruct (send_parts x1 (RemoveDrive d)) as (P1 & P2 & P3).
  destruct (IH (delete d e) (send x1 (RemoveDrive d)) ltac:(by rewrite P1)) as (e' & T & U & C & D & M).
  exists e'. split_and!; [|done|by rewrite C, P2|by rewrite D, P3|].
  - eapply tells_trans; [|exact T]. by apply (tells_send e x1 (RemoveDrive d)).
  - intros n. rewrite M. destruct (decide (n = d)) as [->|Hne].
    + rewrite (decide_True _ _ (list_elem_of_here d l)), lookup_delete_eq. by case_decide.
    + rewrite lookup_delete_ne by done. apply decide_ext. rewrite elem_of_cons. tauto.
Qed.

Lemma omap_drive_of l :
  Forall (fun d => is_ok (addr_parse (dr_addr d)) = true) l -> d_name <$> omap drive_of l = names l.
Proof.
  induction 1 as [|d l Hd _ IH]; [done|]. unfold names. cbn [fmap list_fmap].
  change (omap drive_of (d :: l)) with
    (match drive_of d with Some y => y :: omap drive_of l | None => omap drive_of l end).
  unfold drive_of at 1. destruct (addr_parse (dr_addr d)); [|done]. cbn [fmap list_fmap]. by rewrite IH.
Qed.

(** The drives the engine holds become the configured ones. *)
Lemma sync_drives_told e x :
  x_engine_up x = true -> (forall n, n ∈ x_engine_drives x <-> is_Some (e !! n)) ->
  Forall (fun d => is_ok (addr_parse (dr_addr d)) = true) (c_drives (x_config x)) ->
  NoDup (names (c_drives (x_config x))) ->
  let x' := sync_drives x in
  tells e x (drives_map (c_drives (x_config x))) x' /\ x_engine_up x' = true /\
  x_config x' = x_config x /\
  forall n, n ∈ x_engine_drives x' <-> n ∈ names (c_drives (x_config x)).
Proof.
  cbn zeta. intros Hu Hd Hp Hnd. unfold sync_drives. rewrite omap_drive_of by done.
  destruct (announced_drives (omap drive_of (c_drives (x_config x))) e x Hu Hd)
    as (e1 & T1 & U1 & C1 & D1 & M1). rewrite omap_drive_of in M1 by done.
  set (x1 := foldl announce_drive x _) in *. set (l := c_drives (x_config x)) in *.
  set (x1' := put_engine_drives x1 (filter (fun n => n ∈ names l) (x_engine_drives x1))).
  destruct (dropped_drives (filter (fun n => n ∉ names l) (x_engine_drives x1)) e1 x1' U1)
    as (e2 & T2 & U2 & C2 & D2 & M2). set (x2 := foldl drop_drive x1' _) in *.
  assert (El : c_drives (x_config x2) = l) by (rewrite C2; cbn; by rewrite C1). rewrite El.
  destruct (tells_sends (fun d => SetPaused (dr_name d) (dr_paused d)) l e2 x2 U2) as (T3 & U3 & C3 & D3).
  assert (Hdom : forall n, is_Some (e2 !! n) <-> n ∈ names l).
  { intros n. rewrite M2. case_decide as Hst; rewrite list_elem_of_filter in Hst.
    - split; [by intros []|]. tauto.
    - rewrite <- D1. destruct (decide (n ∈ names l)) as [Hin|Hin]; [|tauto]. split; [done|].
      intros _. apply M1. by right. }
  split_and!.
  - eapply tells_trans; [exact T1|]. eapply tells_trans; [exact T2|].
    replace (drives_map l) with (foldl told_step e2 ((fun d => SetPaused (dr_name d) (dr_paused d)) <$> l));
      [exact T3|]. apply map_eq. intros n. rewrite flags_pushed by done.
    destruct (drives_map l !! n) eqn:En.
    + assert (Hin : n ∈ names l) by (apply drives_map_dom; by rewrite En).
      apply Hdom in Hin as [y ->]. done.
    + apply drives_map_None in En. destruct (e2 !! n) eqn:Ey; [|done]. destruct En. apply Hdom. by exists b.
  - exact U3.
  - unfold push_paused. rewrite C3, C2. exact C1.
  - intros n. unfold push_paused. rewrite D3, D2. cbn. rewrite list_elem_of_filter.
    split; [tauto|]. intros Hin. split; [done|]. apply M1. by right.
Qed.
End Told.

(** ** Drives in step *)

(** The law of the text of a multiaddr. *)
Class NetTextLaws `{NetText} := {
  addr_text_roundtrip : forall a, addr_parse (addr_display a) = Ok a
}.

Section InStep.
Context `{Platform, Net} `{!NetText} `{!NetTextLaws} `{JsonText} `{Base64} `{!Serde Action}
  `{!Serde InviteToken} `{!Serde (list string)} `{Uuid}.
Context (sip : string * string * bool * option string * string * N * string -> N).
Implicit Types (x : Ctx) (w : World).

Local Abbreviation drives x := (c_drives (x_config x)).

(** The daemon's side: the engine runs, its list of announced drives is the
    configured one, and the configured drives are well-formed. *)
Record in_step x : Prop := {
  is_up : x_engine_up x = true;
  is_root : exists r, x_paths x = for_root r;
  is_names : forall n, n ∈ x_engine_drives x <-> n ∈ names (drives x);
  is_unique : unique (drives x);
  is_parsed : Forall (fun d => is_ok (addr_parse (dr_addr d)) = true) (drives x)
}.

(** No edit of the file is waiting to be adopted. *)
Definition quiet w x : Prop := forall t, w_seen w = Some t -> (t <= x_last_save_mtime x)%N.

(** What is asked of an input: a command comes when no edit is waiting, names
    the drive it pauses exactly, a joined peer brings a new name, and an edited
    file has no two drives whose names differ only in case. *)
Definition orderly w x (i : DaemonInput) : Prop :=
  match i with
  | DCommand (CmdPauseDrive n | CmdResumeDrive n) => quiet w x /\ n ∈ names (drives x)
  | DCommand _ => quiet w x
  | DEvent (EvDriveJoined n _) => quiet w x /\ has_drive (drives x) n = false
  | DTick => forall c, (load_quiet (x_paths x) (w_secs w) (x_fs x)).2 = Ok (c, false) -> unique (c_drives c)
  | _ => True
  end.

(** A joined peer's drive is in the engine before the daemon hears of it. *)
Definition joined (i : DaemonInput) (e : gmap string bool) : gmap string bool :=
  match i with DEvent (EvDriveJoined n _) => <[n := false]> e | _ => e end.

(** A handler that does not concern the drives. *)
Record keeps x x' : Prop := {
  kp_up : x_engine_up x' = x_engine_up x;
  kp_paths : x_paths x' = x_paths x;
  kp_drives : drives x' = drives x;
  kp_engine : x_engine_drives x' = x_engine_drives x
}.
Lemma keeps_step x x' : keeps x x' -> in_step x -> in_step x'.
Proof. intros [E1 E2 E3 E4] [S1 S2 S3 S4 S5]. by split; rewrite ?E1, ?E2, ?E3, ?E4. Qed.

(** What the theorem says of one step. *)
Definition follows x x' e : Prop :=
  in_step x' /\ tells e x (drives_map (drives x')) x'.

Lemma follows_same x x' :
  in_step x -> keeps x x' -> x_sent x' = x_sent x -> follows x x' (drives_map (drives x)).
Proof.
  intros Hs Hk E. split; [by eapply keeps_step|]. destruct Hk as [_ _ -> _]. by apply tells_same.
Qed.

(** Saving, with no edit waiting and nothing failing. *)
Lemma persist_quiet w x :
  quiet w x -> calm_fs (x_fs x) -> (exists r, x_paths x = for_root r) ->
  exists x', persist_config sip w x = (x', Ok tt) /\ keeps x x' /\ x_sent x' = x_sent x.
Proof.
  intros Hq Hc [r Hr]. unfold persist_config.
  assert (Ea : adopt_external sip w true x = x).
  { unfold adopt_external. destruct (w_seen w) as [t|] eqn:Et; [|done].
    by rewrite (proj2 (N.leb_le _ _)) by (by apply Hq). }
  rewrite Ea, Hr. unfold run_fs, save. rewrite fs_run_bind.
  destruct (x_fs x) as [m sched]. unfold calm_fs in Hc. cbn in Hc. subst sched.
  unfold fs_map_err. rewrite atomic_write_calm by (cbn; unfold join; by destruct r).
  eexists. split; [reflexivity|]. by split.
Qed.

(** Names, compared without case. *)
Lemma same_name_spec a b : same_name a b = true <-> lower a = lower b.
Proof. apply bool_decide_eq_true. Qed.
Lemma has_drive_spec l n : has_drive l n = true <-> lower n ∈ lower <$> names l.
Proof.
  unfold has_drive. rewrite existsb_exists. unfold names. rewrite <- list_fmap_compose, list_elem_of_fmap.
  split; intros (d & E & Hd).
  - exists d. split; [by apply same_name_spec in Hd|by apply list_elem_of_In].
  - exists d. split; [by apply list_elem_of_In|by apply same_name_spec].
Qed.

Lemma push_unique l d : unique l -> has_drive l (dr_name d) = false -> unique (l ++ [d]) /\ dr_name d ∉ names l.
Proof.
  intros Hu Hn. assert (Hl : lower (dr_name d) ∉ lower <$> names l).
  { intros Hin%has_drive_spec. congruence. }
  split; [|intros Hin; apply Hl; by apply list_elem_of_fmap_2].
  unfold unique, names. rewrite !fmap_app. apply NoDup_app. split; [done|]. split; [|apply NoDup_singleton].
  intros y Hy Hin. cbn in Hin. apply list_elem_of_singleton in Hin as ->. by apply Hl.
Qed.

(** A drive that is pushed, saved and announced. *)
Lemma push_follows w x d c :
  in_step x -> quiet w x -> calm_fs (x_fs x) -> has_drive (drives x) (dr_name d) = false ->
  is_ok (addr_parse (dr_addr d)) = true ->
  (forall e, told_step e c = <[dr_name d := dr_paused d]> e) ->
  exists x', persist_config sip w (push_drive x d) = (x', Ok tt) /\ in_step x' /\ x_sent x' = x_sent x /\
    drives_map (drives x') = <[dr_name d := dr_paused d]> (drives_map (drives x)) /\
    follows x (send x' c) (drives_map (drives x)).
Proof.
  intros [S1 S2 S3 S4 S5] Hq Hc Hn Hp Ht.
  destruct (push_unique _ _ S4 Hn) as [Hu Hnn].
  destruct (persist_quiet w (push_drive x d)) as (x' & -> & [K1 K2 K3 K4] & Es); [done|done|done|].
  cbn [x_engine_up x_paths x_config x_engine_drives x_sent push_drive put_engine_drives put_config
       with_drives c_drives] in *.
  assert (Hs : in_step x').
  { split; rewrite ?K1, ?K2, ?K3, ?K4; try done.
    - intros n. unfold names. rewrite fmap_app, !elem_of_app, S3. by cbn.
    - apply Forall_app. split; [done|]. by constructor. }
  exists x'. split_and!; [done|done|done|by rewrite K3, drives_map_snoc|].
  destruct (send_parts x' c) as (P1 & P2 & P3).
  split; [|].
  - eapply keeps_step; [|exact Hs]. split; rewrite ?P1, ?P2, ?P3; try done. unfold send. by case_match.
  - eapply tells_trans; [by apply tells_same|].
    replace (drives_map (drives (send x' c))) with (told_step (drives_map (drives x)) c);
      [by apply tells_send; rewrite K1|]. by rewrite Ht, P2, K3, drives_map_snoc.
Qed.

(** The lists the drive commands compute. *)
Lemma remove_drive_spec name l l' :
  unique l -> remove_drive name l = Some l' ->
  l' `sublist_of` l /\ forall n, drives_map l' !! n = if same_name n name then None else drives_map l !! n.
Proof.
  revert l'. induction l as [|d l IH]; intros l' Hu; [done|]. cbn [remove_drive].
  unfold unique, names in Hu. cbn [fmap list_fmap] in Hu. apply NoDup_cons in Hu as [Hd Hu].
  destruct (same_name (dr_name d) name) eqn:Es.
  - intros [= <-]. apply same_name_spec in Es. split; [by constructor|]. intros n. rewrite drives_map_cons.
    destruct (same_name n name) eqn:En.
    + apply same_name_spec in En. apply drives_map_None. intros Hin. apply Hd. rewrite Es, <- En.
      by apply list_elem_of_fmap_2.
    + rewrite lookup_insert_ne; [done|]. intros <-. apply same_name_spec in Es. congruence.
  - destruct (remove_drive name l) as [l1|] eqn:El; [|done]. cbn. intros [= <-].
    destruct (IH l1 Hu eq_refl) as [Hsub Hm]. split; [by constructor|]. intros n. rewrite !drives_map_cons.
    destruct (decide (n = dr_name d)) as [->|]; [by rewrite !lookup_insert_eq, Es|].
    by rewrite !lookup_insert_ne.
Qed.
Lemma removed_told (l : list string) (e : gmap string bool) n :
  foldl told_step e (RemoveDrive <$> l) !! n = if decide (n ∈ l) then None else e !! n.
Proof.
  revert e. induction l as [|a l IH]; intros e; [done|]. cbn [fmap list_fmap foldl told_step]. rewrite IH.
  destruct (decide (n = a)) as [->|Hne].
  - rewrite (decide_True _ _ (list_elem_of_here a l)), lookup_delete_eq. by case_decide.
  - rewrite lookup_delete_ne by done. apply decide_ext. rewrite elem_of_cons. tauto.
Qed.
Lemma pause_drive_spec name b l :
  unique l -> name ∈ names l -> exists l', pause_drive name b l = Some l' /\ names l' = names l /\
    (dr_addr <$> l' = dr_addr <$> l) /\ drives_map l' = <[name := b]> (drives_map l).
Proof.
  induction l as [|d l IH]; intros Hu Hin; [by apply elem_of_nil in Hin|]. cbn [pause_drive].
  unfold unique, names in Hu. cbn [fmap list_fmap] in Hu. apply NoDup_cons in Hu as [Hd Hu].
  unfold names in Hin. cbn [fmap list_fmap] in Hin. destruct (same_name (dr_name d) name) eqn:Es.
  - apply same_name_spec in Es. assert (E : dr_name d = name).
    { apply elem_of_cons in Hin as [->|Hin]; [done|]. destruct Hd. rewrite Es. by apply list_elem_of_fmap_2. }
    eexists. split; [reflexivity|]. split_and!; [done|done|]. rewrite !drives_map_cons. cbn.
    by rewrite E, insert_insert_eq.
  - assert (Hne : name <> dr_name d).
    { intros ->. by rewrite (proj2 (same_name_spec _ _) eq_refl) in Es. }
    apply elem_of_cons in Hin as [->|Hin]; [done|]. destruct (IH Hu Hin) as (l' & -> & En & Ea & Em). cbn.
    eexists. split; [reflexivity|]. unfold names in *. cbn [fmap list_fmap].
    split_and!; [by f_equal|by f_equal|]. rewrite !drives_map_cons, Em. by apply insert_insert_ne.
Qed.
Lemma set_keeps_drives c key value : c_drives (set c key value).1 = c_drives c.
Proof.
  unfold set. destruct (set_key c key value) as [c'|] eqn:E; [|done]. cbn [fst]. unfold set_key in E.
  repeat case_decide;
    try (match type of E with (?r ≫= _) = _ => destruct r; [|done] end; by injection E as <-). done.
Qed.
Lemma validate_drives_parsed l :
  validate_drives l = Ok tt -> Forall (fun d => is_ok (addr_parse (dr_addr d)) = true) l.
Proof.
  induction l as [|d l IH]; [constructor|]. cbn [validate_drives]. destruct (blank _); [done|].
  destruct (addr_parse (dr_addr d)) eqn:E; [|done]. intros Hl. constructor; [by rewrite E|by apply IH].
Qed.
Lemma load_quiet_valid sp ts s c :
  (load_quiet sp ts s).2 = Ok (c, false) -> validate c = Ok tt.
Proof.
  unfold load_quiet. rewrite fs_run_bind. unfold fs_try. cbn [fst snd].
  assert (Hw : forall t, (write_defaults (config_file sp) t).2 <> Ok (c, false)).
  { intros t. unfold write_defaults. rewrite fs_run_bind. destruct (fs_map_err _ _ t) as [t1 [[]|]]; done. }
  destruct (fs_read_to_string _ s) as [s1 [raw|e]]; cbn [fst snd].
  - destruct (json_parse raw ≫= config_of_json) as [c'|].
    + destruct (validate c') as [[]|] eqn:Ev; [|done]. cbn. by intros [= <-].
    + rewrite fs_run_bind. cbn [quarantine fs_ignore fst snd]. intros E. by destruct (Hw _ E).
  - case_match; [|done]. intros E. by destruct (Hw _ E).
Qed.
(** What a load that wrote the defaults returns. *)
Lemma load_new_default sp ts s c : (load_quiet sp ts s).2 = Ok (c, true) -> c = default_config.
Proof.
  unfold load_quiet. rewrite fs_run_bind. unfold fs_try. cbn [fst snd].
  assert (Hw : forall t, (write_defaults (config_file sp) t).2 = Ok (c, true) -> c = default_config).
  { intros t. unfold write_defaults. rewrite fs_run_bind. destruct (fs_map_err _ _ t) as [t1 [[]|]]; [|done].
    cbn. by intros [= <-]. }
  destruct (fs_read_to_string _ s) as [s1 [raw|e]]; cbn [fst snd].
  - destruct (json_parse raw ≫= config_of_json) as [c'|]; [by destruct (validate c') as [[]|]|].
    rewrite fs_run_bind. cbn [quarantine fs_ignore fst snd]. apply Hw.
  - case_match; [apply Hw|done].
Qed.

Lemma remove_follows w x name :
  in_step x -> quiet w x -> calm_fs (x_fs x) ->
  follows x (cmd_remove_drive sip w x name).1.1 (drives_map (drives x)).
Proof.
  intros [S1 S2 S3 S4 S5] Hq Hc. unfold cmd_remove_drive.
  destruct (remove_drive name (drives x)) as [l|] eqn:El; [|by apply follows_same].
  destruct (remove_drive_spec name _ l S4 El) as [Hsub Hm].
  set (x1 := put_config x (with_drives (x_config x) l)).
  set (gone := filter (fun n => same_name n name = true) (x_engine_drives x1)).
  set (x2 := put_engine_drives x1 (filter (fun n => same_name n name = false) (x_engine_drives x1))).
  destruct (tells_sends RemoveDrive gone (drives_map (drives x)) x2 S1) as (T & U & C & D).
  set (x3 := foldl (fun x n => send x (RemoveDrive n)) x2 gone) in *.
  assert (Efs : forall l y, x_fs (foldl (fun x n => send x (RemoveDrive n)) y l) = x_fs y /\
             x_paths (foldl (fun x n => send x (RemoveDrive n)) y l) = x_paths y /\
             x_last_save_mtime (foldl (fun x n => send x (RemoveDrive n)) y l) = x_last_save_mtime y).
  { clear. induction l as [|a l IH]; intros y; [done|]. cbn [foldl].
    destruct (IH (send y (RemoveDrive a))) as (-> & -> & ->). unfold send. by case_match. }
  destruct (Efs gone x2) as (F1 & F2 & F3). fold x3 in F1, F2, F3. clearbody x3.
  set (x4 := put_drive_views x3 (delete name (x_drive_views x3))).
  destruct (persist_quiet w x4) as (x' & -> & [K1 K2 K3 K4] & Es).
  { intros t Ht. unfold x4. cbn. rewrite F3. by apply Hq. } { unfold x4. cbn. by rewrite F1. } { unfold x4. cbn. by rewrite F2. }
  cbn [fst done_ note]. cbn [x_engine_up x_paths x_config x_engine_drives x_sent put_drive_views x4] in *.
  assert (El' : drives x' = l) by (by rewrite K3, C).
  assert (Hn : forall n, n ∈ names l <-> n ∈ names (drives x) /\ same_name n name = false).
  { intros n. rewrite !drives_map_dom, Hm. destruct (same_name n name).
    - split; [by intros []|by intros [_ [=]]].
    - split; [done|by intros []]. }
  split.
  - split; cbn [x_engine_up x_paths x_config x_engine_drives note put_last_event]; rewrite ?El'.
    + by rewrite K1.
    + by rewrite K2, F2.
    + intros n. rewrite K4, D. cbn [x_engine_drives put_engine_drives x2]. rewrite list_elem_of_filter, Hn.
      cbn [x_engine_drives put_config x1]. rewrite S3. tauto.
    + unfold unique, names. eapply sublist_NoDup; [exact S4|]. by do 2 apply fmap_sublist.
    + rewrite Forall_forall in *. intros d Hd. apply S5. eapply elem_of_submseteq; [exact Hd|]. by apply sublist_submseteq.
  - cbn [x_config note put_last_event]. rewrite El'. destruct T as (cs & E1 & E2). exists cs.
    cbn [x_sent note put_last_event]. split; [by rewrite Es|].
    rewrite E2. apply map_eq. intros n. rewrite removed_told, Hm. unfold gone.
    case_decide as Hg; rewrite list_elem_of_filter in Hg.
    + destruct Hg as [-> _]. done.
    + destruct (same_name n name) eqn:En; [|done]. apply drives_map_None. intros Hin. apply Hg.
      split; [done|]. by apply S3.
Qed.

Lemma pause_follows w x name b :
  in_step x -> quiet w x -> calm_fs (x_fs x) -> name ∈ names (drives x) ->
  follows x (cmd_pause sip w x name b).1.1 (drives_map (drives x)).
Proof.
  intros [S1 S2 S3 S4 S5] Hq Hc Hin. unfold cmd_pause.
  destruct (pause_drive_spec name b _ S4 Hin) as (l & -> & En & Ea & Em).
  destruct (persist_quiet w (put_config x (with_drives (x_config x) l))) as (x' & -> & [K1 K2 K3 K4] & Es);
    [done|done|done|]. cbn in K1, K2, K3, K4, Es. cbn [fst done_ note].
  destruct (send_parts x' (SetPaused name b)) as (P1 & P2 & P3). split.
  - split; cbn; rewrite ?P1, ?P2, ?P3, ?K1, ?K3, ?K4; try done.
    + unfold send. rewrite K1, S1. cbn. by rewrite K2.
    + by rewrite En.
    + unfold unique. by rewrite En.
    + assert (F : Forall (fun a => is_ok (addr_parse a) = true) (dr_addr <$> l)).
      { rewrite Ea. by apply Forall_fmap. }
      by apply Forall_fmap in F.
  - eapply tells_trans; [by apply tells_same|]. cbn. rewrite P2, K3, Em.
    replace (<[name := b]> (drives_map (drives x))) with (told_step (drives_map (drives x)) (SetPaused name b)).
    + apply (tells_send _ x' (SetPaused name b)). by rewrite K1.
    + cbn [told_step]. destruct (drives_map (drives x) !! name) eqn:E; [done|]. by apply drives_map_None in E.
Qed.

Lemma tick_follows w x :
  in_step x ->
  (forall c, (load_quiet (x_paths x) (w_secs w) (x_fs x)).2 = Ok (c, false) -> unique (c_drives c)) ->
  follows x (adopt_external sip w false x) (drives_map (drives x)).
Proof.
  intros Hs Hu. unfold adopt_external, run_fs. destruct (w_seen w) as [t|]; [|by apply follows_same].
  destruct (t <=? _)%N; [by apply follows_same|]. pose proof (load_quiet_valid (x_paths x) (w_secs w) (x_fs x)) as Hv.
  destruct (load_quiet _ _ _) as [fs [[c []]|e]]; cbn [fst snd] in *; [by apply follows_same| |by apply follows_same].
  specialize (Hv c eq_refl). apply validate_ok in Hv as (_ & _ & Hv%validate_drives_parsed & _).
  specialize (Hu c eq_refl). destruct Hs as [S1 S2 S3 S4 S5].
  set (x1 := if negb _ then _ else _).
  assert (E : x_config x1 = c /\ x_engine_drives x1 = x_engine_drives x /\ x_engine_up x1 = x_engine_up x /\
              x_sent x1 = x_sent x /\ x_paths x1 = x_paths x) by (unfold x1; by destruct (negb _)).
  clearbody x1. destruct E as (E1 & E2 & E3 & E4 & E5).
  destruct (sync_drives_told (drives_map (drives x)) x1) as (T & U & C & D); rewrite ?E1, ?E2, ?E3; try done.
  { intros n. by rewrite S3, drives_map_dom. }
  { by apply unique_names. }
  pose proof (sync_drives_frame x_paths x1) as Ep.
  split.
  - rewrite E1 in D. by split; rewrite ?C, ?E1, ?Ep, ?E5.
  - rewrite C, E1. rewrite E1 in T. eapply tells_trans; [|exact T]. by apply tells_same.
Qed.

Lemma follows_note x y ev e : follows x y e -> follows x (note y ev) e.
Proof. intros [[S1 S2 S3 S4 S5] T]. split; [by split|exact T]. Qed.

(** A command that does not concern the drives. *)
Lemma send_follows x y c :
  in_step x -> keeps x y -> x_sent y = x_sent x -> (forall e, told_step e c = e) ->
  follows x (send y c) (drives_map (drives x)).
Proof.
  intros Hs Hk Es Hc. destruct (send_parts y c) as (P1 & P2 & P3). split.
  - eapply keeps_step; [|exact Hs]. destruct Hk as [K1 K2 K3 K4].
    split; rewrite ?P1, ?P2, ?P3; try done. unfold send. by case_match.
  - destruct Hk as [K1 K2 K3 K4]. rewrite P2, K3. eapply tells_trans; [by apply (tells_same _ x y)|].
    rewrite <- (Hc (drives_map (drives x))) at 2. apply tells_send. rewrite K1. by destruct Hs.
Qed.

Lemma command_follows w x cmd :
  in_step x -> orderly w x (DCommand cmd) -> calm_fs (x_fs x) ->
  follows x (execute_command sip w x cmd).1.1 (drives_map (drives x)).
Proof.
  intros Hs Ho Hc. destruct cmd; cbn [execute_command orderly] in *.
  - unfold cmd_add_drive. destruct (new_drive name addr) as [[n ma]|]; [|by apply follows_same].
    destruct (has_drive _ n) eqn:Eh; [by apply follows_same|].
    destruct (push_follows w x (drive_config n ma token_env offline)
      (AddDrive {| d_name := n; d_addr := ma; d_token_env := token_env; d_paused := false;
                   d_available_offline := offline |})) as (x' & -> & _ & _ & _ & F); try done.
    { cbn. by rewrite addr_text_roundtrip. }
    by apply follows_note.
  - by apply remove_follows.
  - by apply pause_follows; tauto.
  - by apply pause_follows; tauto.
  - unfold cmd_resync. destruct (has_drive _ _); [|by apply follows_same]. by apply follows_note, send_follows.
  - unfold cmd_create_doc, run_store. destruct (create_doc _ _ _ _ _) as [s []]; by apply follows_same.
  - unfold cmd_create_action, run_store. destruct (modelref_parse model); [|by apply follows_same].
    destruct (apply_local_action _ _ _ _ _ _) as [s []]; by apply follows_same.
  - unfold cmd_propose, run_store. destruct (modelref_parse model); [|by apply follows_same].
    destruct (build_local_action _ _ _ _ _ _) as [s []]; by apply follows_same.
  - by apply follows_same.
  - unfold cmd_submit, run_store. destruct (decode _ _); [|by apply follows_same].
    destruct (apply_signed_action _ _) as [s []]; by apply follows_same.
  - unfold cmd_create_doc_model, run_store.
    destruct (mr ← modelref_parse model; _) as [[mr sp]|]; [|by apply follows_same].
    destruct (create_doc_in_space _ _ _ _ _ _ _) as [s []]; by apply follows_same.
  - unfold cmd_create_space, run_store. destruct (create_space_at _ _ _ _ _ _) as [s []]; by apply follows_same.
  - unfold cmd_invite. destruct (pick_invite_addr _ _); [|by apply follows_same].
    destruct (token_make _ _ _ _ _ _); by apply follows_same.
  - unfold cmd_join, run_store. destruct (token_decode invite) as [t|]; [|by apply follows_same].
    destruct (register_peer_key _ _ _) as [s [u|e]]; cbn [fst snd]; [|by apply follows_same].
    destruct (peer_parse _) as [p|]; [|by apply follows_same].
    destruct (addr_parse _) as [a|]; [|by apply follows_same].
    set (x0 := put_store x s). destruct (has_drive _ _) eqn:Eh; [by apply follows_same|].
    assert (Hs0 : in_step x0) by (by eapply keeps_step; [|exact Hs]).
    set (ad := addr_collect _). set (acc := accept_make _ _ _ _).
    destruct (push_follows w x0 (drive_config (t_name t) ad None true)
      (Join {| d_name := t_name t; d_addr := ad; d_token_env := None; d_paused := false;
               d_available_offline := true |} acc)) as (x' & E & Hs' & _ & _ & F); try done.
    { cbn. by rewrite addr_text_roundtrip. }
    fold x0. rewrite E. rewrite (is_up _ Hs'). by apply follows_note.
  - unfold cmd_ban, run_fs. destruct (peer_parse peer) as [pid|]; [|by apply follows_same].
    destruct (save_bans _ _ _) as [fs []]; [|by apply follows_same]. cbn [fst snd].
    rewrite (is_up x Hs : x_engine_up (put_fs (put_bans x _) fs) = true).
    by apply follows_note, send_follows.
  - unfold cmd_ban, run_fs. destruct (peer_parse peer) as [pid|]; [|by apply follows_same].
    destruct (save_bans _ _ _) as [fs []]; [|by apply follows_same]. cbn [fst snd].
    rewrite (is_up x Hs : x_engine_up (put_fs (put_bans x _) fs) = true).
    by apply send_follows.
  - by apply send_follows.
  - unfold cmd_set_config. pose proof (set_keeps_drives (x_config x) key value) as Ed.
    destruct (set (x_config x) key value) as [c [[]|]]; cbn [fst] in Ed; [|by apply follows_same].
    destruct (persist_quiet w (put_config x c)) as (x' & -> & [K1 K2 K3 K4] & Es); [done|done|by destruct Hs|].
    apply follows_note, follows_same; [done| |done]. split; [done|done| |done]. by rewrite K3.
  - by apply follows_same.
Qed.

Lemma event_follows w x ev :
  in_step x -> orderly w x (DEvent ev) -> calm_fs (x_fs x) ->
  follows x (on_engine_event sip w x ev) (joined (DEvent ev) (drives_map (drives x))).
Proof.
  intros Hs Ho Hc. destruct ev; cbn [on_engine_event joined orderly] in *; try by apply follows_same.
  - destruct Ho as [Hq Hn]. unfold on_drive_joined.
    replace (existsb _ _) with false.
    2: { symmetry. apply not_true_iff_false. rewrite existsb_exists. intros (d & Hd & E%bool_decide_eq_true).
         revert Hn. apply not_false_iff_true. apply existsb_exists. exists d. split; [done|].
         apply same_name_spec. by rewrite E. }
    destruct (push_follows w x (drive_config name addr None true) (AddDrive {| d_name := name;
      d_addr := addr; d_token_env := None; d_paused := false; d_available_offline := true |}))
      as (x' & -> & Hs' & Es & Em & _); try done.
    { cbn. by rewrite addr_text_roundtrip. }
    apply follows_note. split; [done|]. rewrite Em. by apply tells_same.
  - unfold on_auto_banned, run_fs. case_match; [by apply follows_same|].
    destruct (save_bans _ _ _) as [fs []]; by apply follows_same.
  - unfold on_invite_accepted. destruct (x_pending_invites x !! nonce) as [groups|]; [|by apply follows_same].
    set (x0 := put_pending_invites x _).
    assert (Hk : forall l k i y, keeps x y /\ x_sent y = x_sent x ->
               keeps x (foldl (grant_group peer w) (y, k, i) l).1.1 /\
               x_sent (foldl (grant_group peer w) (y, k, i) l).1.1 = x_sent x).
    { induction l as [|g l IH]; intros k i y Hy; [done|]. cbn [foldl grant_group]. unfold run_store.
      destruct (apply_local_action _ _ _ _ _ _) as [s []]; cbn [fst snd]; apply IH; destruct Hy as [[? ? ? ?] ?];
        by split. }
    specialize (Hk groups 0 0 x0). destruct (foldl _ _ groups) as [[y k] i].
    apply follows_note. by apply follows_same; try apply Hk.
Qed.

End InStep.

(** ** Where drives and configuration part *)

Section Drift.
Context `{Platform, Net} `{!NetText} `{!NetTextLaws} `{JsonText} `{Base64} `{!Serde Action}
  `{!Serde InviteToken} `{!Serde (list string)} `{Uuid}.
Context (sip : string * string * bool * option string * string * N * string -> N).
Implicit Types (x : Ctx) (w : World).

(** A pause is sent to the engine under the name the user typed, so one that
    differs in case marks the drive paused in the configuration and leaves the
    engine syncing it. *)
Lemma pause_needs_exact_case w x name :
  in_step x -> quiet w x -> calm_fs (x_fs x) ->
  has_drive (c_drives (x_config x)) name = true -> name ∉ names (c_drives (x_config x)) ->
  let out := cmd_pause sip w x name true in
  out.1.2 = Ok false /\
  (exists d, d ∈ c_drives (x_config out.1.1) /\ same_name (dr_name d) name = true /\ dr_paused d = true) /\
  x_sent out.1.1 = x_sent x ++ [SetPaused name true] /\
  forall g now conn rnd, engine_paused g = drives_map (c_drives (x_config x)) ->
    engine_paused (handle_cmd g now conn rnd (SetPaused name true)) = engine_paused g.
Proof.
  intros Hs Hq Hc Hh Hn. cbn zeta. unfold cmd_pause.
  assert (Hp : exists l, pause_drive name true (c_drives (x_config x)) = Some l /\
            exists d, d ∈ l /\ same_name (dr_name d) name = true /\ dr_paused d = true).
  { clear -Hh. revert Hh. generalize (c_drives (x_config x)) as l. induction l as [|d l IH]; [done|].
    cbn [has_drive existsb pause_drive]. destruct (same_name (dr_name d) name) eqn:E.
    - intros _. eexists. split; [reflexivity|]. exists (set_paused d true). by split; [left|].
    - intros Hl. destruct (IH Hl) as (l' & -> & d' & Hd & Hd'). cbn. eexists. split; [reflexivity|].
      exists d'. split; [by right|done]. }
  destruct Hp as (l & -> & d & Hd & Hd').
  destruct (persist_quiet sip w (put_config x (with_drives (x_config x) l)))
    as (x' & -> & [K1 K2 K3 K4] & Es); [done|done|by destruct Hs|]. cbn in K1, K3, Es.
  cbn [fst snd done_]. destruct (send_parts x' (SetPaused name true)) as (P1 & P2 & P3).
  split; [done|]. split; [|split].
  - exists d. cbn [x_config note put_last_event]. by rewrite P2, K3.
  - cbn [x_sent note put_last_event]. unfold send. rewrite K1, (is_up _ Hs). cbn. by rewrite Es.
  - intros g now conn rnd Hg. rewrite handle_cmd_paused. cbn [told_step].
    by rewrite Hg, (proj2 (drives_map_None _ _) Hn).
Qed.

(** Setting a key is lost when an edit of the file is waiting.  The key is
    set in memory, then the waiting edit is adopted whole before the save: the
    command succeeds, and the configuration, in memory and on disk, is the
    edited file's with the daemon's drives, whatever the key and value. *)
Theorem set_config_lost w x key value c t r m :
  w_seen w = Some t -> (x_last_save_mtime x < t)%N ->
  x_paths x = for_root r -> x_fs x = disk m ->
  load_quiet (for_root r) (w_secs w) (disk m) = (disk m, Ok (c, false)) ->
  is_ok (set (x_config x) key value).2 = true ->
  let out := cmd_set_config sip w x key value in
  let lost := with_drives c (c_drives (x_config x)) in
  out.1.2 = Ok false /\ x_config out.1.1 = lost /\
  fs_files (x_fs out.1.1) !! join r "config.json" = Some (render lost).
Proof.
  intros Hw Ht Hp Hd Hl Hset. cbn zeta. unfold cmd_set_config.
  pose proof (set_keeps_drives (x_config x) key value) as Ed.
  destruct (set (x_config x) key value) as [c1 [[]|]]; cbn [fst snd] in *; [|done].
  assert (Ea : x_config (adopt_external sip w true (put_config x c1)) = with_drives c (c_drives (x_config x))
            /\ x_fs (adopt_external sip w true (put_config x c1)) = disk m).
  { unfold adopt_external, run_fs. rewrite Hw. cbn [x_last_save_mtime put_config x_paths x_fs].
    rewrite (proj2 (N.leb_gt _ _) Ht), Hp, Hd, Hl. cbn [fst snd]. set (y := if negb _ then _ else _).
    assert (Ey : x_config y = with_drives c (c_drives (x_config x)) /\ x_fs y = disk m).
    { unfold y. destruct (negb _); cbn; by rewrite Ed. }
    rewrite (sync_drives_frame x_config), (sync_drives_frame x_fs). exact Ey. }
  destruct Ea as [Ec Ef]. unfold persist_config, run_fs. rewrite Ec, Ef. cbn [x_paths put_config]. rewrite Hp.
  unfold save. rewrite fs_run_bind. unfold fs_map_err.
  rewrite atomic_write_calm by (cbn; unfold join; by destruct r). cbn.
  split; [done|]. split; [exact Ec|]. apply lookup_insert_eq.
Qed.
End Drift.

(** ** A daemon with one drive *)

Module DaemonSample.
Import ConfigSample.
#[export] Instance text_net : Net := {|
  Multiaddr := string;
  addr_iter := fun s => match strip_prefix "/p2p/" s with Some p => [P2p p] | None => [OtherProto s] end;
  addr_collect := fun l => String.concat "" ((fun p => match p with
                    | P2p p => "/p2p/" +:+ p | Tcp n => "/tcp/" +:+ pretty n | Ip4 t => "/ip4/" +:+ t
                    | Ip6 t => "/ip6/" +:+ t | OtherProto t => t end) <$> l);
  addr_parse := fun s => Ok s
|}.
#[export] Instance text_net_text : NetText := {| addr_display := fun s => s; peer_parse := fun s => Ok s |}.
#[export] Instance text_net_laws : NetTextLaws.
Proof. by split. Qed.
#[export] Instance no_actions : Serde Action := {| to_json := fun _ => []; from_json := fun _ => Err "" |}.
#[export] Instance no_tokens : Serde InviteToken := {| to_json := fun _ => []; from_json := fun _ => Err "" |}.
#[export] Instance no_lists : Serde (list string) := {| to_json := fun _ => []; from_json := fun _ => Err "" |}.

Definition sip0 : string * string * bool * option string * string * N * string -> N := fun _ => 0%N.
Definition vault_drive : DriveConfig :=
  {| dr_name := "Vault"; dr_addr := "/p2p/12D3vault"; dr_token_env := None; dr_paused := false;
     dr_available_offline := true |}.
Definition one_drive : ReactorConfig := with_drives default_config [vault_drive].
Definition home_store : Inner := open_inner empty_disk (sk 1) "12D3me" [].
Definition calm_world : World :=
  {| w_clock := fun _ => 5%N; w_id := 77%N; w_secs := 9; w_seen := None; w_saved := Some 3%N;
     w_nonce := Ok (replicate 16 x07) |}.
Definition home : Ctx :=
  seed_drives (ctx_new (for_root state) one_drive "12D3me" home_store calm_world (disk ∅)).
Definition home_engine : SyncEngine :=
  handle_cmd (engine_new home_store "12D3me" "home" "/ip4/0.0.0.0/tcp/0" None [] ∅ false None ∅)
    0 (fun _ => false) "12D3rnd"
    (AddDrive {| d_name := "Vault"; d_addr := "/p2p/12D3vault"; d_token_env := None; d_paused := false;
                 d_available_offline := true |}).

Lemma home_in_step : in_step home.
Proof.
  split; [reflexivity|by exists state|done| |by repeat constructor].
  unfold unique. cbn. apply NoDup_singleton.
Qed.
Lemma home_engine_drives : engine_paused home_engine = {[ "Vault" := false ]}.
Proof. vm_compute. reflexivity. Qed.
End DaemonSample.
Import ConfigSample DaemonSample.


(** The user edits the instance name while a key is being set. *)
Lemma set_config_lost_witness :
  let edited := with_drives (with_instance default_config
    {| in_name := "edited"; in_listen := DEFAULT_LISTEN; in_listen_ws := None; in_external := [] |}) [] in
  let w := {| w_clock := fun _ => 5%N; w_id := 77%N; w_secs := 9; w_seen := Some 8%N; w_saved := Some 9%N;
              w_nonce := Err "" |} in
  let x := put_fs home (disk {[ join state "config.json" := render edited ]}) in
  x_config (cmd_set_config sip0 w x "settings.port" (Number 9000)).1.1 = with_drives edited [vault_drive].
Proof.
  intros edited w x.
  refine (proj1 (proj2 (set_config_lost sip0 w x "settings.port" (Number 9000) edited 8 state
    {[ join state "config.json" := render edited ]} eq_refl _ eq_refl eq_refl _ _))).
  - vm_compute. reflexivity.
  - eapply load_quiet_text; [apply lookup_singleton_eq|apply json_text_utf8| |vm_compute; reflexivity].
    unfold render. rewrite json_text_roundtrip. vm_compute. reflexivity.
  - vm_compute. reflexivity.
Defined.
