(* ===== verification/DaemonProps.v ===== *)
(** What the daemon guarantees: it changes the store only through the store's
    operations, keeps the engine's drives in step with the configuration,
    spends each invite once, treats a drive command the same with and without
    a running daemon, and only ever applies the best release it would accept. *)

From stdpp Require Import base gmap strings numbers pretty list relations.
From Stdlib Require Import Strings.Byte Strings.Ascii.
From S2P Require Import Prelude Json Doc Sample Action Model Entry Store StoreInv StoreProps Text Cosign.
From S2P Require Import Invite Blob Engine EngineProps Sync Fs ReadModel Package Update Status Config ConfigProps Daemon.
From S2P Require Import DaemonDrives.

(** ** The store *)

Section DaemonStore.
Context `{Platform, Net} `{!NetText} `{JsonText} `{Base64} `{!Serde Action} `{!Serde InviteToken}
  `{!Serde (list string)} `{Uuid}.
Context (sip : string * string * bool * option string * string * N * string -> N).
Implicit Types (x : Ctx) (w : World).

Lemma apply_signed_step s a : step s (apply_signed_action a s).1.
Proof.
  unfold apply_signed_action. rewrite run_bind.
  pose proof (step_apply s a) as Hs. by destruct (apply_action a s) as [? []].
Qed.
Lemma rtc_same s s' : s' = s -> rtc step s s'.
Proof. by intros ->. Qed.

(** A handler whose last call saves the configuration. *)
Ltac persists :=
  match goal with
  | |- context [persist_config sip ?w ?y] =>
      let E := fresh "E" in
      pose proof (persist_config_frame sip x_store w y) as E; destruct (persist_config sip w y) as [? []]
  end; cbn [fst snd x_store note put_last_event] in *.

Lemma execute_store w x cmd :
  fresh_id (x_store x) (w_id w) ->
  rtc step (x_store x) (x_store (execute_command sip w x cmd).1.1).
Proof.
  intros Hf. destruct cmd; cbn [execute_command];
    unfold cmd_add_drive, cmd_remove_drive, cmd_pause, cmd_resync, cmd_set_config, cmd_create_doc,
      cmd_create_action, cmd_propose, cmd_cosign, cmd_submit, cmd_create_doc_model, cmd_create_space,
      cmd_invite, cmd_join, cmd_ban, run_store, run_fs, done_, bail, answer.
  - apply rtc_same. destruct (new_drive name addr) as [[n ma]|]; [|done]. destruct (has_drive _ n); [done|].
    persists; by rewrite ?(send_frame x_store).
  - apply rtc_same. destruct (remove_drive _ _); [|done]. persists;
      rewrite ?(send_frame x_store), E; cbn [x_store put_drive_views];
      by rewrite (fold_frame x_store) by (intros; apply (send_frame x_store)).
  - apply rtc_same. destruct (pause_drive _ _ _); [|done]. persists; by rewrite ?(send_frame x_store).
  - apply rtc_same. destruct (pause_drive _ _ _); [|done]. persists; by rewrite ?(send_frame x_store).
  - apply rtc_same. case_match; [|done]. cbn. by rewrite (send_frame x_store).
  - pose proof (step_create_doc _ (w_clock w) _ name fields Hf) as Hs.
    destruct (create_doc _ _ _ _ _) as [s' []]; by apply rtc_once.
  - destruct (modelref_parse model) as [mr|]; [|done].
    pose proof (step_apply_local (x_store x) (w_clock w 0) name mr kind payload) as Hs.
    destruct (apply_local_action _ _ _ _ _ _) as [s' []]; by apply rtc_once.
  - destruct (modelref_parse model) as [mr|]; [|done].
    pose proof (step_build_local (x_store x) (w_clock w 0) name mr kind payload) as Hs.
    destruct (build_local_action _ _ _ _ _ _) as [s' []]; by apply rtc_once.
  - done.
  - destruct (decode _ _) as [a|]; [|done]. pose proof (apply_signed_step (x_store x) a) as Hs.
    destruct (apply_signed_action a _) as [s' []]; by apply rtc_once.
  - destruct (mr ← modelref_parse model; _) as [[mr sp]|]; [|done].
    pose proof (step_create_in_space _ (w_clock w 0) _ name mr payload sp Hf) as Hs.
    destruct (create_doc_in_space _ _ _ _ _ _ _) as [s' []]; by apply rtc_once.
  - match goal with |- context [create_space_at ?sh ?n ?i ?nm ?p] =>
      pose proof (step_create_space (x_store x) sh n i nm p) as Hs end.
    destruct (create_space_at _ _ _ _ _ _) as [s' []]; by apply rtc_once.
  - apply rtc_same. repeat case_match; done.
  - destruct (token_decode invite) as [t|]; [|done].
    pose proof (step_register_key (x_store x) (t_peer_id t) (t_pubkey t)) as Hs.
    destruct (register_peer_key _ _ _) as [s' []]; cbn [fst snd] in *; [|by apply rtc_once].
    destruct (peer_parse _); [|by apply rtc_once]. destruct (addr_parse _); [|by apply rtc_once].
    case_match; [by apply rtc_once|]. persists; [case_match|]; cbn; rewrite ?(send_frame x_store), ?E; by apply rtc_once.
  - apply rtc_same. destruct (peer_parse peer); [|done]. destruct (save_bans _ _ _) as [fs []]; [|done].
    cbn [fst snd]. case_match; cbn; by rewrite ?(send_frame x_store).
  - apply rtc_same. destruct (peer_parse peer); [|done]. destruct (save_bans _ _ _) as [fs []]; [|done].
    cbn [fst snd]. case_match; cbn; by rewrite ?(send_frame x_store).
  - apply rtc_same. apply (send_frame x_store).
  - apply rtc_same. destruct (set _ _ _) as [c []]; [|done]. by persists.
  - done.
Qed.

Lemma grants_store joiner w groups x k i :
  rtc step (x_store x) (x_store (foldl (grant_group joiner w) (x, k, i) groups).1.1).
Proof.
  revert x k i. induction groups as [|g groups IH]; intros x k i; [done|]. cbn [foldl grant_group].
  unfold run_store.
  match goal with |- context [apply_local_action ?n ?nm ?m ?kd ?p ?s] =>
    pose proof (step_apply_local s n nm m kd p) as Hs; destruct (apply_local_action n nm m kd p s) as [s' []] end;
    (eapply rtc_l; [exact Hs|]); [apply (IH (put_store x s'))|apply (IH (put_store x s'))].
Qed.

Lemma event_store w x ev : rtc step (x_store x) (x_store (on_engine_event sip w x ev)).
Proof.
  destruct ev; cbn [on_engine_event]; try (apply rtc_same; done).
  - apply rtc_same. unfold on_drive_joined. case_match; [done|]. by persists.
  - apply rtc_same. unfold on_auto_banned, run_fs. case_match; [done|].
    by destruct (save_bans _ _ _) as [fs []].
  - unfold on_invite_accepted. destruct (x_pending_invites x !! nonce) as [groups|]; [|done].
    pose proof (grants_store peer w groups (put_pending_invites x (delete nonce (x_pending_invites x))) 0 0) as Hg.
    by destruct (foldl _ _ groups) as [[x' k] i].
Qed.

(** C15. The daemon changes the store only through the store's own operations:
    whatever arrives (a command, an engine event, an edit of the
    configuration, a signal), one turn of its loop is a sequence of store
    steps, so a reachable store stays reachable and every document stays the
    canonical fold of its log, together with the engine that shares it. *)
Theorem daemon_drives_store w x i :
  fresh_id (x_store x) (w_id w) -> reachable (x_store x) ->
  rtc step (x_store x) (x_store (daemon_step sip w x i)) /\
  reachable (x_store (daemon_step sip w x i)) /\ store_inv (x_store (daemon_step sip w x i)).
Proof.
  intros Hf Hr. assert (Hs : rtc step (x_store x) (x_store (daemon_step sip w x i))).
  { destruct i; cbn [daemon_step]; [done|apply event_store|by apply execute_store|].
    apply rtc_same, (adopt_external_frame sip x_store). }
  pose proof (steps_reachable _ _ Hs Hr). split_and!; [done|done|by apply reachable_inv].
Qed.
End DaemonStore.

(** ** Invites *)

(** A reading that only invites change. *)
Class Private `{Platform, Net} {T} (f : Ctx -> T) : Prop := {
  private_apart :: Apart f;
  private_store : forall x v, f (put_store x v) = f x;
  private_doc : forall x v, f (put_last_doc x v) = f x;
  private_bans : forall x v, f (put_bans x v) = f x;
  private_stopping : forall x v, f (put_stopping x v) = f x;
  private_listen : forall x v, f (put_listen x v) = f x;
  private_healthy : forall x v, f (put_reactor_healthy x v) = f x
}.

Section Invites.
Context `{Platform, Net} `{!NetText} `{JsonText} `{Base64} `{!Serde Action} `{!Serde InviteToken}
  `{!Serde (list string)} `{Uuid}.
Context (sip : string * string * bool * option string * string * N * string -> N).
Implicit Types (x : Ctx) (w : World).

#[local] Instance pending_private : Private x_pending_invites.
Proof. by split; [apply _|..]. Qed.

Section Private.
Context {T} (f : Ctx -> T) `{!Private f}.
Lemma saving_frame w x y r : persist_config sip w x = (y, r) -> f y = f x.
Proof. intros E. rewrite <- (persist_config_frame sip f w x). by rewrite E. Qed.

Lemma execute_frame w x cmd :
  match cmd with CmdInvite _ => True | _ => f (execute_command sip w x cmd).1.1 = f x end.
Proof.
  destruct cmd; cbn [execute_command]; try done;
    unfold cmd_add_drive, cmd_remove_drive, cmd_pause, cmd_resync, cmd_set_config, cmd_create_doc,
      cmd_create_action, cmd_propose, cmd_cosign, cmd_submit, cmd_create_doc_model, cmd_create_space,
      cmd_join, cmd_ban, run_store, run_fs, done_, bail, answer, push_drive;
    repeat (case_match; simplify_eq/=); cbn [fst snd];
    rewrite ?(note_frame f), ?(send_frame f), ?private_doc, ?private_store, ?apart_fs, ?private_bans,
      ?private_stopping, ?apart_config; try done;
    repeat match goal with E : persist_config _ _ _ = _ |- _ => apply saving_frame in E end;
    simplify_eq; try match goal with E : f _ = f _ |- _ => rewrite E end;
    rewrite ?aside_drives, ?aside_views, ?apart_config, ?private_store; try done.
  all: rewrite (fold_frame f) by (intros; apply (send_frame f)); by rewrite aside_drives, apart_config.
Qed.

Lemma grants_frame joiner w groups x k i : f (foldl (grant_group joiner w) (x, k, i) groups).1.1 = f x.
Proof.
  revert x k i. induction groups as [|g groups IH]; intros x k i; [done|]. cbn [foldl grant_group].
  unfold run_store. destruct (apply_local_action _ _ _ _ _ _) as [s' []]; cbn [fst snd];
    by rewrite IH, private_store.
Qed.
End Private.

(** The grants an accepted invite asks for: one [add-member] per recorded
    group, each with its own clock reading; one that is refused is skipped. *)
Fixpoint grants w (joiner : PeerId) (i : nat) (groups : list string) (s : Inner) : Inner :=
  match groups with
  | [] => s
  | g :: groups =>
      grants w joiner (S i) groups
        (apply_local_action (w_clock w i) g (modelref_new "group" "1") "add-member"
           (json_obj [("member", Str joiner)]) s).1
  end.
Lemma grants_granted joiner w groups x k i :
  x_store (foldl (grant_group joiner w) (x, k, i) groups).1.1 = grants w joiner i groups (x_store x).
Proof.
  revert x k i. induction groups as [|g groups IH]; intros x k i; [done|]. cbn [foldl grant_group grants].
  unfold run_store. destruct (apply_local_action _ _ _ _ _ _) as [s' []]; cbn [fst snd]; by rewrite IH.
Qed.

Lemma accepted w x joiner nonce :
  x_pending_invites (on_invite_accepted w x joiner nonce) = delete nonce (x_pending_invites x) /\
  x_store (on_invite_accepted w x joiner nonce) =
    grants w joiner 0 (default [] (x_pending_invites x !! nonce)) (x_store x).
Proof.
  unfold on_invite_accepted. destruct (x_pending_invites x !! nonce) as [groups|] eqn:E.
  - set (x0 := put_pending_invites x _).
    pose proof (grants_frame x_pending_invites joiner w groups x0 0 0) as E1.
    pose proof (grants_granted joiner w groups x0 0 0) as E2.
    destruct (foldl _ _ groups) as [[y k] i]. by split.
  - cbn. by rewrite delete_id.
Qed.

Lemma event_pending w x ev :
  x_pending_invites (on_engine_event sip w x ev) =
  match ev with EvInviteAccepted _ nonce => delete nonce (x_pending_invites x) | _ => x_pending_invites x end.
Proof.
  destruct ev; try done; cbn [on_engine_event].
  - unfold on_drive_joined. case_match; [done|]. destruct (persist_config _ _ _) as [y []] eqn:E;
      apply (saving_frame x_pending_invites) in E; exact E.
  - unfold on_auto_banned, run_fs. case_match; [done|]. by destruct (save_bans _ _ _) as [fs []].
  - apply accepted.
Qed.

Lemma remember_size x nonce groups :
  size (x_pending_invites (remember_invite x nonce groups)) <= S INVITE_CAP.
Proof.
  unfold remember_invite. cbn [x_pending_invites put_pending_invites].
  set (p := if INVITE_CAP <? size (x_pending_invites x) then _ else _). assert (size p <= INVITE_CAP).
  { unfold p. destruct (Nat.ltb_spec INVITE_CAP (size (x_pending_invites x))); [rewrite map_size_empty; lia|done]. }
  destruct (p !! nonce) eqn:E; [rewrite map_size_insert_Some by done|rewrite map_size_insert_None by done]; lia.
Qed.

(** An invite is spent once.  When a peer joins with a nonce, the groups
    granted are exactly those recorded for it, the record is gone, and joining
    with that nonce again changes no document.  Only issuing an invite records
    a nonce, the one just drawn, and the records stay bounded, whatever
    arrives. *)
Theorem invite_spent_once w x joiner nonce :
  let x' := daemon_step sip w x (DEvent (EvInviteAccepted joiner nonce)) in
  x_store x' = grants w joiner 0 (default [] (x_pending_invites x !! nonce)) (x_store x) /\
  x_pending_invites x' = delete nonce (x_pending_invites x) /\
  (forall w' joiner', x_store (daemon_step sip w' x' (DEvent (EvInviteAccepted joiner' nonce))) = x_store x') /\
  (forall i n groups, x_pending_invites (daemon_step sip w x i) !! n = Some groups ->
     x_pending_invites x !! n = Some groups \/
     exists asked, i = DCommand (CmdInvite asked) /\ w_nonce w = Ok n) /\
  forall i, size (x_pending_invites x) <= S INVITE_CAP ->
    size (x_pending_invites (daemon_step sip w x i)) <= S INVITE_CAP.
Proof.
  cbn zeta. cbn [daemon_step on_engine_event]. destruct (accepted w x joiner nonce) as [Ep Es].
  split; [done|]. split; [done|]. split.
  { intros w' joiner'. rewrite (proj2 (accepted _ _ _ _)), Ep, lookup_delete_eq. done. }
  assert (Hi : forall i, x_pending_invites (daemon_step sip w x i) ⊆ x_pending_invites x \/
    exists asked groups n, i = DCommand (CmdInvite asked) /\ w_nonce w = Ok n /\
      x_pending_invites (daemon_step sip w x i) = x_pending_invites (remember_invite x n groups)).
  { intros i. destruct i as [|ev|cmd|]; cbn [daemon_step]; [by left| | |].
    - left. rewrite event_pending. destruct ev; try done. apply delete_subseteq.
    - pose proof (execute_frame x_pending_invites w x cmd) as E. destruct cmd; try (left; by rewrite E).
      cbn [execute_command]. unfold cmd_invite. destruct (pick_invite_addr _ _); [|by left].
      unfold token_make. destruct (w_nonce w) as [n|]; [|by left]. right. by eexists _, _, n.
    - left. by rewrite (adopt_external_frame sip x_pending_invites). }
  split.
  - intros i n groups Hn. destruct (Hi i) as [Hsub|(asked & gs & n' & -> & Hw & E)].
    + left. by eapply lookup_weaken.
    + rewrite E in Hn. unfold remember_invite in Hn. cbn in Hn. destruct (decide (n = n')) as [->|].
      { right. by exists asked. }
      rewrite lookup_insert_ne in Hn by done. left. by case_match.
  - intros i Hs. destruct (Hi i) as [Hsub|(asked & gs & n' & -> & _ & E)].
    + etransitivity; [|exact Hs]. by apply map_subseteq_size.
    + rewrite E. apply remember_size.
Qed.
End Invites.

(** ** Self-update *)

Section BestRelease.
Context `{Platform} `{!Serde Release} `{TrustStoreSerde : !Serde TrustStore} (show_hash : Hash32 -> string)
  (current_platform current : string).
Implicit Types (r b : Release) (t : TrustStore).

Definition rl_numbers r : list N := default [] (parse_version (rl_version r)).
Local Abbreviation takes t := (eligible current_platform current t).

Lemma takes_parses t r : takes t r = true -> is_Some (parse_version (rl_version r)).
Proof.
  unfold eligible, is_newer_than, Update.compare. rewrite !andb_true_iff. intros [_ Hn].
  destruct (parse_version (rl_version r)); [done|]. by cbn in Hn.
Qed.
Lemma compare_numbers r b :
  is_Some (parse_version (rl_version r)) -> is_Some (parse_version (rl_version b)) ->
  Update.compare (rl_version r) (rl_version b) = Some Gt <-> ver_lt (rl_numbers b) (rl_numbers r).
Proof.
  intros [x Hx] [y Hy]. unfold rl_numbers. rewrite Hx, Hy.
  destruct (compare_parsed _ _ x y Hx Hy) as (c & -> & Hc). cbn.
  destruct c; (split; [intros [=]; done|intros Hl]); try done; exfalso.
  - apply (ver_lt_irrefl _ _ Hl). intros j. by rewrite Hc.
  - by apply (ver_lt_asym _ _ Hl).
Qed.
Lemma ver_lt_trans x y z : ver_lt x y -> ver_lt y z -> ver_lt x z.
Proof.
  intros (i & Hi & Li) (j & Hj & Lj). destruct (lt_eq_lt_dec i j) as [[?|<-]|?].
  - exists i. rewrite <- (Hj i) by done. split; [|done]. intros k Hk. rewrite Hi by done. apply Hj. lia.
  - exists i. split; [|lia]. intros k Hk. by rewrite Hi, Hj.
  - exists j. rewrite (Hi j) by done. split; [|done]. intros k Hk. rewrite Hi by lia. by apply Hj.
Qed.

(** The loop keeps the first of the newest. *)
Lemma better_newest t l b :
  Forall (fun r => takes t r = true) (b :: l) ->
  exists b', foldl better (Some b) l = Some b' /\ b' ∈ b :: l /\
    (forall r, r ∈ b :: l -> ~ ver_lt (rl_numbers b') (rl_numbers r)) /\
    (b' = b \/ ver_lt (rl_numbers b) (rl_numbers b')).
Proof.
  revert b. induction l as [|r l IH]; intros b Hf.
  { exists b. split_and!; [done|left| |by left]. intros r Hr. apply list_elem_of_singleton in Hr as ->.
    intros Hl. by apply (ver_lt_irrefl _ _ Hl). }
  apply Forall_cons in Hf as [Hb Hf]. pose proof Hf as [Hr Hl]%Forall_cons.
  pose proof (compare_numbers r b (takes_parses t r Hr) (takes_parses t b Hb)) as Hc.
  cbn [foldl better]. case_bool_decide as Hd.
  - apply Hc in Hd. destruct (IH r) as (b' & -> & Hin & Hbest & Hor); [done|].
    assert (Hlt : ver_lt (rl_numbers b) (rl_numbers b')) by (destruct Hor as [->|?]; [done|by eapply ver_lt_trans]).
    exists b'. split_and!; [done|by right| |by right]. intros q [->|Hq]%elem_of_cons; [|by apply Hbest].
    intros Hl'. by apply (ver_lt_asym _ _ Hlt).
  - destruct (IH b) as (b' & -> & Hin & Hbest & Hor); [by constructor|]. exists b'.
    split_and!; [done| | |done].
    + apply elem_of_cons in Hin as [->|?]; [left|by right; right].
    + intros q [->|[->|Hq]%elem_of_cons]%elem_of_cons; [apply Hbest; left| |apply Hbest; by right].
      intros Hl'. apply Hd, Hc. destruct Hor as [->|Ho]; [done|by eapply ver_lt_trans].
Qed.

(** Whether a release document of the store offers [r]. *)
Definition offered (s : Inner) r : Prop :=
  exists doc, doc ∈ query_docs s "release" None /\ release_of doc = Some r.

Lemma candidates_offered s t r :
  r ∈ filter (fun r => takes t r = true) (omap release_of (query_docs s "release" None)) <->
  offered s r /\ takes t r = true.
Proof. rewrite list_elem_of_filter, list_elem_of_omap. unfold offered. tauto. Qed.

Lemma best_release_spec s t :
  match best_release current_platform current s t with
  | None => forall r, offered s r -> takes t r = false
  | Some b => offered s b /\ takes t b = true /\
              forall r, offered s r -> takes t r = true ->
                Update.compare (rl_version r) (rl_version b) <> Some Gt
  end.
Proof.
  unfold best_release. pose proof (candidates_offered s t) as Hc.
  destruct (filter _ _) as [|b l] eqn:E.
  - cbn. intros r Hr. apply not_true_iff_false. intros Ht.
    destruct (not_elem_of_nil r). apply Hc. by split.
  - cbn [foldl better]. destruct (better_newest t l b) as (b' & -> & Hin & Hbest & _).
    { apply Forall_forall. intros r Hr. by apply Hc. }
    apply Hc in Hin as [Ho Ht]. split_and!; [done|done|]. intros r Hr Htr.
    rewrite compare_numbers by eauto using takes_parses. apply Hbest, Hc. by split.
Qed.

(** C30. The self-update check acts on the best release it may take, and on
    nothing else.  What it sends is nothing; or a fetch of the binary of that
    release, when chunks are missing; or the request to quit, only when
    updates are automatic, every chunk is here and the release was installed.
    That release is offered by a document of the store that is not withdrawn,
    its publisher is trusted, it verifies, is for this platform and newer than
    this binary, and no acceptable release on offer is newer. *)
Theorem update_takes_best s blobs sp auto exe fs fs1 t :
  trust_load (publishers_file sp) fs = (fs1, Ok t) ->
  let out := check_for_update show_hash current_platform current s blobs sp auto exe fs in
  (out = (fs1, []) /\ (forall r, offered s r -> takes t r = false)) \/
  exists r, offered s r /\ takes t r = true /\
    (forall q, offered s q -> takes t q = true -> Update.compare (rl_version q) (rl_version r) <> Some Gt) /\
    (out = (fs1, [CmdFetchBlob (rl_binary r)]) /\ missing blobs (rl_binary r) <> [] \/
     missing blobs (rl_binary r) = [] /\
     (out = (fs1, []) /\ (auto = false \/ exe = None) \/
      exists e, auto = true /\ exe = Some e /\
        let inst := Update.apply show_hash current_platform r blobs e (sp_root sp) current fs1 in
        out = (inst.1, if is_ok inst.2 then [CmdQuit] else []))).
Proof.
  intros Ht. cbn zeta. unfold check_for_update. rewrite Ht. pose proof (best_release_spec s t) as Hb.
  destruct (best_release _ _ _ _) as [r|]; [|by left]. right. exists r. destruct Hb as (H1 & H2 & H3).
  split_and!; try done. case_bool_decide as Hm; cbn [negb]; [|by left]. right. split; [done|].
  destruct auto; cbn [negb]; [|left; by split; [|left]]. destruct exe as [e|]; [|left; by split; [|right]].
  right. exists e. split_and!; try done. by destruct (Update.apply _ _ _ _ _ _ _ _) as [fs' []].
Qed.
End BestRelease.

(** ** Commands with and without a daemon *)

(** The command of the settings API a drive operation becomes. *)
Definition op_command (op : DriveOp) : Command :=
  match op with
  | OpAdd name addr token_env offline => CmdAddDrive name addr token_env offline
  | OpRemove name => CmdRemoveDrive name
  | OpPause name => CmdPauseDrive name
  | OpResume name => CmdResumeDrive name
  | OpResync name => CmdResyncDrive name
  end.

Section Direct.
Context `{Platform, Net} `{!NetText} `{!NetTextLaws} `{JsonText} `{Base64} `{!Serde Action}
  `{!Serde InviteToken} `{!Serde (list string)} `{Uuid}.
Context (sip : string * string * bool * option string * string * N * string -> N).
Implicit Types (x : Ctx) (w : World).

Lemma filter_keeps {A} (P : A -> Prop) `{forall a, Decision (P a)} l : Forall P l -> filter P l = l.
Proof. induction 1; [done|]. rewrite filter_cons, decide_True by done. by f_equal. Qed.

Lemma remove_is_filter name l :
  unique l ->
  let kept := filter (fun d => same_name (dr_name d) name = false) l in
  match remove_drive name l with
  | Some l' => l' = kept /\ length kept <> length l
  | None => length kept = length l
  end.
Proof.
  cbn zeta. induction l as [|d l IH]; intros Hu; [done|]. cbn [remove_drive].
  unfold unique, names in Hu. cbn [fmap list_fmap] in Hu. apply NoDup_cons in Hu as [Hd Hu].
  rewrite filter_cons. destruct (same_name (dr_name d) name) eqn:Es.
  - rewrite decide_False by done. assert (E : filter (fun d => same_name (dr_name d) name = false) l = l).
    { apply filter_keeps. apply Forall_forall. intros d' Hd'. apply not_true_iff_false.
      rewrite same_name_spec in *. intros E. apply Hd. rewrite Es, <- E, <- list_fmap_compose.
      by apply (list_elem_of_fmap_2 (lower ∘ dr_name)). }
    rewrite E. cbn. split; [done|lia].
  - rewrite decide_True by done. specialize (IH Hu). cbn [length].
    destruct (remove_drive name l) as [l'|]; cbn; [|by rewrite IH].
    destruct IH as [-> Hne]. split; [done|lia].
Qed.

(** What a save of a changed configuration leaves, with no edit waiting. *)
Lemma persist_saves w x r m c :
  quiet w x -> x_paths x = for_root r -> x_fs x = disk m -> x_config x = c ->
  exists m', save (for_root r) c (disk m) = (disk m', Ok tt) /\
    persist_config sip w x = (put_last_save_mtime (put_fs x (disk m')) (default 0%N (w_saved w)), Ok tt).
Proof.
  intros Hq Hp Hf <-. unfold persist_config.
  assert (Ea : adopt_external sip w true x = x).
  { unfold adopt_external. destruct (w_seen w) as [t|] eqn:Et; [|done].
    by rewrite (proj2 (N.leb_le _ _)) by (by apply Hq). }
  rewrite Ea, Hp. unfold run_fs, save. rewrite Hf, fs_run_bind. unfold fs_map_err.
  rewrite atomic_write_calm by (cbn; unfold join; by destruct r). eexists. by split.
Qed.

(** What a command did in the daemon, and what the direct edit did. *)
Definition agrees x (m : gmap Path (list byte)) (out : ExecResult) (d : Fs * result string ReactorConfig) :
    Prop :=
  match d with
  | (fs, Ok c) => out.1.2 = Ok false /\ x_config out.1.1 = c /\ x_fs out.1.1 = fs
  | (fs, Err e) => out.1.2 = Err e /\ out.1.1 = x /\ fs = disk m
  end.

(** A change that is saved, then told to the engine. *)
Lemma saved_agrees w x y r m c (k : Ctx -> ExecResult) :
  quiet w y -> x_paths y = for_root r -> x_fs y = disk m -> x_config y = c ->
  (forall z, (k z).1.2 = Ok false /\ x_config (k z).1.1 = x_config z /\ x_fs (k z).1.1 = x_fs z) ->
  agrees x m (match persist_config sip w y with
              | (y, Err e) => bail y (config_error_text e)
              | (y, Ok _) => k y
              end)
    ((_ ← fs_map_err config_error_text (save (for_root r) c); mret c : fsE string ReactorConfig) (disk m)).
Proof.
  intros Hq Hp Hf Hc Hk. destruct (persist_saves w y r m c Hq Hp Hf Hc) as (m' & Es & ->).
  rewrite fs_run_bind. unfold fs_map_err. rewrite Es. cbn [fst snd].
  set (z := put_last_save_mtime _ _). destruct (Hk z) as (K1 & K2 & K3). cbn. split_and!; [done| |done].
  by rewrite K2.
Qed.
Lemma told_agrees c ev z :
  (done_ (note (send z c) ev)).1.2 = Ok false /\ x_config (done_ (note (send z c) ev)).1.1 = x_config z /\
  x_fs (done_ (note (send z c) ev)).1.1 = x_fs z.
Proof. cbn. by rewrite (send_frame x_config), (send_frame x_fs). Qed.

Lemma pause_agrees w x name b r m :
  quiet w x -> x_paths x = for_root r -> x_fs x = disk m ->
  agrees x m (cmd_pause sip w x name b)
    (match pause_drive name b (c_drives (x_config x)) with
     | None => fs_fail (unknown_drive name)
     | Some l => _ ← fs_map_err config_error_text (save (for_root r) (with_drives (x_config x) l));
                 mret (with_drives (x_config x) l)
     end (disk m)).
Proof.
  intros Hq Hp Hf. unfold cmd_pause. destruct (pause_drive _ _ _) as [l|]; [|done].
  by apply saved_agrees; [..|apply told_agrees].
Qed.

Lemma remove_agrees w x name r m :
  quiet w x -> x_paths x = for_root r -> x_fs x = disk m -> unique (c_drives (x_config x)) ->
  agrees x m (cmd_remove_drive sip w x name) (direct_drive_op (for_root r) (x_config x) (OpRemove name) (disk m)).
Proof.
  intros Hq Hp Hf Hu. unfold cmd_remove_drive, direct_drive_op.
  pose proof (remove_is_filter name _ Hu) as Hr. cbn zeta in Hr.
  destruct (remove_drive _ _) as [l|]; [destruct Hr as [-> Hne]|]; (case_bool_decide; [try done|try done]).
  set (l := filter _ (c_drives (x_config x))). cbn zeta. set (y0 := put_drive_views _ _).
  assert (Ey : forall T (f : Ctx -> T), Aside f -> f y0 = f (put_config x (with_drives (x_config x) l))).
  { intros T f Hside. unfold y0. rewrite aside_views, (fold_frame f) by (intros; apply (send_frame f)).
    apply aside_drives. }
  apply saved_agrees; [|by rewrite Ey by apply _..|done].
  intros t Et. rewrite Ey by apply _. by apply Hq.
Qed.

End Direct.

(** An invite can carry an empty name; joining with it pushes a drive that
    [validate] refuses, so the next start refuses the saved configuration. *)
Lemma blank_drive_refused `{Net} c d :
  blank (dr_name d) = true -> is_ok (validate (with_drives c (c_drives c ++ [d]))) = false.
Proof.
  intros Hb. assert (Hv : is_ok (validate_drives (c_drives c ++ [d])) = false).
  { induction (c_drives c) as [|e l IH]; cbn; [by rewrite Hb|]. repeat case_match; done. }
  unfold validate. cbn [c_instance with_drives c_drives]. case_match; [done|]. case_match; [|done].
  by destruct (validate_drives _).
Qed.

(** ** The path of a drive's URL *)

(** Percent-decoding, as the server reads a path segment. *)
Definition hex_value (c : ascii) : option N :=
  let n := N_of_ascii c in
  if ((48 <=? n) && (n <=? 57))%N then Some (n - 48)%N
  else if ((65 <=? n) && (n <=? 70))%N then Some (n - 55)%N
  else if ((97 <=? n) && (n <=? 102))%N then Some (n - 87)%N else None.
Fixpoint percent_decode (s : string) : string :=
  match s with
  | EmptyString => EmptyString
  | String "%" (String a (String b s' as s1) as s2) =>
      match hex_value a, hex_value b with
      | Some x, Some y => String (ascii_of_N (x * 16 + y)) (percent_decode s')
      | _, _ => String "%" (percent_decode s2)
      end
  | String c s' => String c (percent_decode s')
  end.

(** The name of a drive survives its trip through a URL: the encoded
    segment holds only unreserved characters and percent escapes, so no slash,
    question mark or hash of the name can change the route, and decoding it
    gives the name back. *)
Theorem segment_roundtrip s :
  percent_decode (encode_path_segment s) = s /\
  Forall (fun c => unreserved c = true \/ c = "%"%char) (String.list_ascii_of_string (encode_path_segment s)).
Proof.
  induction s as [|c s [IH1 IH2]]; [by split|]. cbn [encode_path_segment].
  destruct (unreserved c) eqn:E.
  - split; [|constructor; [by left|done]].
    assert (Hc : c <> "%"%char) by (by intros ->). revert IH1. generalize (encode_path_segment s) as e.
    destruct c as [[][][][][][][][]]; try done; intros e <-; done.
  - split.
    + rewrite <- IH1 at 2. generalize (encode_path_segment s) as e. intros e.
      destruct c as [[][][][][][][][]]; done.
    + constructor; [by right|]. constructor; [|constructor; [|done]]; left;
        destruct c as [[][][][][][][][]]; vm_compute; reflexivity.
Qed.

(** ** Examples *)

Import ConfigSample DaemonSample.

Definition notes_cmd : Command := CmdCreateDoc "notes" {[ "title" := Str "hi" ]}.
Lemma daemon_drives_store_witness :
  reachable (x_store (daemon_step sip0 calm_world home (DCommand notes_cmd))) /\
  is_Some (get_doc (x_store (daemon_step sip0 calm_world home (DCommand notes_cmd))) "notes").
Proof.
  split; [|vm_compute; by eexists].
  refine (proj1 (proj2 (daemon_drives_store sip0 calm_world home (DCommand notes_cmd) _ _))).
  - vm_compute. reflexivity.
  - apply reach_open.
Defined.


(** A store that offers release 1.10.0, signed by a trusted publisher. *)
Definition signed_release : Release := release_sign new_release (sk 9).
#[local] Instance one_release : Serde Release :=
  {| to_json := fun _ => []; from_json := fun _ => Ok signed_release |}.
#[local] Instance one_publisher : Serde TrustStore :=
  {| to_json := fun _ => []; from_json := fun _ => Ok (trust ∅ "" (rl_publisher_key new_release) "acme") |}.
Definition release_store : Inner :=
  (create_doc_model 5 77%N "ph-1.10.0" (modelref_new "release" "1")
     (json_obj [("name", Str "ph-1.10.0"); ("publisher_key", Str "k"); ("release_version", Str "1.10.0");
                ("platform", Str "x86_64-linux"); ("manifest", Str "signed")]) home_store).1.
Definition release_disk : gmap Path (list byte) := {[ publishers_file (for_root state) := [] ]}.

Lemma update_takes_best_witness :
  exists r, rl_version r = "1.10.0" /\
    check_for_update sample_show "x86_64-linux" "1.9.0" release_store ∅ (for_root state) true
      (Some opt_exe) (disk release_disk) = (disk release_disk, [CmdFetchBlob (rl_binary r)]).
Proof.
  destruct (update_takes_best sample_show "x86_64-linux" "1.9.0" release_store ∅ (for_root state) true
    (Some opt_exe) (disk release_disk) (disk release_disk) (trust ∅ "" (rl_publisher_key new_release) "acme"))
    as [[E _]|(r & _)].
  - vm_compute. reflexivity.
  - exfalso. revert E. vm_compute. discriminate.
  - exists signed_release. split; vm_compute; reflexivity.
Defined.
