(* ===== verification/DaemonConfig.v ===== *)
(** The configuration as the daemon's typed state: every turn of the loop
    keeps it well-typed and valid, and what it leaves on disk is what the next
    start reads. *)

From stdpp Require Import base gmap strings numbers pretty list.
From Stdlib Require Import Strings.Byte Strings.Ascii.
From S2P Require Import Prelude Json Doc Sample Action Model Entry Store Text Cosign.
From S2P Require Import Invite Engine EngineProps Sync Fs ReadModel Update Status Config ConfigProps Daemon.
From S2P Require Import DaemonDrives.

(** ** Names *)

Fixpoint all_space (s : string) : bool :=
  match s with EmptyString => true | String c s => is_space c && all_space s end.

Lemma trim_end_empty s : trim_end s = "" <-> all_space s = true.
Proof.
  induction s as [|c s IH]; [done|]. cbn [trim_end all_space]. rewrite andb_true_iff.
  destruct (trim_end s) eqn:E.
  - destruct (is_space c); [|naive_solver]. split; [intros _; split; [done|by apply IH]|done].
  - split; [done|]. intros [_ Hs]. apply IH in Hs. discriminate Hs.
Qed.
Lemma all_space_start s : all_space (trim_start s) = all_space s.
Proof. induction s as [|c s IH]; [done|]. cbn [trim_start all_space]. destruct (is_space c) eqn:E; [done|]. cbn. by rewrite E. Qed.
Lemma blank_spaces s : blank s = all_space s.
Proof. apply eq_true_iff_eq. unfold blank, trim. by rewrite bool_decide_eq_true, trim_end_empty, all_space_start. Qed.
Lemma all_space_end s : all_space (trim_end s) = all_space s.
Proof.
  induction s as [|c s IH]; [done|]. cbn [trim_end]. destruct (trim_end s) eqn:E.
  - apply trim_end_empty in E. cbn [all_space]. rewrite E. destruct (is_space c) eqn:Ec; [done|]. cbn. by rewrite Ec.
  - cbn [all_space] in *. by rewrite <- IH.
Qed.
Lemma blank_trim s : blank (trim s) = blank s.
Proof. rewrite !blank_spaces. unfold trim. by rewrite all_space_end, all_space_start. Qed.

(** ** Usable configurations *)

Section Usable.
Context `{Net}.

(** Well-typed, and accepted by the next start. *)
Definition usable (c : ReactorConfig) : Prop := config_wf c /\ validate c = Ok tt.

(** A drive [validate] accepts. *)
Definition usable_drive (d : DriveConfig) : Prop :=
  blank (dr_name d) = false /\ is_ok (addr_parse (dr_addr d)) = true.

Lemma validate_drives_all l : validate_drives l = Ok tt <-> Forall usable_drive l.
Proof.
  induction l as [|d l IH]; [split; [constructor|done]|].
  cbn [validate_drives]. rewrite Forall_cons, <- IH. unfold usable_drive.
  destruct (blank (dr_name d)); [by split; [|intros [[] _]]|].
  destruct (addr_parse (dr_addr d)); [tauto|by split; [|intros [[] _]]].
Qed.
Lemma usable_drives c l : usable c -> Forall usable_drive l -> usable (with_drives c l).
Proof.
  intros [[W1 W2 W3] Hv] Hl. split; [by split|]. apply validate_ok. apply validate_ok in Hv.
  cbn. destruct Hv as (? & ? & _ & ? & ? & ? & ?). split_and!; try done. by apply validate_drives_all.
Qed.
Lemma drives_usable c : usable c -> Forall usable_drive (c_drives c).
Proof. intros [_ Hv]. apply validate_ok in Hv as (_ & _ & Hd & _). by apply validate_drives_all. Qed.

Lemma remove_drive_usable name l l' :
  Forall usable_drive l -> remove_drive name l = Some l' -> Forall usable_drive l'.
Proof.
  intros Hl. revert l'. induction Hl as [|d l Hd Hl IH]; intros l'; [done|]. cbn [remove_drive].
  destruct (same_name _ _); [by intros [= <-]|]. destruct (remove_drive name l) as [k|]; [|done].
  intros [= <-]. constructor; [done|by apply IH].
Qed.
Lemma pause_drive_usable name b l l' :
  Forall usable_drive l -> pause_drive name b l = Some l' -> Forall usable_drive l'.
Proof.
  intros Hl. revert l'. induction Hl as [|d l Hd Hl IH]; intros l'; [done|]. cbn [pause_drive].
  destruct (same_name _ _); [by intros [= <-]; constructor|]. destruct (pause_drive name b l) as [k|]; [|done].
  intros [= <-]. constructor; [done|by apply IH].
Qed.
Lemma set_usable c key value : usable c -> usable (set c key value).1.
Proof.
  intros [Hw Hv]. unfold set. destruct (set_key c key value) as [c'|e] eqn:E; [|done].
  by destruct (set_key_ok c key value c' Hv Hw E) as (_ & V & W & _).
Qed.
Lemma default_usable : is_ok (addr_parse DEFAULT_LISTEN) = true -> usable default_config.
Proof. intros Hl. split; [apply ConfigSample.default_wf|by apply ConfigSample.default_valid]. Qed.
End Usable.

(** ** The file *)

Section Disk.
Context `{Net} `{JsonTextLaws}.

(** The file as [save] leaves it is read back whole. *)
Lemma rendered_loads r ts m c :
  usable c -> m !! join r "config.json" = Some (render c) ->
  load_quiet (for_root r) ts (disk m) = (disk m, Ok (c, false)).
Proof.
  intros [Hw Hv] Hm. eapply load_quiet_text; [done|apply json_text_utf8| |done].
  unfold render. rewrite json_text_roundtrip. by apply config_roundtrip_json.
Qed.

Lemma save_config_calm r m c :
  exists m', save (for_root r) c (disk m) = (disk m', Ok tt) /\ m' !! join r "config.json" = Some (render c).
Proof.
  unfold save. rewrite fs_run_bind. unfold fs_map_err. cbn [for_root config_file].
  rewrite atomic_write_calm by (unfold join; by destruct r). eexists. split; [done|apply lookup_insert_eq].
Qed.

(** What a load returns as read from the file is usable, whatever fails. *)
Lemma write_defaults_fresh file c s : (write_defaults file s).2 <> Ok (c, false).
Proof. unfold write_defaults. rewrite fs_run_bind. by destruct (fs_map_err _ _ s) as [t1 [[]|]]. Qed.
Lemma loaded_usable sp ts s c : (load_quiet sp ts s).2 = Ok (c, false) -> usable c.
Proof.
  unfold load_quiet. rewrite fs_run_bind. unfold fs_try. cbn [fst snd].
  destruct (fs_read_to_string _ s) as [s1 [raw|e]]; cbn [fst snd].
  - destruct (json_parse raw ≫= config_of_json) as [c'|] eqn:Ej.
    + destruct (json_parse raw) as [v|]; [|done]. apply config_of_json_wf in Ej as [Hw _].
      destruct (validate c') as [[]|] eqn:Ev; [|done]. cbn. by intros [= <-].
    + rewrite fs_run_bind. cbn [quarantine fs_ignore fst snd]. intros E. by destruct (write_defaults_fresh _ _ _ E).
  - case_match; [|done]. intros E. by destruct (write_defaults_fresh _ _ _ E).
Qed.

(** What reading the file does to a calm disk: a document that does not decode
    is set aside and the defaults written; anything else leaves the disk. *)
Definition unchanged_or (r : Path) (m m' : gmap Path (list byte)) (c : ReactorConfig) : Prop :=
  m' !! join r "config.json" = m !! join r "config.json" \/ m' !! join r "config.json" = Some (render c).

Lemma load_quiet_calm r ts m :
  exists m', (load_quiet (for_root r) ts (disk m)).1 = disk m' /\ unchanged_or r m m' default_config.
Proof.
  assert (Hd : forall m0, exists m', (write_defaults (join r "config.json") (disk m0)).1 = disk m' /\
                 m' !! join r "config.json" = Some (render default_config)).
  { intros m0. eexists. split; [reflexivity|apply lookup_insert_eq]. }
  assert (Hsame : exists m', disk m = disk m' /\ unchanged_or r m m' default_config) by (exists m; by split; [|left]).
  unfold load_quiet, fs_try, fs_read_to_string. rewrite fs_run_bind, !fs_run_bind.
  unfold fs_read. cbn [next_outcome fs_sched fs_files config_file for_root].
  destruct (m !! join r "config.json") as [raw|] eqn:Em; cbn [fst snd]; [destruct (utf8_ok raw); cbn [mret fsE_ret fs_fail fst snd]|].
  - destruct (json_parse raw ≫= config_of_json) as [c|]; [destruct (validate c) as [[]|]; exact Hsame|].
    rewrite fs_run_bind. unfold quarantine, fs_ignore, fs_rename. cbn [next_outcome fs_sched fs_files].
    rewrite Em. cbn [fst snd].
    destruct (Hd (<[corrupt_path (join r "config.json") ts := raw]> (delete (join r "config.json") m))) as (m' & E & Hm').
    exists m'. split; [exact E|by right].
  - exact Hsame.
  - destruct (Hd m) as (m' & E & Hm'). exists m'. split; [exact E|by right].
Qed.
End Disk.

(** ** One turn *)

Section Turn.
Context `{Platform, Net} `{!NetText} `{!NetTextLaws} `{JsonTextLaws} `{Base64} `{!Serde Action}
  `{!Serde InviteToken} `{!Serde (list string)} `{Uuid}.
Context (sip : string * string * bool * option string * string * N * string -> N).
Implicit Types (x y z : Ctx) (w : World).

(** What a turn may leave of the configuration: a usable one in memory; and on
    a calm disk the file untouched, or one that reads as the configuration in
    memory, or, after an unreadable edit, as the defaults. *)
Definition turned x y : Prop :=
  usable (x_config y) /\
  forall r m, x_paths x = for_root r -> x_fs x = disk m ->
    exists m', x_fs y = disk m' /\
      (unchanged_or r m m' (x_config y) \/ m' !! join r "config.json" = Some (render default_config)).

Lemma turned_files x z : usable (x_config z) -> x_fs z = x_fs x -> turned x z.
Proof. intros Hu Ef. split; [done|]. intros r m _ Hf. exists m. split; [congruence|]. by left; left. Qed.
Lemma turned_refl x : usable (x_config x) -> turned x x.
Proof. intros Hu. by apply turned_files. Qed.
(** Only the configuration and the files count. *)
Lemma turned_after x y z : x_config z = x_config y -> x_fs z = x_fs y -> turned x y -> turned x z.
Proof. intros Ec Ef [Hu Hf]. split; [by rewrite Ec|]. intros r m Hp Hm. rewrite Ef, Ec. by apply Hf. Qed.
Lemma turned_before x y z : x_paths y = x_paths x -> x_fs y = x_fs x -> turned y z -> turned x z.
Proof. intros Ep Ef [Hu Hf]. split; [done|]. intros r m Hp Hm. apply Hf; congruence. Qed.

Lemma adopt_turned w b x : usable (x_config x) -> turned x (adopt_external sip w b x).
Proof.
  intros Hu. unfold adopt_external. destruct (w_seen w) as [t|]; [|by apply turned_refl].
  destruct (t <=? _)%N; [by apply turned_refl|]. unfold run_fs.
  pose proof (fun c => loaded_usable (x_paths x) (w_secs w) (x_fs x) c) as Hl.
  assert (Hd : forall r m, x_paths x = for_root r -> x_fs x = disk m ->
    exists m', (load_quiet (x_paths x) (w_secs w) (x_fs x)).1 = disk m' /\ unchanged_or r m m' default_config).
  { intros r m -> ->. apply load_quiet_calm. }
  destruct (load_quiet _ _ _) as [fs res]. cbn [fst snd] in *.
  assert (Hf : forall z, usable (x_config z) -> x_fs z = fs -> turned x z).
  { intros z Hz Hzf. split; [done|]. intros r m Hp Hm. destruct (Hd r m Hp Hm) as (m' & -> & [E|E]);
      exists m'; (split; [done|]); [by left; left|by right]. }
  destruct res as [[c []]|e]; [by apply Hf| |by apply Hf].
  apply Hf.
  - rewrite (sync_drives_frame x_config). specialize (Hl c eq_refl).
    assert (usable (if b then with_drives c (c_drives (x_config x)) else c)).
    { destruct b; [|done]. apply usable_drives; [done|by apply drives_usable]. }
    by destruct (negb _).
  - rewrite (sync_drives_frame x_fs). by destruct (negb _).
Qed.

Lemma persist_turned w x : usable (x_config x) -> turned x (persist_config sip w x).1.
Proof.
  intros Hu. unfold persist_config. destruct (adopt_turned w true x Hu) as [Ha Hf].
  set (y := adopt_external sip w true x) in *. unfold run_fs.
  split; [by destruct (save _ _ _) as [? []]|]. intros r m Hp Hm. destruct (Hf r m Hp Hm) as (m1 & E1 & _).
  rewrite Hp, E1. destruct (save_config_calm r m1 (x_config y)) as (m2 & -> & E2). exists m2. cbn. split; [done|].
  left. by right.
Qed.

(** A changed configuration that is saved, and what follows the save. *)
Lemma saved_turned w x y z : usable (x_config y) -> x_paths y = x_paths x -> x_fs y = x_fs x ->
  x_config z = x_config (persist_config sip w y).1 -> x_fs z = x_fs (persist_config sip w y).1 -> turned x z.
Proof.
  intros Hu Hp Hf Ec Ef. eapply turned_after; [exact Ec|exact Ef|].
  eapply turned_before; [exact Hp|exact Hf|by apply persist_turned].
Qed.

(** A drive the daemon adds: its address is the text of a parsed one. *)
Lemma pushed_usable x name ma token_env offline :
  usable (x_config x) -> blank name = false ->
  usable (x_config (push_drive x (drive_config name ma token_env offline))).
Proof.
  intros Hu Hn. cbn. apply usable_drives; [done|]. apply Forall_app. split; [by apply drives_usable|].
  repeat constructor; [done|]. cbn. by rewrite addr_text_roundtrip.
Qed.
Lemma new_drive_named name addr n ma : new_drive name addr = Ok (n, ma) -> blank n = false.
Proof.
  unfold new_drive. destruct (addr_parse _) as [a|]; [|done]. intros [= <- _].
  destruct (blank name) eqn:Eb; [|by rewrite blank_trim]. rewrite blank_spaces. unfold default_drive_name.
  destruct (find_map _ _); [done|]. by destruct (find_map _ _).
Qed.

(** The inputs that bring a drive under a name another node chose. *)
Definition named (i : DaemonInput) : Prop :=
  match i with
  | DCommand (CmdJoin invite) => forall t, token_decode invite = Ok t -> blank (t_name t) = false
  | DEvent (EvDriveJoined name _) => blank name = false
  | _ => True
  end.

(** A handler that saves a configuration and then notes and tells. *)
Ltac saved :=
  match goal with
  | |- context [persist_config sip ?w ?y] =>
      eapply (saved_turned w _ y); [|reflexivity|reflexivity|..];
      [|destruct (persist_config sip w y) as [? []]; cbn; try case_match; cbn;
        by rewrite ?(send_frame x_config), ?(send_frame x_fs)..]
  end.

Lemma remove_turned w x name : usable (x_config x) -> turned x (cmd_remove_drive sip w x name).1.1.
Proof.
  intros Hu. unfold cmd_remove_drive. destruct (remove_drive _ _) as [l|] eqn:El; [|by apply turned_refl].
  cbn zeta. set (y := put_drive_views _ _).
  assert (Ey : forall T (f : Ctx -> T), Aside f -> f y = f (put_config x (with_drives (x_config x) l))).
  { intros T f Hside. unfold y. rewrite aside_views, (fold_frame f) by (intros; apply (send_frame f)).
    apply aside_drives. }
  eapply (saved_turned w _ y).
  - rewrite (Ey _ x_config _). apply usable_drives; [done|]. eapply remove_drive_usable; [by apply drives_usable|done].
  - by rewrite (Ey _ x_paths _).
  - by rewrite (Ey _ x_fs _).
  - by destruct (persist_config _ _ _) as [? []].
  - by destruct (persist_config _ _ _) as [? []].
Qed.

Lemma pause_turned w x name b : usable (x_config x) -> turned x (cmd_pause sip w x name b).1.1.
Proof.
  intros Hu. unfold cmd_pause. destruct (pause_drive _ _ _) as [l|] eqn:El; [|by apply turned_refl].
  saved. apply usable_drives; [done|]. eapply pause_drive_usable; [by apply drives_usable|done].
Qed.

(** The list of banned peers is another file. *)
Lemma bans_turned x bans z :
  usable (x_config z) -> x_fs z = (save_bans (x_paths x) bans (x_fs x)).1 -> turned x z.
Proof.
  intros Hu Ef. split; [done|]. intros r m Hp Hm. rewrite Ef, Hp, Hm. eexists. split; [reflexivity|].
  left; left. apply lookup_insert_ne. unfold join. by intros [_ [=]]%app_inj_2.
Qed.

Lemma ban_turned x peer b : usable (x_config x) -> turned x (cmd_ban x peer b).1.1.
Proof.
  intros Hu. unfold cmd_ban, run_fs. destruct (peer_parse peer); [|by apply turned_refl]. cbn.
  apply (bans_turned x (if b then {[peer]} ∪ x_bans x else x_bans x ∖ {[peer]}));
    destruct (save_bans _ _ _) as [fs []]; cbn; try case_match; cbn; try case_match; cbn;
    by rewrite ?(send_frame x_config), ?(send_frame x_fs).
Qed.

Lemma command_turned w x cmd :
  usable (x_config x) -> named (DCommand cmd) -> turned x (execute_command sip w x cmd).1.1.
Proof.
  intros Hu Hn.
  assert (Hs : forall z, x_config z = x_config x -> x_fs z = x_fs x -> turned x z).
  { intros z Ec Ef. by eapply turned_after; [..|apply turned_refl]. }
  destruct cmd; cbn [execute_command];
    try solve [unfold cmd_create_doc, cmd_create_action, cmd_propose, cmd_cosign, cmd_submit, cmd_create_doc_model,
      cmd_create_space, cmd_resync, cmd_invite, run_store; repeat case_match; simplify_eq/=; apply Hs;
      cbn; by rewrite ?(send_frame x_config), ?(send_frame x_fs)].
  - unfold cmd_add_drive. destruct (new_drive name addr) as [[n ma]|] eqn:E; [|by apply Hs].
    apply new_drive_named in E. destruct (has_drive _ _); [by apply Hs|]. saved. by apply pushed_usable.
  - by apply remove_turned.
  - by apply pause_turned.
  - by apply pause_turned.
  - unfold cmd_join, run_store. cbn [named] in Hn. destruct (token_decode invite) as [t|]; [|by apply Hs].
    destruct (register_peer_key _ _ _) as [s [u|e]]; cbn [fst snd]; [|by apply Hs].
    destruct (peer_parse _) as [p|]; [|by apply Hs]. destruct (addr_parse _) as [a|]; [|by apply Hs].
    destruct (has_drive _ _); [by apply Hs|].
    saved. by apply (pushed_usable (put_store x s)), Hn.
  - by apply ban_turned.
  - by apply ban_turned.
  - unfold cmd_set_config. pose proof (set_usable (x_config x) key value Hu) as Hc.
    destruct (set (x_config x) key value) as [c [[]|]]; cbn [fst] in Hc; [by saved|by apply turned_files].
Qed.

Lemma grants_apart {T} (f : Ctx -> T) peer w groups y k i :
  (forall z s, f (put_store z s) = f z) -> f (foldl (grant_group peer w) (y, k, i) groups).1.1 = f y.
Proof.
  intros Hf. revert y k i. induction groups as [|g groups IH]; intros y k i; [done|]. cbn [foldl grant_group].
  unfold run_store. destruct (apply_local_action _ _ _ _ _ _) as [s []]; cbn [fst snd]; by rewrite IH, Hf.
Qed.

Lemma event_turned w x ev :
  usable (x_config x) -> named (DEvent ev) -> turned x (on_engine_event sip w x ev).
Proof.
  intros Hu Hn. destruct ev; cbn [on_engine_event named] in *; try by apply turned_files.
  - unfold on_drive_joined. destruct (existsb _ _); [by apply turned_refl|]. saved. by apply pushed_usable.
  - unfold on_auto_banned, run_fs. case_match; [by apply turned_refl|].
    apply (bans_turned x ({[peer]} ∪ x_bans x)); by destruct (save_bans _ _ _) as [fs []].
  - unfold on_invite_accepted. destruct (x_pending_invites x !! nonce) as [groups|]; [|by apply turned_files].
    set (y := put_pending_invites x _).
    pose proof (grants_apart x_config peer w groups y 0 0 ltac:(done)) as Ec.
    pose proof (grants_apart x_fs peer w groups y 0 0 ltac:(done)) as Ef.
    destruct (foldl _ _ groups) as [[z k] i]. cbn [fst] in Ec, Ef. apply turned_files; cbn; [by rewrite Ec|done].
Qed.

End Turn.

(** ** A concrete turn *)

Import ConfigSample DaemonSample.

