(* ===== verification/Llm.v ===== *)
(** The language-model helpers of the settings server (src/settings/mod.rs):
    the guard on the base URL of a request, the choice between a form value and
    the configured one, and the extraction of a JSON object from an answer that
    may be wrapped in prose.  The requests themselves are not modelled. *)

From stdpp Require Import base gmap strings numbers list.
From Stdlib Require Import Strings.Byte Strings.Ascii.
From S2P Require Import Prelude Json Doc Sample Text Engine Sync Fs Update Config ConfigProps.

(** ** The base URL *)

(** What follows the scheme. *)
Fixpoint after_scheme (s : string) : option string :=
  match s with
  | EmptyString => None
  | String _ s' => match strip_prefix "://" s with Some r => Some r | None => after_scheme s' end
  end.

(** The text before the first character of a set. *)
Fixpoint until (stop : ascii -> bool) (s : string) : string :=
  match s with
  | EmptyString => EmptyString
  | String c s' => if stop c then EmptyString else String c (until stop s')
  end.
Definition one_of (l : list ascii) (c : ascii) : bool := bool_decide (c ∈ l).

(** The host of the URL, as the guard reads it. *)
Definition url_host (base : string) : string :=
  let rest := default base (after_scheme base) in
  let hostport := until (one_of ["/"; "?"; "#"]%char) rest in
  match strip_prefix "[" hostport with
  | Some s => until (one_of ["]"%char]) s
  | None => until (one_of [":"%char]) hostport
  end.

(** [Ipv4Addr::from_str]: four decimal numbers of at most three digits, without
    leading zeros, below 256. *)
Definition octet (s : string) : option N :=
  match s with
  | String "0" (String _ _) => None
  | _ => if (slen s <=? 3) then n ← (match s with EmptyString => None | _ => parse_digits 0 s end);
                                if (n <? 256)%N then Some n else None
         else None
  end.
Definition ipv4_parse (s : string) : option (list N) :=
  match split_char "."%char s with
  | [a; b; c; d] => mapM octet [a; b; c; d]
  | _ => None
  end.
(** [Ipv4Addr::to_bits]. *)
Definition to_bits (l : list N) : N := foldl (fun acc o => N.lor (N.shiftl acc 8) o) 0%N l.

(** [llm_base_url_ok]. *)
Definition llm_base_url_ok (base : string) : result string unit :=
  match ipv4_parse (url_host base) with
  | Some v4 => if (N.shiftr (to_bits v4) 16 =? 169 * 256 + 254)%N
               then Err "refusing LLM request to a link-local (cloud metadata) address" else Ok tt
  | None => Ok tt
  end.

(** [pick]. *)
Definition pick (override_ dflt : string) : string := if blank override_ then dflt else trim override_.

(** ** JSON in an answer *)

(** [str::strip_suffix]. *)
Definition strip_suffix (p s : string) : option string :=
  if bool_decide (slen p <= slen s) && bool_decide (String.substring (slen s - slen p) (slen p) s = p)
  then Some (String.substring 0 (slen s - slen p) s) else None.

Definition quote : ascii := ascii_of_N 34.

(** The loop over the characters from the first brace on: [depth] open braces,
    within a string or not, after a backslash or not.  A brace, a quote and a
    backslash are single bytes, so characters may be read as bytes. *)
Fixpoint scan (depth : nat) (in_str esc : bool) (s : string) : option string :=
  match s with
  | EmptyString => None
  | String c s' =>
      if in_str then
        String c <$> (if esc then scan depth true false s'
                      else if decide (c = "\"%char) then scan depth true true s'
                      else if decide (c = quote) then scan depth false false s'
                      else scan depth true false s')
      else if decide (c = quote) then String c <$> scan depth true false s'
      else if decide (c = "{"%char) then String c <$> scan (S depth) false false s'
      else if decide (c = "}"%char) then
        match depth - 1 with
        | O => Some (String c EmptyString)
        | depth => String c <$> scan depth false false s'
        end
      else String c <$> scan depth false false s'
  end.
(** From the first brace. *)
Fixpoint first_block (s : string) : option string :=
  match s with
  | EmptyString => None
  | String c s' => if decide (c = "{"%char) then scan 0 false false s else first_block s'
  end.

Section Extract.
Context `{JsonText}.

Definition parse_object (s : string) : option Value :=
  match json_parse (as_bytes s) with Ok v => if is_object v then Some v else None | Err _ => None end.

(** A markdown fence taken off. *)
Definition unfenced (s : string) : string :=
  let un := default s ((fun rest => default rest (strip_prefix "json" rest)) <$> strip_prefix "```" s) in
  trim (default un (strip_suffix "```" (trim_end un))).

(** [extract_json_object]. *)
Definition extract_json_object (s : string) : option Value :=
  let s := trim s in
  match parse_object s with
  | Some v => Some v
  | None =>
      match parse_object (unfenced s) with
      | Some v => Some v
      | None =>
          block ← first_block s;
          match json_parse (as_bytes block) with Ok v => Some v | Err _ => None end
      end
  end.
End Extract.

(** ** The guard *)

Lemma parse_digits_octet s n : octet s = Some n -> (n < 256)%N.
Proof.
  unfold octet. repeat case_match; intros E; try done;
    repeat match goal with H : _ ≫= _ = Some _ |- _ => apply bind_Some in H as (? & ? & ?) end;
    repeat case_match; simplify_eq; by apply N.ltb_lt.
Qed.
Lemma ipv4_octets s l :
  ipv4_parse s = Some l -> exists a b c d, l = [a; b; c; d] /\ Forall (fun o => (o < 256)%N) l.
Proof.
  unfold ipv4_parse. destruct (split_char _ s) as [|a [|b [|c [|d [|]]]]]; try done.
  intros Hm. apply mapM_Some in Hm. pose proof (Forall2_length _ _ _ Hm) as Hl.
  destruct l as [|a' [|b' [|c' [|d' [|]]]]]; try done. exists a', b', c', d'. split; [done|].
  clear Hl. induction Hm as [|x y ? ? Hxy]; constructor; [by eapply parse_digits_octet|done].
Qed.

Lemma octet_bits a o : (o < 256)%N -> N.lor (N.shiftl a 8) o = (a * 256 + o)%N.
Proof.
  intros Ho. rewrite N.shiftl_mul_pow2. change (2 ^ 8)%N with 256%N.
  rewrite N.add_nocarry_lxor; [symmetry; apply N.lxor_lor|];
    apply N.bits_inj; intros k; rewrite N.land_spec, N.bits_0;
    (destruct (N.lt_ge_cases k 8) as [Hk|Hk];
      [change 256%N with (2 ^ 8)%N; rewrite N.mul_pow2_bits_low by done; done|];
     rewrite (N.bits_above_log2 o), andb_false_r; [done|]);
    (destruct (decide (o = 0)%N) as [->|]; [cbn; lia|]; apply N.log2_lt_pow2; [lia|];
     eapply N.lt_le_trans; [exact Ho|]; change 256%N with (2 ^ 8)%N; apply N.pow_le_mono_r; lia).
Qed.

(** The guard refuses exactly the hosts it means to: a base URL is refused
    exactly when the host, as the guard reads it, is the text of an IPv4
    address in 169.254.0.0/16. *)
Theorem llm_guard_exact base :
  is_ok (llm_base_url_ok base) = false <->
  exists c d, ipv4_parse (url_host base) = Some [169%N; 254%N; c; d].
Proof.
  unfold llm_base_url_ok. destruct (ipv4_parse (url_host base)) as [l|] eqn:E; [|split; [done|by intros (? & ? & ?)]].
  destruct (ipv4_octets _ _ E) as (a & b & c & d & -> & Hl).
  rewrite !Forall_cons in Hl. destruct Hl as (Ha & Hb & Hc & Hd & _).
  cbn [to_bits foldl]. rewrite !octet_bits by done. rewrite N.shiftr_div_pow2. change (2 ^ 16)%N with 65536%N.
  assert (Eq : ((((0 * 256 + a) * 256 + b) * 256 + c) * 256 + d = (a * 256 + b) * 65536 + (c * 256 + d))%N) by lia.
  rewrite Eq, N.div_add_l, (N.div_small (c * 256 + d)), N.add_0_r by lia.
  destruct (N.eqb_spec (a * 256 + b) (169 * 256 + 254)) as [Ee|Ee].
  - split; [|done]. intros _. exists c, d. do 2 f_equal; [lia|f_equal; lia].
  - split; [done|]. intros (c' & d' & [= -> -> -> ->]). lia.
Qed.

(** What it reads is not always where a client goes: a URL may carry a user
    name, or write the address as an IPv6 one. *)
Lemma llm_guard_bypassed :
  is_ok (llm_base_url_ok "http://169.254.169.254/latest") = false /\
  is_ok (llm_base_url_ok "http://user@169.254.169.254/latest") = true /\
  is_ok (llm_base_url_ok "http://[::ffff:169.254.169.254]/latest") = true.
Proof. split_and!; vm_compute; reflexivity. Qed.

(** ** The block *)

(** What an object looks like to the scan: braces that nest, and string
    literals in which a backslash hides the next character. *)
Inductive literal : string -> Prop :=
  | lit_end : literal (String quote "")
  | lit_escape c s : literal s -> literal (String "\" (String c s))
  | lit_char c s : c <> "\"%char -> c <> quote -> literal s -> literal (String c s).
(** [inside n s]: [s] closes [n] open braces, the last at its end. *)
Inductive inside : nat -> string -> Prop :=
  | in_last : inside 1 "}"
  | in_close n s : inside (S n) s -> inside (S (S n)) (String "}" s)
  | in_open n s : inside (S n) s -> inside n (String "{" s)
  | in_literal n l s : literal l -> inside n s -> inside n (String quote (l +:+ s))
  | in_char n c s : c <> "{"%char -> c <> "}"%char -> c <> quote -> inside n s -> inside n (String c s).
Definition braced (s : string) : Prop := exists s', s = String "{" s' /\ inside 1 s'.

Lemma scan_literal n l s b :
  literal l -> scan n false false s = Some b -> scan n true false (l +:+ s) = Some (l +:+ b).
Proof.
  intros Hl Hs. induction Hl as [|c l _ IH|c l H1 H2 _ IH].
  - change (String quote <$> scan n false false s = Some (String quote b)). by rewrite Hs.
  - change (String "\" <$> (String c <$> scan n true false (l +:+ s)) = Some (String "\" (String c (l +:+ b)))).
    by rewrite IH.
  - change (scan n true false (String c (l +:+ s)) = Some (String c (l +:+ b))). cbn [scan].
    rewrite (decide_False (P := c = "\"%char)), (decide_False (P := c = quote)) by done. by rewrite IH.
Qed.

Lemma scan_inside n b t : inside (S n) b -> scan (S n) false false (b +:+ t) = Some b.
Proof.
  intros Hb. remember (S n) as m eqn:Em. revert n Em.
  induction Hb as [|m s _ IH|m s _ IH|m l s Hl _ IH|m c s H1 H2 H3 _ IH]; intros n Em.
  - done.
  - change (String "}" <$> scan (S m) false false (s +:+ t) = Some (String "}" s)). by rewrite (IH m eq_refl).
  - change (String "{" <$> scan (S m) false false (s +:+ t) = Some (String "{" s)). by rewrite (IH m eq_refl).
  - change (String quote <$> scan m true false ((l +:+ s) +:+ t) = Some (String quote (l +:+ s))).
    rewrite str_app_assoc. by rewrite (scan_literal m l (s +:+ t) s Hl (IH n Em)).
  - change (scan m false false (String c (s +:+ t)) = Some (String c s)). cbn [scan].
    rewrite (decide_False (P := c = quote)), (decide_False (P := c = "{"%char)),
      (decide_False (P := c = "}"%char)) by done. by rewrite (IH n Em).
Qed.

(** And back: what the scan returns is such a text. *)
Definition scanned (n : nat) (in_str esc : bool) (b : string) : Prop :=
  if in_str then
    (if esc then exists c b', b = String c b' /\ exists l s, b' = l +:+ s /\ literal l /\ inside n s
     else exists l s, b = l +:+ s /\ literal l /\ inside n s)
  else inside n b.
Lemma scan_sound n in_str esc s b :
  scan (S n) in_str esc s = Some b -> (in_str = false -> esc = false) ->
  scanned (S n) in_str esc b /\ exists t, s = b +:+ t.
Proof.
  revert n in_str esc b. induction s as [|c s IH]; intros n in_str esc b; [done|]. cbn [scan].
  destruct in_str.
  - destruct esc.
    + intros (b' & Hb & ->)%fmap_Some _. destruct (IH _ _ _ _ Hb) as [Hs [t ->]]; [done|].
      split; [|by exists t]. by exists c, b'.
    + destruct (decide (c = "\"%char)) as [->|N1]; [|destruct (decide (c = quote)) as [->|N2]];
        intros (b' & Hb & ->)%fmap_Some _; (destruct (IH _ _ _ _ Hb) as [Hs [t ->]]; [done|]);
        (split; [|by exists t]).
      * destruct Hs as (c' & b2 & -> & l & s' & -> & Hl & Hi).
        exists (String "\" (String c' l)), s'. split; [done|]. by split; [constructor|].
      * exists (String quote ""), b'. by split; [|split; [constructor|]].
      * destruct Hs as (l & s' & -> & Hl & Hi). exists (String c l), s'. split; [done|].
        by split; [constructor|].
  - intros Hb He. assert (esc = false) as -> by auto. revert Hb.
    destruct (decide (c = quote)) as [->|N1]; [|destruct (decide (c = "{"%char)) as [->|N2];
      [|destruct (decide (c = "}"%char)) as [->|N3]]].
    + intros (b' & Hb & ->)%fmap_Some. destruct (IH _ _ _ _ Hb) as [Hs [t ->]]; [done|].
      split; [|by exists t]. destruct Hs as (l & s' & -> & Hl & Hi). by constructor.
    + intros (b' & Hb & ->)%fmap_Some. destruct (IH _ _ _ _ Hb) as [Hs [t ->]]; [done|].
      split; [|by exists t]. by constructor.
    + cbn. rewrite Nat.sub_0_r. destruct n as [|n].
      * intros [= <-]. split; [constructor|by exists s].
      * intros (b' & Hb & ->)%fmap_Some. destruct (IH _ _ _ _ Hb) as [Hs [t ->]]; [done|].
        split; [|by exists t]. by constructor.
    + intros (b' & Hb & ->)%fmap_Some. destruct (IH _ _ _ _ Hb) as [Hs [t ->]]; [done|].
      split; [|by exists t]. by constructor.
Qed.

(** The scan finds the first object: it returns a block exactly when the
    text has a braced block, strings and escapes respected, that starts at its
    first brace; what comes after is not looked at. *)
Theorem first_block_exact s b :
  first_block s = Some b <->
  exists p t, s = p +:+ b +:+ t /\ has_char "{"%char p = false /\ braced b.
Proof.
  split.
  - induction s as [|c s IH]; [done|]. cbn [first_block]. destruct (decide (c = "{"%char)) as [->|Hc].
    + intros Hs. cbn in Hs. apply fmap_Some in Hs as (b' & Hb & ->).
      destruct (scan_sound 0 false false s b' Hb) as [Hi [t ->]]; [done|].
      exists "", t. split_and!; [done|done|]. by exists b'.
    + intros (p & t & -> & Hp & Hb)%IH. exists (String c p), t. split_and!; [done| |done].
      cbn. by rewrite bool_decide_eq_false_2.
  - intros (p & t & -> & Hp & b' & -> & Hi). induction p as [|c p IHp].
    + change (String "{" <$> scan 1 false false (b' +:+ t) = Some (String "{" b')).
      by rewrite (scan_inside 0 b' t Hi).
    + cbn in Hp. apply orb_false_iff in Hp as [Hc%bool_decide_eq_false Hp].
      change (first_block (String c (p +:+ String "{" b' +:+ t)) = Some (String "{" b')).
      cbn [first_block]. rewrite decide_False by done. by apply IHp.
Qed.
