(* ===== verification/Web.v ===== *)
(** The settings server (src/settings/mod.rs): its state, the way a handler
    reaches the daemon, and the handlers for drives, documents, groups,
    processors and models.

    The server shares the daemon's store and files.  A handler that waits for
    the daemon is [request]: what becomes of the command is an argument,
    [Link], since the channel may be closed and the answer may come after the
    handler has given up waiting, in which case the daemon executes the command
    all the same.  A command that is not waited for is appended to [wb_sent],
    to be executed by the daemon's loop.  A handler runs with no other turn of
    the daemon between its reads and its command. *)

From stdpp Require Import base gmap strings numbers pretty list.
From Stdlib Require Import Strings.Byte Strings.Ascii.
From S2P Require Import Prelude Json Doc Action Model Builtins Entry Store Text Cosign Invite Blob Engine.
From S2P Require Import Fs ReadModel Package Update Processor Logs Status Config Daemon.

(** ** Responses *)

Inductive RespBody : Type :=
  | REmpty
  | RText (s : string)
  | RJson (v : Value)
  | RAction (a : Action)
  | RBytes (b : list byte).
Record Response := { rp_status : N; rp_body : RespBody }.

Definition HTTP_OK : N := 200.
Definition HTTP_CREATED : N := 201.
Definition HTTP_ACCEPTED : N := 202.
Definition HTTP_BAD_REQUEST : N := 400.
Definition HTTP_FORBIDDEN : N := 403.
Definition HTTP_NOT_FOUND : N := 404.
Definition HTTP_CONFLICT : N := 409.
Definition HTTP_INTERNAL : N := 500.
Definition HTTP_UNAVAILABLE : N := 503.

Definition text (st : N) (s : string) : Response := {| rp_status := st; rp_body := RText s |}.
Definition json (st : N) (v : Value) : Response := {| rp_status := st; rp_body := RJson v |}.
Definition empty_reply (st : N) : Response := {| rp_status := st; rp_body := REmpty |}.
(** A handler that panics: the connection is closed without an answer. *)
Definition dropped : Response := {| rp_status := 0; rp_body := REmpty |}.
Definition ok_true : Value := json_obj [("ok", Bool true)].

(** ** The state *)

(** [Settings]: the daemon's context stands for the store, the paths and the
    files; [wb_runner] for the commands sent to the processor engine, whose
    specs and history are [wb_specs] and [wb_fires]. *)
Record Web `{Platform, Net} := {
  wb_ctx : Ctx;
  wb_snap : StatusSnapshot;
  wb_blobs : BlobStore;
  wb_specs : list ProcessorSpec;
  wb_fires : gmap string (list Fire);
  wb_runner : list RunnerCmd;
  wb_update_auto : bool;
  wb_sent : list Command
}.

(** What becomes of a command: the channel is closed, the answer comes too
    late, or in time. *)
Inductive Link := Gone | Late | Prompt.

Section WebState.
Context `{Platform, Net}.
Definition put_ctx (wb : Web) (v : Ctx) : Web :=
  {| wb_ctx := v; wb_snap := wb_snap wb; wb_blobs := wb_blobs wb; wb_specs := wb_specs wb;
     wb_fires := wb_fires wb; wb_runner := wb_runner wb; wb_update_auto := wb_update_auto wb;
     wb_sent := wb_sent wb |}.
Definition put_blobs (wb : Web) (v : BlobStore) : Web :=
  {| wb_ctx := wb_ctx wb; wb_snap := wb_snap wb; wb_blobs := v; wb_specs := wb_specs wb;
     wb_fires := wb_fires wb; wb_runner := wb_runner wb; wb_update_auto := wb_update_auto wb;
     wb_sent := wb_sent wb |}.
Definition put_runner (wb : Web) (v : list RunnerCmd) : Web :=
  {| wb_ctx := wb_ctx wb; wb_snap := wb_snap wb; wb_blobs := wb_blobs wb; wb_specs := wb_specs wb;
     wb_fires := wb_fires wb; wb_runner := v; wb_update_auto := wb_update_auto wb;
     wb_sent := wb_sent wb |}.
(** [let _ = cmd_tx.send(cmd)]. *)
Definition tell (wb : Web) (cmd : Command) : Web :=
  {| wb_ctx := wb_ctx wb; wb_snap := wb_snap wb; wb_blobs := wb_blobs wb; wb_specs := wb_specs wb;
     wb_fires := wb_fires wb; wb_runner := wb_runner wb; wb_update_auto := wb_update_auto wb;
     wb_sent := wb_sent wb ++ [cmd] |}.
Definition wb_store (wb : Web) : Inner := x_store (wb_ctx wb).
Definition wb_paths (wb : Web) : StatePaths := x_paths (wb_ctx wb).
(** A computation on the daemon's files, and one on the store. *)
Definition with_fs {E A} (wb : Web) (m : fsE E A) : Web * result E A :=
  (put_ctx wb (put_fs (wb_ctx wb) (m (x_fs (wb_ctx wb))).1), (m (x_fs (wb_ctx wb))).2).
Definition with_store {A} (wb : Web) (m : storeM A) : Web * result string A :=
  (put_ctx wb (put_store (wb_ctx wb) (m (wb_store wb)).1), (m (wb_store wb)).2).
Definition local_peer (wb : Web) : option string := rs_peer_id (sn_reactor (wb_snap wb)).
End WebState.

(** ** Helpers *)

(** [valid_name]. *)
Definition valid_name (name : string) : bool :=
  negb (bool_decide (name = "")) && (slen name <=? 64)
  && negb (has_char "/"%char name) && negb (has_char (ascii_of_N 0) name).

(** [str::contains] of a text. *)
Fixpoint contains_text (pat s : string) : bool :=
  String.prefix pat s || match s with String _ s' => contains_text pat s' | EmptyString => false end.

(** [Store::model_refs]: the keys of the registry, in order. *)
Definition model_refs `{Platform} (s : Inner) : list ModelRef :=
  (fun k => modelref_new k.1 k.2) <$> sort_by_key (fun k => k) (map_to_list (i_models s)).*1.
Definition named_model `{Platform} (s : Inner) (m : string) : string :=
  match List.find (fun r => bool_decide (mr_name r = m)) (model_refs s) with
  | Some r => mr_name r +:+ "@" +:+ mr_version r
  | None => m
  end.
(** A model name completed with the version that is loaded. *)
Definition full_model `{Platform} (s : Inner) (m : string) : string :=
  if has_char "@"%char m then m else named_model s m.
(** [m.split('@').next()]. *)
Definition model_part (m : string) : string :=
  match split_once "@"%char m with Some (a, _) => a | None => m end.

(** [value[key] = v]: a null becomes an object; anything else that is not an
    object panics. *)
Definition index_set (v : Value) (k : string) (x : Value) : option Value :=
  match v with
  | Object m => Some (Object (obj_insert k x m))
  | Null => Some (json_obj [(k, x)])
  | _ => None
  end.
Definition name_given (payload : Value) : bool :=
  match v ← vget payload "name"; as_str v with Some s => negb (bool_decide (s = "")) | None => false end.

(** The value of a field of a row, as an array. *)
Definition row_array (fields : option Value) (k : string) : list Value :=
  default [] (f ← fields; v ← vget f k; as_array v).
Definition row_name (d : Value) : Value := default Null (vget d "name").
Definition count_json {A} (l : list A) : Value := Number (Z.of_nat (length l)).

(** [drive_item_name]. *)
Definition drive_item_name (item : Value) : string :=
  match as_str item with
  | Some s => s
  | None => default "" (v ← vget item "name"; as_str v)
  end.

(** [default_value]. *)
Definition default_value (t : string) : Value :=
  if decide (t = "string") then Str "" else
  if decide (t = "number") then Number 0 else
  if decide (t = "boolean") then Bool false else
  if decide (t = "object") then Object [] else
  if decide (t ∈ ["string[]"; "number[]"; "boolean[]"; "array"]) then Array [] else Null.

(** [init_payload_with_defaults]. *)
Definition fill_field (fields : Value) (out : list (string * Value)) (ft : string * Value) :
    list (string * Value) :=
  obj_insert ft.1 (default (default_value (default "" (as_str ft.2))) (vget fields ft.1)) out.
Definition pass_field (out : list (string * Value)) (kv : string * Value) : list (string * Value) :=
  match obj_lookup out kv.1 with Some _ => out | None => obj_insert kv.1 kv.2 out end.
Definition init_schema (def : option Value) : option (list (string * Value)) :=
  d ← def; r ← vget d "reducers"; i ← vget r "init"; p ← vget i "payload"; as_object p.
Definition init_payload_with_defaults (def : option Value) (name : string) (fields : Value) : Value :=
  let out := foldl (fill_field fields) [] (default [] (init_schema def)) in
  let out := foldl pass_field out (default [] (as_object fields)) in
  Object (obj_insert "name" (Str name) out).

(** ** Handlers *)

Section Handlers.
Context `{Platform, Net} `{!NetText} `{JsonText} `{Base64} `{!Serde Action} `{!Serde InviteToken}
  `{!Serde (list string)} `{Uuid} `{!Serde (list Value)}.
Context (sip : string * string * bool * option string * string * N * string -> N).
Implicit Types (wb : Web) (env : Link * World).

(** A command that is waited for: [None] when the channel is closed. *)
Definition call env wb (cmd : Command) : Web * option (option Reply) :=
  match env.1 with
  | Gone => (wb, None)
  | l => let out := execute_command sip env.2 (wb_ctx wb) cmd in
         (put_ctx wb out.1.1, Some (match l with Prompt => out.2 | _ => None end))
  end.
Definition reply_error (r : Reply) : option string :=
  match r with
  | ReplyUnit (Err e) | ReplyAction (Err e) | ReplyText (Err e) => Some e
  | _ => None
  end.
Definition closed : Response := text HTTP_UNAVAILABLE "daemon command channel closed".
Definition request env wb (cmd : Command) (late : string) (ok : Reply -> Response)
    (err : string -> Response) : Web * Response :=
  match call env wb cmd with
  | (wb, None) => (wb, closed)
  | (wb, Some None) => (wb, text HTTP_UNAVAILABLE late)
  | (wb, Some (Some r)) => (wb, match reply_error r with Some e => err e | None => ok r end)
  end.
(** The usual answers. *)
Definition said_ok (st : N) (_ : Reply) : Response := json st ok_true.
Definition said_text (key : string) (r : Reply) : Response :=
  match r with
  | ReplyText (Ok s) => json HTTP_OK (json_obj [(key, Str s)])
  | _ => dropped
  end.
Definition said_action (r : Reply) : Response :=
  match r with ReplyAction (Ok a) => {| rp_status := HTTP_OK; rp_body := RAction a |} | _ => dropped end.
Definition refused (e : string) : Response := text HTTP_BAD_REQUEST e.

(** *** Drives and configuration *)

(** [add_drive]. *)
Definition add_drive_api wb (name addr : string) (token_env : option string) (offline : bool) :
    Web * Response :=
  if negb (valid_name name)
  then (wb, refused "drive name may be any characters except '/' (max 64)") else
  if blank addr then (wb, refused "drive addr required") else
  match addr_parse (trim addr) with
  | Err e => (wb, refused ("not a valid multiaddr: " +:+ e))
  | Ok _ => (tell wb (CmdAddDrive name (trim addr) token_env offline), empty_reply HTTP_ACCEPTED)
  end.
(** [drive_cmd] and the four routes behind it. *)
Definition drive_cmd wb (name : string) (cmd : Command) : Web * Response :=
  if negb (valid_name name) then (wb, refused "bad drive name")
  else (tell wb cmd, empty_reply HTTP_ACCEPTED).
Definition remove_drive_api wb (name : string) := drive_cmd wb name (CmdRemoveDrive name).
Definition pause_drive_api wb (name : string) := drive_cmd wb name (CmdPauseDrive name).
Definition resume_drive_api wb (name : string) := drive_cmd wb name (CmdResumeDrive name).
Definition resync_drive_api wb (name : string) := drive_cmd wb name (CmdResyncDrive name).
(** [set_config], [quit], [config_api]. *)
Definition set_config_api wb (key : string) (value : Value) : Web * Response :=
  (tell wb (CmdSetConfig key value), empty_reply HTTP_ACCEPTED).
Definition quit_api wb : Web * Response := (tell wb CmdQuit, empty_reply HTTP_ACCEPTED).
Definition config_api (ts : N) wb : Web * Response :=
  match with_fs wb (load (wb_paths wb) ts) with
  | (wb, Ok c) => (wb, json HTTP_OK (config_json c))
  | (wb, Err e) => (wb, text HTTP_INTERNAL ("loading config: " +:+ config_error_text e))
  end.

(** [overview_api]. *)
Definition POLL_INTERVAL : N := 5.
Definition number (n : N) : Value := Number (Z.of_N n).
Definition overview_json (snap : StatusSnapshot) (cfg : ReactorConfig) (sp : StatePaths)
    (peers : list string) (log_size : N) : Value :=
  let r := sn_reactor snap in
  json_obj
    [("peerId", opt_json (rs_peer_id r)); ("instanceName", Str (in_name (c_instance cfg)));
     ("listen", Str (rs_listen r)); ("peerCount", Number (Z.of_nat (length peers + 1)));
     ("knownPeers", json_strs peers); ("liveDocCount", number (rs_docs r));
     ("docsDir", Str (path_display (docs_dir sp)));
     ("syncEngine", json_obj
        [("running", Bool (rs_running r)); ("healthy", Bool (rs_healthy r));
         ("peerId", opt_json (rs_peer_id r)); ("listen", Str (rs_listen r));
         ("configuredDrives", count_json (sn_drives snap));
         ("activeDrives", Number (Z.of_nat (rs_active_drives r)));
         ("lastEvent", opt_json (rs_last_event r)); ("mdns", Bool (pp_mdns (c_p2p cfg)));
         ("dht", Bool (pp_dht (c_p2p cfg))); ("relay", Bool (pp_relay (c_p2p cfg)))]);
     ("store", json_obj [("docs", number (rs_docs r)); ("lastDoc", opt_json (rs_last_doc r))]);
     ("settingsServer", json_obj [("url", Str (ss_url (sn_settings snap)))]);
     ("logRotation", json_obj [("file", Str (path_display (reactor_log sp)));
                               ("sizeBytes", number log_size); ("logLevel", Str (c_log_level cfg))]);
     ("statusPoller", json_obj [("intervalSec", number POLL_INTERVAL);
                                ("lastRefresh", Str (sn_updated_at snap))]);
     ("llm", json_obj [("baseUrl", Str (llm_base_url (c_llm cfg))); ("model", Str (llm_model (c_llm cfg)));
                       ("apiKeyEnv", Str (llm_api_key_env (c_llm cfg)))])].
Definition overview_api (ts : N) wb : Web * Response :=
  let '(wb, c) := with_fs wb (load (wb_paths wb) ts) in
  let cfg := match c with Ok c => c | Err _ => default_config end in
  let '(wb, n) := with_fs wb (fs_len (reactor_log (wb_paths wb))) in
  let size := match n with Ok n => n | Err _ => 0%N end in
  (wb, json HTTP_OK (overview_json (wb_snap wb) cfg (wb_paths wb) (known_peers (wb_store wb)) size)).

(** *** Documents *)

(** [run_create_action]. *)
Definition run_create_action env wb (name model kind : string) (payload : Value) : Web * Response :=
  if negb (valid_name name)
  then (wb, refused "name may be any characters except '/' (max 64)")
  else request env wb (CmdCreateAction name model kind payload) "action timed out" said_action refused.
(** [run_create_doc_in_space], [run_create_doc_model]. *)
Definition run_create_doc_in_space env wb (name model : string) (payload : Value)
    (space : option string) : Web * Response :=
  if negb (valid_name name)
  then (wb, refused "name may be any characters except '/' (max 64)")
  else request env wb (CmdCreateDocModel name model payload space) "create timed out"
         (said_ok HTTP_OK) refused.
Definition run_create_doc_model env wb (name model : string) (payload : Value) : Web * Response :=
  run_create_doc_in_space env wb name model payload None.

(** [add_doc]. *)
Definition doc_failed (e : string) : Response :=
  text (if contains_text "already exists" e then HTTP_CONFLICT else HTTP_BAD_REQUEST) e.
Definition add_doc env wb (name : string) (fields : gmap string Value) (model : option string) :
    Web * Response :=
  if negb (valid_name name)
  then (wb, refused "doc name may be any characters except '/' (max 64)") else
  match model with
  | Some m =>
      let payload := fields_json fields in
      let payload := if name_given payload then payload
                     else default payload (index_set payload "name" (Str name)) in
      run_create_doc_model env wb name (full_model (wb_store wb) m) payload
  | None => request env wb (CmdCreateDoc name fields) "doc creation timed out"
              (said_ok HTTP_CREATED) doc_failed
  end.
(** [action_doc]. *)
Definition action_doc env wb (name kind : string) (payload : Value) (model : string) : Web * Response :=
  if negb (valid_name name)
  then (wb, refused "doc name may be any characters except '/' (max 64)") else
  let model := if blank model then "open@1" else full_model (wb_store wb) (trim model) in
  request env wb (CmdCreateAction name model kind payload) "model action timed out" said_action refused.

(** [query_api] and [docs_api]; [doc_detail]. *)
Definition docs_api (parse_json : string -> option Value) wb (model field value : option string) :
    Response :=
  let filter := f ← field; v ← value; parse_filter parse_json (f +:+ "=" +:+ v) in
  json HTTP_OK (Array (query_docs (wb_store wb) (default "" model) filter)).
Definition doc_detail wb (name : string) : Response :=
  match d ← get_doc (wb_store wb) name; full_state (wb_store wb) (doc_id d) with
  | None => text HTTP_NOT_FOUND "no such document"
  | Some st =>
      json HTTP_OK (json_obj [("name", Str (doc_name (ds_doc st))); ("model", Str (mr_name (ds_model st)));
                              ("fields", fields_json (fld_value <$> doc_fields (ds_doc st)))])
  end.

(** *** Invites, bans and proposals *)

Definition make_invite env wb (groups : list string) : Web * Response :=
  request env wb (CmdInvite groups) "invite generation timed out" (said_text "invite") refused.
Definition join_invite env wb (invite : string) : Web * Response :=
  request env wb (CmdJoin invite) "join timed out" (said_ok HTTP_ACCEPTED) refused.
Definition ban_peer env wb (peer : string) : Web * Response :=
  request env wb (CmdBan peer) "ban timed out" (said_ok HTTP_OK) refused.
Definition unban_peer env wb (peer : string) : Web * Response :=
  request env wb (CmdUnban peer) "unban timed out" (said_ok HTTP_OK) refused.

(** [string_command] and the three endpoints behind it. *)
Definition string_command env wb (cmd : Command) : Web * Response :=
  request env wb cmd "timed out" (said_text "token") refused.
Definition propose_model (model : option string) : string :=
  match model with
  | Some m => if has_char "@"%char m then m else m +:+ "@1"
  | None => "group@1"
  end.
Definition propose_api env wb (group kind : string) (payload : Value) (model : option string) :
    Web * Response :=
  string_command env wb (CmdPropose group (propose_model model) kind payload).
Definition cosign_api env wb (token : string) : Web * Response := string_command env wb (CmdCoSign token).
Definition submit_api env wb (token : string) : Web * Response := string_command env wb (CmdSubmit token).

(** *** Processors *)

Definition processor_spec_from (name : string) (models : list string) (action_kind field : option string)
    (value : option Value) (reaction : Reaction) (now_ms : N) : ProcessorSpec :=
  {| ps_name := name; ps_models := models; ps_action_kind := action_kind; ps_field := field;
     ps_value := value; ps_reaction := reaction; ps_created := now_ms |}.
Definition processor_create_api wb (spec : ProcessorSpec) : Web * Response :=
  if negb (valid_name (ps_name spec)) then (wb, refused "bad processor name")
  else (put_runner wb (wb_runner wb ++ [SetSpec spec]), json HTTP_CREATED ok_true).
Definition rename_spec (spec : ProcessorSpec) (name : string) : ProcessorSpec :=
  {| ps_name := name; ps_models := ps_models spec; ps_action_kind := ps_action_kind spec;
     ps_field := ps_field spec; ps_value := ps_value spec; ps_reaction := ps_reaction spec;
     ps_created := ps_created spec |}.
Definition processor_update_api wb (name : string) (spec : ProcessorSpec) : Web * Response :=
  (put_runner wb (wb_runner wb ++ [SetSpec (rename_spec spec name)]), json HTTP_OK ok_true).
Definition processor_remove_api wb (name : string) : Web * Response :=
  (put_runner wb (wb_runner wb ++ [RemoveSpec name]), json HTTP_OK ok_true).
(** [processor_list_api], [processor_fires_api]; the JSON of a spec and of a
    fire are arguments. *)
Definition processor_list_api (spec_json : ProcessorSpec -> Value) wb : Response :=
  json HTTP_OK (Array (spec_json <$> wb_specs wb)).
Definition processor_fires_api (fire_json : Fire -> Value) wb (name : string) : Response :=
  json HTTP_OK (Array (fire_json <$> default [] (wb_fires wb !! name))).

(** *** Groups *)

(** [groups_api]. *)
Definition group_row (d : Value) : Value :=
  let f := vget d "fields" in
  json_obj [("name", row_name d); ("members", Array (row_array f "members"));
            ("managers", Array (row_array f "managers"));
            ("memberCount", count_json (row_array f "members"));
            ("managerCount", count_json (row_array f "managers"));
            ("msgCount", count_json (row_array f "msg_text"));
            ("driveCount", count_json (row_array f "drive"))].
Definition groups_api wb : Response :=
  json HTTP_OK (Array (group_row <$> query_docs (wb_store wb) "group" None)).

(** A list with the local peer added at its end unless it is there. *)
Definition with_local (local : option string) (l : list string) : list string :=
  match local with
  | Some p => if bool_decide (p ∈ l) then l else l ++ [p]
  | None => l
  end.
(** [create_group]. *)
Definition create_group env wb (name : string) (members managers : list string) : Web * Response :=
  let local := local_peer wb in
  run_create_doc_model env wb name "group@1"
    (json_obj [("name", Str name); ("members", json_strs (with_local local members));
               ("managers", json_strs (with_local local managers))]).
(** [group_action]. *)
Definition group_action env wb (name kind : string) (payload : Value) : Web * Response :=
  run_create_action env wb name "group@1" kind payload.

(** [group_activity]: the last fifty actions, the newest first. *)
Definition activity_row (a : Action) : Value :=
  json_obj [("kind", Str (a_kind a)); ("actor", Str (a_origin a)); ("ts", Number (Z.of_N (a_ts a)));
            ("cosigners", json_strs (cs_origin <$> a_cosig a)); ("payload", a_payload a)].
Definition group_activity wb (name : string) : Response :=
  match get_doc (wb_store wb) name with
  | None => text HTTP_NOT_FOUND "no such group"
  | Some doc =>
      json HTTP_OK (Array (activity_row <$> take 50 (reverse (catch_up (wb_store wb) (doc_id doc) ∅).2)))
  end.

(** The document a group route is about: [store.get], then [full_state]. *)
Definition named_state wb (name : string) : option DocState :=
  d ← get_doc (wb_store wb) name; full_state (wb_store wb) (doc_id d).
Definition field_or (st : DocState) (k : string) : Value :=
  default (Array []) (fld_value <$> doc_fields (ds_doc st) !! k).
Definition field_items (st : DocState) (k : string) : list Value :=
  default [] (as_array (field_or st k)).

(** [group_detail]. *)
Definition group_detail wb (name : string) : Response :=
  match named_state wb name with
  | None => text HTTP_NOT_FOUND "no such group"
  | Some st =>
      json HTTP_OK
        (json_obj [("name", Str (doc_name (ds_doc st))); ("members", field_or st "members");
                   ("managers", field_or st "managers"); ("msgFrom", field_or st "msg_from");
                   ("msgText", field_or st "msg_text"); ("msgTs", field_or st "msg_ts");
                   ("msgChannel", field_or st "msg_channel"); ("channels", field_or st "channels");
                   ("drive", field_or st "drive")])
  end.

(** [drive_list]: one item. *)
Definition drive_value (entry : Value) : Value :=
  match as_str entry with
  | Some s => json_obj [("name", Str s); ("kind", Str "doc"); ("model", Str "note"); ("parent", Null)]
  | None => entry
  end.
Definition drive_row wb (entry : Value) : Value :=
  let item := drive_value entry in
  let name := drive_item_name item in
  let kind := default "doc" (v ← vget item "kind"; as_str v) in
  let model := default Null (vget item "model") in
  let base := [("name", Str name); ("kind", Str kind); ("model", model);
               ("parent", default Null (vget item "parent"))] in
  if bool_decide (kind = "doc") && negb (bool_decide (name = "")) then
    match named_state wb name with
    | Some ds =>
        let fields := fld_value <$> doc_fields (ds_doc ds) in
        json_obj (base ++ [("model", Str (mr_name (ds_model ds))); ("fields", fields_json fields);
                           ("title", default (Str name) (fields !! "title"))])
    | None => json_obj (base ++ [("missing", Bool true)])
    end
  else json_obj base.
Definition drive_list wb (name : string) : Response :=
  match named_state wb name with
  | None => text HTTP_NOT_FOUND "no such group"
  | Some gst => json HTTP_OK (Array (drive_row wb <$> field_items gst "drive"))
  end.

(** [channel_add]. *)
Definition channel_add env wb (group name visibility : string) (members : list string) :
    Web * Response :=
  if negb (valid_name name)
  then (wb, refused "a channel name is required (no '/', max 64)") else
  let vis := if bool_decide (visibility = "private") then "private" else "public" in
  let item := json_obj [("name", Str name); ("visibility", Str vis); ("members", json_strs members)] in
  run_create_action env wb group "group@1" "add-channel" (json_obj [("item", item)]).

(** [set_group_field]. *)
Definition set_group_field env wb (group field reducer : string) (next : Value) : Web * Response :=
  run_create_action env wb group "group@1" reducer (Object (obj_insert field next [])).
(** [channel_remove], [drive_remove]: the array without the item, set whole. *)
Definition item_name (c : Value) : option string := v ← vget c "name"; as_str v.
Definition channel_remove env wb (group chan : string) : Web * Response :=
  match named_state wb group with
  | None => (wb, text HTTP_NOT_FOUND "no such group")
  | Some gst =>
      set_group_field env wb group "channels" "remove-channel"
        (Array (filter (fun c => item_name c <> Some chan) (field_items gst "channels")))
  end.
Definition drive_remove env wb (group item : string) : Web * Response :=
  match named_state wb group with
  | None => (wb, text HTTP_NOT_FOUND "no such group")
  | Some gst =>
      set_group_field env wb group "drive" "remove-item"
        (Array (filter (fun i => drive_item_name i <> item) (field_items gst "drive")))
  end.

Definition parent_json (parent : option string) : Value :=
  match parent with Some p => Str p | None => Null end.
Definition add_item env wb (group kind : string) (item : list (string * Value)) : Web * Response :=
  run_create_action env wb group "group@1" kind (json_obj [("item", json_obj item)]).
(** [drive_folder]. *)
Definition drive_folder env wb (group name : string) (parent : option string) : Web * Response :=
  if negb (valid_name name)
  then (wb, refused "a folder name is required (no '/', max 64)") else
  add_item env wb group "add-folder"
    [("name", Str name); ("kind", Str "folder"); ("model", Null); ("parent", parent_json parent)].

(** The name given, trimmed, or one made of the type and the time. *)
Definition given_or_made (name : option string) (type_name : string) (ms : N) : string :=
  match name with
  | Some n => if blank n then type_name +:+ "-" +:+ pretty ms else trim n
  | None => type_name +:+ "-" +:+ pretty ms
  end.
Definition definition_of wb (model : string) : option Value :=
  match modelref_parse model with
  | Ok r => model_definition (wb_store wb) r
  | Err _ => None
  end.
(** [drive_doc]; the second command goes out after the answer to the first, so
    it has an environment of its own. *)
Definition drive_doc env env2 (ms : N) wb (group : string) (name : option string) (model : string)
    (parent : option string) (fields : Value) : Web * Response :=
  if blank model then (wb, refused "a model type is required") else
  let model := named_model (wb_store wb) model in
  let type_name := model_part model in
  let doc_name := given_or_made name type_name ms in
  let payload := init_payload_with_defaults (definition_of wb model) doc_name fields in
  let '(wb, created) := run_create_doc_model env wb doc_name model payload in
  if negb (bool_decide (rp_status created = HTTP_OK)) then (wb, created) else
  add_item env2 wb group "add-doc"
    [("name", Str doc_name); ("kind", Str "doc"); ("model", Str type_name);
     ("parent", parent_json parent)].
(** [drive_add]. *)
Definition drive_add env env2 (ms : N) wb (group : string) (name : option string)
    (title body : string) : Web * Response :=
  let note_name := given_or_made name "note" ms in
  let title := if blank title then note_name else title in
  let payload := json_obj [("name", Str note_name); ("title", Str title); ("body", Str body)] in
  let '(wb, created) := run_create_doc_model env wb note_name "note@1" payload in
  if negb (bool_decide (rp_status created = HTTP_OK)) then (wb, created) else
  add_item env2 wb group "add-doc"
    [("name", Str note_name); ("kind", Str "doc"); ("model", Str "note"); ("parent", Null)].

(** *** Folders *)

(** [folders_api], [create_folder], [folder_action]. *)
Definition folder_row (d : Value) : Value :=
  let f := vget d "fields" in
  json_obj [("name", row_name d); ("description", default (Str "") (x ← f; vget x "description"));
            ("members", Array (row_array f "members"));
            ("memberCount", count_json (row_array f "members"))].
Definition folders_api wb : Response :=
  json HTTP_OK (Array (folder_row <$> query_docs (wb_store wb) "folder" None)).
Definition create_folder env wb (name description : string) (members : list string) : Web * Response :=
  run_create_doc_model env wb name "folder@1"
    (json_obj [("name", Str name); ("description", Str description); ("members", json_strs members)]).
Definition folder_action env wb (name kind : string) (payload : Value) : Web * Response :=
  run_create_action env wb name "folder@1" kind payload.

(** *** Models *)

(** [models_api]. *)
Definition model_row wb (r : ModelRef) : Value :=
  let def := default Null (model_definition (wb_store wb) r) in
  json_obj [("name", Str (mr_name r)); ("version", Str (mr_version r));
            ("fields", default (Object []) (vget def "fields"));
            ("reducers", default (Object []) (vget def "reducers"));
            ("enums", default (Object []) (vget def "enums"))].
Definition models_api wb : Response :=
  json HTTP_OK (Array (model_row wb <$> model_refs (wb_store wb))).
(** [register_model]: a definition that cannot be written down is registered
    all the same. *)
Definition register_model wb (definition : Value) : Web * Response :=
  match from_def definition with
  | Err e => (wb, json HTTP_BAD_REQUEST (json_obj [("ok", Bool false); ("error", Str e)]))
  | Ok l =>
      let wb := put_ctx wb (put_store (wb_ctx wb) (add_model (wb_store wb) (ML1 l))) in
      let '(wb, _) := with_fs wb (persist_save (models_file (wb_paths wb)) definition) in
      (wb, json HTTP_CREATED (json_obj [("ok", Bool true); ("name", Str (mr_name (ref_ (ML1 l))))]))
  end.
End Handlers.
