(* ===== verification/Console.v ===== *)
(** What the settings server shows and lets an app do inside a space: the
    spaces (src/settings/spaces.rs), the inbox (src/settings/inbox.rs) and the
    plugin bridge (src/settings/mod.rs), where a package's declared
    capabilities are enforced. *)

From stdpp Require Import base gmap strings numbers pretty list.
From Stdlib Require Import Strings.Byte Strings.Ascii.
From S2P Require Import Prelude Json Doc Action Model Builtins Entry Store Text Cosign Invite Blob Engine.
From S2P Require Import Fs ReadModel Package Update Processor Status Config Daemon Web.

(** ** Rows of a query *)

(** [d.get("name").and_then(as_str)]. *)
Definition row_text (d : Value) (k : string) : option string := v ← vget d k; as_str v.
(** [field], [str_array]. *)
Definition row_field (d : Value) (k : string) : option Value := f ← vget d "fields"; vget f k.
Definition items_of (d : Value) (k : string) : list Value :=
  default [] (v ← row_field d k; as_array v).
Definition str_array (d : Value) (k : string) : list string := omap as_str (items_of d k).
(** [into_iter().find] of the row with a name. *)
Definition row_named (l : list Value) (name : string) : option Value :=
  head (filter (fun d => row_text d "name" = Some name) l).

(** [tier_meaning]. *)
Definition tier_meaning (visibility : string) : string :=
  if decide (visibility = PUBLIC) then "Anyone on the mesh can read this. Managers manage it." else
  if decide (visibility = PROTECTED) then
    "Only members can read this. Every member holds a full, unencrypted copy, so anyone who ever had access keeps what they saw — removing someone stops new data reaching them, it does not take back the old."
  else if decide (visibility = PRIVATE) then
    "Only this node can read this. It is never sent anywhere, which also means there is no copy of it anywhere else if this machine is lost."
  else "Unknown tier — treated as private.".

(** ** The inbox: evaluating the rules *)

(** [Row]. *)
Record Row := {
  rw_doc : string;
  rw_model : string;
  rw_app : string;
  rw_label : string;
  rw_space : string;
  rw_space_tier : string
}.
(** [conditions_hold], [names_me]. *)
Definition conditions_hold (rule : Attention) (fields : Value) : bool :=
  forallb (fun kw : string * Value => bool_decide (vget fields kw.1 = Some kw.2)) (at_when rule).
Definition names_me (fields : Value) (field me : string) : bool :=
  match vget fields field with
  | Some (Array a) => existsb (fun v => bool_decide (as_str v = Some me)) a
  | Some (Str s) => bool_decide (s = me)
  | _ => false
  end.

Section Inbox.
Context `{Platform} `{Uuid}.
Implicit Type s : Inner.

(** [doc_space]: the name and the tier of a document's space. *)
Definition doc_space s (name : string) : option (string * string) :=
  d ← get_doc s name;
  sp ← space_of s (doc_id d);
  tier ← space_visibility s (doc_id d);
  Some (store_doc_name s sp, tier).
(** The body of the loop of [rows_for]. *)
Definition inbox_row s (app : string) (rule : Attention) (me : string) (doc : Value) : option Row :=
  name ← row_text doc "name";
  let fields := default Null (vget doc "fields") in
  if negb (conditions_hold rule fields) || negb (names_me fields (at_needs rule) me) then None else
  sp ← doc_space s name;
  Some {| rw_doc := name; rw_model := at_model rule; rw_app := app; rw_label := at_label rule;
          rw_space := sp.1; rw_space_tier := sp.2 |}.
(** [rows_for]. *)
Definition rows_for s (rules : list (string * Attention)) (me : string) : list Row :=
  sort_by_key (fun r => (rw_space r, rw_doc r))
    (rules ≫= fun ar => omap (inbox_row s ar.1 ar.2 me) (query_docs s (at_model ar.2) None)).
End Inbox.

(** The derived [Serialize] of [Row]. *)
Definition row_json (r : Row) : Value :=
  json_obj [("doc", Str (rw_doc r)); ("model", Str (rw_model r)); ("app", Str (rw_app r));
            ("label", Str (rw_label r)); ("space", Str (rw_space r));
            ("spaceTier", Str (rw_space_tier r))].

(** ** Handlers *)

Section Handlers.
Context `{Platform, Net} `{!NetText} `{JsonText} `{Base64} `{!Serde Action} `{!Serde InviteToken}
  `{!Serde (list string)} `{Uuid} `{!Serde (list Value)} `{TextOps} `{!Serde Installed}.
Context (sip : string * string * bool * option string * string * N * string -> N).
Implicit Types (wb : Web) (env : Link * World).

(** [Installed::load] of the node's file: never an error. *)
Definition load_installed wb : Web * Installed :=
  let '(wb, r) := with_fs wb (installed_load (packages_file (wb_paths wb))) in
  (wb, match r with Ok l => l | Err _ => [] end).

(** *** Spaces *)

(** [spaces::list]. *)
Definition space_row (d : Value) : Value :=
  let visibility := default PRIVATE (v ← row_field d "visibility"; as_str v) in
  json_obj [("name", row_name d); ("visibility", Str visibility);
            ("meaning", Str (tier_meaning visibility)); ("members", json_strs (str_array d "members"));
            ("managers", json_strs (str_array d "managers")); ("apps", Array (items_of d "apps"))].
Definition spaces_list wb : Response :=
  json HTTP_OK (Array (space_row <$> query_docs (wb_store wb) "space" None)).
(** [spaces::create]. *)
Definition space_create env wb (name visibility : string) (members managers : list string) :
    Web * Response :=
  let visibility := to_lowercase (trim visibility) in
  if negb (bool_decide (visibility ∈ [PUBLIC; PROTECTED; PRIVATE]))
  then (wb, refused "visibility must be public, protected or private") else
  let local := local_peer wb in
  request sip env wb
    (CmdCreateSpace name visibility (with_local local members) (with_local local managers))
    "create timed out" (said_ok HTTP_OK) refused.
(** [spaces::action]. *)
Definition space_action env wb (name kind : string) (payload : Value) : Web * Response :=
  run_create_action sip env wb name "space@1" kind payload.
(** [enable_app]. *)
Definition enable_app env wb (name app : string) : Web * Response :=
  let '(wb, installed) := load_installed wb in
  match installed_get installed app with
  | None => (wb, refused ("'" +:+ app +:+ "' is not installed on this node"))
  | Some pkg =>
      let item := json_obj [("name", Str (pkg_name pkg)); ("version", Str (mf_version (ip_manifest pkg)))] in
      run_create_action sip env wb name "space@1" "enable-app" (json_obj [("item", item)])
  end.
(** [disable_app]. *)
Definition disable_app env wb (name app : string) : Web * Response :=
  match row_named (query_docs (wb_store wb) "space" None) name with
  | None => (wb, text HTTP_NOT_FOUND "no such space")
  | Some doc =>
      let remaining := filter (fun a => row_text a "name" <> Some app) (items_of doc "apps") in
      run_create_action sip env wb name "space@1" "disable-app" (json_obj [("apps", Array remaining)])
  end.
(** [spaces::add_doc]. *)
Definition space_add_doc env wb (space name model : string) (payload : Value) : Web * Response :=
  run_create_doc_in_space sip env wb name model payload (Some space).
(** [app_enabled_in]. *)
Definition app_enabled_in wb (space app : string) : bool :=
  match row_named (query_docs (wb_store wb) "space" None) space with
  | Some d => existsb (fun a => bool_decide (row_text a "name" = Some app)) (items_of d "apps")
  | None => false
  end.

(** [installed_rules], [inbox::list]. *)
Definition rules_of (installed : Installed) : list (string * Attention) :=
  installed ≫= fun p => (fun r => (pkg_name p, r)) <$> mf_attention (ip_manifest p).
Definition inbox_list wb : Web * Response :=
  let me := default "" (local_peer wb) in
  let '(wb, installed) := load_installed wb in
  (wb, json HTTP_OK (Array (row_json <$> rows_for (wb_store wb) (rules_of installed) me))).

(** *** The plugin bridge *)

(** [installed_package]. *)
Definition installed_package wb (name : string) : Web * option InstalledPackage :=
  let '(wb, installed) := load_installed wb in (wb, installed_get installed name).

(** [plugins_api]. *)
Definition plugin_row (p : InstalledPackage) : Value :=
  let m := ip_manifest p in
  json_obj [("name", Str (mf_name m)); ("version", Str (mf_version m));
            ("description", Str (mf_description m)); ("publisher", Str (pi_name (mf_publisher m)));
            ("publisherKey", Str (mf_publisher_key m));
            ("hasEditor", Bool (bool_decide (is_Some (mf_bundle m))));
            ("capabilities", json_strs (capabilities_describe (mf_capabilities m)));
            ("publishes", json_strs (projection_describe <$> mf_projections m));
            ("interrupts", json_strs (attention_describe <$> mf_attention m));
            ("nav", Array (nav_json <$> ui_nav (mf_ui m)));
            ("installedAt", Str (ip_installed_at p))].
Definition plugins_api wb : Web * Response :=
  let '(wb, installed) := load_installed wb in
  (wb, json HTTP_OK (Array (plugin_row <$> installed))).

(** Whether a request that may name a space names one the app is enabled in. *)
Definition space_allows wb (space : option string) (app : string) : bool :=
  match space with Some sp => app_enabled_in wb sp app | None => true end.
Definition not_enabled (app : string) : Response :=
  text HTTP_FORBIDDEN ("'" +:+ app +:+ "' is not enabled in this space").
(** The space of the document behind a row, through its name. *)
Definition row_space wb (d : Value) : option DocId :=
  n ← row_text d "name"; doc ← get_doc (wb_store wb) n; space_of (wb_store wb) (doc_id doc).
(** [plugin_query]. *)
Definition plugin_query wb (name model : string) (filter_ : option FieldFilter)
    (space : option string) : Web * Response :=
  let '(wb, pkg) := installed_package wb name in
  match pkg with
  | None => (wb, text HTTP_NOT_FOUND "no such package installed")
  | Some pkg =>
      if negb (may_read (mf_capabilities (ip_manifest pkg)) model)
      then (wb, text HTTP_FORBIDDEN ("this plugin may not read " +:+ model)) else
      if negb (space_allows wb space name) then (wb, not_enabled name) else
      let docs := query_docs (wb_store wb) (model_part model) filter_ in
      let docs := match space with
                  | None => docs
                  | Some sp =>
                      let space_id := doc_id <$> get_doc (wb_store wb) sp in
                      filter (fun d => row_space wb d = space_id) docs
                  end in
      (wb, json HTTP_OK (Array docs))
  end.
(** [plugin_action]. *)
Definition plugin_action env wb (name model kind doc : string) (payload : Value)
    (space : option string) : Web * Response :=
  let '(wb, pkg) := installed_package wb name in
  match pkg with
  | None => (wb, text HTTP_NOT_FOUND "no such package installed")
  | Some pkg =>
      if negb (may_write (mf_capabilities (ip_manifest pkg)) model kind)
      then (wb, text HTTP_FORBIDDEN ("this plugin may not perform " +:+ kind +:+ " on " +:+ model)) else
      if negb (space_allows wb space name) then (wb, not_enabled name) else
      if bool_decide (kind = "init") then
        match (if name_given payload then Some payload else index_set payload "name" (Str doc)) with
        | Some payload => run_create_doc_in_space sip env wb doc model payload space
        | None => (wb, dropped)
        end
      else run_create_action sip env wb doc model kind payload
  end.
(** [plugin_history]. *)
Definition history_row (a : Action) : Value :=
  json_obj [("kind", Str (a_kind a)); ("actor", Str (a_origin a)); ("ts", Number (Z.of_N (a_ts a)));
            ("at", Str (rfc3339 (a_ts a / 1000000)));
            ("cosigners", json_strs (cs_origin <$> a_cosig a)); ("payload", a_payload a)].
Definition plugin_history wb (name model doc : string) (limit : option nat) : Web * Response :=
  let '(wb, pkg) := installed_package wb name in
  match pkg with
  | None => (wb, text HTTP_NOT_FOUND "no such package installed")
  | Some pkg =>
      if negb (may_read (mf_capabilities (ip_manifest pkg)) model)
      then (wb, text HTTP_FORBIDDEN ("this plugin may not read " +:+ model)) else
      match get_doc (wb_store wb) doc with
      | None => (wb, text HTTP_NOT_FOUND "no such document")
      | Some d =>
          let st := full_state (wb_store wb) (doc_id d) in
          if negb (bool_decide ((mr_name ∘ ds_model) <$> st = Some (model_part model)))
          then (wb, text HTTP_FORBIDDEN (doc +:+ " is not a " +:+ model)) else
          let actions := (catch_up (wb_store wb) (doc_id d) ∅).2 in
          (wb, json HTTP_OK
                 (Array (history_row <$> take (Nat.min (default 50 limit) 200) (reverse actions))))
      end
  end.

(** *** Plugin assets (src/settings/assets.rs) *)

(** [bundle]: the editor of an installed package, from the chunk store. *)
Definition bundle (show_hash : Hash32 -> string) wb (name : string) : Web * Response :=
  let '(wb, pkg) := installed_package wb name in
  match pkg with
  | None => (wb, text HTTP_NOT_FOUND "no such package installed")
  | Some pkg =>
      match mf_bundle (ip_manifest pkg) with
      | None => (wb, text HTTP_NOT_FOUND "this package has no editor")
      | Some blob =>
          (wb, match get show_hash (wb_blobs wb) blob with
               | Ok b => {| rp_status := HTTP_OK; rp_body := RBytes b |}
               | Err _ => text HTTP_UNAVAILABLE "bundle unavailable"
               end)
      end
  end.

(** [index] and [router], on the segments of the path; a parameter does not
    match an empty segment. *)
Definition asset_index : Response := text HTTP_OK "ph-reactor plugin assets".
Definition asset_router (show_hash : Hash32 -> string) wb (path : list string) : option (Web * Response) :=
  match path with
  | [] => Some (wb, asset_index)
  | [seg; name] =>
      if bool_decide (seg = "plugin") && negb (bool_decide (name = ""))
      then Some (bundle show_hash wb name) else None
  | _ => None
  end.
End Handlers.
