(* ===== verification/Offers.v ===== *)
(** The settings server's package, release and migration endpoints
    (src/settings/packages.rs, src/settings/updates.rs,
    src/settings/migrate.rs): what arrived as a document of the mesh is listed,
    checked, installed or applied; a package or a release is signed and
    published; a group is re-issued as a space. *)

From stdpp Require Import base gmap strings numbers pretty list.
From Stdlib Require Import Strings.Byte Strings.Ascii.
From S2P Require Import Prelude Json Doc Action Model Builtins Entry Store Text Cosign Invite Blob Engine.
From S2P Require Import Fs ReadModel Package Update Processor Status Config Daemon Web Console.

(** ** Helpers *)

(** [serde_json::to_string] of a typed value. *)
Definition to_text `{Serde A} (a : A) : string := String.string_of_list_byte (to_json a).
Definition err_json {A} (r : result string A) : Value :=
  match r with Ok _ => Null | Err e => Str e end.
(** [replace(['/', '@'], "-")]. *)
Definition dashed (s : string) : string :=
  String.string_of_list_ascii
    ((fun c => if bool_decide (c = "/"%char \/ c = "@"%char) then "-"%char else c)
       <$> String.list_ascii_of_string s).
(** [Display] of the status codes a command is answered with. *)
Definition status_display (st : N) : string :=
  if decide (st = HTTP_OK) then "200 OK" else
  if decide (st = HTTP_BAD_REQUEST) then "400 Bad Request" else
  if decide (st = HTTP_UNAVAILABLE) then "503 Service Unavailable" else pretty st.
Definition first_err {A} (f : A -> result string unit) (l : list A) : option string :=
  find_map (fun a => match f a with Ok _ => None | Err e => Some e end) l.
(** [group.as_deref().filter(|g| !g.trim().is_empty())]. *)
Definition group_given (group : option string) : option string :=
  g ← group; if blank g then None else Some g.

(** The document a package sits in a group's drive as: [group_of] of
    [packages::list]; a later group wins. *)
Definition placed_in (m : gmap string string) (g : Value) : gmap string string :=
  match row_text g "name" with
  | None => m
  | Some gname =>
      foldl (fun m item =>
               if bool_decide (row_text item "model" = Some "package") then
                 match row_text item "name" with Some n => <[n := gname]> m | None => m end
               else m) m (items_of g "drive")
  end.

(** ** Migration: the plan *)

(** [Plan]. *)
Record Plan := {
  pn_group : string;
  pn_group_id : string;
  pn_space_id : DocId;
  pn_members : list string;
  pn_managers : list string;
  pn_chats : list (string * string * nat);
  pn_drive_items : list Value;
  pn_drive_doc : string
}.
(** The channels of a group; a group without any has [general]. *)
Definition channel_names (doc : Value) : list string :=
  match items_of doc "channels" with
  | [] => ["general"]
  | l => omap (fun c => row_text c "name") l
  end.
(** The number of messages of a channel. *)
Definition message_count (texts tags : list string) (chan : string) : nat :=
  if bool_decide (tags = []) && bool_decide (chan = "general") then length texts
  else length (filter (fun c => c = chan) tags).
(** [plan_for]. *)
Definition plan_for `{Platform} (doc : Value) (group_id : string) : option Plan :=
  group ← row_text doc "name";
  let texts := str_array doc "msg_text" in
  let tags := str_array doc "msg_channel" in
  Some {| pn_group := group; pn_group_id := group_id;
          pn_space_id := docid_derived ("space:" +:+ group_id);
          pn_members := str_array doc "members"; pn_managers := str_array doc "managers";
          pn_chats := (fun chan => (group +:+ "-" +:+ chan, chan, message_count texts tags chan))
                        <$> channel_names doc;
          pn_drive_items := items_of doc "drive"; pn_drive_doc := group +:+ "-drive" |}.

Section Migration.
Context `{Platform} `{Uuid}.

(** [Plan::describe]. *)
Definition chat_json (c : string * string * nat) : Value :=
  json_obj [("doc", Str c.1.1); ("channel", Str c.1.2); ("messages", Number (Z.of_nat c.2))].
Definition plan_describe (p : Plan) : Value :=
  json_obj
    [("group", Str (pn_group p)); ("groupDocId", Str (pn_group_id p));
     ("creates", json_obj
        [("space", json_obj [("name", Str (pn_group p)); ("id", Str (uuid_display (pn_space_id p)));
                             ("visibility", Str "protected"); ("members", json_strs (pn_members p));
                             ("managers", json_strs (pn_managers p))]);
         ("chats", Array (chat_json <$> pn_chats p));
         ("drive", json_obj [("doc", Str (pn_drive_doc p)); ("items", count_json (pn_drive_items p))])]);
     ("deletes", json_obj
        [("doc", Str (pn_group p));
         ("why", Str "the space takes this name; the group's action log stays on disk")]);
     ("notes", json_strs
        ["The new space is protected: members only. That is the closest tier to what a group was, and it cannot be changed afterwards.";
         "Messages are carried over as content, not as signed history: each becomes a line in the new chat document, authored by whoever is running this migration. The original signatures stay in the group's log, which is not deleted."])].

(** [Result::map_err] on a store operation. *)
Definition store_err {A} (f : string -> string) (m : storeM A) : storeM A := fun s =>
  match m s with (s, Ok a) => (s, Ok a) | (s, Err e) => (s, Err (f e)) end.
(** The loop over the chats; [now] and [fresh] are the times and ids of the
    successive calls. *)
Fixpoint create_chats (now : nat -> N) (fresh : nat -> DocId) (i : nat) (sp : DocId)
    (l : list (string * string * nat)) : storeM unit :=
  match l with
  | [] => mret tt
  | (doc, chan, _) :: l =>
      _ ← store_err (fun e => "could not create chat '" +:+ doc +:+ "': " +:+ e)
            (create_doc_in_space (now i) (fresh i) doc (modelref_new "chat" "1")
               (json_obj [("name", Str doc); ("channel", Str chan)]) (Some sp));
      create_chats now fresh (S i) sp l
  end.
(** [apply_one]. *)
Definition apply_one (now : nat -> N) (fresh : nat -> DocId) (p : Plan) : storeM unit :=
  s ← get_state;
  if bool_decide (doc_id <$> get_doc s (pn_group p) = Some (pn_space_id p)) then mret tt else
  _ ← store_err (fun e => "could not retire the group document: " +:+ e)
        (delete_doc (now 0) (pn_group p));
  _ ← store_err (fun e => "could not create the space: " +:+ e)
        (create_space_at uuid_display (now 1) (pn_space_id p) (pn_group p)
           (json_obj [("name", Str (pn_group p)); ("visibility", Str "protected");
                      ("members", json_strs (pn_members p)); ("managers", json_strs (pn_managers p))]));
  _ ← create_chats now fresh 2 (pn_space_id p) (pn_chats p);
  let k := 2 + length (pn_chats p) in
  _ ← store_err (fun e => "could not create drive '" +:+ pn_drive_doc p +:+ "': " +:+ e)
        (create_doc_in_space (now k) (fresh k) (pn_drive_doc p) (modelref_new "drive" "1")
           (json_obj [("name", Str (pn_drive_doc p))]) (Some (pn_space_id p)));
  mret tt.
(** The plans of the groups of a store, or of one of them. *)
Definition group_wanted (only : option string) (d : Value) : bool :=
  match only with Some g => bool_decide (row_text d "name" = Some g) | None => true end.
Definition plans (s : Inner) (only : option string) : list Plan :=
  omap (fun d => name ← row_text d "name"; g ← get_doc s name; plan_for d (uuid_display (doc_id g)))
    (filter (fun d => group_wanted only d = true) (query_docs s "group" None)).
Definition applied_json (p : Plan) (r : result string unit) : Value :=
  json_obj (("group", Str (pn_group p)) ::
            match r with
            | Ok _ => [("ok", Bool true)]
            | Err e => [("ok", Bool false); ("error", Str e)]
            end).
(** The loop of [groups] over the plans; each has its times and ids. *)
Fixpoint apply_plans (now : nat -> nat -> N) (fresh : nat -> nat -> DocId) (i : nat) (l : list Plan)
    (s : Inner) : Inner * list Value :=
  match l with
  | [] => (s, [])
  | p :: l =>
      let '(s, r) := apply_one (now i) (fresh i) p s in
      let '(s, out) := apply_plans now fresh (S i) l s in
      (s, applied_json p r :: out)
  end.
End Migration.

(** ** Handlers *)

Section Handlers.
Context `{Platform, Net} `{!NetText} `{JsonText} `{Base64} `{!Serde Action} `{!Serde InviteToken}
  `{!Serde (list string)} `{Uuid} `{!Serde (list Value)} `{TextOps} `{!Serde Installed}.
Context `{!Serde Manifest} `{!Serde Release} `{TrustStoreSerde : !Serde TrustStore}.
Context (sip : string * string * bool * option string * string * N * string -> N)
  (show_hash : Hash32 -> string) (current_platform current : string).
Implicit Types (wb : Web) (env : Link * World).

(** [TrustStore::load] of the node's file: never an error. *)
Definition load_trust wb : Web * TrustStore :=
  let '(wb, r) := with_fs wb (trust_load (publishers_file (wb_paths wb))) in
  (wb, match r with Ok t => t | Err _ => ∅ end).
(** A command that is sent with no answer awaited, by name. *)
Definition fetch wb (b : BlobRef) : Web := tell wb (CmdFetchBlob b).

(** *** Packages *)

(** [manifest_of]. *)
Definition manifest_of (doc : Value) : option Manifest :=
  raw ← (v ← row_field doc "manifest"; as_str v);
  match from_json (as_bytes raw) with Ok m => Some m | Err _ => None end.

(** The rows of [packages::list]. *)
Definition package_row (t : TrustStore) (installed : Installed) (group_of : gmap string string)
    (blobs : BlobStore) (doc : Value) : Value :=
  let name := default "" (row_text doc "name") in
  let status := default "published" (v ← row_field doc "status"; as_str v) in
  match manifest_of doc with
  | None => json_obj [("doc", Str name); ("status", Str status);
                      ("error", Str "this package document does not contain a readable manifest")]
  | Some m =>
      let missing := match mf_bundle m with Some b => length (missing blobs b) | None => 0 end in
      let nchunks := match mf_bundle m with Some b => length (br_chunks b) | None => 0 end in
      json_obj
        [("doc", Str name); ("status", Str status); ("name", Str (mf_name m));
         ("version", Str (mf_version m)); ("description", Str (mf_description m));
         ("category", Str (mf_category m)); ("publisher", Str (pi_name (mf_publisher m)));
         ("publisherUrl", Str (pi_url (mf_publisher m))); ("publisherKey", Str (mf_publisher_key m));
         ("trusted", Bool (is_trusted t (mf_publisher_key m)));
         ("signatureOk", Bool (is_ok (manifest_verify m)));
         ("signatureError", err_json (manifest_verify m));
         ("capabilities", json_strs (capabilities_describe (mf_capabilities m)));
         ("publishes", json_strs (projection_describe <$> mf_projections m));
         ("interrupts", json_strs (attention_describe <$> mf_attention m));
         ("sidebar", opt_json (ui_describe (mf_ui m)));
         ("nav", Array (nav_json <$> ui_nav (mf_ui m)));
         ("navValid", Bool (is_ok (ui_validate (mf_ui m))));
         ("navError", err_json (ui_validate (mf_ui m)));
         ("models", count_json (mf_document_models m));
         ("hasEditor", Bool (bool_decide (is_Some (mf_bundle m))));
         ("bundleChunks", Number (Z.of_nat nchunks)); ("bundleMissing", Number (Z.of_nat missing));
         ("installed", opt_json ((mf_version ∘ ip_manifest) <$> installed_get installed (mf_name m)));
         ("group", opt_json (group_of !! name))]
  end.
Definition packages_list wb : Web * Response :=
  let '(wb, t) := load_trust wb in
  let '(wb, installed) := load_installed wb in
  let group_of := foldl placed_in ∅ (query_docs (wb_store wb) "group" None) in
  (wb, json HTTP_OK (Array (package_row t installed group_of (wb_blobs wb)
                              <$> query_docs (wb_store wb) "package" None))).

(** The answer that asks the operator about a publisher. *)
Definition untrusted_answer (m : Manifest) : Value :=
  json_obj [("error", Str "publisher not trusted"); ("publisherKey", Str (mf_publisher_key m));
            ("publisher", Str (pi_name (mf_publisher m)));
            ("capabilities", json_strs (capabilities_describe (mf_capabilities m)));
            ("publishes", json_strs (projection_describe <$> mf_projections m));
            ("interrupts", json_strs (attention_describe <$> mf_attention m));
            ("sidebar", opt_json (ui_describe (mf_ui m)))].
Definition fetching (missing : nat) : Value :=
  json_obj [("status", Str "fetching"); ("missing", Number (Z.of_nat missing))].
Definition installed_answer (p : InstalledPackage) : Value :=
  let m := ip_manifest p in
  json_obj [("installed", Str (mf_name m)); ("version", Str (mf_version m));
            ("models", count_json (mf_document_models m));
            ("hasEditor", Bool (bool_decide (is_Some (mf_bundle m))))].

(** The trust decision of [install_pkg]: the trust store to install with, or
    the answer that ends the request. *)
Definition settle_trust (now : string) wb (m : Manifest) (trust_publisher : bool) :
    Web * (TrustStore + Response) :=
  let '(wb, t) := load_trust wb in
  if is_trusted t (mf_publisher_key m) then (wb, inl t) else
  if negb trust_publisher then (wb, inr (json HTTP_CONFLICT (untrusted_answer m))) else
  let t := trust t now (mf_publisher_key m) (pi_name (mf_publisher m)) in
  let '(wb, r) := with_fs wb (trust_save t (publishers_file (wb_paths wb))) in
  match r with
  | Err e => (wb, inr (text HTTP_INTERNAL e))
  | Ok _ => (wb, inl t)
  end.
(** Its call of [install::install]. *)
Definition run_install (now : string) wb (m : Manifest) (t : TrustStore) : Web * Response :=
  let '(s, fs, r) := install m t (wb_blobs wb) (packages_file (wb_paths wb))
                       (models_file (wb_paths wb)) now (wb_store wb) (x_fs (wb_ctx wb)) in
  (put_ctx wb (put_fs (put_store (wb_ctx wb) s) fs),
   match r with
   | Ok pkg => json HTTP_OK (installed_answer pkg)
   | Err (BundleIncomplete n) => json HTTP_ACCEPTED (fetching n)
   | Err e => refused (install_error_text e)
   end).
(** [install_pkg]. *)
Definition install_pkg (now : string) wb (doc : string) (trust_publisher : bool) : Web * Response :=
  match row_named (query_docs (wb_store wb) "package" None) doc with
  | None => (wb, text HTTP_NOT_FOUND "no such package document")
  | Some found =>
      match manifest_of found with
      | None => (wb, refused "this package document does not contain a readable manifest")
      | Some m =>
          match manifest_verify m with
          | Err e => (wb, refused ("signature: " +:+ e))
          | Ok _ =>
              let '(wb, r) := settle_trust now wb m trust_publisher in
              match r with
              | inr answer => (wb, answer)
              | inl t =>
                  match (b ← mf_bundle m; match missing (wb_blobs wb) b with
                                           | [] => None
                                           | l => Some (b, l)
                                           end) with
                  | Some (b, l) =>
                      (fetch wb b,
                       json HTTP_ACCEPTED
                         (json_obj [("status", Str "fetching"); ("missing", count_json l);
                                    ("chunks", count_json (br_chunks b))]))
                  | None => run_install now wb m t
                  end
              end
          end
      end
  end.

(** [blobs_to_keep]. *)
Definition blobs_to_keep wb : Web * list BlobRef :=
  let '(wb, installed) := load_installed wb in
  (wb, live_blobs installed
       ++ omap (fun d => m ← manifest_of d; mf_bundle m) (query_docs (wb_store wb) "package" None)).
(** [uninstall]. *)
Definition uninstall wb (name : string) : Web * Response :=
  let '(wb, installed) := load_installed wb in
  let '(installed, removed) := installed_remove installed name in
  if negb removed then (wb, text HTTP_NOT_FOUND "not installed") else
  let '(wb, r) := with_fs wb (installed_save installed (packages_file (wb_paths wb))) in
  match r with
  | Err e => (wb, text HTTP_INTERNAL e)
  | Ok _ =>
      let '(wb, keep) := blobs_to_keep wb in
      let '(blobs, freed) := gc (wb_blobs wb) keep in
      (put_blobs wb blobs,
       json HTTP_OK (json_obj [("removed", Str name); ("chunksFreed", Number (Z.of_nat freed))]))
  end.
(** [revoke_publisher]. *)
Definition revoke_publisher wb (key : string) : Web * Response :=
  let '(wb, t) := load_trust wb in
  let '(t, was) := revoke t key in
  if negb was then (wb, text HTTP_NOT_FOUND "not a trusted publisher") else
  let '(wb, r) := with_fs wb (trust_save t (publishers_file (wb_paths wb))) in
  (wb, match r with
       | Ok _ => json HTTP_OK (json_obj [("revoked", Str key)])
       | Err e => text HTTP_INTERNAL e
       end).
(** [trust_publisher]. *)
Definition trust_publisher_api (now : string) wb (key name : string) : Web * Response :=
  let key := to_lowercase (trim key) in
  match hex_decode key with
  | Err e => (wb, refused ("not hex: " +:+ e))
  | Ok bytes =>
      if negb (bool_decide (length bytes = 32))
      then (wb, refused ("a publisher key is 32 bytes, this is " +:+ pretty (length bytes))) else
      let '(wb, t) := load_trust wb in
      let already := is_trusted t key in
      let '(wb, r) := with_fs wb (trust_save (trust t now key name) (publishers_file (wb_paths wb))) in
      (wb, match r with
           | Err e => text HTTP_INTERNAL e
           | Ok _ => json HTTP_OK (json_obj [("key", Str key); ("name", Str name);
                                             ("alreadyTrusted", Bool already)])
           end)
  end.
(** [publishers]. *)
Definition publishers_api wb : Web * Response :=
  let '(wb, t) := load_trust wb in
  let row p := json_obj [("key", Str (tp_key p)); ("name", Str (tp_name p));
                         ("approvedAt", Str (tp_approved_at p))] in
  (wb, json HTTP_OK (Array (row <$> trust_list t))).

(** *** Publishing a package *)

(** [PublishBody]. *)
Record PublishBody := {
  pb_name : string;
  pb_version : string;
  pb_description : string;
  pb_category : string;
  pb_publisher_name : string;
  pb_publisher_url : string;
  pb_document_models : list Value;
  pb_processors : list Value;
  pb_capabilities : Capabilities;
  pb_ui : PluginUi;
  pb_projections : list Projection;
  pb_attention : list Attention;
  pb_group : option string;
  pb_editor : option string
}.
(** The manifest [publish] signs. *)
Definition manifest_from (key : SigningKey) (b : PublishBody) (bundle : option BlobRef) : Manifest :=
  manifest_sign
    {| mf_name := pb_name b; mf_version := pb_version b; mf_description := pb_description b;
       mf_category := pb_category b;
       mf_publisher := {| pi_name := pb_publisher_name b; pi_url := pb_publisher_url b |};
       mf_publisher_key := hex_encode (verifying_key key);
       mf_document_models := pb_document_models b; mf_processors := pb_processors b;
       mf_bundle := bundle; mf_capabilities := pb_capabilities b;
       mf_projections := pb_projections b; mf_attention := pb_attention b; mf_ui := pb_ui b;
       mf_sig := "" |} key.
(** The editor, stored. *)
Definition put_editor wb (editor : option string) : Web * result string (option BlobRef) :=
  match editor with
  | None => (wb, Ok None)
  | Some html =>
      let '(blobs, r) := put show_hash (wb_blobs wb) (as_bytes html) in
      (put_blobs wb blobs, match r with Ok b => Ok (Some b) | Err e => Err e end)
  end.
(** Whether a query already has a row of that name. *)
Definition already_there wb (model doc : string) : bool :=
  existsb (fun d => bool_decide (row_text d "name" = Some doc)) (query_docs (wb_store wb) model None).
Definition drive_item (doc model : string) : Value :=
  json_obj [("item", json_obj [("name", Str doc); ("kind", Str "doc"); ("model", Str model);
                               ("parent", Null)])].
(** The second half: the document, then its place in a group's drive. *)
Definition publish_doc env env2 wb (doc : string) (m : Manifest) (group : option string) :
    Web * Response :=
  if already_there wb "package" doc
  then (wb, text HTTP_CONFLICT
              (mf_name m +:+ " " +:+ mf_version m
               +:+ " is already published; a signed version cannot be replaced, so publish a new version"))
  else
  let payload :=
    json_obj [("name", Str doc); ("publisher_key", Str (mf_publisher_key m));
              ("publisher_name", Str (pi_name (mf_publisher m))); ("package_name", Str (mf_name m));
              ("package_version", Str (mf_version m)); ("description", Str (mf_description m));
              ("manifest", Str (to_text m))] in
  let '(wb, created) := run_create_doc_model sip env wb doc "package@1" payload in
  if negb (bool_decide (rp_status created = HTTP_OK)) then (wb, created) else
  match group_given group with
  | None => (wb, created)
  | Some g =>
      let '(wb, placed) := run_create_action sip env2 wb g "group@1" "add-doc" (drive_item doc "package") in
      let more :=
        if bool_decide (rp_status placed = HTTP_OK) then ("group", Str g)
        else ("groupError", Str ("published, but could not add it to the " +:+ g +:+ " drive (status "
                                 +:+ status_display (rp_status placed) +:+ ")")) in
      (wb, json HTTP_OK (json_obj [("ok", Bool true); ("published", Str doc); more]))
  end.
(** [packages::publish]. *)
Definition publish_package env env2 wb (b : PublishBody) : Web * Response :=
  match ui_validate (pb_ui b) with
  | Err e => (wb, refused ("sidebar: " +:+ e))
  | Ok _ =>
  match first_err (fun d => _ ← from_def d; Ok tt) (pb_document_models b) with
  | Some e => (wb, refused ("model definition: " +:+ e))
  | None =>
  let '(wb, bundle) := put_editor wb (pb_editor b) in
  match bundle with
  | Err e => (wb, text HTTP_INTERNAL e)
  | Ok bundle =>
  match first_err projection_validate (pb_projections b) with
  | Some e => (wb, refused ("projection: " +:+ e))
  | None =>
  match first_err attention_validate (pb_attention b) with
  | Some e => (wb, refused ("attention rule: " +:+ e))
  | None =>
  let m := manifest_from (i_key (wb_store wb)) b bundle in
  match manifest_verify m with
  | Err e => (wb, text HTTP_INTERNAL ("signed a manifest that does not verify: " +:+ e))
  | Ok _ =>
      publish_doc env env2 wb ("pkg-" +:+ dashed (pb_name b) +:+ "-" +:+ pb_version b) m (pb_group b)
  end end end end end end.

(** *** Releases *)

(** [updates::release_of]: the daemon's own also leaves withdrawn ones out. *)
Definition readable_release (doc : Value) : option Release :=
  raw ← (v ← row_field doc "manifest"; as_str v);
  match from_json (as_bytes raw) with Ok r => Some r | Err _ => None end.
(** [offers]. *)
Definition offer_of (t : TrustStore) (d : Value) : option (string * Release * bool) :=
  name ← row_text d "name";
  r ← readable_release d;
  Some (name, r, is_trusted t (rl_publisher_key r)).
Definition offers (s : Inner) (t : TrustStore) : list (string * Release * bool) :=
  omap (offer_of t)
    (filter (fun d => (v ← row_field d "status"; as_str v) <> Some "withdrawn")
       (query_docs s "release" None)).
(** [best_candidate]. *)
Definition willing (o : string * Release * bool) : bool :=
  let '(_, r, trusted) := o in
  trusted && is_ok (release_verify r) && runs_on r current_platform && is_newer_than r current.
Definition take_better (best : option (string * Release)) (o : string * Release * bool) :
    option (string * Release) :=
  let '(doc, r, _) := o in
  if negb (willing o) then best else
  match best with
  | None => Some (doc, r)
  | Some (_, b) =>
      if bool_decide (Update.compare (rl_version r) (rl_version b) = Some Gt) then Some (doc, r) else best
  end.
Definition best_candidate (s : Inner) (t : TrustStore) : option (string * Release) :=
  foldl take_better None (offers s t).

(** [updates::list]. *)
Definition release_row (blobs : BlobStore) (o : string * Release * bool) : Value :=
  let '(doc, r, trusted) := o in
  let missing := missing blobs (rl_binary r) in
  json_obj [("doc", Str doc); ("version", Str (rl_version r)); ("platform", Str (rl_platform r));
            ("notes", Str (rl_notes r)); ("publisherKey", Str (rl_publisher_key r));
            ("trusted", Bool trusted); ("signatureOk", Bool (is_ok (release_verify r)));
            ("signatureError", err_json (release_verify r));
            ("runsHere", Bool (runs_on r current_platform));
            ("newer", Bool (is_newer_than r current)); ("bytesMissing", count_json missing);
            ("ready", Bool (bool_decide (length missing = 0)))].
Definition updates_list wb : Web * Response :=
  let '(wb, t) := load_trust wb in
  (wb, json HTTP_OK
         (json_obj [("current", Str current); ("platform", Str current_platform);
                    ("auto", Bool (wb_update_auto wb));
                    ("releases", Array (release_row (wb_blobs wb) <$> offers (wb_store wb) t))])).

(** The release [apply_update] picks: the one asked for, or the best. *)
Definition picked (s : Inner) (t : TrustStore) (wanted : option string) :
    option (string * Release * bool) :=
  match wanted with
  | Some doc => head (filter (fun o => o.1.1 = doc) (offers s t))
  | None => '(d, r) ← best_candidate s t; Some (d, r, true)
  end.
(** [apply_update]; [exe] is [current_exe()]. *)
Definition apply_update (exe : result string Path) wb (wanted : option string) : Web * Response :=
  let '(wb, t) := load_trust wb in
  match picked (wb_store wb) t wanted with
  | None => (wb, text HTTP_NOT_FOUND "no such release")
  | Some (_, r, trusted) =>
      match release_verify r with
      | Err e => (wb, refused ("signature: " +:+ e))
      | Ok _ =>
          if negb trusted
          then (wb, text HTTP_CONFLICT ("the key that signed " +:+ rl_version r
                      +:+ " is not trusted; approve it under Plugins first")) else
          let missing := missing (wb_blobs wb) (rl_binary r) in
          if negb (bool_decide (missing = []))
          then (fetch wb (rl_binary r), json HTTP_ACCEPTED (fetching (length missing))) else
          match exe with
          | Err e => (wb, text HTTP_INTERNAL ("cannot locate the running binary: " +:+ e))
          | Ok exe =>
              let '(wb, out) := with_fs wb (Update.apply show_hash current_platform r (wb_blobs wb) exe
                                              (sp_root (wb_paths wb)) current) in
              match out with
              | Err e => (wb, refused (apply_error_text e))
              | Ok target =>
                  (tell wb CmdQuit,
                   json HTTP_OK
                     (json_obj [("applied", Str (rl_version r)); ("installedAt", Str (path_display target));
                                ("replacedRunningBinary", Bool (bool_decide (target = exe)));
                                ("restarting", Bool true)]))
              end
          end
      end
  end.

(** [updates::publish]. *)
Definition publish_release env env2 wb (version : string) (platform : option string) (notes : string)
    (group : option string) (bytes : list byte) : Web * Response :=
  let platform := default current_platform platform in
  if bool_decide (Update.compare version "0.0.0" = None)
  then (wb, refused (debug_text version
              +:+ " is not a comparable version, so no node could tell whether it is an upgrade")) else
  if bool_decide (bytes = []) then (wb, refused "the request body is the binary; it is empty") else
  let '(blobs, binary) := put show_hash (wb_blobs wb) bytes in
  let wb := put_blobs wb blobs in
  match binary with
  | Err e => (wb, text HTTP_INTERNAL e)
  | Ok binary =>
      let key := i_key (wb_store wb) in
      let r := release_sign {| rl_version := version; rl_platform := platform; rl_notes := notes;
                               rl_binary := binary; rl_publisher_key := hex_encode (verifying_key key);
                               rl_sig := "" |} key in
      match release_verify r with
      | Err e => (wb, text HTTP_INTERNAL ("signed a release that does not verify: " +:+ e))
      | Ok _ =>
          let doc := "rel-" +:+ version +:+ "-" +:+ platform in
          if already_there wb "release" doc
          then (wb, text HTTP_CONFLICT (version +:+ " is already published for " +:+ platform
                      +:+ "; a signed release cannot be replaced")) else
          let payload :=
            json_obj [("name", Str doc); ("publisher_key", Str (rl_publisher_key r));
                      ("release_version", Str version); ("platform", Str platform);
                      ("notes", Str notes); ("manifest", Str (to_text r))] in
          let '(wb, created) := run_create_doc_model sip env wb doc "release@1" payload in
          if negb (bool_decide (rp_status created = HTTP_OK)) then (wb, created) else
          let wb := match group_given group with
                    | Some g => (run_create_action sip env2 wb g "group@1" "add-doc"
                                   (drive_item doc "release")).1
                    | None => wb
                    end in
          (wb, json HTTP_OK (json_obj [("published", Str doc); ("version", Str version);
                                       ("bytes", count_json bytes)]))
      end
  end.

(** *** Migration *)

(** [migrate::groups]. *)
Definition migrate_groups (now : nat -> nat -> N) (fresh : nat -> nat -> DocId) wb (go : bool)
    (only : option string) : Web * Response :=
  let l := plans (wb_store wb) only in
  if negb go
  then (wb, json HTTP_OK
              (json_obj [("dryRun", Bool true); ("wouldMigrate", count_json l);
                         ("plans", Array (plan_describe <$> l));
                         ("toApply", Str ("POST again with {" +:+ in_quotes "apply" +:+ ": true}"))]))
  else
  let '(s, done) := apply_plans now fresh 0 l (wb_store wb) in
  (put_ctx wb (put_store (wb_ctx wb) s),
   json HTTP_OK (json_obj [("dryRun", Bool false); ("results", Array done)])).
End Handlers.
