(* ===== verification/Server.v ===== *)
(** The settings server as one component: every request that can change
    something, [serve], and what a request may do to the store the daemon
    works on. *)

From stdpp Require Import base gmap strings numbers pretty list.
From Stdlib Require Import Strings.Byte Strings.Ascii.
From S2P Require Import Prelude Json Doc Sample Action Model Builtins Entry Store StoreInv Text Cosign Invite.
From S2P Require Import Blob Engine Fs ReadModel Package Update Processor Status Config ConfigProps Daemon.
From S2P Require Import DaemonDrives DaemonProps Web Console Offers.

(** ** Requests *)

(** The requests that may change something, each with its path parameters and
    its body; the reads answer without a change, and the migration of groups
    works on the store directly. *)
Inductive WebOp :=
  | OpDrive (op : DriveOp)
  | OpSetConfig (key : string) (value : Value)
  | OpQuit
  | OpAddDoc (name : string) (fields : gmap string Value) (model : option string)
  | OpActionDoc (name kind : string) (payload : Value) (model : string)
  | OpInvite (groups : list string)
  | OpJoin (invite : string)
  | OpBan (peer : string)
  | OpUnban (peer : string)
  | OpPropose (group kind : string) (payload : Value) (model : option string)
  | OpCosign (token : string)
  | OpSubmit (token : string)
  | OpProcessorCreate (spec : ProcessorSpec)
  | OpProcessorUpdate (name : string) (spec : ProcessorSpec)
  | OpProcessorRemove (name : string)
  | OpCreateGroup (name : string) (members managers : list string)
  | OpGroupAction (name kind : string) (payload : Value)
  | OpChannelAdd (group name visibility : string) (members : list string)
  | OpChannelRemove (group chan : string)
  | OpDriveFolder (group name : string) (parent : option string)
  | OpDriveDoc (group : string) (name : option string) (model : string) (parent : option string)
      (fields : Value)
  | OpDriveAdd (group : string) (name : option string) (title body : string)
  | OpDriveRemove (group item : string)
  | OpCreateFolder (name description : string) (members : list string)
  | OpFolderAction (name kind : string) (payload : Value)
  | OpRegisterModel (definition : Value)
  | OpSpaceCreate (name visibility : string) (members managers : list string)
  | OpSpaceAction (name kind : string) (payload : Value)
  | OpEnableApp (name app : string)
  | OpDisableApp (name app : string)
  | OpSpaceDoc (space name model : string) (payload : Value)
  | OpPluginAction (name model kind doc : string) (payload : Value) (space : option string)
  | OpInstall (doc : string) (trust_publisher : bool)
  | OpUninstall (name : string)
  | OpRevoke (key : string)
  | OpTrust (key name : string)
  | OpPublish (b : PublishBody)
  | OpApplyUpdate (wanted : option string)
  | OpPublishRelease (version : string) (platform : option string) (notes : string)
      (group : option string) (bytes : list byte).

(** The two requests that register models. *)
Definition registers (op : WebOp) : bool :=
  match op with OpRegisterModel _ | OpInstall _ _ => true | _ => false end.

Section Serve.
Context `{Platform, Net} `{!NetText} `{JsonText} `{Base64} `{!Serde Action} `{!Serde InviteToken}
  `{!Serde (list string)} `{Uuid} `{!Serde (list Value)} `{TextOps} `{!Serde Installed}.
Context `{!Serde Manifest} `{!Serde Release} `{TrustStoreSerde : !Serde TrustStore}.
Context (sip : string * string * bool * option string * string * N * string -> N)
  (show_hash : Hash32 -> string) (current_platform current : string).
Implicit Types (wb : Web) (env : Link * World).

(** The drive routes. *)
Definition serve_drive wb (op : DriveOp) : Web * Response :=
  match op with
  | OpAdd name addr token_env offline => add_drive_api wb name addr token_env offline
  | OpRemove name => remove_drive_api wb name
  | OpPause name => pause_drive_api wb name
  | OpResume name => resume_drive_api wb name
  | OpResync name => resync_drive_api wb name
  end.

(** The drive routes of the router: the method, the path as it stands in the
    request, and the body.  A path parameter is percent-decoded and not empty. *)
Definition de_add (v : Value) : result string DriveOp :=
  _ ← de_struct 4 v;
  n ← de_field v 0 "name" de_string "";
  a ← de_field v 1 "addr" (fun x => Some <$> de_string x) None;
  a ← ok_or a "missing field `addr`";
  t ← de_field v 2 "tokenEnv" (de_option de_string) None;
  o ← de_field v 3 "availableOffline" de_bool false;
  Ok (OpAdd n a t o).
Definition add_body (body : option Value) : option DriveOp :=
  b ← body; match de_add b with Ok op => Some op | Err _ => None end.
Definition drive_route (method path : string) (body : option Value) : option DriveOp :=
  match split_char "/" path with
  | [root; api; drives] =>
      if bool_decide ((method, root, api, drives) = ("POST", "", "api", "drives"))
      then add_body body else None
  | [root; api; drives; name] =>
      if bool_decide ((method, root, api, drives) = ("DELETE", "", "api", "drives")) && bool_decide (name <> "")
      then Some (OpRemove (percent_decode name)) else None
  | [root; api; drives; name; verb] =>
      if bool_decide ((method, root, api, drives) = ("POST", "", "api", "drives")) && bool_decide (name <> "") then
        if decide (verb = "pause") then Some (OpPause (percent_decode name)) else
        if decide (verb = "resume") then Some (OpResume (percent_decode name)) else
        if decide (verb = "resync") then Some (OpResync (percent_decode name)) else None
      else None
  | _ => None
  end.

(** One request; [env2] is the environment of the second command of those that
    send two, [now] and [ms] the clock as text and in milliseconds. *)
Definition serve env env2 (ms : N) (now : string) (exe : result string Path) wb (op : WebOp) :
    Web * Response :=
  match op with
  | OpDrive op => serve_drive wb op
  | OpSetConfig key value => set_config_api wb key value
  | OpQuit => quit_api wb
  | OpAddDoc name fields model => add_doc sip env wb name fields model
  | OpActionDoc name kind payload model => action_doc sip env wb name kind payload model
  | OpInvite groups => make_invite sip env wb groups
  | OpJoin invite => join_invite sip env wb invite
  | OpBan peer => ban_peer sip env wb peer
  | OpUnban peer => unban_peer sip env wb peer
  | OpPropose group kind payload model => propose_api sip env wb group kind payload model
  | OpCosign token => cosign_api sip env wb token
  | OpSubmit token => submit_api sip env wb token
  | OpProcessorCreate spec => processor_create_api wb spec
  | OpProcessorUpdate name spec => processor_update_api wb name spec
  | OpProcessorRemove name => processor_remove_api wb name
  | OpCreateGroup name members managers => create_group sip env wb name members managers
  | OpGroupAction name kind payload => group_action sip env wb name kind payload
  | OpChannelAdd group name visibility members => channel_add sip env wb group name visibility members
  | OpChannelRemove group chan => channel_remove sip env wb group chan
  | OpDriveFolder group name parent => drive_folder sip env wb group name parent
  | OpDriveDoc group name model parent fields =>
      drive_doc sip env env2 ms wb group name model parent fields
  | OpDriveAdd group name title body => drive_add sip env env2 ms wb group name title body
  | OpDriveRemove group item => drive_remove sip env wb group item
  | OpCreateFolder name description members => create_folder sip env wb name description members
  | OpFolderAction name kind payload => folder_action sip env wb name kind payload
  | OpRegisterModel definition => register_model wb definition
  | OpSpaceCreate name visibility members managers =>
      space_create sip env wb name visibility members managers
  | OpSpaceAction name kind payload => space_action sip env wb name kind payload
  | OpEnableApp name app => enable_app sip env wb name app
  | OpDisableApp name app => disable_app sip env wb name app
  | OpSpaceDoc space name model payload => space_add_doc sip env wb space name model payload
  | OpPluginAction name model kind doc payload space =>
      plugin_action sip env wb name model kind doc payload space
  | OpInstall doc trust_publisher => install_pkg now wb doc trust_publisher
  | OpUninstall name => uninstall wb name
  | OpRevoke key => revoke_publisher wb key
  | OpTrust key name => trust_publisher_api now wb key name
  | OpPublish b => publish_package sip show_hash env env2 wb b
  | OpApplyUpdate wanted => apply_update show_hash current_platform current exe wb wanted
  | OpPublishRelease version platform notes group bytes =>
      publish_release sip show_hash current_platform env env2 wb version platform notes group bytes
  end.

(** ** What a request does to the store *)

(** Every command a request executes comes down to [call]. *)
Lemma call_steps env wb cmd :
  fresh_id (wb_store wb) (w_id env.2) -> rtc step (wb_store wb) (wb_store (call sip env wb cmd).1).
Proof.
  intros Hf. unfold call. destruct env as [[] w]; [done|..];
    exact (execute_store sip w (wb_ctx wb) cmd Hf).
Qed.

Lemma request_steps env wb cmd late ok err :
  fresh_id (wb_store wb) (w_id env.2) ->
  rtc step (wb_store wb) (wb_store (request sip env wb cmd late ok err).1).
Proof.
  intros Hf%(call_steps env wb cmd). unfold request.
  by destruct (call _ _ _ _) as [wb' [[r|]|]].
Qed.

(** An action on a document that exists needs no fresh id. *)
Lemma action_steps env wb name model kind payload :
  rtc step (wb_store wb) (wb_store (run_create_action sip env wb name model kind payload).1).
Proof.
  unfold run_create_action. destruct (negb _); [done|]. unfold request, call.
  destruct env as [[] w]; cbn [fst snd]; [done|..]; unfold wb_store; cbn [execute_command];
    unfold cmd_create_action, run_store, done_, bail, answer;
    (destruct (modelref_parse model) as [mr|]; [|done]);
    pose proof (step_apply_local (x_store (wb_ctx wb)) (w_clock w 0) name mr kind payload) as Hs;
    destruct (apply_local_action _ _ _ _ _ _) as [s' []]; by apply rtc_once.
Qed.

Lemma create_steps env wb name model payload space :
  fresh_id (wb_store wb) (w_id env.2) ->
  rtc step (wb_store wb) (wb_store (run_create_doc_in_space sip env wb name model payload space).1).
Proof. intros Hf. unfold run_create_doc_in_space. destruct (negb _); [done|by apply request_steps]. Qed.

Lemma load_installed_frame wb : wb_store (load_installed wb).1 = wb_store wb.
Proof. unfold load_installed. destruct (with_fs _ _) eqn:E. unfold with_fs in E. by injection E as <- _. Qed.
Lemma load_trust_frame wb : wb_store (load_trust wb).1 = wb_store wb.
Proof. unfold load_trust. destruct (with_fs _ _) eqn:E. unfold with_fs in E. by injection E as <- _. Qed.

Lemma with_fs_frame {E A} wb (m : fsE E A) : wb_store (with_fs wb m).1 = wb_store wb.
Proof. done. Qed.

(** The document is created; then the rest of the request. *)
Ltac after_create Hf :=
  unfold run_create_doc_model; cbn zeta;
  match goal with |- context [run_create_doc_in_space sip ?env ?wb ?n ?m ?p None] =>
    let Hc := fresh "Hc" in let wb' := fresh "wb" in let r := fresh "r" in
    pose proof (create_steps env wb n m p None Hf) as Hc;
    destruct (run_create_doc_in_space sip env wb n m p None) as [wb' r]; cbn [fst] in Hc;
    destruct (negb (bool_decide (rp_status r = HTTP_OK))); [done|etrans; [exact Hc|]]
  end.

Lemma drive_doc_steps env env2 ms wb group name model parent fields :
  fresh_id (wb_store wb) (w_id env.2) ->
  rtc step (wb_store wb) (wb_store (drive_doc sip env env2 ms wb group name model parent fields).1).
Proof. intros Hf. unfold drive_doc. destruct (blank model); [done|]. after_create Hf. apply action_steps. Qed.

Lemma drive_add_steps env env2 ms wb group name title body :
  fresh_id (wb_store wb) (w_id env.2) ->
  rtc step (wb_store wb) (wb_store (drive_add sip env env2 ms wb group name title body).1).
Proof. intros Hf. unfold drive_add. after_create Hf. apply action_steps. Qed.

Lemma put_editor_frame wb e : wb_store (put_editor show_hash wb e).1 = wb_store wb.
Proof. destruct e; [|done]. unfold put_editor. by destruct (put _ _ _). Qed.

Lemma publish_doc_steps env env2 wb doc m group :
  fresh_id (wb_store wb) (w_id env.2) ->
  rtc step (wb_store wb) (wb_store (publish_doc sip env env2 wb doc m group).1).
Proof.
  intros Hf. unfold publish_doc. destruct (already_there _ _ _); [done|]. after_create Hf.
  destruct (group_given group) as [g|]; [|done].
  pose proof (action_steps env2 wb0 g "group@1" "add-doc" (drive_item doc "package")) as Ha.
  by destruct (run_create_action _ _ _ _ _ _ _).
Qed.

Lemma publish_steps env env2 wb b :
  fresh_id (wb_store wb) (w_id env.2) ->
  rtc step (wb_store wb) (wb_store (publish_package sip show_hash env env2 wb b).1).
Proof.
  intros Hf. unfold publish_package. destruct (ui_validate _); [|done]. destruct (first_err _ _); [done|].
  pose proof (put_editor_frame wb (pb_editor b)) as E. destruct (put_editor _ _ _) as [wb' [bundle|]];
    cbn [fst] in E; rewrite <- E in Hf |- *; [|done].
  destruct (first_err _ _); [done|]. destruct (first_err _ _); [done|].
  destruct (manifest_verify _); [by apply publish_doc_steps|done].
Qed.

Lemma publish_release_steps env env2 wb version platform notes group bytes :
  fresh_id (wb_store wb) (w_id env.2) ->
  rtc step (wb_store wb)
    (wb_store (publish_release sip show_hash current_platform env env2 wb version platform notes group bytes).1).
Proof.
  intros Hf. unfold publish_release. cbn zeta. case_bool_decide; [done|]. case_bool_decide; [done|].
  destruct (put _ _ _) as [blobs [binary|]]; [|done]. set (wb1 := put_blobs wb blobs).
  change (wb_store wb) with (wb_store wb1) in Hf |- *.
  destruct (release_verify _); [|done]. destruct (already_there _ _ _); [done|]. after_create Hf.
  destruct (group_given group); [apply action_steps|done].
Qed.

(** The requests that read the installed packages or the trust store first. *)
Lemma enable_app_steps env wb name app :
  rtc step (wb_store wb) (wb_store (enable_app sip env wb name app).1).
Proof.
  unfold enable_app. pose proof (load_installed_frame wb) as E. destruct (load_installed wb) as [wb' l].
  cbn [fst] in E. rewrite <- E. destruct (installed_get l app); [apply action_steps|done].
Qed.

Lemma plugin_action_steps env wb name model kind doc payload space :
  fresh_id (wb_store wb) (w_id env.2) ->
  rtc step (wb_store wb) (wb_store (plugin_action sip env wb name model kind doc payload space).1).
Proof.
  intros Hf. unfold plugin_action, installed_package. pose proof (load_installed_frame wb) as E.
  destruct (load_installed wb) as [wb' l]. cbn [fst] in E. rewrite <- E in Hf |- *.
  destruct (installed_get l name); [|done]. destruct (negb _); [done|]. destruct (negb _); [done|].
  case_bool_decide; [|apply action_steps].
  destruct (if _ : bool then _ else _); [by apply create_steps|done].
Qed.

Lemma uninstall_frame wb name : wb_store (uninstall wb name).1 = wb_store wb.
Proof.
  unfold uninstall, blobs_to_keep. pose proof (load_installed_frame wb) as E.
  destruct (load_installed wb) as [wb' l]. cbn [fst] in E. rewrite <- E.
  destruct (installed_remove l name) as [l' []]; [|done]. cbn [negb].
  match goal with |- context [with_fs ?w ?m] =>
    pose proof (with_fs_frame w m) as E2; destruct (with_fs w m) as [w2 [u|e]] end; [|done].
  pose proof (load_installed_frame w2) as E3. destruct (load_installed w2) as [w3 l3].
  cbn [fst snd] in *. by rewrite <- E2, <- E3.
Qed.

Lemma revoke_frame wb key : wb_store (revoke_publisher wb key).1 = wb_store wb.
Proof.
  unfold revoke_publisher. pose proof (load_trust_frame wb) as E. destruct (load_trust wb) as [wb' t].
  cbn [fst] in E. rewrite <- E. by destruct (revoke t key) as [? []].
Qed.

Lemma trust_frame now wb key name : wb_store (trust_publisher_api now wb key name).1 = wb_store wb.
Proof.
  unfold trust_publisher_api. cbn zeta. destruct (hex_decode _); [|done]. destruct (negb _); [done|].
  pose proof (load_trust_frame wb) as E. by destruct (load_trust wb) as [wb' t].
Qed.

Lemma apply_update_frame exe wb wanted :
  wb_store (apply_update show_hash current_platform current exe wb wanted).1 = wb_store wb.
Proof.
  unfold apply_update. pose proof (load_trust_frame wb) as E. destruct (load_trust wb) as [wb' t].
  cbn [fst] in E. rewrite <- E. destruct (picked _ _ _ _ _) as [[[? r] tr]|]; [|done].
  destruct (release_verify r); [|done]. destruct (negb tr); [done|]. cbn zeta.
  destruct (negb _); [done|]. destruct exe; [|done].
  match goal with |- context [with_fs ?w ?m] =>
    pose proof (with_fs_frame w m) as E2; destruct (with_fs w m) as [w2 [u|e]] end; done.
Qed.

(** A store that differs in its models at most. *)
Definition only_models (s s' : Inner) : Prop := exists r, s' = set_models s r.

Lemma only_models_refl s : only_models s s.
Proof. exists (i_models s). by destruct s. Qed.
Lemma only_models_add s s' m : only_models (add_model s m) s' -> only_models s s'.
Proof. intros [r ->]. by exists r. Qed.

Lemma register_defs_models file defs s fs s' fs' r :
  register_defs file defs s fs = (s', fs', r) -> only_models s s'.
Proof.
  revert s fs. induction defs as [|d defs IH]; intros s fs; cbn [register_defs].
  { intros [= <- _ _]. apply only_models_refl. }
  destruct (from_def d) as [l|e]; [|intros [= <- _ _]; apply only_models_refl].
  destruct (persist_save file d fs) as [fs1 [u|e]].
  - intros E%IH. by eapply only_models_add.
  - intros [= <- _ _]. eapply only_models_add, only_models_refl.
Qed.

Lemma run_install_models now wb m t : only_models (wb_store wb) (wb_store (run_install now wb m t).1).
Proof.
  unfold run_install, install. destruct (check m t _); [|apply only_models_refl].
  destruct (register_defs _ _ _ _) as [[s fs] [u|e]] eqn:E; apply register_defs_models in E; [|done].
  cbn zeta. match goal with |- context [mbind ?k ?x fs] => by destruct (mbind k x fs) end.
Qed.

Lemma settle_trust_frame now wb m b : wb_store (settle_trust now wb m b).1 = wb_store wb.
Proof.
  unfold settle_trust. pose proof (load_trust_frame wb) as E. destruct (load_trust wb) as [wb' t].
  cbn [fst] in E. rewrite <- E. destruct (is_trusted _ _); [done|]. destruct (negb b); [done|].
  match goal with |- context [with_fs ?w ?x] =>
    pose proof (with_fs_frame w x) as E2; destruct (with_fs w x) as [w2 [u|e]] end; done.
Qed.

Lemma install_pkg_models now wb doc b :
  only_models (wb_store wb) (wb_store (install_pkg now wb doc b).1).
Proof.
  unfold install_pkg. destruct (row_named _ _); [|apply only_models_refl].
  destruct (manifest_of _) as [m|]; [|apply only_models_refl].
  destruct (manifest_verify m); [|apply only_models_refl].
  pose proof (settle_trust_frame now wb m b) as E. destruct (settle_trust now wb m b) as [wb' [t|r]];
    cbn [fst] in E; rewrite <- E; [|apply only_models_refl].
  destruct (mf_bundle m ≫= _) as [[bb l]|]; [apply only_models_refl|apply run_install_models].
Qed.

Lemma register_model_models wb def : only_models (wb_store wb) (wb_store (register_model wb def).1).
Proof. unfold register_model. destruct (from_def def); [|apply only_models_refl]. by eexists. Qed.

Lemma rtc_eq s s' : s' = s -> rtc step s s'.
Proof. by intros ->. Qed.

Create HintDb served.
#[local] Hint Resolve request_steps action_steps create_steps drive_doc_steps drive_add_steps publish_steps
  publish_release_steps enable_app_steps plugin_action_steps : served.

Lemma serve_steps env env2 ms now exe wb op :
  fresh_id (wb_store wb) (w_id env.2) -> registers op = false ->
  rtc step (wb_store wb)
    (wb_store (serve env env2 ms now exe wb op).1).
Proof.
  intros Hf Hr. destruct op; try done; cbn [serve]; eauto with served;
    try (by apply rtc_eq, uninstall_frame); try (by apply rtc_eq, revoke_frame);
    try (by apply rtc_eq, trust_frame); try (by apply rtc_eq, apply_update_frame).
  - destruct op; cbn [serve_drive]; unfold add_drive_api, remove_drive_api, pause_drive_api,
      resume_drive_api, resync_drive_api, drive_cmd; repeat case_match; done.
  - unfold add_doc, run_create_doc_model. destruct (negb _); [done|]. destruct model; eauto with served.
  - unfold action_doc. destruct (negb _); [done|eauto with served].
  - unfold processor_create_api. by destruct (negb _).
  - unfold channel_add. destruct (negb _); [done|eauto with served].
  - unfold channel_remove, set_group_field. destruct (named_state _ _); [eauto with served|done].
  - unfold drive_folder, add_item. destruct (negb _); [done|eauto with served].
  - unfold drive_remove, set_group_field. destruct (named_state _ _); [eauto with served|done].
  - unfold space_create. cbn zeta. destruct (negb _); [done|eauto with served].
  - unfold disable_app. destruct (row_named _ _); [eauto with served|done].
Qed.

End Serve.

(** ** From the command line to the daemon *)

Lemma split_char_none c a : has_char c a = false -> split_char c a = [a].
Proof.
  induction a as [|d a IH]; [done|]. cbn [has_char split_char]. intros [Hd Ha]%orb_false_iff.
  rewrite bool_decide_eq_false in Hd. rewrite decide_False by congruence. by rewrite IH.
Qed.

Lemma split_char_app c a b :
  has_char c a = false -> split_char c (a +:+ String c b) = a :: split_char c b.
Proof.
  induction a as [|d a IH].
  { intros _. change ("" +:+ String c b) with (String c b). cbn [split_char]. by rewrite decide_True. }
  change (String d a +:+ String c b) with (String d (a +:+ String c b)).
  cbn [has_char split_char]. intros [Hd Ha]%orb_false_iff.
  rewrite bool_decide_eq_false in Hd. rewrite decide_False by congruence. by rewrite IH.
Qed.

(** The part of the URL after the authority. *)
Definition drive_path (op : DriveOp) : string :=
  let at_ name tail := "/api/drives/" +:+ encode_path_segment name +:+ tail in
  match op with
  | OpAdd _ _ _ _ => "/api/drives"
  | OpRemove name => at_ name ""
  | OpPause name => at_ name "/pause"
  | OpResume name => at_ name "/resume"
  | OpResync name => at_ name "/resync"
  end.
Definition drive_named (op : DriveOp) : string :=
  match op with OpAdd n _ _ _ | OpRemove n | OpPause n | OpResume n | OpResync n => n end.
(** An operation the server takes: its name is a valid one and its address is
    read. *)
Definition well_formed `{Net} (op : DriveOp) : Prop :=
  valid_name (drive_named op) = true /\
  match op with OpAdd _ addr _ _ => blank addr = false /\ is_ok (addr_parse (trim addr)) = true | _ => True end.
Definition trimmed (op : DriveOp) : DriveOp :=
  match op with OpAdd n a t o => OpAdd n (trim a) t o | op => op end.

Lemma segment_no_slash s : has_char "/" (encode_path_segment s) = false.
Proof.
  induction s as [|c s IH]; [done|]. cbn [encode_path_segment]. destruct (unreserved c) eqn:E; cbn [has_char].
  - rewrite IH, orb_false_r. apply bool_decide_eq_false. by intros ->.
  - rewrite IH. destruct c as [[][][][][][][][]]; vm_compute; reflexivity.
Qed.

Section CommandLine.
Context `{Platform, Net} `{!NetText} `{JsonText}.

Lemma drive_route_named op method body :
  match op with OpAdd _ _ _ _ => False | OpRemove _ => method = "DELETE" | _ => method = "POST" end ->
  drive_named op <> "" -> drive_route method (drive_path op) body = Some op.
Proof.
  assert (Hs : forall name tail, split_char "/" ("/api/drives/" +:+ encode_path_segment name +:+ tail) =
                                 "" :: "api" :: "drives" :: split_char "/" (encode_path_segment name +:+ tail)).
  { intros name tail.
    change ("/api/drives/" +:+ encode_path_segment name +:+ tail)
      with ("" +:+ String "/" ("api" +:+ String "/" ("drives" +:+ String "/" (encode_path_segment name +:+ tail)))).
    by rewrite !split_char_app. }
  assert (Hv : forall name verb, has_char "/" verb = false ->
    split_char "/" (encode_path_segment name +:+ String "/" verb) = [encode_path_segment name; verb]).
  { intros name verb Hv. by rewrite split_char_app, split_char_none by (done || apply segment_no_slash). }
  assert (Hne : forall name, name <> "" -> bool_decide (encode_path_segment name <> "") = true).
  { intros name Hn. apply bool_decide_eq_true. destruct name as [|c s]; [done|]. cbn. by case_match. }
  destruct op; [done|..]; intros -> Hn%Hne; cbn [drive_named] in Hn; unfold drive_route, drive_path; rewrite Hs.
  - rewrite str_app_nil_r, split_char_none by apply segment_no_slash. rewrite bool_decide_eq_true_2, Hn by done.
    cbn [andb]. by rewrite (proj1 (segment_roundtrip name)).
  - rewrite Hv by done. rewrite bool_decide_eq_true_2, Hn by done. cbn. by rewrite (proj1 (segment_roundtrip name)).
  - rewrite Hv by done. rewrite bool_decide_eq_true_2, Hn by done. cbn. by rewrite (proj1 (segment_roundtrip name)).
  - rewrite Hv by done. rewrite bool_decide_eq_true_2, Hn by done. cbn. by rewrite (proj1 (segment_roundtrip name)).
Qed.

Lemma add_body_roundtrip name addr token_env offline :
  add_body (Some (json_obj [("name", Str name); ("addr", Str addr); ("tokenEnv", opt_json token_env);
                            ("availableOffline", Bool offline)])) = Some (OpAdd name addr token_env offline).
Proof. by destruct token_env. Qed.

(** A drive command typed while the daemon runs arrives as that command:
    the request [api_target] makes of it is routed back to the same operation,
    whatever characters the name has, and the handler accepts it and hands the
    daemon exactly that command (with the address trimmed), and nothing else
    happens. *)
Theorem command_line_reaches_daemon c wb op :
  well_formed op ->
  let '(method, url, body) := api_target c op in
  url = "http://" +:+ st_host (c_settings c) +:+ ":" +:+ pretty (st_port (c_settings c)) +:+ drive_path op /\
  drive_route method (drive_path op) body = Some op /\
  serve_drive wb op = (tell wb (op_command (trimmed op)), empty_reply HTTP_ACCEPTED).
Proof.
  intros [Hn Ha]. assert (Hne : drive_named op <> "") by (intros E; by rewrite E in Hn).
  destruct op as [name addr te off|name|name|name|name]; cbn [drive_named] in Hn; cbn [api_target].
  - destruct Ha as [Hb Hp]. split_and!; [done|by rewrite <- (add_body_roundtrip name addr te off)|].
    cbn [serve_drive]. unfold add_drive_api. rewrite Hn, Hb. by destruct (addr_parse (trim addr)).
  - split_and!; [by rewrite !str_app_assoc|by apply (drive_route_named (OpRemove name))|].
    cbn. unfold remove_drive_api, drive_cmd. by rewrite Hn.
  - split_and!; [by rewrite !str_app_assoc|by apply (drive_route_named (OpPause name))|].
    cbn. unfold pause_drive_api, drive_cmd. by rewrite Hn.
  - split_and!; [by rewrite !str_app_assoc|by apply (drive_route_named (OpResume name))|].
    cbn. unfold resume_drive_api, drive_cmd. by rewrite Hn.
  - split_and!; [by rewrite !str_app_assoc|by apply (drive_route_named (OpResync name))|].
    cbn. unfold resync_drive_api, drive_cmd. by rewrite Hn.
Qed.
End CommandLine.
