(* ===== verification/LlmApi.v ===== *)
(** The requests the settings server makes of a language model
    (src/settings/mod.rs): [llm_test], [llm_draft_type] and
    [llm_draft_processor], with the calls each makes, in order.

    The service is an argument: the outcome of a call, by its number in the
    handler and its content.  The two system prompts are constant texts and are
    arguments too; the list of models put into the second one is computed
    here.  The environment is an argument. *)

From stdpp Require Import base gmap strings numbers pretty list.
From Stdlib Require Import Strings.Byte Strings.Ascii.
From S2P Require Import Prelude Json Doc Sample Action Model Entry Store Text Invite Blob Engine Sync Fs ReadModel.
From S2P Require Import Package Update Processor Status Config ConfigProps Daemon DaemonDrives Llm Web.

(** ** Calls *)

(** The body of a chat completion; the temperature in tenths. *)
Record Chat := {
  ch_model : string;
  ch_tenths : N;
  ch_max_tokens : N;
  ch_system : string;
  ch_user : string
}.
(** A [get], or a [post] with a body, with a bearer token. *)
Record LlmCall := { lc_url : string; lc_key : string; lc_chat : option Chat }.

(** What comes of a call: no answer, or a status (its number, and as it is
    displayed) and the text of the body. *)
Inductive LlmOutcome :=
  | LlmFailed (e : string)
  | LlmAnswered (status : N) (shown body : string).
(** [StatusCode::is_success]. *)
Definition is_success (status : N) : bool := ((200 <=? status) && (status <? 300))%N.

Definition HTTP_BAD_GATEWAY : N := 502.

(** [str::trim_end_matches]. *)
Fixpoint trim_end_char (c : ascii) (s : string) : string :=
  match s with
  | EmptyString => EmptyString
  | String d s' => match trim_end_char c s' with
                   | EmptyString => if decide (d = c) then EmptyString else String d EmptyString
                   | t => String d t
                   end
  end.

(** [LlmTestBody]. *)
Record LlmTestBody := { lt_base_url : string; lt_api_key_env : string; lt_model : string }.

Section LlmApi.
Context `{Platform, Net} `{JsonText}.
Context (env : string -> option string) (service : nat -> LlmCall -> LlmOutcome).
Implicit Types wb : Web.

(** [config::load(..).unwrap_or_default()]. *)
Definition loaded_config (ts : N) wb : Web * ReactorConfig :=
  match with_fs wb (load (wb_paths wb) ts) with
  | (wb, Ok c) => (wb, c)
  | (wb, Err _) => (wb, default_config)
  end.

Definition parsed_text (t : string) : option Value :=
  match json_parse (as_bytes t) with Ok v => Some v | Err _ => None end.

(** *** [llm_test] *)

(** The names of the models in an answer. *)
Definition model_id (m : Value) : option string := i ← vget m "id"; as_str i.
Definition model_ids (v : Value) : list string :=
  omap model_id (default [] (d ← vget v "data"; as_array d)).

Definition test_failed (model base e : string) : Response :=
  json HTTP_OK (json_obj [("ok", Bool false); ("model", Str model); ("baseUrl", Str base); ("error", Str e)]).
Definition test_passed (model base url body : string) : Response :=
  json HTTP_OK (json_obj [("ok", Bool true); ("model", Str model); ("baseUrl", Str base); ("url", Str url);
                          ("models", json_strs (model_ids (default (Str body) (parsed_text body))))]).

(** The candidates in turn: the calls made, and the answer. *)
Fixpoint try_models (key model base : string) (i : nat) (urls : list string) (last_err : string) :
    list LlmCall * Response :=
  match urls with
  | [] => ([], test_failed model base last_err)
  | url :: urls =>
      let call := {| lc_url := url; lc_key := key; lc_chat := None |} in
      let next e := let '(cs, r) := try_models key model base (S i) urls e in (call :: cs, r) in
      match service i call with
      | LlmAnswered st shown body =>
          if is_success st then ([call], test_passed model base url body) else next ("HTTP " +:+ shown)
      | LlmFailed e => next e
      end
  end.
Definition candidates (base : string) : list string :=
  let trimmed := trim_end_char "/" base in [trimmed +:+ "/models"; trimmed +:+ "/v1/models"].

Definition llm_test (ts : N) wb (body : LlmTestBody) : Web * list LlmCall * Response :=
  let '(wb, cfg) := loaded_config ts wb in
  match llm_base_url_ok (lt_base_url body) with
  | Err msg =>
      (wb, [], json HTTP_BAD_REQUEST (json_obj [("ok", Bool false); ("model", Str "");
                                               ("baseUrl", Str (lt_base_url body)); ("error", Str msg)]))
  | Ok _ =>
      let base := pick (lt_base_url body) (llm_base_url (c_llm cfg)) in
      let model := pick (lt_model body) (llm_model (c_llm cfg)) in
      let key_env := pick (lt_api_key_env body) (llm_api_key_env (c_llm cfg)) in
      if bool_decide (key_env = "") then (wb, [], test_failed model base "no apiKeyEnv configured") else
      match env key_env with
      | Some key =>
          if bool_decide (key = "")
          then (wb, [], test_failed model base ("environment variable " +:+ key_env +:+ " is not set"))
          else let '(cs, r) := try_models key model base 0 (candidates base) "" in (wb, cs, r)
      | None => (wb, [], test_failed model base ("environment variable " +:+ key_env +:+ " is not set"))
      end
  end.

(** *** The drafts *)

(** What the first attempt asks, and the ones after it. *)
Definition user_text (description : string) (attempt : nat) : string :=
  match attempt with
  | 0 => description
  | _ => description +:+ " — Return ONLY a single complete, well-formed JSON object (no markdown fences, no trailing prose). Do not truncate the output."
  end.
(** The text of the first choice. *)
Definition chat_content (v : Value) : string :=
  default "" (c ← vget v "choices"; l ← as_array c; c ← l !! 0; m ← vget c "message";
              t ← vget m "content"; as_str t).
Definition bad_gateway (e : string) : Response :=
  json HTTP_BAD_GATEWAY (json_obj [("ok", Bool false); ("error", Str e)]).

(** The attempts from number [i] on, [n] of them left. *)
Fixpoint attempts (key url what : string) (chat : string -> Chat) (description : string) (gave_up : string)
    (n i : nat) (last_raw : string) : list LlmCall * Response :=
  match n with
  | 0 => ([], json HTTP_BAD_REQUEST (json_obj [("ok", Bool false); ("error", Str gave_up); ("raw", Str last_raw)]))
  | S n =>
      let call := {| lc_url := url; lc_key := key; lc_chat := Some (chat (user_text description i)) |} in
      match service i call with
      | LlmAnswered st shown body =>
          if is_success st then
            let content := chat_content (default Null (parsed_text body)) in
            match extract_json_object content with
            | Some d => ([call], json HTTP_OK (json_obj [("ok", Bool true); (what, d)]))
            | None =>
                let '(cs, r) := attempts key url what chat description gave_up n (S i) content in
                (call :: cs, r)
            end
          else ([call], bad_gateway ("LLM returned HTTP " +:+ shown))
      | LlmFailed e => ([call], bad_gateway ("LLM request failed: " +:+ e))
      end
  end.
Definition DRAFT_ATTEMPTS : nat := 3.

(** What the two handlers share after the configuration is read. *)
Definition draft_with (what no_key gave_up : string) (max_tokens : N) (sys : string) cfg (description : string) :
    list LlmCall * Response :=
  let key := default "" (env (llm_api_key_env (c_llm cfg))) in
  if bool_decide (key = "")
  then ([], json HTTP_OK (json_obj [("ok", Bool false); ("error", Str no_key)])) else
  attempts key (trim_end_char "/" (llm_base_url (c_llm cfg)) +:+ "/chat/completions") what
    (fun user => {| ch_model := llm_model (c_llm cfg); ch_tenths := 2; ch_max_tokens := max_tokens;
                    ch_system := sys; ch_user := user |}) description gave_up DRAFT_ATTEMPTS 0 "".

(** [llm_draft_type]. *)
Definition llm_draft_type (sys : string) (ts : N) wb (description : string) : Web * list LlmCall * Response :=
  let '(wb, cfg) := loaded_config ts wb in
  let '(cs, r) := draft_with "definition"
    "no LLM API key set (the value of the configured apiKeyEnv); use the manual type editor"
    "the model did not return a valid JSON definition after 3 attempts" 8192 sys cfg description in
  (wb, cs, r).

(** The models the service may name. *)
Definition model_line (s : Inner) (r : ModelRef) : string :=
  let def := default Null (model_definition s r) in
  "- " +:+ mr_name r +:+ " : fields " +:+ json_to_string (default Null (vget def "fields"))
  +:+ " ; reducers ["
  +:+ default "" (v ← vget def "reducers"; o ← as_object v; Some (String.concat ", " o.*1)) +:+ "]".
Definition model_lines (s : Inner) : string := String.concat newline (model_line s <$> model_refs s).

(** [llm_draft_processor]. *)
Definition llm_draft_processor (sys : string -> string) (ts : N) wb (description : string) :
    Web * list LlmCall * Response :=
  let '(wb, cfg) := loaded_config ts wb in
  let '(cs, r) := draft_with "spec"
    "no LLM API key set (the value of the configured apiKeyEnv); fill in the trigger and reaction by hand"
    "the model did not return a valid subscription after 3 attempts" 2048
    (sys (model_lines (wb_store wb))) cfg description in
  (wb, cs, r).
End LlmApi.

(** ** What the handlers do *)

Section LlmProps.
Context `{Platform, Net} `{JsonText}.
Context (env : string -> option string) (service : nat -> LlmCall -> LlmOutcome).
Implicit Types wb : Web.

(** Only the files of the daemon differ (reading the configuration may write
    the defaults). *)
Definition only_files wb wb' : Prop := exists fs, wb' = put_ctx wb (put_fs (wb_ctx wb) fs).
Lemma loaded_only_files ts wb : only_files wb (loaded_config ts wb).1.
Proof. unfold loaded_config, with_fs. destruct (load _ _ _) as [fs []]; by exists fs. Qed.

(** An answer that carries no object. *)
Definition answer_text (o : LlmOutcome) : option string :=
  match o with
  | LlmAnswered st _ body => if is_success st then Some (chat_content (default Null (parsed_text body))) else None
  | LlmFailed _ => None
  end.
Definition no_object (o : LlmOutcome) : Prop := exists t, answer_text o = Some t /\ extract_json_object t = None.

(** The attempts a run of the loop makes, and how it ends. *)
Definition outcome_response (what gave_up : string) (last : bool) (o : LlmOutcome) (r : Response) : Prop :=
  match o with
  | LlmFailed e => r = bad_gateway ("LLM request failed: " +:+ e)
  | LlmAnswered st shown body =>
      if is_success st then
        let content := chat_content (default Null (parsed_text body)) in
        match extract_json_object content with
        | Some d => r = json HTTP_OK (json_obj [("ok", Bool true); (what, d)])
        | None => last = true /\
            r = json HTTP_BAD_REQUEST (json_obj [("ok", Bool false); ("error", Str gave_up); ("raw", Str content)])
        end
      else r = bad_gateway ("LLM returned HTTP " +:+ shown)
  end.

Lemma attempts_one key url what chat description gave_up n i raw :
  attempts service key url what chat description gave_up (S n) i raw =
  let call := {| lc_url := url; lc_key := key; lc_chat := Some (chat (user_text description i)) |} in
  match service i call with
  | LlmAnswered st shown body =>
      if is_success st then
        let content := chat_content (default Null (parsed_text body)) in
        match extract_json_object content with
        | Some d => ([call], json HTTP_OK (json_obj [("ok", Bool true); (what, d)]))
        | None => prod_map (cons call) id (attempts service key url what chat description gave_up n (S i) content)
        end
      else ([call], bad_gateway ("LLM returned HTTP " +:+ shown))
  | LlmFailed e => ([call], bad_gateway ("LLM request failed: " +:+ e))
  end.
Proof.
  cbn [attempts]. destruct (service i _); [done|]. destruct (is_success _); [|done].
  destruct (extract_json_object _); [done|]. by destruct (attempts _ _ _ _ _ _ _ _ _ _).
Qed.

Lemma attempts_run key url what chat description gave_up n i raw :
  let call j := {| lc_url := url; lc_key := key; lc_chat := Some (chat (user_text description j)) |} in
  let '(cs, r) := attempts service key url what chat description gave_up (S n) i raw in
  exists k, k <= n /\ cs = call <$> seq i (S k) /\
    (forall j, i <= j < i + k -> no_object (service j (call j))) /\
    outcome_response what gave_up (k =? n) (service (i + k) (call (i + k))) r.
Proof.
  intros call. revert i raw. induction n as [|n IH]; intros i raw; rewrite attempts_one; cbv zeta; fold (call i).
  - destruct (service i (call i)) as [e|st shown body] eqn:Es;
      [|destruct (is_success st) eqn:Est; [destruct (extract_json_object _) eqn:Ed|]];
      exists 0; rewrite Nat.add_0_r, Es; (split_and!; [lia|done|intros; lia|]); cbn [outcome_response];
      rewrite ?Est, ?Ed; done.
  - destruct (service i (call i)) as [e|st shown body] eqn:Es;
      [|destruct (is_success st) eqn:Est; [destruct (extract_json_object _) eqn:Ed|]].
    3: {
      set (content := chat_content _) in *. specialize (IH (S i) content).
      destruct (attempts _ _ _ _ _ _ _ (S n) (S i) content) as [cs r]. cbn [prod_map id fst snd].
      destruct IH as (k & Hk & -> & Hj & Ho). exists (S k). split_and!; [lia|done| |].
      * intros j Hij. destruct (decide (j = i)) as [->|]; [|apply Hj; lia]. rewrite Es.
        exists content. cbn [answer_text]. by rewrite Est.
      * by replace (i + S k) with (S i + k) by lia. }
    all: exists 0; rewrite Nat.add_0_r, Es; (split_and!; [lia|done|intros; lia|]); cbn [outcome_response];
      rewrite ?Est, ?Ed; done.
Qed.

(** The calls a draft makes of the configured service. *)
Definition draft_call cfg (max_tokens : N) (sys description : string) (j : nat) : LlmCall :=
  {| lc_url := trim_end_char "/" (llm_base_url (c_llm cfg)) +:+ "/chat/completions";
     lc_key := default "" (env (llm_api_key_env (c_llm cfg)));
     lc_chat := Some {| ch_model := llm_model (c_llm cfg); ch_tenths := 2; ch_max_tokens := max_tokens;
                        ch_system := sys; ch_user := user_text description j |} |}.
(** What a draft has to do: no call without a key; otherwise one to three
    calls, each after an answer without an object, and the answer is the one
    the last outcome calls for. *)
Definition drafts what gave_up max_tokens sys cfg description (cs : list LlmCall) (r : Response) : Prop :=
  let call := draft_call cfg max_tokens sys description in
  if bool_decide (default "" (env (llm_api_key_env (c_llm cfg))) = "") then cs = [] /\ rp_status r = HTTP_OK
  else exists k, k < DRAFT_ATTEMPTS /\ cs = call <$> seq 0 (S k) /\
         (forall j, j < k -> no_object (service j (call j))) /\
         outcome_response what gave_up (S k =? DRAFT_ATTEMPTS) (service k (call k)) r.
Lemma draft_with_drafts what no_key gave_up max_tokens sys cfg description :
  let '(cs, r) := draft_with env service what no_key gave_up max_tokens sys cfg description in
  drafts what gave_up max_tokens sys cfg description cs r.
Proof.
  unfold draft_with, drafts. case_bool_decide as Hk; [done|].
  pose proof (attempts_run (default "" (env (llm_api_key_env (c_llm cfg))))
    (trim_end_char "/" (llm_base_url (c_llm cfg)) +:+ "/chat/completions") what
    (fun user => {| ch_model := llm_model (c_llm cfg); ch_tenths := 2; ch_max_tokens := max_tokens;
                    ch_system := sys; ch_user := user |}) description gave_up 2 0 "") as Hr.
  change (S 2) with DRAFT_ATTEMPTS in Hr. cbv zeta in Hr.
  destruct (attempts _ _ _ _ _ _ _ _ _ _) as [cs r]. destruct Hr as (k & Hn & -> & Hj & Ho).
  exists k. unfold DRAFT_ATTEMPTS. split_and!; [lia|done| |exact Ho]. intros j Hjk. apply Hj. lia.
Qed.

(** Drafting with the language model is bounded and changes nothing.  A
    draft of a type or of a subscription makes no call without an API key, and
    otherwise one to three calls, all to the configured address with the
    configured key, a further one only after an answer that carried no JSON
    object; the object of the last answer is returned, a failed call is
    answered at once as a bad gateway, and after three answers without an
    object the last text is returned.  The store, the registry and the daemon
    are left alone: the draft is only for review. *)
Theorem drafts_reviewed sys psys ts wb description :
  let '(wb1, cfg) := loaded_config ts wb in
  only_files wb wb1 /\
  (let '(wb', cs, r) := llm_draft_type env service sys ts wb description in
   wb' = wb1 /\
   drafts "definition" "the model did not return a valid JSON definition after 3 attempts" 8192 sys cfg description cs r) /\
  (let '(wb', cs, r) := llm_draft_processor env service psys ts wb description in
   wb' = wb1 /\
   drafts "spec" "the model did not return a valid subscription after 3 attempts" 2048
     (psys (model_lines (wb_store wb))) cfg description cs r).
Proof.
  pose proof (loaded_only_files ts wb) as Ho. unfold llm_draft_type, llm_draft_processor.
  destruct (loaded_config ts wb) as [wb1 cfg]. cbn [fst] in Ho.
  assert (Es : wb_store wb1 = wb_store wb) by (by destruct Ho as [fs ->]). rewrite Es.
  split; [done|]. split.
  - pose proof (draft_with_drafts "definition"
      "no LLM API key set (the value of the configured apiKeyEnv); use the manual type editor"
      "the model did not return a valid JSON definition after 3 attempts" 8192 sys cfg description) as Hd.
    by destruct (draft_with _ _ _ _ _ _ _ _ _) as [cs r].
  - pose proof (draft_with_drafts "spec"
      "no LLM API key set (the value of the configured apiKeyEnv); fill in the trigger and reaction by hand"
      "the model did not return a valid subscription after 3 attempts" 2048
      (psys (model_lines (wb_store wb))) cfg description) as Hd.
    by destruct (draft_with _ _ _ _ _ _ _ _ _) as [cs r].
Qed.

(** The candidates of a test are tried in order, the second only when the
    first did not succeed. *)
Lemma try_models_calls key model base i urls e :
  let '(cs, r) := try_models service key model base i urls e in
  exists n, cs = (fun u => {| lc_url := u; lc_key := key; lc_chat := None |}) <$> take n urls.
Proof.
  revert i e. induction urls as [|u urls IH]; intros i e; cbn [try_models]; [by exists 0|].
  destruct (service _ _) as [e'|st shown body].
  - specialize (IH (S i) e'). destruct (try_models _ _ _ _ _ _ _) as [cs r]. destruct IH as [n ->]. by exists (S n).
  - destruct (is_success st); [by exists 1|]. specialize (IH (S i) ("HTTP " +:+ shown)).
    destruct (try_models _ _ _ _ _ _ _) as [cs r]. destruct IH as [n ->]. by exists (S n).
Qed.

(** A test of the connection sends the value of one environment variable, to
    at most two addresses under one base address that passed the guard when it
    came with the request. *)
Theorem test_calls ts wb body :
  let '(wb', cs, r) := llm_test env service ts wb body in
  only_files wb wb' /\
  let cfg := (loaded_config ts wb).2 in
  let key_env := pick (lt_api_key_env body) (llm_api_key_env (c_llm cfg)) in
  (cs <> [] -> is_ok (llm_base_url_ok (lt_base_url body)) = true /\ is_Some (env key_env) /\ env key_env <> Some "") /\
  exists n, cs = (fun u => {| lc_url := u; lc_key := default "" (env key_env); lc_chat := None |}) <$>
                 take n (candidates (pick (lt_base_url body) (llm_base_url (c_llm cfg)))).
Proof.
  pose proof (loaded_only_files ts wb) as Ho. unfold llm_test.
  destruct (loaded_config ts wb) as [wb1 cfg]. cbn [fst snd] in *.
  destruct (llm_base_url_ok _) as [[]|]; [|by split_and!; [..|exists 0]].
  set (key_env := pick _ _). case_bool_decide; [by split_and!; [..|exists 0]|].
  destruct (env key_env) as [key|] eqn:Ek; [|by split_and!; [..|exists 0]].
  case_bool_decide as Hk; [by split_and!; [..|exists 0]|].
  pose proof (try_models_calls key (pick (lt_model body) (llm_model (c_llm cfg)))
    (pick (lt_base_url body) (llm_base_url (c_llm cfg))) 0
    (candidates (pick (lt_base_url body) (llm_base_url (c_llm cfg)))) "") as Ht.
  destruct (try_models _ _ _ _ _ _ _) as [cs r]. split_and!; [done| |exact Ht].
  intros _. split_and!; [done|by exists key|]. by intros [= ->].
Qed.

(** But the request names both: whatever variable and whatever address outside
    the refused range it names, the value goes there. *)
Theorem test_sends_any_variable ts wb body secret :
  is_ok (llm_base_url_ok (lt_base_url body)) = true -> blank (lt_base_url body) = false ->
  blank (lt_api_key_env body) = false -> env (trim (lt_api_key_env body)) = Some secret -> secret <> "" ->
  exists cs, (llm_test env service ts wb body).1.2 =
    {| lc_url := trim_end_char "/" (trim (lt_base_url body)) +:+ "/models"; lc_key := secret; lc_chat := None |} :: cs.
Proof.
  intros Hu Hb Hv He Hs. unfold llm_test. destruct (loaded_config ts wb) as [wb1 cfg].
  destruct (llm_base_url_ok _) as [[]|]; [|done]. unfold pick. rewrite Hb, Hv.
  rewrite bool_decide_eq_false_2 by (by apply bool_decide_eq_false in Hv).
  rewrite He, bool_decide_eq_false_2 by done. cbn [candidates try_models]. cbv zeta.
  destruct (service _ _) as [e'|st shown b]; [|destruct (is_success st)]; cbn; try (by eexists);
    repeat case_match; simplify_eq/=; by eexists.
Qed.
End LlmProps.
