(* ===== verification/ConsoleProps.v ===== *)
(** What the settings server promises an operator: which documents an app is
    shown and may act on, what appears in the inbox, and that a document made
    with default values is one its model accepts. *)

From stdpp Require Import base gmap strings numbers pretty list.
From Stdlib Require Import Strings.Byte Strings.Ascii.
From S2P Require Import Prelude Json Doc Sample Action Model Builtins Entry Store StoreInv Text Cosign Invite.
From S2P Require Import Blob Engine Fs ReadModel Feed Package Update Processor Status Config ConfigProps Daemon.
From S2P Require Import DaemonDrives DaemonProps Web Console.

(** ** Rows of a query *)

Section Rows.
Context `{Platform} `{Uuid}.
Implicit Types (s : Inner) (e : Entry).

(** The row of a document. *)
Definition entry_row e : Value :=
  json_obj [("id", Str (uuid_display (doc_id (e_doc e)))); ("name", Str (doc_name (e_doc e)));
            ("model", Str (mr_name (e_model e)));
            ("fields", fields_json (fld_value <$> doc_fields (e_doc e)))].
(** Whether a query selects it. *)
Definition wanted (model : string) (f : option FieldFilter) e : Prop :=
  e_deleted e = false /\ (model = "" \/ mr_name (e_model e) = model) /\
  forall x, f = Some x ->
    fld_value <$> doc_fields (e_doc e) !! ff_field x = Some (ff_value x).

Lemma query_doc_row s model f id e :
  i_entries s !! id = Some e ->
  forall d, query_doc s model f id = Some d <-> wanted model f e /\ d = entry_row e.
Proof.
  intros He d. unfold query_doc, full_state, wanted. rewrite He. cbn [fmap option_fmap option_map mbind option_bind].
  unfold state_of. cbn [ds_deleted ds_model ds_doc]. fold (entry_row e).
  destruct (e_deleted e); [naive_solver|].
  assert (Hm : negb (bool_decide (model = "")) && negb (bool_decide (mr_name (e_model e) = model)) = false <->
               model = "" \/ mr_name (e_model e) = model).
  { repeat case_bool_decide; naive_solver. }
  destruct (negb _ && negb _); [split; [done|]; intros [(_ & Hx%Hm & _) _]; done|].
  destruct f as [x|]; [|naive_solver].
  destruct (doc_fields (e_doc e) !! ff_field x) as [y|] eqn:E.
  - case_bool_decide as Hv.
    + split; [intros [= <-]; split; [|done]; split_and!; [done|by apply Hm|]; intros ? [= <-]; rewrite E; simpl; congruence|].
      by intros [_ ->].
    + split; [done|]. intros [(_ & _ & Hk) _]. specialize (Hk x eq_refl). rewrite E in Hk. simpl in Hk. congruence.
  - split; [done|]. intros [(_ & _ & Hk) _]. specialize (Hk x eq_refl). by rewrite E in Hk.
Qed.

Lemma query_docs_row s model f d :
  d ∈ query_docs s model f <->
  exists id e, i_entries s !! id = Some e /\ wanted model f e /\ d = entry_row e.
Proof.
  unfold query_docs. rewrite sort_by_key_perm, list_elem_of_omap. split.
  - intros (id & [e He]%doc_ids_spec & Hd). exists id, e. split; [done|]. by apply (query_doc_row s model f id).
  - intros (id & e & He & Hd). exists id. split; [apply doc_ids_spec; by eexists|].
    by apply (query_doc_row s model f id e He).
Qed.

Lemma row_name_text e : row_text (entry_row e) "name" = Some (doc_name (e_doc e)).
Proof. reflexivity. Qed.
Lemma row_fields e : vget (entry_row e) "fields" = Some (fields_json (fld_value <$> doc_fields (e_doc e))).
Proof. reflexivity. Qed.
End Rows.

(** ** Documents made with default values *)

Lemma default_value_type t : type_matches (default_value t) t = true.
Proof.
  unfold default_value. repeat case_decide; subst; try reflexivity.
  - match goal with Ht : t ∈ _ |- _ => revert Ht end. set_unfold. by intros [->|[->|[->|[->|[]]]]].
  - unfold type_matches. repeat (rewrite bool_decide_eq_false_2; [|set_solver]). done.
Qed.

Definition want_of (t : Value) : string := default "" (as_str t).

Lemma fill_keeps fields schema out k :
  k ∉ schema.*1 -> obj_lookup (foldl (fill_field fields) out schema) k = obj_lookup out k.
Proof.
  revert out. induction schema as [|[f t] schema IH]; intros out Hk; [done|]. cbn [foldl].
  apply not_elem_of_cons in Hk as [Hne Hk]. rewrite IH by done. by apply obj_lookup_insert_ne.
Qed.

Lemma fill_lookup fields schema out f t :
  NoDup schema.*1 -> (f, t) ∈ schema ->
  obj_lookup (foldl (fill_field fields) out schema) f =
  Some (default (default_value (want_of t)) (vget fields f)).
Proof.
  revert out. induction schema as [|[g u] schema IH]; intros out Hn Hin; [by apply not_elem_of_nil in Hin|].
  apply NoDup_cons in Hn as [Hg Hn]. cbn [foldl]. apply elem_of_cons in Hin as [[= -> ->]|Hin].
  - rewrite fill_keeps by done. apply obj_lookup_insert_eq.
  - by apply IH.
Qed.

Lemma pass_keeps l out k v : obj_lookup out k = Some v -> obj_lookup (foldl pass_field out l) k = Some v.
Proof.
  revert out. induction l as [|[j w] l IH]; intros out Hk; [done|]. cbn [foldl]. apply IH.
  unfold pass_field. cbn [fst snd]. destruct (obj_lookup out j) eqn:E; [done|].
  rewrite obj_lookup_insert_ne; [done|]. congruence.
Qed.

(** A document created from the console needs no value for every field: for
    any model definition with an [init] reducer, the payload built from the
    values given and the defaults of their types passes the model's own
    validation, whatever fields are left out, as long as the values given have
    their declared types. *)
Theorem defaults_validate `{Platform} def m name fields :
  from_def def = Ok m -> is_Some (reducer m "init") ->
  NoDup (default [] (init_schema (Some def))).*1 ->
  (forall f t v, (f, t) ∈ default [] (init_schema (Some def)) ->
     (if decide (f = "name") then Some (Str name) else vget fields f) = Some v ->
     type_matches v (want_of t) = true) ->
  l1_validate_payload m "init" (init_payload_with_defaults (Some def) name fields) = Ok tt.
Proof.
  intros Hm [r Hr] Hn Ht. apply l1_validate_payload_ok. exists r. split; [done|]. intros schema Hs.
  assert (Hi : init_schema (Some def) = Some schema).
  { unfold from_def in Hm. case_bool_decide; [done|]. injection Hm as <-. unfold reducer in Hr. simpl in Hr.
    unfold init_schema. simpl. destruct (vget def "reducers") as [rs|]; [|done]. simpl in *.
    rewrite Hr. simpl. by rewrite Hs. }
  unfold init_payload_with_defaults. rewrite Hi in *. cbn [default] in *. apply Forall_forall.
  intros [f t] Hin. unfold field_conforms. cbn [fst snd vget]. specialize (Ht f t). revert Ht.
  destruct (decide (f = "name")) as [->|Hne]; intros Ht.
  - exists (Str name). split; [apply obj_lookup_insert_eq|by apply Ht].
  - rewrite obj_lookup_insert_ne by done. eexists. split; [by apply pass_keeps, fill_lookup|].
    destruct (vget fields f) as [v|]; [by apply Ht|apply default_value_type].
Qed.

(** ** The inbox *)

Lemma btree_iter_keys {V} (m : gmap string V) : NoDup (btree_iter m).*1.
Proof. unfold btree_iter. rewrite sort_by_key_perm. apply NoDup_fst_map_to_list. Qed.

Lemma vget_fields (m : gmap string Value) k : vget (fields_json m) k = m !! k.
Proof.
  unfold fields_json. cbn [vget].
  destruct (m !! k) as [v|] eqn:E.
  - apply elem_of_btree_iter in E. pose proof (btree_iter_keys m) as Hn.
    induction (btree_iter m) as [|[j w] l IH]; [by apply not_elem_of_nil in E|].
    simpl in *. apply NoDup_cons in Hn as [Hj Hn]. apply elem_of_cons in E as [[= -> ->]|E].
    + by rewrite decide_True.
    + rewrite decide_False; [by apply IH|]. intros ->. apply Hj. by apply (list_elem_of_fmap_2 fst _ (j, v)).
  - destruct (obj_lookup _ _) as [v|] eqn:El; [|done]. exfalso. apply obj_lookup_key in El.
    apply list_elem_of_fmap in El as ([j w] & -> & Hw%elem_of_btree_iter). simpl in *. congruence.
Qed.

(** What a rule asks of a document's fields. *)
Definition rule_holds (rule : Attention) (me : string) (fields : gmap string Value) : Prop :=
  (forall k v, (k, v) ∈ at_when rule -> fields !! k = Some v) /\
  (fields !! at_needs rule = Some (Str me) \/
   exists a, fields !! at_needs rule = Some (Array a) /\ Str me ∈ a).

Lemma rule_holds_spec rule me m :
  conditions_hold rule (fields_json m) && names_me (fields_json m) (at_needs rule) me = true <->
  rule_holds rule me m.
Proof.
  rewrite andb_true_iff. unfold rule_holds, conditions_hold, names_me. rewrite forallb_forall, vget_fields.
  f_equiv.
  - split.
    + intros Hw k v Hk. apply list_elem_of_In in Hk. apply Hw, bool_decide_eq_true in Hk. by rewrite vget_fields in Hk.
    + intros Hw [k v] Hk%list_elem_of_In. apply bool_decide_eq_true. rewrite vget_fields. by apply Hw.
  - destruct (m !! at_needs rule) as [[]|]; try (split; [done|]; naive_solver).
    + rewrite bool_decide_eq_true. naive_solver.
    + rewrite existsb_exists. split.
      * intros (v & Hv%list_elem_of_In & E%bool_decide_eq_true). right. destruct v; try done. naive_solver.
      * intros [?|(a & [= <-] & Ha)]; [done|]. exists (Str me). split; [by apply list_elem_of_In|].
        by apply bool_decide_eq_true.
Qed.

Section InboxProps.
Context `{Platform} `{Uuid}.
Implicit Types (s : Inner) (e : Entry).

(** The inbox shows exactly what needs you: one row for a rule of an
    installed app and a live document of the rule's model whose fields meet
    every condition, whose responsible field is you or lists you, and which
    lives in a space, named with its tier; and the rows come in the order of
    their spaces and documents. *)
Theorem inbox_exact s rules me :
  sorted_by (fun r => (rw_space r, rw_doc r)) (rows_for s rules me) /\
  forall r, r ∈ rows_for s rules me <->
    exists app rule id e sp,
      (app, rule) ∈ rules /\ i_entries s !! id = Some e /\ wanted (at_model rule) None e /\
      rule_holds rule me (fld_value <$> doc_fields (e_doc e)) /\
      doc_space s (doc_name (e_doc e)) = Some sp /\
      r = {| rw_doc := doc_name (e_doc e); rw_model := at_model rule; rw_app := app;
             rw_label := at_label rule; rw_space := sp.1; rw_space_tier := sp.2 |}.
Proof.
  split; [apply sort_by_key_sorted|]. intros r. unfold rows_for. rewrite sort_by_key_perm, list_elem_of_bind.
  setoid_rewrite list_elem_of_omap. setoid_rewrite query_docs_row.
  assert (Hrow : forall app rule e,
    inbox_row s app rule me (entry_row e) = Some r <->
    rule_holds rule me (fld_value <$> doc_fields (e_doc e)) /\
    exists sp, doc_space s (doc_name (e_doc e)) = Some sp /\
      r = {| rw_doc := doc_name (e_doc e); rw_model := at_model rule; rw_app := app;
             rw_label := at_label rule; rw_space := sp.1; rw_space_tier := sp.2 |}).
  { intros app rule e. rewrite <- rule_holds_spec. unfold inbox_row. rewrite row_name_text, row_fields.
    cbn [mbind option_bind default]. rewrite <- negb_andb. destruct (_ && _); cbn [negb]; [|naive_solver].
    destruct (doc_space _ _) as [sp|]; naive_solver. }
  split.
  - intros ([app rule] & (d & (id & e & He & Hw & ->) & Hr%Hrow) & Hin). naive_solver.
  - intros (app & rule & id & e & sp & Hin & He & Hw & Hh & Hs & Hr). exists (app, rule). split; [|done].
    exists (entry_row e). split; [naive_solver|]. apply Hrow. eauto.
Qed.
End InboxProps.

(** ** What an app may read *)

Section PluginProps.
Context `{Platform, Net} `{!NetText} `{JsonText} `{Base64} `{!Serde Action} `{!Serde InviteToken}
  `{!Serde (list string)} `{Uuid} `{!Serde (list Value)} `{TextOps} `{!Serde Installed}.
Implicit Types (wb : Web) (env : Link * World) (s : Inner).

(** The names of the live documents lead to them. *)
Definition names_true s : Prop := forall id e,
  i_entries s !! id = Some e -> e_deleted e = false ->
  i_names s !! doc_name (e_doc e) = if decide (doc_name (e_doc e) = "") then None else Some id.

Lemma names_true_get s id e :
  reachable s -> names_true s -> i_entries s !! id = Some e -> e_deleted e = false ->
  doc_id <$> get_doc s (doc_name (e_doc e)) = if decide (doc_name (e_doc e) = "") then None else Some id.
Proof.
  intros Hr Hn He Hd. unfold get_doc. rewrite (Hn _ _ He Hd). case_decide; [done|]. simpl.
  rewrite He. simpl. rewrite Hd. simpl. f_equal. pose proof (inv_entries _ (reachable_inv _ Hr) id) as Hi.
  rewrite He in Hi. by apply (inv_id _ _ _ Hi).
Qed.

Lemma row_named_In l name d : row_named l name = Some d -> d ∈ l /\ row_text d "name" = Some name.
Proof.
  unfold row_named. intros E%head_Some_elem_of. apply list_elem_of_filter in E. tauto.
Qed.

(** A space that lists the app among its apps. *)
Definition hosts s (sp : DocId) (space app : string) : Prop := exists e,
  i_entries s !! sp = Some e /\ wanted "space" None e /\ doc_name (e_doc e) = space /\
  exists a, a ∈ default [] ((fld_value <$> doc_fields (e_doc e) !! "apps") ≫= as_array) /\
            row_text a "name" = Some app.

Lemma app_enabled_hosts wb space app :
  app_enabled_in wb space app = true -> exists sp, hosts (wb_store wb) sp space app.
Proof.
  unfold app_enabled_in. destruct (row_named _ _) as [d|] eqn:E; [|done].
  apply row_named_In in E as [(sp & e & He & Hw & ->)%query_docs_row En].
  rewrite existsb_exists. intros (a & Ha%list_elem_of_In & Hn%bool_decide_eq_true).
  exists sp, e. rewrite row_name_text in En. injection En as En. split_and!; [done|done|done|].
  exists a. split; [|done]. revert Ha. unfold items_of, row_field. rewrite row_fields. cbn [mbind option_bind].
  by rewrite vget_fields, lookup_fmap.
Qed.

Lemma load_installed_store wb : wb_store (load_installed wb).1 = wb_store wb.
Proof. unfold load_installed. destruct (with_fs _ _) eqn:E. unfold with_fs in E. by injection E as <- _. Qed.

(** What a plugin open in [space] is shown of a document. *)
Definition shown_in s (space : option string) (app : string) (e : Entry) : Prop :=
  forall name, space = Some name ->
    doc_name (e_doc e) <> "" /\ exists sp, hosts s sp name app /\ e_space e = Some sp.

Lemma row_space_iff wb space sp app id e :
  reachable (wb_store wb) -> names_true (wb_store wb) -> space <> "" ->
  hosts (wb_store wb) sp space app -> i_entries (wb_store wb) !! id = Some e -> e_deleted e = false ->
  row_space wb (entry_row e) = doc_id <$> get_doc (wb_store wb) space <->
  doc_name (e_doc e) <> "" /\ e_space e = Some sp.
Proof.
  intros Hr Hn Hne (spe & Hspe & (Hlive & _) & <- & _) He Hd.
  rewrite (names_true_get _ _ _ Hr Hn Hspe Hlive), decide_False by done.
  unfold row_space. rewrite row_name_text. cbn [mbind option_bind].
  pose proof (names_true_get _ _ _ Hr Hn He Hd) as Hg.
  destruct (get_doc _ (doc_name (e_doc e))) as [d|]; cbn [fmap option_fmap option_map] in Hg.
  - case_decide; [done|]. injection Hg as Hg. cbn [mbind option_bind]. unfold space_of. rewrite Hg, He. naive_solver.
  - case_decide; [|done]. cbn [mbind option_bind]. naive_solver.
Qed.

(** C33. A plugin sees what its manifest declares, where it is enabled: a query
    is answered only for an installed package whose capabilities name that
    model; the answer holds exactly the live documents of the model that pass
    the filter and, when the plugin is open in a space, belong to that space,
    which lists the app; and nothing is changed.  This needs the names of the
    live documents to lead to them. *)
Theorem plugin_reads_confined wb name model f space :
  reachable (wb_store wb) -> names_true (wb_store wb) -> space <> Some "" ->
  let '(wb', r) := plugin_query wb name model f space in
  wb_store wb' = wb_store wb /\
  (rp_status r = HTTP_OK ->
   exists pkg docs,
     installed_get (load_installed wb).2 name = Some pkg /\
     model ∈ cap_read (mf_capabilities (ip_manifest pkg)) /\ r = json HTTP_OK (Array docs) /\
     forall d, d ∈ docs <-> exists id e,
       i_entries (wb_store wb) !! id = Some e /\ wanted (model_part model) f e /\
       shown_in (wb_store wb) space name e /\ d = entry_row e).
Proof.
  intros Hr Hn Hne. unfold plugin_query, installed_package. pose proof (load_installed_store wb) as E.
  destruct (load_installed wb) as [wb' l]. cbn [fst snd] in *.
  destruct (installed_get l name) as [pkg|]; [|split; [done|discriminate]].
  destruct (may_read _ model) eqn:Em; cbn [negb]; [|split; [done|discriminate]].
  destruct (space_allows wb' space name) eqn:Ea; cbn [negb]; [|split; [done|discriminate]].
  split; [done|]. intros _. exists pkg. eexists. split_and!; [done|by apply bool_decide_eq_true in Em|done|].
  intros d. rewrite <- E in *. destruct space as [sp|]; cbn [space_allows] in Ea.
  - rewrite list_elem_of_filter, query_docs_row. apply app_enabled_hosts in Ea as [spid Hh].
    assert (Hsp : sp <> "") by congruence.
    split.
    + intros [Hs (id & e & He & Hw & ->)]. exists id, e. split_and!; [done|done| |done].
      apply (row_space_iff wb' sp spid name id e) in Hs as [??]; [|done..|by apply Hw].
      intros ? [= <-]. naive_solver.
    + intros (id & e & He & Hw & Hs & ->). destruct (Hs sp eq_refl) as (Hnm & sp' & Hh' & Hsp').
      split; [|naive_solver]. apply (row_space_iff wb' sp sp' name id e); try done. by apply Hw.
  - rewrite query_docs_row. unfold shown_in. split; [|naive_solver].
    intros (id & e & He & Hw & ->). exists id, e. split_and!; [done|done|by intros|done].
Qed.

(** What is served as a package's editor is what its publisher signed: bytes of
    the hash and the size the manifest of the installed package names. *)
Lemma bundle_signed show_hash wb name :
  rp_status (bundle show_hash wb name).2 = HTTP_OK ->
  exists pkg blob b,
    installed_get (load_installed wb).2 name = Some pkg /\ mf_bundle (ip_manifest pkg) = Some blob /\
    rp_body (bundle show_hash wb name).2 = RBytes b /\ hash32_of b = br_hash blob /\ len_u64 b = br_size blob.
Proof.
  unfold bundle, installed_package. destruct (load_installed wb) as [wb' l]. cbn [fst snd].
  destruct (installed_get l name) as [pkg|]; [|discriminate].
  destruct (mf_bundle (ip_manifest pkg)) as [blob|] eqn:Eb; [|discriminate]. cbn [snd].
  destruct (get show_hash (wb_blobs wb') blob) as [b|] eqn:Eg; [|discriminate]. intros _.
  exists pkg, blob, b. split_and!; try done; revert Eg; unfold get;
    (destruct (gather _ _ _ _) as [out|]; [|discriminate]); cbn [mbind result_bind];
    (case_decide as H1'; [|discriminate]); (case_decide as H2'; [|discriminate]); by intros [= <-].
Qed.

Lemma load_installed_files wb :
  fs_files (x_fs (wb_ctx (load_installed wb).1)) = fs_files (x_fs (wb_ctx wb)).
Proof.
  unfold load_installed, with_fs. set (p := packages_file _).
  assert (Hl : forall q, leaves (installed_load p) q).
  { intros q. unfold installed_load. apply leaves_bind; [apply leaves_try, leaves_read|]. intros r. apply leaves_ret. }
  destruct (installed_load p (x_fs (wb_ctx wb))) as [fs r] eqn:E. cbn. apply map_eq. intros q.
  pose proof (Hl q (x_fs (wb_ctx wb))) as Hq. by rewrite E in Hq.
Qed.

(** The asset origin serves bundles and nothing else: whatever is asked of it,
    the store, the chunks, the files and the commands stay as they are, and an
    answer with content is the fixed text of the index or the editor of an
    installed package, byte for byte what its publisher signed. *)
Theorem assets_confined show_hash wb path wb' r :
  asset_router show_hash wb path = Some (wb', r) ->
  (wb_store wb' = wb_store wb /\ wb_blobs wb' = wb_blobs wb /\ wb_sent wb' = wb_sent wb /\
   fs_files (x_fs (wb_ctx wb')) = fs_files (x_fs (wb_ctx wb))) /\
  (rp_status r = HTTP_OK ->
   (path = [] /\ r = asset_index) \/
   exists name pkg blob b,
     path = ["plugin"; name] /\ installed_get (load_installed wb).2 name = Some pkg /\
     mf_bundle (ip_manifest pkg) = Some blob /\ rp_body r = RBytes b /\
     hash32_of b = br_hash blob /\ len_u64 b = br_size blob).
Proof.
  unfold asset_router. destruct path as [|seg [|name [|]]]; try done.
  { intros [= <- <-]. split; [done|]. by left. }
  destruct (bool_decide _) eqn:Es; [|done]. apply bool_decide_eq_true in Es as ->.
  destruct (negb _); cbn [andb]; [|done]. intros Hb. assert (Eb : bundle show_hash wb name = (wb', r)) by congruence.
  pose proof (bundle_signed show_hash wb name) as Hs. rewrite Eb in Hs. cbn [snd] in Hs. split.
  - assert (Ew : wb' = (load_installed wb).1).
    { revert Eb. unfold bundle, installed_package. destruct (load_installed wb) as [wb1 l]. cbn [fst].
      repeat case_match; by intros [= <- _]. }
    subst wb'. split_and!; [apply load_installed_store| | |apply load_installed_files];
      unfold load_installed; destruct (with_fs _ _) as [w1 r1] eqn:E; unfold with_fs in E; by injection E as <- _.
  - intros Hok. right. destruct (Hs Hok) as (pkg & blob & bs & ?). by exists name, pkg, blob, bs.
Qed.

Context (sip : string * string * bool * option string * string * N * string -> N).

(** A plugin writes only what its manifest declares, where it is enabled:
    when a request of a plugin moves the store, the package is installed, one of
    its write capabilities names the model and the kind, a space the request
    names lists the app, and what happened is the ordinary creation of that
    document in that space, or the ordinary action on that document, with the
    model's own rules applied. *)
Theorem plugin_writes_confined env wb name model kind doc payload space :
  let out := plugin_action sip env wb name model kind doc payload space in
  let wb1 := (load_installed wb).1 in
  wb_store out.1 <> wb_store wb ->
  exists pkg,
    installed_get (load_installed wb).2 name = Some pkg /\
    (exists w, w ∈ cap_write (mf_capabilities (ip_manifest pkg)) /\ wc_model w = model /\
               kind ∈ wc_kinds w) /\
    (forall sp, space = Some sp -> exists id, hosts (wb_store wb) id sp name) /\
    (kind = "init" /\
     (exists payload', out = run_create_doc_in_space sip env wb1 doc model payload' space) \/
     kind <> "init" /\ out = run_create_action sip env wb1 doc model kind payload).
Proof.
  cbn zeta. unfold plugin_action, installed_package. pose proof (load_installed_store wb) as E.
  destruct (load_installed wb) as [wb' l]. cbn [fst snd] in *.
  destruct (installed_get l name) as [pkg|]; [|done].
  destruct (may_write _ model kind) eqn:Em; cbn [negb]; [|done].
  destruct (space_allows wb' space name) eqn:Ea; cbn [negb]; [|done].
  intros Hout. exists pkg. split; [done|]. split_and!.
  - apply existsb_exists in Em as (w & Hw%list_elem_of_In & [Hm Hk]%andb_prop). exists w.
    split_and!; [done|by apply bool_decide_eq_true in Hm|by apply bool_decide_eq_true in Hk].
  - intros sp ->. cbn in Ea. apply app_enabled_hosts in Ea. by rewrite E in Ea.
  - case_bool_decide as Hk; [left|right; by split]. split; [done|]. revert Hout.
    destruct (if _ : bool then _ else _) as [p|]; [by exists p|done].
Qed.
End PluginProps.

(** ** A sample node *)

Import ConfigSample DaemonSample.

(** A space "acme" with the app "vault" enabled, a note in it and one outside. *)
Definition crm_manifest : Manifest :=
  {| mf_name := "vault"; mf_version := "1.0.0"; mf_description := ""; mf_category := "";
     mf_publisher := {| pi_name := "Acme"; pi_url := "" |}; mf_publisher_key := "";
     mf_document_models := []; mf_processors := []; mf_bundle := None;
     mf_capabilities := {| cap_read := ["note@1"];
                           cap_write := [{| wc_model := "note@1"; wc_kinds := ["init"] |}] |};
     mf_projections := []; mf_attention := []; mf_ui := {| ui_nav := [] |}; mf_sig := "" |}.
Definition crm : InstalledPackage := {| ip_manifest := crm_manifest; ip_installed_at := "now" |}.
#[local] Instance crm_installed : Serde Installed :=
  {| to_json := fun _ => []; from_json := fun _ => Ok [crm] |}.

Definition space_payload (name : string) : Value :=
  json_obj [("name", Str name); ("visibility", Str "protected"); ("members", json_strs ["12D3me"]);
            ("managers", json_strs ["12D3me"])].
Definition note_payload (name : string) : Value :=
  json_obj [("name", Str name); ("title", Str "t"); ("body", Str "b")].
Definition vault_item : Value :=
  json_obj [("item", json_obj [("name", Str "vault"); ("version", Str "1.0.0")])].
Definition acme0 : Inner := open_inner empty_disk (sk 1) "12D3me" realistic_models.
Definition acme1 : Inner := (create_space_at pretty 1 500%N "acme" (space_payload "acme") acme0).1.
Definition acme2 : Inner :=
  (apply_local_action 2 "acme" (modelref_new "space" "1") "enable-app" vault_item acme1).1.
Definition acme3 : Inner :=
  (create_doc_in_space 3 501%N "deal" (modelref_new "note" "1") (note_payload "deal") (Some 500%N) acme2).1.
Definition acme : Inner :=
  (create_doc_in_space 4 502%N "memo" (modelref_new "note" "1") (note_payload "memo") None acme3).1.
Definition acme_web : Web := {|
  wb_ctx := put_fs (put_store home acme) (disk {[ packages_file (for_root state) := [] ]});
  wb_snap := snapshot_empty 0 "1" "" ""; wb_blobs := ∅; wb_specs := []; wb_fires := ∅; wb_runner := [];
  wb_update_auto := false; wb_sent := [] |}.

Lemma acme_reachable : reachable acme.
Proof.
  eapply reach_step; [|apply step_create_in_space; vm_compute; reflexivity].
  eapply reach_step; [|apply step_create_in_space; vm_compute; reflexivity].
  eapply reach_step; [|apply step_apply_local].
  eapply reach_step; [apply reach_open|apply step_create_space].
Qed.

Lemma names_true_decide s :
  bool_decide (map_Forall (fun id e => e_deleted e = false ->
    i_names s !! doc_name (e_doc e) = if decide (doc_name (e_doc e) = "") then None else Some id)
    (i_entries s)) = true -> names_true s.
Proof. intros Hs%bool_decide_eq_true id e He. by apply Hs. Qed.

Definition titles (r : Response) : list string :=
  match rp_body r with RJson (Array l) => omap (fun d => row_text d "name") l | _ => [] end.

Lemma plugin_reads_confined_witness :
  wb_store (plugin_query acme_web "vault" "note@1" None (Some "acme")).1 = acme /\
  titles (plugin_query acme_web "vault" "note@1" None (Some "acme")).2 = ["deal"].
Proof.
  split; [|vm_compute; reflexivity].
  pose proof (plugin_reads_confined acme_web "vault" "note@1" None (Some "acme") acme_reachable
    (names_true_decide acme ltac:(vm_compute; reflexivity)) ltac:(discriminate)) as Hc.
  destruct (plugin_query _ _ _ _ _). exact (proj1 Hc).
Defined.

Lemma plugin_writes_confined_witness :
  let out := plugin_action sip0 (Prompt, calm_world) acme_web "vault" "note@1" "init" "plan"
               (json_obj [("title", Str "t"); ("body", Str "b")]) (Some "acme") in
  is_Some (get_doc (wb_store out.1) "plan") /\
  exists w, w ∈ cap_write (mf_capabilities crm_manifest) /\ "init" ∈ wc_kinds w.
Proof.
  cbn zeta. split; [vm_compute; by eexists|].
  destruct (plugin_writes_confined sip0 (Prompt, calm_world) acme_web "vault" "note@1" "init" "plan"
    (json_obj [("title", Str "t"); ("body", Str "b")]) (Some "acme")) as (pkg & Hp & (w & Hw & _ & Hk) & _).
  - intros E. apply (f_equal (fun s => bool_decide (is_Some (get_doc s "plan")))) in E.
    vm_compute in E. discriminate.
  - replace pkg with crm in Hw; [by exists w|]. assert (Some crm = Some pkg) as E; [|by injection E].
    rewrite <- Hp. vm_compute. reflexivity.
Defined.

Lemma defaults_validate_witness :
  exists m, from_def note_def = Ok m /\
    l1_validate_payload m "init" (init_payload_with_defaults (Some note_def) "n" Null) = Ok tt.
Proof.
  eexists. split; [reflexivity|]. apply (defaults_validate note_def _ "n" Null eq_refl).
  - vm_compute. by eexists.
  - apply (bool_decide_unpack _). vm_compute. exact I.
  - intros f t v Hin. assert (Hf : Forall (fun ft => want_of ft.2 = "string")
      (default [] (init_schema (Some note_def)))) by (vm_compute; by repeat constructor).
    rewrite Forall_forall in Hf. apply Hf in Hin. cbn [snd] in Hin. rewrite Hin.
    case_decide; [by intros [= <-]|done].
Defined.

(** ** Two documents of one name *)

(** A second space with the app enabled, where acme has it disabled. *)
Definition other1 : Inner := (create_space_at pretty 5 600%N "other" (space_payload "other") acme).1.
Definition other2 : Inner :=
  (apply_local_action 6 "other" (modelref_new "space" "1") "enable-app" vault_item other1).1.
Definition other : Inner :=
  (apply_local_action 7 "acme" (modelref_new "space" "1") "disable-app"
     (json_obj [("apps", Array [])]) other2).1.
Definition other_web : Web := put_ctx acme_web (put_store (wb_ctx acme_web) other).

(** The name in the payload is not the name that is checked, and a row is
    confined by its name: an app enabled in one space alone creates a document
    there with the name of a document of another space, and its next query
    returns that document too. *)
Theorem plugin_escapes_space :
  let read wb := plugin_query wb "vault" "note@1" None (Some "other") in
  let act := plugin_action sip0 (Prompt, calm_world) other_web "vault" "note@1" "init" "draft"
               (note_payload "deal") (Some "other") in
  titles (read other_web).2 = [] /\
  app_enabled_in other_web "acme" "vault" = false /\ space_of other 501%N = Some 500%N /\
  rp_status act.2 = HTTP_OK /\
  (exists row, rp_body (read act.1).2 = RJson (Array row) /\
     (fun d => row_text d "id") <$> row = [Some "77"; Some "501"]).
Proof. cbn zeta. split_and!; [vm_compute; reflexivity..|]. eexists. split; vm_compute; reflexivity. Qed.
