(* ===== verification/Assets.v ===== *)
(** The origin that serves plugin editors (src/settings/assets.rs) as a client
    sees it: the methods it answers and the headers of its answers, which keep
    an editor inside its own document.  [Console] has its router and handlers. *)

From stdpp Require Import base gmap strings numbers pretty list.
From Stdlib Require Import Strings.Byte Strings.Ascii.
From S2P Require Import Prelude Json Doc Action Model Builtins Entry Store Text Cosign Invite Blob Engine.
From S2P Require Import Fs ReadModel Package Update Processor Logs Status Config Daemon Web Console.

(** [CSP]. *)
Definition CSP : string :=
  "default-src 'none'; script-src 'unsafe-inline'; style-src 'unsafe-inline'; img-src data:; font-src data:; connect-src 'none'; form-action 'none'; base-uri 'none'; frame-ancestors *".
(** The headers of a bundle, and of a plain text, which [axum] writes for a
    string as [index] does itself. *)
Definition bundle_headers : list (string * string) :=
  [("content-type", "text/html; charset=utf-8"); ("content-security-policy", CSP);
   ("x-content-type-options", "nosniff"); ("cache-control", "no-store")].
Definition text_headers : list (string * string) := [("content-type", "text/plain; charset=utf-8")].
Definition headers_of (b : RespBody) : list (string * string) :=
  match b with RBytes _ => bundle_headers | RText _ => text_headers | _ => [] end.

(** An answer with its headers; [HEAD] is answered as [GET], without a body. *)
Record Answer := { an_response : Response; an_headers : list (string * string) }.
Definition HTTP_METHOD_NOT_ALLOWED : N := 405.
Definition answered (m : string) (r : Response) : Answer :=
  {| an_response := if decide (m = "HEAD") then empty_reply (rp_status r) else r;
     an_headers := headers_of (rp_body r) |}.

Section Assets.
Context `{Platform, Net} `{!NetText} `{JsonText} `{Base64} `{!Serde Action} `{!Serde InviteToken}
  `{!Serde (list string)} `{Uuid} `{!Serde (list Value)} `{TextOps} `{!Serde Installed}.
Context (show_hash : Hash32 -> string).
Implicit Type wb : Web.

(** A request: no route, a route that takes no other method than [GET], or the
    handler's answer. *)
Definition asset_request wb (m : string) (path : list string) : Web * Answer :=
  match asset_router show_hash wb path with
  | None => (wb, answered m (empty_reply HTTP_NOT_FOUND))
  | Some (wb', r) =>
      if decide (m = "GET" \/ m = "HEAD") then (wb', answered m r)
      else (wb, answered m (empty_reply HTTP_METHOD_NOT_ALLOWED))
  end.

Lemma asset_router_path wb path out :
  asset_router show_hash wb path = Some out -> path = [] \/ exists name, name <> "" /\ path = ["plugin"; name].
Proof.
  unfold asset_router. destruct path as [|seg [|name [|]]]; try done; [by left|].
  case_bool_decide; [|done]. case_bool_decide; [done|]. subst. right. by exists name.
Qed.

(** The isolation of an editor: an answer that carries a package's bytes
    carries the policy that forbids it to connect, and the other three headers;
    a request that is not a [GET] or a [HEAD] reaches no handler and leaves the
    state as it is; and nothing but the index and the bundles is found. *)
Lemma assets_isolated wb m path :
  let '(wb', a) := asset_request wb m path in
  (forall b, rp_body (an_response a) = RBytes b -> an_headers a = bundle_headers) /\
  (m <> "GET" -> m <> "HEAD" ->
   wb' = wb /\ (rp_status (an_response a) = HTTP_NOT_FOUND \/ rp_status (an_response a) = HTTP_METHOD_NOT_ALLOWED)) /\
  (rp_status (an_response a) <> HTTP_NOT_FOUND -> path = [] \/ exists name, name <> "" /\ path = ["plugin"; name]).
Proof.
  unfold asset_request. destruct (asset_router show_hash wb path) as [[wb' r]|] eqn:E; cbn [an_response answered].
  - pose proof (asset_router_path _ _ _ E) as Hp. destruct (decide (m = "GET" \/ m = "HEAD")) as [Hm|Hm]; cbn.
    + split_and!; [|tauto|done]. unfold answered. case_decide; cbn; [done|]. by intros b ->.
    + split_and!; [by case_decide| |done]. intros _ _. split; [done|]. right. by case_decide.
  - cbn. split_and!; [by case_decide|intros _ _; split; [done|left; by case_decide]|by case_decide].
Qed.
End Assets.

(** The policy of a bundle allows no request back out. *)
Lemma csp_closed :
  let directives := trim <$> split_char ";" CSP in
  "default-src 'none'" ∈ directives /\ "connect-src 'none'" ∈ directives /\ "form-action 'none'" ∈ directives.
Proof. intros l. split_and!; apply (bool_decide_unpack _); vm_compute; exact I. Qed.
