(* ===== verification/OffersProps.v ===== *)
(** What the package, release and migration endpoints promise: the console and
    the daemon pick the same release, a package is installed only when every
    check passes, uninstalling one keeps what the others need. *)

From stdpp Require Import base gmap strings numbers pretty list.
From Stdlib Require Import Strings.Byte Strings.Ascii.
From S2P Require Import Prelude Json Doc Sample Action Model Builtins Entry Store StoreInv Text Cosign Invite.
From S2P Require Import Blob Engine Fs ReadModel Feed Package PackageProps Update Processor Status Config ConfigProps Daemon.
From S2P Require Import DaemonDrives DaemonProps Web Console Offers Server ConsoleProps.

(** ** The release that is picked *)

Section Candidates.
Context `{Platform} `{Uuid} `{!Serde Release} (current_platform current : string).
Implicit Types (s : Inner) (t : TrustStore) (d : Value).

Lemma offer_release t d name :
  row_text d "name" = Some name ->
  (if decide ((v ← row_field d "status"; as_str v) <> Some "withdrawn") then offer_of t d else None) =
  (fun r => (name, r, is_trusted t (rl_publisher_key r))) <$> release_of d.
Proof.
  intros En. unfold release_of, offer_of, readable_release, row_field. rewrite En.
  assert (Ef : forall k, (f ← vget d "fields"; v ← vget f k; as_str v) =
                         (v ← (f ← vget d "fields"; vget f k); as_str v)).
  { intros k. by destruct (vget d "fields"). }
  rewrite !Ef. cbn [mbind option_bind]. case_decide as Hs; case_bool_decide as Hb; try done.
Qed.

Lemma take_better_eligible t best name r :
  snd <$> take_better current_platform current best (name, r, is_trusted t (rl_publisher_key r)) =
  if eligible current_platform current t r then better (snd <$> best) r else snd <$> best.
Proof.
  unfold take_better, eligible, willing. destruct (_ && _); cbn [negb]; [|done].
  destruct best as [[n b]|]; [|done]. cbn. by case_bool_decide.
Qed.

(** The console and the daemon agree: the release one-click update would
    apply, [best_candidate], is the one the daemon's own check would, whatever
    release documents the mesh has delivered and whoever is trusted. *)
Theorem best_candidate_agrees s t :
  snd <$> best_candidate current_platform current s t = best_release current_platform current s t.
Proof.
  unfold best_candidate, best_release, offers.
  assert (Hn : forall d, d ∈ query_docs s "release" None -> is_Some (row_text d "name")).
  { intros d (id & e & _ & _ & ->)%query_docs_row. rewrite row_name_text. by eexists. }
  change (@None Release) with (snd <$> @None (string * Release)).
  generalize (@None (string * Release)) as best.
  induction (query_docs s "release" None) as [|d l IH]; intros best; [done|].
  assert (Hl : forall x, x ∈ l -> is_Some (row_text x "name")) by (intros; apply Hn; by right).
  destruct (Hn d ltac:(left)) as [name En]. pose proof (offer_release t d name En) as Eo.
  rewrite filter_cons. cbn [omap list_omap].
  destruct (decide (_ <> Some "withdrawn")); cbn [omap list_omap].
  - rewrite Eo. destruct (release_of d) as [r|]; cbn [fmap option_fmap option_map foldl]; [|by apply IH].
    rewrite filter_cons. rewrite IH, take_better_eligible by done.
    destruct (eligible _ _ t r) eqn:Ee; [rewrite decide_True by done|rewrite decide_False by congruence]; done.
  - destruct (release_of d); [done|]. by apply IH.
Qed.
End Candidates.

(** ** Installing and uninstalling from the console *)

Section Install.
Context `{Platform, Net} `{!NetText} `{JsonText} `{Base64} `{!Serde Action} `{!Serde InviteToken}
  `{!Serde (list string)} `{Uuid} `{!Serde (list Value)} `{TextOps} `{!Serde Installed}.
Context `{!Serde Manifest} `{TrustStoreSerde : !Serde TrustStore}.
Implicit Types (wb : Web).

Definition file_at wb (p : Path) : option (list byte) := fs_files (x_fs (wb_ctx wb)) !! p.

Lemma with_fs_leaves {E A} wb (m : fsE E A) q : leaves m q -> file_at (with_fs wb m).1 q = file_at wb q.
Proof. intros Hl. apply Hl. Qed.

Lemma trust_load_leaves p q : leaves (trust_load p) q.
Proof. unfold trust_load. eauto with reactor. Qed.
Lemma trust_save_leaves t p q : q <> p -> leaves (trust_save t p) q.
Proof. unfold trust_save, fs_create_dir_all. eauto with reactor. Qed.

Lemma load_trust_spec wb :
  exists fs, (load_trust wb).1 = put_ctx wb (put_fs (wb_ctx wb) fs) /\
    forall q, fs_files fs !! q = file_at wb q.
Proof.
  unfold load_trust. pose proof (fun q => with_fs_leaves wb _ q (trust_load_leaves (publishers_file (wb_paths wb)) q)) as E.
  unfold with_fs in *. eexists. split; [reflexivity|]. exact E.
Qed.

Lemma files_apart sp : packages_file sp <> publishers_file sp.
Proof. unfold packages_file, publishers_file, join. by intros [_ [=]]%app_inj_2. Qed.

(** Settling the trust question moves nothing else, and ends with the key
    trusted: it was, or the operator said so. *)
Lemma settle_trust_spec now wb m b :
  let '(wb', r) := settle_trust now wb m b in
  wb_store wb' = wb_store wb /\ wb_blobs wb' = wb_blobs wb /\ wb_paths wb' = wb_paths wb /\
  file_at wb' (packages_file (wb_paths wb)) = file_at wb (packages_file (wb_paths wb)) /\
  match r with
  | inl t => is_trusted (load_trust wb).2 (mf_publisher_key m) = true \/ b = true
  | inr answer => rp_status answer <> HTTP_OK
  end.
Proof.
  unfold settle_trust. destruct (load_trust_spec wb) as (fs & E & Hf).
  destruct (load_trust wb) as [wb' t]. cbn [fst snd] in *. subst wb'.
  destruct (is_trusted t _) eqn:Et; [split_and!; try done; [apply Hf|by left]|].
  destruct b; cbn [negb]; [|split_and!; try done; apply Hf].
  match goal with |- context [with_fs ?w ?x] =>
    pose proof (with_fs_leaves w x (packages_file (wb_paths wb))) as Hl;
    pose proof (surjective_pairing (with_fs w x)) as Ew end.
  rewrite Ew. assert (Hq := Hl (trust_save_leaves _ _ _ (files_apart _))).
  match type of Hq with file_at ?w _ = _ => set (wb2 := w) in * end.
  destruct (with_fs _ _).2; cbn [fst snd].
  - split_and!; try done; [by rewrite Hq; apply Hf|by right].
  - split_and!; try done. by rewrite Hq; apply Hf.
Qed.

Lemma run_install_checked now wb m t :
  is_ok (check m t (wb_blobs wb)) = false ->
  wb_store (run_install now wb m t).1 = wb_store wb /\
  (forall q, file_at (run_install now wb m t).1 q = file_at wb q) /\
  rp_status (run_install now wb m t).2 <> HTTP_OK.
Proof.
  unfold run_install, install. destruct (check m t _) as [|e]; [done|]. intros _.
  split_and!; [done|done|]. by destruct e.
Qed.


(** The packages the node's file records, and the bundles it must keep. *)
Definition packages_of wb : Installed := packages_in (x_fs (wb_ctx wb)) (packages_file (wb_paths wb)).
Definition offered_bundles wb : list BlobRef :=
  omap (fun d => m ← manifest_of d; mf_bundle m) (query_docs (wb_store wb) "package" None).

Lemma load_installed_calm wb :
  calm_fs (x_fs (wb_ctx wb)) -> load_installed wb = (put_ctx wb (put_fs (wb_ctx wb) (x_fs (wb_ctx wb))), packages_of wb).
Proof.
  intros Hc. unfold load_installed, with_fs. by rewrite installed_load_calm.
Qed.

Lemma filter_same {A} (P : A -> Prop) `{forall x, Decision (P x)} l :
  length (filter P l) = length l -> filter P l = l.
Proof.
  induction l as [|x l IH]; [done|]. rewrite filter_cons. pose proof (length_filter P l).
  case_decide; simpl; [intros [= E]; by rewrite IH|lia].
Qed.

Lemma gc_lookup (blobs : BlobStore) keep h :
  (gc blobs keep).1 !! h = if decide (h ∈ keep ≫= br_chunks) then blobs !! h else None.
Proof.
  unfold gc. cbn [fst]. rewrite map_lookup_filter. destruct (blobs !! h); simpl; [|by case_decide].
  repeat case_guard; repeat case_decide; try done; set_solver.
Qed.

(** Uninstalling a package removes it and nothing else that is needed: on a
    disk that works the file then records the other packages, every chunk of a
    bundle that is still installed or that a package document of the mesh
    offers is kept, every other chunk is gone, and the models stay registered;
    a package that is not installed is refused with no change. *)
Theorem uninstall_exact wb name :
  calm_fs (x_fs (wb_ctx wb)) ->
  (let l := filter (fun p => pkg_name p <> name) (packages_of wb) in from_json (to_json l) = Ok l) ->
  let '(wb', r) := uninstall wb name in
  wb_store wb' = wb_store wb /\
  packages_of wb' = filter (fun p => pkg_name p <> name) (packages_of wb) /\
  (if decide (name ∈ pkg_name <$> packages_of wb)
   then rp_status r = HTTP_OK /\
        forall h, wb_blobs wb' !! h =
          if decide (h ∈ (live_blobs (packages_of wb') ++ offered_bundles wb) ≫= br_chunks)
          then wb_blobs wb !! h else None
   else rp_status r = HTTP_NOT_FOUND /\ wb_blobs wb' = wb_blobs wb).
Proof.
  intros Hc Hj. cbn zeta in Hj. unfold uninstall. rewrite load_installed_calm by done. unfold installed_remove.
  set (l := packages_of wb). set (l' := filter _ l).
  assert (Hin : name ∈ pkg_name <$> l <-> length l' <> length l).
  { unfold l'. clear. induction l as [|p l IH]; [set_solver|]. rewrite fmap_cons, filter_cons, elem_of_cons.
    pose proof (length_filter (fun p => pkg_name p <> name) l). case_decide as Hp; simpl; [|naive_solver lia].
    rewrite IH. naive_solver lia. }
  destruct (Nat.eqb_spec (length l') (length l)) as [El|El]; cbn [negb].
  - rewrite decide_False by tauto. split_and!; try done. unfold packages_of at 1. cbn.
    fold (packages_of wb). fold l. symmetry. by apply filter_same.
  - destruct (decide (name ∈ _)) as [_|Hn]; [|tauto]. unfold with_fs, installed_save. cbn [put_ctx wb_ctx put_fs x_fs].
    rewrite save_calm by done. cbn [fst snd]. unfold blobs_to_keep. rewrite load_installed_calm by done.
    set (wb1 := put_ctx _ _).
    assert (Ep : packages_of wb1 = l').
    { unfold packages_of, packages_in. cbn. rewrite lookup_insert_eq. unfold l', l. by rewrite Hj. }
    cbn zeta.
    match goal with |- context [gc ?b ?k] => destruct (gc b k) as [blobs n] eqn:E end.
    split_and!; [done|exact Ep|done|]. intros h. change (wb_blobs (put_blobs _ blobs)) with blobs.
    assert (Eb : blobs = (gc (wb_blobs wb) (live_blobs (packages_of wb1) ++ offered_bundles wb)).1).
    { symmetry. exact (f_equal fst E). }
    rewrite Eb. apply gc_lookup.
Qed.
End Install.

(** ** A sample node *)

Import ConfigSample DaemonSample.

(** The manifest every package document carries, and a file of packages: empty,
    or the two installed ones. *)
#[local] Instance one_manifest : Serde Manifest :=
  {| to_json := fun _ => []; from_json := fun _ => Ok vault_manifest |}.
#[local] Instance nobody_trusted : Serde TrustStore :=
  {| to_json := fun _ => []; from_json := fun _ => Err "" |}.
Definition editor : list byte := [x01; x02; x03].
Definition with_bundle (m : Manifest) (name : string) (b : option BlobRef) : Manifest :=
  {| mf_name := name; mf_version := mf_version m; mf_description := mf_description m;
     mf_category := mf_category m; mf_publisher := mf_publisher m;
     mf_publisher_key := mf_publisher_key m; mf_document_models := mf_document_models m;
     mf_processors := mf_processors m; mf_bundle := b; mf_capabilities := mf_capabilities m;
     mf_projections := mf_projections m; mf_attention := mf_attention m; mf_ui := mf_ui m;
     mf_sig := mf_sig m |}.
Definition pkg_with (name : string) (b : option BlobRef) : InstalledPackage :=
  {| ip_manifest := with_bundle vault_manifest name b; ip_installed_at := "now" |}.
Definition chart : InstalledPackage := pkg_with "chart" (Some (blobref_of editor)).
Definition plain : InstalledPackage := pkg_with "plain" None.
#[local] Instance two_lists : Serde Installed := {|
  to_json := fun l => match l with [_] => [x01] | _ => [x00] end;
  from_json := fun b => match b with [x01] => Ok [chart] | _ => Ok [chart; plain] end
|}.

Definition shop_store : Inner :=
  (create_doc_model 3 501%N "pkg-vault-1.0.0" (modelref_new "package" "1")
     (json_obj [("name", Str "pkg-vault-1.0.0"); ("publisher_key", Str "k"); ("publisher_name", Str "Acme");
                ("package_name", Str "vault"); ("package_version", Str "1.0.0"); ("description", Str "");
                ("manifest", Str "signed")]) home_store).1.
Definition shop_web (sched : list Outcome) : Web := {|
  wb_ctx := put_fs (put_store home shop_store)
              {| fs_files := {[ packages_file (for_root state) := [x00] ]}; fs_sched := sched |};
  wb_snap := snapshot_empty 0 "1" "" ""; wb_blobs := (put sample_show ∅ editor).1; wb_specs := [];
  wb_fires := ∅; wb_runner := []; wb_update_auto := false; wb_sent := [] |}.


Lemma uninstall_exact_witness :
  rp_status (uninstall (shop_web []) "plain").2 = HTTP_OK /\
  packages_of (uninstall (shop_web []) "plain").1 = [chart] /\
  missing (wb_blobs (uninstall (shop_web []) "plain").1) (blobref_of editor) = [].
Proof.
  assert (Hu := uninstall_exact (shop_web []) "plain" eq_refl).
  specialize (Hu ltac:(vm_compute; reflexivity)).
  split_and!; [vm_compute; reflexivity| |vm_compute; reflexivity].
  destruct (uninstall _ _) as [wb' r]. destruct Hu as (_ & E & _). cbn [fst]. rewrite E. vm_compute. reflexivity.
Defined.

(** The collection trusts a read that may fail: when the file of installed
    packages cannot be read back, it counts as empty and the bundle of a package
    that is still installed is collected, and the request succeeds. *)
Theorem uninstall_collects_live :
  let out := uninstall (shop_web [Done; Done; Done; Refused]) "plain" in
  rp_status out.2 = HTTP_OK /\ packages_of out.1 = [chart] /\
  missing (wb_blobs (shop_web [])) (blobref_of editor) = [] /\
  length (missing (wb_blobs out.1) (blobref_of editor)) = 1.
Proof. split_and!; vm_compute; reflexivity. Qed.

(** A group this node is not a member of. *)
Definition team_store : Inner :=
  (create_doc_model 3 501%N "team" (modelref_new "group" "1")
     (json_obj [("name", Str "team"); ("members", json_strs ["12D3alice"]);
                ("managers", json_strs ["12D3alice"])]) home_store).1.
Definition team_web : Web :=
  put_ctx (shop_web []) (put_store (wb_ctx (shop_web [])) team_store).

(** A migration that fails after its first step is not taken up again: the
    group is retired and its space created, but the chat is refused, since only
    members may create documents in it; running the migration again finds no
    group and reports nothing to do. *)
Theorem migration_stops_halfway :
  let now i j : N := N.of_nat (10 + j) in
  let fresh i j : DocId := N.of_nat (700 + j) in
  let run wb := migrate_groups now fresh wb true None in
  length (query_docs team_store "group" None) = 1 /\
  rp_body (run team_web).2 =
    RJson (json_obj [("dryRun", Bool false);
      ("results", Array [json_obj [("group", Str "team"); ("ok", Bool false);
         ("error", Str "could not create chat 'team-general': actor 12D3me is not in this space's members")]])]) /\
  query_docs (wb_store (run team_web).1) "group" None = [] /\
  query_docs (wb_store (run team_web).1) "chat" None = [] /\
  rp_body (run (run team_web).1).2 = RJson (json_obj [("dryRun", Bool false); ("results", Array [])]).
Proof. cbn zeta. split_and!; vm_compute; reflexivity. Qed.

(** ** The server at work *)

#[local] Instance no_release : Serde Release := {| to_json := fun _ => []; from_json := fun _ => Err "" |}.
Definition calm_env : Link * World := (Late, calm_world).


Lemma command_line_reaches_daemon_witness :
  (api_target one_drive (OpPause "my vault?")).1.2
    = "http://127.0.0.1:" +:+ pretty (st_port (c_settings one_drive)) +:+ "/api/drives/my%20vault%3F/pause" /\
  serve_drive (shop_web []) (OpPause "my vault?")
    = (tell (shop_web []) (CmdPauseDrive "my vault?"), empty_reply HTTP_ACCEPTED).
Proof.
  pose proof (command_line_reaches_daemon one_drive (shop_web []) (OpPause "my vault?")
    (conj eq_refl I)) as (_ & _ & E).
  split; [vm_compute; reflexivity|exact E].
Defined.
