(* ===== verification/Tray.v ===== *)
(** The tray (src/tray/menu.rs, src/tray/dbusmenu.rs, src/tray/mod.rs): the menu
    built from a status snapshot, what a host is told of it, and what a click
    does.  The session bus is not modelled: a method of the two objects is a
    function on the tray's state, the commands it sends and the addresses it
    opens are appended to lists. *)

From stdpp Require Import base gmap strings numbers pretty sorting list.
From Stdlib Require Import Strings.Byte Strings.Ascii.
From S2P Require Import Prelude Json Doc Action Model Store Text Cosign Invite Blob Engine.
From S2P Require Import Fs ReadModel Package Update Status Config Daemon.

(** ** The menu (src/tray/menu.rs) *)

(** [menu::Action]. *)
Inductive TrayAction :=
  | TogglePause (name : string) (to_paused : bool)
  | RemoveDriveItem (name : string)
  | OpenConsole
  | QuitItem.

#[export] Instance TrayAction_eq_dec : EqDecision TrayAction.
Proof. solve_decision. Defined.

(** [MenuItem]; the kind is a separator or not. *)
Inductive MenuItem :=
  | Item (id : N) (sep : bool) (label : string) (enabled visible : bool) (icon : option string)
      (action : option TrayAction) (children : list MenuItem).
Definition mi_id (i : MenuItem) : N := let 'Item id _ _ _ _ _ _ _ := i in id.
Definition mi_sep (i : MenuItem) : bool := let 'Item _ s _ _ _ _ _ _ := i in s.
Definition mi_label (i : MenuItem) : string := let 'Item _ _ l _ _ _ _ _ := i in l.
Definition mi_enabled (i : MenuItem) : bool := let 'Item _ _ _ e _ _ _ _ := i in e.
Definition mi_visible (i : MenuItem) : bool := let 'Item _ _ _ _ v _ _ _ := i in v.
Definition mi_icon (i : MenuItem) : option string := let 'Item _ _ _ _ _ c _ _ := i in c.
Definition mi_action (i : MenuItem) : option TrayAction := let 'Item _ _ _ _ _ _ a _ := i in a.
Definition mi_children (i : MenuItem) : list MenuItem := let 'Item _ _ _ _ _ _ _ c := i in c.

(** An action item, a header, a separator, and a header with a submenu. *)
Definition menu_text (id : N) (label : string) (icon : option string) (action : option TrayAction) :
    MenuItem := Item id false label true true icon action [].
Definition menu_header (id : N) (label : string) (icon : option string) (children : list MenuItem) :
    MenuItem := Item id false label false true icon None children.
Definition menu_separator (id : N) : MenuItem := Item id true "" false true None None [].

(** [short_peer]; a peer id is ASCII. *)
Definition short_peer (peer : string) : string :=
  if slen peer <=? 20 then peer
  else String.substring 0 12 peer +:+ "…" +:+ String.substring (slen peer - 6) 6 peer.
(** [state_line]. *)
Definition state_line (snap : StatusSnapshot) : string :=
  let has st := existsb (fun d => bool_decide (ds_status d = st)) (sn_drives snap) in
  if negb (rs_running (sn_reactor snap)) then "stopped" else
  if negb (rs_healthy (sn_reactor snap)) then "starting…" else
  if bool_decide (sn_drives snap = []) then "no drives" else
  if forallb ds_paused (sn_drives snap) then "paused" else
  if has "connecting" then "connecting…" else
  if has "synced" then "synced" else "offline".
(** [plural], [group_line], [drive_icon]. *)
Definition plural (n : nat) (one many : string) : string :=
  pretty n +:+ " " +:+ (if n =? 1 then one else many).
Definition group_line (g : GroupSummary) : string :=
  plural (gs_members g) "member" "members" +:+ ", " +:+ plural (gs_messages g) "message" "messages".
Definition drive_icon (status : string) : string :=
  if decide (status = "synced") then "network-transmit-receive" else
  if decide (status = "connecting") then "network-transmit" else
  if decide (status = "paused") then "media-playback-pause" else
  if decide (status = "offline") then "network-offline" else "dialog-error".

(** The items of the groups and of the drives; [n] is the last id given out. *)
Fixpoint group_items (n : N) (l : list GroupSummary) : list MenuItem :=
  match l with
  | [] => []
  | g :: l => menu_header (n + 1) (gs_name g +:+ " — " +:+ group_line g) (Some "system-users") []
              :: group_items (n + 1) l
  end.
Definition drive_item_menu (n : N) (d : DriveStatusEntry) : MenuItem :=
  menu_header (n + 1) (ds_name d +:+ " — " +:+ ds_status d) (Some (drive_icon (ds_status d)))
    [menu_text (n + 2) (if ds_paused d then "Resume" else "Pause") None
       (Some (TogglePause (ds_name d) (negb (ds_paused d))));
     menu_text (n + 3) "Remove" None (Some (RemoveDriveItem (ds_name d)))].
Fixpoint drive_items (n : N) (l : list DriveStatusEntry) : list MenuItem :=
  match l with
  | [] => []
  | d :: l => drive_item_menu n d :: drive_items (n + 3) l
  end.

(** [build_menu]: the counter of [Ids] goes through the sections. *)
Definition build_menu (snap : StatusSnapshot) : MenuItem :=
  let top := menu_header 1 ("ph-reactor " +:+ sn_version snap +:+ " — " +:+ state_line snap) None [] in
  let '(peer, n) := match rs_peer_id (sn_reactor snap) with
                    | Some p => ([menu_header 2 (short_peer p) None []], 2%N)
                    | None => ([], 1%N)
                    end in
  let console := menu_text (n + 2) "Open console…" (Some "applications-internet") (Some OpenConsole) in
  let head := [top] ++ peer ++ [menu_separator (n + 1); console; menu_separator (n + 3)] in
  let n := (n + 3)%N in
  let '(teams, n) :=
    match sn_groups snap with
    | [] => ([], n)
    | l => ([menu_header (n + 1) "Teams" None (group_items (n + 1) l)],
            (n + 1 + N.of_nat (length l))%N)
    end in
  let drives_id := (n + 1)%N in
  let n := (n + 1 + 3 * N.of_nat (length (sn_drives snap)))%N in
  let '(drives, n) :=
    match sn_drives snap with
    | [] => ([], n)
    | l => ([menu_header drives_id "Drives" None (drive_items drives_id l); menu_separator (n + 1)],
            (n + 1)%N)
    end in
  let quit := menu_text (n + 1) "Quit ph-reactor" (Some "application-exit") (Some QuitItem) in
  Item 0 false "ph-reactor" true true None None (head ++ teams ++ drives ++ [quit]).

(** ** What a host is told (src/tray/dbusmenu.rs) *)

(** [x as i32] of a [u32], and [x as u32] of an [i32]. *)
Definition as_i32 (n : N) : Z :=
  let z := (Z.of_N n mod 2 ^ 32)%Z in if (z <? 2 ^ 31)%Z then z else (z - 2 ^ 32)%Z.
Definition as_u32 (z : Z) : N := Z.to_N (z mod 2 ^ 32).

(** [find]. *)
Fixpoint find_item (root : MenuItem) (id : Z) : option MenuItem :=
  if decide (as_i32 (mi_id root) = id) then Some root else
  let 'Item _ _ _ _ _ _ _ children := root in
  (fix go (l : list MenuItem) : option MenuItem :=
     match l with
     | [] => None
     | c :: l => match find_item c id with Some i => Some i | None => go l end
     end) children.

(** [LayoutItem]. *)
Inductive LayoutItem := Layout (id : Z) (props : gmap string Value) (children : list LayoutItem).

(** [props_of]. *)
Definition prop_if (b : bool) (k : string) (v : Value) (m : gmap string Value) : gmap string Value :=
  if b then <[k := v]> m else m.
Definition props_of (i : MenuItem) (filter_ : list string) : gmap string Value :=
  let want k := bool_decide (filter_ = []) || contains filter_ k in
  if mi_sep i then prop_if (want "type") "type" (Str "separator") ∅ else
  let m := prop_if (want "label") "label" (Str (mi_label i)) ∅ in
  let m := prop_if (negb (mi_enabled i) && want "enabled") "enabled" (Bool false) m in
  let m := prop_if (negb (mi_visible i) && want "visible") "visible" (Bool false) m in
  let m := match mi_icon i with
           | Some icon => prop_if (want "icon-name") "icon-name" (Str icon) m
           | None => m
           end in
  prop_if (negb (bool_decide (length (mi_children i) = 0)) && want "children-display")
    "children-display" (Str "submenu") m.

(** [build], [layout]. *)
Fixpoint build_layout (i : MenuItem) (depth : Z) (filter_ : list string) : LayoutItem :=
  let 'Item id _ _ _ _ _ _ children := i in
  let next := if decide (depth = -1)%Z then (-1)%Z else (depth - 1)%Z in
  Layout (as_i32 id) (props_of i filter_)
    (if decide (depth = 0)%Z then []
     else (fix go (l : list MenuItem) : list LayoutItem :=
             match l with
             | [] => []
             | c :: l => if mi_visible c then build_layout c next filter_ :: go l else go l
             end) children).
Definition layout (root : MenuItem) (parent_id depth : Z) (filter_ : list string) : option LayoutItem :=
  (fun i => build_layout i depth filter_) <$> find_item root parent_id.
(** [group_properties]. *)
Definition group_properties (root : MenuItem) (ids : list Z) (filter_ : list string) :
    list (Z * gmap string Value) :=
  omap (fun id => (fun i => (id, props_of i filter_)) <$> find_item root id) ids.
(** [menu::action_for_id]. *)
Definition action_for_id (root : MenuItem) (id : N) : option TrayAction :=
  i ← find_item root (as_i32 id); if mi_enabled i then mi_action i else None.

(** ** The tray (src/tray/mod.rs) *)

(** [TrayState]; [ts_sent] and [ts_opened] are the commands sent and the
    addresses opened. *)
Record TrayState := {
  ts_snapshot : StatusSnapshot;
  ts_menu : MenuItem;
  ts_sent : list Command;
  ts_opened : list string;
  ts_revision : N;
  ts_icon_theme_path : string
}.
Definition tray_start (snap : StatusSnapshot) (icons : string) : TrayState :=
  {| ts_snapshot := snap; ts_menu := build_menu snap; ts_sent := []; ts_opened := [];
     ts_revision := 1; ts_icon_theme_path := icons |}.
(** [TrayState::rebuild]. *)
Definition rebuild (st : TrayState) : TrayState :=
  {| ts_snapshot := ts_snapshot st; ts_menu := build_menu (ts_snapshot st); ts_sent := ts_sent st;
     ts_opened := ts_opened st; ts_revision := ((ts_revision st + 1) mod 2 ^ 32)%N;
     ts_icon_theme_path := ts_icon_theme_path st |}.
(** [about_to_show]: whether the menu a host has drawn is out of date. *)
Fixpoint menu_eqb (a b : MenuItem) : bool :=
  let 'Item i s l e v c x ch := a in
  let 'Item i' s' l' e' v' c' x' ch' := b in
  bool_decide ((i, s, l, e, v, c, x) = (i', s', l', e', v', c', x')) &&
  (fix go (l l' : list MenuItem) : bool :=
     match l, l' with
     | [], [] => true
     | x :: l, y :: l' => menu_eqb x y && go l l'
     | _, _ => false
     end) ch ch'.
Definition about_to_show (st : TrayState) : TrayState * bool :=
  (rebuild st, negb (menu_eqb (build_menu (ts_snapshot st)) (ts_menu st))).
(** A new snapshot arrives ([run]). *)
Definition on_snapshot (st : TrayState) (snap : StatusSnapshot) : TrayState :=
  rebuild {| ts_snapshot := snap; ts_menu := ts_menu st; ts_sent := ts_sent st;
             ts_opened := ts_opened st; ts_revision := ts_revision st;
             ts_icon_theme_path := ts_icon_theme_path st |}.
Definition tray_send (st : TrayState) (cmd : Command) : TrayState :=
  {| ts_snapshot := ts_snapshot st; ts_menu := ts_menu st; ts_sent := ts_sent st ++ [cmd];
     ts_opened := ts_opened st; ts_revision := ts_revision st;
     ts_icon_theme_path := ts_icon_theme_path st |}.
(** [open_console]. *)
Definition open_console (st : TrayState) : TrayState :=
  let url := ss_url (sn_settings (ts_snapshot st)) in
  if bool_decide (url = "") then st else
  {| ts_snapshot := ts_snapshot st; ts_menu := ts_menu st; ts_sent := ts_sent st;
     ts_opened := ts_opened st ++ [url]; ts_revision := ts_revision st;
     ts_icon_theme_path := ts_icon_theme_path st |}.
(** [dispatch_action]. *)
Definition dispatch_action (st : TrayState) (a : TrayAction) : TrayState :=
  match a with
  | TogglePause name true => tray_send st (CmdPauseDrive name)
  | TogglePause name false => tray_send st (CmdResumeDrive name)
  | RemoveDriveItem name => tray_send st (CmdRemoveDrive name)
  | OpenConsole => open_console st
  | QuitItem => tray_send st CmdQuit
  end.
(** [DbusMenu::event]. *)
Definition menu_event (st : TrayState) (id : Z) (event_id : string) : TrayState :=
  if negb (bool_decide (event_id = "clicked")) then st else
  match action_for_id (ts_menu st) (as_u32 id) with
  | Some a => dispatch_action st a
  | None => st
  end.
(** [get_layout], [get_group_properties], [get_property]. *)
Definition no_item (id : Z) : string := "no menu item with id " +:+ pretty id.
Definition get_layout (st : TrayState) (parent_id depth : Z) (names : list string) :
    result string (N * LayoutItem) :=
  match layout (ts_menu st) parent_id depth names with
  | Some i => Ok (ts_revision st, i)
  | None => Err (no_item parent_id)
  end.
Definition get_property (st : TrayState) (id : Z) (name : string) : result string Value :=
  match find_item (ts_menu st) id with
  | None => Err (no_item id)
  | Some i => ok_or (props_of i [name] !! name) ("item " +:+ pretty id +:+ " has no " +:+ name)
  end.
(** [sni_status], [overlay_icon_name]. *)
Definition sni_status (snap : StatusSnapshot) : string :=
  if rs_running (sn_reactor snap) && rs_healthy (sn_reactor snap) then "Active" else "NeedsAttention".
Definition overlay_icon_name (st : TrayState) : string :=
  let d := sn_drives (ts_snapshot st) in
  if bool_decide (d = []) then "" else
  if forallb ds_paused d then "media-playback-pause" else
  if existsb (fun x => bool_decide (ds_status x = "connecting")) d then "emblem-synchronizing" else "".
(** [tool_tip]: the title and the lines. *)
Definition tool_tip (st : TrayState) : string * string :=
  let snap := ts_snapshot st in
  let r := sn_reactor snap in
  let lines :=
    ["ph-reactor " +:+ sn_version snap]
    ++ match rs_peer_id r with Some p => [p] | None => [] end
    ++ [pretty (rs_docs r) +:+ " document" +:+ (if (rs_docs r =? 1)%N then "" else "s")]
    ++ ((fun d => ds_name d +:+ " — " +:+ ds_status d) <$> sn_drives snap)
    ++ ((fun g => "team " +:+ gs_name g +:+ " — " +:+ pretty (gs_members g) +:+ " members") <$> sn_groups snap) in
  ("ph-reactor — " +:+ state_line snap, String.concat newline lines).

(** ** The items of a menu *)

Fixpoint all_items (i : MenuItem) : list MenuItem :=
  i :: let 'Item _ _ _ _ _ _ _ ch := i in List.flat_map all_items ch.

Lemma menu_ind (P : MenuItem -> Prop) :
  (forall id s l e v c a ch, Forall P ch -> P (Item id s l e v c a ch)) -> forall i, P i.
Proof.
  intros Hi. fix IH 1. intros [id s l e v c a ch]. apply Hi.
  induction ch as [|x ch IHch]; constructor; [apply IH|exact IHch].
Qed.

Lemma find_item_first root id :
  find_item root id = head (filter (fun i => as_i32 (mi_id i) = id) (all_items root)).
Proof.
  induction root as [n s l e v c a ch Hch] using menu_ind. cbn [find_item all_items mi_id].
  rewrite filter_cons. cbn [mi_id]. case_decide; [done|].
  induction Hch as [|x ch Hx _ IH]; [done|]. cbn [List.flat_map]. rewrite Hx, filter_app.
  by destruct (filter _ (all_items x)).
Qed.

(** Where the ids are distinct an id finds its item, and only that. *)
Lemma find_item_iff root id i :
  NoDup ((fun x => as_i32 (mi_id x)) <$> all_items root) ->
  find_item root id = Some i <-> i ∈ all_items root /\ as_i32 (mi_id i) = id.
Proof.
  intros Hn. rewrite find_item_first. split.
  - intros Hh%head_Some_elem_of. apply list_elem_of_filter in Hh. tauto.
  - intros [Hi <-]. induction (all_items root) as [|x l IH]; [by apply not_elem_of_nil in Hi|].
    rewrite fmap_cons in Hn. apply NoDup_cons in Hn as [Hx Hn]. rewrite filter_cons.
    apply elem_of_cons in Hi as [->|Hi]; [by rewrite decide_True|].
    rewrite decide_False; [by apply IH|]. intros E. apply Hx. apply list_elem_of_fmap. by exists i.
Qed.

(** Ids in ascending order, between two bounds. *)
Definition climbs (n m : N) (l : list N) : Prop :=
  StronglySorted N.lt l /\ Forall (fun x => n < x <= m)%N l /\ (n <= m)%N.

Lemma climbs_nil n m : (n <= m)%N -> climbs n m [].
Proof. intros. split_and!; [constructor|constructor|done]. Qed.
Lemma climbs_app n m k l1 l2 : climbs n m l1 -> climbs m k l2 -> climbs n k (l1 ++ l2).
Proof.
  intros (S1 & F1 & L1) (S2 & F2 & L2). split_and!; [| |lia].
  - induction S1 as [|x l S1 IH Hx]; [done|]. apply Forall_cons in F1 as [Hb F1]. cbn. constructor; [by apply IH|].
    apply Forall_app. split; [done|]. eapply Forall_impl; [exact F2|]. cbn. lia.
  - apply Forall_app. split; (eapply Forall_impl; [eassumption|]); cbn; lia.
Qed.
Lemma climbs_one n m x : (n < x <= m)%N -> climbs n m [x].
Proof. intros. split_and!; [by repeat constructor|by constructor|lia]. Qed.
Lemma climbs_cons n m x l : (n < x)%N -> climbs x m l -> climbs n m (x :: l).
Proof.
  intros Hx Hl. change (x :: l) with ([x] ++ l). eapply climbs_app; [|exact Hl]. apply climbs_one. lia.
Qed.

Definition ids_of (l : list MenuItem) : list N := mi_id <$> List.flat_map all_items l.
Lemma ids_of_app a b : ids_of (a ++ b) = ids_of a ++ ids_of b.
Proof. unfold ids_of. by rewrite flat_map_app, fmap_app. Qed.
Lemma ids_of_one i : ids_of [i] = mi_id i :: ids_of (mi_children i).
Proof. destruct i. unfold ids_of. cbn. by rewrite app_nil_r. Qed.

Lemma group_items_climb n l : climbs n (n + N.of_nat (length l)) (ids_of (group_items n l)).
Proof.
  revert n. induction l as [|g l IH]; intros n; [apply climbs_nil; cbn; lia|]. cbn [group_items].
  change (ids_of (?x :: ?y)) with (mi_id x :: ids_of y). apply climbs_cons; [cbn; lia|]. cbn [mi_id menu_header].
  replace (n + N.of_nat (length (g :: l)))%N with (n + 1 + N.of_nat (length l))%N by (cbn [length]; lia). apply IH.
Qed.

Lemma drive_items_climb n l : climbs n (n + 3 * N.of_nat (length l)) (ids_of (drive_items n l)).
Proof.
  revert n. induction l as [|d l IH]; intros n; [apply climbs_nil; cbn; lia|]. cbn [drive_items].
  change (ids_of (?x :: ?y)) with ([n + 1; n + 2; n + 3]%N ++ ids_of (drive_items (n + 3) l)).
  eapply climbs_app.
  - apply climbs_cons; [lia|]. apply climbs_cons; [lia|]. apply (climbs_one _ (n + 3)%N). lia.
  - replace (n + 3 * N.of_nat (length (d :: l)))%N with (n + 3 + 3 * N.of_nat (length l))%N by (cbn [length]; lia).
    apply IH.
Qed.

(** An upper bound of the ids of a snapshot's menu. *)
Definition menu_size (snap : StatusSnapshot) : N :=
  9 + N.of_nat (length (sn_groups snap)) + 3 * N.of_nat (length (sn_drives snap)).

Lemma climbs_weaken n n' m m' l : (n' <= n)%N -> (m <= m')%N -> climbs n m l -> climbs n' m' l.
Proof. intros Hn Hm (S & F & L). split_and!; [done| |lia]. eapply Forall_impl; [exact F|]. cbn. lia. Qed.

Lemma build_menu_ids snap :
  exists l, mi_id <$> all_items (build_menu snap) = 0%N :: l /\ climbs 0 (menu_size snap) l.
Proof.
  unfold build_menu. set (peer := match rs_peer_id _ with Some _ => _ | None => _ end).
  assert (Hp : (peer.2 = 1 \/ peer.2 = 2)%N /\ climbs 1 peer.2 (ids_of peer.1)).
  { unfold peer. destruct (rs_peer_id _); cbn; [|split; [by left|by apply climbs_nil]].
    split; [by right|]. by apply climbs_one. }
  destruct peer as [peer n]. cbn [fst snd] in Hp. destruct Hp as [Hn Hp].
  set (teams := match sn_groups snap with [] => _ | _ => _ end).
  assert (Ht : (n + 3 <= teams.2 <= n + 4 + N.of_nat (length (sn_groups snap)))%N /\
               climbs (n + 3) teams.2 (ids_of teams.1)).
  { unfold teams. destruct (sn_groups snap) as [|g l]; cbn [fst snd]; [split; [lia|apply climbs_nil; lia]|].
    split; [lia|]. rewrite ids_of_one. apply climbs_cons; [cbn; lia|]. cbn [mi_id mi_children menu_header].
    apply group_items_climb. }
  destruct teams as [teams m]. cbn [fst snd] in Ht. destruct Ht as [Hm Ht].
  set (k := (m + 1 + 3 * N.of_nat (length (sn_drives snap)))%N).
  set (drives := match sn_drives snap with [] => _ | _ => _ end).
  assert (Hd : (k <= drives.2 <= k + 1)%N /\ climbs m drives.2 (ids_of drives.1)).
  { unfold drives. subst k. destruct (sn_drives snap) as [|d l]; cbn [fst snd]; [split; [lia|apply climbs_nil; lia]|].
    split; [lia|]. match goal with |- climbs _ _ (ids_of [?a; ?b]) => change [a; b] with ([a] ++ [b]) end.
    rewrite ids_of_app, !ids_of_one. apply (climbs_app _ (m + 1 + 3 * N.of_nat (length (d :: l)))%N);
      [|apply climbs_one; cbn [mi_id menu_separator]; lia].
    apply climbs_cons; [cbn; lia|]. cbn [mi_id mi_children menu_header]. apply drive_items_climb. }
  destruct drives as [drives q]. cbn [fst snd] in Hd. destruct Hd as [Hq Hd].
  match goal with |- context [Item 0 _ _ _ _ _ _ ?ch] => exists (ids_of ch) end. split; [reflexivity|].
  rewrite !ids_of_app. unfold menu_size. subst k.
  eapply climbs_weaken; [reflexivity| |eapply climbs_app; [eapply climbs_app; [by apply (climbs_one 0 1)|eapply climbs_app; [exact Hp|]]|eapply climbs_app; [exact Ht|eapply climbs_app; [exact Hd|]]]].
  2: { cbn. apply climbs_cons; [lia|]. apply climbs_cons; [lia|]. apply climbs_one. lia. }
  2: { cbn. apply (climbs_one _ (q + 1)%N). lia. }
  lia.
Qed.

Lemma as_i32_small n : (n < 2 ^ 31)%N -> as_i32 n = Z.of_N n.
Proof. intros Hn. unfold as_i32. rewrite Z.mod_small by lia. by rewrite (proj2 (Z.ltb_lt _ _)) by lia. Qed.
Lemma as_i32_u32 z : (- 2 ^ 31 <= z < 2 ^ 31)%Z -> as_i32 (as_u32 z) = z.
Proof.
  intros Hz. unfold as_i32, as_u32. rewrite Z2N.id by (apply Z.mod_pos_bound; lia). rewrite Z.mod_mod by lia.
  destruct (Z_lt_le_dec z 0).
  - replace (z mod 2 ^ 32)%Z with (z + 2 ^ 32)%Z
      by (rewrite <- (Z.mod_small (z + 2 ^ 32) (2 ^ 32)) by lia; rewrite <- (Z_mod_plus_full z 1 (2 ^ 32)); f_equal; lia).
    rewrite (proj2 (Z.ltb_ge _ _)) by lia. lia.
  - rewrite Z.mod_small by lia. by rewrite (proj2 (Z.ltb_lt _ _)) by lia.
Qed.

Lemma build_menu_distinct snap :
  (menu_size snap < 2 ^ 31)%N -> NoDup ((fun i => as_i32 (mi_id i)) <$> all_items (build_menu snap)).
Proof.
  intros Hs. destruct (build_menu_ids snap) as (l & E & Hl & Hf & _).
  change ((fun i => as_i32 (mi_id i)) <$> all_items (build_menu snap))
    with ((as_i32 ∘ mi_id) <$> all_items (build_menu snap)).
  rewrite list_fmap_compose, E. apply NoDup_fmap_2_strong.
  - intros x y Hx Hy. assert (Hb : forall z, z ∈ 0%N :: l -> (z < 2 ^ 31)%N).
    { intros z [->|Hz]%elem_of_cons; [lia|]. rewrite Forall_forall in Hf. apply Hf in Hz. lia. }
    rewrite !as_i32_small by eauto. lia.
  - apply NoDup_cons. split.
    + intros H0. rewrite Forall_forall in Hf. apply Hf in H0. lia.
    + clear -Hl. induction Hl as [|x l Hl IH Hx]; constructor; [|done].
      intros Hin. rewrite Forall_forall in Hx. apply Hx in Hin. lia.
Qed.

(** What an item does when it is clicked, and what a snapshot's menu has to
    offer, from top to bottom. *)
Definition clickable (i : MenuItem) : option TrayAction := if mi_enabled i then mi_action i else None.
Definition drive_offers (d : DriveStatusEntry) : list TrayAction :=
  [TogglePause (ds_name d) (negb (ds_paused d)); RemoveDriveItem (ds_name d)].
Definition menu_offers (snap : StatusSnapshot) : list TrayAction :=
  [OpenConsole] ++ (sn_drives snap ≫= drive_offers) ++ [QuitItem].

Lemma group_items_offer n l : omap clickable (List.flat_map all_items (group_items n l)) = [].
Proof. revert n. induction l as [|g l IH]; intros n; [done|]. cbn. apply IH. Qed.
Lemma drive_items_offer n l :
  omap clickable (List.flat_map all_items (drive_items n l)) = l ≫= drive_offers.
Proof. revert n. induction l as [|d l IH]; intros n; [done|]. cbn. by rewrite IH. Qed.

Lemma build_menu_offers snap : omap clickable (all_items (build_menu snap)) = menu_offers snap.
Proof.
  unfold build_menu, menu_offers. destruct (rs_peer_id _); cbn zeta;
    destruct (sn_groups snap) as [|g gs]; destruct (sn_drives snap) as [|d ds];
    cbn [all_items omap list_omap clickable mi_enabled]; rewrite ?flat_map_app, ?omap_app.
  all: cbn; rewrite ?flat_map_app, ?omap_app, ?group_items_offer, ?drive_items_offer; try done.
  all: exact (f_equal (fun l => OpenConsole :: drive_offers d ++ l ++ [QuitItem]) (app_nil_r (ds ≫= drive_offers))).
Qed.

(** A menu is in step with a snapshot it was built from. *)
Definition drawn (st : TrayState) (snap : StatusSnapshot) : Prop :=
  ts_menu st = build_menu snap /\ (menu_size snap < 2 ^ 31)%N.

Lemma action_for_id_iff st snap id a :
  drawn st snap -> (- 2 ^ 31 <= id < 2 ^ 31)%Z ->
  action_for_id (ts_menu st) (as_u32 id) = Some a <->
  exists i, i ∈ all_items (build_menu snap) /\ as_i32 (mi_id i) = id /\ clickable i = Some a.
Proof.
  intros [-> Hs] Hid. unfold action_for_id. rewrite as_i32_u32 by done. fold clickable.
  pose proof (fun i => find_item_iff (build_menu snap) id i (build_menu_distinct snap Hs)) as Hf. split.
  - destruct (find_item _ id) as [i|]; [|done]. destruct (proj1 (Hf i) eq_refl) as [Hi Hid'].
    intros Ha. by exists i.
  - intros (i & Hi & Hid' & Ha). by rewrite (proj2 (Hf i) (conj Hi Hid')).
Qed.

(** A click does what the item says: the items that can be clicked are, from
    top to bottom, the console, pause or resume (by the drive's state) and
    remove for each drive of the snapshot, and quit; they have distinct ids, a
    click on the id of one sends exactly its command, or opens the console, and
    any other id does nothing. *)
Theorem menu_click_exact st snap :
  drawn st snap ->
  exists ids, NoDup ids /\ length ids = length (menu_offers snap) /\
    (forall k id a, ids !! k = Some id -> menu_offers snap !! k = Some a ->
       menu_event st id "clicked" = dispatch_action st a) /\
    (forall id, (- 2 ^ 31 <= id < 2 ^ 31)%Z -> id ∉ ids -> menu_event st id "clicked" = st).
Proof.
  intros Hd. pose proof Hd as [_ Hs].
  set (pairs := omap (fun i => (fun a => (as_i32 (mi_id i), a)) <$> clickable i) (all_items (build_menu snap))).
  assert (Hin : forall id a, (id, a) ∈ pairs <->
    exists i, i ∈ all_items (build_menu snap) /\ as_i32 (mi_id i) = id /\ clickable i = Some a).
  { intros id a. unfold pairs. rewrite list_elem_of_omap. split.
    - intros (i & Hi & E). exists i. destruct (clickable i); [|done]. injection E as <- <-. done.
    - intros (i & Hi & <- & E). exists i. by rewrite E. }
  assert (Hoff : pairs.*2 = menu_offers snap).
  { rewrite <- build_menu_offers. unfold pairs. clear. induction (all_items _) as [|i l IH]; [done|]. cbn.
    destruct (clickable i); cbn; by rewrite IH. }
  assert (Hnd : NoDup pairs.*1).
  { pose proof (build_menu_distinct snap Hs) as Hn. unfold pairs. clear -Hn.
    induction (all_items _) as [|i l IH]; [constructor|]. cbn in *. apply NoDup_cons in Hn as [Hi Hn].
    destruct (clickable i); cbn; [|by apply IH]. constructor; [|by apply IH].
    intros ([id a] & E & Hp)%list_elem_of_fmap. apply list_elem_of_omap in Hp as (j & Hj & Ej).
    destruct (clickable j); [|done]. injection Ej as <- <-. apply Hi. apply list_elem_of_fmap. by exists j. }
  assert (Hr : forall id a, (id, a) ∈ pairs -> (- 2 ^ 31 <= id < 2 ^ 31)%Z).
  { intros id a (i & Hi & <- & _)%Hin. unfold as_i32. pose proof (Z.mod_pos_bound (Z.of_N (mi_id i)) (2 ^ 32)).
    destruct (Z.ltb_spec (Z.of_N (mi_id i) mod 2 ^ 32) (2 ^ 31)); lia. }
  exists pairs.*1. split_and!; [done|by rewrite <- Hoff, !length_fmap| |].
  - intros k id a Hk Ha. rewrite <- Hoff in Ha. rewrite list_lookup_fmap in Hk. rewrite list_lookup_fmap in Ha.
    destruct (pairs !! k) as [[id' a']|] eqn:E; [|done]. cbn in Hk, Ha. injection Hk as ->. injection Ha as ->.
    apply list_elem_of_lookup_2 in E. unfold menu_event. rewrite bool_decide_eq_true_2 by done. cbn [negb].
    by rewrite (proj2 (action_for_id_iff st snap id a Hd (Hr _ _ E)) (proj1 (Hin _ _) E)).
  - intros id Hid Hni. unfold menu_event. rewrite bool_decide_eq_true_2 by done. cbn [negb].
    destruct (action_for_id _ _) as [a|] eqn:E; [|done]. exfalso. apply Hni.
    apply (action_for_id_iff st snap id a Hd Hid), Hin in E. apply list_elem_of_fmap. by exists (id, a).
Qed.

(** ** The layout *)

Fixpoint layout_ids (l : LayoutItem) : list Z :=
  let 'Layout id _ ch := l in id :: List.flat_map layout_ids ch.

Lemma layout_unlimited i f :
  Forall (fun x => mi_visible x = true) (all_items i) ->
  layout_ids (build_layout i (-1) f) = (fun x => as_i32 (mi_id x)) <$> all_items i.
Proof.
  induction i as [n s l e v c a ch Hch] using menu_ind. intros [_ Hv]%Forall_cons.
  cbn [build_layout all_items layout_ids]. rewrite decide_False by done. rewrite decide_True by done.
  rewrite fmap_cons. f_equal. induction Hch as [|x ch Hx _ IH]; [done|]. cbn [List.flat_map] in *.
  apply Forall_app in Hv as [Hvx Hv]. assert (Ex : mi_visible x = true).
  { destruct x. apply Forall_cons in Hvx. tauto. }
  rewrite Ex. cbn [List.flat_map]. rewrite Hx, IH by done. by rewrite fmap_app.
Qed.

Lemma flat_visible (l : list MenuItem) :
  Forall (fun i => Forall (fun x => mi_visible x = true) (all_items i)) l ->
  Forall (fun x => mi_visible x = true) (List.flat_map all_items l).
Proof. induction 1 as [|i l Hi _ IH]; [done|]. cbn. apply Forall_app. by split. Qed.

Lemma menu_header_visible id label icon ch :
  Forall (fun i => Forall (fun x => mi_visible x = true) (all_items i)) ch ->
  Forall (fun x => mi_visible x = true) (all_items (menu_header id label icon ch)).
Proof. intros Hch. cbn. constructor; [done|by apply flat_visible]. Qed.
Lemma group_items_visible n l :
  Forall (fun i => Forall (fun x => mi_visible x = true) (all_items i)) (group_items n l).
Proof. revert n. induction l; intros n; constructor; [by apply menu_header_visible|done]. Qed.
Lemma drive_items_visible n l :
  Forall (fun i => Forall (fun x => mi_visible x = true) (all_items i)) (drive_items n l).
Proof.
  revert n. induction l; intros n; constructor; [|done]. apply menu_header_visible. by repeat constructor.
Qed.

Lemma build_menu_visible snap : Forall (fun x => mi_visible x = true) (all_items (build_menu snap)).
Proof.
  unfold build_menu. destruct (rs_peer_id _); cbn zeta; destruct (sn_groups snap) as [|g gs];
    destruct (sn_drives snap) as [|d ds]; (constructor; [done|]); apply flat_visible;
    repeat match goal with
           | |- Forall _ (_ :: _) => apply Forall_cons; split
           | |- Forall _ (_ ++ _) => apply Forall_app; split
           | |- Forall _ [] => constructor
           end; try (by repeat constructor); apply menu_header_visible;
    (apply group_items_visible || apply drive_items_visible).
Qed.

(** The layout a host gets when it asks for everything lists every item of the
    menu, in its order, with the current revision. *)
Theorem layout_complete st snap f :
  drawn st snap ->
  exists l, get_layout st 0 (-1) f = Ok (ts_revision st, l) /\
    layout_ids l = (fun x => as_i32 (mi_id x)) <$> all_items (build_menu snap).
Proof.
  intros [Hm _]. unfold get_layout, layout. rewrite Hm.
  replace (find_item (build_menu snap) 0) with (Some (build_menu snap)).
  - eexists. split; [reflexivity|]. apply layout_unlimited, build_menu_visible.
  - unfold build_menu. repeat case_match; reflexivity.
Qed.

(** ** The icon (src/tray/icon.rs) *)

Definition ICON_NAME : string := "ph-reactor".

Section Icon.
(** The embedded picture. *)
Context (LOGOMARK_SVG : list byte).

(** [write_if_changed]. *)
Definition write_if_changed (path : Path) (content : list byte) : fsM unit :=
  existing ← fs_try (fs_read_to_string path);
  if match existing with Ok b => bool_decide (b = content) | Err _ => false end then mret tt else
  match parent path with
  | Some _ => _ ← fs_create_dir_all; fs_write path content
  | None => fs_write path content
  end.

(** The two files, and [ensure_installed]; [data_dir] is [dirs::data_dir]. *)
Definition icon_base (data_dir : Path) : Path := data_dir ++ ["icons"; "hicolor"].
Definition icon_targets (base : Path) : list Path :=
  [base ++ ["scalable"; "apps"; ICON_NAME +:+ ".svg"]; base ++ ["symbolic"; "apps"; ICON_NAME +:+ "-symbolic.svg"]].
Fixpoint install_icons (targets : list Path) : fsM bool :=
  match targets with
  | [] => mret true
  | path :: targets =>
      r ← fs_try (write_if_changed path LOGOMARK_SVG);
      match r with Ok _ => install_icons targets | Err _ => mret false end
  end.
Definition ensure_installed (data_dir : option Path) : fsM (option Path) :=
  match data_dir with
  | None => mret None
  | Some d =>
      ok ← install_icons (icon_targets (icon_base d));
      mret (if (ok : bool) then Some (icon_base d) else None)
  end.

Lemma write_if_changed_leaves path q : q <> path -> leaves (write_if_changed path LOGOMARK_SVG) q.
Proof.
  intros Hq. apply leaves_bind; [apply leaves_try, leaves_read_to_string|]. intros r.
  destruct (match r with Ok b => bool_decide (b = LOGOMARK_SVG) | Err _ => false end); [apply leaves_ret|].
  destruct (parent path); [apply leaves_bind; [apply leaves_meta|intros _]|]; by apply leaves_write.
Qed.
Lemma fs_text_ok path s b : (fs_read_to_string path s).2 = Ok b -> fs_files s !! path = Some b.
Proof.
  unfold fs_read_to_string. rewrite fs_run_bind. pose proof (fs_read_ok path s) as Hr.
  destruct (fs_read path s) as [s1 [b'|]]; [|done]. cbn [fst snd]. destruct (utf8_ok b'); [|done].
  intros [= ->]. by apply Hr.
Qed.
Lemma write_if_changed_holds path s :
  (write_if_changed path LOGOMARK_SVG s).2 = Ok tt ->
  fs_files (write_if_changed path LOGOMARK_SVG s).1 !! path = Some LOGOMARK_SVG.
Proof.
  assert (Hw : forall t, (fs_write path LOGOMARK_SVG t).2 = Ok tt ->
                 fs_files (fs_write path LOGOMARK_SVG t).1 !! path = Some LOGOMARK_SVG).
  { intros t Ht. rewrite fs_write_ok by done. apply lookup_insert_eq. }
  unfold write_if_changed. rewrite fs_run_bind. unfold fs_try. cbn [fst snd].
  pose proof (leaves_read_to_string path path s) as Hl. pose proof (fs_text_ok path s) as Hr.
  destruct (fs_read_to_string path s) as [s1 r]. cbn [fst snd] in *.
  destruct (match r with Ok b => bool_decide (b = LOGOMARK_SVG) | Err _ => false end) eqn:Eb.
  - destruct r as [b|]; [|done]. apply bool_decide_eq_true in Eb as ->. intros _. cbn. rewrite Hl. by apply Hr.
  - destruct (parent path); [|by apply Hw]. rewrite fs_run_bind.
    destruct (fs_create_dir_all s1) as [s2 []]; [by apply Hw|done].
Qed.

(** The icon is installed or it is not, and nothing else is touched: when the
    theme root is returned both files hold the picture, and whatever calls
    failed on the way no other file changed. *)
Theorem icons_installed d s :
  ((ensure_installed (Some d) s).2 = Ok (Some (icon_base d)) ->
   forall p, p ∈ icon_targets (icon_base d) -> fs_files (ensure_installed (Some d) s).1 !! p = Some LOGOMARK_SVG) /\
  forall q, q ∉ icon_targets (icon_base d) -> leaves (ensure_installed (Some d)) q.
Proof.
  set (p1 := icon_base d ++ ["scalable"; "apps"; ICON_NAME +:+ ".svg"]).
  set (p2 := icon_base d ++ ["symbolic"; "apps"; ICON_NAME +:+ "-symbolic.svg"]).
  assert (H12 : p1 <> p2) by (intros E; apply (inj (app (icon_base d))) in E; discriminate E).
  unfold ensure_installed, icon_targets. fold p1 p2. split.
  - rewrite fs_run_bind. cbn [install_icons]. rewrite fs_run_bind. unfold fs_try. cbn [fst snd].
    pose proof (write_if_changed_holds p1 s) as H1.
    destruct (write_if_changed p1 LOGOMARK_SVG s) as [s1 [[]|]]; cbn [fst snd] in *; [|done].
    rewrite fs_run_bind. cbn [fst snd].
    pose proof (write_if_changed_holds p2 s1) as H2. pose proof (write_if_changed_leaves p2 p1 H12 s1) as L.
    destruct (write_if_changed p2 LOGOMARK_SVG s1) as [s2 [[]|]]; cbn [fst snd] in *; [|done].
    intros _ p Hp. apply elem_of_cons in Hp as [->|Hp]; [cbn; rewrite L; by apply H1|].
    apply list_elem_of_singleton in Hp as ->. by apply H2.
  - intros q Hq. apply not_elem_of_cons in Hq as [Q1 Hq]. apply not_elem_of_cons in Hq as [Q2 _].
    apply leaves_bind; [|intros b; apply leaves_ret]. cbn [install_icons].
    apply leaves_bind; [by apply leaves_try, write_if_changed_leaves|]. intros [|]; [|apply leaves_ret].
    apply leaves_bind; [by apply leaves_try, write_if_changed_leaves|]. intros [|]; apply leaves_ret.
Qed.
End Icon.

(** ** A stale menu *)

Definition quiet_snap (drives : list DriveStatusEntry) : StatusSnapshot :=
  {| sn_version := "1"; sn_reactor := {| rs_running := true; rs_healthy := true; rs_peer_id := None;
       rs_listen := ""; rs_docs := 0; rs_last_event := None; rs_active_drives := 0; rs_last_doc := None |};
     sn_drives := drives; sn_bans := []; sn_settings := {| ss_url := "" |}; sn_groups := [];
     sn_updated_at := "" |}.
Definition synced_drive (name : string) : DriveStatusEntry :=
  {| ds_name := name; ds_addr := ""; ds_paused := false; ds_status := "synced"; ds_detail := "" |}.

Lemma menu_click_exact_witness :
  let st := tray_start (quiet_snap [synced_drive "a"]) "" in
  exists ids, length ids = 4 /\
    forall id, ids !! 2 = Some id -> ts_sent (menu_event st id "clicked") = [CmdRemoveDrive "a"].
Proof.
  cbn zeta. destruct (menu_click_exact (tray_start (quiet_snap [synced_drive "a"]) "")
    (quiet_snap [synced_drive "a"])) as (ids & _ & Hl & Hc & _).
  - split; [reflexivity|vm_compute; reflexivity].
  - exists ids. split; [exact Hl|]. intros id Hid. rewrite (Hc 2 id (RemoveDriveItem "a") Hid eq_refl). reflexivity.
Defined.

(** An id names a position, not a drive, and a click carries no revision: a host
    that still shows the menu of two drives when the first has gone sends the
    click on "Remove" of the first, and the other drive is removed. *)
Theorem stale_click_hits_other_drive :
  let st := tray_start (quiet_snap [synced_drive "a"; synced_drive "b"]) "" in
  ts_sent (menu_event st 8 "clicked") = [CmdRemoveDrive "a"] /\
  ts_sent (menu_event (on_snapshot st (quiet_snap [synced_drive "b"])) 8 "clicked") = [CmdRemoveDrive "b"].
Proof. split; vm_compute; reflexivity. Qed.
