(* ===== verification/TrayRun.v ===== *)
(** The tray as a task (src/tray/mod.rs): what it tells the session bus, the
    loop that follows the status snapshots, and what a host that draws the
    menu can rely on. *)

From stdpp Require Import base gmap strings numbers pretty list.
From S2P Require Import Prelude Json Text Status Tray.

(** ** The bus *)

Definition SNI_PATH : string := "/StatusNotifierItem".
Definition MENU_PATH : string := "/StatusNotifierItem/Menu".

(** What the bus answers to the calls the tray makes. *)
Record Bus := {
  bus_session : result string unit;
  bus_well_known : string -> result string unit;
  bus_take_name : result string unit;
  bus_item_ctxt : bool;
  bus_menu_ctxt : bool
}.

(** The calls, in the order they are made. *)
Inductive BusCall :=
  | ServeItem (path : string)
  | ServeMenu (path : string)
  | TakeName (name : string)
  | RegisterItem (watcher name : string)
  | NewStatus (status : string)
  | NewIconName (name : string)
  | NewTitle (title : string)
  | Updated
  | LayoutUpdated (revision : N) (parent : Z)
  | RemoveItem (path : string)
  | RemoveMenu (path : string)
  | ReleaseName (name : string).

(** ** Properties *)

(** The properties of the item, under the names the interface gives them. *)
Definition sni_properties (st : TrayState) : list (string * Value) :=
  [("Id", Str "ph-reactor"); ("Title", Str "ph-reactor"); ("Category", Str "Communication");
   ("Status", Str (sni_status (ts_snapshot st))); ("IconName", Str ICON_NAME);
   ("AttentionIconName", Str "dialog-warning"); ("OverlayIconName", Str (overlay_icon_name st));
   ("IconThemePath", Str (ts_icon_theme_path st)); ("ItemIsMenu", Bool false); ("Menu", Str MENU_PATH);
   ("ToolTip", Array [Str ICON_NAME; Array []; Str (tool_tip st).1; Str (tool_tip st).2])].
Definition menu_properties (st : TrayState) : list (string * Value) :=
  [("Version", Number 3); ("Status", Str "normal"); ("TextDirection", Str "ltr");
   ("IconThemePath", Array (if bool_decide (ts_icon_theme_path st = "") then [] else [Str (ts_icon_theme_path st)]))].

(** ** The task *)

Record TrayTask := { tk_state : TrayState; tk_calls : list BusCall; tk_running : bool }.
Definition tell (t : TrayTask) (l : list BusCall) : TrayTask :=
  {| tk_state := tk_state t; tk_calls := tk_calls t ++ l; tk_running := tk_running t |}.
Definition upd_tray (t : TrayTask) (st : TrayState) : TrayTask :=
  {| tk_state := st; tk_calls := tk_calls t; tk_running := tk_running t |}.
Definition halt (t : TrayTask) : TrayTask :=
  {| tk_state := tk_state t; tk_calls := tk_calls t; tk_running := false |}.
Definition when {A} (b : bool) (l : list A) : list A := if b then l else [].

Definition tray_name (uid : N) : string := "org.kde.StatusNotifierItem-" +:+ pretty uid +:+ "-1".
Definition watcher : string := "org.kde.StatusNotifierWatcher".

Section Task.
Context (b : Bus) (uid : N).

(** [run] up to its loop; without the name there is no loop, a failed
    registration is only logged. *)
Definition tray_open (snap : StatusSnapshot) (icons : string) : TrayTask :=
  let t := {| tk_state := tray_start snap icons; tk_calls := [ServeItem SNI_PATH; ServeMenu MENU_PATH];
              tk_running := true |} in
  match bus_well_known b (tray_name uid) with
  | Err _ => halt t
  | Ok _ =>
      let t := tell t [TakeName (tray_name uid)] in
      match bus_take_name b with
      | Err _ => halt t
      | Ok _ =>
          let t := tell t [RegisterItem watcher (tray_name uid)] in
          tell t (when (bus_item_ctxt b)
                    [NewStatus (sni_status snap); NewIconName ICON_NAME; NewTitle "ph-reactor"])
      end
  end.

(** What reaches the task: the two watch channels ([None] when the sender is
    gone) and the calls of a host. *)
Inductive TrayInput :=
  | StopChanged (stop : option bool)
  | SnapshotChanged (snap : option StatusSnapshot)
  | HostEvent (id : Z) (event_id : string)
  | HostAboutToShow (id : Z)
  | HostActivate
  | HostSecondaryActivate
  | HostContextMenu
  | HostScroll.

(** The end of [run]. *)
Definition tray_close (t : TrayTask) : TrayTask :=
  halt (tell t ([RemoveItem SNI_PATH; RemoveMenu MENU_PATH]
                ++ when (is_ok (bus_well_known b (tray_name uid))) [ReleaseName (tray_name uid)])).

(** A turn of the loop for a new snapshot. *)
Definition tray_follow (t : TrayTask) (snap : StatusSnapshot) : TrayTask :=
  let st := on_snapshot (tk_state t) snap in
  tell (upd_tray t st)
    (when (bus_item_ctxt b) [NewStatus (sni_status snap); Updated]
     ++ when (bus_menu_ctxt b) [LayoutUpdated (ts_revision st) 0]).

Definition tray_step (t : TrayTask) (i : TrayInput) : TrayTask :=
  if negb (tk_running t) then t else
  match i with
  | StopChanged (Some true) => tray_close t
  | StopChanged _ => t
  | SnapshotChanged None => tray_close t
  | SnapshotChanged (Some snap) => tray_follow t snap
  | HostEvent id event_id => upd_tray t (menu_event (tk_state t) id event_id)
  | HostAboutToShow _ => upd_tray t (about_to_show (tk_state t)).1
  | HostActivate | HostSecondaryActivate => upd_tray t (open_console (tk_state t))
  | HostContextMenu | HostScroll => t
  end.
Definition tray_run (t : TrayTask) (l : list TrayInput) : TrayTask := foldl tray_step t l.
End Task.

(** [Tray], [start], [Tray::is_headless]. *)
Inductive TrayHandle := TrayRunning (t : TrayTask) | TrayHeadless (reason : string).
Definition tray_launch (b : Bus) (uid : N) (snap : StatusSnapshot) (icons : string) : TrayHandle :=
  match bus_session b with
  | Err e => TrayHeadless ("no session bus: " +:+ e)
  | Ok _ => TrayRunning (tray_open b uid snap icons)
  end.
Definition is_headless (h : TrayHandle) : bool :=
  match h with TrayRunning _ => false | TrayHeadless _ => true end.
(** [Tray::stop]. *)
Definition tray_stop (b : Bus) (uid : N) (h : TrayHandle) : TrayHandle :=
  match h with
  | TrayRunning t => TrayRunning (tray_step b uid t (StopChanged (Some true)))
  | TrayHeadless r => TrayHeadless r
  end.

(** ** What a host can rely on *)

(** The snapshot that was shown last. *)
Fixpoint shown (snap : StatusSnapshot) (l : list TrayInput) : StatusSnapshot :=
  match l with
  | [] => snap
  | StopChanged (Some true) :: _ | SnapshotChanged None :: _ => snap
  | SnapshotChanged (Some s) :: l => shown s l
  | _ :: l => shown snap l
  end.
(** The status a host was signalled last, and the revisions it was told of. *)
Definition status_told (l : list BusCall) : option string :=
  last (omap (fun c => match c with NewStatus s => Some s | _ => None end) l).
Definition menu_updates (l : list BusCall) : list N :=
  omap (fun c => match c with LayoutUpdated r _ => Some r | _ => None end) l.

Lemma menu_eqb_refl i : menu_eqb i i = true.
Proof.
  induction i as [id s l e v c a ch Hch] using menu_ind. cbn [menu_eqb].
  rewrite bool_decide_eq_true_2 by done. cbn [andb]. induction Hch as [|x ch Hx _ IH]; [done|].
  by rewrite Hx.
Qed.
Lemma dispatch_keeps st a :
  ts_snapshot (dispatch_action st a) = ts_snapshot st /\ ts_menu (dispatch_action st a) = ts_menu st.
Proof. destruct a as [n []|n| |]; cbn; try done. unfold open_console. by case_bool_decide. Qed.
Lemma console_keeps st : ts_snapshot (open_console st) = ts_snapshot st /\ ts_menu (open_console st) = ts_menu st.
Proof. apply (dispatch_keeps st OpenConsole). Qed.
Lemma event_keeps st id e :
  ts_snapshot (menu_event st id e) = ts_snapshot st /\ ts_menu (menu_event st id e) = ts_menu st.
Proof. unfold menu_event. destruct (negb _); [done|]. destruct (action_for_id _ _); [apply dispatch_keeps|done]. Qed.

Section Host.
Context (b : Bus) (uid : N).

(** A task whose menu and status are those of a snapshot. *)
Record in_step (t : TrayTask) (snap : StatusSnapshot) : Prop := {
  is_snap : ts_snapshot (tk_state t) = snap;
  is_menu : ts_menu (tk_state t) = build_menu snap;
  is_told : bus_item_ctxt b = true -> status_told (tk_calls t) = Some (sni_status snap)
}.

Lemma status_told_app l k : status_told k = None -> status_told (l ++ k) = status_told l.
Proof.
  unfold status_told. intros Hk. rewrite omap_app.
  by apply last_None in Hk as ->; rewrite app_nil_r.
Qed.
Lemma tell_in_step t snap l : status_told l = None -> in_step t snap -> in_step (tell t l) snap.
Proof. intros Hl [? ? Ht]. split; [done|done|]. intros Hb. cbn. rewrite status_told_app by done. by apply Ht. Qed.
Lemma close_in_step t snap : in_step t snap -> in_step (tray_close b uid t) snap.
Proof.
  intros Ht. destruct (tell_in_step t snap ([RemoveItem SNI_PATH; RemoveMenu MENU_PATH]
    ++ when (is_ok (bus_well_known b (tray_name uid))) [ReleaseName (tray_name uid)])); [by destruct (is_ok _)|done|].
  by split.
Qed.
Lemma follow_in_step t s : in_step (tray_follow b t s) s.
Proof.
  split; [done|done|]. intros Hb. unfold tray_follow. cbn [tk_calls tell]. rewrite Hb. unfold status_told.
  rewrite !omap_app, app_assoc. cbn [when omap list_omap]. destruct (bus_menu_ctxt b); cbn;
    rewrite app_nil_r; apply last_snoc.
Qed.
Lemma state_in_step t st snap :
  ts_snapshot st = ts_snapshot (tk_state t) -> ts_menu st = build_menu (ts_snapshot (tk_state t)) ->
  in_step t snap -> in_step (upd_tray t st) snap.
Proof. intros E1 E2 [H1 H2 H3]. split; [by rewrite <- H1|by rewrite <- H1|done]. Qed.

Lemma halted t l : tk_running t = false -> tray_run b uid t l = t.
Proof. intros Hr. induction l as [|i l IH]; [done|]. cbn. unfold tray_step at 2. by rewrite Hr. Qed.

Lemma run_in_step t snap l :
  tk_running t = true -> in_step t snap -> in_step (tray_run b uid t l) (shown snap l).
Proof.
  revert t snap. induction l as [|i l IH]; intros t snap Hr Ht; [done|]. cbn [tray_run foldl].
  fold (tray_run b uid (tray_step b uid t i) l).
  assert (Hup : forall st, ts_snapshot st = ts_snapshot (tk_state t) ->
            ts_menu st = build_menu (ts_snapshot (tk_state t)) ->
            in_step (tray_run b uid (upd_tray t st) l) (shown snap l))
    by (intros st E1 E2; apply IH; [done|by apply state_in_step]).
  assert (Hm : ts_menu (tk_state t) = build_menu (ts_snapshot (tk_state t))) by (destruct Ht; congruence).
  unfold tray_step. rewrite Hr. cbn [negb].
  destruct i as [[[]|]|[s|]|id e|id| | | |]; cbn [shown]; try (by apply IH).
  - rewrite halted by done. by apply close_in_step.
  - apply IH; [done|]. apply follow_in_step.
  - rewrite halted by done. by apply close_in_step.
  - destruct (event_keeps (tk_state t) id e). apply Hup; congruence.
  - by apply Hup.
  - destruct (console_keeps (tk_state t)). apply Hup; congruence.
  - destruct (console_keeps (tk_state t)). apply Hup; congruence.
Qed.

Lemma open_in_step snap icons :
  tk_running (tray_open b uid snap icons) = true -> in_step (tray_open b uid snap icons) snap.
Proof.
  unfold tray_open. destruct (bus_well_known _ _); [|done]. destruct (bus_take_name b); [|done].
  intros _. split; [done|done|]. intros Hb. cbn. by rewrite Hb.
Qed.

(** Once the tray has its name, then whatever snapshots arrive and whatever a
    host does, the menu and the status property are those of the snapshot shown
    last, a host was signalled that status, and [AboutToShow] answers that
    nothing changed: the loop has already rebuilt the menu. *)
Theorem tray_follows_status snap icons l :
  tk_running (tray_open b uid snap icons) = true ->
  let t := tray_run b uid (tray_open b uid snap icons) l in
  ts_menu (tk_state t) = build_menu (shown snap l) /\
  ("Status", Str (sni_status (shown snap l))) ∈ sni_properties (tk_state t) /\
  (bus_item_ctxt b = true -> status_told (tk_calls t) = Some (sni_status (shown snap l))) /\
  (about_to_show (tk_state t)).2 = false.
Proof.
  intros Hr t. destruct (run_in_step _ snap l Hr (open_in_step snap icons Hr)) as [H1 H2 H3]. fold t in H1, H2, H3.
  split_and!; [done| |done|].
  - unfold sni_properties. rewrite H1. do 3 right. left.
  - unfold about_to_show. cbn [snd]. by rewrite H1, H2, menu_eqb_refl.
Qed.

(** ** Signals *)

Lemma step_updates t i :
  exists new, menu_updates (tk_calls (tray_step b uid t i)) = menu_updates (tk_calls t) ++ new /\
    (bus_menu_ctxt b = true -> new = [] -> ts_menu (tk_state t) = build_menu (ts_snapshot (tk_state t)) ->
     ts_menu (tk_state (tray_step b uid t i)) = ts_menu (tk_state t) /\
     ts_snapshot (tk_state (tray_step b uid t i)) = ts_snapshot (tk_state t)).
Proof.
  assert (Hc : exists new, menu_updates (tk_calls (tray_close b uid t)) = menu_updates (tk_calls t) ++ new /\
    (bus_menu_ctxt b = true -> new = [] -> ts_menu (tk_state t) = build_menu (ts_snapshot (tk_state t)) ->
     ts_menu (tk_state (tray_close b uid t)) = ts_menu (tk_state t) /\
     ts_snapshot (tk_state (tray_close b uid t)) = ts_snapshot (tk_state t))).
  { exists []. split; [|done]. cbn [tk_calls tray_close halt tell]. unfold menu_updates. rewrite omap_app.
    by destruct (is_ok _). }
  unfold tray_step. destruct (tk_running t); cbn [negb]; [|exists []; by rewrite app_nil_r].
  destruct i as [[[]|]|[s|]|id e|id| | | |]; try exact Hc; try (exists []; rewrite app_nil_r; done).
  - eexists. split; [unfold tray_follow; cbn [tk_calls tell]; apply omap_app|]. intros Hb. rewrite Hb.
    destruct (bus_item_ctxt b); cbn; done.
  - exists []. rewrite app_nil_r. split; [done|]. intros _ _ _. destruct (event_keeps (tk_state t) id e). by split.
  - exists []. rewrite app_nil_r. split; [done|]. intros _ _ _. destruct (console_keeps (tk_state t)). by split.
  - exists []. rewrite app_nil_r. split; [done|]. intros _ _ _. destruct (console_keeps (tk_state t)). by split.
Qed.

Lemma quiet_run t l :
  bus_menu_ctxt b = true -> ts_menu (tk_state t) = build_menu (ts_snapshot (tk_state t)) ->
  menu_updates (tk_calls (tray_run b uid t l)) = menu_updates (tk_calls t) ->
  ts_menu (tk_state (tray_run b uid t l)) = ts_menu (tk_state t).
Proof.
  intros Hb. revert t. induction l as [|i l IH]; intros t Hm; [done|]. cbn [tray_run foldl].
  fold (tray_run b uid (tray_step b uid t i) l). intros E.
  assert (Hp : exists more, menu_updates (tk_calls (tray_run b uid (tray_step b uid t i) l)) =
                 menu_updates (tk_calls (tray_step b uid t i)) ++ more).
  { generalize (tray_step b uid t i). clear. induction l as [|j l IH]; intros t; [exists []; by rewrite app_nil_r|].
    destruct (IH (tray_step b uid t j)) as [more E]. destruct (step_updates t j) as (new & En & _).
    exists (new ++ more). cbn [tray_run foldl]. unfold tray_run in E. by rewrite E, En, app_assoc. }
  destruct Hp as [more Hmore]. destruct (step_updates t i) as (new & En & Hs). rewrite E, En, <- app_assoc in Hmore.
  assert (Hnil : new ++ more = []) by (apply (app_inv_head (menu_updates (tk_calls t))); by rewrite app_nil_r).
  apply app_eq_nil in Hnil as [-> ->]. destruct (Hs Hb eq_refl Hm) as [H1 H2]. rewrite app_nil_r in En.
  rewrite IH; [done| |by rewrite E, En]. by rewrite H1, H2.
Qed.

(** A host that fetches the layout again at every [LayoutUpdated] never shows
    an old menu: as long as no signal has come since it fetched, a new fetch of
    any part of the menu gives the same items. *)
Theorem cached_layout_current snap icons l l' :
  bus_menu_ctxt b = true -> tk_running (tray_open b uid snap icons) = true ->
  let t := tray_run b uid (tray_open b uid snap icons) l in
  let t' := tray_run b uid t l' in
  menu_updates (tk_calls t') = menu_updates (tk_calls t) ->
  forall parent depth names,
    get_layout (tk_state t') parent depth names =
    match get_layout (tk_state t) parent depth names with
    | Ok p => Ok (ts_revision (tk_state t'), p.2)
    | Err e => Err e
    end.
Proof.
  intros Hb Hr t t' E parent depth names.
  destruct (run_in_step _ snap l Hr (open_in_step snap icons Hr)) as [H1 H2 _]. fold t in H1, H2.
  pose proof (quiet_run t l' Hb ltac:(congruence) E) as Hm. fold t' in Hm.
  unfold get_layout. rewrite Hm. by destruct (layout _ _ _ _).
Qed.

(** ** The end *)

Definition holds_name (t : TrayTask) : Prop :=
  TakeName (tray_name uid) ∈ tk_calls t /\
  if tk_running t then ReleaseName (tray_name uid) ∉ tk_calls t
  else last (tk_calls t) = Some (ReleaseName (tray_name uid)).

Lemma open_holds snap icons :
  tk_running (tray_open b uid snap icons) = true ->
  holds_name (tray_open b uid snap icons) /\ is_ok (bus_well_known b (tray_name uid)) = true.
Proof.
  unfold tray_open. destruct (bus_well_known _ _); [|done]. destruct (bus_take_name b); [|done]. intros _.
  split; [|done]. split; [do 2 right; left|]. cbn.
  destruct (bus_item_ctxt b); cbn [when]; rewrite !not_elem_of_cons; split_and!; try done; apply not_elem_of_nil.
Qed.

Lemma step_holds t i :
  is_ok (bus_well_known b (tray_name uid)) = true -> holds_name t -> holds_name (tray_step b uid t i).
Proof.
  intros Hok Ht. unfold tray_step. destruct (tk_running t) eqn:Hr; cbn [negb]; [|done].
  assert (Hc : holds_name (tray_close b uid t)).
  { destruct Ht as [Ht _]. unfold holds_name. cbn [tk_running tk_calls tray_close halt tell]. rewrite Hok. cbn [when].
    split; [apply elem_of_app; by left|]. rewrite app_assoc. apply last_snoc. }
  destruct i as [[[]|]|[s|]|id e|id| | | |]; try exact Hc; try done.
  destruct Ht as [Ht Hn]. rewrite Hr in Hn. unfold holds_name, tray_follow. cbn. rewrite Hr.
  split; [apply elem_of_app; by left|]. rewrite elem_of_app. intros [?|Hin]; [done|].
  destruct (bus_item_ctxt b), (bus_menu_ctxt b); cbn in Hin; rewrite ?elem_of_cons, elem_of_nil in Hin; naive_solver.
Qed.

(** The name is held exactly while the task runs: it is taken before the loop,
    a running tray has not given it up, and however the task ends, giving it
    up is its last call and nothing moves the tray afterwards. *)
Theorem tray_ends_clean snap icons l :
  tk_running (tray_open b uid snap icons) = true ->
  let t := tray_run b uid (tray_open b uid snap icons) l in
  TakeName (tray_name uid) ∈ tk_calls t /\
  (tk_running t = true -> ReleaseName (tray_name uid) ∉ tk_calls t) /\
  (tk_running t = false -> last (tk_calls t) = Some (ReleaseName (tray_name uid)) /\
                           forall l', tray_run b uid t l' = t).
Proof.
  intros Hr t. destruct (open_holds snap icons Hr) as [Ho Hok].
  assert (Ht : holds_name t).
  { unfold t. revert Ho. generalize (tray_open b uid snap icons). induction l as [|i l IH]; intros t0 H0; [done|].
    by apply IH, step_holds. }
  destruct Ht as [H1 H2]. split_and!; [done| |].
  - intros E. by rewrite E in H2.
  - intros E. rewrite E in H2. split; [done|]. intros l'. by apply halted.
Qed.
End Host.

(** A desktop: a node with one drive, which then disappears. *)
Definition desktop : Bus :=
  {| bus_session := Ok tt; bus_well_known := fun _ => Ok tt; bus_take_name := Ok tt; bus_item_ctxt := true;
     bus_menu_ctxt := true |}.
Example tray_session :
  let t := tray_run desktop 1000 (tray_open desktop 1000 (quiet_snap [synced_drive "a"]) "")
    [HostAboutToShow 0; SnapshotChanged (Some (quiet_snap [])); HostActivate; StopChanged (Some true); HostActivate] in
  menu_updates (tk_calls t) = [3%N] /\ tk_running t = false /\
  last (tk_calls t) = Some (ReleaseName "org.kde.StatusNotifierItem-1000-1").
Proof. vm_compute. repeat split. Qed.
