(* ===== verification/Host.v ===== *)
(** The machine a command of the program runs on: what it reads of it ([Os]),
    what it changes ([Host]) and the monad its commands are written in; the
    identity file (src/p2p/mod.rs, [load_or_create_identity]); and the process,
    lock and port checks of src/daemon.rs.

    A [Host] holds the files of the state directory, the document directory,
    the state [W] of whatever answers HTTP requests on this machine, and what
    has been printed.  The operating system's answers during one command are
    the argument [Os]. *)

From stdpp Require Import base gmap strings numbers pretty list.
From Stdlib Require Import Strings.Byte Strings.Ascii.
From S2P Require Import Prelude Json Doc Sample Action Model Builtins Store Text Blob Engine Fs Package Update Config.

(** ** The machine *)

Record Os := {
  os_pid : Z;                             (** [std::process::id] *)
  os_secs : N;                            (** the clock, in seconds *)
  os_env : string -> option string;       (** [std::env::var] *)
  os_alive : Z -> bool;                   (** whether [kill(pid, 0)] is 0 *)
  os_flock : result string unit;          (** [flock] on the lock file *)
  os_bind : string -> N -> result string unit  (** [TcpListener::bind] *)
}.

Record Host (W : Type) := {
  ho_fs : Fs;
  ho_disk : Disk;
  ho_world : W;
  ho_out : list string;
  ho_err : list string
}.
Arguments ho_fs {W}. Arguments ho_disk {W}. Arguments ho_world {W}.
Arguments ho_out {W}. Arguments ho_err {W}.

Definition hostM (W A : Type) : Type := Host W -> Host W * result string A.
#[export] Instance hostM_ret W : MRet (hostM W) := fun A a h => (h, Ok a).
#[export] Instance hostM_bind W : MBind (hostM W) := fun A B k m h =>
  match m h with
  | (h', Ok a) => k a h'
  | (h', Err e) => (h', Err e)
  end.

Section Calls.
Context {W : Type}.
Implicit Type h : Host W.

(** [bail!]. *)
Definition fail_ {A} (e : string) : hostM W A := fun h => (h, Err e).
Definition lift {A} (r : result string A) : hostM W A := fun h => (h, r).
(** A computation on the files; with [with_context] its error is the context. *)
Definition on_fs {A} (m : fsM A) : hostM W A := fun h =>
  ({| ho_fs := (m (ho_fs h)).1; ho_disk := ho_disk h; ho_world := ho_world h; ho_out := ho_out h;
      ho_err := ho_err h |}, (m (ho_fs h)).2).
Definition context {A} (text : string) (m : hostM W A) : hostM W A := fun h =>
  match m h with (h', Err e) => (h', Err (text +:+ ": " +:+ e)) | r => r end.
(** [println!] and [eprintln!]; [print!] of a text without its newline. *)
Definition println (s : string) : hostM W unit := fun h =>
  ({| ho_fs := ho_fs h; ho_disk := ho_disk h; ho_world := ho_world h; ho_out := ho_out h ++ [s];
      ho_err := ho_err h |}, Ok tt).
Definition eprintln (s : string) : hostM W unit := fun h =>
  ({| ho_fs := ho_fs h; ho_disk := ho_disk h; ho_world := ho_world h; ho_out := ho_out h;
      ho_err := ho_err h ++ [s] |}, Ok tt).
Definition get_fs : hostM W Fs := fun h => (h, Ok (ho_fs h)).
Definition get_disk : hostM W Disk := fun h => (h, Ok (ho_disk h)).
Definition put_disk (d : Disk) : hostM W unit := fun h =>
  ({| ho_fs := ho_fs h; ho_disk := d; ho_world := ho_world h; ho_out := ho_out h; ho_err := ho_err h |},
   Ok tt).
(** The result of a step as a value. *)
Definition attempt {A} (m : hostM W A) : hostM W (result string A) := fun h => ((m h).1, Ok (m h).2).

Lemma host_run_bind {A B} (m : hostM W A) (k : A -> hostM W B) h :
  (x ← m; k x) h = match (m h).2 with
                   | Ok a => k a (m h).1
                   | Err e => ((m h).1, Err e)
                   end.
Proof. unfold mbind, hostM_bind. by destruct (m h) as [? []]. Qed.

(** A computation that never fails. *)
Definition succeeds {A} (m : hostM W A) : Prop := forall h, is_ok (m h).2 = true.
Lemma succeeds_ret {A} (a : A) : succeeds (mret a).
Proof. done. Qed.
Lemma succeeds_println s : succeeds (println s).
Proof. done. Qed.
Lemma succeeds_eprintln s : succeeds (eprintln s).
Proof. done. Qed.
Lemma succeeds_attempt {A} (m : hostM W A) : succeeds (attempt m).
Proof. done. Qed.
Lemma succeeds_exists p : succeeds (on_fs (fs_exists p)).
Proof. done. Qed.
Lemma succeeds_bind {A B} (m : hostM W A) (k : A -> hostM W B) :
  succeeds m -> (forall a, succeeds (k a)) -> succeeds (x ← m; k x).
Proof. intros Hm Hk h. rewrite host_run_bind. specialize (Hm h). destruct (m h).2; [apply Hk|done]. Qed.
End Calls.
#[export] Hint Resolve succeeds_ret succeeds_println succeeds_eprintln succeeds_attempt succeeds_exists : reactor.
Ltac host_ok := repeat first [solve [auto with reactor] | apply succeeds_bind; [|intros ?] | case_match].

(** Step through the head of a host computation. *)
Ltac host_step := rewrite host_run_bind; cbn [fst snd].

(** ** Numbers in files *)

(** [i32::from_str]: a sign, at least one digit, and no overflow. *)
Definition I32_MAX : N := 2147483647.
Definition parse_i32 (s : string) : option Z :=
  let digits s := match s with EmptyString => None | _ => parse_digits 0 s end in
  match s with
  | String "-" s => n ← digits s; if (n <=? I32_MAX + 1)%N then Some (- Z.of_N n)%Z else None
  | String "+" s => n ← digits s; if (n <=? I32_MAX)%N then Some (Z.of_N n) else None
  | s => n ← digits s; if (n <=? I32_MAX)%N then Some (Z.of_N n) else None
  end.

(** A file's bytes as text; the files of the program are ASCII. *)
Definition text_of (b : list byte) : string := String.string_of_list_byte b.

(** A result with no call behind it. *)
Definition fs_of {E A} (r : result E A) : fsE E A := fun s => (s, r).

(** ** Processes *)

(** [process_alive]. *)
Definition process_alive (os : Os) (pid : Z) : bool := (0 <? pid)%Z && os_alive os pid.

(** [daemon_is_running]. *)
Definition daemon_is_running (os : Os) (pidfile : Path) : fsM bool :=
  raw ← fs_try (fs_read_to_string pidfile);
  mret match raw with
       | Err _ => false
       | Ok raw =>
           match parse_i32 (trim (text_of raw)) with
           | Some pid => (0 <? pid)%Z && process_alive os pid
           | None => false
           end
       end.

(** [acquire_lock]: opening creates the file and keeps its contents. *)
Definition open_lock (p : Path) : fsM unit := fs_append p [].
Definition acquire_lock (os : Os) (sp : StatePaths) : fsM unit :=
  _ ← fs_map_err (fun e => "opening " +:+ path_display (lock_file sp) +:+ ": " +:+ e) (open_lock (lock_file sp));
  match os_flock os with
  | Ok _ => mret tt
  | Err errno =>
      stale ← fs_try (fs_read_to_string (daemon_pidfile sp));
      let pid := match stale with
                 | Ok stale => default (-1)%Z (parse_i32 (trim (text_of stale)))
                 | Err _ => (-1)%Z
                 end in
      if (0 <? pid)%Z && process_alive os pid
      then fs_fail ("another ph-reactor is already running (pid " +:+ pretty pid +:+ ")")
      else fs_fail ("state directory lock is held: " +:+ errno)
  end.

(** [remove_ready]. *)
Definition ready_file (sp : StatePaths) : Path := join (run_dir sp) "ready".
Definition remove_ready (sp : StatePaths) : fsM unit := fs_ignore (fs_remove (ready_file sp)).

(** ** Ports *)

(** [check_listen_port]: the last address and port of the multiaddr. *)
Definition last_ip (l : list Protocol) : option string :=
  last (omap (fun p => match p with Ip4 i | Ip6 i => Some i | _ => None end) l).
Definition last_port (l : list Protocol) : option N :=
  last (omap (fun p => match p with Tcp n => Some n | _ => None end) l).
Definition check_listen_port `{Net} (os : Os) (addr : Multiaddr) : result string unit :=
  match last_ip (addr_iter addr), last_port (addr_iter addr) with
  | Some ip, Some port =>
      match os_bind os ip port with
      | Ok _ => Ok tt
      | Err e => Err ("listen port " +:+ pretty port +:+ " is already in use: " +:+ e
                        +:+ " (change instance.listen in the config)")
      end
  | _, _ => Ok tt
  end.
(** [check_settings_port]. *)
Definition check_settings_port (os : Os) (host : string) (port : N) : result string unit :=
  match os_bind os host port with
  | Ok _ => Ok tt
  | Err e => Err ("settings port " +:+ pretty port +:+ " on " +:+ host +:+ " is already in use: " +:+ e
                    +:+ " (change settings.port in the config)")
  end.

(** ** The identity *)

(** The libp2p identity crate: a keypair, from 32 secret bytes and back, its
    peer id as text, its public key, and the signing key of the same bytes. *)
Class Keys `{Platform} := {
  Keypair : Type;
  ed25519_from_bytes : list byte -> result string Keypair;
  secret_bytes : Keypair -> result string (list byte);
  public_bytes : Keypair -> result string (list byte);
  peer_id_of : Keypair -> PeerId;
  signing_from_bytes : list byte -> SigningKey
}.
(** An ed25519 key has 32 secret bytes, which make the key again. *)
Class KeysLaws `{Keys} := {
  secret_length : forall kp b, secret_bytes kp = Ok b -> length b = 32;
  key_roundtrip : forall kp b, secret_bytes kp = Ok b -> ed25519_from_bytes b = Ok kp
}.

Section Identity.
Context `{Keys}.

(** [set_perms_0600]. *)
Definition set_perms_0600 (path : Path) : fsM unit :=
  md ← fs_try (fs_meta "stat failed");
  match md with Ok _ => fs_ignore fs_set_permissions | Err _ => mret tt end.

(** [load_or_create_identity]; [fresh] is what [Keypair::generate_ed25519]
    returns. *)
Definition create_identity (fresh : Keypair) (path : Path) : fsM Keypair :=
  seed ← fs_of (secret_bytes fresh);
  _ ← fs_map_err (fun e => "writing " +:+ path_display path +:+ ": " +:+ e) (fs_write path seed);
  _ ← set_perms_0600 path;
  mret fresh.
Definition load_or_create_identity (fresh : Keypair) (path : Path) : fsM Keypair :=
  bytes ← fs_try (fs_read path);
  match bytes with
  | Ok bytes =>
      if bool_decide (length bytes = 32) then fs_of (ed25519_from_bytes bytes)
      else create_identity fresh path
  | Err _ => create_identity fresh path
  end.

(** [signing_key], [public_key_bytes]. *)
Definition signing_key (kp : Keypair) : result string SigningKey :=
  secret ← secret_bytes kp; Ok (signing_from_bytes secret).
Definition public_key_bytes (kp : Keypair) : result string (list byte) := public_bytes kp.
End Identity.

(** [Drive::token]. *)
Definition nonempty (s : string) : option string := if bool_decide (s = "") then None else Some s.
Definition drive_token `{Net} (os : Os) (d : Drive) : option string :=
  n ← d_token_env d; v ← os_env os n; nonempty v.

(** ** The identity is kept *)

Section IdentityProps.
Context `{Keys} `{!KeysLaws}.

Lemma set_perms_leaves path q : leaves (set_perms_0600 path) q.
Proof. unfold set_perms_0600. apply leaves_bind; [auto with reactor|]. intros []; eauto with reactor. Qed.

(** The key on disk is the one returned. *)
Lemma create_identity_ok fresh path fs fs1 kp :
  create_identity fresh path fs = (fs1, Ok kp) ->
  kp = fresh /\ exists b, secret_bytes kp = Ok b /\ fs_files fs1 !! path = Some b.
Proof.
  unfold create_identity. rewrite fs_run_bind. unfold fs_of. cbn [fst snd].
  destruct (secret_bytes fresh) as [b|] eqn:Eb; [|done]. rewrite fs_run_bind. unfold fs_map_err.
  pose proof (fs_write_ok path b fs) as Hw. destruct (fs_write path b fs) as [fs2 [[]|e]]; cbn [fst snd] in *; [|done].
  specialize (Hw eq_refl). rewrite fs_run_bind.
  pose proof (set_perms_leaves path path fs2) as Hl. destruct (set_perms_0600 path fs2) as [fs3 [u|e]];
    cbn [fst snd] in *; [|done]. intros [= <- <-]. split; [done|]. exists b. by rewrite Hl, Hw, lookup_insert_eq.
Qed.

(** The identity of a node is made once: whatever [load_or_create_identity]
    returned, the next call returns the same key without touching a file, no
    matter which key the generator would give; and with no failing call it does
    return one: the key of the file when the file has 32 bytes, otherwise the
    generated one. *)
Theorem identity_stable fresh path fs seed :
  secret_bytes fresh = Ok seed ->
  (forall fs1 kp fresh', load_or_create_identity fresh path fs = (fs1, Ok kp) -> calm_fs fs1 ->
     load_or_create_identity fresh' path fs1 = (fs1, Ok kp)) /\
  (calm_fs fs ->
     (load_or_create_identity fresh path fs).2 =
       match fs_files fs !! path with
       | Some b => if bool_decide (length b = 32) then ed25519_from_bytes b else Ok fresh
       | None => Ok fresh
       end).
Proof.
  intros Hseed.
  assert (Hread : forall fs1 b fresh', calm_fs fs1 -> fs_files fs1 !! path = Some b -> length b = 32 ->
            load_or_create_identity fresh' path fs1 = (fs1, ed25519_from_bytes b)).
  { intros fs1 b fresh' Hc Hb Hl. unfold load_or_create_identity. rewrite fs_run_bind. unfold fs_try, fs_read.
    rewrite calm_next by done. rewrite Hb. cbn [fst snd]. by rewrite bool_decide_eq_true_2. }
  split.
  - intros fs1 kp fresh' E Hc. unfold load_or_create_identity in E. rewrite fs_run_bind in E. unfold fs_try in E.
    pose proof (fs_read_ok path fs) as Hr. pose proof (leaves_read path path fs) as Hl.
    destruct (fs_read path fs) as [fs2 [b|e]]; cbn [fst snd] in *.
    + case_bool_decide as H32.
      * unfold fs_of in E. injection E as <- E. rewrite <- E. apply Hread; [done| |done]. rewrite Hl. by apply Hr.
      * apply create_identity_ok in E as [-> (b' & Hb' & Hf)].
        rewrite (Hread _ b') by eauto using secret_length. by rewrite (key_roundtrip _ _ Hb').
    + apply create_identity_ok in E as [-> (b' & Hb' & Hf)].
      rewrite (Hread _ b') by eauto using secret_length. by rewrite (key_roundtrip _ _ Hb').
  - intros Hc.
    assert (Hcreate : (create_identity fresh path fs).2 = Ok fresh).
    { unfold create_identity. rewrite fs_run_bind. unfold fs_of. cbn [fst snd]. rewrite Hseed, fs_run_bind.
      unfold fs_map_err, fs_write. rewrite calm_next by done. cbn [fst snd]. rewrite fs_run_bind.
      unfold set_perms_0600. rewrite fs_run_bind. unfold fs_try, fs_meta. rewrite calm_next by done. cbn. done. }
    destruct (fs_files fs !! path) as [b|] eqn:Eb; [destruct (decide (length b = 32)) as [E|E]|].
    + rewrite (Hread fs b) by done. by rewrite bool_decide_eq_true_2.
    + rewrite bool_decide_eq_false_2 by done. rewrite <- Hcreate. unfold load_or_create_identity.
      rewrite fs_run_bind. unfold fs_try, fs_read. rewrite calm_next by done. rewrite Eb. cbn [fst snd].
      by rewrite bool_decide_eq_false_2.
    + rewrite <- Hcreate. unfold load_or_create_identity. rewrite fs_run_bind. unfold fs_try, fs_read.
      rewrite calm_next by done. by rewrite Eb.
Qed.
End IdentityProps.

(** Keys that are their own secret bytes. *)
Module KeySample.
Definition Key32 : Type := { b : list byte | length b = 32 }.
#[export] Instance byte_keys : Keys := {|
  Keypair := Key32;
  ed25519_from_bytes := fun b =>
    match decide (length b = 32) with left E => Ok (exist _ b E) | right _ => Err "wrong length" end;
  secret_bytes := fun kp => Ok (proj1_sig kp);
  public_bytes := fun kp => Ok (proj1_sig kp);
  peer_id_of := fun kp => "12D3" +:+ hex_encode (take 8 (proj1_sig kp));
  signing_from_bytes := fun b => foldl (fun n x => n * 256 + Byte.to_N x)%N 0%N b
|}.
#[export] Instance byte_keys_laws : KeysLaws.
Proof.
  split; cbn; intros [b E] b' [= <-]; [done|]. cbn. case_decide as E'; [|done]. f_equal. by apply (sig_eq_pi _).
Qed.
Definition old_bytes : list byte := replicate 32 x01.
Definition new_bytes : list byte := replicate 32 x02.
Definition old_key : Keypair := exist _ old_bytes eq_refl.
Definition new_key : Keypair := exist _ new_bytes eq_refl.
Definition key_at : Path := ["home"; "key"].

Lemma identity_stable_witness :
  load_or_create_identity old_key key_at (disk {[key_at := new_bytes]})
    = (disk {[key_at := new_bytes]}, Ok new_key) /\
  (load_or_create_identity old_key key_at (disk ∅)).2 = Ok old_key.
Proof.
  split.
  - apply (proj1 (identity_stable new_key key_at (disk ∅) new_bytes eq_refl)); vm_compute; reflexivity.
  - rewrite (proj2 (identity_stable old_key key_at (disk ∅) old_bytes eq_refl) eq_refl). reflexivity.
Defined.

(** A read of the key file that fails once replaces the node's identity. *)
Lemma identity_replaced :
  let fs := {| fs_files := {[key_at := old_bytes]}; fs_sched := [Refused] |} in
  (load_or_create_identity new_key key_at fs).2 = Ok new_key /\
  fs_files (load_or_create_identity new_key key_at fs).1 !! key_at = Some new_bytes /\
  peer_id_of new_key <> peer_id_of old_key.
Proof. split_and!; [vm_compute; reflexivity..|]. vm_compute. discriminate. Qed.
End KeySample.
