(* ===== verification/Instances.v ===== *)
(** The processes of a state directory (src/daemon.rs): [stop] and the parent of
    a daemonized start with their waits, and several daemons started, stopped
    and killed side by side, each making the calls [run_inner] makes on the
    lock, the pid file and the ready file.

    The waits are loops on a clock that is asked once per round; they are given
    fuel, and [stop_bounded] and [daemonize_bounded] show how much is enough. *)

From stdpp Require Import base gmap strings numbers pretty list relations.
From Stdlib Require Import Strings.Byte Strings.Ascii.
From S2P Require Import Prelude Json Doc Action Model Store Text Engine Fs Update Logs Config Host.

(** ** Stopping *)

Inductive Signal := SIGTERM | SIGKILL.

(** Milliseconds. *)
Definition STOP_GRACE : N := 15000.
Definition DAEMONIZE_TIMEOUT : N := 30000.

(** The loop of [stop], from its [i]-th round: whether the process answers, the
    clock, and whether it was killed in the end.  [None] is out of fuel. *)
Fixpoint stop_wait (fuel : nat) (alive : nat -> bool) (clock : nat -> N) (deadline : N) (i : nat) :
    option bool :=
  match fuel with
  | O => None
  | S fuel =>
      if negb (alive i) then Some false
      else if (deadline <? clock i)%N then Some true
      else stop_wait fuel alive clock deadline (S i)
  end.

(** [stop]: the signals it sends.  [alive] says whether the process of the pid
    file answers in the rounds of the wait. *)
Definition stop {W} (fuel : nat) (os : Os) (sp : StatePaths) (start : N) (alive : nat -> bool)
    (clock : nat -> N) : hostM W (list (Z * Signal)) :=
  raw ← attempt (on_fs (fs_read_to_string (daemon_pidfile sp)));
  match raw with
  | Err _ => _ ← println "ph-reactor is not running"; mret []
  | Ok raw =>
      match parse_i32 (trim (text_of raw)) with
      | None => fail_ ("unreadable pidfile " +:+ path_display (daemon_pidfile sp))
      | Some pid =>
          if negb (process_alive os pid) then
            _ ← println "ph-reactor is not running (stale pidfile removed)";
            _ ← on_fs (fs_ignore (fs_remove (daemon_pidfile sp)));
            mret []
          else
            _ ← println ("stopping ph-reactor (pid " +:+ pretty pid +:+ ")…");
            match stop_wait fuel alive clock (start + STOP_GRACE) 0 with
            | None => fail_ "out of fuel"
            | Some killed =>
                _ ← println "ph-reactor stopped";
                mret ((pid, SIGTERM) :: (if (killed : bool) then [(pid, SIGKILL)] else []))
            end
      end
  end.

(** ** The parent of a daemonized start *)

Inductive StartWait :=
  | BecameReady (content : string)
  | Exited (status : string)
  | TimedOut.

(** [reap_child], on what [waitpid] answers: nothing yet, or a status. *)
Inductive WaitStatus := WExited (code : N) | WSignaled (sig : N) | WOther.
Definition reap_child (answer : option WaitStatus) : option string :=
  match answer with
  | None => None
  | Some (WExited code) => Some ("exit code " +:+ pretty code)
  | Some (WSignaled sig) => Some ("killed by signal " +:+ pretty sig)
  | Some WOther => Some "unknown"
  end.

(** The loop of the parent: the ready file and the child in the [i]-th round. *)
Fixpoint ready_wait (fuel : nat) (ready : nat -> option string) (child : nat -> option WaitStatus)
    (clock : nat -> N) (deadline : N) (i : nat) : option StartWait :=
  match fuel with
  | O => None
  | S fuel =>
      if negb (clock i <? deadline)%N then Some TimedOut
      else match ready i with
           | Some content => Some (BecameReady content)
           | None =>
               match reap_child (child i) with
               | Some status => Some (Exited status)
               | None => ready_wait fuel ready child clock deadline (S i)
               end
           end
  end.

(** [print_startup_failure]; the tails go to the standard output. *)
Definition print_startup_failure {W} (sp : StatePaths) (message : string) : hostM W unit :=
  _ ← eprintln message;
  t ← attempt (on_fs (Logs.tail (reactor_log sp) (Some 2048%N)));
  _ ← match t with
      | Ok tail => _ ← eprintln "-- last reactor log:"; println (text_of tail)
      | Err _ => mret tt
      end;
  let stderr := join (logs_dir sp) "stderr.log" in
  here ← on_fs (fs_exists stderr);
  if negb here then mret tt else
  t ← attempt (on_fs (Logs.tail stderr (Some 2048%N)));
  match t with
  | Ok tail => _ ← eprintln "-- last child stderr:"; println (text_of tail)
  | Err _ => mret tt
  end.

(** The parent's branch of [run_daemonized], with its exit code. *)
Definition run_parent {W} (fuel : nat) (sp : StatePaths) (ready : nat -> option string)
    (child : nat -> option WaitStatus) (start : N) (clock : nat -> N) : hostM W N :=
  _ ← on_fs (remove_ready sp);
  let late := "daemon did not become ready within 30s" in
  match ready_wait fuel ready child clock (start + DAEMONIZE_TIMEOUT) 0 with
  | None => fail_ "out of fuel"
  | Some (BecameReady content) =>
      _ ← println ("ph-reactor started (pid " +:+ trim content +:+ ")"); mret 0%N
  | Some (Exited status) =>
      _ ← print_startup_failure sp ("ph-reactor exited during startup (" +:+ status +:+ ")"); mret 1%N
  | Some TimedOut => _ ← print_startup_failure sp late; fail_ late
  end.

(** ** Daemons side by side *)

(** The calls of [run_inner] on what the processes share, in their order. *)
Inductive Call := TakeLock | WritePid | WriteReady | RemoveReady | RemovePid | DropLock.
Definition run_calls : list Call := [TakeLock; WritePid; WriteReady; RemoveReady; RemovePid; DropLock].

(** The files, who holds the lock, how many of its calls each process has
    made, the pids the [stop] commands in progress have found dead, and whether
    one of them has removed a pid file. *)
Record Node := {
  n_files : gmap Path (list byte);
  n_lock : option Z;
  n_procs : gmap Z nat;
  n_stops : list Z;
  n_swept : bool
}.

Definition pid_bytes (p : Z) : list byte := as_bytes (pretty (Z.to_N p)).

Section Interleaved.
Context (sp : StatePaths).
Implicit Type n : Node.

Definition put_files n f : Node :=
  {| n_files := f; n_lock := n_lock n; n_procs := n_procs n; n_stops := n_stops n; n_swept := n_swept n |}.
Definition put_lock n l : Node :=
  {| n_files := n_files n; n_lock := l; n_procs := n_procs n; n_stops := n_stops n; n_swept := n_swept n |}.
Definition put_procs n ps : Node :=
  {| n_files := n_files n; n_lock := n_lock n; n_procs := ps; n_stops := n_stops n; n_swept := n_swept n |}.

(** What a call does; taking a lock that is held is refused. *)
Definition exec_call (p : Z) (c : Call) n : option Node :=
  match c with
  | TakeLock => match n_lock n with None => Some (put_lock n (Some p)) | Some _ => None end
  | WritePid => Some (put_files n (<[daemon_pidfile sp := pid_bytes p]> (n_files n)))
  | WriteReady => Some (put_files n (<[ready_file sp := pid_bytes p]> (n_files n)))
  | RemoveReady => Some (put_files n (delete (ready_file sp) (n_files n)))
  | RemovePid => Some (put_files n (delete (daemon_pidfile sp) (n_files n)))
  | DropLock => Some (put_lock n None)
  end.

(** What [kill(pid, 0)] answers in a state, and what a reader of the pid file
    concludes. *)
Definition os_of n (self : Z) : Os :=
  {| os_pid := self; os_secs := 0; os_env := fun _ => None;
     os_alive := fun p => bool_decide (is_Some (n_procs n !! p));
     os_flock := match n_lock n with None => Ok tt | Some _ => Err "held" end;
     os_bind := fun _ _ => Ok tt |}.
Definition seen_running n : bool :=
  match (daemon_is_running (os_of n 1) (daemon_pidfile sp) (disk (n_files n))).2 with
  | Ok b => b | Err _ => false
  end.

(** One step of the system: a process starts, makes its next call, or ends
    (refused the lock, on an error, killed; the lock goes with it, the files
    stay); a [stop] command finds the pid of the file dead, and removes the file;
    the parent of a daemonized start removes the ready file. *)
Inductive istep : Node -> Node -> Prop :=
  | is_spawn n p : (0 < p <= Z.of_N I32_MAX)%Z -> n_procs n !! p = None ->
      istep n (put_procs n (<[p := 0]> (n_procs n)))
  | is_call n n' p k c : n_procs n !! p = Some k -> run_calls !! k = Some c -> exec_call p c n = Some n' ->
      istep n (put_procs n' (<[p := S k]> (n_procs n')))
  | is_end n p k : n_procs n !! p = Some k ->
      istep n (put_procs (if decide (n_lock n = Some p) then put_lock n None else n) (delete p (n_procs n)))
  | is_look n p : n_files n !! daemon_pidfile sp = Some (pid_bytes p) -> n_procs n !! p = None ->
      istep n {| n_files := n_files n; n_lock := n_lock n; n_procs := n_procs n;
                 n_stops := p :: n_stops n; n_swept := n_swept n |}
  | is_sweep n p l : n_stops n = p :: l ->
      istep n {| n_files := delete (daemon_pidfile sp) (n_files n); n_lock := n_lock n;
                 n_procs := n_procs n; n_stops := l; n_swept := true |}
  | is_clear n : istep n (put_files n (delete (ready_file sp) (n_files n))).

(** A directory no process works on; any files may be left over. *)
Definition at_rest n : Prop := n_lock n = None /\ n_procs n = ∅ /\ n_stops n = [] /\ n_swept n = false.

(** Between taking the lock and dropping it; between writing the pid file and
    removing it. *)
Definition holding (k : nat) : Prop := 1 <= k <= 5.
Definition listed (k : nat) : Prop := 2 <= k <= 4.
End Interleaved.

(** ** The text of a pid *)

Lemma pretty_char_digit d : (d < 10)%N ->
  digit (pretty_N_char d) = Some d /\ is_space (pretty_N_char d) = false /\
  (N_of_ascii (pretty_N_char d) <? 128)%N = true /\ pretty_N_char d <> "-"%char /\ pretty_N_char d <> "+"%char.
Proof.
  intros Hd. assert (Hi : d ∈ [0; 1; 2; 3; 4; 5; 6; 7; 8; 9]%N).
  { rewrite !elem_of_cons. lia. }
  rewrite !elem_of_cons, elem_of_nil in Hi.
  repeat (destruct Hi as [->|Hi]; [by vm_compute|]). done.
Qed.

(** A reading of a text that consumes a digit at a time: what holds of the text
    of a number, from its last digit. *)
Lemma pretty_go_ind (P : N -> string -> Prop) :
  (forall n c s, (0 < n)%N -> c = pretty_N_char (n mod 10) -> P (n / 10)%N (String c s) -> P n s) ->
  (forall s, P 0%N s) -> forall n s, P n s.
Proof.
  intros Hs H0 n. induction (N.lt_wf_0 n) as [n _ IH]. intros s.
  destruct (decide (n = 0%N)) as [->|Hn]; [apply H0|].
  eapply Hs; [lia|done|]. apply IH. apply N.div_lt; lia.
Qed.

Lemma parse_pretty_go n s : (n < U64_MOD)%N -> parse_digits 0 (pretty_N_go n s) = parse_digits n s.
Proof.
  revert n s. apply (pretty_go_ind (fun n s => (n < U64_MOD)%N -> _ = parse_digits n s)).
  - intros n c s Hn -> IH Hlt. rewrite pretty_N_go_step by done.
    rewrite IH by (pose proof (N.Div0.div_le_upper_bound n 10 n); lia).
    destruct (pretty_char_digit (n mod 10)) as [E _]; [apply N.mod_lt; lia|].
    cbn [parse_digits]. rewrite E. cbn [mbind option_bind].
    replace (n / 10 * 10 + n mod 10)%N with n by (pose proof (N.div_mod n 10); lia).
    by rewrite (proj2 (N.ltb_lt _ _)).
  - intros s _. by rewrite pretty_N_go_0.
Qed.

(** The characters of a number are digits. *)
Definition plain (c : ascii) : Prop := is_space c = false /\ (N_of_ascii c <? 128)%N = true.
Lemma pretty_go_plain n s :
  Forall plain (String.list_ascii_of_string s) -> Forall plain (String.list_ascii_of_string (pretty_N_go n s)).
Proof.
  revert n s. apply (pretty_go_ind (fun n s => _ -> Forall plain (String.list_ascii_of_string (pretty_N_go n s)))).
  - intros n c s Hn -> IH Hf. rewrite pretty_N_go_step by done. apply IH. cbn. constructor; [|done].
    destruct (pretty_char_digit (n mod 10)) as (_ & ? & ? & _); [apply N.mod_lt; lia|done].
  - intros s Hf. by rewrite pretty_N_go_0.
Qed.

Lemma pretty_pos n : (0 < n)%N -> pretty n = pretty_N_go n "".
Proof. intros Hn. unfold pretty, pretty_N. by rewrite decide_False by lia. Qed.

Lemma parse_signless s :
  (forall r, s <> String "-" r) -> (forall r, s <> String "+" r) ->
  parse_i32 s = n ← (match s with EmptyString => None | _ => parse_digits 0 s end);
                if (n <=? I32_MAX)%N then Some (Z.of_N n) else None.
Proof.
  intros Hm Hp. destruct s as [|c s]; [done|]. unfold parse_i32.
  destruct c as [[][][][][][][][]]; try done; [by destruct (Hp s)|by destruct (Hm s)].
Qed.

Lemma utf8_plain s : Forall plain (String.list_ascii_of_string s) -> utf8_ok (as_bytes s) = true.
Proof.
  unfold utf8_ok, as_bytes, String.list_byte_of_string. induction s as [|c s IH]; [done|].
  cbn [String.list_ascii_of_string List.map utf8_from]. intros [[_ Hc] Hs]%Forall_cons_1.
  assert (E : Byte.to_N (byte_of_ascii c) = N_of_ascii c) by (by destruct c as [[][][][][][][][]]).
  rewrite E, Hc. by apply IH.
Qed.

(** A pid written into a file is read back. *)
Lemma pid_roundtrip p :
  (0 < p <= Z.of_N I32_MAX)%Z ->
  utf8_ok (pid_bytes p) = true /\ parse_i32 (trim (text_of (pid_bytes p))) = Some p.
Proof.
  intros Hp. unfold pid_bytes. set (n := Z.to_N p).
  assert (Hn : (0 < n <= I32_MAX)%N) by (unfold n; lia). rewrite pretty_pos by lia.
  pose proof (pretty_go_plain n "" (Forall_nil_2 _)) as Hf.
  split; [by apply utf8_plain|].
  unfold text_of, as_bytes. rewrite String.string_of_list_byte_of_string, trim_graphic.
  2:{ eapply Forall_impl; [exact Hf|]. by intros c []. }
  assert (Hq : parse_digits 0 (pretty_N_go n "") = Some n).
  { rewrite parse_pretty_go; [done|]. unfold U64_MOD. unfold I32_MAX in Hn. lia. }
  assert (Hs : forall c r, pretty_N_go n "" = String c r -> digit c <> None).
  { intros c r E. rewrite E in Hq. cbn in Hq. by destruct (digit c). }
  rewrite parse_signless.
  - rewrite Hq. destruct (pretty_N_go n "") eqn:E; [cbn in Hq; simplify_eq; lia|]. cbn.
    rewrite (proj2 (N.leb_le _ _)) by lia. f_equal. unfold n. lia.
  - intros r E. by destruct (Hs _ _ E).
  - intros r E. by destruct (Hs _ _ E).
Qed.

(** ** At most one daemon *)

Section SingleInstance.
Context (sp : StatePaths) (Hsp : exists r, sp = for_root r).
Implicit Type n : Node.

(** The lock belongs to the one process between its first and its last call,
    and the pid file, unless a [stop] swept it, to the process that listed
    itself. *)
Record node_inv n : Prop := {
  ni_pids : forall p k, n_procs n !! p = Some k -> (0 < p <= Z.of_N I32_MAX)%Z;
  ni_holder : forall p k, n_procs n !! p = Some k -> holding k -> n_lock n = Some p;
  ni_lock : forall p, n_lock n = Some p -> exists k, n_procs n !! p = Some k /\ holding k;
  ni_listed : forall p k, n_procs n !! p = Some k -> listed k ->
    n_files n !! daemon_pidfile sp = Some (pid_bytes p) \/
    n_swept n = true /\ n_files n !! daemon_pidfile sp = None
}.

Lemma ready_pid_ne : ready_file sp <> daemon_pidfile sp.
Proof. destruct Hsp as [r ->]. unfold ready_file, daemon_pidfile, join. intros [=]%(inj (app _)). Qed.

Lemma spawn_inv n p :
  (0 < p <= Z.of_N I32_MAX)%Z -> n_procs n !! p = None -> node_inv n ->
  node_inv (put_procs n (<[p := 0]> (n_procs n))).
Proof.
  intros Hp Hn [I1 I2 I3 I4]. split; cbn.
  - intros q k [[<- <-]|[Hne Hq]]%lookup_insert_Some; eauto.
  - intros q k [[<- <-]|[Hne Hq]]%lookup_insert_Some Hk; [unfold holding in Hk; lia|eauto].
  - intros q (k & Hq & Hk)%I3. exists k. split; [|done]. rewrite lookup_insert_ne; [done|congruence].
  - intros q k [[<- <-]|[Hne Hq]]%lookup_insert_Some Hk; [unfold listed in Hk; lia|eauto].
Qed.

Lemma end_inv n p k :
  n_procs n !! p = Some k -> node_inv n ->
  node_inv (put_procs (if decide (n_lock n = Some p) then put_lock n None else n) (delete p (n_procs n))).
Proof.
  intros Hp [I1 I2 I3 I4].
  assert (Hf : n_files (if decide (n_lock n = Some p) then put_lock n None else n) = n_files n) by (by case_decide).
  assert (Hw : n_swept (if decide (n_lock n = Some p) then put_lock n None else n) = n_swept n) by (by case_decide).
  split; cbn; rewrite ?Hf, ?Hw.
  - intros q j [_ Hq]%lookup_delete_Some; eauto.
  - intros q j [Hne Hq]%lookup_delete_Some Hj. pose proof (I2 q j Hq Hj) as E. case_decide; [congruence|done].
  - intros q Hq. case_decide as E; [done|]. destruct (I3 q Hq) as (j & Hj & Hh). exists j. split; [|done].
    rewrite lookup_delete_ne; [done|congruence].
  - intros q j [Hne Hq]%lookup_delete_Some Hj; eauto.
Qed.

(** Two processes between their first and last call are one. *)
Lemma holders_agree n p q k j :
  node_inv n -> n_procs n !! p = Some k -> n_procs n !! q = Some j -> holding k -> holding j -> p = q.
Proof. intros I Hp Hq Hk Hj. pose proof (ni_holder n I p k Hp Hk). pose proof (ni_holder n I q j Hq Hj). congruence. Qed.

Lemma take_lock_inv n p :
  n_procs n !! p = Some 0 -> n_lock n = None -> node_inv n ->
  node_inv (put_procs (put_lock n (Some p)) (<[p := 1]> (n_procs n))).
Proof.
  intros Hp Hl [I1 I2 I3 I4]. split; cbn.
  - intros q k [[<- <-]|[Hne Hq]]%lookup_insert_Some; eauto.
  - intros q k [[<- <-]|[Hne Hq]]%lookup_insert_Some Hk; [done|]. pose proof (I2 q k Hq Hk). congruence.
  - intros q [= <-]. exists 1. rewrite lookup_insert_eq. unfold holding. split; [done|lia].
  - intros q k [[<- <-]|[Hne Hq]]%lookup_insert_Some Hk; [unfold listed in Hk; lia|eauto].
Qed.

Lemma drop_lock_inv n p :
  n_procs n !! p = Some 5 -> node_inv n ->
  node_inv (put_procs (put_lock n None) (<[p := 6]> (n_procs n))).
Proof.
  intros Hp I. pose proof I as [I1 I2 I3 I4]. split; cbn.
  - intros q k [[<- <-]|[Hne Hq]]%lookup_insert_Some; eauto.
  - intros q k [[<- <-]|[Hne Hq]]%lookup_insert_Some Hk; [unfold holding in Hk; lia|].
    destruct Hne. eapply (holders_agree n p q 5 k); unfold holding in *; eauto; lia.
  - done.
  - intros q k [[<- <-]|[Hne Hq]]%lookup_insert_Some Hk; [unfold listed in Hk; lia|eauto].
Qed.

(** A call that keeps the lock: the process stays its holder, and the pid file
    is written for it, kept, or removed by it. *)
Lemma file_call_inv n p k f :
  n_procs n !! p = Some k -> 1 <= k < 5 -> node_inv n ->
  (listed (S k) -> f !! daemon_pidfile sp = Some (pid_bytes p) \/
                   n_swept n = true /\ f !! daemon_pidfile sp = None) ->
  node_inv (put_procs (put_files n f) (<[p := S k]> (n_procs n))).
Proof.
  intros Hp Hk I Hf. pose proof I as [I1 I2 I3 I4]. assert (Hh : holding k) by (unfold holding; lia).
  split; cbn.
  - intros q j [[<- <-]|[Hne Hq]]%lookup_insert_Some; eauto.
  - intros q j [[<- <-]|[Hne Hq]]%lookup_insert_Some Hj; eauto.
  - intros q (j & Hq & Hj)%I3. assert (q = p) as -> by (by eapply (holders_agree n q p j k)).
    exists (S k). rewrite lookup_insert_eq. unfold holding. split; [done|lia].
  - intros q j [[<- <-]|[Hne Hq]]%lookup_insert_Some Hj; [by apply Hf|].
    destruct Hne. eapply (holders_agree n p q k j); eauto. unfold holding, listed in *. lia.
Qed.

Lemma call_inv n n' p k c :
  n_procs n !! p = Some k -> run_calls !! k = Some c -> exec_call sp p c n = Some n' -> node_inv n ->
  node_inv (put_procs n' (<[p := S k]> (n_procs n'))).
Proof.
  intros Hp Hc He I. pose proof (ni_listed n I p k Hp) as Hl. pose proof ready_pid_ne as Hne.
  destruct k as [|[|[|[|[|[|k]]]]]]; cbn in Hc; simplify_eq; cbn in He.
  - destruct (n_lock n) eqn:El; [done|]. simplify_eq. exact (take_lock_inv n p Hp El I).
  - simplify_eq. apply (file_call_inv n p 1); [done|lia|done|]. intros _. left. by rewrite lookup_insert_eq.
  - simplify_eq. apply (file_call_inv n p 2); [done|lia|done|]. intros _. rewrite lookup_insert_ne by done.
    apply Hl. unfold listed. lia.
  - simplify_eq. apply (file_call_inv n p 3); [done|lia|done|]. intros _. rewrite lookup_delete_ne by done.
    apply Hl. unfold listed. lia.
  - simplify_eq. apply (file_call_inv n p 4); [done|lia|done|]. unfold listed. lia.
  - simplify_eq. exact (drop_lock_inv n p Hp I).
Qed.

Lemma istep_inv n n' : istep sp n n' -> node_inv n -> node_inv n'.
Proof.
  intros Hs I. destruct Hs as [n p Hp Hn|n n' p k c Hp Hc He|n p k Hp|n p Hf Hp|n p l El|n].
  - by apply spawn_inv.
  - by eapply call_inv.
  - by eapply end_inv.
  - by destruct I as [I1 I2 I3 I4]; split.
  - destruct I as [I1 I2 I3 I4]; split; [done..|]. cbn. intros q k Hq Hk. right.
    by rewrite lookup_delete_eq.
  - destruct I as [I1 I2 I3 I4]; split; [done..|]. cbn. intros q k Hq Hk.
    rewrite lookup_delete_ne by apply ready_pid_ne. eauto.
Qed.

Lemma reach_inv n n' : at_rest n -> rtc (istep sp) n n' -> node_inv n'.
Proof.
  intros (Hl & Hp & _ & _) Hr. assert (I : node_inv n).
  { split; rewrite ?Hp, ?Hl; try done; intros p k; by rewrite lookup_empty. }
  clear Hl Hp. induction Hr as [|n n1 n2 Hs _ IH]; [done|]. by apply IH, istep_inv with n.
Qed.

(** C19. At most one daemon works on a state directory, and others can see it:
    however daemons are started, end at any point or are killed, and whatever
    [stop] commands run beside them, from any left-over files, two processes
    that have taken the lock and not dropped it are one process; a second start
    is refused while it holds; and between writing and removing its pid file
    [daemon_is_running] says yes, unless a [stop] that had read an older pid
    removed the file. *)
Theorem single_instance n n' :
  at_rest n -> rtc (istep sp) n n' ->
  (forall p q k j, n_procs n' !! p = Some k -> n_procs n' !! q = Some j -> holding k -> holding j -> p = q) /\
  (forall p k q, n_procs n' !! p = Some k -> holding k -> exec_call sp q TakeLock n' = None) /\
  (forall p k, n_procs n' !! p = Some k -> listed k -> n_swept n' = false -> seen_running sp n' = true).
Proof.
  intros Hrest Hr. pose proof (reach_inv n n' Hrest Hr) as I. split_and!.
  - intros p q k j. by apply holders_agree.
  - intros p k q Hp Hk. cbn. by rewrite (ni_holder n' I p k Hp Hk).
  - intros p k Hp Hk Hw. destruct (ni_listed n' I p k Hp Hk) as [Hf|[E _]]; [|congruence].
    destruct (pid_roundtrip p (ni_pids n' I p k Hp)) as [Hu Hparse].
    unfold seen_running, daemon_is_running. rewrite fs_run_bind. unfold fs_try, fs_read_to_string.
    rewrite fs_run_bind. unfold fs_read, next_outcome. cbn [fs_sched fs_files]. rewrite Hf. cbn [fst snd].
    rewrite Hu. cbn [fst snd mret fsE_ret]. rewrite Hparse. unfold process_alive. cbn [os_alive os_of].
    pose proof (ni_pids n' I p k Hp). rewrite (proj2 (Z.ltb_lt _ _)) by lia. cbn.
    apply bool_decide_eq_true_2. by rewrite Hp.
Qed.
End SingleInstance.

(** ** The waits end *)

Lemma stop_wait_spec fuel alive clock deadline i :
  (forall i, clock i + 100 <= clock (S i))%N -> (deadline < clock i + 100 * N.of_nat fuel)%N ->
  exists killed j, stop_wait (S fuel) alive clock deadline i = Some killed /\ i <= j /\
    (forall k, i <= k < j -> alive k = true) /\
    if (killed : bool) then alive j = true /\ (deadline < clock j)%N else alive j = false.
Proof.
  intros Hc. revert i. induction fuel as [|fuel IH]; intros i Hd; cbn [stop_wait].
  - destruct (alive i) eqn:Ea; cbn [negb].
    + rewrite (proj2 (N.ltb_lt _ _)) by lia. exists true, i. split_and!; [done..|intros; lia|done|lia].
    + exists false, i. split_and!; [done..|intros; lia|done].
  - destruct (alive i) eqn:Ea; cbn [negb].
    2:{ exists false, i. split_and!; [done..|intros; lia|done]. }
    destruct (deadline <? clock i)%N eqn:El.
    { apply N.ltb_lt in El. exists true, i. split_and!; [done..|intros; lia|done|done]. }
    destruct (IH (S i)) as (killed & j & E & Hj & Hk & Hr); [specialize (Hc i); lia|].
    exists killed, j. split_and!; [exact E|lia| |done]. intros k Hi.
    destruct (decide (k = i)) as [->|]; [done|]. apply Hk. lia.
Qed.

(** C40. [stop] ends, within 152 rounds of a clock that advances by the tenth of
    a second it sleeps, and signals nobody but the process of the pid file, and
    that one only while it answers: SIGTERM first, and SIGKILL only after the
    grace period of 15 seconds has passed with the process still there. *)
Theorem stop_bounded {W} os sp start alive clock (h : Host W) :
  (forall i, clock i + 100 <= clock (S i))%N -> (start <= clock 0%nat)%N ->
  match (stop 152 os sp start alive clock h).2 with
  | Ok sigs =>
      sigs = [] \/
      exists pid raw, (fs_read_to_string (daemon_pidfile sp) (ho_fs h)).2 = Ok raw /\
        parse_i32 (trim (text_of raw)) = Some pid /\ process_alive os pid = true /\
        (sigs = [(pid, SIGTERM)] /\ (exists j, alive j = false /\ forall k, k < j -> alive k = true) \/
         sigs = [(pid, SIGTERM); (pid, SIGKILL)] /\
           exists j, (start + STOP_GRACE < clock j)%N /\ forall k, k <= j -> alive k = true)
  | Err e => e = "unreadable pidfile " +:+ path_display (daemon_pidfile sp)
  end.
Proof.
  intros Hc Hs. unfold stop. host_step. unfold attempt, on_fs. cbn [fst snd].
  destruct (fs_read_to_string _ (ho_fs h)) as [fs [raw|e]]; cbn [fst snd]; [|by left].
  destruct (parse_i32 _) as [pid|] eqn:Ep; [|done].
  destruct (process_alive os pid) eqn:Ea; cbn [negb]; [|by left].
  host_step.
  destruct (stop_wait_spec 151 alive clock (start + STOP_GRACE) 0 Hc) as (killed & j & E & _ & Hk & Hr).
  { unfold STOP_GRACE. lia. }
  rewrite E. cbn [snd println]. right. exists pid, raw. split_and!; [done..|].
  destruct killed; [right|left]; (split; [done|]); exists j.
  - destruct Hr as [Hj Hd]. split; [done|]. intros k Hle. destruct (decide (k = j)) as [->|]; [done|].
    apply Hk. lia.
  - split; [done|]. intros k Hlt. apply Hk. lia.
Qed.

(** The parent of a daemonized start ends within 151 rounds. *)
Lemma ready_wait_ends fuel ready child clock deadline i :
  (forall i, clock i + 200 <= clock (S i))%N -> (deadline <= clock i + 200 * N.of_nat fuel)%N ->
  is_Some (ready_wait (S fuel) ready child clock deadline i).
Proof.
  intros Hc. revert i. induction fuel as [|fuel IH]; intros i Hd.
  - cbn [ready_wait]. destruct (N.ltb_spec (clock i) deadline); [lia|]. by eexists.
  - cbn [ready_wait]. destruct (clock i <? deadline)%N; [|by eexists]. destruct (ready i); [by eexists|].
    destruct (reap_child _); [by eexists|]. apply IH. specialize (Hc i). lia.
Qed.

Lemma startup_failure_ok {W} sp m : succeeds (print_startup_failure (W := W) sp m).
Proof. unfold print_startup_failure. host_ok. Qed.

Lemma daemonize_bounded {W} sp ready child start clock (h : Host W) :
  (forall i, clock i + 200 <= clock (S i))%N -> (start <= clock 0%nat)%N ->
  (run_parent 151 sp ready child start clock h).2 ∈
    [Ok 0%N; Ok 1%N; Err "daemon did not become ready within 30s"].
Proof.
  intros Hc Hs. unfold run_parent. host_step. unfold on_fs at 1. cbn [snd].
  unfold remove_ready, fs_ignore. cbn [fst snd].
  destruct (ready_wait_ends 150 ready child clock (start + DAEMONIZE_TIMEOUT) 0 Hc) as [[c|st|] E].
  { unfold DAEMONIZE_TIMEOUT. lia. }
  - rewrite E. cbn. apply list_elem_of_here.
  - rewrite E. host_step. match goal with |- context [print_startup_failure sp ?m ?h0] =>
      pose proof (startup_failure_ok sp m h0) as Hok; destruct (print_startup_failure sp m h0) as [h' []] end;
      [cbn; apply list_elem_of_further; apply list_elem_of_here|done].
  - rewrite E. host_step. match goal with |- context [print_startup_failure sp ?m ?h0] =>
      pose proof (startup_failure_ok sp m h0) as Hok; destruct (print_startup_failure sp m h0) as [h' []] end;
      [cbn; by rewrite !elem_of_cons; auto|done].
Qed.

(** ** Runs *)

(** A run as a list of events, checked step by step. *)
Inductive Event := ESpawn (p : Z) | ECall (p : Z) | EEnd (p : Z) | ELook (p : Z) | ESweep | EClear.
Definition event (sp : StatePaths) (e : Event) (n : Node) : option Node :=
  match e with
  | ESpawn p =>
      if bool_decide ((0 < p <= Z.of_N I32_MAX)%Z /\ n_procs n !! p = None)
      then Some (put_procs n (<[p := 0]> (n_procs n))) else None
  | ECall p =>
      k ← n_procs n !! p; c ← run_calls !! k; n' ← exec_call sp p c n;
      Some (put_procs n' (<[p := S k]> (n_procs n')))
  | EEnd p =>
      k ← n_procs n !! p;
      Some (put_procs (if decide (n_lock n = Some p) then put_lock n None else n) (delete p (n_procs n)))
  | ELook p =>
      if bool_decide (n_files n !! daemon_pidfile sp = Some (pid_bytes p) /\ n_procs n !! p = None)
      then Some {| n_files := n_files n; n_lock := n_lock n; n_procs := n_procs n;
                   n_stops := p :: n_stops n; n_swept := n_swept n |} else None
  | ESweep =>
      match n_stops n with
      | [] => None
      | p :: l => Some {| n_files := delete (daemon_pidfile sp) (n_files n); n_lock := n_lock n;
                          n_procs := n_procs n; n_stops := l; n_swept := true |}
      end
  | EClear => Some (put_files n (delete (ready_file sp) (n_files n)))
  end.
Fixpoint events (sp : StatePaths) (l : list Event) (n : Node) : option Node :=
  match l with [] => Some n | e :: l => n' ← event sp e n; events sp l n' end.

Lemma event_step sp e n n' : event sp e n = Some n' -> istep sp n n'.
Proof.
  destruct e; cbn [event].
  - case_bool_decide as Hb; [|done]. intros [= <-]. apply is_spawn; apply Hb.
  - destruct (n_procs n !! p) as [k|] eqn:Hk; [cbn [mbind option_bind]|done].
    destruct (run_calls !! k) as [c|] eqn:Hc; [cbn [mbind option_bind]|done].
    destruct (exec_call sp p c n) as [n1|] eqn:Hn; [|done]. intros [= <-]. by eapply is_call.
  - intros (k & Hk & [= <-])%bind_Some. by eapply is_end.
  - case_bool_decide as Hb; [|done]. intros [= <-]. apply is_look; apply Hb.
  - destruct (n_stops n) eqn:E; [done|]. intros [= <-]. by eapply is_sweep.
  - intros [= <-]. apply is_clear.
Qed.
Lemma events_steps sp l n n' : events sp l n = Some n' -> rtc (istep sp) n n'.
Proof.
  revert n. induction l as [|e l IH]; intros n; cbn [events]; [by intros [= <-]|].
  intros (n1 & He%event_step & Hl%IH)%bind_Some. by eapply rtc_l.
Qed.

Module InstanceSample.
Definition state_dir : StatePaths := for_root ["state"].
(** What a daemon that was killed leaves behind. *)
Definition killed_before : Node :=
  {| n_files := {[daemon_pidfile state_dir := pid_bytes 7; ready_file state_dir := pid_bytes 7]};
     n_lock := None; n_procs := ∅; n_stops := []; n_swept := false |}.
Definition up (p : Z) : list Event := [ESpawn p; ECall p; ECall p; ECall p].
Definition after (l : list Event) : Node := default killed_before (events state_dir l killed_before).

Lemma killed_before_rest : at_rest killed_before.
Proof. done. Qed.

Lemma single_instance_witness :
  seen_running state_dir (after (up 8 ++ [ESpawn 9])) = true /\
  exec_call state_dir 9 TakeLock (after (up 8 ++ [ESpawn 9])) = None.
Proof.
  assert (Hr : rtc (istep state_dir) killed_before (after (up 8 ++ [ESpawn 9]))).
  { apply (events_steps _ (up 8 ++ [ESpawn 9])). vm_compute. reflexivity. }
  destruct (single_instance state_dir (ex_intro _ ["state"] eq_refl) killed_before _ killed_before_rest Hr)
    as (_ & H2 & H3). split.
  - refine (H3 8%Z 3 _ _ _); [vm_compute; reflexivity|unfold listed; lia|vm_compute; reflexivity].
  - refine (H2 8%Z 3 9%Z _ _); [vm_compute; reflexivity|unfold holding; lia].
Defined.

(** A [stop] that read the pid of a dead daemon removes the pid file of the one
    started meanwhile: it runs and no command finds it. *)
Lemma stop_hides_new_daemon :
  let n := after ([ELook 7] ++ up 8 ++ [ESweep]) in
  events state_dir ([ELook 7] ++ up 8 ++ [ESweep]) killed_before = Some n /\
  n_procs n !! 8%Z = Some 3 /\ n_lock n = Some 8%Z /\ seen_running state_dir n = false.
Proof. by vm_compute. Qed.

(** The parent of a daemonized start removes the ready file after the fork: a
    child that was ready by then is never seen to be. *)
Lemma parent_removes_fresh_ready :
  let n := after (up 8 ++ [EClear]) in
  n_procs n !! 8%Z = Some 3 /\ n_files n !! ready_file state_dir = None /\
  (run_parent (W := unit) 151 state_dir (fun _ => None) (fun _ => None) 0 (fun i => 200 * N.of_nat i)%N
     {| ho_fs := disk (n_files n); ho_disk := {| dk_index := None; dk_snaps := ∅; dk_alogs := ∅ |};
        ho_world := tt; ho_out := []; ho_err := [] |}).2 = Err "daemon did not become ready within 30s".
Proof. by vm_compute. Qed.

(** A process that ignores SIGTERM is killed once the grace period is over. *)
Definition stubborn : Host unit :=
  {| ho_fs := disk (n_files (after (up 8))); ho_disk := {| dk_index := None; dk_snaps := ∅; dk_alogs := ∅ |};
     ho_world := tt; ho_out := []; ho_err := [] |}.
Definition tenths (i : nat) : N := (100 * N.of_nat i)%N.
Lemma stop_bounded_witness :
  (stop 152 (os_of (after (up 8)) 1) state_dir 0 (fun _ => true) tenths stubborn).2
    = Ok [(8%Z, SIGTERM); (8%Z, SIGKILL)] /\
  exists j, (STOP_GRACE < tenths j)%N.
Proof.
  pose proof (stop_bounded (os_of (after (up 8)) 1) state_dir 0 (fun _ => true) tenths stubborn
    ltac:(unfold tenths; intros i; lia) ltac:(unfold tenths; lia)) as Hb.
  assert (E : (stop 152 (os_of (after (up 8)) 1) state_dir 0 (fun _ => true) tenths stubborn).2
    = Ok [(8%Z, SIGTERM); (8%Z, SIGKILL)]) by (vm_compute; reflexivity).
  split; [exact E|]. rewrite E in Hb.
  destruct Hb as [|(pid & raw & _ & _ & _ & [[? _]|(_ & j & Hj & _)])]; [done..|]. by exists j.
Defined.
End InstanceSample.
