(* ===== verification/Start.v ===== *)
(** Bringing a daemon up and down ([run_inner] of src/daemon.rs around its
    loop): the state directory, the configuration, the handover to a staged
    binary, the lock and the pid file, the identity, the ports, the store with
    every model that was registered, the engine, the first processors, the
    context of the loop with the drives announced; and the shutdown.

    What the operating system and the libraries decide is an argument: [Os],
    the generated key, whether a handover's [exec] works, whether the engine
    can be built, and the chunks in the blob directory. *)

From stdpp Require Import base gmap strings numbers pretty list relations.
From Stdlib Require Import Strings.Byte Strings.Ascii.
From S2P Require Import Prelude Json Doc Sample Action Model Builtins Entry Store StoreInv Text Cosign Invite Blob.
From S2P Require Import Engine EngineProps Sync Fs ReadModel Package PackageProps Update Processor Config ConfigProps.
From S2P Require Import Logs Status Daemon DaemonDrives Host Instances.

(** [init_logging]: the level the subscriber is set to. *)
Definition log_filter (level : string) : string :=
  if decide (level = "verbose") then "debug"
  else if decide (level = "debug") then "debug"
  else if decide (level = "info") then "info"
  else if decide (level = "warn") then "warn"
  else if decide (level = "error") then "error"
  else if decide (level = "silent") then "off"
  else level.

(** A valid configuration never takes the last arm of the table: its level is
    one of the five names the filter knows. *)
Lemma level_known `{Net} c :
  validate c = Ok tt -> log_filter (c_log_level c) ∈ ["debug"; "info"; "warn"; "error"; "off"].
Proof.
  intros (_ & _ & _ & Hl & _)%validate_ok. apply bool_decide_eq_true in Hl. revert Hl.
  generalize (c_log_level c). apply Forall_forall. apply (bool_decide_unpack _). vm_compute. exact I.
Qed.

Definition HANDOVER_GUARD : string := "PH_REACTOR_HANDED_OVER".

(** The token of [p2p.tokenEnv]. *)
Definition shared_token (os : Os) (c : ReactorConfig) : option string :=
  n ← pp_token_env (c_p2p c); v ← os_env os n; nonempty v.

Section Start.
Context `{Platform, Net} `{!NetText} `{JsonText} `{!Serde (list string)} `{!Serde (list Value)}
  `{!Serde (list ProcessorSpec)} `{!Keys}.
Context {W : Type}.

(** The models a store is opened with: the realistic ones, then every
    definition of the models file that is well-formed. *)
Definition seed_models (sp : StatePaths) : fsM (list AnyModel) :=
  defs ← load_all (models_file sp);
  mret (realistic_models ++
        omap (fun d => match from_def d with Ok l => Some (ML1 l) | Err _ => None end) defs).

(** The addresses that parse; a bad one is only warned about. *)
Definition parsed (raw : string) : option Multiaddr :=
  match addr_parse raw with Ok a => Some a | Err _ => None end.

(** What a start leads to. *)
Record Running := {
  ru_ctx : Ctx;
  ru_engine : SyncEngine;
  ru_updates : bool
}.
Inductive Launch :=
  | HandedOver (path : Path) (version : string)
  | Up (r : Running).

Record Machine := {
  mc_os : Os;
  mc_fresh : Keypair;             (** [Keypair::generate_ed25519] *)
  mc_exec : Path -> bool;         (** whether [exec] replaces the process *)
  mc_swarm : result string unit;  (** building the libp2p swarm *)
  mc_blobs : gmap N (list byte);  (** the chunks in the blob directory *)
  mc_mtime : option N;            (** of [config.json] *)
  mc_ms : N                       (** [now_ms] *)
}.

(** The staged binary that supersedes this one; a process that was itself
    handed over to stays. *)
Definition handover (mc : Machine) (path_from : string -> Path) (sp : StatePaths) (current : string) (fs : Fs) :
    option (Path * string) :=
  match staged_replacement (fun b => match json_parse b with Ok v => Some v | Err _ => None end)
          path_from (sp_root sp) current fs with
  | None => None
  | Some (path, version) =>
      if bool_decide (is_Some (os_env (mc_os mc) HANDOVER_GUARD)) then None
      else if mc_exec mc path then Some (path, version) else None
  end.

(** The identity of the node: the keypair and the key that signs documents. *)
Definition node_identity (mc : Machine) (sp : StatePaths) : hostM W (Keypair * SigningKey) :=
  kp ← context ("loading the identity key from " +:+ path_display (key_file sp))
         (on_fs (load_or_create_identity (mc_fresh mc) (key_file sp)));
  sk ← lift (signing_key kp);
  mret (kp, sk).

(** [Store::open_with_models] on the document directory, which the replay
    writes the index of. *)
Definition open_store (kp : Keypair) (sk : SigningKey) (seed : list AnyModel) : hostM W Inner :=
  _ ← on_fs fs_create_dir_all;
  d ← get_disk;
  let s := open_inner d sk (peer_id_of kp) seed in
  _ ← put_disk (i_disk s);
  mret s.

(** The peers of the ban list whose ids can be read. *)
Definition banned_peers (bans : gset string) : gset string :=
  list_to_set (omap (fun s => match peer_parse s with Ok p => Some p | Err _ => None end) (elements bans)).

(** The engine [run_inner] builds. *)
Definition build_engine (mc : Machine) (c : ReactorConfig) (kp : Keypair) (s : Inner) (listen : Multiaddr)
    (bans : gset string) : SyncEngine :=
  engine_new s (peer_id_of kp) (in_name (c_instance c)) listen
    (in_listen_ws (c_instance c) ≫= parsed) (omap parsed (in_external (c_instance c)))
    (mc_blobs mc) (pp_dht (c_p2p c)) (shared_token (mc_os mc) c) (banned_peers bans).

(** The command that seeds the DHT, sent before the context exists. *)
Definition bootstrap (c : ReactorConfig) (x : Ctx) : Ctx :=
  match omap parse_bootstrap (pp_bootstraps (c_p2p c)) with
  | [] => x
  | peers => send x (DhtBootstrap peers)
  end.

(** The first run writes the reference subscription. *)
Definition first_processors (mc : Machine) (sp : StatePaths) : fsM unit :=
  here ← fs_exists (processors_file sp);
  if (here : bool) then mret tt else save_specs (processors_file sp) [reference_spec (mc_ms mc)].

(** The context of the loop; of [World] it reads the modification time only. *)
Definition loop_context (mc : Machine) (sp : StatePaths) (config : ReactorConfig) (peer : PeerId) (s : Inner) :
    fsM Ctx := fun fs =>
  let x := ctx_new sp config peer s
             {| w_clock := fun _ => 0%N; w_id := 0%N; w_secs := os_secs (mc_os mc); w_seen := mc_mtime mc;
                w_saved := None; w_nonce := Ok [] |} fs in
  (x_fs x, Ok x).

(** [run_inner] from the lock to its loop. *)
Definition bring_up (mc : Machine) (sp : StatePaths) (config : ReactorConfig) : hostM W Running :=
  let os := mc_os mc in
  _ ← on_fs (acquire_lock os sp);
  _ ← context ("writing " +:+ path_display (daemon_pidfile sp))
        (on_fs (fs_write (daemon_pidfile sp) (pid_bytes (os_pid os))));
  '(kp, sk) ← node_identity mc sp;
  _ ← lift (public_key_bytes kp);
  listen ← context ("config instance.listen (" +:+ in_listen (c_instance config) +:+ ")")
             (lift (addr_parse (in_listen (c_instance config))));
  _ ← lift (check_listen_port os listen);
  _ ← lift (check_settings_port os (st_host (c_settings config)) (st_port (c_settings config)));
  seed ← on_fs (seed_models sp);
  s ← open_store kp sk seed;
  bans ← on_fs (load_bans sp);
  _ ← on_fs fs_create_dir_all;
  _ ← context "building the p2p engine" (lift (mc_swarm mc));
  let engine := build_engine mc config kp s listen bans in
  _ ← on_fs (first_processors mc sp);
  _ ← context ("starting the settings server on " +:+ st_host (c_settings config) +:+ ":"
                 +:+ pretty (st_port (c_settings config)))
        (lift (os_bind os (st_host (c_settings config)) (st_port (c_settings config))));
  x ← on_fs (loop_context mc sp config (peer_id_of kp) s);
  _ ← on_fs (fs_ignore (fs_write (ready_file sp) (pid_bytes (os_pid os))));
  fs ← get_fs;
  mret {| ru_ctx := seed_drives (put_fs (bootstrap config x) fs);
          ru_engine := engine; ru_updates := up_check (c_update config) |}.

(** [run_inner] up to its loop. *)
Definition run_inner (mc : Machine) (path_from : string -> Path) (current : string)
    (state_dir : option Path) (dflt : Path) : hostM W Launch :=
  let sp := for_root (root state_dir dflt) in
  _ ← context ("creating " +:+ path_display (sp_root sp)) (on_fs (ensure_dirs sp));
  config ← on_fs (fs_map_err config_error_text (load sp (os_secs (mc_os mc))));
  fs ← get_fs;
  match handover mc path_from sp current fs with
  | Some (path, version) => mret (HandedOver path version)
  | None => r ← bring_up mc sp config; mret (Up r)
  end.

(** The end of [run_inner]: the engine is told to shut down, the ready file and
    the pid file go. *)
Definition shut_down (x : Ctx) : Ctx :=
  let x := send x Shutdown in
  let x := (run_fs x (remove_ready (x_paths x))).1 in
  (run_fs x (fs_ignore (F := string) (fs_remove (daemon_pidfile (x_paths x))))).1.
End Start.

(** ** A start *)

Section StartProps.
Context `{Platform, Net} `{!NetText} `{JsonText} `{!Serde (list string)} `{!Serde (list Value)}
  `{!Serde (list ProcessorSpec)} `{!Keys} `{!KeysLaws}.
Context {W : Type}.
Implicit Types (f : gmap Path (list byte)) (h : Host W).

(** A handover goes to a binary of a newer version that is there, and never
    from a process that was handed over to. *)
Lemma handover_forward mc path_from sp current fs path version :
  handover mc path_from sp current fs = Some (path, version) ->
  Update.compare version current = Some Gt /\ is_Some (fs_files fs !! path) /\
  os_env (mc_os mc) HANDOVER_GUARD = None.
Proof.
  unfold handover. destruct (staged_replacement _ _ _ _ _) as [[p v]|] eqn:E; [|done].
  case_bool_decide as Hg; [done|]. destruct (mc_exec mc p); [|done]. intros [= -> ->].
  apply eq_None_not_Some in Hg. split_and!; [..|done]; unfold staged_replacement in E;
    repeat (apply bind_Some in E as (? & _ & E));
    case_bool_decide as Hf; try done; destruct (Update.compare _ current) as [[]|] eqn:Ec; by simplify_eq.
Qed.

(** ** The files of a start *)

(** The directory a host works on, with no failing call ahead. *)
Definition on_disk h f d : Prop := ho_fs h = disk f /\ ho_disk h = d.

Lemma identity_calm fresh seed path f :
  secret_bytes fresh = Ok seed ->
  (forall b, f !! path = Some b -> length b = 32 -> is_ok (ed25519_from_bytes b) = true) ->
  exists f' kp, load_or_create_identity fresh path (disk f) = (disk f', Ok kp) /\
    (forall q, q <> path -> f' !! q = f !! q) /\
    (forall b, f !! path = Some b -> length b = 32 -> ed25519_from_bytes b = Ok kp).
Proof.
  intros Hs Hv. unfold load_or_create_identity. rewrite fs_run_bind. unfold fs_try, fs_read, next_outcome.
  cbn [fs_sched fs_files].
  assert (Hc : create_identity fresh path (disk f) = (disk (<[path := seed]> f), Ok fresh)).
  { unfold create_identity. rewrite fs_run_bind. unfold fs_of. cbn [fst snd]. by rewrite Hs. }
  destruct (f !! path) as [b|] eqn:Eb; cbn [fst snd].
  - case_bool_decide as Hl.
    + unfold fs_of. specialize (Hv b eq_refl Hl). destruct (ed25519_from_bytes b) as [kp|] eqn:Ek; [|done].
      exists f, kp. split_and!; [done..|]. by intros ? [= <-].
    + exists (<[path := seed]> f), fresh. split_and!; [done| |by intros ? [= <-]]. intros q Hq. by rewrite lookup_insert_ne.
  - exists (<[path := seed]> f), fresh. split_and!; [done| |done]. intros q Hq. by rewrite lookup_insert_ne.
Qed.

Lemma seed_models_calm sp f :
  seed_models sp (disk f) = (disk f, Ok (realistic_models ++
    omap (fun d => match from_def d with Ok l => Some (ML1 l) | Err _ => None end)
      (defs_in (disk f) (models_file sp)))).
Proof. unfold seed_models. by rewrite fs_run_bind, load_all_calm. Qed.

Lemma load_bans_calm sp f : exists b, load_bans sp (disk f) = (disk f, Ok b).
Proof.
  unfold load_bans. rewrite fs_run_bind. unfold fs_try, fs_read_to_string. rewrite fs_run_bind.
  unfold fs_read, next_outcome. cbn [fs_sched fs_files]. destruct (f !! bans_file sp) as [raw|]; cbn [fst snd].
  - destruct (utf8_ok raw); cbn; by eexists.
  - by eexists.
Qed.

Lemma first_processors_calm mc sp f :
  exists f', first_processors mc sp (disk f) = (disk f', Ok tt) /\
    forall q, q <> processors_file sp -> f' !! q = f !! q.
Proof.
  unfold first_processors. rewrite fs_run_bind. unfold fs_exists. cbn [fst snd fs_files].
  case_bool_decide; [by exists f|]. eexists. split; [reflexivity|]. intros q Hq. cbn. by rewrite lookup_insert_ne.
Qed.

(** ** The drives of a start *)

Lemma seed_drives_told l x :
  x_engine_up x = true -> NoDup (names l) -> Forall (fun d => is_ok (addr_parse (dr_addr d)) = true) l ->
  let x' := foldl seed_drive x l in
  tells ∅ x (drives_map l) x' /\ x_engine_up x' = true /\ x_config x' = x_config x /\ x_paths x' = x_paths x /\
  x_fs x' = x_fs x /\ x_store x' = x_store x /\ x_engine_drives x' = x_engine_drives x ++ names l.
Proof.
  cbn zeta. induction l as [|d l IH] using rev_ind; intros Hu Hnd Hp.
  { split; [by apply tells_same|]. unfold names. cbn. by rewrite app_nil_r. }
  apply Forall_app in Hp as [Hp [Hd _]%Forall_cons_1]. unfold names in Hnd |- *.
  rewrite fmap_app in Hnd |- *. apply NoDup_app in Hnd as (Hnd & Hdis & _). rewrite foldl_snoc.
  destruct IH as (T & U & C & P & F & S & D); [done..|]. set (x1 := foldl seed_drive x l) in *.
  unfold seed_drive, drive_of. destruct (addr_parse (dr_addr d)) as [a|]; [|done].
  set (x2 := put_engine_drives x1 (x_engine_drives x1 ++ [dr_name d])).
  match goal with |- context [send x2 ?c] => set (cmd := c) end.
  assert (Es : send x2 cmd = put_sent x2 (x_sent x2 ++ [cmd])) by (unfold send; by rewrite (U : x_engine_up x2 = true)).
  rewrite drives_map_snoc. 2:{ intros Hin. destruct (Hdis (dr_name d) Hin). apply list_elem_of_here. }
  split; [|rewrite Es; cbn; rewrite D, app_assoc; by split_and!].
  eapply tells_trans; [exact T|]. exact (tells_send (drives_map l) x2 cmd U).
Qed.

(** ** Coming up *)

(** Stepping through a start. *)
Lemma on_fs_disk {A} (m : fsM A) h f d f' a :
  on_disk h f d -> m (disk f) = (disk f', Ok a) -> exists h', on_fs m h = (h', Ok a) /\ on_disk h' f' d.
Proof. intros [E1 E2] Em. unfold on_fs. rewrite E1, Em. cbn [fst snd]. by eexists. Qed.
Lemma context_ok {A} text (m : hostM W A) h h' a : m h = (h', Ok a) -> context text m h = (h', Ok a).
Proof. unfold context. by intros ->. Qed.
Lemma host_bind_ok {A B} (m : hostM W A) (k : A -> hostM W B) h h' a :
  m h = (h', Ok a) -> (x ← m; k x) h = k a h'.
Proof. intros E. by rewrite host_run_bind, E. Qed.

(** A machine on which a daemon can start: the lock and the ports are free, the
    engine can be built, and keys are ed25519 keys. *)
Record able mc sp f : Prop := {
  ab_lock : os_flock (mc_os mc) = Ok tt;
  ab_ports : forall ip port, os_bind (mc_os mc) ip port = Ok tt;
  ab_swarm : mc_swarm mc = Ok tt;
  ab_secret : forall kp : Keypair, is_ok (secret_bytes kp) = true;
  ab_public : forall kp : Keypair, is_ok (public_bytes kp) = true;
  ab_file : forall b, f !! key_file sp = Some b -> length b = 32 -> is_ok (ed25519_from_bytes b) = true
}.

Lemma acquire_lock_calm os sp f :
  os_flock os = Ok tt ->
  exists f', acquire_lock os sp (disk f) = (disk f', Ok tt) /\ forall q, q <> lock_file sp -> f' !! q = f !! q.
Proof.
  intros Hl. eexists. split; [unfold acquire_lock; rewrite fs_run_bind; unfold fs_map_err, open_lock; cbn;
    by rewrite Hl|]. intros q Hq. cbn. by rewrite lookup_insert_ne.
Qed.

(** The identity of the key file, when it holds one. *)
Definition keyed sp f (kp : Keypair) (sk : SigningKey) : Prop :=
  (forall b, f !! key_file sp = Some b -> length b = 32 -> ed25519_from_bytes b = Ok kp) /\ signing_key kp = Ok sk.

Lemma node_identity_calm mc sp h f d :
  able mc sp f -> on_disk h f d ->
  exists h' f' kp sk, node_identity mc sp h = (h', Ok (kp, sk)) /\ on_disk h' f' d /\
    (forall q, q <> key_file sp -> f' !! q = f !! q) /\ keyed sp f kp sk.
Proof.
  intros [_ _ _ Hs _ Hv] Hd. pose proof (Hs (mc_fresh mc)) as Hseed.
  destruct (secret_bytes (mc_fresh mc)) as [seed|] eqn:Eseed; [|done].
  destruct (identity_calm (mc_fresh mc) seed (key_file sp) f Eseed Hv) as (f' & kp & E & Hf & Hb).
  destruct (on_fs_disk _ h f d f' kp Hd E) as (h' & Eh & Hd').
  specialize (Hs kp). destruct (secret_bytes kp) as [b|] eqn:Eb; [|done].
  assert (Esk : signing_key kp = Ok (signing_from_bytes b)) by (unfold signing_key; by rewrite Eb).
  exists h', f', kp, (signing_from_bytes b). split; [|by split_and!]. unfold node_identity.
  rewrite (host_bind_ok _ _ _ _ _ (context_ok _ _ _ _ _ Eh)). host_step. unfold lift. by rewrite Esk.
Qed.

Lemma open_store_calm kp sk seed h f d :
  on_disk h f d ->
  exists h', open_store kp sk seed h = (h', Ok (open_inner d sk (peer_id_of kp) seed)) /\
    on_disk h' f (i_disk (open_inner d sk (peer_id_of kp) seed)).
Proof.
  intros Hd. destruct (on_fs_disk fs_create_dir_all h f d f tt Hd eq_refl) as (h1 & E1 & [D1 D2]).
  unfold open_store. rewrite (host_bind_ok _ _ _ _ _ E1). host_step. unfold get_disk. cbn [fst snd].
  host_step. rewrite D2. unfold put_disk. by eexists.
Qed.

(** The context the loop starts with, for any set of bans. *)
Lemma loop_context_calm mc sp config peer s f :
  exists x, loop_context mc sp config peer s (disk f) = (disk f, Ok x) /\ x_engine_up x = true /\
    x_sent x = [] /\ x_engine_drives x = [] /\ x_config x = config /\ x_paths x = sp /\ x_store x = s.
Proof.
  destruct (load_bans_calm sp f) as [b E]. unfold loop_context, ctx_new. rewrite E. by eexists.
Qed.

Lemma listed_paths r :
  let sp := for_root r in
  daemon_pidfile sp <> lock_file sp /\ daemon_pidfile sp <> key_file sp /\ models_file sp <> lock_file sp /\
  models_file sp <> daemon_pidfile sp /\ models_file sp <> key_file sp /\
  daemon_pidfile sp <> processors_file sp /\ daemon_pidfile sp <> ready_file sp /\ lock_file sp <> key_file sp.
Proof.
  cbn. unfold daemon_pidfile, lock_file, key_file, models_file, processors_file, ready_file, for_root, run_dir, sp_root, join.
  rewrite <- !app_assoc. cbn. split_and!; by intros [=]%(inj (app r)).
Qed.

(** The models a start registers, from the files it finds. *)
Definition models_of sp f : list AnyModel :=
  realistic_models ++ omap (fun d => match from_def d with Ok l => Some (ML1 l) | Err _ => None end)
                        (defs_in (disk f) (models_file sp)).

(** The first half of [bring_up]: lock, pid file, identity, ports, store. *)
Lemma bring_up_opens mc r config h f d :
  let sp := for_root r in
  able mc sp f -> on_disk h f d -> is_ok (addr_parse (in_listen (c_instance config))) = true ->
  exists h' f' kp sk listen, let s := open_inner d sk (peer_id_of kp) (models_of sp f) in
    on_disk h' f' (i_disk s) /\ f' !! daemon_pidfile sp = Some (pid_bytes (os_pid (mc_os mc))) /\
    keyed sp f kp sk /\ bring_up mc sp config h =
      (bans ← on_fs (load_bans sp);
       _ ← on_fs fs_create_dir_all;
       _ ← context "building the p2p engine" (lift (mc_swarm mc));
       _ ← on_fs (first_processors mc sp);
       _ ← context ("starting the settings server on " +:+ st_host (c_settings config) +:+ ":"
                      +:+ pretty (st_port (c_settings config)))
             (lift (os_bind (mc_os mc) (st_host (c_settings config)) (st_port (c_settings config))));
       x ← on_fs (loop_context mc sp config (peer_id_of kp) s);
       _ ← on_fs (fs_ignore (fs_write (ready_file sp) (pid_bytes (os_pid (mc_os mc)))));
       fs ← get_fs;
       mret {| ru_ctx := seed_drives (put_fs (bootstrap config x) fs);
               ru_engine := build_engine mc config kp s listen bans; ru_updates := up_check (c_update config) |}) h'.
Proof.
  intros sp Hab Hd Hl. pose proof Hab as [Al Ap Aw As Au Af].
  destruct (listed_paths r) as (P1 & P2 & P3 & P4 & P5 & P6 & P7 & P8).
  destruct (acquire_lock_calm (mc_os mc) sp f Al) as (f1 & E1 & F1).
  destruct (on_fs_disk _ h f d f1 tt Hd E1) as (h1 & R1 & D1).
  destruct (on_fs_disk (fs_write (daemon_pidfile sp) (pid_bytes (os_pid (mc_os mc)))) h1 f1 d _ tt D1 eq_refl)
    as (h2 & R2 & D2). cbn [fs_files] in D2.
  set (f2 := <[daemon_pidfile sp := pid_bytes (os_pid (mc_os mc))]> f1) in D2.
  assert (Hab2 : able mc sp f2).
  { split; [done..|]. unfold f2. rewrite lookup_insert_ne by done. rewrite F1 by done. exact Af. }
  destruct (node_identity_calm mc sp h2 f2 d Hab2 D2) as (h3 & f3 & kp & sk & R3 & D3 & F3 & K3).
  destruct (on_fs_disk (seed_models sp) h3 f3 d f3 _ D3 (seed_models_calm sp f3)) as (h4 & R4 & D4).
  assert (Em : defs_in (disk f3) (models_file sp) = defs_in (disk f) (models_file sp)).
  { unfold defs_in. cbn [fs_files]. rewrite F3 by done. unfold f2. rewrite lookup_insert_ne by done. by rewrite F1. }
  destruct (open_store_calm kp sk (models_of sp f) h4 f3 d D4) as (h5 & R5 & D5).
  specialize (Au kp). destruct (public_bytes kp) as [pb|] eqn:Epb; [|done].
  destruct (addr_parse (in_listen (c_instance config))) as [listen|] eqn:Ea; [|done].
  assert (Hport : check_listen_port (mc_os mc) listen = Ok tt).
  { unfold check_listen_port. destruct (last_ip (addr_iter listen)), (last_port (addr_iter listen)); try done.
    by rewrite Ap. }
  exists h5, f3, kp, sk, listen. split_and!; [done|..].
  { rewrite F3 by done. apply lookup_insert_eq. }
  { unfold keyed in *. unfold f2 in K3. rewrite lookup_insert_ne, F1 in K3 by done. done. }
  unfold bring_up. rewrite (host_bind_ok _ _ _ _ _ R1), (host_bind_ok _ _ _ _ _ (context_ok _ _ _ _ _ R2)).
  rewrite (host_bind_ok _ _ _ _ _ R3). cbn iota beta. unfold public_key_bytes. rewrite Epb.
  rewrite (host_bind_ok (lift (Ok pb)) _ h3 h3 pb eq_refl). rewrite Ea.
  rewrite (host_bind_ok _ _ h3 h3 listen (context_ok _ (lift (Ok listen)) h3 h3 listen eq_refl)). rewrite Hport.
  rewrite (host_bind_ok (lift (Ok tt)) _ h3 h3 tt eq_refl). unfold check_settings_port at 1. rewrite Ap.
  rewrite (host_bind_ok (lift (Ok tt)) _ h3 h3 tt eq_refl).
  rewrite (host_bind_ok _ _ _ _ _ R4), Em. by rewrite (host_bind_ok _ _ _ _ _ R5).
Qed.

(** The commands sent before the loop: the seed of the DHT and the drives. *)
Lemma start_drives config x fs :
  x_engine_up x = true -> x_sent x = [] -> x_engine_drives x = [] -> x_config x = config ->
  unique (c_drives config) -> Forall (fun d => is_ok (addr_parse (dr_addr d)) = true) (c_drives config) ->
  let x' := seed_drives (put_fs (bootstrap config x) fs) in
  foldl told_step ∅ (x_sent x') = drives_map (c_drives config) /\ x_engine_up x' = true /\
  x_config x' = config /\ x_paths x' = x_paths x /\ x_store x' = x_store x /\
  x_engine_drives x' = names (c_drives config).
Proof.
  cbn zeta. intros Hu Hs He Hc Hq Hp. set (x1 := put_fs (bootstrap config x) fs).
  assert (B : x_engine_up x1 = true /\ x_config x1 = config /\ x_paths x1 = x_paths x /\
              x_store x1 = x_store x /\ x_engine_drives x1 = [] /\ foldl told_step ∅ (x_sent x1) = ∅).
  { unfold x1, bootstrap, send. destruct (omap parse_bootstrap _); cbn; rewrite ?Hu; cbn; rewrite ?Hs; by split_and!. }
  destruct B as (B1 & B2 & B3 & B4 & B5 & B6). unfold seed_drives. rewrite B2.
  destruct (seed_drives_told (c_drives config) x1 B1 (unique_names _ Hq) Hp) as ((cs & E1 & E2) & U & C & P & _ & S & D).
  rewrite E1, foldl_app, B6, E2, U, C, P, S, D, B2, B3, B4, B5. by split_and!.
Qed.

(** The whole of [bring_up]. *)
Lemma bring_up_ready mc r config h f d :
  let sp := for_root r in
  able mc sp f -> on_disk h f d -> validate config = Ok tt -> unique (c_drives config) ->
  exists h' ru kp sk, bring_up mc sp config h = (h', Ok ru) /\
    in_step (ru_ctx ru) /\ keyed sp f kp sk /\
    x_store (ru_ctx ru) = open_inner d sk (peer_id_of kp) (models_of sp f) /\
    g_store (ru_engine ru) = x_store (ru_ctx ru) /\ ho_disk h' = i_disk (x_store (ru_ctx ru)) /\
    (forall now connected random,
       engine_paused (foldl (fun g c => handle_cmd g now connected random c) (ru_engine ru) (x_sent (ru_ctx ru)))
       = drives_map (c_drives (x_config (ru_ctx ru)))) /\
    fs_files (ho_fs h') !! daemon_pidfile sp = Some (pid_bytes (os_pid (mc_os mc))) /\
    fs_files (ho_fs h') !! ready_file sp = Some (pid_bytes (os_pid (mc_os mc))).
Proof.
  intros sp Hab Hd Hv Hq. apply validate_ok in Hv as (_ & Hl & Hp%validate_drives_parsed & _).
  destruct (bring_up_opens mc r config h f d Hab Hd Hl) as (h5 & f5 & kp & sk & listen & D5 & Fp & K & E).
  fold sp in D5, Fp, E. rewrite E. clear E. set (s := open_inner d sk (peer_id_of kp) (models_of sp f)) in *.
  destruct (listed_paths r) as (_ & _ & _ & _ & _ & P6 & P7 & _). destruct Hab as [_ Ap Aw _ _ _].
  destruct (load_bans_calm sp f5) as [bans Eb]. destruct (on_fs_disk _ h5 f5 _ f5 bans D5 Eb) as (h6 & R6 & D6).
  destruct (on_fs_disk fs_create_dir_all h6 f5 _ f5 tt D6 eq_refl) as (h7 & R7 & D7).
  destruct (first_processors_calm mc sp f5) as (f8 & E8 & F8).
  destruct (on_fs_disk _ h7 f5 _ f8 tt D7 E8) as (h8 & R8 & D8).
  destruct (loop_context_calm mc sp config (peer_id_of kp) s f8) as (x & Ex & X1 & X2 & X3 & X4 & X5 & X6).
  destruct (on_fs_disk _ h8 f8 _ f8 x D8 Ex) as (h9 & R9 & D9).
  destruct (on_fs_disk (fs_ignore (fs_write (ready_file sp) (pid_bytes (os_pid (mc_os mc))))) h9 f8 _ _ tt D9 eq_refl)
    as (h10 & R10 & D10). cbn [fst fs_files] in D10.
  rewrite (host_bind_ok _ _ _ _ _ R6), (host_bind_ok _ _ _ _ _ R7). rewrite Aw.
  rewrite (host_bind_ok _ _ h7 h7 tt (context_ok _ (lift (Ok tt)) h7 h7 tt eq_refl)).
  rewrite (host_bind_ok _ _ _ _ _ R8). rewrite Ap.
  rewrite (host_bind_ok _ _ h8 h8 tt (context_ok _ (lift (Ok tt)) h8 h8 tt eq_refl)).
  rewrite (host_bind_ok _ _ _ _ _ R9), (host_bind_ok _ _ _ _ _ R10).
  rewrite (host_bind_ok get_fs _ h10 h10 (ho_fs h10) eq_refl).
  destruct (start_drives config x (ho_fs h10) X1 X2 X3 X4 Hq Hp) as (T & U & C & P & S & D).
  destruct D10 as [Df Dd]. eexists h10, _, kp, sk. split; [reflexivity|]. cbn [ru_ctx ru_engine].
  rewrite S, X6, Dd. split_and!; try done.
  - split; [done|by exists r; rewrite P, X5| |by rewrite C|by rewrite C]. intros n. by rewrite D, C.
  - intros now c rnd. rewrite engine_executes, C. exact T.
  - rewrite Df. cbn [fs_files]. rewrite lookup_insert_ne by done. by rewrite F8.
  - rewrite Df. cbn [fs_files]. apply lookup_insert_eq.
Qed.

(** C13. A daemon that starts comes up in step.  On a machine where it can
    start, with a valid configuration, no failing file call and no newer binary
    to hand over to, [run_inner] reaches its loop.  The store is the replay of
    the document directory under every model that was ever registered, with the
    identity of the key file, and is the engine's store; once the engine has
    executed what it was sent it holds exactly the configured drives with their
    pause flags, as the daemon believes; and the pid and ready files name this
    process.  So the invariant that every later turn of the daemon keeps holds
    from the start. *)
Theorem start_ready mc path_from current r dflt config h f d :
  let sp := for_root r in
  able mc sp f -> on_disk h f d -> load sp (os_secs (mc_os mc)) (disk f) = (disk f, Ok config) ->
  validate config = Ok tt -> unique (c_drives config) -> handover mc path_from sp current (disk f) = None ->
  exists h' ru kp sk, run_inner mc path_from current (Some r) dflt h = (h', Ok (Up ru)) /\
    in_step (ru_ctx ru) /\ keyed sp f kp sk /\
    x_store (ru_ctx ru) = open_inner d sk (peer_id_of kp) (models_of sp f) /\
    g_store (ru_engine ru) = x_store (ru_ctx ru) /\ ho_disk h' = i_disk (x_store (ru_ctx ru)) /\
    (forall now connected random,
       engine_paused (foldl (fun g c => handle_cmd g now connected random c) (ru_engine ru) (x_sent (ru_ctx ru)))
       = drives_map (c_drives (x_config (ru_ctx ru)))) /\
    fs_files (ho_fs h') !! daemon_pidfile sp = Some (pid_bytes (os_pid (mc_os mc))) /\
    fs_files (ho_fs h') !! ready_file sp = Some (pid_bytes (os_pid (mc_os mc))).
Proof.
  intros sp Hab Hd Hl Hv Hq Hn.
  destruct (on_fs_disk (ensure_dirs sp) h f d f tt Hd eq_refl) as (h1 & R1 & D1).
  destruct (on_fs_disk (fs_map_err config_error_text (load sp (os_secs (mc_os mc)))) h1 f d f config D1)
    as (h2 & R2 & D2); [unfold fs_map_err; by rewrite Hl|].
  destruct (bring_up_ready mc r config h2 f d Hab D2 Hv Hq) as (h' & ru & kp & sk & E & Hr).
  exists h', ru, kp, sk. split; [|exact Hr]. unfold run_inner. cbn [root default].
  rewrite (host_bind_ok _ _ _ _ _ (context_ok _ _ _ _ _ R1)), (host_bind_ok _ _ _ _ _ R2).
  rewrite (host_bind_ok get_fs _ h2 h2 (ho_fs h2) eq_refl). destruct D2 as [E2 _].
  replace (handover _ _ _ _ (ho_fs h2)) with (@None (Path * string)) by (symmetry; by rewrite E2).
  by rewrite (host_bind_ok _ _ _ _ _ E).
Qed.

(** A shutdown removes the files that announce the daemon and tells the engine. *)
Lemma remove_calm p f : (fs_ignore (F := string) (fs_remove p) (disk f)).1 = disk (delete p f).
Proof.
  unfold fs_ignore, fs_remove, next_outcome. cbn [fs_sched fs_files].
  destruct (f !! p) eqn:E; [done|]. cbn. by rewrite (delete_id _ _ E).
Qed.
Lemma shut_down_clean x f r :
  x_fs x = disk f -> x_paths x = for_root r -> x_engine_up x = true ->
  x_sent (shut_down x) = x_sent x ++ [Shutdown] /\
  x_fs (shut_down x) = disk (delete (daemon_pidfile (for_root r)) (delete (ready_file (for_root r)) f)).
Proof.
  intros Hf Hp Hu. unfold shut_down, run_fs, send. rewrite Hu. split; [done|].
  cbn [fst x_fs put_fs x_paths put_sent]. rewrite Hp, Hf. unfold remove_ready. by rewrite !remove_calm.
Qed.
End StartProps.

(** ** A node that starts *)

Module StartSample.
Import ConfigSample DaemonSample KeySample.
#[export] Instance no_specs : Serde (list ProcessorSpec) := {| to_json := fun _ => []; from_json := fun _ => Err "" |}.
Definition free_os : Os :=
  {| os_pid := 4711; os_secs := 9; os_env := fun _ => None; os_alive := fun _ => false; os_flock := Ok tt;
     os_bind := fun _ _ => Ok tt |}.
Definition plain_machine (os : Os) : Machine :=
  {| mc_os := os; mc_fresh := new_key; mc_exec := fun _ => false; mc_swarm := Ok tt; mc_blobs := ∅;
     mc_mtime := None; mc_ms := 5 |}.
Definition empty_host : Host unit :=
  {| ho_fs := disk {[key_file (for_root state) := old_bytes]}; ho_disk := empty_disk; ho_world := tt; ho_out := [];
     ho_err := [] |}.
End StartSample.
Import ConfigSample DaemonSample KeySample StartSample.

Definition started_files : gmap Path (list byte) :=
  {[key_file (for_root state) := old_bytes; config_file (for_root state) := render one_drive]}.
Definition start_host : Host unit :=
  {| ho_fs := disk started_files; ho_disk := empty_disk; ho_world := tt; ho_out := []; ho_err := [] |}.
Lemma started_config : load (for_root state) 9 (disk started_files) = (disk started_files, Ok one_drive).
Proof.
  unfold load. rewrite fs_run_bind. rewrite (load_quiet_text state 9 started_files (render one_drive) one_drive); [done|..].
  - vm_compute. reflexivity.
  - apply json_text_utf8.
  - unfold render. rewrite json_text_roundtrip. vm_compute. reflexivity.
  - vm_compute. reflexivity.
Qed.
Lemma start_ready_witness :
  exists h' ru, run_inner (plain_machine free_os) (fun s => [s]) "1.0.0" (Some state) [] start_host = (h', Ok (Up ru)) /\
    in_step (ru_ctx ru) /\
    fs_files (ho_fs h') !! daemon_pidfile (for_root state) = Some (as_bytes "4711").
Proof.
  destruct (start_ready (plain_machine free_os) (fun s => [s]) "1.0.0" state [] one_drive start_host
              started_files empty_disk)
    as (h' & ru & kp & sk & E & Hs & _ & _ & _ & _ & _ & Hp & _).
  - split; [done..|]. intros b Hb _. assert (b = old_bytes) as -> by (vm_compute in Hb |- *; congruence).
    vm_compute. reflexivity.
  - done.
  - exact started_config.
  - vm_compute. reflexivity.
  - unfold unique. cbn. apply NoDup_singleton.
  - vm_compute. reflexivity.
  - exists h', ru. split_and!; [exact E|exact Hs|exact Hp].
Defined.

(** A start that fails on a busy port leaves its pid file behind. *)
Definition busy_os : Os :=
  {| os_pid := 4711; os_secs := 9; os_env := fun _ => None; os_alive := fun _ => true; os_flock := Ok tt;
     os_bind := fun _ _ => Err "Address already in use" |}.
Lemma failed_start_leaves_pid :
  let out := bring_up (plain_machine busy_os) (for_root state) one_drive empty_host in
  is_ok out.2 = false /\
  fs_files (ho_fs out.1) !! daemon_pidfile (for_root state) = Some (as_bytes "4711") /\
  (daemon_is_running busy_os (daemon_pidfile (for_root state)) (ho_fs out.1)).2 = Ok true.
Proof. by vm_compute. Qed.
