(* ===== verification/Api.v ===== *)
(** What travels between the command line and the settings server: the status
    snapshot as JSON (src/status.rs, the contract of [status --json]), and the
    bodies and paths of the requests the command line makes, as the server
    reads them (src/settings/mod.rs). *)

From stdpp Require Import base gmap strings numbers pretty list.
From Stdlib Require Import Strings.Byte Strings.Ascii.
From S2P Require Import Prelude Json Doc Sample Action Model Store Text Cosign Invite Blob Engine Fs ReadModel.
From S2P Require Import Package Update Processor Status Config ConfigProps Daemon Web Offers Server.

(** A field that must be there. *)
Definition required {A} (v : Value) (i : nat) (k : string) (de : Value -> result string A) : result string A :=
  x ← de_field v i k (fun x => Some <$> de x) None;
  ok_or x ("missing field `" +:+ k +:+ "`").
Definition de_nat (v : Value) : result string nat := N.to_nat <$> de_uint (U64_MOD - 1) v.
Definition de_value (v : Value) : result string Value := Ok v.
Definition de_map (v : Value) : result string (gmap string Value) :=
  match v with Object m => Ok (list_to_map m) | _ => Err "invalid type: expected a map" end.

(** ** The status snapshot *)

Definition group_summary_json (g : GroupSummary) : Value :=
  json_obj [("name", Str (gs_name g)); ("members", Number (Z.of_nat (gs_members g)));
            ("messages", Number (Z.of_nat (gs_messages g)))].
Definition reactor_json (r : ReactorStatus) : Value :=
  json_obj [("running", Bool (rs_running r)); ("healthy", Bool (rs_healthy r)); ("peer_id", opt_json (rs_peer_id r));
            ("listen", Str (rs_listen r)); ("docs", Number (Z.of_N (rs_docs r)));
            ("last_event", opt_json (rs_last_event r)); ("active_drives", Number (Z.of_nat (rs_active_drives r)));
            ("last_doc", opt_json (rs_last_doc r))].
Definition drive_entry_json (d : DriveStatusEntry) : Value :=
  json_obj [("name", Str (ds_name d)); ("addr", Str (ds_addr d)); ("paused", Bool (ds_paused d));
            ("status", Str (ds_status d)); ("detail", Str (ds_detail d))].
Definition status_json (s : StatusSnapshot) : Value :=
  json_obj [("version", Str (sn_version s)); ("reactor", reactor_json (sn_reactor s));
            ("drives", Array (drive_entry_json <$> sn_drives s)); ("bans", json_strs (sn_bans s));
            ("settings", json_obj [("url", Str (ss_url (sn_settings s)))]);
            ("groups", Array (group_summary_json <$> sn_groups s)); ("updated_at", Str (sn_updated_at s))].

Definition de_group_summary (v : Value) : result string GroupSummary :=
  _ ← de_struct 3 v;
  n ← required v 0 "name" de_string; m ← required v 1 "members" de_nat; g ← required v 2 "messages" de_nat;
  Ok {| gs_name := n; gs_members := m; gs_messages := g |}.
Definition de_reactor (v : Value) : result string ReactorStatus :=
  _ ← de_struct 8 v;
  r ← required v 0 "running" de_bool; h ← required v 1 "healthy" de_bool;
  p ← de_field v 2 "peer_id" (de_option de_string) None; l ← required v 3 "listen" de_string;
  d ← required v 4 "docs" (de_uint (U64_MOD - 1)); e ← de_field v 5 "last_event" (de_option de_string) None;
  a ← de_field v 6 "active_drives" de_nat 0; o ← de_field v 7 "last_doc" (de_option de_string) None;
  Ok {| rs_running := r; rs_healthy := h; rs_peer_id := p; rs_listen := l; rs_docs := d; rs_last_event := e;
        rs_active_drives := a; rs_last_doc := o |}.
Definition de_drive_entry (v : Value) : result string DriveStatusEntry :=
  _ ← de_struct 5 v;
  n ← required v 0 "name" de_string; a ← required v 1 "addr" de_string; p ← required v 2 "paused" de_bool;
  s ← required v 3 "status" de_string; d ← required v 4 "detail" de_string;
  Ok {| ds_name := n; ds_addr := a; ds_paused := p; ds_status := s; ds_detail := d |}.
Definition de_settings_status (v : Value) : result string SettingsStatus :=
  _ ← de_struct 1 v; u ← required v 0 "url" de_string; Ok {| ss_url := u |}.
Definition status_of_json (v : Value) : result string StatusSnapshot :=
  _ ← de_struct 7 v;
  n ← required v 0 "version" de_string; r ← required v 1 "reactor" de_reactor;
  d ← required v 2 "drives" (de_vec de_drive_entry); b ← de_field v 3 "bans" (de_vec de_string) [];
  s ← required v 4 "settings" de_settings_status; g ← de_field v 5 "groups" (de_vec de_group_summary) [];
  u ← required v 6 "updated_at" de_string;
  Ok {| sn_version := n; sn_reactor := r; sn_drives := d; sn_bans := b; sn_settings := s; sn_groups := g;
        sn_updated_at := u |}.

(** Counts that fit their type. *)
Definition small (n : nat) : Prop := (N.of_nat n < U64_MOD)%N.
Record status_wf (s : StatusSnapshot) : Prop := {
  sw_docs : (rs_docs (sn_reactor s) < U64_MOD)%N;
  sw_active : small (rs_active_drives (sn_reactor s));
  sw_groups : Forall (fun g => small (gs_members g) /\ small (gs_messages g)) (sn_groups s)
}.

Lemma de_nat_small n : small n -> de_nat (Number (Z.of_nat n)) = Ok n.
Proof.
  intros Hn. unfold de_nat, de_uint. unfold small in Hn.
  rewrite (proj2 (Z.leb_le _ _)), (proj2 (Z.leb_le _ _)) by lia. cbn. f_equal. lia.
Qed.

(** Reading a field of an object. *)
Lemma field_ok {A} v i k (de : Value -> result string A) d x a :
  vget v k = Some x -> de x = Ok a -> de_field v i k de d = Ok a.
Proof. intros E <-. destruct v as [| | | | |m]; try done. cbn in E. unfold de_field. by rewrite E. Qed.
Lemma required_ok {A} v i k (de : Value -> result string A) x a :
  vget v k = Some x -> de x = Ok a -> required v i k de = Ok a.
Proof.
  intros E Ea. unfold required. erewrite field_ok; [|exact E|cbn; by rewrite Ea]. done.
Qed.
Lemma struct_obj n m : de_struct n (Object m) = Ok tt.
Proof. done. Qed.
(** The next field of an object that is written out. *)
Ltac read_field tac :=
  match goal with
  | |- mbind _ (required ?v ?i ?k ?de) = _ => erewrite (required_ok v i k de _ _ eq_refl); [|tac]
  | |- mbind _ (de_field ?v ?i ?k ?de ?d) = _ => erewrite (field_ok v i k de d _ _ eq_refl); [|tac]
  end; cbn [mbind result_bind].

Lemma group_summary_roundtrip g :
  small (gs_members g) -> small (gs_messages g) -> de_group_summary (group_summary_json g) = Ok g.
Proof.
  intros H1 H2. unfold de_group_summary, group_summary_json, json_obj. rewrite struct_obj. cbn [mbind result_bind].
  read_field ltac:(reflexivity). read_field ltac:(by apply de_nat_small). read_field ltac:(by apply de_nat_small). by destruct g.
Qed.
Lemma de_u64 n : (n < U64_MOD)%N -> de_uint (U64_MOD - 1) (Number (Z.of_N n)) = Ok n.
Proof.
  intros Hn. unfold de_uint. rewrite (proj2 (Z.leb_le _ _)), (proj2 (Z.leb_le _ _)) by lia. cbn. f_equal. lia.
Qed.
Lemma reactor_roundtrip r :
  (rs_docs r < U64_MOD)%N -> small (rs_active_drives r) -> de_reactor (reactor_json r) = Ok r.
Proof.
  intros H1 H2. unfold de_reactor, reactor_json, json_obj. rewrite struct_obj. cbn [mbind result_bind].
  do 2 read_field ltac:(reflexivity). read_field ltac:(apply de_opt_json). read_field ltac:(reflexivity). read_field ltac:(by apply de_u64).
  read_field ltac:(apply de_opt_json). read_field ltac:(by apply de_nat_small). read_field ltac:(apply de_opt_json). by destruct r.
Qed.
Lemma drive_entry_roundtrip d : de_drive_entry (drive_entry_json d) = Ok d.
Proof. by destruct d. Qed.

(** The status a daemon serves is the status a client reads: the JSON of a
    snapshot, whose counts fit their machine types, is read back as that
    snapshot. *)
Theorem status_roundtrip s : status_wf s -> status_of_json (status_json s) = Ok s.
Proof.
  intros [H1 H2 H3]. unfold status_of_json, status_json, json_obj. rewrite struct_obj. cbn [mbind result_bind].
  read_field ltac:(reflexivity). read_field ltac:(by apply reactor_roundtrip).
  read_field ltac:(apply de_vec_map; intros x _; apply drive_entry_roundtrip).
  read_field ltac:(by apply (de_vec_map de_string Str)).
  read_field ltac:(reflexivity).
  read_field ltac:(apply de_vec_map; intros x Hx; destruct (proj1 (Forall_forall _ _) H3 x Hx); by apply group_summary_roundtrip).
  read_field ltac:(reflexivity). by destruct s as [? ? ? ? [] ? ?].
Qed.

(** ** Requests *)

Record HttpReq := { rq_method : string; rq_url : string; rq_body : option Value }.

(** The bodies: [DocBody], [ActionBody], [InviteBody], [JoinBody], [PeerBody],
    [ProposeBody], [TokenBody], [ConfigBody]. *)
Definition de_doc_body (v : Value) : result string WebOp :=
  _ ← de_struct 3 v;
  n ← required v 0 "name" de_string; f ← de_field v 1 "fields" de_map ∅;
  m ← de_field v 2 "model" (de_option de_string) None;
  Ok (OpAddDoc n f m).
Definition de_action_body (v : Value) : result string WebOp :=
  _ ← de_struct 4 v;
  n ← required v 0 "name" de_string; k ← required v 1 "kind" de_string;
  p ← required v 2 "payload" de_value; m ← de_field v 3 "model" de_string "";
  Ok (OpActionDoc n k p m).
Definition de_invite_body (v : Value) : result string WebOp :=
  _ ← de_struct 1 v; g ← de_field v 0 "groups" (de_vec de_string) []; Ok (OpInvite g).
Definition de_join_body (v : Value) : result string WebOp :=
  _ ← de_struct 1 v; i ← required v 0 "invite" de_string; Ok (OpJoin i).
Definition de_peer_body (v : Value) : result string string :=
  _ ← de_struct 1 v; required v 0 "peer" de_string.
Definition de_propose_body (v : Value) : result string WebOp :=
  _ ← de_struct 4 v;
  g ← required v 0 "group" de_string; k ← required v 1 "kind" de_string;
  p ← de_field v 2 "payload" de_value Null; m ← de_field v 3 "model" (de_option de_string) None;
  Ok (OpPropose g k p m).
Definition de_token_body (v : Value) : result string string :=
  _ ← de_struct 1 v; required v 0 "token" de_string.
Definition de_config_body (v : Value) : result string WebOp :=
  _ ← de_struct 2 v;
  k ← required v 0 "key" de_string; x ← required v 1 "value" de_value; Ok (OpSetConfig k x).

(** The routes of the server the command line and the tray use: [None] is no
    such route, an error a body that is not read. *)
Definition routed (method path : string) (body : option Value) : option (result string WebOp) :=
  let read de := Some (b ← ok_or body "expected a JSON body"; de b) in
  if negb (bool_decide (method = "POST")) then None else
  if decide (path = "/api/docs") then read de_doc_body else
  if decide (path = "/api/docs/action") then read de_action_body else
  if decide (path = "/api/invite") then read de_invite_body else
  if decide (path = "/api/join") then read de_join_body else
  if decide (path = "/api/ban") then read (fun b => OpBan <$> de_peer_body b) else
  if decide (path = "/api/unban") then read (fun b => OpUnban <$> de_peer_body b) else
  if decide (path = "/api/propose") then read de_propose_body else
  if decide (path = "/api/cosign") then read (fun b => OpCosign <$> de_token_body b) else
  if decide (path = "/api/submit") then read (fun b => OpSubmit <$> de_token_body b) else
  if decide (path = "/api/config") then read de_config_body else
  if decide (path = "/api/quit") then Some (Ok OpQuit) else None.
Definition route (method path : string) (body : option Value) : option (result string WebOp) :=
  match drive_route method path body with
  | Some op => Some (Ok (OpDrive op))
  | None => routed method path body
  end.

(** [status_api]. *)
Definition status_api `{Platform, Net} (wb : Web) : Response := json HTTP_OK (status_json (wb_snap wb)).

Definition HTTP_UNPROCESSABLE : N := 422.

Section Http.
Context `{Platform, Net} `{!NetText} `{JsonText} `{Base64} `{!Serde Action} `{!Serde InviteToken}
  `{!Serde (list string)} `{Uuid} `{!Serde (list Value)} `{TextOps} `{!Serde Installed}.
Context `{!Serde Manifest} `{!Serde Release} `{TrustStoreSerde : !Serde TrustStore}.
Context (sip : string * string * bool * option string * string * N * string -> N)
  (show_hash : Hash32 -> string) (current_platform current : string).

(** The settings server at [base], as a client sees it: an address nobody
    listens on refuses, a handler that panics closes the connection. *)
Definition serve_http (base : string) (env env2 : Link * World) (ms : N) (now : string) (exe : result string Path)
    (rq : HttpReq) (wb : Web) : Web * result string Response :=
  match strip_prefix base (rq_url rq) with
  | None => (wb, Err "connection refused")
  | Some path =>
      if bool_decide ((rq_method rq, path) = ("GET", "/api/status")) then (wb, Ok (status_api wb)) else
      match route (rq_method rq) path (rq_body rq) with
      | None => (wb, Ok (empty_reply HTTP_NOT_FOUND))
      | Some (Err e) => (wb, Ok (text HTTP_UNPROCESSABLE e))
      | Some (Ok op) =>
          let '(wb, r) := serve sip show_hash current_platform current env env2 ms now exe wb op in
          (wb, if bool_decide (rp_status r = 0%N) then Err "connection closed" else Ok r)
      end
  end.
End Http.
