(* ===== verification/Routes.v ===== *)
(** The router of the settings server (src/settings/mod.rs, [Settings::start]):
    every route with its methods, the bodies they read, and which handler a
    request reaches.  What a request that only reads may change, which paths
    are ambiguous, and what a request that is not JSON can do. *)

From stdpp Require Import base gmap strings numbers pretty list.
From Stdlib Require Import Strings.Byte Strings.Ascii.
From S2P Require Import Prelude Json Doc Sample Action Model Store Text Cosign Invite Blob Engine Fs ReadModel.
From S2P Require Import Package Update Processor Logs Status Config ConfigProps Daemon DaemonProps.
From S2P Require Import Llm Web Console Offers Server LlmApi OffersProps Api.

(** ** Handlers *)

(** What is read. *)
Inductive WebRead :=
  | RdPage (v2 : bool)
  | RdStatus
  | RdConfig
  | RdOverview
  | RdDocs (model field value : option string)
  | RdDoc (name : string)
  | RdPlugins
  | RdPackages
  | RdPublishers
  | RdUpdates
  | RdProcessors
  | RdFires (name : string)
  | RdInbox
  | RdSpaces
  | RdGroups
  | RdGroup (name : string)
  | RdDriveList (name : string)
  | RdActivity (name : string)
  | RdFolders
  | RdModels.

(** The handler a request reaches, with what it was given. *)
Inductive Target :=
  | TRead (r : WebRead)
  | TWrite (op : WebOp)
  | TPluginQuery (name model : string) (filter_ : option FieldFilter) (space : option string)
  | TPluginHistory (name model doc : string) (limit : option nat)
  | TMigrate (go : bool) (group : option string)
  | TLlmTest (b : LlmTestBody)
  | TDraftType (description : string)
  | TDraftProcessor (description : string).

(** ** Bodies *)

(** A body with the content type of JSON, or any other. *)
Inductive Body := BodyJson (v : Value) | BodyOther (bytes : list byte).

(** [Json<T>] and [Option<Json<T>>]. *)
Definition json_body {A} (b : Body) (de : Value -> result string A) : result string A :=
  match b with BodyJson v => de v | BodyOther _ => Err "expected a request with `Content-Type: application/json`" end.
Definition opt_body {A} (b : Body) (de : Value -> result string A) : option A :=
  match json_body b de with Ok a => Some a | Err _ => None end.

(** [Reaction]: tagged by its kind; in an array the tag comes first. *)
Definition tag_of (k : string) (v : Value) : result string (string * Value) :=
  match v with
  | Object m => t ← ok_or (obj_lookup m k) ("missing field `" +:+ k +:+ "`"); t ← de_string t; Ok (t, v)
  | Array (t :: l) => t ← de_string t; Ok (t, Array l)
  | Array [] => Err ("missing field `" +:+ k +:+ "`")
  | _ => Err "invalid type: expected internally tagged enum Reaction"
  end.
Definition de_reaction (v : Value) : result string Reaction :=
  kv ← tag_of "kind" v;
  let '(k, v) := kv in
  if decide (k = "log") then _ ← de_struct 1 v; m ← required v 0 "message" de_string; Ok (Processor.Log m) else
  if decide (k = "run") then _ ← de_struct 1 v; c ← required v 0 "command" de_string; Ok (Run c) else
  if decide (k = "emit") then _ ← de_struct 1 v; e ← required v 0 "event" de_string; Ok (Emit e) else
  if decide (k = "create-doc") then
    _ ← de_struct 3 v;
    m ← required v 0 "model" de_string; n ← required v 1 "name" de_string; f ← required v 2 "fields" de_map;
    Ok (CreateDoc m n f)
  else Err ("unknown variant `" +:+ k +:+ "`").
(** [ProcessorBody] and [processor_spec_from]. *)
Definition de_processor (now_ms : N) (v : Value) : result string ProcessorSpec :=
  _ ← de_struct 6 v;
  n ← required v 0 "name" de_string; m ← de_field v 1 "models" (de_vec de_string) [];
  a ← de_field v 2 "action_kind" (de_option de_string) None; f ← de_field v 3 "field" (de_option de_string) None;
  x ← de_field v 4 "value" (de_option de_value) None; r ← required v 5 "reaction" de_reaction;
  Ok (processor_spec_from n m a f x r now_ms).
Definition de_group (v : Value) : result string WebOp :=
  _ ← de_struct 3 v;
  n ← required v 0 "name" de_string; m ← de_field v 1 "members" (de_vec de_string) [];
  g ← de_field v 2 "managers" (de_vec de_string) [];
  Ok (OpCreateGroup n m g).
(** [GroupActionBody], [SpaceActionBody]. *)
Definition de_kind_payload (v : Value) : result string (string * Value) :=
  _ ← de_struct 2 v; k ← required v 0 "kind" de_string; p ← required v 1 "payload" de_value; Ok (k, p).
Definition de_channel (group : string) (v : Value) : result string WebOp :=
  _ ← de_struct 3 v;
  n ← required v 0 "name" de_string; vi ← de_field v 1 "visibility" de_string "";
  m ← de_field v 2 "members" (de_vec de_string) [];
  Ok (OpChannelAdd group n vi m).
Definition de_drive_folder (group : string) (v : Value) : result string WebOp :=
  _ ← de_struct 2 v;
  n ← required v 0 "name" de_string; p ← de_field v 1 "parent" (de_option de_string) None;
  Ok (OpDriveFolder group n p).
Definition de_drive_doc (group : string) (v : Value) : result string WebOp :=
  _ ← de_struct 4 v;
  n ← de_field v 0 "name" (de_option de_string) None; m ← required v 1 "model" de_string;
  p ← de_field v 2 "parent" (de_option de_string) None; f ← de_field v 3 "fields" de_value Null;
  Ok (OpDriveDoc group n m p f).
Definition de_drive_add (group : string) (v : Value) : result string WebOp :=
  _ ← de_struct 3 v;
  n ← de_field v 0 "name" (de_option de_string) None; t ← de_field v 1 "title" de_string "";
  b ← de_field v 2 "body" de_string "";
  Ok (OpDriveAdd group n t b).
Definition de_folder (v : Value) : result string WebOp :=
  _ ← de_struct 3 v;
  n ← required v 0 "name" de_string; d ← de_field v 1 "description" de_string "";
  m ← de_field v 2 "members" (de_vec de_string) [];
  Ok (OpCreateFolder n d m).
Definition de_space (v : Value) : result string WebOp :=
  _ ← de_struct 4 v;
  n ← required v 0 "name" de_string; vi ← required v 1 "visibility" de_string;
  m ← de_field v 2 "members" (de_vec de_string) []; g ← de_field v 3 "managers" (de_vec de_string) [];
  Ok (OpSpaceCreate n vi m g).
Definition de_space_doc (space : string) (v : Value) : result string WebOp :=
  _ ← de_struct 3 v;
  n ← required v 0 "name" de_string; m ← required v 1 "model" de_string; p ← de_field v 2 "payload" de_value Null;
  Ok (OpSpaceDoc space n m p).
(** A body of one string: [EnableBody], [DraftTypeBody], [DraftProcessorBody]. *)
Definition de_one (k : string) (v : Value) : result string string := _ ← de_struct 1 v; required v 0 k de_string.
Definition de_definition (v : Value) : result string WebOp :=
  _ ← de_struct 1 v; d ← required v 0 "definition" de_value; Ok (OpRegisterModel d).
Definition de_filter (v : Value) : result string FieldFilter :=
  _ ← de_struct 2 v;
  f ← required v 0 "field" de_string; x ← required v 1 "value" de_value;
  Ok {| ff_field := f; ff_value := x |}.
Definition de_plugin_query (name : string) (v : Value) : result string Target :=
  _ ← de_struct 3 v;
  m ← required v 0 "model" de_string; f ← de_field v 1 "filter" (de_option de_filter) None;
  s ← de_field v 2 "space" (de_option de_string) None;
  Ok (TPluginQuery name m f s).
Definition de_plugin_action (name : string) (v : Value) : result string WebOp :=
  _ ← de_struct 5 v;
  m ← required v 0 "model" de_string; k ← required v 1 "kind" de_string; n ← de_field v 2 "name" de_string "";
  p ← de_field v 3 "payload" de_value Null; s ← de_field v 4 "space" (de_option de_string) None;
  Ok (OpPluginAction name m k n p s).
Definition de_plugin_history (name : string) (v : Value) : result string Target :=
  _ ← de_struct 3 v;
  m ← required v 0 "model" de_string; n ← required v 1 "name" de_string;
  l ← de_field v 2 "limit" (de_option de_nat) None;
  Ok (TPluginHistory name m n l).
Definition de_install (v : Value) : result string bool :=
  _ ← de_struct 1 v; de_field v 0 "trust_publisher" de_bool false.
Definition de_trust (v : Value) : result string WebOp :=
  _ ← de_struct 2 v; k ← required v 0 "key" de_string; n ← de_field v 1 "name" de_string ""; Ok (OpTrust k n).
Definition de_apply (v : Value) : result string (option string) :=
  _ ← de_struct 1 v; de_field v 0 "doc" (de_option de_string) None.
Definition de_migrate (v : Value) : result string (bool * option string) :=
  _ ← de_struct 2 v;
  a ← de_field v 0 "apply" de_bool false; g ← de_field v 1 "group" (de_option de_string) None; Ok (a, g).
Definition de_llm_test (v : Value) : result string LlmTestBody :=
  _ ← de_struct 3 v;
  u ← de_field v 0 "baseUrl" de_string ""; e ← de_field v 1 "apiKeyEnv" de_string "";
  m ← de_field v 2 "model" de_string "";
  Ok {| lt_base_url := u; lt_api_key_env := e; lt_model := m |}.

(** ** The table *)

(** A route as it stands in the source, a segment that starts with a colon
    being a parameter, and the handlers of its methods. *)
Inductive Pat := Lit (s : string) | Par.
Definition seg_pat (s : string) : Pat := match s with String ":" _ => Par | _ => Lit s end.
Definition pattern (path : string) : list Pat := seg_pat <$> split_char "/" path.

(** The parameters of a path that matches; none of them is empty. *)
Fixpoint params (p : list Pat) (segs : list string) : option (list string) :=
  match p, segs with
  | [], [] => Some []
  | Lit s :: p, x :: segs => if decide (s = x) then params p segs else None
  | Par :: p, x :: segs => l ← params p segs; Some (x :: l)
  | _, _ => None
  end.
Definition match_path (p : list Pat) (segs : list string) : option (list string) :=
  l ← params p segs;
  if forallb (fun x => negb (bool_decide (x = ""))) l then Some (percent_decode <$> l) else None.

Definition Query : Type := gmap string string.
Definition Handler : Type := list string -> Query -> Body -> result string Target.

Section Table.
Context (de_publish : Value -> result string PublishBody) (text_of : Value -> list byte) (now_ms : N).

(** Handlers by what they take from the request. *)
Definition plain (t : Target) : Handler := fun _ _ _ => Ok t.
Definition named (f : string -> Target) : Handler := fun ps _ _ =>
  match ps with [a] => Ok (f a) | _ => Err "Wrong number of path arguments" end.
Definition named2 (f : string -> string -> Target) : Handler := fun ps _ _ =>
  match ps with [a; b] => Ok (f a b) | _ => Err "Wrong number of path arguments" end.
Definition with_json (de : Value -> result string Target) : Handler := fun _ _ b => json_body b de.
Definition named_json (de : string -> Value -> result string Target) : Handler := fun ps _ b =>
  match ps with [a] => json_body b (de a) | _ => Err "Wrong number of path arguments" end.
Definition write (de : Value -> result string WebOp) : Value -> result string Target := fun v => TWrite <$> de v.

Definition docs_query : Handler := fun _ q _ => Ok (TRead (RdDocs (q !! "model") (q !! "field") (q !! "value"))).
Definition install_route : Handler := fun ps _ b =>
  match ps with
  | [doc] => Ok (TWrite (OpInstall doc (default false (opt_body b de_install))))
  | _ => Err "Wrong number of path arguments"
  end.
Definition apply_route : Handler := fun _ _ b => Ok (TWrite (OpApplyUpdate (default None (opt_body b de_apply)))).
Definition migrate_route : Handler := fun _ _ b =>
  let x := default (false, None) (opt_body b de_migrate) in Ok (TMigrate x.1 x.2).
(** [updates::publish]: the query, and the body as it is. *)
Definition release_route : Handler := fun _ q b =>
  match q !! "version" with
  | Some v =>
      Ok (TWrite (OpPublishRelease v (q !! "platform") (default "" (q !! "notes")) (q !! "group")
                    (match b with BodyJson x => text_of x | BodyOther l => l end)))
  | None => Err "missing field `version`"
  end.

Definition routes : list (string * list (string * Handler)) :=
  [("/", [("GET", plain (TRead (RdPage true)))]);
   ("/console", [("GET", plain (TRead (RdPage false)))]);
   ("/api/status", [("GET", plain (TRead RdStatus))]);
   ("/api/drives", [("POST", with_json (write (fun v => OpDrive <$> de_add v)))]);
   ("/api/drives/:name", [("DELETE", named (fun n => TWrite (OpDrive (OpRemove n))))]);
   ("/api/drives/:name/pause", [("POST", named (fun n => TWrite (OpDrive (OpPause n))))]);
   ("/api/drives/:name/resume", [("POST", named (fun n => TWrite (OpDrive (OpResume n))))]);
   ("/api/drives/:name/resync", [("POST", named (fun n => TWrite (OpDrive (OpResync n))))]);
   ("/api/config", [("GET", plain (TRead RdConfig)); ("POST", with_json (write de_config_body))]);
   ("/api/quit", [("POST", plain (TWrite OpQuit))]);
   ("/api/docs", [("GET", docs_query); ("POST", with_json (write de_doc_body))]);
   ("/api/docs/action", [("POST", with_json (write de_action_body))]);
   ("/api/query", [("GET", docs_query)]);
   ("/api/invite", [("POST", with_json (write de_invite_body))]);
   ("/api/propose", [("POST", with_json (write de_propose_body))]);
   ("/api/cosign", [("POST", with_json (write (fun v => OpCosign <$> de_token_body v)))]);
   ("/api/submit", [("POST", with_json (write (fun v => OpSubmit <$> de_token_body v)))]);
   ("/api/plugins", [("GET", plain (TRead RdPlugins))]);
   ("/api/plugins/:name", [("DELETE", named (fun n => TWrite (OpUninstall n)))]);
   ("/api/packages", [("GET", plain (TRead RdPackages));
                      ("POST", with_json (write (fun v => OpPublish <$> de_publish v)))]);
   ("/api/packages/:doc/install", [("POST", install_route)]);
   ("/api/publishers", [("GET", plain (TRead RdPublishers)); ("POST", with_json (write de_trust))]);
   ("/api/updates", [("GET", plain (TRead RdUpdates))]);
   ("/api/updates/apply", [("POST", apply_route)]);
   ("/api/releases", [("POST", release_route)]);
   ("/api/publishers/:key/revoke", [("POST", named (fun k => TWrite (OpRevoke k)))]);
   ("/api/plugins/:name/query", [("POST", named_json de_plugin_query)]);
   ("/api/plugins/:name/action", [("POST", named_json (fun n => write (de_plugin_action n)))]);
   ("/api/plugins/:name/history", [("POST", named_json de_plugin_history)]);
   ("/api/join", [("POST", with_json (write de_join_body))]);
   ("/api/ban", [("POST", with_json (write (fun v => OpBan <$> de_peer_body v)))]);
   ("/api/unban", [("POST", with_json (write (fun v => OpUnban <$> de_peer_body v)))]);
   ("/api/overview", [("GET", plain (TRead RdOverview))]);
   ("/api/processors", [("GET", plain (TRead RdProcessors));
                        ("POST", with_json (write (fun v => OpProcessorCreate <$> de_processor now_ms v)))]);
   ("/api/processors/:name",
      [("PUT", named_json (fun n => write (fun v => OpProcessorUpdate n <$> de_processor now_ms v)));
       ("DELETE", named (fun n => TWrite (OpProcessorRemove n)))]);
   ("/api/processors/:name/fires", [("GET", named (fun n => TRead (RdFires n)))]);
   ("/api/inbox", [("GET", plain (TRead RdInbox))]);
   ("/api/spaces", [("GET", plain (TRead RdSpaces)); ("POST", with_json (write de_space))]);
   ("/api/migrate/groups", [("POST", migrate_route)]);
   ("/api/spaces/:name/action",
      [("POST", named_json (fun n => write (fun v => kp ← de_kind_payload v; Ok (OpSpaceAction n kp.1 kp.2))))]);
   ("/api/spaces/:name/apps", [("POST", named_json (fun n => write (fun v => OpEnableApp n <$> de_one "app" v)))]);
   ("/api/spaces/:name/apps/:app", [("DELETE", named2 (fun n a => TWrite (OpDisableApp n a)))]);
   ("/api/spaces/:name/docs", [("POST", named_json (fun n => write (de_space_doc n)))]);
   ("/api/groups", [("GET", plain (TRead RdGroups)); ("POST", with_json (write de_group))]);
   ("/api/groups/:name", [("GET", named (fun n => TRead (RdGroup n)))]);
   ("/api/groups/:name/drive", [("GET", named (fun n => TRead (RdDriveList n)));
                                ("POST", named_json (fun n => write (de_drive_add n)))]);
   ("/api/groups/:name/drive/:doc", [("DELETE", named2 (fun n d => TWrite (OpDriveRemove n d)))]);
   ("/api/groups/:name/action",
      [("POST", named_json (fun n => write (fun v => kp ← de_kind_payload v; Ok (OpGroupAction n kp.1 kp.2))))]);
   ("/api/groups/:name/activity", [("GET", named (fun n => TRead (RdActivity n)))]);
   ("/api/groups/:name/channels", [("POST", named_json (fun n => write (de_channel n)))]);
   ("/api/groups/:name/channels/:chan", [("DELETE", named2 (fun n c => TWrite (OpChannelRemove n c)))]);
   ("/api/groups/:name/drive/folder", [("POST", named_json (fun n => write (de_drive_folder n)))]);
   ("/api/groups/:name/drive/doc", [("POST", named_json (fun n => write (de_drive_doc n)))]);
   ("/api/folders", [("GET", plain (TRead RdFolders)); ("POST", with_json (write de_folder))]);
   ("/api/folders/:name/action",
      [("POST", named_json (fun n => write (fun v => kp ← de_kind_payload v; Ok (OpFolderAction n kp.1 kp.2))))]);
   ("/api/docs/:name", [("GET", named (fun n => TRead (RdDoc n)))]);
   ("/api/llm/test", [("POST", with_json (fun v => TLlmTest <$> de_llm_test v))]);
   ("/api/models", [("GET", plain (TRead RdModels)); ("POST", with_json (write de_definition))]);
   ("/api/models/register", [("POST", with_json (write de_definition))]);
   ("/api/llm/draft-type", [("POST", with_json (fun v => TDraftType <$> de_one "description" v))]);
   ("/api/llm/draft-processor", [("POST", with_json (fun v => TDraftProcessor <$> de_one "description" v))])].

(** ** Dispatch *)

(** Where two routes match, the one with text at the first segment in which
    they differ. *)
Fixpoint before (p q : list Pat) : bool :=
  match p, q with
  | Lit _ :: _, Par :: _ => true
  | Lit _ :: p, Lit _ :: q | Par :: p, Par :: q => before p q
  | _, _ => false
  end.
Definition better_route (segs : list string) (best : option (list Pat * list string * list (string * Handler)))
    (r : string * list (string * Handler)) : option (list Pat * list string * list (string * Handler)) :=
  let p := pattern r.1 in
  match match_path p segs with
  | None => best
  | Some ps =>
      match best with
      | Some (q, _, _) => if before p q then Some (p, ps, r.2) else best
      | None => Some (p, ps, r.2)
      end
  end.
Definition find_route (segs : list string) : option (list Pat * list string * list (string * Handler)) :=
  foldl (better_route segs) None routes.

Inductive Dispatch := NotFound | MethodNotAllowed | Rejected (e : string) | Reached (t : Target).
(** A handler of [GET] also answers [HEAD]. *)
Definition method_of (m : string) : string := if decide (m = "HEAD") then "GET" else m.
Definition dispatch (method path : string) (q : Query) (b : Body) : Dispatch :=
  match find_route (split_char "/" path) with
  | None => NotFound
  | Some (_, ps, hs) =>
      match List.find (fun mh : string * Handler => bool_decide (mh.1 = method_of method)) hs with
      | None => MethodNotAllowed
      | Some (_, h) => match h ps q b with Ok t => Reached t | Err e => Rejected e end
      end
  end.
End Table.

(** ** Requests that read *)

Section Read.
Context `{Platform, Net} `{!NetText} `{JsonText} `{Base64} `{!Serde Action} `{!Serde InviteToken}
  `{!Serde (list string)} `{Uuid} `{!Serde (list Value)} `{TextOps} `{!Serde Installed}.
Context `{!Serde Manifest} `{!Serde Release} `{TrustStoreSerde : !Serde TrustStore}.
Context (page : bool -> string) (spec_json : ProcessorSpec -> Value) (fire_json : Fire -> Value)
  (parse_json : string -> option Value) (current_platform current : string).
Implicit Types wb : Web.

(** The handlers of [GET]; the pages are their text. *)
Definition serve_read (ts : N) wb (r : WebRead) : Web * Response :=
  match r with
  | RdPage v2 => (wb, text HTTP_OK (page v2))
  | RdStatus => (wb, status_api wb)
  | RdConfig => config_api ts wb
  | RdOverview => overview_api ts wb
  | RdDocs model field value => (wb, docs_api parse_json wb model field value)
  | RdDoc name => (wb, doc_detail wb name)
  | RdPlugins => plugins_api wb
  | RdPackages => packages_list wb
  | RdPublishers => publishers_api wb
  | RdUpdates => updates_list current_platform current wb
  | RdProcessors => (wb, processor_list_api spec_json wb)
  | RdFires name => (wb, processor_fires_api fire_json wb name)
  | RdInbox => inbox_list wb
  | RdSpaces => (wb, spaces_list wb)
  | RdGroups => (wb, groups_api wb)
  | RdGroup name => (wb, group_detail wb name)
  | RdDriveList name => (wb, drive_list wb name)
  | RdActivity name => (wb, group_activity wb name)
  | RdFolders => (wb, folders_api wb)
  | RdModels => (wb, models_api wb)
  end.
End Read.

(** ** Dispatch *)

Section Find.
Context (de_publish : Value -> result string PublishBody) (text_of : Value -> list byte) (now_ms : N).

Lemma find_route_in segs p ps hs :
  find_route de_publish text_of now_ms segs = Some (p, ps, hs) ->
  exists r, r ∈ routes de_publish text_of now_ms /\ r.2 = hs /\ p = pattern r.1 /\ match_path p segs = Some ps.
Proof.
  unfold find_route. generalize (routes de_publish text_of now_ms) as l. intros l.
  assert (Hg : forall best, foldl (better_route segs) best l = Some (p, ps, hs) ->
    best = Some (p, ps, hs) \/ exists r, r ∈ l /\ r.2 = hs /\ p = pattern r.1 /\ match_path p segs = Some ps).
  { induction l as [|r l IH]; intros best; [by left|]. cbn [foldl]. intros [E|(r' & Hin & ?)]%IH;
      [|right; exists r'; split; [by right|done]].
    unfold better_route in E. destruct (match_path (pattern r.1) segs) as [ps'|] eqn:Em; [|by left].
    assert (Hr : Some (pattern r.1, ps', r.2) = Some (p, ps, hs) ->
      exists r', r' ∈ r :: l /\ r'.2 = hs /\ p = pattern r'.1 /\ match_path p segs = Some ps).
    { intros [= <- <- <-]. exists r. split; [left|done]. }
    destruct best as [[[q ?] ?]|]; [destruct (before _ _)|]; [right; by apply Hr|by left|right; by apply Hr]. }
  intros [E|Hr]%Hg; [done|exact Hr].
Qed.

(** What holds of every handler of a method holds of what is reached. *)
Lemma reached_by (P : Handler -> Prop) method path q b t :
  Forall (fun r => Forall (fun mh : string * Handler => mh.1 = method_of method -> P mh.2) r.2)
    (routes de_publish text_of now_ms) ->
  dispatch de_publish text_of now_ms method path q b = Reached t ->
  exists h ps, P h /\ h ps q b = Ok t.
Proof.
  intros Hall. unfold dispatch. destruct (find_route _ _ _ _) as [[[p ps] hs]|] eqn:Ef; [|done].
  apply find_route_in in Ef as (r & Hin & <- & _ & _).
  destruct (List.find _ r.2) as [[m h]|] eqn:Eh; [|done].
  apply find_some in Eh as [Hh Em]. apply bool_decide_eq_true in Em. cbn [fst] in Em.
  rewrite Forall_forall in Hall. specialize (Hall r Hin).
  rewrite Forall_forall in Hall. specialize (Hall (m, h)). rewrite list_elem_of_In in Hall.
  destruct (h ps q b) as [t'|] eqn:Et; [|done]. intros [= ->]. exists h, ps. split; [by apply Hall|done].
Qed.
End Find.

(** ** What a request that reads may change *)

Section Safe.
Context `{Platform, Net} `{!NetText} `{JsonText} `{Base64} `{!Serde Action} `{!Serde InviteToken}
  `{!Serde (list string)} `{Uuid} `{!Serde (list Value)} `{TextOps} `{!Serde Installed}.
Context `{!Serde Manifest} `{!Serde Release} `{TrustStoreSerde : !Serde TrustStore}.
Implicit Types wb : Web.

(** Nothing differs but files, and of those only the configuration and the copy
    of a corrupt one. *)
Definition config_files (ts : N) wb : list Path :=
  [config_file (wb_paths wb); corrupt_path (config_file (wb_paths wb)) ts].
Definition reads (ts : N) wb wb' : Prop :=
  only_files wb wb' /\
  forall p, p ∉ config_files ts wb -> fs_files (x_fs (wb_ctx wb')) !! p = fs_files (x_fs (wb_ctx wb)) !! p.

Lemma reads_refl ts wb : reads ts wb wb.
Proof. split; [|done]. exists (x_fs (wb_ctx wb)). by destruct wb as [[]]. Qed.
Lemma reads_trans ts wb1 wb2 wb3 : reads ts wb1 wb2 -> reads ts wb2 wb3 -> reads ts wb1 wb3.
Proof.
  intros [[f1 ->] R1] [[f2 ->] R2]. split; [by exists f2|]. intros p Hp. rewrite R2 by done. by apply R1.
Qed.
Lemma reads_with_fs {E A} ts wb (m : fsE E A) :
  (forall p, p ∉ config_files ts wb -> leaves m p) -> reads ts wb (with_fs wb m).1.
Proof.
  intros Hl. unfold with_fs. destruct (m (x_fs (wb_ctx wb))) as [fs r] eqn:E1. split; [by exists fs|].
  intros p Hp. pose proof (Hl p Hp (x_fs (wb_ctx wb))) as Hq. by rewrite E1 in Hq.
Qed.

Lemma load_leaves sp ts p :
  p <> config_file sp -> p <> corrupt_path (config_file sp) ts -> leaves (load sp ts) p.
Proof.
  intros Hf Hc.
  assert (Hw : leaves (write_defaults (config_file sp)) p).
  { unfold write_defaults, fs_set_permissions. eauto 6 with reactor. }
  unfold load, load_quiet, quarantine. apply leaves_bind; [|intros x; apply leaves_ret].
  apply leaves_bind; [eauto with reactor|]. intros [raw|e]; [|case_match; eauto with reactor].
  destruct (json_parse raw ≫= config_of_json) as [c|]; [destruct (validate c); eauto with reactor|].
  apply leaves_bind; eauto with reactor.
Qed.
Lemma reads_load ts wb : reads ts wb (with_fs wb (load (wb_paths wb) ts)).1.
Proof.
  apply reads_with_fs. intros p Hp. apply not_elem_of_cons in Hp as [Hf Hp]. apply not_elem_of_cons in Hp as [Hc _].
  by apply load_leaves.
Qed.
Lemma reads_installed ts wb : reads ts wb (load_installed wb).1.
Proof.
  unfold load_installed. set (m := installed_load _). pose proof (reads_with_fs ts wb m) as Hr.
  destruct (with_fs wb m) as [w r]. apply Hr. intros p _. unfold m, installed_load.
  apply leaves_bind; [apply leaves_try, leaves_read|]. intros x. apply leaves_ret.
Qed.
Lemma reads_trust ts wb : reads ts wb (load_trust wb).1.
Proof.
  unfold load_trust. set (m := trust_load _). pose proof (reads_with_fs ts wb m) as Hr.
  destruct (with_fs wb m) as [w r]. apply Hr. intros p _. apply trust_load_leaves.
Qed.

Context (page : bool -> string) (spec_json : ProcessorSpec -> Value) (fire_json : Fire -> Value)
  (parse_json : string -> option Value) (current_platform current : string).

Lemma serve_reads ts wb r :
  reads ts wb (serve_read page spec_json fire_json parse_json current_platform current ts wb r).1.
Proof.
  pose proof (reads_load ts wb) as Hload. pose proof (reads_installed ts wb) as Hinst.
  pose proof (reads_trust ts wb) as Htrust. destruct r; try apply reads_refl; cbn [serve_read].
  - unfold config_api. by destruct (with_fs wb _) as [w []].
  - unfold overview_api. destruct (with_fs wb (load _ _)) as [w c]. cbn [fst] in Hload.
    set (m := fs_len _). pose proof (reads_with_fs ts w m) as Hr. destruct (with_fs w m) as [w2 n]. cbn [fst] in *.
    eapply reads_trans; [exact Hload|]. apply Hr. intros p _ s. unfold m, fs_len. fs_outcome s; try congruence. case_match; simpl; congruence.
  - unfold plugins_api. by destruct (load_installed wb).
  - unfold packages_list. destruct (load_trust wb) as [w t]. cbn [fst] in Htrust.
    pose proof (reads_installed ts w) as Hi. destruct (load_installed w). cbn [fst] in *. by eapply reads_trans.
  - unfold publishers_api. by destruct (load_trust wb).
  - unfold updates_list. by destruct (load_trust wb).
  - unfold inbox_list. by destruct (load_installed wb).
Qed.

Context (de_publish : Value -> result string PublishBody) (text_of : Value -> list byte) (now_ms : N).

(** Handlers that only read. *)
Definition reader (h : Handler) : Prop := forall ps q b t, h ps q b = Ok t -> exists r, t = TRead r.
Lemma reader_plain r : reader (plain (TRead r)).
Proof. intros ps q b t [= <-]. by exists r. Qed.
Lemma reader_named f : reader (named (fun n => TRead (f n))).
Proof. intros [|a []] q b t E; try done. injection E as <-. by eexists. Qed.
Lemma reader_docs : reader docs_query.
Proof. intros ps q b t [= <-]. by eexists. Qed.

Lemma routes_read :
  Forall (fun r => Forall (fun mh : string * Handler => mh.1 = "GET" -> reader mh.2) r.2)
    (routes de_publish text_of now_ms).
Proof.
  unfold routes. repeat first [apply Forall_nil_2|apply Forall_cons; split]; cbn [fst snd]; intros Hm;
    try discriminate Hm; first [apply reader_plain|apply reader_named|apply reader_docs].
Qed.

(** C29. A request that reads changes nothing: whatever path, parameters and
    body come with a GET or HEAD, when a handler is reached it is one that only
    reads, and after it the store, the chunks, the configuration in memory, the
    processors and the commands sent to the daemon are what they were; of the
    files only the configuration may differ (a missing or corrupt one is
    replaced by the defaults, the corrupt one being moved aside). *)
Theorem get_changes_nothing method path q b t ts wb :
  method = "GET" \/ method = "HEAD" ->
  dispatch de_publish text_of now_ms method path q b = Reached t ->
  exists r, t = TRead r /\
    reads ts wb (serve_read page spec_json fire_json parse_json current_platform current ts wb r).1.
Proof.
  intros Hm Hd. assert (Eg : method_of method = "GET") by (by destruct Hm as [-> | ->]).
  destruct (reached_by de_publish text_of now_ms reader method path q b t) as (h & ps & Hr & E); [|done|].
  { rewrite Eg. apply routes_read. }
  destruct (Hr ps q b t E) as [rd ->]. exists rd. split; [done|]. apply serve_reads.
Qed.
End Safe.

(** ** Paths that two routes match *)

Fixpoint overlap (p q : list Pat) : bool :=
  match p, q with
  | [], [] => true
  | Lit s :: p, Lit t :: q => bool_decide (s = t) && overlap p q
  | _ :: p, _ :: q => overlap p q
  | _, _ => false
  end.
Lemma overlap_params p q segs l k : params p segs = Some l -> params q segs = Some k -> overlap p q = true.
Proof.
  revert q segs l k. induction p as [|[s|] p IH]; intros [|[t|] q] [|x segs] l k; cbn; try done.
  - case_decide as Es; [|done]. case_decide as Et; [|done]. intros E1 E2. subst.
    rewrite bool_decide_eq_true_2 by done. by eapply IH.
  - case_decide as Es; [|done]. intros E1. destruct (params q segs) eqn:E2; [|done]. intros _. by eapply IH.
  - destruct (params p segs) eqn:E1; [|done]. intros _. case_decide as Et; [|done]. intros E2. by eapply IH.
  - destruct (params p segs) eqn:E1; [|done]. intros _. destruct (params q segs) eqn:E2; [|done]. intros _. by eapply IH.
Qed.

(** The pairs of routes, in the order of the table, that some path matches. *)
Fixpoint clashes (l : list string) : list (string * string) :=
  match l with
  | [] => []
  | a :: l => (pair a <$> filter (fun b => overlap (pattern a) (pattern b) = true) l) ++ clashes l
  end.
Lemma clashes_spec l1 a l2 b l3 segs ps ps' :
  match_path (pattern a) segs = Some ps -> match_path (pattern b) segs = Some ps' ->
  (a, b) ∈ clashes (l1 ++ a :: l2 ++ b :: l3).
Proof.
  unfold match_path. destruct (params (pattern a) _) as [l|] eqn:Ea; [|done].
  destruct (params (pattern b) _) as [k|] eqn:Eb; [|done]. intros _ _.
  induction l1 as [|c l1 IH]; cbn [app clashes]; apply elem_of_app; [left|right; done].
  apply list_elem_of_fmap. exists b. split; [done|]. apply list_elem_of_filter. split; [by eapply overlap_params|].
  apply elem_of_app. right. left.
Qed.

Section Reach.
Context (de_publish : Value -> result string PublishBody) (text_of : Value -> list byte) (now_ms : N).

(** A path is matched by one route, but for a document called [action] and for
    an item of a group's drive called [folder] or [doc]: those are the names of
    other routes, which come first. *)
Theorem routes_unambiguous l1 a l2 b l3 path ps ps' :
  (routes de_publish text_of now_ms).*1 = l1 ++ a :: l2 ++ b :: l3 ->
  match_path (pattern a) (split_char "/" path) = Some ps ->
  match_path (pattern b) (split_char "/" path) = Some ps' ->
  (a, b) ∈ [("/api/docs/action", "/api/docs/:name");
            ("/api/groups/:name/drive/:doc", "/api/groups/:name/drive/folder");
            ("/api/groups/:name/drive/:doc", "/api/groups/:name/drive/doc")].
Proof.
  intros E Ha Hb. pose proof (clashes_spec l1 a l2 b l3 _ ps ps' Ha Hb) as Hc. rewrite <- E in Hc.
  vm_compute in Hc |- *. exact Hc.
Qed.

(** So a document that may be called [action] cannot be shown, and an item
    called [folder] cannot be taken out of a drive. *)
Lemma names_taken q b :
  valid_name "action" = true /\ valid_name "folder" = true /\
  dispatch de_publish text_of now_ms "GET" "/api/docs/notes" q b = Reached (TRead (RdDoc "notes")) /\
  dispatch de_publish text_of now_ms "GET" "/api/docs/action" q b = MethodNotAllowed /\
  dispatch de_publish text_of now_ms "DELETE" "/api/groups/team/drive/plan" q b =
    Reached (TWrite (OpDriveRemove "team" "plan")) /\
  dispatch de_publish text_of now_ms "DELETE" "/api/groups/team/drive/folder" q b = MethodNotAllowed.
Proof. vm_compute. repeat split. Qed.

(** ** Requests that are not JSON *)

(** What a POST whose body is not declared as JSON can ask for. *)
Definition blind_ok (bytes : list byte) (t : Target) : Prop :=
  match t with
  | TWrite (OpDrive (OpPause _)) | TWrite (OpDrive (OpResume _)) | TWrite (OpDrive (OpResync _))
  | TWrite OpQuit | TWrite (OpInstall _ false) | TWrite (OpApplyUpdate None) | TWrite (OpRevoke _)
  | TMigrate false None => True
  | TWrite (OpPublishRelease _ _ _ _ l) => l = bytes
  | _ => False
  end.
Definition blind (h : Handler) : Prop :=
  forall ps q bytes t, h ps q (BodyOther bytes) = Ok t -> blind_ok bytes t.

Lemma blind_plain t : (forall l, blind_ok l t) -> blind (plain t).
Proof. intros Ht ps q l u [= <-]. apply Ht. Qed.
Lemma blind_named f : (forall l n, blind_ok l (f n)) -> blind (named f).
Proof. intros Hf [|n [|? ?]] q bytes t E; try discriminate E. injection E as <-. apply Hf. Qed.
Lemma blind_json de : blind (with_json de).
Proof. intros ps q l t E. discriminate E. Qed.
Lemma blind_named_json de : blind (named_json de).
Proof. intros [|n [|? ?]] q bytes t E; discriminate E. Qed.
Lemma blind_install : blind install_route.
Proof. intros [|n [|? ?]] q bytes t E; try discriminate E. by injection E as <-. Qed.
Lemma blind_apply : blind apply_route.
Proof. intros ps q l t [= <-]. done. Qed.
Lemma blind_migrate : blind migrate_route.
Proof. intros ps q l t [= <-]. done. Qed.
Lemma blind_release : blind (release_route text_of).
Proof. intros ps q l t. unfold release_route. destruct (q !! "version"); [|done]. by intros [= <-]. Qed.

Lemma routes_blind :
  Forall (fun r => Forall (fun mh : string * Handler => mh.1 = "POST" -> blind mh.2) r.2)
    (routes de_publish text_of now_ms).
Proof.
  unfold routes. repeat first [apply Forall_nil_2|apply Forall_cons; split]; cbn [fst snd]; intros Hm;
    try discriminate Hm;
    first [apply blind_json|apply blind_named_json|apply blind_install|apply blind_apply|apply blind_migrate
          |apply blind_release|by apply blind_named|by apply blind_plain].
Qed.

(** What a page of another origin can make the operator's browser send without
    asking first, a POST that is not declared as JSON, pauses and resumes
    drives, revokes a publisher, installs what is already trusted, stops the
    daemon, and publishes a release: every other handler that writes refuses
    it. *)
Theorem blind_posts path q bytes t :
  dispatch de_publish text_of now_ms "POST" path q (BodyOther bytes) = Reached t -> blind_ok bytes t.
Proof.
  intros Hd. destruct (reached_by de_publish text_of now_ms blind "POST" path q (BodyOther bytes) t)
    as (h & ps & Hb & E); [apply routes_blind|done|]. exact (Hb ps q bytes t E).
Qed.

(** The release is signed with the node's key whoever sent the bytes: nothing
    but the version is asked for. *)
Lemma blind_release_published version bytes :
  dispatch de_publish text_of now_ms "POST" "/api/releases" {[ "version" := version ]} (BodyOther bytes) =
  Reached (TWrite (OpPublishRelease version None "" None bytes)).
Proof. reflexivity. Qed.

(** ** The command line's routes *)

(** The routes the command line uses are those of the table: where [route]
    finds an operation, the request reaches it. *)
Definition sent (body : option Value) : Body := match body with Some v => BodyJson v | None => BodyOther [] end.
Lemma json_reaches method path q body de op :
  (forall b, dispatch de_publish text_of now_ms method path q b =
     match json_body b (write de) with Ok t => Reached t | Err e => Rejected e end) ->
  (b ← ok_or body "expected a JSON body"; de b) = Ok op ->
  dispatch de_publish text_of now_ms method path q (sent body) = Reached (TWrite op).
Proof.
  intros Hd E. rewrite Hd. destruct body as [v|]; [|done]. cbn [sent json_body]. unfold write.
  cbn [ok_or mbind result_bind] in E. by rewrite E.
Qed.

Lemma drive_route_reaches method path q body op :
  drive_route method path body = Some op ->
  dispatch de_publish text_of now_ms method path q (sent body) = Reached (TWrite (OpDrive op)).
Proof.
  unfold drive_route, dispatch.
  destruct (split_char "/" path) as [|s0 [|s1 [|s2 [|name [|verb [|]]]]]]; try done.
  - case_bool_decide as E; [|done]. simplify_eq. destruct body as [v|]; [|done]. unfold add_body. cbn [mbind option_bind].
    destruct (de_add v) as [o|] eqn:Ea; [|done]. intros [= <-].
    transitivity (match write (fun v => OpDrive <$> de_add v) v with Ok t => Reached t | Err e => Rejected e end);
      [reflexivity|]. unfold write. by rewrite Ea.
  - case_bool_decide as E; [|done]. simplify_eq. case_bool_decide as Hn; [|done]. intros [= <-].
    destruct name; [done|]. reflexivity.
  - case_bool_decide as E; [|done]. simplify_eq. case_bool_decide as Hn; [|done]. destruct name; [done|].
    cbn [andb]. repeat (case_decide; [intros [= <-]; subst verb; reflexivity|]). done.
Qed.

Theorem command_routes_agree method path q body op :
  route method path body = Some (Ok op) ->
  dispatch de_publish text_of now_ms method path q (sent body) = Reached (TWrite op).
Proof.
  unfold route. destruct (drive_route method path body) as [o|] eqn:Ed.
  { intros [= <-]. by apply drive_route_reaches. }
  unfold routed. case_bool_decide as Em; [|done]. subst method. cbn [negb].
  repeat (case_decide; [subst path; intros [= E]; by (eapply json_reaches; [|exact E])|]).
  case_decide; [|done]. subst path. by intros [= <-].
Qed.
End Reach.
