(* ===== verification/Cli.v ===== *)
(** The command line (src/cli.rs, src/main.rs and the command functions of
    src/daemon.rs): the commands that go through the running daemon, those that
    work on the files of the state directory, and the dispatch of [main].

    A command is a computation on a [Host]; HTTP is the argument [transport], on
    the state of whatever answers.  The chain of an error is its text, contexts
    first. *)

From stdpp Require Import base gmap strings numbers pretty list.
From Stdlib Require Import Strings.Byte Strings.Ascii.
From S2P Require Import Prelude Json Doc Sample Action Model Builtins Entry Store Text Cosign Invite Blob.
From S2P Require Import Engine Fs ReadModel Package Update Processor Config Logs Status Daemon Web Server.
From S2P Require Import Api Host Instances Start.

(** ** Arguments *)

(** [cli::DriveCommand], [DocCommand], [ConfigCommand], [Command]. *)
Inductive DriveCommand :=
  | DriveAdd (addr : string) (name token_env : option string) (offline : bool)
  | DriveRemove (target : string)
  | DriveList
  | DrivePause (target : string)
  | DriveResume (target : string)
  | DriveResync (target : string).
Inductive DocCommand :=
  | DocList
  | DocGet (name : string)
  | DocAdd (name : string) (fields : list string)
  | DocVerify (name : string)
  | DocAction (name kind payload model : string).
Inductive ConfigCommand :=
  | ConfigShow
  | ConfigSet (key value : string).
Inductive CliCommand :=
  | CliRun (daemonize : bool)
  | CliStop
  | CliStatus (as_json : bool)
  | CliDrive (cmd : DriveCommand)
  | CliDoc (cmd : DocCommand)
  | CliQuery (model : string) (filter : option string)
  | CliInvite (groups : list string)
  | CliPropose (group kind payload : string)
  | CliCosign (token : string)
  | CliSubmit (token : string)
  | CliJoin (invite : string)
  | CliBan (peer : string)
  | CliUnban (peer : string)
  | CliDoctor
  | CliConfig (cmd : ConfigCommand)
  | CliLogs (follow : bool).

(** ** Formatting *)

(** [{:<n}] and [{:>n}]. *)
Fixpoint spaces (n : nat) : string := match n with O => "" | S n => String " " (spaces n) end.
Definition pad_right (n : nat) (s : string) : string := s +:+ spaces (n - slen s).
Definition pad_left (n : nat) (s : string) : string := spaces (n - slen s) +:+ s.

(** [Display] of a status code. *)
Definition reason (st : N) : string :=
  if decide (st = 200%N) then "OK" else if decide (st = 201%N) then "Created"
  else if decide (st = 202%N) then "Accepted" else if decide (st = 400%N) then "Bad Request"
  else if decide (st = 403%N) then "Forbidden" else if decide (st = 404%N) then "Not Found"
  else if decide (st = 409%N) then "Conflict" else if decide (st = 422%N) then "Unprocessable Entity"
  else if decide (st = 500%N) then "Internal Server Error" else if decide (st = 503%N) then "Service Unavailable"
  else if decide (st = 504%N) then "Gateway Timeout" else "<unknown status code>".
Definition status_text (st : N) : string := pretty st +:+ " " +:+ reason st.
Definition is_success (r : Response) : bool := ((200 <=? rp_status r) && (rp_status r <? 300))%N.

(** [VerifyReport::render]. *)
Definition render_check (i : nat) (a : ActionCheck) : string :=
  "  [" +:+ pretty i +:+ "] " +:+ (if ac_ok a then "ok  " else "FAIL") +:+ " ts=" +:+ pretty (ac_ts a)
  +:+ " origin=" +:+ ac_origin a +:+ " kind=" +:+ ac_kind a +:+ " model=" +:+ ac_model a +:+ newline
  +:+ String.concat "" ((fun p => "        - " +:+ p +:+ newline) <$> ac_problems a).
Definition render_report `{Uuid} (r : VerifyReport) : string :=
  "verify " +:+ vr_name r +:+ newline +:+ "  doc  " +:+ uuid_display (vr_doc_id r) +:+ newline
  +:+ match vr_model r with Some m => "  model " +:+ modelref_display m +:+ newline | None => "" end
  +:+ "  " +:+ pretty (length (vr_actions r)) +:+ " action(s)"
  +:+ (if vr_from_snapshot r then " since snapshot" else "") +:+ newline +:+ newline
  +:+ String.concat "" (imap render_check (vr_actions r)) +:+ newline
  +:+ (if vr_ok r
       then "VERIFIED: every signature, co-signature, and precondition" +:+ newline
            +:+ "check out, the hash chain is intact, and the re-folded field map matches" +:+ newline
            +:+ "the stored doc." +:+ newline
       else "FAILED: one or more checks did not pass (see above)." +:+ newline).

Section Cli.
Context `{Platform, Net} `{!NetText} `{JsonText} `{!Serde (list string)} `{!Serde (list Value)}
  `{!Serde (list ProcessorSpec)} `{!Keys} `{Uuid}.
Context {W : Type} (transport : HttpReq -> W -> W * result string Response).
Context (mc : Machine) (sp : StatePaths) (version : string).
Implicit Types (h : Host W) (config : ReactorConfig).
Local Abbreviation os := (mc_os mc).

(** ** Calls *)

(** One request. *)
Definition http (rq : HttpReq) : hostM W Response := fun h =>
  ({| ho_fs := ho_fs h; ho_disk := ho_disk h; ho_world := (transport rq (ho_world h)).1; ho_out := ho_out h;
      ho_err := ho_err h |}, (transport rq (ho_world h)).2).
(** The text of an answer, and its JSON. *)
Definition resp_text (r : Response) : string :=
  match rp_body r with
  | RText s => s
  | RJson v => json_to_string v
  | RBytes b => text_of b
  | _ => ""
  end.
Definition resp_json (r : Response) : result string Value :=
  match rp_body r with RJson v => Ok v | _ => Err "error decoding response body" end.

Definition settings_base config : string :=
  "http://" +:+ st_host (c_settings config) +:+ ":" +:+ pretty (st_port (c_settings config)).
Definition load_config : hostM W ReactorConfig :=
  on_fs (fs_map_err config_error_text (load sp (os_secs os))).
Definition is_running : hostM W bool := on_fs (daemon_is_running os (daemon_pidfile sp)).
Definition from_text (s : string) : option Value :=
  match json_parse (as_bytes s) with Ok v => Some v | Err _ => None end.
Definition post config (path : string) (body : Value) : hostM W Response :=
  http {| rq_method := "POST"; rq_url := settings_base config +:+ path; rq_body := Some body |}.

(** [open_local_store]. *)
Definition open_local_store : hostM W Inner :=
  '(kp, sk) ← node_identity mc sp;
  seed ← on_fs (seed_models sp);
  open_store kp sk seed.

(** ** Status *)

(** The snapshot of the daemon, if one answers. *)
Definition live_snapshot (url : string) : hostM W (option StatusSnapshot) :=
  r ← attempt (http {| rq_method := "GET"; rq_url := url; rq_body := None |});
  mret match r with
       | Ok r => if is_success r
                 then match v ← resp_json r; status_of_json v with Ok s => Some s | Err _ => None end
                 else None
       | Err _ => None
       end.

(** [status]; [to_string] of the snapshot is its compact JSON. *)
Definition status_command (as_json : bool) : hostM W unit :=
  _ ← on_fs (ensure_dirs sp);
  config ← load_config;
  live ← live_snapshot (settings_base config +:+ "/api/status");
  let snap := default (degraded_snapshot (os_secs os) version config (settings_base config)) live in
  println (if as_json then json_to_string (status_json snap) else render_text snap).

(** ** Drives *)

(** [live_drive_views]. *)
Definition live_drive_views config : hostM W (list DriveStatusEntry) :=
  live ← live_snapshot (settings_base config +:+ "/api/status");
  mret match live with Some s => sn_drives s | None => degraded_drive <$> c_drives config end.
Definition drive_line (i : nat) (d : DriveStatusEntry) : list string :=
  (pad_left 2 (pretty (i + 1)) +:+ "  " +:+ pad_right 24 (ds_name d) +:+ " [" +:+ pad_right 14 (ds_status d)
     +:+ "] " +:+ ds_addr d)
  :: (if bool_decide (ds_detail d = "") then [] else ["    " +:+ ds_detail d]).
Fixpoint print_all (l : list string) : hostM W unit :=
  match l with [] => mret tt | s :: l => _ ← println s; print_all l end.

(** What [direct_drive_op] prints when it succeeds. *)
Definition direct_done (op : DriveOp) : string :=
  match op with
  | OpAdd name addr _ _ =>
      let n := match new_drive name addr with Ok (n, _) => n | Err _ => name end in
      "added drive '" +:+ n +:+ "' (" +:+ trim addr +:+ ")"
  | OpRemove name => "removed drive '" +:+ name +:+ "'"
  | OpPause name => "paused drive '" +:+ name +:+ "'"
  | OpResume name => "resumed drive '" +:+ name +:+ "'"
  | OpResync name => "drive '" +:+ name +:+ "' will re-sync on the next daemon start (it is not running now)"
  end.
Definition run_direct config (op : DriveOp) : hostM W unit :=
  _ ← on_fs (direct_drive_op sp config op); println (direct_done op).

(** [dispatch_drive_op]. *)
Definition dispatch_drive_op config (op : DriveOp) : hostM W unit :=
  up ← is_running;
  if negb up then run_direct config op else
  let '(method, url, body) := api_target config op in
  r ← attempt (http {| rq_method := method; rq_url := url; rq_body := body |});
  match r with
  | Ok r => if is_success r then println "sent to the running daemon (it will apply it shortly)"
            else fail_ ("daemon rejected the request: " +:+ status_text (rp_status r))
  | Err err =>
      _ ← eprintln ("daemon is not reachable; updating the config directly (" +:+ err +:+ ")");
      run_direct config op
  end.

(** [drive_command]. *)
Definition on_target config (target : string) (op : string -> DriveOp) : hostM W unit :=
  name ← lift (resolve_target config target); dispatch_drive_op config (op name).
Definition drive_command (cmd : DriveCommand) : hostM W unit :=
  _ ← on_fs (ensure_dirs sp);
  config ← load_config;
  match cmd with
  | DriveList =>
      snap ← live_drive_views config;
      match snap with
      | [] => println "no drives configured (add one: ph-reactor drive add <multiaddr>)"
      | _ => print_all (mjoin (imap drive_line snap))
      end
  | DriveAdd addr name token_env offline =>
      dispatch_drive_op config (OpAdd (default "" name) addr token_env offline)
  | DriveRemove target => on_target config target OpRemove
  | DrivePause target => on_target config target OpPause
  | DriveResume target => on_target config target OpResume
  | DriveResync target => on_target config target OpResync
  end.

(** ** Documents *)

Definition not_running (why : string) : string :=
  "the daemon is not running — start it (ph-reactor) and retry: " +:+ why.

(** The loop over [--field] arguments. *)
Fixpoint parse_fields (l : list string) (acc : gmap string Value) : result string (gmap string Value) :=
  match l with
  | [] => Ok acc
  | kv :: l =>
      match split_once "="%char kv with
      | None => Err ("--field expects KEY=VALUE (got '" +:+ kv +:+ "')")
      | Some (k, v) =>
          let k := trim k in let v := trim v in
          if bool_decide (k = "") then Err "--field name may not be empty"
          else parse_fields l (<[k := default (Str v) (from_text v)]> acc)
      end
  end.

(** The answer of a request that creates or applies something. *)
Definition concluded (r : Response) (done_ : string) (failed : string) : hostM W unit :=
  if is_success r then println done_
  else fail_ (failed +:+ ": " +:+ status_text (rp_status r) +:+ " " +:+ resp_text r).

Definition doc_line (d : Doc) : string :=
  pad_right 32 (doc_name d) +:+ " " +:+ uuid_display (doc_id d) +:+ " ("
  +:+ pretty (size (filter (fun kv => fld_deleted kv.2 = false) (doc_fields d))) +:+ " fields)".
Definition shown_fields (d : Doc) : Value :=
  fields_json ((fun f => if fld_deleted f then Null else fld_value f) <$> doc_fields d).

(** [doc_command]. *)
Definition doc_command (cmd : DocCommand) : hostM W unit :=
  _ ← on_fs (ensure_dirs sp);
  match cmd with
  | DocList =>
      s ← open_local_store;
      match list_docs s with
      | [] => println "no local docs (add one: ph-reactor doc add <name> [--field k=v])"
      | l => print_all (doc_line <$> l)
      end
  | DocGet name =>
      s ← open_local_store;
      match get_doc s name with
      | None => fail_ ("no such doc: '" +:+ name +:+ "'")
      | Some d => println (text_of (json_pretty (shown_fields d)))
      end
  | DocAdd name fields =>
      up ← is_running;
      if negb up
      then fail_ (not_running "docs are created through the daemon so they reach the sync mesh") else
      config ← load_config;
      m ← lift (parse_fields fields ∅);
      r ← post config "/api/docs" (json_obj [("name", Str name); ("fields", fields_json m)]);
      concluded r ("created doc '" +:+ name +:+ "'") "daemon rejected the doc"
  | DocVerify name =>
      s ← open_local_store;
      report ← lift (verify_doc s name);
      _ ← println (render_report report);
      if vr_ok report then mret tt else fail_ ("verification failed for '" +:+ name +:+ "'")
  | DocAction name kind payload model =>
      up ← is_running;
      if negb up
      then fail_ (not_running "model actions are applied through the daemon so they reach the sync mesh") else
      p ← lift (ok_or (from_text payload) "the --payload must be JSON");
      config ← load_config;
      r ← post config "/api/docs/action"
            (json_obj [("name", Str name); ("kind", Str kind); ("payload", p); ("model", Str model)]);
      concluded r ("applied " +:+ kind +:+ " to '" +:+ name +:+ "'") "daemon rejected the action"
  end.

(** [query_command]. *)
Definition query_command (model : string) (filter : option string) : hostM W unit :=
  _ ← on_fs (ensure_dirs sp);
  s ← open_local_store;
  println (text_of (json_pretty (Array (query_docs s model (filter ≫= parse_filter from_text))))).

(** ** Invites, co-signing, bans *)

(** A request to the running daemon, after the checks they all make. *)
Definition ask_daemon (why path : string) (body : Value) : hostM W Response :=
  _ ← on_fs (ensure_dirs sp);
  up ← is_running;
  if negb up then fail_ (not_running why) else
  config ← load_config;
  post config path body.
Definition answer_field (r : Response) (k : string) : hostM W string :=
  v ← lift (resp_json r); mret (default "" (x ← vget v k; as_str x)).

(** [invite_command], [join_command], [ban_command]. *)
Definition invite_command (groups : list string) : hostM W unit :=
  r ← ask_daemon "invites are generated by the daemon from its live identity" "/api/invite"
        (json_obj [("groups", json_strs groups)]);
  if negb (is_success r)
  then fail_ ("invite failed: " +:+ status_text (rp_status r) +:+ " " +:+ resp_text r) else
  i ← answer_field r "invite"; println i.
Definition join_command (invite : string) : hostM W unit :=
  r ← ask_daemon "joins add a drive through the daemon so the engine dials the inviter" "/api/join"
        (json_obj [("invite", Str invite)]);
  if negb (is_success r)
  then fail_ ("join failed: " +:+ status_text (rp_status r) +:+ " " +:+ resp_text r)
  else println "joined: the inviter is pinned and a drive was added (it syncs once the connection is up)".
Definition ban_command (peer : string) (unban : bool) : hostM W unit :=
  r ← ask_daemon "ban lists are enforced by the daemon's engine"
        (if unban then "/api/unban" else "/api/ban") (json_obj [("peer", Str peer)]);
  if negb (is_success r)
  then fail_ ((if unban then "unban" else "ban") +:+ " failed: " +:+ status_text (rp_status r) +:+ " "
                +:+ resp_text r)
  else println (if unban then "unbanned " +:+ peer
                else "banned " +:+ peer +:+ " (its handshakes will be refused)").

(** [cosign_endpoint] and the three commands on it. *)
Definition cosign_endpoint (path : string) (body : Value) (what : string) : hostM W unit :=
  r ← ask_daemon (what +:+ " needs the daemon's live identity and store") path body;
  if negb (is_success r) then fail_ (what +:+ " failed: " +:+ resp_text r) else
  t ← answer_field r "token"; println t.
Definition propose_command (group kind payload : string) : hostM W unit :=
  p ← lift (match json_parse (as_bytes payload) with
            | Ok v => Ok v | Err e => Err ("--payload is not valid JSON: " +:+ e) end);
  cosign_endpoint "/api/propose" (json_obj [("group", Str group); ("kind", Str kind); ("payload", p)]) "propose".
Definition cosign_command (token : string) : hostM W unit :=
  cosign_endpoint "/api/cosign" (json_obj [("token", Str token)]) "cosign".
Definition submit_command (token : string) : hostM W unit :=
  cosign_endpoint "/api/submit" (json_obj [("token", Str token)]) "submit".

(** ** Doctor *)

(** A check that is printed; the count of the failed ones. *)
Definition check_line (name : string) (ok : bool) (detail : string) : string :=
  (if ok then "PASS" else "FAIL") +:+ "  " +:+ pad_right 16 name +:+ " " +:+ detail.
Definition report_check (failed : nat) (name : string) (ok : bool) (detail : string) : hostM W nat :=
  _ ← println (check_line name ok detail); mret (if ok then failed else S failed).

Definition identity_check : hostM W (bool * string) :=
  r ← attempt (on_fs (load_or_create_identity (mc_fresh mc) (key_file sp)));
  mret match r with
       | Ok kp => (true, "peer " +:+ String.substring 0 (Nat.min 16 (slen (peer_id_of kp))) (peer_id_of kp))
       | Err e => (false, e)
       end.
(** The store is opened with the built-in models only. *)
Definition store_check : hostM W (bool * string) :=
  r ← attempt (kp ← on_fs (load_or_create_identity (mc_fresh mc) (key_file sp));
               sk ← lift (signing_key kp);
               open_store kp sk []);
  mret match r with
       | Ok s => (true, pretty (live_doc_count s) +:+ " live docs")
       | Err e => (false, e)
       end.
Definition listen_check config : bool * string :=
  let listen := in_listen (c_instance config) in
  match addr_parse listen with
  | Ok ma => match check_listen_port os ma with Ok _ => (true, listen) | Err e => (false, e) end
  | Err e => (false, e)
  end.
Definition settings_check config : hostM W (bool * string) :=
  let url := settings_base config +:+ "/api/status" in
  up ← is_running;
  if negb up then mret (true, "daemon not running (skipped)") else
  r ← attempt (http {| rq_method := "GET"; rq_url := url; rq_body := None |});
  mret (match r with Ok r => is_success r | Err _ => false end, url).
Definition bus_check : bool * string :=
  match os_env os "DBUS_SESSION_BUS_ADDRESS" ≫= nonempty with
  | Some addr => (true, addr)
  | None => (false, "no session bus (the tray will not appear; headless is fine)")
  end.

(** [doctor]. *)
Definition doctor : hostM W unit :=
  _ ← on_fs (ensure_dirs sp);
  config ← load_config;
  dirs ← attempt (on_fs (ensure_dirs sp));
  n ← report_check 0 "state dir" (is_ok dirs) (path_display (sp_root sp));
  '(ok, detail) ← identity_check; n ← report_check n "identity" ok detail;
  '(ok, detail) ← store_check; n ← report_check n "store" ok detail;
  n ← report_check n "listen" (listen_check config).1 (listen_check config).2;
  '(ok, detail) ← settings_check config; n ← report_check n "settings" ok detail;
  n ← report_check n "session bus" bus_check.1 bus_check.2;
  if bool_decide (n = 0) then mret tt else fail_ (pretty n +:+ " check(s) failed").

(** ** Logs *)

(** One round of [logs]: what is read of the file, the offset before, the
    offset after and what is printed. *)
Definition logs_round (offset : N) (read : option (list byte)) : N * list string :=
  match read with
  | None => (0%N, [])
  | Some bytes =>
      let len := N.of_nat (length bytes) in
      let offset := if (len <? offset)%N then 0%N else offset in
      if (offset <? len)%N then
        let chunk := drop (Nat.min (N.to_nat offset) (length bytes)) bytes in
        (len, if utf8_ok chunk then [text_of chunk] else [])
      else (offset, [])
  end.
Fixpoint logs_rounds (offset : N) (reads : list (option (list byte))) : list string :=
  match reads with
  | [] => []
  | r :: reads => let '(offset, out) := logs_round offset r in out ++ logs_rounds offset reads
  end.
(** [logs]; [later] is what the reads of the rounds after the first return,
    until it is interrupted. *)
Definition logs_command (follow : bool) (later : list (option (list byte))) : hostM W unit :=
  r ← attempt (on_fs (fs_read (reactor_log sp)));
  let first := match r with Ok b => Some b | Err _ => None end in
  print_all (logs_rounds 0 (first :: if follow then later else [])).

(** ** Configuration *)

(** [config_command] of main.rs. *)
Definition config_command (cmd : ConfigCommand) : hostM W unit :=
  _ ← on_fs (ensure_dirs sp);
  match cmd with
  | ConfigShow => config ← load_config; println (text_of (render config))
  | ConfigSet key value =>
      config ← load_config;
      let v := default (Str value) (from_text value) in
      config ← lift (match set config key v with (c, Ok _) => Ok c | (_, Err e) => Err (config_error_text e) end);
      _ ← on_fs (fs_map_err config_error_text (save sp config));
      println ("set " +:+ key)
  end.

(** ** Dispatch *)

(** [dispatch] of main.rs, for the commands that end; [start] and [stop_] are
    [run] and [stop] with their clocks. *)
Definition dispatch (start stop_ : hostM W unit) (later : list (option (list byte))) (cmd : CliCommand) :
    hostM W unit :=
  match cmd with
  | CliRun _ => start
  | CliStop => stop_
  | CliStatus as_json => status_command as_json
  | CliDrive cmd => drive_command cmd
  | CliDoc cmd => doc_command cmd
  | CliQuery model filter => query_command model filter
  | CliInvite groups => invite_command groups
  | CliJoin invite => join_command invite
  | CliPropose group kind payload => propose_command group kind payload
  | CliCosign token => cosign_command token
  | CliSubmit token => submit_command token
  | CliBan peer => ban_command peer false
  | CliUnban peer => ban_command peer true
  | CliDoctor => doctor
  | CliConfig cmd => config_command cmd
  | CliLogs follow => logs_command follow later
  end.
(** The exit code of [main]. *)
Definition exit_code (start stop_ : hostM W unit) (later : list (option (list byte))) (cmd : option CliCommand) :
    hostM W N := fun h =>
  match dispatch start stop_ later (default (CliRun false) cmd) h with
  | (h, Ok _) => (h, Ok 0%N)
  | (h, Err e) => ((eprintln ("ph-reactor: " +:+ e) h).1, Ok 1%N)
  end.
End Cli.
