(* ===== verification/CliProps.v ===== *)
(** What the command line guarantees: a command that needs the daemon reaches
    it, as the request it stands for, or does nothing; reading without the
    daemon agrees with the daemon; and what [logs] and [doctor] show. *)

From stdpp Require Import base gmap strings numbers pretty list.
From Stdlib Require Import Strings.Byte Strings.Ascii.
From S2P Require Import Prelude Json Doc Sample Action Model Builtins Entry Store StoreInv Text Cosign Invite Blob.
From S2P Require Import Engine Fs ReadModel Package PackageProps Update Processor Config ConfigProps Logs Status.
From S2P Require Import Daemon DaemonDrives DaemonProps Web Offers Server LlmApi Api Routes Host Instances Start Cli.

(** ** The bodies are read back *)

Lemma de_map_fields m : de_map (fields_json m) = Ok m.
Proof.
  unfold de_map, fields_json, btree_iter. f_equal. rewrite <- (list_to_map_to_list m) at 2.
  apply list_to_map_proper; [|apply sort_by_key_perm].
  rewrite (fmap_Permutation fst _ _ (sort_by_key_perm fst _)). apply NoDup_fst_map_to_list.
Qed.

Section Requests.
Context `{Platform, Net} `{!NetText} `{JsonText} `{!Serde (list string)} `{!Serde (list Value)}
  `{!Serde (list ProcessorSpec)} `{!Keys} `{Uuid}.
Implicit Types (c : ReactorConfig) (cmd : CliCommand).

Definition posted c (path : string) (body : Value) : HttpReq :=
  {| rq_method := "POST"; rq_url := settings_base c +:+ path; rq_body := Some body |}.
Definition drive_request c (op : DriveOp) : HttpReq * WebOp :=
  ({| rq_method := (api_target c op).1.1; rq_url := (api_target c op).1.2; rq_body := (api_target c op).2 |},
   OpDrive op).

(** The drive operation a command asks for. *)
Definition drive_op c (cmd : DriveCommand) : option DriveOp :=
  let at_ target op := match resolve_target c target with Ok n => Some (op n) | Err _ => None end in
  match cmd with
  | DriveAdd addr name token_env offline => Some (OpAdd (default "" name) addr token_env offline)
  | DriveRemove t => at_ t OpRemove
  | DrivePause t => at_ t OpPause
  | DriveResume t => at_ t OpResume
  | DriveResync t => at_ t OpResync
  | DriveList => None
  end.

(** The request a command makes of the daemon, and the operation it stands
    for; none for the commands that work on the files, and for arguments that
    are refused before anything is sent. *)
Definition asked c cmd : option (HttpReq * WebOp) :=
  match cmd with
  | CliDrive d => drive_request c <$> drive_op c d
  | CliDoc (DocAdd name fields) =>
      match parse_fields fields ∅ with
      | Ok m => Some (posted c "/api/docs" (json_obj [("name", Str name); ("fields", fields_json m)]),
                      OpAddDoc name m None)
      | Err _ => None
      end
  | CliDoc (DocAction name kind payload model) =>
      p ← from_text payload;
      Some (posted c "/api/docs/action"
              (json_obj [("name", Str name); ("kind", Str kind); ("payload", p); ("model", Str model)]),
            OpActionDoc name kind p model)
  | CliInvite groups => Some (posted c "/api/invite" (json_obj [("groups", json_strs groups)]), OpInvite groups)
  | CliJoin invite => Some (posted c "/api/join" (json_obj [("invite", Str invite)]), OpJoin invite)
  | CliBan peer => Some (posted c "/api/ban" (json_obj [("peer", Str peer)]), OpBan peer)
  | CliUnban peer => Some (posted c "/api/unban" (json_obj [("peer", Str peer)]), OpUnban peer)
  | CliPropose group kind payload =>
      p ← from_text payload;
      Some (posted c "/api/propose" (json_obj [("group", Str group); ("kind", Str kind); ("payload", p)]),
            OpPropose group kind p None)
  | CliCosign token => Some (posted c "/api/cosign" (json_obj [("token", Str token)]), OpCosign token)
  | CliSubmit token => Some (posted c "/api/submit" (json_obj [("token", Str token)]), OpSubmit token)
  | _ => None
  end.

(** A request to an address of the configuration that is none of the drives'. *)
Lemma posted_routed c path body op :
  drive_route "POST" path (Some body) = None -> routed "POST" path (Some body) = Some (Ok op) ->
  let rq := posted c path body in
  exists p, strip_prefix (settings_base c) (rq_url rq) = Some p /\ (rq_method rq, p) <> ("GET", "/api/status") /\
    route (rq_method rq) p (rq_body rq) = Some (Ok op).
Proof.
  intros Hd Hr. exists path. cbn [rq_url rq_method rq_body posted]. rewrite strip_prefix_app.
  split_and!; [done|by intros [=]|]. unfold route. by rewrite Hd.
Qed.

Lemma drive_routed c op :
  match op with OpAdd _ _ _ _ => True | _ => drive_named op <> "" end ->
  let rq := (drive_request c op).1 in
  exists p, strip_prefix (settings_base c) (rq_url rq) = Some p /\ (rq_method rq, p) <> ("GET", "/api/status") /\
    route (rq_method rq) p (rq_body rq) = Some (Ok (OpDrive op)).
Proof.
  intros Hn. exists (drive_path op). assert (E : rq_url (drive_request c op).1 = settings_base c +:+ drive_path op).
  { unfold settings_base. destruct op; cbn; by rewrite !str_app_assoc. }
  rewrite E, strip_prefix_app. split; [done|]. split; [by destruct op|].
  unfold route. destruct op as [n a t o|n|n|n|n].
  - change (drive_route _ _ _) with (add_body (rq_body (drive_request c (OpAdd n a t o)).1)).
    cbn [drive_request fst rq_body api_target snd]. by rewrite add_body_roundtrip.
  - by rewrite (drive_route_named (OpRemove n)).
  - by rewrite (drive_route_named (OpPause n)).
  - by rewrite (drive_route_named (OpResume n)).
  - by rewrite (drive_route_named (OpResync n)).
Qed.

(** A drive that is found has a name: the configuration was checked. *)
Lemma resolved_named c t n : validate_drives (c_drives c) = Ok tt -> resolve_target c t = Ok n -> n <> "".
Proof.
  intros Hd Hr ->.
  assert (Hb : forall d, d ∈ c_drives c -> dr_name d <> "").
  { clear Hr. revert Hd. induction (c_drives c) as [|d l IH]; intros Hd x Hx; [by apply not_elem_of_nil in Hx|].
    cbn [validate_drives] in Hd. destruct (blank (dr_name d)) eqn:Eb; [done|]. destruct (addr_parse _); [|done].
    apply elem_of_cons in Hx as [->|Hx]; [by intros E; rewrite E in Eb|by apply IH]. }
  unfold resolve_target in Hr. destruct (parse_u64 t).
  - destruct (_ && _); [|done]. destruct (c_drives c !! _) as [d|] eqn:E; [|done].
    apply (Hb d); [by eapply list_elem_of_lookup_2|congruence].
  - destruct (List.find _ _) as [d|] eqn:E; [|done]. apply find_some in E as [Hin _].
    apply (Hb d); [by apply list_elem_of_In|congruence].
Qed.
Lemma drive_op_named c d o :
  validate_drives (c_drives c) = Ok tt -> drive_op c d = Some o ->
  match o with OpAdd _ _ _ _ => True | _ => drive_named o <> "" end.
Proof.
  intros Hv. destruct d; cbn [drive_op]; try done; [by intros [= <-]|..];
    (destruct (resolve_target c target) eqn:E; [|done]; intros [= <-]; by eapply resolved_named).
Qed.

(** Every command arrives as what it says: the server routes its request to the
    operation it stands for. *)
Lemma asked_routed c cmd rq op :
  validate_drives (c_drives c) = Ok tt -> asked c cmd = Some (rq, op) ->
  exists p, strip_prefix (settings_base c) (rq_url rq) = Some p /\ (rq_method rq, p) <> ("GET", "/api/status") /\
    route (rq_method rq) p (rq_body rq) = Some (Ok op).
Proof.
  intros Hv.
  destruct cmd as [| | |d|[| |name fields| |name kind payload model]| |groups|group kind payload|t|t|i|p|p| | |];
    cbn [asked]; try done.
  - intros (o & Ho & E)%fmap_Some. pose proof (drive_routed c o (drive_op_named c d o Hv Ho)) as Hr.
    unfold drive_request in *. by simplify_eq.
  - destruct (parse_fields fields ∅) as [m|]; [|done]. intros [= <- <-]. apply posted_routed; [done|].
    change (routed _ _ _) with (Some (de_doc_body (json_obj [("name", Str name); ("fields", fields_json m)]))).
    f_equal. unfold de_doc_body, json_obj. rewrite struct_obj. cbn [mbind result_bind].
    read_field ltac:(reflexivity). read_field ltac:(apply de_map_fields). done.
  - destruct (from_text payload) as [p|]; [|done]. intros [= <- <-]. by apply posted_routed.
  - intros [= <- <-]. apply posted_routed; [done|].
    change (routed _ _ _) with (Some (de_invite_body (json_obj [("groups", json_strs groups)]))).
    f_equal. unfold de_invite_body, json_obj. rewrite struct_obj. cbn [mbind result_bind].
    read_field ltac:(apply de_vec_strs). done.
  - destruct (from_text payload) as [p|]; [|done]. intros [= <- <-]. by apply posted_routed.
  - intros [= <- <-]. by apply posted_routed.
  - intros [= <- <-]. by apply posted_routed.
  - intros [= <- <-]. by apply posted_routed.
  - intros [= <- <-]. by apply posted_routed.
  - intros [= <- <-]. by apply posted_routed.
Qed.
End Requests.

(** ** A command and its request *)

Section Run.
Context `{Platform, Net} `{!NetText} `{JsonText} `{!Serde (list string)} `{!Serde (list Value)}
  `{!Serde (list ProcessorSpec)} `{!Keys} `{Uuid}.
Context {W : Type} (transport : HttpReq -> W -> W * result string Response).
Context (mc : Machine) (sp : StatePaths) (version : string).
Context (start stop_ : hostM W unit) (later : list (option (list byte))).
Implicit Types (h : Host W) (c : ReactorConfig) (cmd : CliCommand).
Local Abbreviation run := (dispatch transport mc sp version start stop_ later).

Lemma on_fs_same {A} (m : fsM A) h a : m (ho_fs h) = (ho_fs h, Ok a) -> on_fs m h = (h, Ok a).
Proof. intros E. unfold on_fs. rewrite E. by destruct h. Qed.
Lemma on_fs_bind {A B} (m : fsM A) (k : A -> hostM W B) h a :
  m (ho_fs h) = (ho_fs h, Ok a) -> (x ← on_fs m; k x) h = k a h.
Proof. intros E. by rewrite host_run_bind, (on_fs_same _ _ _ E). Qed.

(** A host with a running daemon, and no failing call: what the command reads
    of the files. *)
Record up_with h c : Prop := {
  uw_calm : calm_fs (ho_fs h);
  uw_running : daemon_is_running (mc_os mc) (daemon_pidfile sp) (ho_fs h) = (ho_fs h, Ok true);
  uw_config : load sp (os_secs (mc_os mc)) (ho_fs h) = (ho_fs h, Ok c)
}.

Lemma up_valid h c : up_with h c -> validate_drives (c_drives c) = Ok tt.
Proof.
  intros [_ _ Hl]. unfold load in Hl. rewrite fs_run_bind in Hl.
  pose proof (load_quiet_valid sp (os_secs (mc_os mc)) (ho_fs h)) as Hv.
  pose proof (load_new_default sp (os_secs (mc_os mc)) (ho_fs h)) as Hd.
  destruct (load_quiet sp _ (ho_fs h)) as [fs [[c' [|]]|]]; cbn [fst snd] in *;
    [|injection Hl as _ <-; by apply validate_ok, Hv|done].
  injection Hl as _ <-. by rewrite (Hd c' eq_refl).
Qed.
Lemma ensure_calm fs : calm_fs fs -> ensure_dirs sp fs = (fs, Ok tt).
Proof. destruct fs as [f l]. by intros ->. Qed.
Lemma load_bind {B} h c (k : ReactorConfig -> hostM W B) :
  up_with h c -> (x ← load_config mc sp; k x) h = k c h.
Proof. intros [_ _ E]. apply on_fs_bind. unfold fs_map_err. by rewrite E. Qed.
Lemma running_bind {B} h c (k : bool -> hostM W B) :
  up_with h c -> (x ← is_running mc sp; k x) h = k true h.
Proof. intros [_ E _]. by apply on_fs_bind. Qed.
Lemma dirs_bind {B} h c (k : unit -> hostM W B) :
  up_with h c -> (x ← on_fs (ensure_dirs sp); k x) h = k tt h.
Proof. intros [E _ _]. by apply on_fs_bind, ensure_calm. Qed.

Lemma ask_daemon_run h c why path body :
  up_with h c -> ask_daemon transport mc sp why path body h = http transport (posted c path body) h.
Proof.
  intros Hu. unfold ask_daemon. rewrite (dirs_bind _ c), (running_bind _ c) by done. cbn [negb].
  by rewrite (load_bind _ c).
Qed.

(** What a request leaves of the host. *)
Definition after_http rq h : Host W :=
  {| ho_fs := ho_fs h; ho_disk := ho_disk h; ho_world := (transport rq (ho_world h)).1; ho_out := ho_out h;
     ho_err := ho_err h |}.
Lemma http_run rq h : http transport rq h = (after_http rq h, (transport rq (ho_world h)).2).
Proof. done. Qed.

(** Commands that read a text out of the answer. *)
Definition decodes cmd (r : Response) : bool :=
  match cmd with
  | CliInvite _ | CliPropose _ _ _ | CliCosign _ | CliSubmit _ => is_ok (resp_json r)
  | _ => true
  end.
Definition is_drive cmd : bool := match cmd with CliDrive _ => true | _ => false end.

(** The rest of a command does no more than print and conclude. *)
Definition concludes (h h' : Host W) : Prop :=
  ho_fs h' = ho_fs h /\ ho_disk h' = ho_disk h /\ ho_world h' = ho_world h.

Lemma cosign_run h c path body what rq :
  up_with h c -> rq = posted c path body ->
  let out := cosign_endpoint transport mc sp path body what h in
  concludes (after_http rq h) out.1 /\
  is_ok out.2 = match (transport rq (ho_world h)).2 with
                | Ok r => is_success r && is_ok (resp_json r) | Err _ => false end.
Proof.
  intros Hu ->. cbn zeta. unfold cosign_endpoint. host_step. rewrite (ask_daemon_run _ c) by done.
  rewrite http_run. cbn [fst snd]. destruct (transport _ _).2 as [r|e]; [|done].
  destruct (is_success r); cbn [negb andb]; [|done]. unfold answer_field. host_step. host_step.
  unfold lift. by destruct (resp_json r).
Qed.

Lemma asked_run h c cmd rq op :
  up_with h c -> asked c cmd = Some (rq, op) ->
  (is_drive cmd = true -> is_ok (transport rq (ho_world h)).2 = true) ->
  let out := run cmd h in
  concludes (after_http rq h) out.1 /\
  is_ok out.2 = match (transport rq (ho_world h)).2 with
                | Ok r => is_success r && decodes cmd r | Err _ => false end.
Proof.
  intros Hu. cbn zeta.
  destruct cmd as [| | |d|[| |name fields| |name kind payload model]| |groups|group kind payload|t|t|i|p|p| | |];
    cbn [asked]; try done.
  - intros (o & Ho & [= -> ->])%fmap_Some Hok. specialize (Hok eq_refl). cbn [dispatch].
    assert (Hd : forall k, drive_command transport mc sp d h = k ->
              dispatch_drive_op transport mc sp c o h = k).
    { intros k <-. unfold drive_command. rewrite (dirs_bind _ c), (load_bind _ c) by done.
      destruct d; cbn [drive_op] in Ho; try (by injection Ho as <-); try done; unfold on_target;
        destruct (resolve_target c target); by simplify_eq. }
    rewrite <- (Hd _ eq_refl). unfold dispatch_drive_op. rewrite (running_bind _ c) by done. cbn [negb].
    cbn [drive_request fst] in Hok |- *. destruct (api_target c o) as [[method url] body]. cbn [fst snd] in *.
    host_step. unfold attempt, http. cbn [fst snd].
    destruct (transport _ _).2 as [r|e]; [|done]. cbn [decodes]. rewrite andb_true_r. by destruct (is_success r).
  - destruct (parse_fields fields ∅) as [m|] eqn:Em; [|done]. intros [= <- <-] _. cbn [dispatch]. unfold doc_command.
    rewrite (dirs_bind _ c), (running_bind _ c) by done. cbn [negb]. rewrite (load_bind _ c) by done. rewrite Em.
    host_step. unfold lift. cbn [fst snd]. host_step. unfold post. rewrite http_run. cbn [fst snd].
    destruct (transport _ _).2 as [r|e]; [|done]. cbn [decodes]. rewrite andb_true_r. unfold concluded.
    by destruct (is_success r).
  - destruct (from_text payload) as [v|] eqn:Ev; [|done]. intros [= <- <-] _. cbn [dispatch]. unfold doc_command.
    rewrite (dirs_bind _ c), (running_bind _ c) by done. cbn [negb]. rewrite Ev. host_step. unfold lift. cbn [fst snd ok_or].
    rewrite (load_bind _ c) by done. host_step. unfold post. rewrite http_run. cbn [fst snd].
    destruct (transport _ _).2 as [r|e]; [|done]. cbn [decodes]. rewrite andb_true_r. unfold concluded.
    by destruct (is_success r).
  - intros [= <- <-] _. cbn [dispatch]. unfold invite_command. host_step. rewrite (ask_daemon_run _ c) by done.
    rewrite http_run. cbn [fst snd]. destruct (transport _ _).2 as [r|e]; [|done]. cbn [decodes].
    destruct (is_success r); cbn [negb andb]; [|done]. unfold answer_field. host_step. host_step. unfold lift.
    by destruct (resp_json r).
  - destruct (from_text payload) as [v|] eqn:Ev; [|done]. intros [= <- <-] _. cbn [dispatch decodes].
    unfold propose_command. host_step. unfold from_text in Ev. destruct (json_parse _) as [v'|]; [|done].
    injection Ev as ->. cbn [lift fst snd]. by apply (cosign_run h c).
  - intros [= <- <-] _. by apply (cosign_run h c).
  - intros [= <- <-] _. by apply (cosign_run h c).
  - intros [= <- <-] _. cbn [dispatch]. unfold join_command. host_step. rewrite (ask_daemon_run _ c) by done.
    rewrite http_run. cbn [fst snd]. destruct (transport _ _).2 as [r|e]; [|done]. cbn [decodes]. rewrite andb_true_r.
    by destruct (is_success r).
  - intros [= <- <-] _. cbn [dispatch]. unfold ban_command. host_step. rewrite (ask_daemon_run _ c) by done.
    rewrite http_run. cbn [fst snd]. destruct (transport _ _).2 as [r|e]; [|done]. cbn [decodes]. rewrite andb_true_r.
    by destruct (is_success r).
  - intros [= <- <-] _. cbn [dispatch]. unfold ban_command. host_step. rewrite (ask_daemon_run _ c) by done.
    rewrite http_run. cbn [fst snd]. destruct (transport _ _).2 as [r|e]; [|done]. cbn [decodes]. rewrite andb_true_r.
    by destruct (is_success r).
Qed.
End Run.

(** ** From the command line to the server *)

Section EndToEnd.
Context `{Platform, Net} `{!NetText} `{JsonText} `{Base64} `{!Serde Action} `{!Serde InviteToken}
  `{!Serde (list string)} `{Uuid} `{!Serde (list Value)} `{TextOps} `{!Serde Installed}.
Context `{!Serde Manifest} `{!Serde Release} `{TrustStoreSerde : !Serde TrustStore} `{!Serde (list ProcessorSpec)}
  `{!Keys}.
Context (sip : string * string * bool * option string * string * N * string -> N)
  (show_hash : Hash32 -> string) (current_platform current : string).
Implicit Types (wb : Web) (c : ReactorConfig) (cmd : CliCommand).

Lemma serve_drive_answers wb op : rp_status (serve_drive wb op).2 <> 0%N.
Proof.
  destruct op; cbn [serve_drive]; unfold add_drive_api, remove_drive_api, pause_drive_api, resume_drive_api,
    resync_drive_api, drive_cmd; repeat case_match; done.
Qed.

(** C18. Every command that goes through the daemon does there what it says and
    nothing else.  With the daemon running and its server at the configured
    address, a drive, document, invite, join, ban, propose, co-sign or submit
    command changes the daemon exactly as serving the one operation it stands
    for, with the arguments as typed, touches no file itself, and exits with
    success exactly when the server answered with success (and, where a token is
    printed, with JSON). *)
Theorem command_reaches_server mc sp version start stop_ later env env2 ms now exe (h : Host Web) c cmd rq op :
  up_with mc sp h c -> asked c cmd = Some (rq, op) ->
  let served := serve sip show_hash current_platform current env env2 ms now exe (ho_world h) op in
  let out := dispatch (serve_http sip show_hash current_platform current (settings_base c) env env2 ms now exe)
               mc sp version start stop_ later cmd h in
  ho_world out.1 = served.1 /\ ho_fs out.1 = ho_fs h /\ ho_disk out.1 = ho_disk h /\
  is_ok out.2 = is_success served.2 && decodes cmd served.2.
Proof.
  intros Hu Ha. cbn zeta.
  set (tr := serve_http _ _ _ _ _ _ _ _ _ _).
  set (served := serve sip show_hash current_platform current env env2 ms now exe (ho_world h) op).
  assert (Ht : tr rq (ho_world h) =
            (served.1, if bool_decide (rp_status served.2 = 0%N) then Err "connection closed" else Ok served.2)).
  { destruct (asked_routed c cmd rq op (up_valid _ _ _ _ Hu) Ha) as (p & Ep & Hg & Er). unfold tr, serve_http. rewrite Ep.
    rewrite bool_decide_eq_false_2 by done. rewrite Er. unfold served. by destruct (serve _ _ _ _ _ _ _ _ _ _ _). }
  assert (Hd : is_drive cmd = true -> is_ok (tr rq (ho_world h)).2 = true).
  { intros Hc. rewrite Ht. cbn [snd]. rewrite bool_decide_eq_false_2; [done|].
    destruct cmd as [| | |d| | | | | | | | | | | |]; try done. cbn [asked] in Ha.
    apply fmap_Some in Ha as (o & _ & [= _ ->]). apply serve_drive_answers. }
  destruct (asked_run tr mc sp version start stop_ later h c cmd rq op Hu Ha Hd) as [(F & D & E) R].
  rewrite F, D, E, R. cbn [after_http ho_world ho_fs ho_disk]. rewrite Ht. cbn [fst snd].
  split_and!; try done. case_bool_decide as Hz; [|done]. unfold is_success. by rewrite Hz.
Qed.
End EndToEnd.

(** ** Without the daemon *)

Section Offline.
Context `{Platform, Net} `{!NetText} `{JsonText} `{!Serde (list string)} `{!Serde (list Value)}
  `{!Serde (list ProcessorSpec)} `{!Keys} `{!KeysLaws} `{Uuid}.
Context {W : Type} (transport : HttpReq -> W -> W * result string Response).
Context (mc : Machine) (version : string) (start stop_ : hostM W unit) (later : list (option (list byte))).
Implicit Types (h : Host W) (cmd : CliCommand) (sp : StatePaths).

(** The commands that have no meaning without the daemon. *)
Definition needs_daemon cmd : bool :=
  match cmd with
  | CliDoc (DocAdd _ _ | DocAction _ _ _ _) | CliInvite _ | CliJoin _ | CliBan _ | CliUnban _
  | CliPropose _ _ _ | CliCosign _ | CliSubmit _ => true
  | _ => false
  end.

(** Nothing is sent and no file's contents change. *)
Definition inert (h h' : Host W) : Prop :=
  ho_world h' = ho_world h /\ ho_disk h' = ho_disk h /\ ho_out h' = ho_out h /\
  forall q, fs_files (ho_fs h') !! q = fs_files (ho_fs h) !! q.
Lemma on_fs_inert {A} (m : fsM A) h : (forall q, leaves m q) -> inert h (on_fs m h).1.
Proof. intros Hm. unfold inert, on_fs. cbn. split_and!; try done. intros q. apply Hm. Qed.
Lemma inert_trans h1 h2 h3 : inert h1 h2 -> inert h2 h3 -> inert h1 h3.
Proof. intros (A1 & A2 & A3 & A4) (B1 & B2 & B3 & B4). split_and!; [congruence..|intros q; by rewrite B4]. Qed.
Lemma ensure_dirs_leaves sp q : leaves (ensure_dirs sp) q.
Proof.
  assert (Hd : forall p, leaves (ensure_dir p) q) by (intros p; apply leaves_bind; [apply leaves_meta|intros _; apply leaves_ignore, leaves_meta]).
  by repeat (apply leaves_bind; [done|intros _]).
Qed.
Lemma running_leaves os p q : leaves (daemon_is_running os p) q.
Proof. unfold daemon_is_running. apply leaves_bind; [auto with reactor|]. intros raw. apply leaves_ret. Qed.

(** No pid file, or one that names no living process. *)
Definition down sp (f : gmap Path (list byte)) : Prop :=
  forall raw pid, f !! daemon_pidfile sp = Some raw -> parse_i32 (trim (text_of raw)) = Some pid ->
    process_alive (mc_os mc) pid = false.

Lemma down_running sp fs :
  down sp (fs_files fs) -> (daemon_is_running (mc_os mc) (daemon_pidfile sp) fs).2 <> Ok true.
Proof.
  intros Hd. unfold daemon_is_running. rewrite fs_run_bind. unfold fs_try, fs_read_to_string. rewrite fs_run_bind.
  pose proof (fs_read_ok (daemon_pidfile sp) fs) as Hr. destruct (fs_read _ fs) as [fs' [raw|e]]; cbn [fst snd] in *; [|done].
  specialize (Hr raw eq_refl). destruct (utf8_ok raw); cbn; [|done].
  destruct (parse_i32 _) as [pid|] eqn:Ep; [|done]. rewrite (Hd raw pid Hr Ep), andb_false_r. done.
Qed.
Lemma down_inert sp h h' : inert h h' -> down sp (fs_files (ho_fs h)) -> down sp (fs_files (ho_fs h')).
Proof. intros (_ & _ & _ & Hf) Hd raw pid. rewrite Hf. apply Hd. Qed.

(** A step that sends nothing and fails; a failing step ends the command. *)
Definition refuses {A} (m : hostM W A) h : Prop := inert h (m h).1 /\ is_ok (m h).2 = false.
Lemma refuses_bind {A B} (m : hostM W A) (k : A -> hostM W B) h : refuses m h -> refuses (x ← m; k x) h.
Proof. unfold refuses. rewrite host_run_bind. destruct (m h) as [h' [a|e]]; cbn; [by intros []|done]. Qed.
Lemma refuses_later {A B} (m : hostM W A) (k : A -> hostM W B) h :
  inert h (m h).1 -> (forall a, refuses (k a) (m h).1) -> refuses (x ← m; k x) h.
Proof.
  intros Hi Hk. unfold refuses. rewrite host_run_bind. destruct (m h) as [h' [a|e]]; cbn [fst snd] in *; [|done].
  destruct (Hk a) as [Hj Hf]. split; [by eapply inert_trans|done].
Qed.
Lemma lift_inert {A} (r : result string A) h : inert h (lift r h).1.
Proof. by unfold inert. Qed.

Lemma gate_refuses {A} sp why (k : hostM W A) h :
  down sp (fs_files (ho_fs h)) ->
  refuses (up ← is_running mc sp; if negb up then fail_ (not_running why) else k) h.
Proof.
  intros Hd%down_running.
  pose proof (on_fs_inert (daemon_is_running (mc_os mc) (daemon_pidfile sp)) h (running_leaves _ _)) as Hi.
  unfold refuses. rewrite host_run_bind. unfold is_running, on_fs in *. cbn [fst snd] in *.
  by destruct (daemon_is_running _ _ _).2 as [[]|e].
Qed.
Lemma dirs_refuse {A} sp (k : unit -> hostM W A) h :
  down sp (fs_files (ho_fs h)) -> (forall h', down sp (fs_files (ho_fs h')) -> refuses (k tt) h') ->
  refuses (x ← on_fs (ensure_dirs sp); k x) h.
Proof.
  intros Hd Hk. pose proof (on_fs_inert (ensure_dirs sp) h (ensure_dirs_leaves sp)) as Hi.
  apply refuses_later; [done|]. intros []. by apply Hk, down_inert with h.
Qed.
Lemma ask_refuses sp why path body h :
  down sp (fs_files (ho_fs h)) -> refuses (ask_daemon transport mc sp why path body) h.
Proof. intros Hd. apply dirs_refuse; [done|]. intros h' Hd'. by apply gate_refuses. Qed.

(** A command that only the daemon can carry out does nothing without it:
    whatever fails, with no live process behind the pid file, it sends nothing,
    changes no file and no document, prints no result and exits with an error. *)
Theorem commands_need_daemon sp h cmd :
  needs_daemon cmd = true -> down sp (fs_files (ho_fs h)) ->
  let out := dispatch transport mc sp version start stop_ later cmd h in
  inert h out.1 /\ is_ok out.2 = false.
Proof.
  intros Hn Hd. cbn zeta. change (refuses (dispatch transport mc sp version start stop_ later cmd) h).
  destruct cmd as [| | | |[]| | | | | | | | | | |]; try done; cbn [dispatch].
  - apply dirs_refuse; [done|]. intros h' Hd'. by apply gate_refuses.
  - apply dirs_refuse; [done|]. intros h' Hd'. by apply gate_refuses.
  - by apply refuses_bind, ask_refuses.
  - apply refuses_later; [apply lift_inert|]. intros p. by apply refuses_bind, ask_refuses.
  - by apply refuses_bind, ask_refuses.
  - by apply refuses_bind, ask_refuses.
  - by apply refuses_bind, ask_refuses.
  - by apply refuses_bind, ask_refuses.
  - by apply refuses_bind, ask_refuses.
Qed.

(** A step that prints nothing. *)
Definition silent {A} (m : hostM W A) : Prop := forall h, ho_out (m h).1 = ho_out h.
Lemma silent_on_fs {A} (m : fsM A) : silent (on_fs m).
Proof. done. Qed.
Lemma silent_context {A} t (m : hostM W A) : silent m -> silent (context t m).
Proof. intros Hm h. specialize (Hm h). unfold context. by destruct (m h) as [h' []]. Qed.
Lemma silent_bind {A B} (m : hostM W A) (k : A -> hostM W B) :
  silent m -> (forall a, silent (k a)) -> silent (x ← m; k x).
Proof.
  intros Hm Hk h. rewrite host_run_bind. specialize (Hm h). destruct (m h) as [h' [a|e]]; cbn [fst snd] in *; [|done].
  by rewrite Hk.
Qed.
Lemma open_local_silent sp : silent (open_local_store mc sp).
Proof.
  unfold open_local_store, node_identity, open_store.
  apply silent_bind; [apply silent_bind; [by apply silent_context|]; intros kp; by apply silent_bind|].
  intros [kp sk]. apply silent_bind; [done|]. intros seed. by repeat (apply silent_bind; [done|intros ?]).
Qed.

(** The store a reading command works on. *)
Lemma open_local_calm r h f d :
  let sp := for_root r in
  able mc sp f -> on_disk h f d ->
  exists kp sk, keyed sp f kp sk /\
    (open_local_store mc sp h).2 = Ok (open_inner d sk (peer_id_of kp) (models_of sp f)).
Proof.
  intros sp Hab Hd. destruct (node_identity_calm mc sp h f d Hab Hd) as (h1 & f1 & kp & sk & R1 & D1 & F1 & K).
  exists kp, sk. split; [done|]. unfold open_local_store. rewrite (host_bind_ok _ _ _ _ _ R1).
  destruct (on_fs_disk (seed_models sp) h1 f1 d f1 _ D1 (seed_models_calm sp f1)) as (h2 & R2 & D2).
  rewrite (host_bind_ok _ _ _ _ _ R2).
  assert (Em : defs_in (disk f1) (models_file sp) = defs_in (disk f) (models_file sp)).
  { unfold defs_in. cbn [fs_files]. rewrite F1; [done|]. by apply (listed_paths r). }
  rewrite Em. destruct (open_store_calm kp sk (models_of sp f) h2 f1 d D2) as (h3 & E3 & _).
  unfold models_of in *. by rewrite E3.
Qed.

(** C39. Reading without the daemon agrees with the daemon: on a directory that
    has its identity, the store every reading command opens is the one a daemon
    started on that directory works on, and [query] prints exactly the rows the
    daemon answers the same query with. *)
Theorem offline_reads_agree r h f d b config model filter :
  let sp := for_root r in
  able mc sp f -> on_disk h f d -> f !! key_file sp = Some b -> length b = 32 ->
  validate config = Ok tt -> unique (c_drives config) ->
  exists ru, (bring_up mc sp config h).2 = Ok ru /\
    (open_local_store mc sp h).2 = Ok (x_store (ru_ctx ru)) /\
    ho_out (query_command mc sp model filter h).1 =
      ho_out h ++ [text_of (json_pretty (Array
        (query_docs (x_store (ru_ctx ru)) model (filter ≫= parse_filter from_text))))].
Proof.
  intros sp Hab Hd Hb H32 Hv Hq.
  destruct (bring_up_ready mc r config h f d Hab Hd Hv Hq) as (h' & ru & kp & sk & E & _ & [K1 K2] & Es & _).
  fold sp in E, K1, Es.
  assert (Hopen : forall h0, on_disk h0 f d -> (open_local_store mc sp h0).2 = Ok (x_store (ru_ctx ru))).
  { intros h0 Hd0. destruct (open_local_calm r h0 f d Hab Hd0) as (kp' & sk' & [K3 K4] & Eo). fold sp in K3, Eo. rewrite Eo, Es.
    specialize (K1 b Hb H32). specialize (K3 b Hb H32). rewrite K3 in K1. injection K1 as ->.
    rewrite K4 in K2. by injection K2 as ->. }
  exists ru. split_and!; [by rewrite E|by apply Hopen|]. unfold query_command.
  destruct (on_fs_disk (ensure_dirs sp) h f d f tt Hd eq_refl) as (h1 & R1 & D1).
  assert (E1 : ho_out h1 = ho_out h) by (by rewrite <- (silent_on_fs (ensure_dirs sp) h), R1).
  rewrite (host_bind_ok _ _ _ _ _ R1). host_step. rewrite (Hopen h1 D1).
  cbn [println fst ho_out]. by rewrite open_local_silent, E1.
Qed.
End Offline.

(** ** The log that is followed *)

(** The contents of a file that grows by the given pieces. *)
Fixpoint grown (b : list byte) (pieces : list (list byte)) : list (list byte) :=
  match pieces with [] => [] | p :: pieces => (b ++ p) :: grown (b ++ p) pieces end.

Lemma text_of_app a b : text_of (a ++ b) = text_of a +:+ text_of b.
Proof.
  unfold text_of, String.string_of_list_byte. rewrite List.map_app.
  generalize (List.map ascii_of_byte b) as k. induction (List.map ascii_of_byte a) as [|x l IH]; intros k; [done|].
  cbn [app String.string_of_list_ascii]. by rewrite IH.
Qed.
Lemma concat_app_text l k : String.concat "" (l ++ k) = String.concat "" l +:+ String.concat "" k.
Proof.
  induction l as [|s l IH]; [done|]. destruct l as [|t l].
  - destruct k; cbn; [by rewrite str_app_nil_r|done].
  - change (s +:+ String.concat "" ((t :: l) ++ k) = (s +:+ String.concat "" (t :: l)) +:+ String.concat "" k).
    by rewrite IH, str_app_assoc.
Qed.

Lemma logs_round_grown b p :
  utf8_ok p = true ->
  logs_round (N.of_nat (length b)) (Some (b ++ p)) =
    (N.of_nat (length (b ++ p)), if bool_decide (p = []) then [] else [text_of p]).
Proof.
  intros Hu. unfold logs_round. cbn zeta. rewrite length_app.
  rewrite (proj2 (N.ltb_ge (N.of_nat (length b + length p)) (N.of_nat (length b)))) by lia. destruct p as [|x p].
  - cbn [length]. rewrite (proj2 (N.ltb_ge _ _)) by lia. rewrite bool_decide_eq_true_2 by done. f_equal. lia.
  - rewrite (proj2 (N.ltb_lt _ _)) by (cbn [length]; lia). rewrite bool_decide_eq_false_2 by done.
    rewrite Nat2N.id, Nat.min_l by lia. by rewrite drop_app_length, Hu.
Qed.

(** Following the log shows the log: while the file grows, by whatever
    pieces of whole characters between two reads, what [logs] prints, put
    together, is what was written, no line twice and none lost. *)
Theorem logs_complete b pieces :
  Forall (fun p => utf8_ok p = true) pieces ->
  String.concat "" (logs_rounds (N.of_nat (length b)) (Some <$> grown b pieces)) = text_of (mjoin pieces).
Proof.
  intros Hp. revert b. induction Hp as [|p pieces Hu _ IH]; intros b; [done|].
  cbn [grown fmap list_fmap logs_rounds]. rewrite logs_round_grown by done.
  rewrite concat_app_text. rewrite IH. change (mjoin (p :: pieces)) with (p ++ mjoin pieces).
  rewrite text_of_app. f_equal. case_bool_decide as E; [by rewrite E|done].
Qed.
Lemma logs_complete_witness :
  String.concat "" (logs_rounds 0 (Some <$> grown [] [as_bytes "one"; []; as_bytes " two"])) = "one two".
Proof. refine (logs_complete [] [as_bytes "one"; []; as_bytes " two"] _). by repeat constructor. Defined.

(** A file that was rotated and has outgrown the old offset by the next read
    loses its beginning, and a read that ends inside a character loses the
    whole piece. *)
Lemma logs_miss_rotation :
  logs_rounds 0 [Some (as_bytes "old"); Some (as_bytes "new log")] = ["old"; " log"].
Proof. done. Qed.
Lemma logs_lose_split_character :
  logs_rounds 0 [Some (as_bytes "caf" ++ [xc3]); Some (as_bytes "caf" ++ [xc3; xa9])] = [].
Proof. done. Qed.

(** ** Doctor *)

Section DoctorProps.
Context `{Platform, Net} `{!NetText} `{JsonText} `{!Serde (list string)} `{!Serde (list Value)}
  `{!Serde (list ProcessorSpec)} `{!Keys} `{Uuid}.
Context {W : Type} (transport : HttpReq -> W -> W * result string Response) (mc : Machine) (sp : StatePaths).

(** A computation that fails whatever happens. *)
Definition fails {A} (m : hostM W A) : Prop := forall h, is_ok (m h).2 = false.
Lemma fails_bind {A B} (m : hostM W A) (k : A -> hostM W B) : (forall a, fails (k a)) -> fails (x ← m; k x).
Proof. intros Hk h. rewrite host_run_bind. destruct (m h) as [h' [a|e]]; [apply Hk|done]. Qed.

(** Without a session bus [doctor] fails, although it says that is fine. *)
Lemma doctor_needs_bus : os_env (mc_os mc) "DBUS_SESSION_BUS_ADDRESS" = None -> fails (doctor transport mc sp).
Proof.
  intros He. unfold doctor. apply fails_bind; intros _. apply fails_bind; intros config.
  apply fails_bind; intros dirs. apply fails_bind; intros n1. apply fails_bind; intros [ok1 d1].
  apply fails_bind; intros n2. apply fails_bind; intros [ok2 d2]. apply fails_bind; intros n3.
  apply fails_bind; intros n4. apply fails_bind; intros [ok3 d3]. apply fails_bind; intros n5 h.
  unfold bus_check. rewrite He. cbn [mbind option_bind fst snd]. unfold report_check. host_step. host_step. done.
Qed.

(** While the daemon listens on its port, the check of that port fails, so
    [doctor] reports a working node as broken. *)
Lemma doctor_blames_daemon config listen ip port e :
  addr_parse (in_listen (c_instance config)) = Ok listen ->
  last_ip (addr_iter listen) = Some ip -> last_port (addr_iter listen) = Some port ->
  os_bind (mc_os mc) ip port = Err e -> (listen_check mc config).1 = false.
Proof.
  intros Ea Ei Ep Eb. unfold listen_check, check_listen_port. by rewrite Ea, Ei, Ep, Eb.
Qed.
End DoctorProps.

(** ** A node in use *)

Module CliSample.
Import ConfigSample DaemonSample KeySample StartSample.
#[export] Instance no_manifest : Serde Manifest := {| to_json := fun _ => []; from_json := fun _ => Err "" |}.
#[export] Instance no_releases : Serde Release := {| to_json := fun _ => []; from_json := fun _ => Err "" |}.
#[export] Instance no_trust : Serde TrustStore := {| to_json := fun _ => []; from_json := fun _ => Err "" |}.
#[export] Instance no_installed : Serde Installed := {| to_json := fun _ => []; from_json := fun _ => Err "" |}.
Definition home_web : Web := {|
  wb_ctx := home; wb_snap := snapshot_empty 0 "1" "" ""; wb_blobs := ∅; wb_specs := []; wb_fires := ∅;
  wb_runner := []; wb_update_auto := false; wb_sent := [] |}.
(** The daemon is process 4711. *)
Definition live_os : Os :=
  {| os_pid := 99; os_secs := 9; os_env := fun _ => None; os_alive := fun p => bool_decide (p = 4711%Z);
     os_flock := Err "held"; os_bind := fun _ _ => Err "Address already in use" |}.
Definition live_files : gmap Path (list byte) :=
  <[daemon_pidfile (for_root state) := as_bytes "4711"]> started_files.
Definition live_host : Host Web :=
  {| ho_fs := disk live_files; ho_disk := empty_disk; ho_world := home_web; ho_out := []; ho_err := [] |}.
Definition no_hash (x : Hash32) : string := "".
End CliSample.
Import ConfigSample DaemonSample KeySample StartSample CliSample.

Lemma live_up : up_with (plain_machine live_os) (for_root state) live_host one_drive.
Proof.
  split; [done|vm_compute; reflexivity|]. unfold load. rewrite fs_run_bind.
  rewrite (load_quiet_text state (os_secs live_os) live_files (render one_drive) one_drive); [done|..].
  - vm_compute. reflexivity.
  - apply json_text_utf8.
  - unfold render. rewrite json_text_roundtrip. vm_compute. reflexivity.
  - vm_compute. reflexivity.
Qed.

Definition add_note : CliCommand := CliDoc (DocAdd "notes" ["title = hi"]).
Definition now_env : Link * World := (Prompt, calm_world).
Lemma command_reaches_server_witness :
  let out := dispatch (serve_http sip0 no_hash "linux" "1.0.0" (settings_base one_drive) now_env now_env 0 "now" (Err ""))
               (plain_machine live_os) (for_root state) "1.0.0" (mret tt) (mret tt) [] add_note live_host in
  is_Some (get_doc (wb_store (ho_world out.1)) "notes") /\ is_ok out.2 = true.
Proof.
  cbn zeta.
  destruct (command_reaches_server sip0 no_hash "linux" "1.0.0" (plain_machine live_os) (for_root state) "1.0.0"
    (mret tt) (mret tt) [] now_env now_env 0 "now" (Err "") live_host one_drive add_note _ _ live_up eq_refl)
    as (E1 & _ & _ & E2).
  rewrite E1, E2. split; [vm_compute; by eexists|vm_compute; reflexivity].
Defined.

(** The same command when process 4711 is gone. *)
Definition dead_os : Os :=
  {| os_pid := 99; os_secs := 9; os_env := fun _ => None; os_alive := fun _ => false; os_flock := Ok tt;
     os_bind := fun _ _ => Ok tt |}.
Lemma commands_need_daemon_witness :
  let out := dispatch (fun _ wb => (wb, Err "")) (plain_machine dead_os) (for_root state) "1.0.0" (mret tt) (mret tt) []
               add_note live_host in
  ho_world out.1 = home_web /\ is_ok out.2 = false.
Proof.
  cbn zeta.
  destruct (commands_need_daemon (fun _ wb => (wb, Err "")) (plain_machine dead_os) "1.0.0" (mret tt) (mret tt) []
    (for_root state) live_host add_note eq_refl) as [(E & _) F].
  - intros raw pid _ _. unfold process_alive. apply andb_false_r.
  - split; [exact E|exact F].
Defined.

Definition reading_host : Host unit :=
  {| ho_fs := disk started_files; ho_disk := empty_disk; ho_world := tt; ho_out := []; ho_err := [] |}.
Lemma offline_reads_agree_witness :
  exists ru, (bring_up (plain_machine free_os) (for_root state) one_drive reading_host).2 = Ok ru /\
    (open_local_store (plain_machine free_os) (for_root state) reading_host).2 = Ok (x_store (ru_ctx ru)).
Proof.
  destruct (offline_reads_agree (plain_machine free_os) state reading_host started_files empty_disk old_bytes
    one_drive "" None) as (ru & E1 & E2 & _).
  - split; [done..|]. intros b Hb _. assert (b = old_bytes) as -> by (vm_compute in Hb |- *; congruence).
    vm_compute. reflexivity.
  - done.
  - vm_compute. reflexivity.
  - reflexivity.
  - vm_compute. reflexivity.
  - unfold unique. cbn. apply NoDup_singleton.
  - exists ru. split; [exact E1|exact E2].
Defined.

Lemma status_roundtrip_witness :
  status_of_json (status_json (degraded_snapshot 9 "1.0.0" one_drive "http://x")) =
    Ok (degraded_snapshot 9 "1.0.0" one_drive "http://x").
Proof.
  apply status_roundtrip. split; [vm_compute; reflexivity|vm_compute; reflexivity|constructor].
Defined.

(** A command that only reads opens the store as the daemon does, and the
    replay writes the index of the document directory. *)
Lemma reading_writes_index :
  dk_index (ho_disk (query_command (plain_machine free_os) (for_root state) "" None reading_host).1) = Some 0%N /\
  dk_index (ho_disk reading_host) = None.
Proof. split; vm_compute; reflexivity. Qed.

(** ** Reading through the router *)

Lemma get_changes_nothing_witness :
  exists r, Routes.dispatch (fun _ => Err "") (fun _ => []) 0 "GET" "/api/groups/team" ∅ (BodyOther []) = Reached (TRead r) /\
    reads 9 home_web (serve_read (fun _ => "") (fun _ => Null) (fun _ => Null) (fun _ => None) "linux" "1.0.0" 9 home_web r).1.
Proof.
  destruct (get_changes_nothing (fun _ => "") (fun _ => Null) (fun _ => Null) (fun _ => None) "linux" "1.0.0"
    (fun _ => Err "") (fun _ => []) 0 "GET" "/api/groups/team" ∅ (BodyOther []) (TRead (RdGroup "team")) 9 home_web)
    as (r & E & Hr).
  - left. reflexivity.
  - reflexivity.
  - exists r. split; [rewrite <- E; reflexivity|exact Hr].
Defined.
