(* ===== verification/TestKit.v ===== *)
(** The repository's own tests, run on the model.  A test is a definition with
    the name of the test function: the calls it makes, as the model has them,
    and its assertions.  A suite pairs the tests of a file with their names; its
    theorem says that none fails.  Keys and digests are those of [Sample]; the
    text of a value is written in full. *)

From stdpp Require Import base gmap strings numbers pretty list.
From S2P Require Import Prelude Json Doc Sample Text.

(** The platform of the tests; the digest fills both halves of its 32 bytes,
    since an id derived from it takes the first half. *)
#[export] Instance test_platform : Platform := {|
  sha256 := fun b => let d := sample_digest b in (d + d * 2 ^ 128)%N;
  json_to_vec := fun v => as_bytes (sample_json 12 v);
  json_to_string := sample_json 12;
  hex_encode := sample_hex_encode;
  hex_decode := sample_hex_decode;
  SigningKey := N;
  verifying_key := sample_vk;
  vk_from_bytes := fun b => if decide (length b = 32) then Ok tt else Err "bad length";
  ed_sign := sample_sign;
  ed_verify := sample_verify;
  ed_verify_strict := sample_verify
|}.
Definition sk (n : N) : SigningKey := n.

(** [assert!], [assert_eq!], [assert_ne!]: the assertions of a test, in order. *)
Definition asserts (l : list bool) : bool := forallb (fun b => b) l.
Definition is_err {E A} (r : result E A) : bool := negb (is_ok r).
Definition some {A} (o : option A) : bool := match o with Some _ => true | None => false end.
Definition none {A} (o : option A) : bool := negb (some o).
Declare Scope test_scope.
Delimit Scope test_scope with test.
Notation "x ==? y" := (bool_decide (x = y)) (at level 70, no associativity) : test_scope.
Notation "x <>? y" := (negb (bool_decide (x = y))) (at level 70, no associativity) : test_scope.

(** The tests of a suite that fail. *)
Definition failing (suite : list (string * bool)) : list string := (filter (fun t => t.2 = false) suite).*1.

(** [{:02x}] of a byte, and decimal padded to two digits. *)
Definition hex2 (n : N) : string :=
  String (nibble_char (n / 16)) (String (nibble_char (n mod 16)) EmptyString).
Definition dec2 (n : nat) : string := (if n <? 10 then "0" else "") +:+ pretty n.

(** [unwrap], [expect]: a test that goes on with a value fails without it. *)
Definition expect {E A} (r : result E A) (k : A -> bool) : bool :=
  match r with Ok x => k x | Err _ => false end.
Definition expect_some {A} (o : option A) (k : A -> bool) : bool :=
  match o with Some x => k x | None => false end.

(** [json!] of an object entry, and [v["a"]["b"]], absent as [null]. *)
Notation "k ~> v" := (@pair string Value k v) (at level 60, v at level 59, only parsing) : test_scope.
Definition at_path (v : Value) (path : list string) : Value :=
  foldl (fun v k => default Null (vget v k)) v path.
(** The entries of an object, and of an array. *)
Definition entries (v : Value) : list (string * Value) := default [] (as_object v).
Definition items (v : Value) : list Value := default [] (as_array v).

(** A field as the tests seed it, and a document of such fields. *)
Definition seed_field (v : Value) : Field :=
  {| fld_value := v; fld_version := ∅; fld_ts := 0; fld_origin := "x"; fld_deleted := false |}.
Definition seed_doc (name : string) (fields : list (string * Value)) : Doc :=
  {| doc_id := 77; doc_name := name; doc_fields := list_to_map (prod_map id seed_field <$> fields) |}.

(** Texts of a fixed list of values: a round trip for the values a test writes,
    which is what the tests use of [serde_json]. *)
Fixpoint position {A} `{EqDecision A} (x : A) (l : list A) : nat :=
  match l with [] => 0 | y :: l' => if decide (x = y) then 0 else S (position x l') end.
Definition texts {A} `{EqDecision A} (l : list A) : Serde A :=
  {| to_json := fun x => as_bytes (pretty (position x l));
     from_json := fun b => ok_or (List.find (fun x => as_bytes (pretty (position x l)) ==? b)%test l) "expected value" |}.
