(* ===== verification/TestDoc.v ===== *)
(** The tests of src/doc.rs and src/action.rs. *)

From stdpp Require Import base gmap strings numbers pretty list.
From Stdlib Require Import Strings.Byte Strings.Ascii.
From S2P Require Import Prelude Json Doc Sample Action TestKit.
Open Scope test_scope.

(** ** src/doc.rs *)

Module DocTests.
Definition origin (seed : N) : SigningKey * Origin := (sk seed, "peer-" +:+ hex2 seed).
Definition make_op (doc_id : DocId) (signer : SigningKey) (from : Origin) (k : option string)
    (v : option Value) (ts : N) (clock : VecClock) : Op :=
  op_sign {| op_doc_id := doc_id; op_key := k; op_value := v; op_ts := ts; op_clock := clock;
             op_origin := from; op_sig := repeat x00 64 |} signer.
Definition id : DocId := 77.
Definition ticked_by (c : VecClock) (o : Origin) : VecClock := (vc_tick c o).1.
Definition a : Origin := (origin 1).2.
Definition b : Origin := (origin 2).2.
Definition start : Doc * VecClock * bool := (empty_doc id "n", ∅, false).
(** A field of the document after a run. *)
Definition field (st : Doc * VecClock * bool) (k : string) : option Field := doc_fields st.1.1 !! k.
Definition value (st : Doc * VecClock * bool) (k : string) : option Value := fld_value <$> field st k.

Definition vector_clock_merge_and_covers : bool :=
  let base := ticked_by ∅ "p1" in
  let a := ticked_by base "p1" in
  let b := ticked_by base "p2" in
  let after := vc_merge a b in
  asserts [negb (vc_covers a b); negb (vc_covers b a); vc_covers after a; vc_covers after b;
           vc_gaps a b ==? [("p2", 1%N)]; vc_gaps b a ==? [("p1", 2%N)]].

Definition op_signature_valid_wrong_key_tampered : bool :=
  let op := make_op id (sk 1) a (Some "title") (Some (Str "hello")) 1 (ticked_by ∅ a) in
  let evil := {| op_doc_id := op_doc_id op; op_key := op_key op; op_value := Some (Str "evil");
                 op_ts := op_ts op; op_clock := op_clock op; op_origin := op_origin op; op_sig := op_sig op |} in
  asserts [op_verify op (verifying_key (sk 1)); negb (op_verify op (verifying_key (sk 2)));
           negb (op_verify evil (verifying_key (sk 1)))].

Definition duplicate_op_is_not_reapplied : bool :=
  let op := make_op id (sk 1) a (Some "k") (Some (Number 1)) 1 (ticked_by ∅ a) in
  let '(doc, rclock, deleted, r1) := apply_op (empty_doc id "n") ∅ false op in
  let '(doc2, _, _, r2) := apply_op doc rclock deleted op in
  asserts [applied r1; negb (applied r2); size (doc_fields doc2) ==? 1].

(** Both orders of two operations. *)
Definition both_orders (x y : Op) (check : Doc * VecClock * bool -> bool) : bool :=
  asserts [check (apply_ops start [x; y]); check (apply_ops start [y; x])].

Definition concurrent_same_field_resolves_by_lww_independently_of_order : bool :=
  let op_a := make_op id (sk 1) a (Some "f") (Some (Str "from-a")) 5 (ticked_by ∅ a) in
  let op_b := make_op id (sk 2) b (Some "f") (Some (Str "from-b")) 7 (ticked_by ∅ b) in
  both_orders op_a op_b (fun st =>
    asserts [value st "f" ==? Some (Str "from-b"); (fld_ts <$> field st "f") ==? Some 7%N;
             (fld_origin <$> field st "f") ==? Some b]).

(** The pseudo-random exchanges of the test. *)
Definition exchange {A} (l : list A) (i j : nat) : list A :=
  match l !! i, l !! j with Some x, Some y => <[i := y]> (<[j := x]> l) | _, _ => l end.
Fixpoint shuffle {A} (i : nat) (x : N) (l : list A) : list A :=
  match i with
  | O => l
  | S i' =>
      let x := ((x * 1664525 + 1013904223) mod 2 ^ 32)%N in
      shuffle i' x (exchange l i (N.to_nat (x mod (N.of_nat i + 1))))
  end.
Definition fifty_ops : list Op :=
  seq 0 50 ≫= fun i =>
    let '(k, o) := origin (N.of_nat i) in
    [make_op id k o (Some ("f" +:+ dec2 i)) (Some (Number (Z.of_nat i))) 1 (ticked_by ∅ o);
     make_op id k o (Some "counter") (Some (Number (Z.of_nat i))) (2 * N.of_nat i) (ticked_by ∅ o)].
Definition fifty_orders : list (list Op) :=
  [fifty_ops; reverse fifty_ops] ++
  ((fun seed => shuffle 99 (N.lxor 305419896 ((N.of_nat seed * 2654435769) mod 2 ^ 32)) fifty_ops) <$> seq 0 8).
Definition fifty_concurrent_origins_converge_regardless_of_order : bool :=
  let run ops := apply_ops (empty_doc id "group", ∅, false) ops in
  let base := run fifty_ops in
  asserts [forallb (fun p => negb (run p).2) fifty_orders;
           forallb (fun p => (run p).1 ==? base.1) fifty_orders;
           forallb (fun i => value base ("f" +:+ dec2 i) ==? Some (Number (Z.of_nat i))) (seq 0 50);
           value base "counter" ==? Some (Number 49);
           (fld_ts <$> field base "counter") ==? Some 98%N;
           (fld_origin <$> field base "counter") ==? Some (origin 49).2;
           size (doc_fields base.1.1) ==? 51].

Definition same_ts_same_field_breaks_by_origin : bool :=
  let op_a := make_op id (sk 1) a (Some "f") (Some (Str "A")) 5 (ticked_by ∅ a) in
  let op_b := make_op id (sk 2) b (Some "f") (Some (Str "B")) 5 (ticked_by ∅ b) in
  asserts [ord_ltb a b; both_orders op_a op_b (fun st => value st "f" ==? Some (Str "B"))].

Definition causally_later_write_wins_regardless_of_arrival_order : bool :=
  let ca := ticked_by ∅ a in
  let op_a := make_op id (sk 1) a (Some "f") (Some (Str "from-a")) 5 ca in
  let op_b := make_op id (sk 2) b (Some "f") (Some (Str "from-b")) 7 (ticked_by ca b) in
  both_orders op_a op_b (fun st => value st "f" ==? Some (Str "from-b")).

(** The two histories of the fork, one round of the loop at a time. *)
Definition fork_round (st : VecClock * VecClock * list Op * list Op) (its : nat * N) :
    VecClock * VecClock * list Op * list Op :=
  let '(ca, cb, ops_a, ops_b) := st in
  let '(i, ts) := its in
  let ca := vc_merge (ticked_by ca a) cb in
  let own_a := make_op id (sk 1) a (Some ("field-" +:+ pretty i)) (Some (Number (100 + Z.of_N ts))) ts ca in
  let cb := vc_merge (ticked_by cb b) ca in
  let own_b := make_op id (sk 2) b (Some ("field-" +:+ pretty i)) (Some (Number (200 + Z.of_N ts))) (ts + 1) cb in
  let ca := ticked_by ca a in
  let shared_a := make_op id (sk 1) a (Some "shared") (Some (Str ("a says " +:+ pretty ts))) (ts + 2) ca in
  let cb := ticked_by cb b in
  let shared_b := make_op id (sk 2) b (Some "shared") (Some (Str ("b says " +:+ pretty ts))) (ts + 3) cb in
  (ca, cb, ops_a ++ [own_a; shared_a], ops_b ++ [own_b; shared_b]).
Definition fork_merge_converges_regardless_of_direction : bool :=
  let shared := make_op id (sk 1) a (Some "x") (Some (Number 1)) 1 (ticked_by ∅ a) in
  let '(_, _, ops_a, ops_b) :=
    foldl fork_round (ticked_by ∅ a, ticked_by ∅ a, [], []) [(0, 2%N); (1, 3%N); (2, 4%N)] in
  let run first second := apply_ops start ([shared] ++ first ++ second) in
  let ab := run ops_a ops_b in
  let ba := run ops_b ops_a in
  let again op := applied (apply_op ab.1.1 ab.1.2 false op).2 in
  asserts [doc_fields ab.1.1 ==? doc_fields ba.1.1; ab.1.2 ==? ba.1.2;
           forallb (fun i => some (field ab ("field-" +:+ pretty i))) (seq 0 3);
           (fld_origin <$> field ab "shared") ==? Some b;
           negb (again shared); negb (default true (again <$> ops_a !! 0)); negb (default true (again <$> ops_b !! 0));
           doc_fields (apply_ops (ab.1.1, ab.1.2, false) ([shared] ++ take 1 ops_a ++ take 1 ops_b)).1.1
             ==? doc_fields ab.1.1].

Definition field_delete_leaves_tombstone_and_doc_delete_is_terminal : bool :=
  let c1 := ticked_by ∅ a in
  let c2 := ticked_by c1 a in
  let c3 := ticked_by c2 a in
  let c4 := ticked_by c3 a in
  let op k v ts c := make_op id (sk 1) a k v ts c in
  let '(d1, k1, e1, r1) := apply_op (empty_doc id "n") c4 false (op (Some "k") (Some (Number 1)) 1%N c1) in
  let '(d2, k2, e2, r2) := apply_op d1 k1 e1 (op (Some "k") None 2%N c2) in
  let '(d3, k3, e3, r3) := apply_op d2 k2 e2 (op None None 3%N c3) in
  let '(d4, _, _, r4) := apply_op d3 k3 e3 (op (Some "k") (Some (Number 99)) 4%N c4) in
  asserts [applied r1; size (doc_fields (doc_live d1)) ==? 1; applied r2;
           (fld_deleted <$> doc_fields d2 !! "k") ==? Some true; doc_fields (doc_live d2) ==? ∅;
           applied r3 && doc_deleted r3; e3; negb (applied r4) && doc_deleted r4; doc_fields d4 ==? ∅].

Definition lww_tiebreak_on_equal_ts : bool :=
  let op_a := make_op id (sk 1) a (Some "f") (Some (Str "a")) 5 (ticked_by ∅ a) in
  let op_b := make_op id (sk 2) b (Some "f") (Some (Str "b")) 5 (ticked_by ∅ b) in
  both_orders op_a op_b (fun st => (fld_origin <$> field st "f") ==? Some b).

(** The generator of the random streams, and one stream. *)
Definition next (rng : N) : N * N :=
  let rng := ((rng * 6364136223846793005 + 1442695040888963407) mod 2 ^ 64)%N in
  (rng, N.shiftr rng 33 mod 2 ^ 32)%N.
Fixpoint mk_stream (n : nat) (rng : N) (signer : SigningKey) (me : Origin) (ts : N) (clock : VecClock) :
    N * list Op :=
  match n with
  | O => (rng, [])
  | S n =>
      let '(rng, k) := next rng in
      let clock := ticked_by clock me in
      let '(rng, v) := next rng in
      let op := make_op id signer me (Some ("k" +:+ pretty (k mod 4)%N)) (Some (Number (Z.of_N v))) (ts + 1) clock in
      let '(rng, ops) := mk_stream n rng signer me (ts + 1) clock in (rng, op :: ops)
  end.
Definition random_forks_converge : bool :=
  let '(rng, ops_a) := mk_stream 20 305419896 (sk 1) a 0 ∅ in
  let '(_, ops_b) := mk_stream 20 rng (sk 2) b 0 ∅ in
  let ab := apply_ops start (ops_a ++ ops_b) in
  let ba := apply_ops start (ops_b ++ ops_a) in
  asserts [doc_fields ab.1.1 ==? doc_fields ba.1.1; ab.1.2 ==? ba.1.2].
End DocTests.

Definition doc_tests : list (string * bool) :=
  [("vector_clock_merge_and_covers", DocTests.vector_clock_merge_and_covers);
   ("op_signature_valid_wrong_key_tampered", DocTests.op_signature_valid_wrong_key_tampered);
   ("duplicate_op_is_not_reapplied", DocTests.duplicate_op_is_not_reapplied);
   ("concurrent_same_field_resolves_by_lww_independently_of_order",
      DocTests.concurrent_same_field_resolves_by_lww_independently_of_order);
   ("fifty_concurrent_origins_converge_regardless_of_order",
      DocTests.fifty_concurrent_origins_converge_regardless_of_order);
   ("same_ts_same_field_breaks_by_origin", DocTests.same_ts_same_field_breaks_by_origin);
   ("causally_later_write_wins_regardless_of_arrival_order",
      DocTests.causally_later_write_wins_regardless_of_arrival_order);
   ("fork_merge_converges_regardless_of_direction", DocTests.fork_merge_converges_regardless_of_direction);
   ("field_delete_leaves_tombstone_and_doc_delete_is_terminal",
      DocTests.field_delete_leaves_tombstone_and_doc_delete_is_terminal);
   ("lww_tiebreak_on_equal_ts", DocTests.lww_tiebreak_on_equal_ts);
   ("random_forks_converge", DocTests.random_forks_converge)].
Lemma doc_tests_pass : failing doc_tests = [].
Proof. vm_compute. reflexivity. Qed.

(** ** src/action.rs *)

Module ActionTests.
Definition sample_action (k : SigningKey) : Action :=
  sign {| a_doc_id := 1; a_model := modelref_new "invoice" "1.0.0"; a_kind := "add-line";
          a_payload := json_obj [("id", Str "L1"); ("qty", Number 2)]; a_ts := 42;
          a_clock := vc_from_pairs [("12D3KooWQbz", 3%N)]; a_origin := "12D3KooWQbz"; a_cosig := [];
          a_prev_hash := None; a_space := None; a_sig := repeat x00 64 |} k.
(** Assignments to one field. *)
Definition set_kind (a : Action) (k : string) : Action :=
  {| a_doc_id := a_doc_id a; a_model := a_model a; a_kind := k; a_payload := a_payload a; a_ts := a_ts a;
     a_clock := a_clock a; a_origin := a_origin a; a_cosig := a_cosig a; a_prev_hash := a_prev_hash a;
     a_space := a_space a; a_sig := a_sig a |}.
Definition set_clock (a : Action) (c : VecClock) : Action :=
  {| a_doc_id := a_doc_id a; a_model := a_model a; a_kind := a_kind a; a_payload := a_payload a; a_ts := a_ts a;
     a_clock := c; a_origin := a_origin a; a_cosig := a_cosig a; a_prev_hash := a_prev_hash a;
     a_space := a_space a; a_sig := a_sig a |}.
Definition in_space (a : Action) (s : option DocId) : Action :=
  {| a_doc_id := a_doc_id a; a_model := a_model a; a_kind := a_kind a; a_payload := a_payload a; a_ts := a_ts a;
     a_clock := a_clock a; a_origin := a_origin a; a_cosig := a_cosig a; a_prev_hash := a_prev_hash a;
     a_space := s; a_sig := a_sig a |}.

Definition sign_verify_roundtrip : bool := verify (sample_action (sk 1)) (verifying_key (sk 1)).
Definition rejects_wrong_key : bool := negb (verify (sample_action (sk 1)) (verifying_key (sk 2))).
Definition hash_is_stable_and_distinguishes_fields : bool :=
  let a := sample_action (sk 1) in
  let b := sign (set_kind (sample_action (sk 1)) "delete") (sk 1) in
  asserts [hash a ==? hash (sample_action (sk 1)); hash a <>? hash b].
Definition message_bytes_covers_the_clock : bool :=
  let a := sample_action (sk 1) in
  let b := set_clock a (vc_from_pairs [("12D3KooWQbz", 9%N)]) in
  asserts [message_bytes a <>? message_bytes b; hash a <>? hash b].
Definition cosig_verifies_against_its_own_key : bool :=
  let a := sample_action (sk 1) in
  let a := with_cosig a [{| cs_origin := "12D3KooCosigner"; cs_sig := ed_sign (sk 2) (message_bytes a) |}] in
  asserts [verify_cosig a 0 (verifying_key (sk 2)); negb (verify_cosig a 0 (verifying_key (sk 1)));
           negb (verify_cosig a 1 (verifying_key (sk 2)))].
Definition the_space_suffix_is_absent_rather_than_empty : bool :=
  let without := sample_action (sk 7) in
  let with_ := in_space (sample_action (sk 7)) (Some 255%N) in
  message_bytes with_ ==? message_bytes without ++ [x01] ++ docid_bytes 255.
Definition changing_the_space_invalidates_the_signature : bool :=
  let a := sign (sample_action (sk 7)) (sk 7) in
  let b := sign (in_space (sample_action (sk 7)) (Some 255%N)) (sk 7) in
  asserts [verify a (verifying_key (sk 7)); negb (verify (in_space a (Some 255%N)) (verifying_key (sk 7)));
           verify b (verifying_key (sk 7)); negb (verify (in_space b None) (verifying_key (sk 7)))].
(** The payload is written with its keys in order, as the text of an object is. *)
Definition message_bytes_golden_vector : bool :=
  let a := {| a_doc_id := 1; a_model := modelref_new "group" "1"; a_kind := "post";
              a_payload := json_obj [("zeta", Number 1); ("alpha", Str "x")]; a_ts := 7; a_clock := ∅;
              a_origin := "alice"; a_cosig := []; a_prev_hash := None; a_space := None; a_sig := repeat x00 64 |} in
  let with_cosig_ := with_cosig a [{| cs_origin := "bob"; cs_sig := repeat x09 64 |}] in
  asserts [hex_encode (message_bytes a) ==?
    "00000000000000000000000000000001010000000567726f7570010000000131000100000004706f737401000000167b22616c706861223a2278222c227a657461223a317d000000000000000701000000000100000005616c69636500";
    hex_encode (message_bytes with_cosig_) ==? hex_encode (message_bytes a)].
End ActionTests.

Definition action_tests : list (string * bool) :=
  [("sign_verify_roundtrip", ActionTests.sign_verify_roundtrip);
   ("rejects_wrong_key", ActionTests.rejects_wrong_key);
   ("hash_is_stable_and_distinguishes_fields", ActionTests.hash_is_stable_and_distinguishes_fields);
   ("message_bytes_covers_the_clock", ActionTests.message_bytes_covers_the_clock);
   ("cosig_verifies_against_its_own_key", ActionTests.cosig_verifies_against_its_own_key);
   ("the_space_suffix_is_absent_rather_than_empty", ActionTests.the_space_suffix_is_absent_rather_than_empty);
   ("changing_the_space_invalidates_the_signature", ActionTests.changing_the_space_invalidates_the_signature);
   ("message_bytes_golden_vector", ActionTests.message_bytes_golden_vector)].
Lemma action_tests_pass : failing action_tests = [].
Proof. vm_compute. reflexivity. Qed.
