(* ===== verification/TestModel.v ===== *)
(** The tests of src/model: the interpreter, the open model, the shipped
    definitions, and the file of runtime definitions. *)

From stdpp Require Import base gmap strings numbers pretty list.
From Stdlib Require Import Strings.Byte Strings.Ascii.
From S2P Require Import Prelude Json Doc Sample Action Model Builtins TestKit.
Open Scope test_scope.

(** An action as the tests of a model write it, not signed. *)
Definition bare_action (model : ModelRef) (kind : string) (payload : Value) (origin : Origin) : Action :=
  {| a_doc_id := 5; a_model := model; a_kind := kind; a_payload := payload; a_ts := 1; a_clock := ∅;
     a_origin := origin; a_cosig := []; a_prev_hash := None; a_space := None; a_sig := repeat x00 64 |}.

Definition at_ts (a : Action) (ts : N) : Action :=
  {| a_doc_id := a_doc_id a; a_model := a_model a; a_kind := a_kind a; a_payload := a_payload a; a_ts := ts;
     a_clock := a_clock a; a_origin := a_origin a; a_cosig := a_cosig a; a_prev_hash := a_prev_hash a;
     a_space := a_space a; a_sig := a_sig a |}.

(** [matches!] on a rejection. *)
Definition bad_payload {A} (r : result Reject A) : bool :=
  match r with Err (BadPayload _) => true | _ => false end.
Definition precondition {A} (r : result Reject A) : bool :=
  match r with Err (Precondition _) => true | _ => false end.
Definition bad_state {A} (r : result Reject A) : bool :=
  match r with Err (BadState _) => true | _ => false end.
Definition unknown_kind {A} (k : string) (r : result Reject A) : bool :=
  match r with Err (UnknownKind k') => k ==? k' | _ => false end.

(** ** src/model/l1.rs *)

Module L1Tests.
Definition test_model : result string L1 :=
  from_def (json_obj [
    "name" ~> Str "ledger"; "version" ~> Str "1";
    "fields" ~> json_obj ["total" ~> Str "number"; "owner" ~> Str "string"];
    "reducers" ~> json_obj [
      "set-total" ~> json_obj [
        "payload" ~> json_obj ["amount" ~> Str "number"];
        "writes" ~> json_obj ["total" ~> json_obj ["set" ~> Str "$payload.amount"]];
        "pre" ~> Array []];
      "set-owner" ~> json_obj [
        "payload" ~> json_obj ["who" ~> Str "string"];
        "writes" ~> json_obj ["owner" ~> json_obj ["set" ~> Str "$payload.who"]];
        "pre" ~> Array [json_obj ["actor-is" ~> Str "alice"]]];
      "stamp" ~> json_obj [
        "payload" ~> json_obj [];
        "writes" ~> json_obj ["owner" ~> json_obj ["set" ~> Str "$actor"]];
        "pre" ~> Array []]]]).
Definition ledger_action : string -> Value -> Origin -> Action := bare_action (modelref_new "ledger" "1").
Definition doc_with : list (string * Value) -> Doc := seed_doc "d".
Definition nothing : Value := json_obj [].

Definition payload_schema_rejects_unknown_kind : bool :=
  expect test_model (fun m => unknown_kind "nope" (l1_validate_payload m "nope" nothing)).
Definition payload_schema_requires_typed_fields : bool :=
  expect test_model (fun m =>
    asserts [is_ok (l1_validate_payload m "set-total" (json_obj ["amount" ~> Number 5]));
             bad_payload (l1_validate_payload m "set-total" (json_obj ["amount" ~> Str "five"]));
             bad_payload (l1_validate_payload m "set-total" nothing)]).
Definition reduce_set_writes_the_field : bool :=
  expect test_model (fun m =>
    expect (l1_reduce m (doc_with []) (ledger_action "set-total" (json_obj ["amount" ~> Number 42]) "alice")) (fun ops =>
      asserts [(op_key <$> ops) ==? [Some "total"]; (op_value <$> ops) ==? [Some (Number 42)]])).
Definition reduce_template_uses_actor_and_ts : bool :=
  expect test_model (fun m =>
    expect (l1_reduce m (doc_with []) (at_ts (ledger_action "stamp" nothing "bob") 99)) (fun ops =>
      (op_value <$> head ops) ==? Some (Some (Str "bob")))).
Definition precondition_actor_is_enforced : bool :=
  expect test_model (fun m =>
    let set_owner := ledger_action "set-owner" (json_obj ["who" ~> Str "x"]) in
    asserts [is_ok (l1_check_precondition m (doc_with []) (set_owner "alice"));
             precondition (l1_check_precondition m (doc_with []) (set_owner "eve"))]).
Definition precondition_field_is_and_present : bool :=
  expect (from_def (json_obj [
    "name" ~> Str "g"; "version" ~> Str "1"; "fields" ~> json_obj ["state" ~> Str "string"];
    "reducers" ~> json_obj [
      "close" ~> json_obj [
        "payload" ~> nothing; "writes" ~> json_obj ["state" ~> json_obj ["set" ~> Str "closed"]];
        "pre" ~> Array [json_obj ["field-is" ~> json_obj ["field" ~> Str "state"; "value" ~> Str "open"]]]];
      "reopen" ~> json_obj [
        "payload" ~> nothing; "writes" ~> json_obj ["state" ~> json_obj ["set" ~> Str "open"]];
        "pre" ~> Array [json_obj ["field-not" ~> json_obj ["field" ~> Str "state"; "value" ~> Str "open"]]]]]])) (fun m =>
    let d := doc_with ["state" ~> Str "open"] in
    asserts [is_ok (l1_check_precondition m d (ledger_action "close" nothing "a"));
             precondition (l1_check_precondition m d (ledger_action "reopen" nothing "a"))]).
Definition check_state_enforces_types : bool :=
  expect test_model (fun m =>
    asserts [bad_state (l1_check_state m (doc_with ["total" ~> Str "not-a-number"]));
             is_ok (l1_check_state m (doc_with ["total" ~> Number 3]))]).
Definition quorum_spec_is_declared_not_checked : bool :=
  expect (from_def (json_obj [
    "name" ~> Str "q"; "version" ~> Str "1"; "fields" ~> json_obj ["members" ~> Str "string[]"];
    "reducers" ~> json_obj [
      "add-manager" ~> json_obj [
        "payload" ~> json_obj ["member" ~> Str "string"];
        "writes" ~> json_obj ["members" ~> json_obj ["append" ~> Str "$payload.member"]];
        "pre" ~> Array [json_obj ["quorum" ~>
          json_obj ["group" ~> Str "$self"; "min" ~> Number 2; "field" ~> Str "members"]]]]]])) (fun m =>
    expect_some (l1_quorum m "add-manager") (fun spec =>
      asserts [q_group spec ==? "$self"; q_min spec ==? 2%N; q_field spec ==? "members";
               is_ok (l1_check_precondition m (doc_with [])
                        (ledger_action "add-manager" (json_obj ["member" ~> Str "m"]) "a"));
               none (l1_quorum m "nope")])).
Definition going (name : string) (pre : Value) : list (string * Value) :=
  ["name" ~> Str name; "version" ~> Str "1";
   "reducers" ~> json_obj ["go" ~> json_obj [
     "payload" ~> nothing; "writes" ~> json_obj ["f" ~> json_obj ["set" ~> Str "v"]];
     "pre" ~> Array [pre]]]].
Definition named_check_reuse_and_depth : bool :=
  let go := ledger_action "go" nothing in
  expect (from_def (json_obj (going "n" (json_obj ["check" ~> Str "must-be-a"]) ++
    ["fields" ~> json_obj ["f" ~> Str "string"];
     "checks" ~> json_obj ["must-be-a" ~> json_obj ["actor-is" ~> Str "a"]]]))) (fun m =>
  expect (from_def (json_obj (going "n2" (json_obj ["check" ~> Str "missing"])))) (fun bad =>
    asserts [is_ok (l1_check_precondition m (doc_with []) (go "a"));
             precondition (l1_check_precondition m (doc_with []) (go "b"));
             precondition (l1_check_precondition bad (doc_with []) (go "a"))])).
End L1Tests.
Definition l1_tests : list (string * bool) :=
  [("payload_schema_rejects_unknown_kind", L1Tests.payload_schema_rejects_unknown_kind);
   ("payload_schema_requires_typed_fields", L1Tests.payload_schema_requires_typed_fields);
   ("reduce_set_writes_the_field", L1Tests.reduce_set_writes_the_field);
   ("reduce_template_uses_actor_and_ts", L1Tests.reduce_template_uses_actor_and_ts);
   ("precondition_actor_is_enforced", L1Tests.precondition_actor_is_enforced);
   ("precondition_field_is_and_present", L1Tests.precondition_field_is_and_present);
   ("check_state_enforces_types", L1Tests.check_state_enforces_types);
   ("quorum_spec_is_declared_not_checked", L1Tests.quorum_spec_is_declared_not_checked);
   ("named_check_reuse_and_depth", L1Tests.named_check_reuse_and_depth)].
Lemma l1_tests_pass : failing l1_tests = [].
Proof. vm_compute. reflexivity. Qed.

(** ** src/model/open.rs *)

Module OpenTests.
Definition open_action (k : SigningKey) (kind field : string) (value : option Value) : Action :=
  sign {| a_doc_id := 5; a_model := ref_ open_new; a_kind := kind;
          a_payload := json_obj (["field" ~> Str field] ++ match value with Some v => ["value" ~> v] | None => [] end);
          a_ts := 1; a_clock := vc_from_pairs [("o1", 1%N)]; a_origin := "o1"; a_cosig := []; a_prev_hash := None;
          a_space := None; a_sig := repeat x00 64 |} k.
Definition reduced (a : Action) : result Reject (list Op) := reduce open_new (empty_doc (a_doc_id a) "") a.
Definition set_reduces_to_field_write : bool :=
  expect (reduced (open_action (sk 1) "set" "body" (Some (Str "hi")))) (fun ops =>
    asserts [(op_key <$> ops) ==? [Some "body"]; (op_value <$> ops) ==? [Some (Str "hi")]]).
Definition delete_reduces_to_tombstone : bool :=
  expect (reduced (open_action (sk 1) "delete" "body" None)) (fun ops =>
    asserts [(op_key <$> head ops) ==? Some (Some "body"); (op_value <$> head ops) ==? Some None]).
Definition doc_delete_reduces_to_key_none : bool :=
  let a := bare_action (ref_ open_new) "delete" (json_obj []) "o1" in
  expect (reduced a) (fun ops => (op_key <$> head ops) ==? Some None).
Definition rejects_unknown_kind_and_missing_field : bool :=
  asserts [unknown_kind "explode" (validate_payload open_new "explode" (json_obj []));
           bad_payload (validate_payload open_new "set" (json_obj []))].
End OpenTests.
Definition open_tests : list (string * bool) :=
  [("set_reduces_to_field_write", OpenTests.set_reduces_to_field_write);
   ("delete_reduces_to_tombstone", OpenTests.delete_reduces_to_tombstone);
   ("doc_delete_reduces_to_key_none", OpenTests.doc_delete_reduces_to_key_none);
   ("rejects_unknown_kind_and_missing_field", OpenTests.rejects_unknown_kind_and_missing_field)].
Lemma open_tests_pass : failing open_tests = [].
Proof. vm_compute. reflexivity. Qed.

(** ** src/model/group.rs *)

Module GroupTests.
Definition group_model : L1 := l1_of group_def.
Definition group_act : string -> Value -> Origin -> Action := bare_action (modelref_new "group" "1").
Definition arr : list string -> Value := json_strs.
Definition general_channel : Value :=
  json_obj ["name" ~> Str "general"; "visibility" ~> Str "public"; "members" ~> Array []].
Definition group_doc (members managers : list string) : Doc :=
  seed_doc "core"
    ["members" ~> arr members; "managers" ~> arr managers; "msg_from" ~> Array []; "msg_text" ~> Array [];
     "msg_ts" ~> Array []; "msg_channel" ~> Array []; "channels" ~> Array [general_channel]; "drive" ~> Array []].
(** [d.fields.insert(k, f(v))]. *)
Definition put_field (d : Doc) (k : string) (v : Value) : Doc := set_fields d (<[k := seed_field v]> (doc_fields d)).
Definition doc_with_private_channel (members managers private_members : list string) : Doc :=
  put_field (group_doc members managers) "channels"
    (Array [general_channel;
            json_obj ["name" ~> Str "ops"; "visibility" ~> Str "private"; "members" ~> arr private_members]]).
Definition writes (ops : list Op) : gmap string Value :=
  list_to_map (omap (fun o => k ← op_key o; v ← op_value o; Some (k, v)) ops).
(** The writes of an accepted action. *)
Definition written (d : Doc) (a : Action) (check : gmap string Value -> bool) : bool :=
  expect (reduce group_model d a) (fun ops => check (writes ops)).
Definition refused (d : Doc) (a : Action) : bool := precondition (check_precondition group_model d a).
Definition post (text channel : string) : Origin -> Action :=
  group_act "post" (json_obj ["text" ~> Str text; "channel" ~> Str channel]).
Definition public_channel (name : string) : Value :=
  json_obj ["name" ~> Str name; "visibility" ~> Str "public"; "members" ~> Array []].
Definition folder_item (name : string) : Value :=
  json_obj ["name" ~> Str name; "kind" ~> Str "folder"; "parent" ~> Null].
Definition item (v : Value) : Value := json_obj ["item" ~> v].
Definition alice : Doc := group_doc ["alice"] ["alice"].

Definition init_seeds_general_channel_and_empty_drive : bool :=
  written (group_doc [] [])
    (group_act "init" (json_obj ["name" ~> Str "core"; "members" ~> arr ["a"]; "managers" ~> arr ["a"]]) "a") (fun w =>
    let channels := items (default Null (w !! "channels")) in
    asserts [w !! "members" ==? Some (arr ["a"]); w !! "managers" ==? Some (arr ["a"]);
             w !! "drive" ==? Some (Array []); w !! "msg_text" ==? Some (Array []); length channels ==? 1;
             (fun c => at_path c ["name"]) <$> channels ==? [Str "general"];
             (fun c => at_path c ["visibility"]) <$> channels ==? [Str "public"]]).
Definition post_by_member_appends_to_every_channel_field : bool :=
  written alice (post "hi" "general" "alice") (fun w =>
    asserts [size w ==? 4; w !! "msg_from" ==? Some (arr ["alice"]); w !! "msg_text" ==? Some (arr ["hi"]);
             w !! "msg_channel" ==? Some (arr ["general"]);
             (fun v => length (items v)) <$> w !! "msg_ts" ==? Some 1]).
Definition post_preserves_existing_messages : bool :=
  written (put_field (put_field alice "msg_from" (arr ["bob"])) "msg_text" (arr ["earlier"])) (post "again" "general" "alice") (fun w =>
    asserts [w !! "msg_text" ==? Some (arr ["earlier"; "again"]); w !! "msg_from" ==? Some (arr ["bob"; "alice"])]).
Definition post_by_nonmember_is_rejected : bool := refused alice (post "x" "general" "eve").
Definition manager_not_in_members_cannot_post : bool :=
  refused (group_doc [] ["alice"]) (post "x" "general" "alice").
Definition post_to_private_channel_by_nonmember_is_rejected_by_auth : bool :=
  let d := doc_with_private_channel ["alice"; "bob"] ["alice"] ["bob"] in
  let a := post "s" "ops" "alice" in
  asserts [is_ok (check_precondition group_model d a); precondition (authorize group_model d a)].
Definition post_to_private_channel_by_member_is_allowed_by_auth : bool :=
  let d := doc_with_private_channel ["alice"; "bob"] ["alice"] ["bob"] in
  let a := post "s" "ops" "bob" in
  asserts [is_ok (authorize group_model d a);
           written d a (fun w => w !! "msg_channel" ==? Some (arr ["ops"]))].
Definition post_to_public_channel_is_not_private_gated : bool :=
  is_ok (authorize group_model alice (post "s" "general" "alice")).
Definition add_channel_by_member_appends : bool :=
  written alice (group_act "add-channel" (item (public_channel "design")) "alice") (fun w =>
    let chans := items (default Null (w !! "channels")) in
    asserts [length chans ==? 2; (fun c => at_path c ["name"]) <$> chans !! 1 ==? Some (Str "design")]).
Definition add_channel_by_nonmember_is_rejected : bool :=
  refused alice (group_act "add-channel" (item (public_channel "x")) "eve").
Definition remove_channel_by_manager_sets_recomputed_array : bool :=
  written (put_field alice "channels" (Array [general_channel; public_channel "design"]))
    (group_act "remove-channel" (json_obj ["channels" ~> Array [general_channel]]) "alice") (fun w =>
    w !! "channels" ==? Some (Array [general_channel])).
Definition remove_channel_by_nonmanager_is_rejected : bool :=
  refused (group_doc ["alice"; "bob"] ["alice"])
    (group_act "remove-channel" (json_obj ["channels" ~> Array []]) "bob").
Definition add_folder_by_member_appends_tree_item : bool :=
  written alice (group_act "add-folder" (item (folder_item "plans")) "alice") (fun w =>
    let its := items (default Null (w !! "drive")) in
    asserts [(fun i => at_path i ["name"]) <$> its ==? [Str "plans"];
             (fun i => at_path i ["kind"]) <$> its ==? [Str "folder"];
             (fun i => at_path i ["parent"]) <$> its ==? [Null]]).
Definition add_doc_by_member_appends_typed_item : bool :=
  let doc := json_obj ["name" ~> Str "t1"; "kind" ~> Str "doc"; "model" ~> Str "task"; "parent" ~> Str "plans"] in
  written alice (group_act "add-doc" (item doc) "alice") (fun w =>
    expect_some (items (default Null (w !! "drive")) !! 0) (fun i =>
      asserts [at_path i ["name"] ==? Str "t1"; at_path i ["kind"] ==? Str "doc"; at_path i ["model"] ==? Str "task";
               at_path i ["parent"] ==? Str "plans"])).
Definition add_doc_by_nonmember_is_rejected : bool :=
  refused alice (group_act "add-doc"
    (item (json_obj ["name" ~> Str "n"; "kind" ~> Str "doc"; "model" ~> Str "note"; "parent" ~> Null])) "eve").
Definition remove_item_by_manager_sets_recomputed_drive : bool :=
  let b := json_obj ["name" ~> Str "b"; "kind" ~> Str "doc"; "model" ~> Str "note"; "parent" ~> Str "a"] in
  written (put_field alice "drive" (Array [folder_item "a"; b]))
    (group_act "remove-item" (json_obj ["drive" ~> Array [folder_item "a"]]) "alice") (fun w =>
    w !! "drive" ==? Some (Array [folder_item "a"])).
Definition remove_item_by_nonmanager_is_rejected : bool :=
  refused (group_doc ["alice"; "bob"] ["alice"]) (group_act "remove-item" (json_obj ["drive" ~> Array []]) "bob").
Definition add_member_by_manager_appends_to_members : bool :=
  written alice (group_act "add-member" (json_obj ["member" ~> Str "bob"]) "alice") (fun w =>
    w !! "members" ==? Some (arr ["alice"; "bob"])).
Definition add_member_by_nonmanager_is_rejected : bool :=
  refused (group_doc ["alice"; "bob"] ["alice"]) (group_act "add-member" (json_obj ["member" ~> Str "carol"]) "bob").
End GroupTests.
Definition group_tests : list (string * bool) :=
  [("init_seeds_general_channel_and_empty_drive", GroupTests.init_seeds_general_channel_and_empty_drive);
   ("post_by_member_appends_to_every_channel_field",
      GroupTests.post_by_member_appends_to_every_channel_field);
   ("post_preserves_existing_messages", GroupTests.post_preserves_existing_messages);
   ("post_by_nonmember_is_rejected", GroupTests.post_by_nonmember_is_rejected);
   ("manager_not_in_members_cannot_post", GroupTests.manager_not_in_members_cannot_post);
   ("post_to_private_channel_by_nonmember_is_rejected_by_auth",
      GroupTests.post_to_private_channel_by_nonmember_is_rejected_by_auth);
   ("post_to_private_channel_by_member_is_allowed_by_auth",
      GroupTests.post_to_private_channel_by_member_is_allowed_by_auth);
   ("post_to_public_channel_is_not_private_gated", GroupTests.post_to_public_channel_is_not_private_gated);
   ("add_channel_by_member_appends", GroupTests.add_channel_by_member_appends);
   ("add_channel_by_nonmember_is_rejected", GroupTests.add_channel_by_nonmember_is_rejected);
   ("remove_channel_by_manager_sets_recomputed_array",
      GroupTests.remove_channel_by_manager_sets_recomputed_array);
   ("remove_channel_by_nonmanager_is_rejected", GroupTests.remove_channel_by_nonmanager_is_rejected);
   ("add_folder_by_member_appends_tree_item", GroupTests.add_folder_by_member_appends_tree_item);
   ("add_doc_by_member_appends_typed_item", GroupTests.add_doc_by_member_appends_typed_item);
   ("add_doc_by_nonmember_is_rejected", GroupTests.add_doc_by_nonmember_is_rejected);
   ("remove_item_by_manager_sets_recomputed_drive", GroupTests.remove_item_by_manager_sets_recomputed_drive);
   ("remove_item_by_nonmanager_is_rejected", GroupTests.remove_item_by_nonmanager_is_rejected);
   ("add_member_by_manager_appends_to_members", GroupTests.add_member_by_manager_appends_to_members);
   ("add_member_by_nonmanager_is_rejected", GroupTests.add_member_by_nonmanager_is_rejected)].
Lemma group_tests_pass : failing group_tests = [].
Proof. vm_compute. reflexivity. Qed.

(** ** The other shipped definitions *)

Module DefTests.
(** What a definition is named. *)
Definition loads_as (m : AnyModel) (name version : string) : bool :=
  asserts [mr_name (ref_ m) ==? name; mr_version (ref_ m) ==? version].
Definition space_definition_loads : bool := loads_as space "space" "1".
Definition there_is_no_reducer_that_changes_visibility : bool :=
  forallb (fun '(name, r) => (name ==? "init") || none (vget (at_path r ["writes"]) "visibility"))
    (entries (at_path space_def ["reducers"])).
Definition only_a_public_space_is_gossiped : bool :=
  asserts [may_gossip PUBLIC; negb (may_gossip PROTECTED); negb (may_gossip PRIVATE)].
Definition a_private_space_does_not_leave_the_node : bool :=
  asserts [replicates PUBLIC; replicates PROTECTED; negb (replicates PRIVATE)].
Definition a_space_that_does_not_say_is_treated_as_private : bool :=
  visibility_of (seed_doc "mystery" []) ==? PRIVATE.

Definition chat_definition_loads : bool := mr_name (ref_ chat) ==? "chat".
Definition posting_defers_to_the_space : bool :=
  asserts [requires_space_member chat "post" ==? Some "members";
           none (vget (at_path chat_def ["fields"]) "members")].
Definition drive_definition_loads : bool := mr_name (ref_ drive) ==? "drive".
Definition adding_is_for_members_and_removing_is_for_managers : bool :=
  asserts [requires_space_member drive "add-item" ==? Some "members";
           requires_space_member drive "remove-item" ==? Some "managers"].

Definition package_definition_loads : bool := loads_as package "package" "1".
Definition init_has_no_precondition : bool := none (vget (at_path package_def ["reducers"; "init"]) "pre").
Definition package_init_names_the_document : bool :=
  at_path package_def ["reducers"; "init"; "writes"; "__name__"; "set"] ==? Str "$payload.name".
Definition withdraw_is_restricted_to_the_publisher : bool :=
  expect_some (as_array (at_path package_def ["reducers"; "withdraw"; "pre"])) (fun pre =>
    asserts [existsb (fun p => at_path p ["actor-in"] ==? Str "publishers") pre;
             existsb (fun p => asserts [at_path p ["field-is"; "field"] ==? Str "status";
                                        at_path p ["field-is"; "value"] ==? Str "published"]) pre]).

Definition release_definition_loads : bool := loads_as release "release" "1".
Definition release_init_names_the_document : bool :=
  at_path release_def ["reducers"; "init"; "writes"; "__name__"; "set"] ==? Str "$payload.name".
Definition only_the_publisher_may_withdraw_a_release : bool :=
  expect_some (as_array (at_path release_def ["reducers"; "withdraw"; "pre"])) (fun pre =>
    existsb (fun p => at_path p ["actor-in"] ==? Str "publishers") pre).
Definition a_release_states_its_platform : bool :=
  asserts [at_path release_def ["fields"; "platform"] ==? Str "string";
           at_path release_def ["reducers"; "init"; "writes"; "platform"; "set"] ==? Str "$payload.platform"].

Definition each_model_reduces_its_init : bool :=
  forallb (fun def =>
    expect_some (vget def "name" ≫= as_str) (fun name =>
      expect (from_def def) (fun l1 => asserts [mr_name (ref_ l1) ==? name; mr_version (ref_ l1) ==? "1"])))
    [project_def; task_def; account_def; transaction_def].
Definition relationships_declare_the_realistic_edges : bool :=
  asserts [realistic_relationships !! ("task", "project") ==? Some "project";
           realistic_relationships !! ("transaction", "account") ==? Some "account"].
End DefTests.
Definition def_tests : list (string * bool) :=
  [("space_definition_loads", DefTests.space_definition_loads);
   ("there_is_no_reducer_that_changes_visibility", DefTests.there_is_no_reducer_that_changes_visibility);
   ("only_a_public_space_is_gossiped", DefTests.only_a_public_space_is_gossiped);
   ("a_private_space_does_not_leave_the_node", DefTests.a_private_space_does_not_leave_the_node);
   ("a_space_that_does_not_say_is_treated_as_private",
      DefTests.a_space_that_does_not_say_is_treated_as_private);
   ("chat_definition_loads", DefTests.chat_definition_loads);
   ("posting_defers_to_the_space", DefTests.posting_defers_to_the_space);
   ("drive_definition_loads", DefTests.drive_definition_loads);
   ("adding_is_for_members_and_removing_is_for_managers",
      DefTests.adding_is_for_members_and_removing_is_for_managers);
   ("package_definition_loads", DefTests.package_definition_loads);
   ("init_has_no_precondition", DefTests.init_has_no_precondition);
   ("package_init_names_the_document", DefTests.package_init_names_the_document);
   ("withdraw_is_restricted_to_the_publisher", DefTests.withdraw_is_restricted_to_the_publisher);
   ("release_definition_loads", DefTests.release_definition_loads);
   ("release_init_names_the_document", DefTests.release_init_names_the_document);
   ("only_the_publisher_may_withdraw_a_release", DefTests.only_the_publisher_may_withdraw_a_release);
   ("a_release_states_its_platform", DefTests.a_release_states_its_platform);
   ("each_model_reduces_its_init", DefTests.each_model_reduces_its_init);
   ("relationships_declare_the_realistic_edges", DefTests.relationships_declare_the_realistic_edges)].
Lemma def_tests_pass : failing def_tests = [].
Proof. vm_compute. reflexivity. Qed.
