(* ===== verification/TestStore.v ===== *)
(** The tests of src/store.rs: each is a program of the store's own monad, so
    its calls run in the order of the test and share one state.  The test that
    crosses the snapshot threshold with a thousand updates is not here: a
    document is its fold from a snapshot in every reachable store
    ([StoreProps]). *)

From stdpp Require Import base gmap strings numbers pretty list.
From Stdlib Require Import Strings.Byte Strings.Ascii.
From S2P Require Import Prelude Json Doc Sample Action Model Builtins Entry Store StoreInv StoreProps.
From S2P Require Import Invite ReadModel Api Cli TestKit.
Open Scope test_scope.

Module StoreTests.
(** An assertion on the state; a call that must be refused, for its message; a
    test passes when it runs to its end. *)
Definition ensure (f : Inner -> bool) : storeM unit := fun s => (s, if f s then Ok tt else Err "assertion failed").
Definition holds (b : bool) : storeM unit := ensure (fun _ => b).
Definition refused {A} (p : storeM A) : storeM string := fun s =>
  match p s with (s, Err e) => (s, Ok e) | (s, Ok _) => (s, Err "expected a refusal") end.
Definition passes {A} (p : storeM A) (s : Inner) : bool := is_ok (p s).2.
Definition after {A} (p : storeM A) (s : Inner) : Inner := (p s).1.

(** The wall clock while a test runs, in microseconds. *)
Definition now : N := 1750000000000000.
Definition identity (seed : N) : SigningKey := sk seed.
Definition opened (dir : Disk) : Inner := store_open dir (identity 9) "test-origin".
Definition fresh : Inner := opened empty_disk.
(** [drop(s)], then the store opened on the same directory. *)
Definition reopened : storeM unit := fun s => (opened (i_disk s), Ok tt).
Definition create (id : DocId) (name : string) (fields : list (string * Value)) : storeM DocId :=
  create_doc (fun _ => now) id name (list_to_map fields).
Definition update (name field : string) (v : Value) : storeM unit := update_field now name field v.
Definition value_of (s : Inner) (name field : string) : option Value :=
  d ← get_doc s name; fld_value <$> doc_fields d !! field.
Definition strings_of (s : Inner) (name field : string) : list string :=
  omap as_str (default [] (value_of s name field ≫= as_array)).
Definition pin (who : string) (k : SigningKey) : storeM unit := register_peer_key who (verifying_key k).
Definition remote (a : Action) : storeM ApplyResult := apply_remote_action a.

Definition make_set_action (id : DocId) (origin : string) (key : SigningKey) (clock : VecClock) (field : string)
    (value : Value) (ts : N) : Action :=
  sign {| a_doc_id := id; a_model := open_ref; a_kind := "set";
          a_payload := json_obj ["field" ~> Str field; "value" ~> value]; a_ts := ts; a_clock := clock;
          a_origin := origin; a_cosig := []; a_prev_hash := None; a_space := None; a_sig := repeat x00 64 |} key.
(** An action signed by its origin and every co-signer, over the same bytes. *)
Definition signed_by (a : Action) (key : SigningKey) (cosigners : list (string * SigningKey)) : Action :=
  let mb := message_bytes a in
  with_cosig (with_sig a (ed_sign key mb))
    ((fun '(o, ck) => {| cs_origin := o; cs_sig := ed_sign ck mb |}) <$> cosigners).
(** The action of the tests before it is signed: chained to [prev], in [space]. *)
Definition unsigned (id : DocId) (model kind : string) (payload : Value) (origin : string) (clock : VecClock) (ts : N)
    (prev : option Hash32) (space : option DocId) : Action :=
  {| a_doc_id := id; a_model := modelref_new model "1"; a_kind := kind; a_payload := payload; a_ts := ts;
     a_clock := clock; a_origin := origin; a_cosig := []; a_prev_hash := prev; a_space := space;
     a_sig := repeat x00 64 |}.
Definition make_group_action (id : DocId) (kind : string) (payload : Value) (origin : string) (key : SigningKey)
    (cosigners : list (string * SigningKey)) (clock : VecClock) (ts : N) : Action :=
  signed_by (unsigned id "group" kind payload origin clock ts None None) key cosigners.
Definition clock1 (origin : string) (n : nat) : VecClock := Nat.iter n (fun c => (vc_tick c origin).1) ∅.

Definition tofu_pinning_rejects_key_mismatch : bool :=
  passes (
    _ ← pin "peer-x" (identity 11);
    _ ← pin "peer-x" (identity 11);
    err ← refused (pin "peer-x" (identity 12));
    _ ← holds (str_contains err "TOFU");
    _ ← pin "peer-x" (identity 11);
    refused (pin "peer-x" (identity 12))) fresh.
Definition doc_change_carries_the_action_delta : bool :=
  passes (
    _ ← modify subscribe_changes;
    _ ← create 1 "note-delta" [];
    _ ← update "note-delta" "status" (Str "accepted");
    ensure (fun s => expect_some (head (i_subscribers s) ≫= fun rx => last (sub_queue rx)) (fun c =>
      asserts [dc_name c ==? "note-delta"; dc_action_kind c ==? Some "set"; dc_action_field c ==? Some "status";
               dc_action_value c ==? Some (Str "accepted")]))) fresh.
Definition create_read_update_delete_field : bool :=
  passes (
    id ← create 1 "note-1" ["title" ~> Str "hello"];
    _ ← ensure (fun s => asserts [value_of s "note-1" "title" ==? Some (Str "hello");
                                 none (value_of s "note-1" "__name__"); length (list_docs s) ==? 1]);
    _ ← update "note-1" "body" (Str "world");
    _ ← ensure (fun s => value_of s "note-1" "body" ==? Some (Str "world"));
    _ ← delete_field now "note-1" "body";
    _ ← ensure (fun s => none (value_of s "note-1" "body"));
    _ ← refused (create 2 "note-1" []);
    _ ← refused (update "nope" "f" (Number 1));
    _ ← delete_doc now "note-1";
    _ ← ensure (fun s => none (get_doc s "note-1"));
    id2 ← create 3 "note-1" [];
    ensure (fun s => asserts [id <>? id2; doc_count s ==? 1])) fresh.
Definition name_validation : bool :=
  asserts [is_ok (validate_name "ok-name_1.x"); is_err (validate_name "");
           is_err (validate_name (String.concat "" (repeat "a" 65))); is_err (validate_name ".hidden");
           is_err (validate_name "a/b"); is_err (validate_name "a b")].
Definition crash_recovery_replays_log : bool :=
  passes (
    _ ← create 1 "persist" ["a" ~> Number 1; "b" ~> Number 2];
    _ ← update "persist" "a" (Number 99);
    _ ← reopened;
    ensure (fun s => asserts [doc_name <$> get_doc s "persist" ==? Some "persist";
                             value_of s "persist" "a" ==? Some (Number 99);
                             value_of s "persist" "b" ==? Some (Number 2); doc_count s ==? 1])) fresh.
Definition replay_preserves_model_of_model_created_doc : bool :=
  passes (
    group_ref ← lift_res (modelref_parse "group@1");
    _ ← create_doc_model now 1 "devs" group_ref
          (json_obj ["name" ~> Str "devs"; "members" ~> json_strs ["alice"; "bob"]; "managers" ~> json_strs ["carol"]]);
    _ ← reopened;
    ensure (fun s =>
      expect_some (get_doc s "devs") (fun d => expect_some (full_state s (doc_id d)) (fun st =>
        asserts [mr_name (ds_model st) ==? "group"; mr_version (ds_model st) ==? "1";
                 fld_value <$> doc_fields (ds_doc st) !! "members" ==? Some (json_strs ["alice"; "bob"]);
                 doc_count s ==? 1])))) fresh.
(** The clock of a document, advanced by a remote origin. *)
Definition ticked (id : DocId) (origin : string) : storeM VecClock :=
  s ← get_state; c ← lift_res (ok_or (summary s !! id) "no such document"); mret (vc_tick c origin).1.
Definition remote_action_applies_and_dedups : bool :=
  passes (
    _ ← pin "remote-peer" (identity 7);
    id ← create 1 "shared" [];
    clock ← ticked id "remote-peer";
    let action := make_set_action id "remote-peer" (identity 7) clock "rf" (Str "rv") 1000000 in
    r1 ← remote action;
    _ ← ensure (fun s => asserts [applied r1; value_of s "shared" "rf" ==? Some (Str "rv")]);
    r2 ← remote action;
    ensure (fun s => asserts [negb (applied r2); value_of s "shared" "rf" ==? Some (Str "rv")])) fresh.
Definition from_origin (a : Action) (o : string) : Action :=
  {| a_doc_id := a_doc_id a; a_model := a_model a; a_kind := a_kind a; a_payload := a_payload a; a_ts := a_ts a;
     a_clock := a_clock a; a_origin := o; a_cosig := a_cosig a; a_prev_hash := a_prev_hash a;
     a_space := a_space a; a_sig := a_sig a |}.
Definition bad_signature_quarantined : bool :=
  passes (
    _ ← pin "rogue" (identity 3);
    id ← create 1 "t" [];
    clock ← ticked id "rogue";
    let action := sign (make_set_action id "rogue" (identity 3) clock "k" (Number 1) 42) (identity 4) in
    _ ← refused (remote action);
    _ ← ensure (fun s => asserts [i_quarantined s ==? 1%N; none (value_of s "t" "k")]);
    refused (remote (from_origin action "ghost"))) fresh.
Definition drained : storeM (list Action) := fun s => let '(s, l) := drain_outbound s in (s, Ok l).
Definition outbound_drain_carries_local_actions_only : bool :=
  passes (
    _ ← create 1 "o" [];
    actions ← drained;
    _ ← ensure (fun s => asserts [actions <>? []; forallb (fun a => a_origin a ==? i_origin s) actions]);
    again ← drained;
    holds (again ==? [])) fresh.
(** [rx.try_recv()]: the first action of the feed. *)
Definition try_recv : storeM (option Action) := fun s =>
  match i_outbound_feed s with
  | Some (a :: rest) => (set_outbound s (i_outbound s) (Some rest), Ok (Some a))
  | _ => (s, Ok None)
  end.
Definition outbound_feed_delivers_local_actions_immediately_not_remote : bool :=
  passes (
    _ ← modify connect_outbound;
    _ ← create 1 "fed" [];
    a1 ← try_recv;
    _ ← update "fed" "x" (Number 1);
    a2 ← try_recv;
    _ ← ensure (fun s => asserts [a_origin <$> a1 ==? Some (i_origin s); a_origin <$> a2 ==? Some (i_origin s);
                                 hash <$> a1 <>? hash <$> a2]);
    _ ← pin "remote-peer" (identity 7);
    s ← get_state;
    id ← lift_res (ok_or (List.find (fun id => store_doc_name s id ==? "fed") (doc_ids s)) "absent");
    clock ← ticked id "remote-peer";
    _ ← remote (make_set_action id "remote-peer" (identity 7) clock "rf" (Str "rv") 2000000);
    a3 ← try_recv;
    l ← drained;
    holds (asserts [none a3; length l ==? 2])) fresh.
Definition max_ts (l : list Action) : N := foldr N.max 0%N (a_ts <$> l).
Definition ts_strictly_increases_across_restarts : bool :=
  passes (
    _ ← create 1 "t" [];
    first ← drained;
    _ ← reopened;
    _ ← update "t" "x" (Number 1);
    second ← drained;
    holds (asserts [first <>? []; second <>? []; (max_ts first <? max_ts second)%N])) fresh.

(** *** Groups and the two-person rule *)

Definition alice : SigningKey := identity 1.
Definition bob : SigningKey := identity 2.
Definition carol : SigningKey := identity 3.
Definition mallory : SigningKey := identity 4.
Definition gid : DocId := 50.
Definition group_init (members managers : list string) : Action :=
  make_group_action gid "init"
    (json_obj ["name" ~> Str "core"; "members" ~> json_strs members; "managers" ~> json_strs managers])
    "alice" alice [] (clock1 "alice" 1) 1000.
Definition add_manager (member : string) (cosigners : list (string * SigningKey)) (n : nat) : Action :=
  make_group_action gid "add-manager" (json_obj ["member" ~> Str member]) "alice" alice cosigners
    (clock1 "alice" n) (1000 * N.of_nat n).
Definition group_add_manager_two_person_rule : bool :=
  passes (
    _ ← pin "alice" alice; _ ← pin "bob" bob; _ ← pin "carol" carol; _ ← pin "mallory" mallory;
    _ ← remote (group_init ["alice"; "bob"; "carol"] ["alice"]);
    _ ← ensure (fun s => value_of s "core" "members" ==? Some (json_strs ["alice"; "bob"; "carol"]));
    _ ← remote (add_manager "dave" [("bob", bob); ("carol", carol)] 2);
    _ ← ensure (fun s => contains (strings_of s "core" "managers") "dave");
    _ ← remote (add_manager "eve" [("bob", bob)] 3);
    _ ← refused (remote (add_manager "frank" [] 4));
    _ ← refused (remote (add_manager "frank" [("alice", alice)] 5));
    _ ← remote (add_manager "eve" [("bob", bob); ("bob", bob)] 6);
    _ ← refused (remote (add_manager "eve" [("mallory", mallory)] 7));
    _ ← ensure (fun s => negb (contains (strings_of s "core" "members") "frank"));
    let tampered := add_manager "eve" [("bob", bob); ("carol", carol)] 8 in
    _ ← refused (remote (with_sig tampered (ed_sign bob (message_bytes tampered))));
    ensure (fun s => (0 <? i_quarantined s)%N)) fresh.

(** *** The audit *)

Definition audited (name : string) (f : VerifyReport -> bool) : storeM unit :=
  s ← get_state; r ← lift_res (verify_doc s name); holds (f r).
Definition verify_valid_doc_verifies : bool :=
  passes (
    _ ← create 1 "v1" ["title" ~> Str "hello"];
    _ ← update "v1" "body" (Str "world");
    _ ← update "v1" "body" (Str "world2");
    audited "v1" (fun report =>
      asserts [vr_ok report; length (vr_actions report) ==? 4;
               forallb (fun a => ac_problems a ==? []) (vr_actions report); negb (vr_from_snapshot report);
               str_contains (render_report report) "verify v1"; str_contains (render_report report) "VERIFIED"])) fresh.
Definition verify_cosigned_action_verifies : bool :=
  let init := group_init ["alice"; "bob"; "carol"] ["alice"] in
  let add := signed_by (unsigned gid "group" "add-manager" (json_obj ["member" ~> Str "bob"]) "alice" (clock1 "alice" 2)
                          2000 (Some (hash init)) None) alice [("bob", bob); ("carol", carol)] in
  passes (
    _ ← pin "alice" alice; _ ← pin "bob" bob; _ ← pin "carol" carol;
    _ ← remote init;
    _ ← remote add;
    audited "core" (fun report =>
      asserts [vr_ok report;
               expect_some (List.find (fun a => ac_kind a ==? "add-manager") (vr_actions report)) ac_ok;
               mr_name <$> vr_model report ==? Some "group"])) fresh.
(** The log file of a document, read, edited and written back. *)
Definition edit_log (id : DocId) (f : list Action -> list Action) : storeM unit := fun s =>
  let d := i_disk s in
  let lines := omap (fun l => l) (default [] (dk_alogs d !! id)) in
  (set_disk s {| dk_index := dk_index d; dk_snaps := dk_snaps d; dk_alogs := <[id := Some <$> f lines]> (dk_alogs d) |}, Ok tt).
(** The first byte of a signature flipped. *)
Definition flipped (a : Action) : Action :=
  with_sig a match a_sig a with b :: rest => byte_of_N (N.lxor (Byte.to_N b) 255) :: rest | [] => [] end.
Definition chained_to (a : Action) (h : option Hash32) : Action :=
  {| a_doc_id := a_doc_id a; a_model := a_model a; a_kind := a_kind a; a_payload := a_payload a; a_ts := a_ts a;
     a_clock := a_clock a; a_origin := a_origin a; a_cosig := a_cosig a; a_prev_hash := h;
     a_space := a_space a; a_sig := a_sig a |}.
Definition names_problem (report : VerifyReport) (word : string) : bool :=
  existsb (fun a => existsb (fun p => str_contains p word) (ac_problems a)) (vr_actions report).
Definition verify_flags_tampered_signature : bool :=
  passes (
    id ← create 1 "v1" ["title" ~> Str "hello"];
    _ ← edit_log id (alter flipped 0);
    _ ← reopened;
    audited "v1" (fun report => asserts [negb (vr_ok report); names_problem report "signature"])) fresh.
Definition verify_flags_broken_chain : bool :=
  let tamper a := sign (chained_to a (Some (hash32_of (as_bytes "tampered")))) (identity 9) in
  passes (
    id ← create 1 "v1" ["title" ~> Str "hello"];
    _ ← update "v1" "body" (Str "world");
    _ ← edit_log id (alter tamper 1);
    _ ← reopened;
    audited "v1" (fun report => asserts [negb (vr_ok report); names_problem report "chain"])) fresh.

(** *** Concurrent actions *)

(** A node with two keys pinned and the group created. *)
Definition group_node (keys : list (string * SigningKey)) (init : Action) : Inner :=
  after (remote init) (foldl (fun s '(who, k) => after (pin who k) s) fresh keys).
(** Two nodes take the same two actions, each its own author's first. *)
Definition exchanged (node : Inner) (x y : Action) (f : Inner -> Inner -> bool) : bool :=
  asserts [passes (_ ← remote x; remote y) node; passes (_ ← remote y; remote x) node;
           f (after (_ ← remote x; remote y) node) (after (_ ← remote y; remote x) node)].
Definition concurrent_posts_converge_and_keep_both_messages : bool :=
  let post text who key := make_group_action gid "post"
    (json_obj ["text" ~> Str text; "channel" ~> Str "general"]) who key [] in
  exchanged (group_node [("alice", alice); ("bob", bob)] (group_init ["alice"; "bob"] ["alice"]))
    (post "from alice" "alice" alice (clock1 "alice" 2) 2000%N)
    (post "from bob" "bob" bob (vc_tick (clock1 "alice" 1) "bob").1 2001%N) (fun a b =>
    asserts [strings_of a "core" "msg_text" ==? strings_of b "core" "msg_text";
             length (strings_of a "core" "msg_text") ==? 2]).
Definition a_concurrent_add_must_not_resurrect_a_removed_member : bool :=
  let change kind who key member := make_group_action gid kind (json_obj ["member" ~> Str member]) who key [] in
  exchanged (group_node [("alice", alice); ("carol", carol)]
               (group_init ["alice"; "bob"; "carol"] ["alice"; "carol"]))
    (change "remove-member" "alice" alice "bob" (clock1 "alice" 2) 2000%N)
    (change "add-member" "carol" carol "dave" (vc_tick (clock1 "alice" 1) "carol").1 2001%N) (fun a b =>
    let ma := strings_of a "core" "members" in
    asserts [ma ==? strings_of b "core" "members"; negb (contains ma "bob"); contains ma "dave"]).
Definition a_document_with_concurrent_actions_still_verifies : bool :=
  let init := group_init ["alice"; "bob"] ["alice"] in
  let post text who key clock ts :=
    signed_by (unsigned gid "group" "post" (json_obj ["text" ~> Str text; "channel" ~> Str "general"]) who clock ts
                 (Some (hash init)) None) key [] in
  passes (
    _ ← remote (post "a" "alice" alice (clock1 "alice" 2) 2000%N);
    _ ← remote (post "b" "bob" bob (vc_tick (clock1 "alice" 1) "bob").1 2001%N);
    audited "core" vr_ok) (group_node [("alice", alice); ("bob", bob)] init).

(** *** Spaces *)

Definition signed_in (space id : DocId) (model kind : string) (payload : Value) (who : string) (n : nat) (ts : N) : Action :=
  signed_by (unsigned id model kind payload who (clock1 who n) ts None (Some space)) alice [].
Definition core_payload : Value :=
  json_obj ["name" ~> Str "core"; "members" ~> json_strs ["alice"]; "managers" ~> json_strs ["alice"]].
Definition a_document_cannot_change_space : bool :=
  passes (
    _ ← pin "alice" alice;
    _ ← remote (signed_in 60 gid "group" "init" core_payload "alice" 1 1000);
    err ← refused (remote (signed_in 61 gid "group" "post"
                             (json_obj ["text" ~> Str "hi"; "channel" ~> Str "general"]) "alice" 2 2000));
    holds (str_contains err "space")) fresh.
(** A space with its document, and one document in it, under two given ids. *)
Definition seed_space (space_id doc_id : DocId) (visibility : string) (members : list string) (owner : string) : storeM unit :=
  _ ← remote (signed_in space_id space_id "space" "init"
                (json_obj ["name" ~> Str ("space-" +:+ visibility); "visibility" ~> Str visibility;
                           "members" ~> json_strs members; "managers" ~> json_strs [owner]]) owner 1 1000);
  _ ← remote (signed_in space_id doc_id "group" "init"
                (json_obj ["name" ~> Str ("doc-in-" +:+ visibility); "members" ~> json_strs members;
                           "managers" ~> json_strs [owner]]) owner 2 1001);
  mret tt.
Definition space_store : Inner :=
  foldl (fun s who => after (pin who alice) s) fresh ["alice"; "bob"; "mallory"].
Definition a_public_space_is_readable_by_anyone : bool :=
  passes (
    _ ← seed_space 60 61 "public" ["alice"] "alice";
    ensure (fun s => may_peer_read s "mallory" 61)) space_store.
Definition a_protected_space_is_withheld_from_a_non_member : bool :=
  passes (
    _ ← seed_space 60 61 "protected" ["alice"; "bob"] "alice";
    ensure (fun s => asserts [may_peer_read s "bob" 61; negb (may_peer_read s "mallory" 61)])) space_store.
Definition a_private_space_is_served_to_nobody : bool :=
  passes (
    _ ← seed_space 60 61 "private" ["alice"] "alice";
    ensure (fun s => negb (may_peer_read s "alice" 61))) space_store.
Definition a_space_document_is_served_to_anyone_it_names : bool :=
  passes (
    _ ← seed_space 60 61 "protected" ["alice"; "bob"] "alice";
    ensure (fun s => asserts [may_peer_read s "bob" 60; negb (may_peer_read s "mallory" 60)])) space_store.
Definition a_document_whose_space_is_unknown_is_withheld : bool :=
  passes (
    _ ← remote (signed_in 62 63 "group" "init" core_payload "alice" 1 1000);
    ensure (fun s => negb (may_peer_read s "alice" 63))) space_store.
Definition a_document_with_no_space_still_replicates : bool :=
  passes (
    _ ← remote (group_init ["alice"] ["alice"]);
    ensure (fun s => may_peer_read s "mallory" gid)) space_store.
Definition a_summary_hides_documents_the_peer_cannot_read : bool :=
  passes (
    _ ← seed_space 60 61 "protected" ["alice"] "alice";
    ensure (fun s => asserts [some (summary s !! 61%N); none (summary_for s "mallory" !! 61%N);
                             none (summary_for s "mallory" !! 60%N); some (summary_for s "alice" !! 61%N)])) space_store.
Definition an_app_inherits_its_spaces_membership : bool :=
  let mk := signed_in 60 64 "chat" in
  passes (
    _ ← seed_space 60 61 "protected" ["alice"; "bob"] "alice";
    _ ← remote (mk "init" (json_obj ["name" ~> Str "general"; "channel" ~> Str "general"]) "alice" 2 2000%N);
    _ ← remote (mk "post" (json_obj ["text" ~> Str "hello"]) "bob" 1 2001%N);
    err ← refused (remote (mk "post" (json_obj ["text" ~> Str "let me in"]) "mallory" 1 2002%N));
    ensure (fun s => asserts [str_contains err "members"; strings_of s "general" "msg_text" ==? ["hello"]])) space_store.
Definition a_write_is_refused_while_the_space_document_is_missing : bool :=
  passes (
    err ← refused (remote (signed_in 65 64 "chat" "init"
                             (json_obj ["name" ~> Str "ghost"; "channel" ~> Str "general"]) "alice" 1 2000));
    holds (str_contains err "space")) space_store.
Definition a_restart_does_not_make_a_private_space_world_readable : bool :=
  passes (
    _ ← seed_space 60 61 "private" ["alice"] "alice";
    _ ← seed_space 70 71 "protected" ["alice"] "alice";
    _ ← ensure (fun s => asserts [negb (may_peer_read s "mallory" 61); negb (may_peer_read s "mallory" 71)]);
    _ ← reopened;
    ensure (fun s => asserts [space_of s 61 ==? Some 60%N; space_of s 71 ==? Some 70%N;
                             negb (may_peer_read s "mallory" 61); negb (may_peer_read s "mallory" 71);
                             none (summary_for s "mallory" !! 61%N)])) space_store.
End StoreTests.
Definition store_tests : list (string * bool) :=
  [("tofu_pinning_rejects_key_mismatch", StoreTests.tofu_pinning_rejects_key_mismatch);
   ("doc_change_carries_the_action_delta", StoreTests.doc_change_carries_the_action_delta);
   ("create_read_update_delete_field", StoreTests.create_read_update_delete_field);
   ("name_validation", StoreTests.name_validation);
   ("crash_recovery_replays_log", StoreTests.crash_recovery_replays_log);
   ("replay_preserves_model_of_model_created_doc", StoreTests.replay_preserves_model_of_model_created_doc);
   ("remote_action_applies_and_dedups", StoreTests.remote_action_applies_and_dedups);
   ("bad_signature_quarantined", StoreTests.bad_signature_quarantined);
   ("outbound_drain_carries_local_actions_only", StoreTests.outbound_drain_carries_local_actions_only);
   ("outbound_feed_delivers_local_actions_immediately_not_remote",
      StoreTests.outbound_feed_delivers_local_actions_immediately_not_remote);
   ("ts_strictly_increases_across_restarts", StoreTests.ts_strictly_increases_across_restarts);
   ("group_add_manager_two_person_rule", StoreTests.group_add_manager_two_person_rule);
   ("verify_valid_doc_verifies", StoreTests.verify_valid_doc_verifies);
   ("verify_cosigned_action_verifies", StoreTests.verify_cosigned_action_verifies);
   ("verify_flags_tampered_signature", StoreTests.verify_flags_tampered_signature);
   ("verify_flags_broken_chain", StoreTests.verify_flags_broken_chain);
   ("concurrent_posts_converge_and_keep_both_messages",
      StoreTests.concurrent_posts_converge_and_keep_both_messages);
   ("a_concurrent_add_must_not_resurrect_a_removed_member",
      StoreTests.a_concurrent_add_must_not_resurrect_a_removed_member);
   ("a_document_with_concurrent_actions_still_verifies",
      StoreTests.a_document_with_concurrent_actions_still_verifies);
   ("a_document_cannot_change_space", StoreTests.a_document_cannot_change_space);
   ("a_public_space_is_readable_by_anyone", StoreTests.a_public_space_is_readable_by_anyone);
   ("a_protected_space_is_withheld_from_a_non_member",
      StoreTests.a_protected_space_is_withheld_from_a_non_member);
   ("a_private_space_is_served_to_nobody", StoreTests.a_private_space_is_served_to_nobody);
   ("a_space_document_is_served_to_anyone_it_names",
      StoreTests.a_space_document_is_served_to_anyone_it_names);
   ("a_document_whose_space_is_unknown_is_withheld",
      StoreTests.a_document_whose_space_is_unknown_is_withheld);
   ("a_document_with_no_space_still_replicates", StoreTests.a_document_with_no_space_still_replicates);
   ("a_summary_hides_documents_the_peer_cannot_read",
      StoreTests.a_summary_hides_documents_the_peer_cannot_read);
   ("an_app_inherits_its_spaces_membership", StoreTests.an_app_inherits_its_spaces_membership);
   ("a_write_is_refused_while_the_space_document_is_missing",
      StoreTests.a_write_is_refused_while_the_space_document_is_missing);
   ("a_restart_does_not_make_a_private_space_world_readable",
      StoreTests.a_restart_does_not_make_a_private_space_world_readable)].
Lemma store_tests_pass : failing store_tests = [].
Proof. vm_compute. reflexivity. Qed.
