(* ===== verification/TestNet.v ===== *)
(** The tests of src/p2p and src/blob: proposal tokens, invites, frames, the
    ban of a peer that fails to authenticate, and the chunk store.  The tests
    on blobs of several chunks of 256 KiB are not here: [Blob] proves the round
    trip, the integrity and the collection for every blob. *)

From stdpp Require Import base gmap strings numbers pretty list.
From Stdlib Require Import Strings.Byte Strings.Ascii.
From S2P Require Import Prelude Json Doc Sample Action Model Builtins Entry Store StoreInv Text Cosign Invite Blob Codec Engine Sync.
From S2P Require Import TestKit.
Open Scope test_scope.

(** ** src/p2p/cosign.rs *)

Module CosignTests.
Definition proposal (origin : string) (member : string) (k : SigningKey) : Action :=
  sign {| a_doc_id := 0; a_model := modelref_new "group" "1"; a_kind := "add-manager";
          a_payload := json_obj ["member" ~> Str member]; a_ts := 1; a_clock := ∅; a_origin := origin; a_cosig := [];
          a_prev_hash := None; a_space := None; a_sig := repeat x00 64 |} k.
Definition keyring (pairs : list (string * SigningKey)) (o : string) : option (list byte) :=
  (fun p => verifying_key p.2) <$> List.find (fun p => p.1 ==? o) pairs.
(** A token of the action, decoded with the keys of a ring. *)
Definition passed (a : Action) (ring : list (string * SigningKey)) : result string Action :=
  let text := texts [a] in decode (keyring ring) (encode a).
Definition refused_for {A} (r : result string A) (why : string) : bool :=
  match r with Err e => str_contains e why | Ok _ => false end.
Definition alice := sk 1.
Definition bob := sk 2.
Definition carol := sk 3.
Definition proposed : Action := proposal "alice" "12D3KooW-new" alice.

Definition token_round_trips_with_a_cosignature : bool :=
  expect (add_cosig proposed "bob" bob) (fun a =>
    let text := texts [a] in
    asserts [String.prefix PREFIX (encode a);
             expect (passed a [("alice", alice); ("bob", bob)]) (fun back => (cs_origin <$> a_cosig back) ==? ["bob"])]).
Definition a_tampered_payload_is_rejected : bool :=
  let tampered := with_sig (proposal "alice" "12D3KooW-attacker" alice) (a_sig proposed) in
  refused_for (passed tampered [("alice", alice)]) "does not verify".
Definition a_forged_cosignature_is_rejected : bool :=
  let a := with_cosig proposed [{| cs_origin := "bob"; cs_sig := ed_sign carol (message_bytes proposed) |}] in
  refused_for (passed a [("alice", alice); ("bob", bob)]) "does not verify".
Definition an_unknown_cosigner_is_an_error_not_a_silent_skip : bool :=
  expect (add_cosig proposed "mallory" bob) (fun a => refused_for (passed a [("alice", alice)]) "unknown co-signer").
Definition the_proposer_cannot_cosign_their_own_action : bool :=
  refused_for (add_cosig proposed "alice" alice) "already counts".
Definition cosigning_twice_is_refused : bool :=
  expect (add_cosig proposed "bob" bob) (fun a =>
    asserts [refused_for (add_cosig a "bob" bob) "already co-signed"; length (a_cosig a) ==? 1]).
Definition endorsers_count_the_proposer_and_ignore_non_members : bool :=
  let members := ["alice"; "bob"] in
  expect (add_cosig proposed "bob" bob) (fun a =>
    expect (add_cosig a "carol" carol) (fun b =>
      asserts [endorser_count proposed members ==? 1; endorser_count a members ==? 2; endorser_count b members ==? 2])).
Definition a_non_proposal_string_fails_clearly : bool :=
  let text := texts [proposed] in refused_for (decode (fun _ => None) "hello") "not a proposal token".
End CosignTests.
Definition cosign_tests : list (string * bool) :=
  [("token_round_trips_with_a_cosignature", CosignTests.token_round_trips_with_a_cosignature);
   ("a_tampered_payload_is_rejected", CosignTests.a_tampered_payload_is_rejected);
   ("a_forged_cosignature_is_rejected", CosignTests.a_forged_cosignature_is_rejected);
   ("an_unknown_cosigner_is_an_error_not_a_silent_skip",
      CosignTests.an_unknown_cosigner_is_an_error_not_a_silent_skip);
   ("the_proposer_cannot_cosign_their_own_action", CosignTests.the_proposer_cannot_cosign_their_own_action);
   ("cosigning_twice_is_refused", CosignTests.cosigning_twice_is_refused);
   ("endorsers_count_the_proposer_and_ignore_non_members",
      CosignTests.endorsers_count_the_proposer_and_ignore_non_members);
   ("a_non_proposal_string_fails_clearly", CosignTests.a_non_proposal_string_fails_clearly)].
Lemma cosign_tests_pass : failing cosign_tests = [].
Proof. vm_compute. reflexivity. Qed.

(** ** src/p2p/invite.rs *)

Module InviteTests.
#[local] Instance InviteToken_eq_dec : EqDecision InviteToken.
Proof. solve_decision. Defined.
(** [new_nonce] draws the bytes; here the tests name theirs. *)
Definition nonce (n : N) : list byte := be_bytes 16 n.
Definition token (peer_id : string) (k : SigningKey) (addr : string) (groups : list string) : InviteToken :=
  {| t_version := 1; t_name := "inviter"; t_peer_id := peer_id; t_pubkey := verifying_key k; t_addr := addr;
     t_nonce := nonce 7; t_groups := groups; t_sig := [] |}.
Definition with_addr (t : InviteToken) (addr : string) : InviteToken :=
  {| t_version := t_version t; t_name := t_name t; t_peer_id := t_peer_id t; t_pubkey := t_pubkey t; t_addr := addr;
     t_nonce := t_nonce t; t_groups := t_groups t; t_sig := t_sig t |}.

Definition token_sign_verify_encode_decode_roundtrip : bool :=
  let t := token_sign (token "12D3KooW-inviter" (sk 1) "/ip4/10.0.0.2/tcp/4201/p2p/12D3KooW-inviter" ["powerhouse"]) (sk 1) in
  let text := texts [t] in
  expect (token_decode (token_encode t)) (fun back =>
    asserts [back ==? t; t_peer_id back ==? "12D3KooW-inviter"; t_groups back ==? ["powerhouse"]]).
Definition token_rejects_tampered_field : bool :=
  let t := token_sign (token "inviter" (sk 2) "/ip4/10.0.0.2/tcp/4201" []) (sk 2) in
  let tampered := with_addr t "/ip4/127.0.0.1/tcp/1" in
  let text := texts [t; tampered] in
  asserts [is_ok (token_decode (token_encode t)); is_err (token_decode (token_encode tampered))].
Definition token_rejects_wrong_signer : bool :=
  is_err (token_verify (token_sign (token "inviter" (sk 3) "/ip4/10.0.0.2/tcp/4201" []) (sk 4))).
Definition accept_sign_verify_and_tamper : bool :=
  let a := accept_sign {| c_nonce := nonce 1; c_name := "joiner"; c_peer_id := "12D3KooW-joiner";
                          c_pubkey := verifying_key (sk 5); c_sig := [] |} (sk 5) in
  let bad := {| c_nonce := nonce 2; c_name := c_name a; c_peer_id := c_peer_id a; c_pubkey := c_pubkey a;
                c_sig := c_sig a |} in
  asserts [is_ok (accept_verify a); is_err (accept_verify bad)].
Definition invite_addr_prefers_an_external_address : bool :=
  pick_invite_addr ["/ip4/203.0.113.9/tcp/25422"; "/dns4/ws.example/tcp/443/tls/ws"] (Some "/ip4/127.0.0.1/tcp/25423/ws")
    ==? Some "/ip4/203.0.113.9/tcp/25422".
Definition invite_addr_falls_back_to_listen_when_no_external : bool :=
  pick_invite_addr [] (Some "/ip4/10.0.0.5/tcp/25422") ==? Some "/ip4/10.0.0.5/tcp/25422".
Definition invite_addr_skips_blank_external_entries : bool :=
  pick_invite_addr [""; "   "; "/ip4/198.51.100.1/tcp/25422"] (Some "/ip4/127.0.0.1/tcp/1")
    ==? Some "/ip4/198.51.100.1/tcp/25422".
Definition invite_addr_is_none_with_nothing_to_offer : bool := none (pick_invite_addr [] None).
Definition undialable_addresses_are_recognised : bool :=
  asserts [is_undialable_by_peers "/ip4/127.0.0.1/tcp/25423/ws"; is_undialable_by_peers "/ip4/0.0.0.0/tcp/25422";
           is_undialable_by_peers "/ip6/::1/tcp/25422"; negb (is_undialable_by_peers "/ip4/46.225.34.129/tcp/25422");
           negb (is_undialable_by_peers "/dns4/ws.example/tcp/443/tls/ws")].
End InviteTests.
Definition invite_tests : list (string * bool) :=
  [("token_sign_verify_encode_decode_roundtrip", InviteTests.token_sign_verify_encode_decode_roundtrip);
   ("token_rejects_tampered_field", InviteTests.token_rejects_tampered_field);
   ("token_rejects_wrong_signer", InviteTests.token_rejects_wrong_signer);
   ("accept_sign_verify_and_tamper", InviteTests.accept_sign_verify_and_tamper);
   ("invite_addr_prefers_an_external_address", InviteTests.invite_addr_prefers_an_external_address);
   ("invite_addr_falls_back_to_listen_when_no_external",
      InviteTests.invite_addr_falls_back_to_listen_when_no_external);
   ("invite_addr_skips_blank_external_entries", InviteTests.invite_addr_skips_blank_external_entries);
   ("invite_addr_is_none_with_nothing_to_offer", InviteTests.invite_addr_is_none_with_nothing_to_offer);
   ("undialable_addresses_are_recognised", InviteTests.undialable_addresses_are_recognised)].
Lemma invite_tests_pass : failing invite_tests = [].
Proof. vm_compute. reflexivity. Qed.

(** ** src/p2p/codec.rs *)

Module CodecTests.
#[local] Instance DocState_eq_dec : EqDecision DocState.
Proof. solve_decision. Defined.
#[local] Instance DocSummary_eq_dec : EqDecision DocSummary.
Proof. solve_decision. Defined.
#[local] Instance InviteAccept_eq_dec : EqDecision InviteAccept.
Proof. solve_decision. Defined.
#[local] Instance Hello_eq_dec : EqDecision Hello.
Proof. solve_decision. Defined.
#[local] Instance HelloAck_eq_dec : EqDecision HelloAck.
Proof. solve_decision. Defined.
#[local] Instance HelloError_eq_dec : EqDecision HelloError.
Proof. solve_decision. Defined.
#[local] Instance CatchUp_eq_dec : EqDecision CatchUp.
Proof. solve_decision. Defined.
#[local] Instance CatchUpAck_eq_dec : EqDecision CatchUpAck.
Proof. solve_decision. Defined.
#[local] Instance SyncMsg_eq_dec : EqDecision SyncMsg.
Proof. solve_decision. Defined.
Definition cases : list SyncMsg :=
  [MHello {| h_version := PROTOCOL_VERSION; h_name := "alpha"; h_peer_id := "12D34";
             h_pubkey := String.concat "" (repeat "00" 32); h_token := Some "s3cret"; h_accept := None |};
   MHelloAck {| ack_version := PROTOCOL_VERSION; ack_name := "beta";
                ack_docs := [{| ds_id := 1; ds_name := "note-1"; ds_clock := ∅ |}];
                ack_pubkey := Some (String.concat "" (repeat "ab" 32)) |};
   MHelloErr BadToken;
   MCatchUp {| cu_doc_id := 1; cu_have := ∅ |};
   MCatchUpAck {| ca_doc_id := 1; ca_state := None; ca_actions := []; ca_more := true |};
   MSummary []; MSummaryAck []].
Definition codec_round_trips_all_message_kinds : bool :=
  let text := texts cases in
  forallb (fun msg => expect (write_msg msg) (fun buf =>
    asserts [(u32_from_be (take 4 buf) + 4)%N ==? N.of_nat (length buf);
             expect (read_msg buf MAX_MSG_BYTES) (fun back => back.1 ==? msg)])) cases.
Definition oversized_length_is_rejected : bool :=
  let text := texts cases in
  is_err (read_msg (be_bytes 4 (MAX_MSG_BYTES + 1) ++ [x78]) MAX_MSG_BYTES).
End CodecTests.
Definition codec_tests : list (string * bool) :=
  [("codec_round_trips_all_message_kinds", CodecTests.codec_round_trips_all_message_kinds);
   ("oversized_length_is_rejected", CodecTests.oversized_length_is_rejected)].
Lemma codec_tests_pass : failing codec_tests = [].
Proof. vm_compute. reflexivity. Qed.

(** ** src/p2p/mod.rs *)

Module AuthTests.
Import SyncExample.
Definition nowhere : Multiaddr := addr_collect [].
Definition engine_with_token (t : option string) : SyncEngine :=
  engine_new (store_open empty_disk (sk 1) "me") "me" "test" nowhere None [] ∅ false t ∅.
Definition banned (g : SyncEngine) (peer : string) : bool := bool_decide (peer ∈ g_banned g).
(** Failures in a row at one instant: what each answers, and the engine after. *)
Fixpoint failures (g : SyncEngine) (n : nat) (peer : string) : SyncEngine * list (bool * bool) :=
  match n with
  | O => (g, [])
  | S n => let '(g, ban) := record_auth_failure g 1000 peer in
           let '(g', rest) := failures g n peer in (g', (ban, banned g peer) :: rest)
  end.
Definition auto_ban_after_auth_threshold : bool :=
  let '(e, below) := failures (engine_with_token (Some "secret")) (N.to_nat AUTH_BAN_AFTER - 1) "attacker" in
  let '(e, at_threshold) := record_auth_failure e 1000 "attacker" in
  let '(e', other) := record_auth_failure e 1000 "other" in
  asserts [forallb (fun r => negb r.1 && negb r.2) below; at_threshold; banned e "attacker"; negb other;
           negb (banned e' "other")].
End AuthTests.
Definition auth_tests : list (string * bool) :=
  [("auto_ban_after_auth_threshold", AuthTests.auto_ban_after_auth_threshold)].
Lemma auth_tests_pass : failing auth_tests = [].
Proof. vm_compute. reflexivity. Qed.

(** ** src/blob/mod.rs *)

Module BlobTests.
Definition a_blob_smaller_than_one_chunk_works : bool :=
  let data := as_bytes "small" in
  let '(s, r) := put sample_show ∅ data in
  expect r (fun r => asserts [length (br_chunks r) ==? 1; get sample_show s r ==? Ok data]).
Definition a_chunk_that_does_not_match_its_hash_is_refused : bool :=
  let honest := hash32_of (as_bytes "honest") in
  let '(s, r) := put_chunk sample_show ∅ honest (as_bytes "tampered") in
  asserts [match r with Err e => str_contains e "does not match its hash" | Ok _ => false end;
           negb (has_chunk s honest)].
Definition chunk_size_fits_the_transport_cap : bool :=
  let chunk := N.of_nat CHUNK_BYTES in asserts [(chunk <? MAX_MSG_BYTES)%N; (chunk * 4 <=? MAX_MSG_BYTES)%N].
End BlobTests.
Definition blob_tests : list (string * bool) :=
  [("a_blob_smaller_than_one_chunk_works", BlobTests.a_blob_smaller_than_one_chunk_works);
   ("a_chunk_that_does_not_match_its_hash_is_refused",
      BlobTests.a_chunk_that_does_not_match_its_hash_is_refused);
   ("chunk_size_fits_the_transport_cap", BlobTests.chunk_size_fits_the_transport_cap)].
Lemma blob_tests_pass : failing blob_tests = [].
Proof. vm_compute. reflexivity. Qed.
