(* ===== verification/TestPackage.v ===== *)
(** The tests of src/package, src/model/persist.rs and src/update.  The tests
    of bundles of several 256 KiB chunks are not here; [Blob] and
    [PackageProps] state them for every bundle. *)

From stdpp Require Import base gmap strings numbers pretty list.
From Stdlib Require Import Strings.Byte Strings.Ascii.
From S2P Require Import Prelude Json Doc Sample Action Model Builtins Entry Store StoreInv Text Invite Blob Fs.
From S2P Require Import Package PackageProps Update TestKit.
Open Scope test_scope.

(** A quiet file system, and whether a program on it succeeds. *)
Definition no_files : Fs := {| fs_files := ∅; fs_sched := [] |}.
Definition does {E A} (p : fsE E A) (fs : Fs) (check : A -> Fs -> bool) : bool :=
  match p fs with (fs, Ok x) => check x fs | (_, Err _) => false end.

(** ** src/package/mod.rs *)

Module ManifestTests.
(** A package that asks for nothing. *)
Definition bare_manifest (name version : string) (k : SigningKey) : Manifest :=
  {| mf_name := name; mf_version := version; mf_description := ""; mf_category := "";
     mf_publisher := {| pi_name := ""; pi_url := "" |}; mf_publisher_key := hex_encode (verifying_key k);
     mf_document_models := []; mf_processors := []; mf_bundle := None;
     mf_capabilities := {| cap_read := []; cap_write := [] |}; mf_projections := []; mf_attention := [];
     mf_ui := {| ui_nav := [] |}; mf_sig := "" |}.
Definition capabilities : Capabilities :=
  {| cap_read := ["rfp@1"]; cap_write := [{| wc_model := "proposal@1"; wc_kinds := ["init"; "withdraw"] |}] |}.
(** The manifest of the tests, with the parts they alter. *)
Definition manifest_with (name version : string) (publisher : string) (key : SigningKey) (models : list Value)
    (caps : Capabilities) (nav : list NavItem) (sig : string) : Manifest :=
  {| mf_name := name; mf_version := version; mf_description := "Marketplace for global coordination";
     mf_category := "Coordination"; mf_publisher := {| pi_name := publisher; pi_url := "https://powerhouse.inc/" |};
     mf_publisher_key := hex_encode (verifying_key key); mf_document_models := models; mf_processors := [];
     mf_bundle := None; mf_capabilities := caps; mf_projections := []; mf_attention := [];
     mf_ui := {| ui_nav := nav |}; mf_sig := sig |}.
Definition rfp : Value := json_obj ["name" ~> Str "rfp"; "version" ~> Str "1"].
Definition achra : string := "@powerhousedao/achra".
Definition package_manifest (k : SigningKey) : Manifest :=
  manifest_sign (manifest_with achra "1.0.0" "Powerhouse" k [rfp] capabilities [] "") k.
Definition signature : string := mf_sig (package_manifest (sk 1)).
Definition verifies (m : Manifest) : bool := is_ok (manifest_verify m).
Definition nav (label view : string) : NavItem := {| nav_label := label; nav_icon := ""; nav_view := view |}.
Definition accepts (l : list NavItem) : bool := is_ok (ui_validate {| ui_nav := l |}).

Definition a_signed_manifest_verifies : bool := verifies (package_manifest (sk 1)).
Definition tampering_with_any_field_breaks_the_signature : bool :=
  asserts [negb (verifies (manifest_with "evil" "1.0.0" "Powerhouse" (sk 1) [rfp] capabilities [] signature));
           negb (verifies (manifest_with achra "1.0.0" "Powerhouse" (sk 1) [rfp; json_obj ["name" ~> Str "backdoor"]]
                             capabilities [] signature));
           negb (verifies (manifest_with achra "1.0.0" "Powerhouse" (sk 1) [rfp]
                             {| cap_read := ["rfp@1"; "*"]; cap_write := cap_write capabilities |} [] signature));
           negb (verifies (manifest_with achra "9.9.9" "Powerhouse" (sk 1) [rfp] capabilities [] signature))].
Definition substituting_the_publisher_key_breaks_verification : bool :=
  negb (verifies (manifest_with achra "1.0.0" "Powerhouse" (sk 2) [rfp] capabilities [] signature)).
Definition anyone_can_produce_a_validly_signed_package : bool :=
  verifies (manifest_sign (manifest_with achra "1.0.0" "Powerhouse" (sk 9) [rfp] capabilities [] "") (sk 9)).
Definition an_unsigned_manifest_does_not_verify : bool := negb (verifies (set_sig (package_manifest (sk 1)) "")).
Definition manifest_message_bytes_exclude_the_signature : bool :=
  let m := package_manifest (sk 1) in manifest_bytes m ==? manifest_bytes (set_sig m "deadbeef").
Definition capability_checks_are_exact : bool :=
  let c := {| cap_read := ["rfp@1"]; cap_write := [{| wc_model := "proposal@1"; wc_kinds := ["init"] |}] |} in
  asserts [may_read c "rfp@1"; negb (may_read c "proposal@1"); negb (may_read c "rfp@2"); may_write c "proposal@1" "init";
           negb (may_write c "proposal@1" "accept"); negb (may_write c "rfp@1" "init")].
Definition capabilities_describe_themselves_in_plain_language : bool :=
  let lines := capabilities_describe capabilities in
  let none_asked := capabilities_describe {| cap_read := []; cap_write := [] |} in
  asserts [existsb (fun l => str_contains l "read documents") lines;
           existsb (fun l => str_contains l "init, withdraw") lines; length none_asked ==? 1;
           forallb (fun l => str_contains l "nothing") none_asked].
#[export] Instance PublisherInfo_eq_dec : EqDecision PublisherInfo.
Proof. solve_decision. Defined.
#[export] Instance WriteCapability_eq_dec : EqDecision WriteCapability.
Proof. solve_decision. Defined.
#[export] Instance Capabilities_eq_dec : EqDecision Capabilities.
Proof. solve_decision. Defined.
#[export] Instance Projection_eq_dec : EqDecision Projection.
Proof. solve_decision. Defined.
#[export] Instance Attention_eq_dec : EqDecision Attention.
Proof. solve_decision. Defined.
#[export] Instance NavItem_eq_dec : EqDecision NavItem.
Proof. solve_decision. Defined.
#[export] Instance PluginUi_eq_dec : EqDecision PluginUi.
Proof. solve_decision. Defined.
#[export] Instance BlobRef_eq_dec : EqDecision BlobRef.
Proof. solve_decision. Defined.
#[export] Instance Manifest_eq_dec : EqDecision Manifest.
Proof. solve_decision. Defined.
(** Written as text and read back. *)
Definition over_the_wire (m : Manifest) : result string Manifest :=
  let text := texts [m] in from_json (to_json m).
Definition a_manifest_survives_json_round_trip_and_still_verifies : bool :=
  let m := package_manifest (sk 1) in expect (over_the_wire m) (fun back => asserts [back ==? m; verifies back]).
Definition a_reasonable_sidebar_declaration_is_accepted : bool :=
  let ui := {| ui_nav := [{| nav_label := "Achra"; nav_icon := "◆"; nav_view := "" |};
                          {| nav_label := "My proposals"; nav_icon := "▤"; nav_view := "proposals" |}] |} in
  asserts [is_ok (ui_validate ui); ui_describe ui ==? Some "add 2 items to your sidebar: Achra, My proposals"].
Definition a_plugin_may_not_impersonate_the_consoles_own_navigation : bool :=
  forallb (fun name => negb (accepts [nav name ""]))
    ["Settings"; "settings"; "  Settings  "; "SETTINGS"; "Profile"; "Groups"; "Home"; "Plugins"; "Reactor"].
Definition with_byte (a : string) (n : N) (b : string) : string := a +:+ String (ascii_of_N n) b.
Definition a_sidebar_label_must_be_a_label : bool :=
  forallb (fun label => negb (accepts [nav label ""]))
    [""; "   "; with_byte "Se" 0 "ttings"; with_byte "two" 10 "lines";
     "an extremely long label that goes well past the limit"].
Definition one_plugin_cannot_fill_the_sidebar : bool :=
  let item n := nav ("Item " +:+ pretty n) "" in
  asserts [accepts (item <$> seq 0 MAX_NAV_ITEMS); negb (accepts (item <$> seq 0 (MAX_NAV_ITEMS + 1)))].
Definition duplicate_entries_are_refused : bool := negb (accepts [nav "Achra" ""; nav "achra" "x"]).
Definition a_view_name_is_a_plain_identifier : bool :=
  asserts [forallb (fun view => negb (accepts [nav "Achra" view]))
             ["../admin"; "a b"; "x<script>"; "'"; String.concat "" (repeat "v" 33)];
           forallb (fun view => accepts [nav "Achra" view]) [""; "proposals"; "my-work"; "tab_2"]].
Definition a_plugin_asking_for_no_sidebar_says_nothing : bool :=
  asserts [none (ui_describe {| ui_nav := [] |}); accepts []].
Definition tampering_with_the_sidebar_breaks_the_signature : bool :=
  negb (verifies (manifest_with achra "1.0.0" "Powerhouse" (sk 1) [rfp] capabilities
                    [{| nav_label := "Free Money"; nav_icon := "$"; nav_view := "" |}] signature)).
Definition keys (m : Manifest) : list string := (entries (json_obj (entries (manifest_json m)))).*1.
Definition an_empty_manifest_serializes_only_its_required_keys : bool :=
  keys (bare_manifest "x" "1" (sk 1)) ==?
    ["capabilities"; "category"; "description"; "documentModels"; "name"; "processors"; "publisher"; "publisher_key";
     "sig"; "version"].
Definition a_manifest_signed_before_a_field_existed_still_verifies : bool :=
  let older := package_manifest (sk 1) in
  asserts [none (vget (manifest_json older) "ui"); expect (over_the_wire older) verifies].
Definition with_projections (m : Manifest) (l : list Projection) : Manifest :=
  {| mf_name := mf_name m; mf_version := mf_version m; mf_description := mf_description m;
     mf_category := mf_category m; mf_publisher := mf_publisher m; mf_publisher_key := mf_publisher_key m;
     mf_document_models := mf_document_models m; mf_processors := mf_processors m; mf_bundle := mf_bundle m;
     mf_capabilities := mf_capabilities m; mf_projections := l; mf_attention := mf_attention m; mf_ui := mf_ui m;
     mf_sig := mf_sig m |}.
Definition adding_projections_did_not_invalidate_existing_signatures : bool :=
  let m := manifest_sign (bare_manifest "acme" "1.0.0" (sk 7)) (sk 7) in
  let with_ := with_projections m [{| pj_from := "milestone"; pj_on := "accept"; pj_to := "ledger-entry";
                                      pj_into := "commons"; pj_fields := ["amount"] |}] in
  asserts [verifies m; negb (str_contains (json_to_string (manifest_json m)) "projections"); negb (verifies with_);
           verifies (manifest_sign with_ (sk 7))].
Definition attention_is_skipped_when_empty_so_old_signatures_survive : bool :=
  let m := manifest_sign (bare_manifest "acme" "1.0.0" (sk 7)) (sk 7) in
  asserts [verifies m; negb (str_contains (json_to_string (manifest_json m)) "attention")].
Definition attention_rule (needs label : string) : Attention :=
  {| at_model := "proposal"; at_when := ["status" ~> Str "submitted"]; at_needs := needs; at_label := label |}.
Definition an_attention_rule_describes_itself : bool :=
  let d := attention_describe (attention_rule "approvers" "Proposal awaiting your review") in
  asserts [str_contains d "proposal"; str_contains d "status is submitted"; str_contains d "approvers"].
Definition a_rule_that_needs_nobody_is_refused : bool :=
  asserts [is_ok (attention_validate (attention_rule "approvers" "Proposal awaiting your review"));
           is_err (attention_validate (attention_rule "  " "Proposal awaiting your review"));
           is_err (attention_validate (attention_rule "approvers" ""))].
End ManifestTests.
Definition manifest_tests : list (string * bool) :=
  [("a_signed_manifest_verifies", ManifestTests.a_signed_manifest_verifies);
   ("tampering_with_any_field_breaks_the_signature",
      ManifestTests.tampering_with_any_field_breaks_the_signature);
   ("substituting_the_publisher_key_breaks_verification",
      ManifestTests.substituting_the_publisher_key_breaks_verification);
   ("anyone_can_produce_a_validly_signed_package",
      ManifestTests.anyone_can_produce_a_validly_signed_package);
   ("an_unsigned_manifest_does_not_verify", ManifestTests.an_unsigned_manifest_does_not_verify);
   ("manifest_message_bytes_exclude_the_signature",
      ManifestTests.manifest_message_bytes_exclude_the_signature);
   ("capability_checks_are_exact", ManifestTests.capability_checks_are_exact);
   ("capabilities_describe_themselves_in_plain_language",
      ManifestTests.capabilities_describe_themselves_in_plain_language);
   ("a_manifest_survives_json_round_trip_and_still_verifies",
      ManifestTests.a_manifest_survives_json_round_trip_and_still_verifies);
   ("a_reasonable_sidebar_declaration_is_accepted",
      ManifestTests.a_reasonable_sidebar_declaration_is_accepted);
   ("a_plugin_may_not_impersonate_the_consoles_own_navigation",
      ManifestTests.a_plugin_may_not_impersonate_the_consoles_own_navigation);
   ("a_sidebar_label_must_be_a_label", ManifestTests.a_sidebar_label_must_be_a_label);
   ("one_plugin_cannot_fill_the_sidebar", ManifestTests.one_plugin_cannot_fill_the_sidebar);
   ("duplicate_entries_are_refused", ManifestTests.duplicate_entries_are_refused);
   ("a_view_name_is_a_plain_identifier", ManifestTests.a_view_name_is_a_plain_identifier);
   ("a_plugin_asking_for_no_sidebar_says_nothing",
      ManifestTests.a_plugin_asking_for_no_sidebar_says_nothing);
   ("tampering_with_the_sidebar_breaks_the_signature",
      ManifestTests.tampering_with_the_sidebar_breaks_the_signature);
   ("an_empty_manifest_serializes_only_its_required_keys",
      ManifestTests.an_empty_manifest_serializes_only_its_required_keys);
   ("a_manifest_signed_before_a_field_existed_still_verifies",
      ManifestTests.a_manifest_signed_before_a_field_existed_still_verifies);
   ("adding_projections_did_not_invalidate_existing_signatures",
      ManifestTests.adding_projections_did_not_invalidate_existing_signatures);
   ("attention_is_skipped_when_empty_so_old_signatures_survive",
      ManifestTests.attention_is_skipped_when_empty_so_old_signatures_survive);
   ("an_attention_rule_describes_itself", ManifestTests.an_attention_rule_describes_itself);
   ("a_rule_that_needs_nobody_is_refused", ManifestTests.a_rule_that_needs_nobody_is_refused)].
Lemma manifest_tests_pass : failing manifest_tests = [].
Proof. vm_compute. reflexivity. Qed.

(** ** src/package/trust.rs *)

Module TrustTests.
#[local] Instance TrustedPublisher_eq_dec : EqDecision TrustedPublisher.
Proof. solve_decision. Defined.
Definition publishers : Path := ["publishers.json"].
Definition approve (key name : string) (t : TrustStore) : TrustStore := trust t "2026-01-01T00:00:00Z" key name.
Definition one : TrustStore := approve "aabb" "Powerhouse" ∅.
#[local] Instance trust_texts : Serde TrustStore := texts [one].

Definition nothing_is_trusted_by_default : bool :=
  does (trust_load ["absent.json"]) no_files (fun s _ => asserts [negb (is_trusted s "aabb"); trust_list s ==? []]).
Definition trust_round_trips_through_disk : bool :=
  does (_ ← trust_save one publishers; trust_load publishers) no_files (fun back _ =>
    asserts [is_trusted back "aabb"; tp_name <$> back !! "aabb" ==? Some "Powerhouse";
             tp_approved_at <$> back !! "aabb" <>? Some ""]).
Definition re_trusting_does_not_overwrite_the_approved_name : bool :=
  let s := approve "aabb" "Definitely Powerhouse" one in
  asserts [tp_name <$> s !! "aabb" ==? Some "Powerhouse"; length (trust_list s) ==? 1].
Definition revoke_removes_only_that_publisher : bool :=
  let '(s, removed) := revoke (approve "ccdd" "B" (approve "aabb" "A" ∅)) "aabb" in
  asserts [removed; negb (is_trusted s "aabb"); is_trusted s "ccdd"; negb (revoke s "aabb").2].
Definition a_corrupt_trust_file_trusts_nobody : bool :=
  does (_ ← fs_write publishers (as_bytes "{ this is not json"); trust_load publishers) no_files (fun s _ =>
    asserts [trust_list s ==? []; negb (is_trusted s "aabb")]).
Definition trust_is_keyed_by_the_key_not_the_name : bool := asserts [is_trusted one "aabb"; negb (is_trusted one "eeff")].
End TrustTests.
Definition trust_tests : list (string * bool) :=
  [("nothing_is_trusted_by_default", TrustTests.nothing_is_trusted_by_default);
   ("trust_round_trips_through_disk", TrustTests.trust_round_trips_through_disk);
   ("re_trusting_does_not_overwrite_the_approved_name",
      TrustTests.re_trusting_does_not_overwrite_the_approved_name);
   ("revoke_removes_only_that_publisher", TrustTests.revoke_removes_only_that_publisher);
   ("a_corrupt_trust_file_trusts_nobody", TrustTests.a_corrupt_trust_file_trusts_nobody);
   ("trust_is_keyed_by_the_key_not_the_name", TrustTests.trust_is_keyed_by_the_key_not_the_name)].
Lemma trust_tests_pass : failing trust_tests = [].
Proof. vm_compute. reflexivity. Qed.

(** ** src/model/persist.rs *)

Module PersistTests.
Definition models : Path := ["models.json"].
Definition def (name version field : string) : Value :=
  json_obj ["name" ~> Str name; "version" ~> Str version; "fields" ~> json_obj [field ~> Str "string"];
            "reducers" ~> json_obj ["init" ~> json_obj ["payload" ~> json_obj []; "writes" ~> json_obj []]]].
(** Two definitions saved one after the other, then the file read. *)
Definition saved (d1 d2 : Value) : fsM (list Value) :=
  _ ← persist_save models d1; _ ← persist_save models d2; load_all models.

Definition a_missing_file_is_empty_not_an_error : bool := does (load_all ["nope.json"]) no_files (fun l _ => l ==? []).
Definition definitions_round_trip : bool :=
  does (saved (def "rfp" "1" "title") (def "proposal" "1" "summary")) no_files (fun all _ =>
    let names := (fun v => at_path v ["name"]) <$> all in
    asserts [length all ==? 2; contains names (Str "rfp"); contains names (Str "proposal")]).
Definition re_registering_replaces_the_same_name_and_version : bool :=
  does (saved (def "rfp" "1" "old_field") (def "rfp" "1" "new_field")) no_files (fun all _ =>
    expect_some (head all) (fun d =>
      asserts [length all ==? 1; some (vget (at_path d ["fields"]) "new_field");
               none (vget (at_path d ["fields"]) "old_field")])).
Definition a_new_version_coexists_with_the_old : bool :=
  does (saved (def "rfp" "1" "a") (def "rfp" "2" "b")) no_files (fun all _ => length all ==? 2).
Definition an_unnamed_definition_is_refused : bool :=
  is_err (persist_save models (json_obj ["version" ~> Str "1"]) no_files).2.
End PersistTests.
Definition persist_tests : list (string * bool) :=
  [("a_missing_file_is_empty_not_an_error", PersistTests.a_missing_file_is_empty_not_an_error);
   ("definitions_round_trip", PersistTests.definitions_round_trip);
   ("re_registering_replaces_the_same_name_and_version",
      PersistTests.re_registering_replaces_the_same_name_and_version);
   ("a_new_version_coexists_with_the_old", PersistTests.a_new_version_coexists_with_the_old);
   ("an_unnamed_definition_is_refused", PersistTests.an_unnamed_definition_is_refused)].
Lemma persist_tests_pass : failing persist_tests = [].
Proof. vm_compute. reflexivity. Qed.

(** ** src/package/install.rs *)

Module InstallTests.
Import ManifestTests.
Definition ticket_model : Value :=
  json_obj ["name" ~> Str "ticket"; "version" ~> Str "1"; "fields" ~> json_obj ["title" ~> Str "string"];
            "reducers" ~> json_obj ["init" ~> json_obj [
              "payload" ~> json_obj ["name" ~> Str "string"; "title" ~> Str "string"];
              "writes" ~> json_obj ["__name__" ~> json_obj ["set" ~> Str "$payload.name"];
                                    "title" ~> json_obj ["set" ~> Str "$payload.title"]]]]].
Definition no_capabilities : Capabilities := {| cap_read := []; cap_write := [] |}.
Definition install_manifest (k : SigningKey) (version : string) (models : list Value) : Manifest :=
  manifest_sign (manifest_with achra version "Powerhouse" k models no_capabilities [] "") k.
Definition env : Inner := store_open empty_disk (sk 5) "origin".
Definition installed_file : Path := ["packages.json"].
Definition models_path : Path := ["models.json"].
Definition trusting (m : Manifest) : TrustStore :=
  trust ∅ "2026-01-01T00:00:00Z" (mf_publisher_key m) (pi_name (mf_publisher m)).
Definition v1 : Manifest := install_manifest (sk 1) "1.0.0" [ticket_model].
Definition v2 : Manifest := install_manifest (sk 1) "2.0.0" [ticket_model].
Definition at_noon : string := "2026-01-01T12:00:00Z".
Definition recorded (m : Manifest) : InstalledPackage := {| ip_manifest := m; ip_installed_at := at_noon |}.
#[local] Instance InstalledPackage_eq_dec : EqDecision InstalledPackage.
Proof. solve_decision. Defined.
#[local] Instance installed_texts : Serde Installed := texts [[recorded v1]; [recorded v2]].
Definition installs (m : Manifest) (s : Inner) (fs : Fs) : Inner * Fs * result InstallError InstalledPackage :=
  install m (trusting m) ∅ installed_file models_path at_noon s fs.

Definition an_untrusted_publisher_is_refused_even_with_a_valid_signature : bool :=
  asserts [verifies v1;
           match check v1 ∅ ∅ with
           | Err (UntrustedPublisher _ _ as e) => str_contains (install_error_text e) "not trusted"
           | _ => false
           end].
Definition described (m : Manifest) (description : string) : Manifest :=
  {| mf_name := mf_name m; mf_version := mf_version m; mf_description := description;
     mf_category := mf_category m; mf_publisher := mf_publisher m; mf_publisher_key := mf_publisher_key m;
     mf_document_models := mf_document_models m; mf_processors := mf_processors m; mf_bundle := mf_bundle m;
     mf_capabilities := mf_capabilities m; mf_projections := mf_projections m; mf_attention := mf_attention m;
     mf_ui := mf_ui m; mf_sig := mf_sig m |}.
Definition a_tampered_package_is_refused_before_trust_is_even_considered : bool :=
  match check (described v1 "now malicious") (trusting v1) ∅ with Err (Integrity _) => true | _ => false end.
Definition installing_registers_the_models_and_persists_them : bool :=
  let '(s, fs, r) := installs v1 env no_files in
  asserts [is_ok r;
           is_ok (create_doc_model 1000 1 "t-1" (modelref_new "ticket" "1")
                    (json_obj ["name" ~> Str "t-1"; "title" ~> Str "works"]) s).2;
           does (load_all models_path) fs (fun l _ => ((fun v => at_path v ["name"]) <$> l) ==? [Str "ticket"]);
           does (installed_load installed_file) fs (fun l _ =>
             asserts [(pkg_name <$> l) ==? [achra]; forallb (fun p => ip_installed_at p <>? "") l])].
Definition a_malformed_model_refuses_the_whole_package : bool :=
  let '(_, fs, r) := installs (install_manifest (sk 1) "1.0.0" [json_obj ["not" ~> Str "a model"]]) env no_files in
  asserts [match r with Err (Invalid _) => true | _ => false end;
           does (installed_load installed_file) fs (fun l _ => l ==? [])].
Definition reinstalling_a_newer_version_supersedes_the_old_one : bool :=
  let '(s, fs, r1) := installs v1 env no_files in
  let '(_, fs, r2) := installs v2 s fs in
  asserts [is_ok r1; is_ok r2;
           does (installed_load installed_file) fs (fun l _ =>
             asserts [length l ==? 1; ((fun p => mf_version (ip_manifest p)) <$> l) ==? ["2.0.0"]])].
End InstallTests.
Definition install_tests : list (string * bool) :=
  [("an_untrusted_publisher_is_refused_even_with_a_valid_signature",
      InstallTests.an_untrusted_publisher_is_refused_even_with_a_valid_signature);
   ("a_tampered_package_is_refused_before_trust_is_even_considered",
      InstallTests.a_tampered_package_is_refused_before_trust_is_even_considered);
   ("installing_registers_the_models_and_persists_them",
      InstallTests.installing_registers_the_models_and_persists_them);
   ("a_malformed_model_refuses_the_whole_package", InstallTests.a_malformed_model_refuses_the_whole_package);
   ("reinstalling_a_newer_version_supersedes_the_old_one",
      InstallTests.reinstalling_a_newer_version_supersedes_the_old_one)].
Lemma install_tests_pass : failing install_tests = [].
Proof. vm_compute. reflexivity. Qed.

(** ** src/update/mod.rs *)

Module ReleaseTests.
Definition binary (text : string) : BlobRef :=
  {| br_hash := hash32_of (as_bytes text); br_size := 8; br_chunks := [hash32_of (as_bytes "a binary")] |}.
Definition release_of_version (version : string) (b : BlobRef) (k : SigningKey) (sig : string) : Release :=
  {| rl_version := version; rl_platform := "x86_64-unknown-linux-musl"; rl_notes := "plugin packages"; rl_binary := b;
     rl_publisher_key := hex_encode (verifying_key k); rl_sig := sig |}.
Definition signed_release (k : SigningKey) (version : string) : Release :=
  release_sign (release_of_version version (binary "a binary") k "") k.
Definition signed_sig : string := rl_sig (signed_release (sk 1) "1.9.0").

Definition a_signed_release_verifies : bool := is_ok (release_verify (signed_release (sk 1) "1.9.0")).
Definition swapping_the_binary_breaks_the_signature : bool :=
  is_err (release_verify (release_of_version "1.9.0" (binary "a different binary") (sk 1) signed_sig)).
Definition tampering_with_the_version_breaks_the_signature : bool :=
  is_err (release_verify (release_of_version "99.0.0" (binary "a binary") (sk 1) signed_sig)).
Definition version_ordering_is_numeric_not_lexical : bool :=
  asserts [compare "1.10.0" "1.9.0" ==? Some Gt; compare "1.9.0" "1.10.0" ==? Some Lt;
           compare "2.0.0" "1.99.99" ==? Some Gt; compare "1.8.0" "1.8.0" ==? Some Eq;
           compare "1.8" "1.8.0" ==? Some Eq; compare "1.8.1" "1.8" ==? Some Gt; compare "v1.9.0" "1.8.0" ==? Some Gt].
Definition an_unparseable_version_is_not_comparable : bool :=
  forallb (fun bad => asserts [none (compare bad "1.8.0"); none (compare "1.8.0" bad)])
    [""; "nightly"; "1.8.0-rc1"; "1.8.0+build7"; "1.x.0"; "  "].
Definition a_release_must_be_strictly_newer : bool :=
  let r := signed_release (sk 1) "1.8.0" in
  asserts [negb (is_newer_than r "1.8.0"); negb (is_newer_than r "1.9.0"); is_newer_than r "1.7.0"].
Definition an_unknown_current_version_blocks_the_upgrade : bool :=
  negb (is_newer_than (signed_release (sk 1) "1.9.0") "some-dev-build").
Definition a_release_for_another_platform_is_refused : bool :=
  let r := signed_release (sk 1) "1.9.0" in
  asserts [runs_on r "x86_64-unknown-linux-musl"; negb (runs_on r "aarch64-apple-darwin"); negb (runs_on r "")].
Definition release_message_bytes_exclude_the_signature : bool :=
  let r := signed_release (sk 1) "1.9.0" in release_bytes r ==? release_bytes (set_rl_sig r "deadbeef").
End ReleaseTests.
Definition release_tests : list (string * bool) :=
  [("a_signed_release_verifies", ReleaseTests.a_signed_release_verifies);
   ("swapping_the_binary_breaks_the_signature", ReleaseTests.swapping_the_binary_breaks_the_signature);
   ("tampering_with_the_version_breaks_the_signature",
      ReleaseTests.tampering_with_the_version_breaks_the_signature);
   ("version_ordering_is_numeric_not_lexical", ReleaseTests.version_ordering_is_numeric_not_lexical);
   ("an_unparseable_version_is_not_comparable", ReleaseTests.an_unparseable_version_is_not_comparable);
   ("a_release_must_be_strictly_newer", ReleaseTests.a_release_must_be_strictly_newer);
   ("an_unknown_current_version_blocks_the_upgrade",
      ReleaseTests.an_unknown_current_version_blocks_the_upgrade);
   ("a_release_for_another_platform_is_refused", ReleaseTests.a_release_for_another_platform_is_refused);
   ("release_message_bytes_exclude_the_signature", ReleaseTests.release_message_bytes_exclude_the_signature)].
Lemma release_tests_pass : failing release_tests = [].
Proof. vm_compute. reflexivity. Qed.

(** ** src/update/apply.rs *)

Module ApplyTests.
Definition here : string := "x86_64-unknown-linux-gnu".
Definition exe : Path := ["bin"; "ph-reactor"].
Definition state : Path := ["state"].
(** A release of a binary that is in the chunk store. *)
Definition release_for (bytes version platform : string) : Release :=
  release_sign {| rl_version := version; rl_platform := platform; rl_notes := ""; rl_binary := blobref_of (as_bytes bytes);
                  rl_publisher_key := hex_encode (verifying_key (sk 5)); rl_sig := "" |} (sk 5).
Definition stored (bytes : string) : gmap N (list byte) := (put sample_show ∅ (as_bytes bytes)).1.
(** The binary that runs; the operating system refuses the first call when its
    directory may not be written. *)
Definition installed (old : string) (sched : list Outcome) : Fs :=
  {| fs_files := {[exe := as_bytes old]}; fs_sched := sched |}.
Definition applies (r : Release) (blobs : gmap N (list byte)) (current : string) : fsE ApplyError Path :=
  apply sample_show here r blobs exe state current.
(** The text of a marker, read back; a path's text is its components. *)
Definition parse_marker (bodies : list Value) (raw : list byte) : option Value :=
  List.find (fun v => as_bytes (json_to_string v) ==? raw) bodies.
Definition path_from (s : string) : Path := split_char "/" s.
Definition replacement (bodies : list Value) (current : string) (fs : Fs) : option (Path * string) :=
  staged_replacement (parse_marker bodies) path_from state current fs.
Definition new_release : Release := release_for "the new binary" "9.9.9" here.
Definition new_blobs : gmap N (list byte) := stored "the new binary".
Definition content (fs : Fs) (p : Path) (text : string) : bool := fs_files fs !! p ==? Some (as_bytes text).
Definition staged_target : Path := ["state"; "bin"; "ph-reactor"].

Definition staging_outside_the_running_path_records_what_to_run_next : bool :=
  does (applies new_release new_blobs "1.0.0") (installed "the image binary" [Refused]) (fun target fs =>
    let bodies := [marker_body new_release target] in
    asserts [replacement bodies "1.0.0" fs ==? Some (target, "9.9.9"); none (replacement bodies "9.9.9" fs)]).
Definition replacing_in_place_records_no_marker : bool :=
  does (applies new_release new_blobs "1.0.0") (installed "old" []) (fun target fs =>
    none (replacement [marker_body new_release target] "1.0.0" fs)).
Definition broken_markers : list Value :=
  [json_obj []; json_obj ["version" ~> Str "9.9.9"];
   json_obj ["version" ~> Str "9.9.9"; "path" ~> Str "/nonexistent/ph-reactor"];
   json_obj ["version" ~> Str "nightly"; "path" ~> Str "bin/ph-reactor"]].
Definition a_broken_marker_is_ignored_rather_than_fatal : bool :=
  let marker := ["state"; "bin"; STAGED_MARKER] in
  forallb (fun body => none (replacement broken_markers "1.0.0"
      {| fs_files := {[marker := as_bytes body; exe := as_bytes "sh"]}; fs_sched := [] |}))
    ("not json" :: (json_to_string <$> broken_markers)).
(** Permission bits are not part of the files of the model. *)
Definition applying_installs_the_binary_and_keeps_the_old_one : bool :=
  does (applies new_release new_blobs "1.0.0") (installed "the old binary" []) (fun target fs =>
    asserts [target ==? exe; content fs exe "the new binary"; content fs ["bin"; "ph-reactor.previous"] "the old binary"]).
Definition rollback_restores_the_previous_binary : bool :=
  does (applies new_release new_blobs "1.0.0") (installed "the old binary" []) (fun _ fs =>
    does (rollback exe) fs (fun _ fs => content fs exe "the old binary")).
(** A refusal, with the binary as it was. *)
Definition refused_as (r : Release) (blobs : gmap N (list byte)) (current : string) (why : ApplyError -> bool) : bool :=
  match applies r blobs current (installed "the old binary" []) with
  | (fs, Err e) => asserts [why e; content fs exe "the old binary"]
  | _ => false
  end.
Definition a_release_for_another_platform_is_never_installed : bool :=
  refused_as (release_for "a darwin binary" "9.9.9" "aarch64-apple-darwin") (stored "a darwin binary") "1.0.0"
    (fun e => match e with WrongPlatform _ _ => true | _ => false end).
Definition an_older_release_is_refused : bool :=
  refused_as (release_for "an older binary" "0.1.0" here) (stored "an older binary") "1.8.0"
    (fun e => match e with NotNewer _ _ => true | _ => false end).
Definition an_incomplete_binary_is_refused : bool :=
  refused_as new_release ∅ "1.0.0" (fun e => match e with Incomplete n => 0 <? n | _ => false end).
Definition a_read_only_binary_directory_stages_into_the_state_dir : bool :=
  does (applies new_release new_blobs "1.0.0") (installed "the image binary" [Refused]) (fun target fs =>
    asserts [target ==? staged_target; target <>? exe; content fs target "the new binary";
             content fs exe "the image binary"]).
End ApplyTests.
Definition apply_tests : list (string * bool) :=
  [("staging_outside_the_running_path_records_what_to_run_next",
      ApplyTests.staging_outside_the_running_path_records_what_to_run_next);
   ("replacing_in_place_records_no_marker", ApplyTests.replacing_in_place_records_no_marker);
   ("a_broken_marker_is_ignored_rather_than_fatal", ApplyTests.a_broken_marker_is_ignored_rather_than_fatal);
   ("applying_installs_the_binary_and_keeps_the_old_one",
      ApplyTests.applying_installs_the_binary_and_keeps_the_old_one);
   ("rollback_restores_the_previous_binary", ApplyTests.rollback_restores_the_previous_binary);
   ("a_release_for_another_platform_is_never_installed",
      ApplyTests.a_release_for_another_platform_is_never_installed);
   ("an_older_release_is_refused", ApplyTests.an_older_release_is_refused);
   ("an_incomplete_binary_is_refused", ApplyTests.an_incomplete_binary_is_refused);
   ("a_read_only_binary_directory_stages_into_the_state_dir",
      ApplyTests.a_read_only_binary_directory_stages_into_the_state_dir)].
Lemma apply_tests_pass : failing apply_tests = [].
Proof. vm_compute. reflexivity. Qed.
