(* ===== verification/TestViews.v ===== *)
(** The tests of the processors, projections and queries of the reactor, of the
    views crate, and of the status, paths and log files. *)

From stdpp Require Import base gmap strings numbers pretty list.
From Stdlib Require Import Strings.Byte Strings.Ascii.
From S2P Require Import Prelude Json Doc Sample Action Model Builtins Entry Store StoreInv Text Invite Fs.
From S2P Require Import ReadModel Relations Package Processor Runner Engine Config Logs Status Api TestKit TestPackage.
Open Scope test_scope.

(** A change of a document, as the feed carries it. *)
Definition change_with (model : string) (fields : gmap string Field) (kind field : option string) (value : option Value) :
    DocChange :=
  {| dc_doc_id := 7; dc_name := "d"; dc_model := modelref_new model "1"; dc_deleted := false;
     dc_state := {| ds_doc := {| doc_id := 7; doc_name := "d"; doc_fields := fields |}; ds_clock := ∅;
                    ds_deleted := false; ds_log_hash := None; ds_model := modelref_new model "1"; ds_space := None |};
     dc_ts := 1; dc_action_kind := kind; dc_action_field := field; dc_action_value := value |}.

(** ** src/processor.rs *)

Module ProcessorTests.
Definition processor_change (kind field value : option string) (model : string) : DocChange :=
  change_with model ∅ kind field (Str <$> value).
Definition any : ActionFilter := {| af_models := []; af_action_kind := None; af_field := None; af_value := None |}.
Definition filter_matches_by_model_and_delta : bool :=
  let invoice := {| af_models := ["invoice"]; af_action_kind := None; af_field := None; af_value := None |} in
  let set := {| af_models := []; af_action_kind := Some "set"; af_field := None; af_value := None |} in
  let accepted := {| af_models := ["invoice"]; af_action_kind := None; af_field := Some "status";
                     af_value := Some (Str "accepted") |} in
  asserts [matches any (processor_change (Some "set") (Some "status") (Some "accepted") "invoice");
           matches invoice (processor_change (Some "set") None None "invoice");
           negb (matches invoice (processor_change (Some "set") None None "task"));
           matches set (processor_change (Some "set") None None "invoice");
           negb (matches set (processor_change (Some "delete") None None "invoice"));
           matches accepted (processor_change (Some "set") (Some "status") (Some "accepted") "invoice");
           negb (matches accepted (processor_change (Some "set") (Some "status") (Some "sent") "invoice"));
           negb (matches accepted (processor_change (Some "set") (Some "customer") (Some "acme") "invoice"))].
#[local] Instance Reaction_eq_dec : EqDecision Reaction.
Proof. solve_decision. Defined.
#[local] Instance ProcessorSpec_eq_dec : EqDecision ProcessorSpec.
Proof. solve_decision. Defined.
Definition on_accepted : ProcessorSpec :=
  {| ps_name := "on-accepted"; ps_models := []; ps_action_kind := None; ps_field := Some "status";
     ps_value := Some (Str "accepted"); ps_reaction := Emit "accepted $doc"; ps_created := 1 |}.
#[local] Instance specs_texts : Serde (list ProcessorSpec) := texts [[on_accepted]].
Definition processors : Path := ["processors.json"].
(** The store as the test writes it while the runner listens, then a turn of
    the runner for every change. *)
Definition with_store (r : Runner) {A} (p : storeM A) : Runner :=
  {| ru_store := (p (ru_store r)).1; ru_sub := ru_sub r; ru_path := ru_path r; ru_specs := ru_specs r;
     ru_history := ru_history r; ru_fs := ru_fs r; ru_turn := ru_turn r |}.
Definition processor_fires_on_matching_change : bool :=
  let fs := (save_specs processors [on_accepted] no_files).1 in
  let r := runner_new (fun b => b ==? []) (store_open empty_disk (sk 7) "test-origin") processors fs in
  let r := with_store r (_ ← create_doc (fun _ => 1000%N) 1 "inv" ∅; update_field 1001 "inv" "status" (Str "accepted")) in
  let r := runner_run (fun _ _ _ => TimedOut) (fun _ _ => 2000%N) (fun _ _ => 99%N) r [FeedReady; FeedReady; FeedReady] in
  let fires := handle_fires (ru_history r) "on-accepted" in
  asserts [(fi_doc <$> fires) ==? ["inv"]; (fi_detail <$> fires) ==? ["accepted inv"]].
End ProcessorTests.
Definition processor_tests : list (string * bool) :=
  [("filter_matches_by_model_and_delta", ProcessorTests.filter_matches_by_model_and_delta);
   ("processor_fires_on_matching_change", ProcessorTests.processor_fires_on_matching_change)].
Lemma processor_tests_pass : failing processor_tests = [].
Proof. vm_compute. reflexivity. Qed.

(** ** src/projection.rs *)

Module ProjectionTests.
Definition proj (fields : list string) : Projection :=
  {| pj_from := "milestone"; pj_on := "accept"; pj_to := "ledger-entry"; pj_into := "commons"; pj_fields := fields |}.
Definition named : Projection := proj ["amount"; "org"].
Definition milestone_change (model kind : string) : DocChange :=
  change_with model
    (seed_field <$> list_to_map ["amount" ~> Number 500; "org" ~> Str "Powerhouse";
                                 "evidence" ~> Str "bank statement, invoice #7"]) (Some kind) None None.
Definition both_the_model_and_the_reducer_must_match : bool :=
  asserts [projection_matches named (milestone_change "milestone" "accept");
           negb (projection_matches named (milestone_change "milestone" "reject"));
           negb (projection_matches named (milestone_change "invoice" "accept"))].
Definition only_the_named_fields_cross_the_boundary : bool :=
  let body := projection_payload named (milestone_change "milestone" "accept") "m1-ledger-entry" in
  asserts [at_path body ["amount"] ==? Number 500; at_path body ["org"] ==? Str "Powerhouse"; none (vget body "evidence")].
Definition a_missing_field_is_omitted_rather_than_published_as_null : bool :=
  none (vget (projection_payload (proj ["amount"; "org"; "nonexistent"]) (milestone_change "milestone" "accept") "x")
          "nonexistent").
Definition the_target_name_is_derived_so_publishing_twice_is_refused : bool :=
  target_name named "m1" ==? "m1-ledger-entry".
Definition the_prompt_says_what_will_be_published_where : bool :=
  let d := projection_describe named in
  asserts [str_contains d "amount, org"; str_contains d "commons"; str_contains d "accept"].
Definition a_projection_that_publishes_nothing_is_refused : bool :=
  asserts [is_err (projection_validate (proj [])); is_ok (projection_validate named)].
End ProjectionTests.
Definition projection_tests : list (string * bool) :=
  [("both_the_model_and_the_reducer_must_match", ProjectionTests.both_the_model_and_the_reducer_must_match);
   ("only_the_named_fields_cross_the_boundary", ProjectionTests.only_the_named_fields_cross_the_boundary);
   ("a_missing_field_is_omitted_rather_than_published_as_null",
      ProjectionTests.a_missing_field_is_omitted_rather_than_published_as_null);
   ("the_target_name_is_derived_so_publishing_twice_is_refused",
      ProjectionTests.the_target_name_is_derived_so_publishing_twice_is_refused);
   ("the_prompt_says_what_will_be_published_where",
      ProjectionTests.the_prompt_says_what_will_be_published_where);
   ("a_projection_that_publishes_nothing_is_refused",
      ProjectionTests.a_projection_that_publishes_nothing_is_refused)].
Lemma projection_tests_pass : failing projection_tests = [].
Proof. vm_compute. reflexivity. Qed.

(** ** src/query.rs *)

Module QueryTests.
Definition filled : Inner :=
  ((_ ← create_doc (fun _ => 1000%N) 1 "t1" (list_to_map ["status" ~> Str "todo"; "n" ~> Number 42]);
    create_doc (fun _ => 1000%N) 2 "t2" (list_to_map ["status" ~> Str "doing"]))
     (store_open empty_disk (sk 9) "test-origin")).1.
Definition rows (field : string) (v : Value) : list Value :=
  query_docs filled "" (Some {| ff_field := field; ff_value := v |}).
Definition row_names (l : list Value) : list Value := (fun r => at_path r ["name"]) <$> l.
Definition selects_by_model_and_filters_by_field : bool :=
  asserts [length (query_docs filled "open" None) ==? 2; length (query_docs filled "" None) ==? 2;
           query_docs filled "task" None ==? []; row_names (rows "status" (Str "doing")) ==? [Str "t2"];
           row_names (rows "n" (Number 42)) ==? [Str "t1"]; rows "n" (Str "42") ==? [];
           rows "missing" (Number 1) ==? []].
(** [serde_json::from_str] on the words of the test. *)
Definition word_value (s : string) : option Value :=
  if s ==? "42" then Some (Number 42) else if s ==? "true" then Some (Bool true) else None.
Definition filter_parsing_treats_json_as_values : bool :=
  let value spec := ff_value <$> parse_filter word_value spec in
  asserts [value "n=42" ==? Some (Number 42); value "status=todo" ==? Some (Str "todo");
           value "ok=true" ==? Some (Bool true); none (parse_filter word_value "noequalsign")].
End QueryTests.
Definition query_tests : list (string * bool) :=
  [("selects_by_model_and_filters_by_field", QueryTests.selects_by_model_and_filters_by_field);
   ("filter_parsing_treats_json_as_values", QueryTests.filter_parsing_treats_json_as_values)].
Lemma query_tests_pass : failing query_tests = [].
Proof. vm_compute. reflexivity. Qed.

(** ** views/src/document_view.rs *)

Module ViewTests.
Definition view_snap (id : DocId) (name model field value : string) : DocSnapshot :=
  {| sn_doc_id := id; sn_name := name; sn_model := modelref_new model "1"; sn_fields := {[field := Str value]};
     sn_deleted := false; sn_ts := 1 |}.
Definition todo : DocSnapshot := view_snap 1 "a" "task" "status" "todo".
#[local] Instance views_texts : Serde (list DocSnapshot) := texts [[todo]].
Definition find_filters_by_model_and_field : bool :=
  let v := foldl view_apply (view_new None)
    [todo; view_snap 2 "b" "task" "status" "done"; view_snap 3 "c" "project" "status" "active"] in
  asserts [count v "task" ==? 2; count v "project" ==? 1; count v "" ==? 3;
           (ReadModel.sn_name <$> ReadModel.find v "task" (Some {| df_field := "status"; df_value := Str "todo" |})) ==? ["a"]].
Definition delete_removes_from_index : bool :=
  let a deleted := {| sn_doc_id := 1; sn_name := "a"; sn_model := modelref_new "task" "1"; sn_fields := ∅;
                      sn_deleted := deleted; sn_ts := 1 |} in
  let v := view_apply (view_new None) (a false) in
  let v' := view_apply v (a true) in
  asserts [count v "task" ==? 1; count v' "task" ==? 0; negb (view_exists v' "a")].
Definition save_and_roundtrip : bool :=
  let path : Path := ["view.json"] in
  does (view_save (view_apply (view_new (Some path)) todo)) no_files (fun _ fs =>
    does (view_load (view_new (Some path))) fs (fun r _ =>
      asserts [r.2; (fun s => mr_name (ReadModel.sn_model s)) <$> view_get r.1 "a" ==? Some "task"])).
End ViewTests.
Definition view_tests : list (string * bool) :=
  [("find_filters_by_model_and_field", ViewTests.find_filters_by_model_and_field);
   ("delete_removes_from_index", ViewTests.delete_removes_from_index);
   ("save_and_roundtrip", ViewTests.save_and_roundtrip)].
Lemma view_tests_pass : failing view_tests = [].
Proof. vm_compute. reflexivity. Qed.

(** ** views/src/relationship.rs *)

Module RelationTests.
Import ViewTests.
Definition decls : gmap (string * string) string := {[("task", "project") := "project"]}.
Definition task_to_project_edges : bool :=
  let ix := foldl index_apply (index_new decls None)
    [view_snap 1 "p" "project" "status" "active"; view_snap 2 "t1" "task" "project" "p";
     view_snap 3 "t2" "task" "project" "p"] in
  asserts [outgoing ix "t1" "project" ==? ["p"]; incoming ix "p" "project" ==? ["t1"; "t2"];
           ancestors ix "p" ==? Some ["t1"; "t2"]].
Definition path_follows_the_graph : bool :=
  let ix := foldl index_apply (index_new (<[("project", "owner") := "account"]> decls) None)
    [view_snap 1 "acc" "account" "currency" "USD"; view_snap 2 "p" "project" "owner" "acc";
     view_snap 3 "t" "task" "project" "p"] in
  find_path ix "t" "acc" ==? Some [["t"; "p"; "acc"]].
End RelationTests.
Definition relation_tests : list (string * bool) :=
  [("task_to_project_edges", RelationTests.task_to_project_edges);
   ("path_follows_the_graph", RelationTests.path_follows_the_graph)].
Lemma relation_tests_pass : failing relation_tests = [].
Proof. vm_compute. reflexivity. Qed.
