(* ===== verification/TestApp.v ===== *)
(** The tests of the status document, the state directory, the log files, the
    drive records, the configuration and the daemon. *)

From stdpp Require Import base gmap strings numbers pretty list.
From Stdlib Require Import Strings.Byte Strings.Ascii.
From S2P Require Import Prelude Json Doc Sample Action Model Builtins Entry Store StoreInv Text Invite Fs.
From S2P Require Import Package Update Engine Config ConfigProps Logs Status Daemon Api TestKit TestPackage.
Import ConfigSample.
Open Scope test_scope.

(** The multiaddr texts of the tests: pairs of a protocol and its argument, and
    protocols that have none. *)
Fixpoint addr_words (l : list string) : result string (list Protocol) :=
  match l with
  | [] => Ok []
  | "tls" :: rest => ps ← addr_words rest; Ok (OtherProto "/tls" :: ps)
  | "ws" :: rest => ps ← addr_words rest; Ok (OtherProto "/ws" :: ps)
  | k :: v :: rest =>
      p ← (if k ==? "ip4" then Ok (Ip4 v) else if k ==? "ip6" then Ok (Ip6 v) else if k ==? "p2p" then Ok (P2p v)
           else if k ==? "dns4" then Ok (OtherProto ("/dns4/" +:+ v))
           else if k ==? "tcp" then port ← ok_or (parse_u64 v) "invalid port"; Ok (Tcp port)
           else Err "unknown protocol");
      ps ← addr_words rest;
      Ok (p :: ps)
  | _ => Err "invalid multiaddr"
  end.
#[export] Instance words_net : Net := {|
  Multiaddr := list Protocol;
  addr_iter := fun a => a;
  addr_collect := fun l => l;
  addr_parse := fun s => match split_char "/" s with "" :: words => addr_words words | _ => Err "invalid multiaddr" end
|}.

(** ** src/status.rs *)

Module StatusTests.
Definition sample_status : StatusSnapshot :=
  {| sn_version := "1.0.0";
     sn_reactor := {| rs_running := true; rs_healthy := true; rs_peer_id := Some "12D3KooWg8111";
                      rs_listen := "/ip4/0.0.0.0/tcp/4201"; rs_docs := 3; rs_last_event := Some "op applied: note-1";
                      rs_active_drives := 1; rs_last_doc := Some "note-1" |};
     sn_drives := [{| ds_name := "vault"; ds_addr := "/ip4/10.0.0.2/tcp/4201/p2p/12D3KooWg8111"; ds_paused := false;
                      ds_status := "synced"; ds_detail := "" |}];
     sn_bans := []; sn_settings := {| ss_url := "http://127.0.0.1:4002" |}; sn_groups := [];
     sn_updated_at := "2026-09-12T00:00:00Z" |}.
Definition has_keys (v : Value) (keys : list string) : bool := forallb (fun k => some (vget v k)) keys.
Definition first_drive (v : Value) : Value := default Null (head (items (at_path v ["drives"]))).
Definition drive_keys : list string := ["name"; "addr"; "paused"; "status"; "detail"].
Definition top_keys : list string := ["version"; "reactor"; "drives"; "settings"; "updated_at"].
Definition snapshot_json_shape : bool :=
  let v := status_json sample_status in
  asserts [has_keys v top_keys;
           has_keys (at_path v ["reactor"])
             ["running"; "healthy"; "peer_id"; "listen"; "docs"; "last_event"; "active_drives"; "last_doc"];
           at_path v ["reactor"; "running"] ==? Bool true; at_path v ["reactor"; "docs"] ==? Number 3;
           has_keys (first_drive v) drive_keys; at_path (first_drive v) ["status"] ==? Str "synced"].
Definition rfc3339_is_correct_for_known_instants : bool :=
  asserts [rfc3339 0 ==? "1970-01-01T00:00:00Z"; rfc3339 1609459200 ==? "2021-01-01T00:00:00Z";
           rfc3339 1789346096 ==? "2026-09-14T00:34:56Z"].
Definition render_text_lists_drives_and_state : bool :=
  let text := render_text sample_status in
  asserts [str_contains text "healthy"; str_contains text "vault  [synced]";
           str_contains text "/ip4/10.0.0.2/tcp/4201/p2p/12D3KooWg8111"].
End StatusTests.
Definition status_tests : list (string * bool) :=
  [("snapshot_json_shape", StatusTests.snapshot_json_shape);
   ("rfc3339_is_correct_for_known_instants", StatusTests.rfc3339_is_correct_for_known_instants);
   ("render_text_lists_drives_and_state", StatusTests.render_text_lists_drives_and_state)].
Lemma status_tests_pass : failing status_tests = [].
Proof. vm_compute. reflexivity. Qed.

(** ** src/paths.rs, src/logrotate.rs, src/drives.rs *)

Module FileTests.
Definition layout_under_root : bool :=
  let paths := for_root ["srv"; "state"] in
  asserts [config_file paths ==? ["srv"; "state"; "config.json"]; docs_dir paths ==? ["srv"; "state"; "docs"];
           logs_dir paths ==? ["srv"; "state"; "logs"]; run_dir paths ==? ["srv"; "state"; "run"];
           reactor_log paths ==? ["srv"; "state"; "logs"; "reactor.log"]; key_file paths ==? ["srv"; "state"; "key"]].
Definition log : Path := ["app.log"].
Definition lines (l : list string) : list byte := as_bytes (String.concat "" ((fun s => s +:+ newline) <$> l)).
Definition small_writes_do_not_rotate : bool :=
  does (_ ← append_line log (as_bytes "hello"); _ ← append_line log (as_bytes "world"); tail log None) no_files
    (fun text fs => asserts [text ==? lines ["hello"; "world"]; none (fs_files fs !! gen log 1)]).
Definition tail_respects_max_bytes : bool :=
  does (_ ← append_line log (as_bytes "abcdefghij"); x ← tail log (Some 3%N); y ← tail log (Some 1000%N); mret (x, y))
    no_files (fun t _ => asserts [t.1 ==? lines ["ij"]; t.2 ==? lines ["abcdefghij"]]).

Definition drive_at (addr : string) (check : Drive -> bool) : bool :=
  expect (addr_parse addr) (fun a =>
    check {| d_name := "vault"; d_addr := a; d_token_env := Some "VAULT_TOKEN"; d_paused := false;
             d_available_offline := true |}).
Definition peer_id_only_when_present : bool :=
  asserts [drive_at "/ip4/127.0.0.1/tcp/4201/p2p/12D3KooWtest" (fun d => some (drive_peer_id d));
           drive_at "/ip4/127.0.0.1/tcp/4201" (fun d => none (drive_peer_id d))].
Definition status_vocabulary_round_trips : bool :=
  asserts [forallb (fun s => status_str <$> status_parse s ==? Some s)
             ["synced"; "connecting"; "paused"; "offline"; "requires-auth"; "error"];
           none (status_parse "bogus")].
End FileTests.
Definition file_tests : list (string * bool) :=
  [("layout_under_root", FileTests.layout_under_root);
   ("small_writes_do_not_rotate", FileTests.small_writes_do_not_rotate);
   ("tail_respects_max_bytes", FileTests.tail_respects_max_bytes);
   ("peer_id_only_when_present", FileTests.peer_id_only_when_present);
   ("status_vocabulary_round_trips", FileTests.status_vocabulary_round_trips)].
Lemma file_tests_pass : failing file_tests = [].
Proof. vm_compute. reflexivity. Qed.

(** ** src/config.rs *)

Module ConfigTests.
Definition paths : StatePaths := for_root ["state"].
Definition loaded_fresh (fs : Fs) (check : ReactorConfig -> Fs -> bool) : bool :=
  does (load_quiet paths 7) fs (fun r fs => r.2 && check r.1 fs).
Definition load_creates_defaults_when_missing : bool :=
  loaded_fresh no_files (fun config fs =>
    asserts [c_version config ==? CONFIG_VERSION; in_listen (c_instance config) ==? DEFAULT_LISTEN;
             some (fs_files fs !! config_file paths)]).
(** The text of the new file is read back for its version. *)
Definition load_quarantines_corrupt_file : bool :=
  loaded_fresh {| fs_files := {[config_file paths := as_bytes "{ not json"]}; fs_sched := [] |} (fun config fs =>
    asserts [c_version config ==? CONFIG_VERSION;
             expect_some (fs_files fs !! config_file paths) (fun raw =>
               expect (json_parse raw) (fun v => at_path v ["schemaVersion"] ==? Number 2))]).
Definition with_extra (c : ReactorConfig) (k : string) (v : Value) : ReactorConfig :=
  {| c_version := c_version c; c_instance := c_instance c; c_p2p := c_p2p c; c_drives := c_drives c;
     c_settings := c_settings c; c_llm := c_llm c; c_update := c_update c; c_log_level := c_log_level c;
     c_extra := <[k := v]> (c_extra c) |}.
Definition unknown_fields_are_preserved : bool :=
  does (r ← load_quiet paths 7; _ ← save paths (with_extra r.1 "future.thing" (Str "x")); load paths 8) no_files
    (fun re _ => c_extra re !! "future.thing" ==? Some (Str "x")).
(** [set] on a configuration that goes on, and a set that is refused. *)
Definition sets (c : ReactorConfig) (key : string) (v : Value) (check : ReactorConfig -> bool) : bool :=
  match set c key v with (c, Ok _) => check c | _ => false end.
Definition refuses (c : ReactorConfig) (key : string) (v : Value) : bool := is_err (set c key v).2.
Definition set_validates_listen_as_multiaddr : bool :=
  sets default_config "instance.listen" (Str "/ip4/0.0.0.0/tcp/4202") (fun c =>
    asserts [in_listen (c_instance c) ==? "/ip4/0.0.0.0/tcp/4202"; refuses c "instance.listen" (Str "nonsense")]).
Definition set_rejects_bad_loglevel_and_port : bool :=
  asserts [refuses default_config "logLevel" (Str "loud");
           sets default_config "logLevel" (Str "debug") (fun c =>
             asserts [refuses c "settings.port" (Number 0);
                      sets c "settings.port" (Number 9000) (fun c => st_port (c_settings c) ==? 9000%N)])].
Definition set_token_env_accepts_string_and_null : bool :=
  sets default_config "p2p.tokenEnv" (Str "GATE") (fun c =>
    asserts [pp_token_env (c_p2p c) ==? Some "GATE";
             sets c "p2p.tokenEnv" Null (fun c => none (pp_token_env (c_p2p c)))]).
Definition llm_config_defaults_set_and_round_trips : bool :=
  let llm := c_llm default_config in
  let saved := with_llm default_config {| llm_base_url := "http://127.0.0.1:9999/v1"; llm_api_key_env := llm_api_key_env llm;
                                          llm_model := "test-model" |} in
  asserts [llm_base_url llm ==? "https://api.openai.com/v1"; llm_api_key_env llm ==? "LLM_API_KEY";
           llm_model llm ==? "gpt-4o-mini";
           sets default_config "llm.baseUrl" (Str "https://my.llm.local/v1") (fun c =>
           sets c "llm.apiKeyEnv" (Str "MY_KEY") (fun c' =>
           sets c' "llm.model" (Str "gpt-4o") (fun c'' =>
           sets c'' "llm.apiKeyEnv" Null (fun cleared =>
             asserts [llm_base_url (c_llm c) ==? "https://my.llm.local/v1"; llm_api_key_env (c_llm c') ==? "MY_KEY";
                      llm_model (c_llm c'') ==? "gpt-4o"; refuses c'' "llm.baseUrl" (Str "not-a-url");
                      refuses c'' "llm.model" (Str ""); llm_api_key_env (c_llm cleared) ==? ""]))));
           does (_ ← save paths saved; load paths 8) no_files (fun re _ =>
             asserts [llm_model (c_llm re) ==? "test-model"; llm_base_url (c_llm re) ==? "http://127.0.0.1:9999/v1"])].
(** The hasher, as a number of the fields it is fed. *)
Definition fingerprint : ReactorConfig -> N := process_fingerprint (fun x => Npos (encode x)).
Definition fingerprint_changes_on_listen_and_token_env : bool :=
  let a := default_config in
  let listen := with_instance a {| in_name := in_name (c_instance a); in_listen := "/ip4/0.0.0.0/tcp/4202";
                                   in_listen_ws := None; in_external := [] |} in
  let token := with_p2p a {| pp_mdns := true; pp_token_env := Some "X"; pp_dht := true; pp_relay := false;
                             pp_bootstraps := [] |} in
  let drives := with_drives a [{| dr_name := "v"; dr_addr := "/ip4/10.0.0.1/tcp/4201"; dr_token_env := None;
                                  dr_paused := false; dr_available_offline := true |}] in
  asserts [fingerprint a <>? fingerprint listen; fingerprint a <>? fingerprint token;
           fingerprint a ==? fingerprint drives].
End ConfigTests.
Definition config_tests : list (string * bool) :=
  [("load_creates_defaults_when_missing", ConfigTests.load_creates_defaults_when_missing);
   ("load_quarantines_corrupt_file", ConfigTests.load_quarantines_corrupt_file);
   ("unknown_fields_are_preserved", ConfigTests.unknown_fields_are_preserved);
   ("set_validates_listen_as_multiaddr", ConfigTests.set_validates_listen_as_multiaddr);
   ("set_rejects_bad_loglevel_and_port", ConfigTests.set_rejects_bad_loglevel_and_port);
   ("set_token_env_accepts_string_and_null", ConfigTests.set_token_env_accepts_string_and_null);
   ("llm_config_defaults_set_and_round_trips", ConfigTests.llm_config_defaults_set_and_round_trips);
   ("fingerprint_changes_on_listen_and_token_env", ConfigTests.fingerprint_changes_on_listen_and_token_env)].
Lemma config_tests_pass : failing config_tests = [].
Proof. vm_compute. reflexivity. Qed.

(** ** src/daemon.rs *)

Module DaemonTests.
Import StatusTests.
Definition test_config : ReactorConfig :=
  with_drives
    (with_instance default_config {| in_name := DEFAULT_INSTANCE_NAME; in_listen := "/ip4/127.0.0.1/tcp/4101";
                                     in_listen_ws := None; in_external := [] |})
    [{| dr_name := "vault"; dr_addr := "/ip4/10.0.0.2/tcp/4201/p2p/12D3KooWg8111"; dr_token_env := None;
        dr_paused := false; dr_available_offline := true |}].
Definition is_digit (c : ascii) : bool := some (digit c).
Definition degraded_snapshot_matches_the_shell_contract : bool :=
  let settings_url := "http://127.0.0.1:4002" in
  let v := status_json (degraded_snapshot 1789346096 "1.13.0" test_config settings_url) in
  let r := at_path v ["reactor"] in
  let d := first_drive v in
  asserts [has_keys v top_keys; has_keys r ["running"; "healthy"; "peer_id"; "listen"; "docs"; "last_event"];
           at_path r ["running"] ==? Bool false; at_path r ["healthy"] ==? Bool false;
           at_path r ["listen"] ==? Str "/ip4/127.0.0.1/tcp/4101"; at_path r ["last_event"] ==? Str "daemon not running";
           has_keys d drive_keys; at_path d ["name"] ==? Str "vault";
           at_path d ["addr"] ==? Str "/ip4/10.0.0.2/tcp/4201/p2p/12D3KooWg8111"; at_path d ["paused"] ==? Bool false;
           at_path d ["status"] ==? Str "offline"; at_path d ["detail"] ==? Str "daemon not running";
           at_path v ["settings"; "url"] ==? Str settings_url; at_path v ["version"] ==? Str "1.13.0";
           expect_some (as_str (at_path v ["updated_at"])) (fun ts =>
             match ts with String c _ => is_digit c && str_contains ts "T" | EmptyString => false end)].
Definition live_snapshot_shape_is_the_same_contract : bool :=
  let v := status_json
    {| sn_version := "1.13.0";
       sn_reactor := {| rs_running := true; rs_healthy := true; rs_peer_id := Some "12D3KooWg8111";
                        rs_listen := "/ip4/0.0.0.0/tcp/4201"; rs_docs := 4; rs_last_event := Some "drive vault: synced";
                        rs_active_drives := 0; rs_last_doc := None |};
       sn_drives := [{| ds_name := "vault"; ds_addr := "/ip4/10.0.0.2/tcp/4201/p2p/12D3KooWg8111"; ds_paused := true;
                        ds_status := "paused"; ds_detail := "" |}];
       sn_bans := []; sn_settings := {| ss_url := "http://127.0.0.1:4002" |}; sn_groups := [];
       sn_updated_at := "2026-09-12T00:00:00Z" |} in
  asserts [at_path v ["reactor"; "running"] ==? Bool true; at_path v ["reactor"; "healthy"] ==? Bool true;
           at_path v ["reactor"; "peer_id"] ==? Str "12D3KooWg8111"; at_path (first_drive v) ["paused"] ==? Bool true;
           at_path (first_drive v) ["status"] ==? Str "paused"].
Definition default_drive_name_prefers_peer_id : bool :=
  asserts [expect (addr_parse "/ip4/10.0.0.2/tcp/4201/p2p/12D3KooWtest") (fun ma =>
             String.prefix "peer-" (default_drive_name ma));
           expect (addr_parse "/ip4/10.0.0.2/tcp/4242") (fun ma => default_drive_name ma ==? "drive-4242")].
End DaemonTests.
Definition daemon_tests : list (string * bool) :=
  [("degraded_snapshot_matches_the_shell_contract",
      DaemonTests.degraded_snapshot_matches_the_shell_contract);
   ("live_snapshot_shape_is_the_same_contract", DaemonTests.live_snapshot_shape_is_the_same_contract);
   ("default_drive_name_prefers_peer_id", DaemonTests.default_drive_name_prefers_peer_id)].
Lemma daemon_tests_pass : failing daemon_tests = [].
Proof. vm_compute. reflexivity. Qed.
