(* ===== verification/TestTray.v ===== *)
(** The tests of src/tray: the menu, what a host is told of it, and the icon
    files. *)

From stdpp Require Import base gmap strings numbers pretty list.
From Stdlib Require Import Strings.Byte Strings.Ascii.
From S2P Require Import Prelude Json Doc Text Invite Fs Status Tray TestKit TestPackage.
Open Scope test_scope.

(** [find_by_label], which only the tests use. *)
Fixpoint find_by_label (root : MenuItem) (label : string) : option MenuItem :=
  if mi_label root ==? label then Some root else
  let 'Item _ _ _ _ _ _ _ children := root in
  (fix go (l : list MenuItem) : option MenuItem :=
     match l with
     | [] => None
     | c :: l => match find_by_label c label with Some i => Some i | None => go l end
     end) children.
Definition entry_of (name addr : string) (paused : bool) (status detail : string) : DriveStatusEntry :=
  {| ds_name := name; ds_addr := addr; ds_paused := paused; ds_status := status; ds_detail := detail |}.
Definition vault : DriveStatusEntry :=
  entry_of "vault" "/ip4/10.0.0.2/tcp/25422/p2p/12D3KooWg8111" false "synced" "ok".
Definition cold : DriveStatusEntry :=
  entry_of "cold" "/ip4/10.0.0.3/tcp/25422/p2p/12D3KooWg8222" true "paused" "paused".
(** The snapshot of a daemon that is up, with its drives and groups. *)
Definition snap_of (healthy : bool) (peer : option string) (drives : list DriveStatusEntry) (groups : list GroupSummary) :
    StatusSnapshot :=
  let s := snapshot_empty 0 "1.0.0" "/ip4/0.0.0.0/tcp/25422" "http://127.0.0.1:4002" in
  let r := sn_reactor s in
  {| sn_version := sn_version s;
     sn_reactor := {| rs_running := true; rs_healthy := healthy; rs_peer_id := peer; rs_listen := rs_listen r;
                      rs_docs := rs_docs r; rs_last_event := rs_last_event r; rs_active_drives := rs_active_drives r;
                      rs_last_doc := rs_last_doc r |};
     sn_drives := drives; sn_bans := sn_bans s; sn_settings := sn_settings s; sn_groups := groups;
     sn_updated_at := sn_updated_at s |}.

(** ** src/tray/menu.rs *)

Module MenuTests.
Definition peer : string := "12D3KooWBEVh11BAbHuJ5fEUZGKzZTjeYoNutC4uCq2UeGMxSWod".
Definition menu_snap (groups : list GroupSummary) : StatusSnapshot := snap_of true (Some peer) [vault; cold] groups.
Definition menu_root : MenuItem := build_menu (menu_snap []).
Definition offered (i : MenuItem) : option TrayAction := action_for_id menu_root (mi_id i).
Definition child (i : MenuItem) (label : string) : option MenuItem :=
  List.find (fun c => mi_label c ==? label) (mi_children i).

Definition ids_are_unique_across_the_whole_tree : bool :=
  let ids := mi_id <$> all_items menu_root in
  asserts [bool_decide (NoDup ids); mi_id menu_root ==? 0%N].
Fixpoint reword (i : MenuItem) : MenuItem :=
  let 'Item id sep _ en vis icon act children := i in
  Item id sep ("renamed " +:+ pretty id) en vis icon act (reword <$> children).
Definition actions_dispatch_by_id_not_by_label : bool :=
  expect_some (find_by_label menu_root "Quit ph-reactor") (fun quit =>
    asserts [action_for_id menu_root (mi_id quit) ==? Some QuitItem; action_for_id (reword menu_root) (mi_id quit) ==? Some QuitItem]).
Definition pause_and_resume_reflect_the_drive_state : bool :=
  asserts [(find_by_label menu_root "vault — synced" ≫= fun d => child d "Pause" ≫= offered) ==? Some (TogglePause "vault" true);
           (find_by_label menu_root "cold — paused" ≫= fun d => child d "Resume" ≫= offered) ==? Some (TogglePause "cold" false)].
Definition disabled_items_carry_no_action : bool :=
  let headers := List.filter (fun c => negb (mi_enabled c)) (mi_children menu_root) in
  asserts [0 <? length headers; forallb (fun h => none (offered h)) headers].
Definition teams_appear_when_present_and_are_omitted_when_not : bool :=
  let with_team := build_menu (menu_snap [{| gs_name := "powerhouse"; gs_members := 2; gs_messages := 1 |}]) in
  asserts [none (find_by_label menu_root "Teams"); some (find_by_label with_team "Teams");
           some (find_by_label with_team "powerhouse — 2 members, 1 message")].
Definition singular_and_plural_counts_read_correctly : bool :=
  some (find_by_label (build_menu (menu_snap [{| gs_name := "solo"; gs_members := 1; gs_messages := 0 |}]))
          "solo — 1 member, 0 messages").
Definition peer_id_is_shortened_but_still_identifies_the_node : bool :=
  let short := short_peer peer in
  asserts [some (find_by_label menu_root short); slen short <? slen peer; String.prefix "12D3KooWBEVh" short;
           String.substring (slen short - 6) 6 short ==? "MxSWod"].
Definition state_line_describes_what_the_reactor_is_doing : bool :=
  let paused d := entry_of (ds_name d) (ds_addr d) true (ds_status d) (ds_detail d) in
  let connecting := entry_of (ds_name vault) (ds_addr vault) false "connecting" (ds_detail vault) in
  asserts [state_line (menu_snap []) ==? "synced";
           state_line (snap_of true (Some peer) [paused vault; paused cold] []) ==? "paused";
           state_line (snap_of true (Some peer) [connecting; cold] []) ==? "connecting…";
           state_line (snap_of true (Some peer) [] []) ==? "no drives";
           state_line (snap_of false (Some peer) [vault; cold] []) ==? "starting…"].
Definition console_item_opens_the_console : bool :=
  (find_by_label menu_root "Open console…" ≫= offered) ==? Some OpenConsole.
End MenuTests.
Definition menu_tests : list (string * bool) :=
  [("ids_are_unique_across_the_whole_tree", MenuTests.ids_are_unique_across_the_whole_tree);
   ("actions_dispatch_by_id_not_by_label", MenuTests.actions_dispatch_by_id_not_by_label);
   ("pause_and_resume_reflect_the_drive_state", MenuTests.pause_and_resume_reflect_the_drive_state);
   ("disabled_items_carry_no_action", MenuTests.disabled_items_carry_no_action);
   ("teams_appear_when_present_and_are_omitted_when_not",
      MenuTests.teams_appear_when_present_and_are_omitted_when_not);
   ("singular_and_plural_counts_read_correctly", MenuTests.singular_and_plural_counts_read_correctly);
   ("peer_id_is_shortened_but_still_identifies_the_node",
      MenuTests.peer_id_is_shortened_but_still_identifies_the_node);
   ("state_line_describes_what_the_reactor_is_doing",
      MenuTests.state_line_describes_what_the_reactor_is_doing);
   ("console_item_opens_the_console", MenuTests.console_item_opens_the_console)].
Lemma menu_tests_pass : failing menu_tests = [].
Proof. vm_compute. reflexivity. Qed.

(** ** src/tray/dbusmenu.rs *)

Module DbusTests.
Definition dbus_snap : StatusSnapshot := snap_of true None [vault] [].
Definition dbus_root : MenuItem := build_menu dbus_snap.
Definition UNLIMITED : Z := -1.
Definition children (l : LayoutItem) : list LayoutItem := let 'Layout _ _ c := l in c.
Definition props (l : LayoutItem) : gmap string Value := let 'Layout _ p _ := l in p.
Definition layout_id (l : LayoutItem) : Z := let 'Layout id _ _ := l in id.
Definition laid_out (root : MenuItem) (id depth : Z) : option LayoutItem := layout root id depth [].

Definition root_is_id_zero_and_advertises_a_submenu : bool :=
  expect_some (laid_out dbus_root 0 UNLIMITED) (fun l =>
    asserts [layout_id l ==? 0%Z; some (props l !! "children-display"); 0 <? length (children l)]).
Definition depth_zero_returns_the_item_without_children : bool :=
  expect_some (laid_out dbus_root 0 0) (fun l => length (children l) ==? 0).
Definition depth_one_returns_only_the_first_level : bool :=
  expect_some (laid_out dbus_root 0 UNLIMITED) (fun full =>
  expect_some (laid_out dbus_root 0 1) (fun one =>
  expect_some (find_by_label dbus_root "Drives") (fun deep =>
  expect_some (laid_out dbus_root (as_i32 (mi_id deep)) 1) (fun drives =>
    asserts [length (children one) ==? length (children full); 0 <? length (mi_children deep);
             0 <? length (children drives)])))).
Definition unknown_parent_id_yields_nothing : bool := none (laid_out dbus_root 9999 UNLIMITED).
Definition separators_carry_a_type_and_nothing_else : bool :=
  expect_some (List.find mi_sep (mi_children dbus_root)) (fun sep =>
    let p := props_of sep [] in asserts [p !! "type" ==? Some (Str "separator"); none (p !! "label")]).
Definition defaults_are_omitted_but_non_defaults_are_sent : bool :=
  expect_some (head (mi_children dbus_root)) (fun header =>
  expect_some (find_by_label dbus_root "Quit ph-reactor") (fun enabled =>
    asserts [negb (mi_enabled header); props_of header [] !! "enabled" ==? Some (Bool false);
             none (props_of enabled [] !! "enabled")])).
Definition property_filter_is_honoured : bool :=
  expect_some (find_by_label dbus_root "Quit ph-reactor") (fun quit =>
    let p := props_of quit ["label"] in asserts [some (p !! "label"); none (p !! "icon-name")]).
Definition group_properties_skips_ids_that_no_longer_exist : bool :=
  expect_some (find_by_label dbus_root "Quit ph-reactor") (fun quit =>
    (group_properties dbus_root [as_i32 (mi_id quit); 9999%Z] []).*1 ==? [as_i32 (mi_id quit)]).
Definition hidden (i : MenuItem) : MenuItem :=
  let 'Item id sep label en _ icon act children := i in Item id sep label en false icon act children.
Definition hide_first (i : MenuItem) : MenuItem :=
  let 'Item id sep label en vis icon act children := i in
  Item id sep label en vis icon act (match children with c :: rest => hidden c :: rest | [] => [] end).
Definition invisible_children_are_not_serialized : bool :=
  expect_some (laid_out dbus_root 0 UNLIMITED) (fun before =>
  expect_some (laid_out (hide_first dbus_root) 0 UNLIMITED) (fun after =>
    length (children after) ==? length (children before) - 1)).
End DbusTests.
Definition dbus_tests : list (string * bool) :=
  [("root_is_id_zero_and_advertises_a_submenu", DbusTests.root_is_id_zero_and_advertises_a_submenu);
   ("depth_zero_returns_the_item_without_children", DbusTests.depth_zero_returns_the_item_without_children);
   ("depth_one_returns_only_the_first_level", DbusTests.depth_one_returns_only_the_first_level);
   ("unknown_parent_id_yields_nothing", DbusTests.unknown_parent_id_yields_nothing);
   ("separators_carry_a_type_and_nothing_else", DbusTests.separators_carry_a_type_and_nothing_else);
   ("defaults_are_omitted_but_non_defaults_are_sent",
      DbusTests.defaults_are_omitted_but_non_defaults_are_sent);
   ("property_filter_is_honoured", DbusTests.property_filter_is_honoured);
   ("group_properties_skips_ids_that_no_longer_exist",
      DbusTests.group_properties_skips_ids_that_no_longer_exist);
   ("invisible_children_are_not_serialized", DbusTests.invisible_children_are_not_serialized)].
Lemma dbus_tests_pass : failing dbus_tests = [].
Proof. vm_compute. reflexivity. Qed.

(** ** src/tray/icon.rs *)

Module IconTests.
Definition icon : Path := ["nested"; "icon.svg"].
(** An unchanged icon takes no write: the second call succeeds though the
    operating system would refuse to write. *)
Definition write_if_changed_is_idempotent : bool :=
  does (write_if_changed icon (as_bytes "a")) no_files (fun _ fs =>
    asserts [does (write_if_changed icon (as_bytes "a")) {| fs_files := fs_files fs; fs_sched := [Done; Refused; Refused] |}
               (fun _ fs' => fs_files fs' ==? fs_files fs);
             does (write_if_changed icon (as_bytes "b")) fs (fun _ fs' => fs_files fs' !! icon ==? Some (as_bytes "b"))]).
End IconTests.
Definition icon_tests : list (string * bool) :=
  [("write_if_changed_is_idempotent", IconTests.write_if_changed_is_idempotent)].
Lemma icon_tests_pass : failing icon_tests = [].
Proof. vm_compute. reflexivity. Qed.
