(* ===== verification/TestConsole.v ===== *)
(** The tests of src/settings.  Those that read the text of the console page or
    of the editors are not here: the pages are not part of the model. *)

From stdpp Require Import base gmap strings numbers pretty list.
From Stdlib Require Import Strings.Byte Strings.Ascii.
From S2P Require Import Prelude Json Doc Sample Action Model Builtins Entry Store StoreInv Text Cosign Invite Blob Engine.
From S2P Require Import Fs ReadModel Package PackageProps Update Processor Status Config ConfigProps Daemon DaemonDrives Llm.
From S2P Require Import Web Console Offers Assets TestKit TestPackage.
Import ConfigSample DaemonSample.
Open Scope test_scope.

(** ** src/settings/mod.rs, inbox.rs, spaces.rs *)

Module InboxTests.
Definition llm_base_url_rejects_link_local_metadata_allows_real_llm : bool :=
  asserts [is_err (llm_base_url_ok "http://169.254.169.254/latest/meta-data/");
           is_err (llm_base_url_ok "http://169.254.0.1:8080"); is_ok (llm_base_url_ok "https://api.openai.com");
           is_ok (llm_base_url_ok "http://127.0.0.1:11434"); is_ok (llm_base_url_ok "https://llm.example.com/v1")].
Definition inbox_rule (when : list (string * Value)) : Attention :=
  {| at_model := "proposal"; at_when := when; at_needs := "approvers"; at_label := "Proposal awaiting your review" |}.
Definition every_condition_must_hold_not_just_one : bool :=
  let r := inbox_rule ["status" ~> Str "submitted"; "kind" ~> Str "grant"] in
  asserts [conditions_hold r (json_obj ["status" ~> Str "submitted"; "kind" ~> Str "grant"]);
           negb (conditions_hold r (json_obj ["status" ~> Str "submitted"; "kind" ~> Str "loan"]))].
Definition a_missing_field_does_not_match : bool :=
  negb (conditions_hold (inbox_rule ["status" ~> Str "submitted"]) (json_obj [])).
Definition the_responsible_field_may_be_a_list_or_a_single_value : bool :=
  asserts [names_me (json_obj ["approvers" ~> json_strs ["a"; "b"]]) "approvers" "b";
           negb (names_me (json_obj ["approvers" ~> json_strs ["a"]]) "approvers" "b");
           names_me (json_obj ["org" ~> Str "a"]) "org" "a"; negb (names_me (json_obj ["org" ~> Str "a"]) "org" "b");
           negb (names_me (json_obj []) "approvers" "a")].
Definition every_tier_says_what_it_actually_guarantees : bool :=
  asserts [str_contains (tier_meaning PUBLIC) "Anyone"; str_contains (tier_meaning PROTECTED) "unencrypted";
           str_contains (tier_meaning PROTECTED) "keeps what they saw";
           str_contains (tier_meaning PRIVATE) "no copy of it anywhere else"].
Definition an_unknown_tier_is_described_as_private : bool := str_contains (tier_meaning "weird") "private".
End InboxTests.
Definition inbox_tests : list (string * bool) :=
  [("llm_base_url_rejects_link_local_metadata_allows_real_llm",
      InboxTests.llm_base_url_rejects_link_local_metadata_allows_real_llm);
   ("every_condition_must_hold_not_just_one", InboxTests.every_condition_must_hold_not_just_one);
   ("a_missing_field_does_not_match", InboxTests.a_missing_field_does_not_match);
   ("the_responsible_field_may_be_a_list_or_a_single_value",
      InboxTests.the_responsible_field_may_be_a_list_or_a_single_value);
   ("every_tier_says_what_it_actually_guarantees", InboxTests.every_tier_says_what_it_actually_guarantees);
   ("an_unknown_tier_is_described_as_private", InboxTests.an_unknown_tier_is_described_as_private)].
Lemma inbox_tests_pass : failing inbox_tests = [].
Proof. vm_compute. reflexivity. Qed.

(** ** src/settings/migrate.rs *)

Module MigrateTests.
Definition channel (name visibility : string) (members : list string) : Value :=
  json_obj ["name" ~> Str name; "visibility" ~> Str visibility; "members" ~> json_strs members].
Definition migrate_group_doc (name : string) (tags : list string) (channels : list Value) : Value :=
  json_obj [
    "name" ~> Str name; "model" ~> json_obj ["name" ~> Str "group"; "version" ~> Str "1"];
    "fields" ~> json_obj [
      "members" ~> json_strs ["alice"; "bob"]; "managers" ~> json_strs ["alice"];
      "msg_text" ~> json_strs ["hi"; "there"; "ops only"]; "msg_channel" ~> json_strs tags;
      "channels" ~> Array channels;
      "drive" ~> Array [json_obj ["name" ~> Str "notes"; "kind" ~> Str "folder"; "parent" ~> Null]]]].
Definition core : Value :=
  migrate_group_doc "core" ["general"; "general"; "ops"] [channel "general" "public" []; channel "ops" "private" ["alice"]].
Definition ones : string := "11111111-1111-1111-1111-111111111111".
Definition counted (p : Plan) (chan : string) : option nat := snd <$> List.find (fun c => c.1.2 ==? chan) (pn_chats p).

Definition a_plan_does_not_depend_on_the_projection_carrying_an_id : bool :=
  asserts [none (vget core "id"); some (plan_for core ones)].
Definition a_plan_names_every_document_it_would_create_and_the_one_it_deletes : bool :=
  expect_some (plan_for core ones) (fun p =>
    let d := plan_describe p in
    asserts [at_path d ["creates"; "space"; "visibility"] ==? Str "protected";
             length (items (at_path d ["creates"; "chats"])) ==? 2; at_path d ["creates"; "drive"; "items"] ==? Number 1;
             at_path d ["deletes"; "doc"] ==? Str "core"]).
Definition messages_are_counted_per_channel : bool :=
  expect_some (plan_for core ones) (fun p => asserts [counted p "general" ==? Some 2; counted p "ops" ==? Some 1]).
Definition the_space_id_is_derived_from_the_group_not_minted : bool :=
  let id group := pn_space_id <$> plan_for core group in
  asserts [id ones ==? id ones; id ones <>? id "22222222-2222-2222-2222-222222222222"].
Definition an_untagged_group_migrates_into_general : bool :=
  expect_some (plan_for (migrate_group_doc "old" [] []) "33333333-3333-3333-3333-333333333333") (fun p =>
    (fun c => (c.1.2, c.2)) <$> pn_chats p ==? [("general", 3)]).
End MigrateTests.
Definition migrate_tests : list (string * bool) :=
  [("a_plan_does_not_depend_on_the_projection_carrying_an_id",
      MigrateTests.a_plan_does_not_depend_on_the_projection_carrying_an_id);
   ("a_plan_names_every_document_it_would_create_and_the_one_it_deletes",
      MigrateTests.a_plan_names_every_document_it_would_create_and_the_one_it_deletes);
   ("messages_are_counted_per_channel", MigrateTests.messages_are_counted_per_channel);
   ("the_space_id_is_derived_from_the_group_not_minted",
      MigrateTests.the_space_id_is_derived_from_the_group_not_minted);
   ("an_untagged_group_migrates_into_general", MigrateTests.an_untagged_group_migrates_into_general)].
Lemma migrate_tests_pass : failing migrate_tests = [].
Proof. vm_compute. reflexivity. Qed.

(** ** src/settings/packages.rs, updates.rs *)

Module OfferTests.
Import ManifestTests.
Definition achra_manifest : Manifest := set_sig (bare_manifest "achra" "1.0.0" (sk 1)) "".
#[local] Instance manifest_texts : Serde Manifest := texts [achra_manifest].
#[local] Instance unreadable_releases : Serde Release :=
  {| to_json := fun _ => []; from_json := fun _ => Err "expected value at line 1 column 1" |}.
Definition row (fields : list (string * Value)) : Value := json_obj ["name" ~> Str "x"; "fields" ~> json_obj fields].
Definition a_document_without_a_manifest_is_skipped_not_fatal : bool :=
  asserts [none (manifest_of (row [])); none (manifest_of (row ["manifest" ~> Str "{{{"]))].
Definition a_well_formed_manifest_parses_out_of_a_document : bool :=
  (mf_name <$> manifest_of (row ["manifest" ~> Str (to_text achra_manifest)])) ==? Some "achra".
Definition a_document_without_a_readable_release_is_skipped : bool :=
  asserts [none (readable_release (row [])); none (readable_release (row ["manifest" ~> Str "not json"]))].
End OfferTests.
Definition offer_tests : list (string * bool) :=
  [("a_document_without_a_manifest_is_skipped_not_fatal",
      OfferTests.a_document_without_a_manifest_is_skipped_not_fatal);
   ("a_well_formed_manifest_parses_out_of_a_document",
      OfferTests.a_well_formed_manifest_parses_out_of_a_document);
   ("a_document_without_a_readable_release_is_skipped",
      OfferTests.a_document_without_a_readable_release_is_skipped)].
Lemma offer_tests_pass : failing offer_tests = [].
Proof. vm_compute. reflexivity. Qed.

(** ** src/settings/assets.rs *)

Module AssetTests.
Import ManifestTests.
Definition html : list byte := as_bytes "<!doctype html><title>t</title>hello".
Definition with_bundle (m : Manifest) (b : BlobRef) : Manifest :=
  {| mf_name := mf_name m; mf_version := mf_version m; mf_description := mf_description m;
     mf_category := mf_category m; mf_publisher := mf_publisher m; mf_publisher_key := mf_publisher_key m;
     mf_document_models := mf_document_models m; mf_processors := mf_processors m; mf_bundle := Some b;
     mf_capabilities := mf_capabilities m; mf_projections := mf_projections m; mf_attention := mf_attention m;
     mf_ui := mf_ui m; mf_sig := mf_sig m |}.
Definition editor : InstalledPackage :=
  {| ip_manifest := manifest_sign (with_bundle (bare_manifest "achra" "1.0.0" (sk 3)) (blobref_of html)) (sk 3);
     ip_installed_at := "2026-09-14T00:00:00Z" |}.
#[local] Instance editor_texts : Serde Installed :=
  {| to_json := fun l => as_bytes (pretty (length l)); from_json := fun b => if b ==? as_bytes "1" then Ok [editor] else Err "" |}.
(** A node with the given files and chunks. *)
Definition state_for (files : gmap Path (list byte)) (blobs : gmap N (list byte)) : Web :=
  {| wb_ctx := ctx_new (for_root ["state"]) default_config "12D3me" (store_open empty_disk (sk 1) "12D3me") calm_world
                 {| fs_files := files; fs_sched := [] |};
     wb_snap := snapshot_empty 0 "1" "" ""; wb_blobs := blobs; wb_specs := []; wb_fires := ∅; wb_runner := [];
     wb_update_auto := false; wb_sent := [] |}.
Definition segments (path : string) : list string :=
  match split_char "/" path with [""; ""] => [] | "" :: l => l | l => l end.
Definition asked (wb : Web) (method path : string) : Answer := (asset_request sample_show wb method (segments path)).2.
Definition status (a : Answer) : N := rp_status (an_response a).
Definition bare : Web := state_for ∅ ∅.

Definition the_csp_blocks_outbound_connections : bool :=
  forallb (str_contains CSP) ["default-src 'none'"; "connect-src 'none'"; "form-action 'none'"; "frame-ancestors *"].
Definition the_console_api_is_unreachable_from_the_asset_origin : bool :=
  forallb (fun path => status (asked bare "GET" path) ==? HTTP_NOT_FOUND)
    ["/api/config"; "/api/drives"; "/api/quit"; "/api/status"; "/api/plugins"; "/api/groups"; "/console";
     "/plugin/../api/config"; "/plugin/..%2f..%2fapi%2fconfig"].
Definition the_asset_origin_accepts_no_writes : bool :=
  forallb (fun '(method, path) =>
      let st := status (asked bare method path) in (st ==? HTTP_METHOD_NOT_ALLOWED) || (st ==? HTTP_NOT_FOUND))
    [("POST", "/plugin/achra"); ("POST", "/"); ("DELETE", "/plugin/achra"); ("POST", "/api/plugins/achra/action")].
Definition an_unknown_package_is_a_plain_not_found : bool :=
  forallb (fun name => status (asked bare "GET" ("/plugin/" +:+ name)) ==? HTTP_NOT_FOUND)
    ["nope"; ".."; "%2e%2e"; "etc%2fpasswd"].
Definition header (a : Answer) (name : string) : option string :=
  snd <$> List.find (fun h => h.1 ==? name) (an_headers a).
Definition a_served_bundle_carries_the_isolation_headers : bool :=
  let blobs := (put sample_show ∅ html).1 in
  let fs := (installed_save (installed_put [] editor) (packages_file (for_root ["state"])) no_files).1 in
  let res := asked (state_for (fs_files fs) blobs) "GET" "/plugin/achra" in
  asserts [status res ==? HTTP_OK;
           expect_some (header res "content-security-policy") (fun csp => str_contains csp "connect-src 'none'");
           header res "x-content-type-options" ==? Some "nosniff";
           match rp_body (an_response res) with RBytes b => b ==? html | _ => false end].
End AssetTests.
Definition asset_tests : list (string * bool) :=
  [("the_csp_blocks_outbound_connections", AssetTests.the_csp_blocks_outbound_connections);
   ("the_console_api_is_unreachable_from_the_asset_origin",
      AssetTests.the_console_api_is_unreachable_from_the_asset_origin);
   ("the_asset_origin_accepts_no_writes", AssetTests.the_asset_origin_accepts_no_writes);
   ("an_unknown_package_is_a_plain_not_found", AssetTests.an_unknown_package_is_a_plain_not_found);
   ("a_served_bundle_carries_the_isolation_headers",
      AssetTests.a_served_bundle_carries_the_isolation_headers)].
Lemma asset_tests_pass : failing asset_tests = [].
Proof. vm_compute. reflexivity. Qed.
