(* ===== verification/TestLife.v ===== *)
(** The integration tests of tests/model_durability.rs and
    tests/package_lifecycle.rs: the store, the files, the chunks and the
    packages together. *)

From stdpp Require Import base gmap strings numbers pretty list.
From Stdlib Require Import Strings.Byte Strings.Ascii.
From S2P Require Import Prelude Json Doc Sample Action Model Builtins Entry Store StoreInv Text Invite Blob Fs ReadModel.
From S2P Require Import Package PackageProps Web Offers TestKit TestStore TestPackage.
Import StoreTests.
Open Scope test_scope.

(** ** tests/model_durability.rs *)

Module DurabilityTests.
Definition set_to (v : string) : Value := json_obj ["set" ~> Str v].
Definition ticket_def : Value :=
  json_obj [
    "name" ~> Str "ticket"; "version" ~> Str "1";
    "fields" ~> json_obj ["title" ~> Str "string"; "status" ~> Str "string"];
    "reducers" ~> json_obj [
      "init" ~> json_obj [
        "payload" ~> json_obj ["name" ~> Str "string"; "title" ~> Str "string"];
        "writes" ~> json_obj ["__name__" ~> set_to "$payload.name"; "title" ~> set_to "$payload.title";
                              "status" ~> set_to "open"]];
      "close" ~> json_obj ["payload" ~> json_obj []; "writes" ~> json_obj ["status" ~> set_to "closed"]]]].
Definition seed_from (defs : list Value) : list AnyModel :=
  omap (fun d => match from_def d with Ok l => Some (ML1 l) | Err _ => None end) defs.
(** A start of the node on the directory, with its definitions. *)
Definition started (defs : list Value) : storeM unit := fun s =>
  (open_inner (i_disk s) (sk 3) "origin-a" (seed_from defs), Ok tt).
Definition ticket : ModelRef := modelref_new "ticket" "1".
Definition create_ticket (title : string) : storeM DocId :=
  create_doc_model now 1 "t-1" ticket (json_obj ["name" ~> Str "t-1"; "title" ~> Str title]).

Definition without_its_model_a_document_replays_empty : bool :=
  passes (
    _ ← started [ticket_def];
    _ ← create_ticket "Fix the thing";
    _ ← ensure (fun s => value_of s "t-1" "title" ==? Some (Str "Fix the thing"));
    _ ← started [];
    ensure (fun s => none (get_doc s "t-1"))) fresh.
Definition with_its_model_a_document_survives_a_restart : bool :=
  passes (
    _ ← started [ticket_def];
    _ ← create_ticket "Fix the thing";
    _ ← apply_local_action now "t-1" ticket "close" (json_obj []);
    _ ← started [ticket_def];
    ensure (fun s => asserts [value_of s "t-1" "title" ==? Some (Str "Fix the thing");
                              value_of s "t-1" "status" ==? Some (Str "closed")])) fresh.
Definition a_persisted_definition_restores_its_documents : bool :=
  does (_ ← persist_save ["models.json"] ticket_def; load_all ["models.json"]) no_files (fun defs fs =>
    passes (
      _ ← started defs;
      _ ← create_ticket "Persisted";
      restored ← lift_res (load_all ["models.json"] fs).2;
      _ ← holds (length restored ==? 1);
      _ ← started restored;
      ensure (fun s => value_of s "t-1" "title" ==? Some (Str "Persisted"))) fresh).
Definition built_in_models_survive_without_any_persistence : bool :=
  passes (
    _ ← started [];
    _ ← create_doc_model now 1 "g-1" (modelref_new "group" "1")
          (json_obj ["name" ~> Str "g-1"; "members" ~> json_strs ["origin-a"]; "managers" ~> json_strs ["origin-a"]]);
    _ ← started [];
    ensure (fun s => value_of s "g-1" "members" ==? Some (json_strs ["origin-a"]))) fresh.
End DurabilityTests.
Definition durability_tests : list (string * bool) :=
  [("without_its_model_a_document_replays_empty",
      DurabilityTests.without_its_model_a_document_replays_empty);
   ("with_its_model_a_document_survives_a_restart",
      DurabilityTests.with_its_model_a_document_survives_a_restart);
   ("a_persisted_definition_restores_its_documents",
      DurabilityTests.a_persisted_definition_restores_its_documents);
   ("built_in_models_survive_without_any_persistence",
      DurabilityTests.built_in_models_survive_without_any_persistence)].
Lemma durability_tests_pass : failing durability_tests = [].
Proof. vm_compute. reflexivity. Qed.

(** ** tests/package_lifecycle.rs *)

Module LifecycleTests.
Import ManifestTests DurabilityTests.
Definition publisher : SigningKey := sk 11.
Definition fresh_node : Inner := store_open empty_disk (sk 12) "node-a".
Definition rfp_def : Value :=
  json_obj [
    "name" ~> Str "rfp"; "version" ~> Str "1";
    "fields" ~> json_obj ["title" ~> Str "string"; "status" ~> Str "string"];
    "reducers" ~> json_obj ["init" ~> json_obj [
      "payload" ~> json_obj ["name" ~> Str "string"; "title" ~> Str "string"];
      "writes" ~> json_obj ["__name__" ~> set_to "$payload.name"; "title" ~> set_to "$payload.title";
                            "status" ~> set_to "open"]]]].
Definition EDITOR : list byte := as_bytes "<!doctype html><title>Achra</title><h1>Marketplace</h1>".
Definition editor_chunks : gmap N (list byte) := (put sample_show ∅ EDITOR).1.
Definition editor_ref : BlobRef := blobref_of EDITOR.
Definition writes_proposals : WriteCapability := {| wc_model := "proposal@1"; wc_kinds := ["init"] |}.
(** The package of the tests, with the parts they alter. *)
Definition package_of (name : string) (key : SigningKey) (models : list Value) (caps : Capabilities) (sig : string) : Manifest :=
  let m := manifest_with name "1.0.0" "Powerhouse" key models caps [] sig in
  {| mf_name := mf_name m; mf_version := mf_version m; mf_description := mf_description m;
     mf_category := mf_category m; mf_publisher := mf_publisher m; mf_publisher_key := mf_publisher_key m;
     mf_document_models := mf_document_models m; mf_processors := []; mf_bundle := Some editor_ref;
     mf_capabilities := caps; mf_projections := []; mf_attention := []; mf_ui := mf_ui m; mf_sig := sig |}.
Definition reads_rfps : Capabilities := {| cap_read := ["rfp@1"]; cap_write := [writes_proposals] |}.
Definition signed_package (name : string) (key : SigningKey) (models : list Value) (caps : Capabilities) : Manifest :=
  manifest_sign (package_of name key models caps "") key.
Definition achra_package : Manifest := signed_package achra publisher [rfp_def] reads_rfps.
Definition vault_package : Manifest := signed_package "@powerhousedao/vault" publisher [] reads_rfps.
Definition at_noon : string := "2026-01-01T12:00:00Z".
Definition trusting_its_key (m : Manifest) : TrustStore := trust ∅ at_noon (mf_publisher_key m) "Powerhouse".
Definition recorded_at_noon (m : Manifest) : InstalledPackage := {| ip_manifest := m; ip_installed_at := at_noon |}.
#[local] Instance InstalledPackage_eq_dec : EqDecision InstalledPackage.
Proof. solve_decision. Defined.
#[local] Instance manifest_texts : Serde Manifest := texts [achra_package].
#[local] Instance installed_texts : Serde Installed :=
  texts [[recorded_at_noon achra_package]; [recorded_at_noon achra_package; recorded_at_noon vault_package]; [recorded_at_noon vault_package]; []].
Definition packages_json : Path := ["packages.json"].
Definition models_json : Path := ["models.json"].
Definition install_on (m : Manifest) (t : TrustStore) (s : Inner) (fs : Fs) : Inner * Fs * result InstallError InstalledPackage :=
  install m t editor_chunks packages_json models_json at_noon s fs.
Definition known_model (s : Inner) (name : string) : bool := existsb (fun r => mr_name r ==? name) (model_refs s).
(** The package as a document, with what else a test says of it. *)
Definition publish_as_doc (more : list (string * Value)) : storeM DocId :=
  r ← lift_res (modelref_parse "package@1");
  create_doc_model now 1 "pkg-achra-1.0.0" r
    (json_obj (["name" ~> Str "pkg-achra-1.0.0"; "publisher_key" ~> Str (mf_publisher_key achra_package);
                "package_name" ~> Str achra; "package_version" ~> Str "1.0.0"; "manifest" ~> Str (to_text achra_package)]
               ++ more)).
Definition published : Inner :=
  after (publish_as_doc ["publisher_name" ~> Str "Powerhouse"; "description" ~> Str (mf_description achra_package)]) fresh_node.
Definition carried : list Manifest := omap manifest_of (query_docs published "package" None).

Definition a_package_travels_as_a_document_and_installs_only_once_trusted : bool :=
  let '(s0, fs0, refused) := install_on achra_package ∅ published no_files in
  let '(s, fs, r) := install_on achra_package (trusting_its_key achra_package) s0 fs0 in
  asserts [some (get_doc published "pkg-achra-1.0.0"); carried ==? [achra_package]; forallb verifies carried;
           match refused with Err (UntrustedPublisher key _) => key ==? mf_publisher_key achra_package | _ => false end;
           negb (known_model s0 "rfp");
           expect r (fun pkg => asserts [pkg_name pkg ==? achra; mf_bundle (ip_manifest pkg) ==? Some editor_ref]);
           known_model s "rfp"; does (load_all models_json) fs (fun l _ => length l ==? 1);
           get sample_show editor_chunks editor_ref ==? Ok EDITOR;
           does (installed_load packages_json) fs (fun l _ => asserts [length l ==? 1; some (installed_get l achra)])].
Definition a_missing_bundle_is_reported_as_incomplete_not_as_a_bad_package : bool :=
  match Package.check achra_package (trusting_its_key achra_package) ∅ with
  | Err (BundleIncomplete missing) => 0 <? missing
  | _ => false
  end.
Definition a_validly_signed_package_from_the_wrong_key_is_refused : bool :=
  let fake := signed_package achra (sk 99) [rfp_def] {| cap_read := ["rfp@1"; "group@1"]; cap_write := [writes_proposals] |} in
  asserts [verifies fake;
           match Package.check fake (trusting_its_key achra_package) editor_chunks with Err (UntrustedPublisher _ _) => true | _ => false end].
Definition tampering_is_caught_before_the_operator_is_ever_asked : bool :=
  let grabs := {| wc_model := "group@1"; wc_kinds := ["add-manager"] |} in
  let tampered := package_of achra publisher [rfp_def] {| cap_read := ["rfp@1"]; cap_write := [writes_proposals; grabs] |}
                    (mf_sig achra_package) in
  match Package.check tampered (trusting_its_key tampered) editor_chunks with Err (Integrity _) => true | _ => false end.
Definition uninstall_collects_only_unreachable_chunks : bool :=
  let t := trusting_its_key achra_package in
  let '(s, fs, r1) := install_on achra_package t fresh_node no_files in
  let '(_, fs, r2) := install_on vault_package t s fs in
  asserts [is_ok r1; is_ok r2;
           does (all ← installed_load packages_json;
                 let '(all, removed) := installed_remove all achra in
                 _ ← installed_save all packages_json; mret (all, removed)) fs (fun x _ =>
             asserts [x.2; is_ok (get sample_show (gc editor_chunks (live_blobs x.1)).1 editor_ref)])].
Definition uninstalling_does_not_collect_a_package_this_node_still_offers : bool :=
  let '(s, fs, r) := install_on achra_package (trusting_its_key achra_package) (after (publish_as_doc []) fresh_node) no_files in
  asserts [passes (publish_as_doc []) fresh_node; is_ok r;
           does (installed_load packages_json) fs (fun all _ =>
             let '(all, removed) := installed_remove all achra in
             let keep := live_blobs all in
             let offered := omap mf_bundle (omap manifest_of (query_docs s "package" None)) in
             asserts [removed; keep ==? []; is_complete (gc editor_chunks (keep ++ offered)).1 editor_ref])].
Definition with_rfp : Inner :=
  after (r ← lift_res (modelref_parse "rfp@1");
         create_doc_model now 1 "an-rfp" r (json_obj ["name" ~> Str "an-rfp"; "title" ~> Str "A thing"]))
    (foldl add_model fresh_node (seed_from [rfp_def])).
Definition a_read_capability_names_a_model_not_every_document : bool :=
  let caps := {| cap_read := ["rfp@1"]; cap_write := [] |} in
  asserts [may_read caps "rfp@1"; negb (may_read caps "group@1"); negb (may_read caps "package@1");
           negb (may_read caps "rfp@2");
           expect_some (get_doc with_rfp "an-rfp" ≫= fun d => full_state with_rfp (doc_id d)) (fun st =>
             mr_name (ds_model st) ==? "rfp")].
Definition the_action_log_names_who_signed_each_action : bool :=
  expect_some (get_doc with_rfp "an-rfp") (fun d =>
    let actions := (catch_up with_rfp (doc_id d) ∅).2 in
    asserts [actions <>? [];
             forallb (fun a => asserts [a_kind a <>? ""; a_origin a <>? ""; (0 <? a_ts a)%N]) actions]).
End LifecycleTests.
Definition lifecycle_tests : list (string * bool) :=
  [("a_package_travels_as_a_document_and_installs_only_once_trusted",
      LifecycleTests.a_package_travels_as_a_document_and_installs_only_once_trusted);
   ("a_missing_bundle_is_reported_as_incomplete_not_as_a_bad_package",
      LifecycleTests.a_missing_bundle_is_reported_as_incomplete_not_as_a_bad_package);
   ("a_validly_signed_package_from_the_wrong_key_is_refused",
      LifecycleTests.a_validly_signed_package_from_the_wrong_key_is_refused);
   ("tampering_is_caught_before_the_operator_is_ever_asked",
      LifecycleTests.tampering_is_caught_before_the_operator_is_ever_asked);
   ("uninstall_collects_only_unreachable_chunks", LifecycleTests.uninstall_collects_only_unreachable_chunks);
   ("uninstalling_does_not_collect_a_package_this_node_still_offers",
      LifecycleTests.uninstalling_does_not_collect_a_package_this_node_still_offers);
   ("a_read_capability_names_a_model_not_every_document",
      LifecycleTests.a_read_capability_names_a_model_not_every_document);
   ("the_action_log_names_who_signed_each_action",
      LifecycleTests.the_action_log_names_who_signed_each_action)].
Lemma lifecycle_tests_pass : failing lifecycle_tests = [].
Proof. vm_compute. reflexivity. Qed.
