(* ===== verification/TestSync.v ===== *)
(** The end-to-end tests of tests/two_engine_sync.rs and tests/invite_join.rs:
    whole engines on one network.

    The network is the part of libp2p the engines rely on, at its best: a dial
    connects both ends, a request reaches the peer it names and the answer
    reaches the asker under the request's id, a published message reaches every
    connected peer with its author as the source, and what is sent first
    arrives first.  Each delivery is one turn of [run_step]; an action a local
    write leaves in the store's feed is the engine's next input. *)

From stdpp Require Import base gmap strings numbers pretty list.
From Stdlib Require Import Strings.Byte Strings.Ascii.
From S2P Require Import Prelude Json Doc Sample Action Model Builtins Entry Store StoreInv Text Invite Blob Codec.
From S2P Require Import Engine ReadModel Api Daemon TestKit TestStore TestApp.
Import StoreTests.
Open Scope test_scope.

(** ** The network *)

Module Mesh.
(** An input on its way to a node, with the id under which a request was sent. *)
Record Mail := { ml_to : PeerId; ml_input : Input; ml_id : N }.
Record Mesh := { ms_nodes : gmap string SyncEngine; ms_links : gset (string * string); ms_mail : list Mail }.

Definition linked (m : Mesh) (p q : PeerId) : bool := bool_decide ((p, q) ∈ ms_links m).
Definition post (m : Mesh) (l : list Mail) : Mesh :=
  {| ms_nodes := ms_nodes m; ms_links := ms_links m; ms_mail := ms_mail m ++ l |}.
Definition event_for (p : PeerId) (id : N) (e : SwarmEvent) : Mail := {| ml_to := p; ml_input := ISwarm e; ml_id := id |}.
Definition connect (m : Mesh) (p q : PeerId) : Mesh :=
  if linked m p q then m
  else post {| ms_nodes := ms_nodes m; ms_links := {[(p, q); (q, p)]} ∪ ms_links m; ms_mail := ms_mail m |}
         [event_for p 0 (ConnectionEstablished q); event_for q 0 (ConnectionEstablished p)].

(** What the swarm of [p] does with an output of a turn that handled [id]. *)
Definition send_out (p : PeerId) (id : N) (m : Mesh) (o : Output) : Mesh :=
  match o with
  | ORequest q n msg => if linked m p q then post m [event_for q n (SyncRequest p msg)] else m
  | OResponse q msg => post m [event_for q 0 (SyncResponse p id msg)]
  | OPublish msg => post m ((fun q => event_for q 0 (GossipMessage (Some p) msg)) <$>
                              filter (fun q => linked m p q = true) (map_to_list (ms_nodes m)).*1)
  | ODial (Some q) _ => if bool_decide (is_Some (ms_nodes m !! q)) then connect m p q else m
  | _ => m
  end.
(** The engine of [p] after a turn: its outputs are routed, its feed read. *)
Definition settle (m : Mesh) (p : PeerId) (id : N) (before g : SyncEngine) : Mesh :=
  let feed := default [] (i_outbound_feed (g_store g)) in
  let g' := set_store g (set_outbound (g_store g) (i_outbound (g_store g)) ((fun _ => []) <$> i_outbound_feed (g_store g))) in
  let m := {| ms_nodes := <[p := g']> (ms_nodes m); ms_links := ms_links m; ms_mail := ms_mail m |} in
  post (foldl (send_out p id) m (drop (length (g_out before)) (g_out g)))
    ((fun a => {| ml_to := p; ml_input := IOutbound a; ml_id := 0 |}) <$> feed).
(** One delivery, at the same instant as all others of a run. *)
Definition deliver (m : Mesh) : Mesh :=
  match ms_mail m with
  | [] => m
  | l :: rest =>
      let m := {| ms_nodes := ms_nodes m; ms_links := ms_links m; ms_mail := rest |} in
      match ms_nodes m !! ml_to l with
      | None => m
      | Some g => settle m (ml_to l) (ml_id l) g
                    (run_step sample_show g now (linked m (ml_to l)) "12D3KooWrandom" (ml_input l))
      end
  end.
(** A run of at most [n] deliveries; the tests ask that nothing is left. *)
Definition run_mesh (n : nat) (m : Mesh) : Mesh := Nat.iter n deliver m.
Definition quiet (m : Mesh) : bool := match ms_mail m with [] => true | _ => false end.

(** A command sent to a node, and a local write on its store. *)
Definition command (p : PeerId) (c : EngineCommand) (m : Mesh) : Mesh :=
  post m [{| ml_to := p; ml_input := ICmd c; ml_id := 0 |}].
Definition write {A} (p : PeerId) (prog : storeM A) (m : Mesh) : Mesh :=
  match ms_nodes m !! p with
  | Some g => settle m p 0 g (set_store g (after prog (g_store g)))
  | None => m
  end.
Definition store_at (m : Mesh) (p : PeerId) : Inner := default fresh (g_store <$> ms_nodes m !! p).
(** The statuses a node has announced for its drives, in order. *)
Definition statuses (m : Mesh) (p : PeerId) : list (string * DriveStatus) :=
  omap (fun o => match o with OEvent (EvDriveStatus n d _) => Some (n, d) | _ => None end)
    (default [] (g_out <$> ms_nodes m !! p)).
Definition wait_status (m : Mesh) (p : PeerId) (name : string) (want : DriveStatus) : bool :=
  bool_decide ((name, want) ∈ statuses m p).
Definition wait_field (m : Mesh) (p : PeerId) (doc field : string) (want : Value) : bool :=
  expect_some (get_doc (store_at m p) doc) (fun d => expect_some (doc_fields d !! field) (fun f =>
    (fld_value f ==? want) && negb (fld_deleted f))).
(** Two engines on empty directories, started. *)
Definition alpha : PeerId := "12D3KooWalpha".
Definition beta : PeerId := "12D3KooWbeta".
Definition listen : Multiaddr := [Ip4 "127.0.0.1"; Tcp 4201].
Definition spawn_node (peer : PeerId) (seed : N) (tag : string) : SyncEngine :=
  run_start (engine_new (store_open empty_disk (sk seed) peer) peer tag listen None [] ∅ false None ∅).
Definition pair_of_nodes : Mesh :=
  {| ms_nodes := {[ alpha := spawn_node alpha 1 "alpha"; beta := spawn_node beta 2 "beta" ]};
     ms_links := ∅; ms_mail := [] |}.
Definition drive_to (name : string) (peer : PeerId) (offline : bool) : Drive :=
  {| d_name := name; d_addr := listen ++ [P2p peer]; d_token_env := None; d_paused := false;
     d_available_offline := offline |}.
(** The time a test waits: long enough for every exchange to end, then a tick
    on every node, and what it starts. *)
Definition ticks (m : Mesh) : Mesh :=
  post m ((fun p => {| ml_to := p; ml_input := ITick now; ml_id := 0 |}) <$> (map_to_list (ms_nodes m)).*1).
Definition until_quiet (m : Mesh) : Mesh := run_mesh 40 (ticks (run_mesh 40 m)).
Definition cross_linked (m : Mesh) : Mesh :=
  until_quiet (command beta (AddDrive (drive_to "alpha" alpha false)) (command alpha (AddDrive (drive_to "beta" beta false)) m)).
End Mesh.

(** ** tests/two_engine_sync.rs *)

Module EngineSyncTests.
Import Mesh.
Definition two_engines_sync_docs_both_directions : bool :=
  let m1 := cross_linked pair_of_nodes in
  let m2 := until_quiet (write alpha (create 1 "note" ["body" ~> Str "hello from alpha"]) m1) in
  let m3 := until_quiet (write beta (update "note" "body" (Str "edited by beta")) m2) in
  asserts [quiet m1; wait_status m1 alpha "beta" Synced; wait_status m1 beta "alpha" Synced;
           quiet m2; wait_field m2 beta "note" "body" (Str "hello from alpha");
           quiet m3; wait_field m3 alpha "note" "body" (Str "edited by beta")].
Definition drive_added_after_peer_already_connected_completes_handshake : bool :=
  let m1 := until_quiet (command alpha (AddDrive (drive_to "beta" beta false)) pair_of_nodes) in
  let m2 := until_quiet (command beta (AddDrive (drive_to "alpha" alpha false)) m1) in
  let m3 := until_quiet (write alpha (create 1 "late-note" ["body" ~> Str "late drive, early doc"]) m2) in
  let m4 := until_quiet (write beta (update "late-note" "body" (Str "beta saw it")) m3) in
  asserts [quiet m1; wait_status m1 alpha "beta" Synced; quiet m2; wait_status m2 beta "alpha" Synced;
           wait_field m3 beta "late-note" "body" (Str "late drive, early doc");
           quiet m4; wait_field m4 alpha "late-note" "body" (Str "beta saw it")].
Definition task : ModelRef := modelref_new "task" "1".
Definition custom_model_is_distributed_over_the_mesh : bool :=
  expect (from_def task_def) (fun model =>
    let m0 := write alpha (modify (fun s => add_model s (ML1 model))) pair_of_nodes in
    let m1 := cross_linked m0 in
    let m2 := until_quiet (write alpha (create_doc_model now 1 "write-the-reactor" task
      (json_obj ["name" ~> Str "write-the-reactor"; "title" ~> Str "Reactor in Rust"; "status" ~> Str "doing";
                 "assignee" ~> Str "froid"; "project" ~> Str "native"; "priority" ~> Number 2])) m1) in
    asserts [model_available (store_at m0 alpha) task; negb (model_available (store_at m0 beta) task);
             wait_status m1 alpha "beta" Synced; wait_status m1 beta "alpha" Synced; quiet m2;
             wait_field m2 beta "write-the-reactor" "title" (Str "Reactor in Rust");
             wait_field m2 beta "write-the-reactor" "status" (Str "doing");
             wait_field m2 beta "write-the-reactor" "priority" (Number 2);
             model_available (store_at m2 beta) task]).
End EngineSyncTests.
Definition engine_sync_tests : list (string * bool) :=
  [("two_engines_sync_docs_both_directions", EngineSyncTests.two_engines_sync_docs_both_directions);
   ("drive_added_after_peer_already_connected_completes_handshake",
      EngineSyncTests.drive_added_after_peer_already_connected_completes_handshake);
   ("custom_model_is_distributed_over_the_mesh", EngineSyncTests.custom_model_is_distributed_over_the_mesh)].
Lemma engine_sync_tests_pass : failing engine_sync_tests = [].
Proof. vm_compute. reflexivity. Qed.

(** ** tests/invite_join.rs *)

Module JoinTests.
Import Mesh.
#[local] Instance InviteToken_eq_dec : EqDecision InviteToken.
Proof. solve_decision. Defined.
(** The outcome of [InviteToken::make], on the bytes [new_nonce] drew. *)
Definition invite_of_alpha : result string InviteToken :=
  token_make "alpha" alpha (sk 1) ("/ip4/127.0.0.1/tcp/4201/p2p/" +:+ alpha) ["powerhouse"] (Ok (be_bytes 16 7)).
Definition beta_drive : string := "beta (" +:+ String.substring 0 12 beta +:+ ")".
Definition invite_join_then_sync : bool :=
  expect invite_of_alpha (fun made =>
    let text := texts [made] in
    expect (token_decode (token_encode made)) (fun token =>
      let accept := accept_make (t_nonce token) "beta" beta (sk 2) in
      let m1 := until_quiet (command beta (Join (drive_to (t_name token) alpha true) accept) pair_of_nodes) in
      let m2 := until_quiet (write beta (create 1 "shared-note" ["title" ~> Str "hello"]) m1) in
      asserts [t_name token ==? "alpha"; quiet m1; wait_status m1 alpha beta_drive Synced;
               wait_status m1 beta "alpha" Synced; quiet m2;
               existsb (fun id => store_doc_name (store_at m2 alpha) id ==? "shared-note") (doc_ids (store_at m2 alpha))])).
Definition banned_peer_is_refused : bool :=
  let m0 := write beta (create 1 "b-secret" ["title" ~> Str "secret"]) pair_of_nodes in
  let m1 := until_quiet (command beta (Ban alpha) m0) in
  let m2 := until_quiet (command alpha (AddDrive (drive_to "beta" beta true)) m1) in
  asserts [some (get_doc (store_at m2 beta) "b-secret"); quiet m2; wait_status m2 alpha "beta" DriveError;
           negb (existsb (fun id => store_doc_name (store_at m2 alpha) id ==? "b-secret") (doc_ids (store_at m2 alpha)))].
End JoinTests.
Definition join_tests : list (string * bool) :=
  [("invite_join_then_sync", JoinTests.invite_join_then_sync);
   ("banned_peer_is_refused", JoinTests.banned_peer_is_refused)].
Lemma join_tests_pass : failing join_tests = [].
Proof. vm_compute. reflexivity. Qed.
