(* ===== verification/Achra.v ===== *)
(** The Achra models (models/achra.json), which a node loads at runtime: the
    definitions, the tests of tests/achra_models.rs, and what the store
    guarantees of an award.  A definition is written without its [$comment]
    entries, which [from_def] does not read. *)

From stdpp Require Import base gmap strings numbers pretty list.
From Stdlib Require Import Strings.Byte Strings.Ascii.
From S2P Require Import Prelude Json Doc Sample Action Model Builtins Entry Store StoreInv StoreProps Apps.
From S2P Require Import Invite TestKit TestStore.
Import StoreTests.
Open Scope test_scope.

(** ** The definitions *)

Module AchraDefs.
Definition set_to (v : string) : Value := json_obj ["set" ~> Str v].
Definition append_to (v : string) : Value := json_obj ["append" ~> Str v].
Definition types (l : list (string * string)) : Value := json_obj (prod_map id Str <$> l).
Definition actor_in (f : string) : Value := json_obj ["actor-in" ~> Str f].
Definition actor_not_in (f : string) : Value := json_obj ["actor-not-in" ~> Str f].
Definition status_is (v : string) : Value :=
  json_obj ["field-is" ~> json_obj ["field" ~> Str "status"; "value" ~> Str v]].
(** A reducer that only moves the status, under its conditions. *)
Definition moves (payload : list (string * string)) (status : string) (pre : list Value) : Value :=
  json_obj ["payload" ~> types payload; "writes" ~> json_obj ["status" ~> set_to status]; "pre" ~> Array pre].

Definition achra_rfp_def : Value :=
  json_obj [
    "name" ~> Str "rfp"; "version" ~> Str "1";
    "fields" ~> types [
      ("publisher", "string[]"); ("approvers", "string[]"); ("title", "string"); ("brief", "string");
      ("budget", "number"); ("currency", "string"); ("deadline", "string"); ("status", "string");
      ("winner", "string"); ("award_amount", "number")];
    "reducers" ~> json_obj [
      "init" ~> json_obj [
        "payload" ~> types [
          ("name", "string"); ("title", "string"); ("brief", "string"); ("budget", "number");
          ("currency", "string"); ("deadline", "string"); ("approvers", "string[]")];
        "writes" ~> json_obj [
          "__name__" ~> set_to "$payload.name"; "publisher" ~> append_to "$actor";
          "approvers" ~> set_to "$payload.approvers"; "title" ~> set_to "$payload.title";
          "brief" ~> set_to "$payload.brief"; "budget" ~> set_to "$payload.budget";
          "currency" ~> set_to "$payload.currency"; "deadline" ~> set_to "$payload.deadline";
          "status" ~> set_to "open"]];
      "cancel" ~> moves [] "cancelled" [actor_in "publisher"; status_is "open"];
      "award" ~> json_obj [
        "payload" ~> types [("builder", "string"); ("amount", "number")];
        "writes" ~> json_obj [
          "status" ~> set_to "awarded"; "winner" ~> set_to "$payload.builder";
          "award_amount" ~> set_to "$payload.amount"];
        "pre" ~> Array [
          status_is "open";
          json_obj ["quorum" ~> json_obj ["group" ~> Str "$self"; "min" ~> Number 2; "field" ~> Str "approvers"]]]]]].
Definition achra_proposal_def : Value :=
  json_obj [
    "name" ~> Str "proposal"; "version" ~> Str "1";
    "fields" ~> types [
      ("rfp_ref", "string"); ("submitter", "string[]"); ("summary", "string"); ("amount", "number");
      ("status", "string")];
    "reducers" ~> json_obj [
      "init" ~> json_obj [
        "payload" ~> types [("name", "string"); ("rfp_ref", "string"); ("summary", "string"); ("amount", "number")];
        "writes" ~> json_obj [
          "__name__" ~> set_to "$payload.name"; "rfp_ref" ~> set_to "$payload.rfp_ref";
          "submitter" ~> append_to "$actor"; "summary" ~> set_to "$payload.summary";
          "amount" ~> set_to "$payload.amount"; "status" ~> set_to "submitted"]];
      "withdraw" ~> moves [] "withdrawn" [actor_in "submitter"; status_is "submitted"];
      "accept" ~> moves [] "accepted" [actor_not_in "submitter"; status_is "submitted"];
      "decline" ~> moves [] "declined" [actor_not_in "submitter"; status_is "submitted"]]].
Definition achra_agreement_def : Value :=
  json_obj [
    "name" ~> Str "agreement"; "version" ~> Str "1";
    "fields" ~> types [
      ("rfp_ref", "string"); ("proposal_ref", "string"); ("org", "string[]"); ("builder", "string[]");
      ("total", "number"); ("status", "string")];
    "reducers" ~> json_obj [
      "init" ~> json_obj [
        "payload" ~> types [
          ("name", "string"); ("rfp_ref", "string"); ("proposal_ref", "string"); ("builder", "string");
          ("total", "number")];
        "writes" ~> json_obj [
          "__name__" ~> set_to "$payload.name"; "rfp_ref" ~> set_to "$payload.rfp_ref";
          "proposal_ref" ~> set_to "$payload.proposal_ref"; "org" ~> append_to "$actor";
          "builder" ~> append_to "$payload.builder"; "total" ~> set_to "$payload.total";
          "status" ~> set_to "active"]];
      "complete" ~> moves [] "completed" [actor_in "org"; status_is "active"];
      "terminate" ~> moves [("reason", "string")] "terminated" [actor_in "org"; status_is "active"]]].
Definition achra_milestone_def : Value :=
  json_obj [
    "name" ~> Str "milestone"; "version" ~> Str "1";
    "fields" ~> types [
      ("agreement_ref", "string"); ("org", "string[]"); ("builder", "string[]"); ("title", "string");
      ("amount", "number"); ("evidence", "string"); ("status", "string")];
    "reducers" ~> json_obj [
      "init" ~> json_obj [
        "payload" ~> types [
          ("name", "string"); ("agreement_ref", "string"); ("builder", "string"); ("title", "string");
          ("amount", "number")];
        "writes" ~> json_obj [
          "__name__" ~> set_to "$payload.name"; "agreement_ref" ~> set_to "$payload.agreement_ref";
          "org" ~> append_to "$actor"; "builder" ~> append_to "$payload.builder";
          "title" ~> set_to "$payload.title"; "amount" ~> set_to "$payload.amount";
          "status" ~> set_to "pending"]];
      "submit" ~> json_obj [
        "payload" ~> types [("evidence", "string")];
        "writes" ~> json_obj ["evidence" ~> set_to "$payload.evidence"; "status" ~> set_to "submitted"];
        "pre" ~> Array [actor_in "builder"; status_is "pending"]];
      "accept" ~> moves [] "accepted" [actor_in "org"; status_is "submitted"];
      "reject" ~> moves [("reason", "string")] "pending" [actor_in "org"; status_is "submitted"]]].
Definition achra_models : list Value :=
  [achra_rfp_def; achra_proposal_def; achra_agreement_def; achra_milestone_def].
End AchraDefs.

(** ** tests/achra_models.rs *)

Module AchraTests.
Import AchraDefs.
(** [store_as]: a store of the actor, every definition registered. *)
Definition store_as (actor : string) : Inner :=
  foldl (fun s d => match from_def d with Ok l => add_model s (ML1 l) | Err _ => s end)
    (store_open empty_disk (sk 7) actor) achra_models.
Definition model_ref (name : string) : ModelRef := modelref_new name "1".
Definition org : string := "12D3KooW-org".
Definition builder : string := "12D3KooW-builder".
Definition rfp_of (name title brief : string) (budget : Z) (approvers : list string) : Value :=
  json_obj ["name" ~> Str name; "title" ~> Str title; "brief" ~> Str brief; "budget" ~> Number budget;
            "currency" ~> Str "USD"; "deadline" ~> Str "2026-12-01"; "approvers" ~> json_strs approvers].
Definition creates (name model : string) (payload : Value) : storeM DocId :=
  create_doc_model now 1 name (model_ref model) payload.
Definition acts (name model kind : string) (payload : Value) : storeM Action :=
  apply_local_action now name (model_ref model) kind payload.
Definition has_field (name field : string) (v : Value) : storeM unit :=
  ensure (fun s => value_of s name field ==? Some v).

Definition every_model_definition_is_valid : bool :=
  asserts [length achra_models ==? 4; forallb (fun d => is_ok (from_def d)) achra_models].
Definition award_requires_a_quorum_of_the_rfps_own_approvers : bool :=
  expect (from_def achra_rfp_def) (fun m =>
    asserts [match l1_quorum m "award" with
             | Some q => asserts [q_min q ==? 2%N; q_group q ==? "$self"; q_field q ==? "approvers"]
             | None => false
             end;
             none (l1_quorum m "init"); none (l1_quorum m "cancel")]).
Definition only_the_publisher_can_cancel_an_rfp : bool :=
  asserts [
    passes (
      _ ← creates "rfp-1" "rfp" (rfp_of "rfp-1" "Index the archive" "Build a searchable index" 50000 [org; "12D3KooW-cfo"]);
      _ ← has_field "rfp-1" "status" (Str "open");
      _ ← has_field "rfp-1" "publisher" (json_strs [org]);
      _ ← acts "rfp-1" "rfp" "cancel" (json_obj []);
      _ ← has_field "rfp-1" "status" (Str "cancelled");
      err ← refused (acts "rfp-2" "rfp" "cancel" (json_obj []));
      holds (str_contains err "no doc named" || str_contains err "not in")) (store_as org);
    passes (creates "rfp-2" "rfp" (rfp_of "rfp-2" "t" "b" 1 [org])) (store_as "12D3KooW-stranger")].
Definition a_cancelled_rfp_cannot_be_awarded : bool :=
  passes (
    _ ← creates "rfp-1" "rfp" (rfp_of "rfp-1" "t" "b" 10 [org; "12D3KooW-cfo"]);
    _ ← acts "rfp-1" "rfp" "cancel" (json_obj []);
    err ← refused (acts "rfp-1" "rfp" "award" (json_obj ["builder" ~> Str builder; "amount" ~> Number 10]));
    holds (str_contains err "status" || str_contains err "quorum")) (store_as org).
Definition milestone_transitions_are_gated_to_the_right_party : bool :=
  passes (
    _ ← creates "ms-1" "milestone" (json_obj ["name" ~> Str "ms-1"; "agreement_ref" ~> Str "ag-1"; "builder" ~> Str builder;
                                              "title" ~> Str "Phase one"; "amount" ~> Number 5000]);
    _ ← has_field "ms-1" "status" (Str "pending");
    _ ← has_field "ms-1" "org" (json_strs [org]);
    _ ← has_field "ms-1" "builder" (json_strs [builder]);
    err ← refused (acts "ms-1" "milestone" "submit" (json_obj ["evidence" ~> Str "https://example/pr/1"]));
    _ ← holds (str_contains err "not in");
    err ← refused (acts "ms-1" "milestone" "accept" (json_obj []));
    holds (str_contains err "status")) (store_as org).
Definition prop_of (summary : string) (amount : Z) : Value :=
  json_obj ["name" ~> Str "prop-1"; "rfp_ref" ~> Str "rfp-1"; "summary" ~> Str summary; "amount" ~> Number amount].
Definition a_builder_cannot_decide_their_own_proposal : bool :=
  forallb (fun kind =>
    passes (
      _ ← creates "prop-1" "proposal" (prop_of "we will do it" 42000);
      _ ← has_field "prop-1" "submitter" (json_strs [builder]);
      err ← refused (acts "prop-1" "proposal" kind (json_obj []));
      holds (str_contains err "is in 'submitter'")) (store_as builder)) ["accept"; "decline"].
Definition a_builder_can_withdraw_their_own_proposal : bool :=
  passes (
    _ ← creates "prop-1" "proposal" (prop_of "s" 1);
    _ ← acts "prop-1" "proposal" "withdraw" (json_obj []);
    has_field "prop-1" "status" (Str "withdrawn")) (store_as builder).
End AchraTests.
Definition achra_tests : list (string * bool) :=
  [("every_model_definition_is_valid", AchraTests.every_model_definition_is_valid);
   ("award_requires_a_quorum_of_the_rfps_own_approvers",
      AchraTests.award_requires_a_quorum_of_the_rfps_own_approvers);
   ("only_the_publisher_can_cancel_an_rfp", AchraTests.only_the_publisher_can_cancel_an_rfp);
   ("a_cancelled_rfp_cannot_be_awarded", AchraTests.a_cancelled_rfp_cannot_be_awarded);
   ("milestone_transitions_are_gated_to_the_right_party",
      AchraTests.milestone_transitions_are_gated_to_the_right_party);
   ("a_builder_cannot_decide_their_own_proposal", AchraTests.a_builder_cannot_decide_their_own_proposal);
   ("a_builder_can_withdraw_their_own_proposal", AchraTests.a_builder_can_withdraw_their_own_proposal)].
Lemma achra_tests_pass : failing achra_tests = [].
Proof. vm_compute. reflexivity. Qed.

(** ** What an award takes *)

Section Award.
Context `{Platform}.
Import AchraDefs.

(** An accepted award of a request for proposals, in any store, is signed by two
    different people of the [approvers] the document has at that moment. *)
Theorem award_needs_two_approvers (s : Inner) (a : Action) r l :
  from_def achra_rfp_def = Ok l -> reg_find (i_models s) (a_model a) = Some (ML1 l) ->
  (apply_action a s).2 = Ok r -> a_kind a = "award" ->
  two_signers s a {| q_group := "$self"; q_min := 2; q_field := "approvers" |}.
Proof.
  intros [= <-] Hm Ha Ek.
  refine (quorum_two_signers s a r _ _ Ha Hm _ _); [rewrite Ek; vm_compute|simpl]; reflexivity || lia.
Qed.
End Award.

(** But [init] has no condition: a peer the publisher never named sends it again
    with approvers of its own, and awards the contract with them. *)
Module AchraSample.
Import AchraTests.
Definition stranger : string := "12D3KooW-stranger".
Definition friend : string := "12D3KooW-friend".
Definition published_rfp : Inner :=
  after (_ ← pin stranger (sk 8); _ ← pin friend (sk 9);
         creates "rfp-1" "rfp" (rfp_of "rfp-1" "t" "b" 10 [org; "12D3KooW-cfo"])) (store_as org).
Definition second_init : Action :=
  signed_by (unsigned 1 "rfp" "init" (rfp_of "rfp-1" "t" "b" 10 [stranger; friend]) stranger (clock1 stranger 1)
               (now + 1)%N None None) (sk 8) [].
Definition own_award : Action :=
  signed_by (unsigned 1 "rfp" "award" (json_obj ["builder" ~> Str stranger; "amount" ~> Number 999]) stranger
               (clock1 stranger 2) (now + 2)%N None None) (sk 8) [(friend, sk 9)].
End AchraSample.
Import AchraTests AchraSample.
Lemma rfp_second_init_takes_over :
  passes (_ ← refused (remote own_award); _ ← remote second_init; _ ← remote own_award;
          _ ← has_field "rfp-1" "status" (Str "awarded"); has_field "rfp-1" "winner" (Str stranger)) published_rfp = true.
Proof. vm_compute. reflexivity. Qed.
